(* ===== verification/_CoqProject ===== *)
-Q . S2P
Prelude.v
Crc32.v
AclHash.v
AclTuple.v
AclBitmap.v
AclStore.v
AclApi.v
AclDup.v
AclDemo.v
AclRte.v
AclLookup.v
GenericHash.v
GenericHashRun.v
TwTimer.v
TwTimerRun.v
TwTimerSpec.v
FrameLoop.v
Wdata.v
Decode.v
DecodeSpec.v
DecodeRound.v
DecodeBounds.v
DecodeLoop.v
SfPool.v
SfPoolInv.v
SfPoolRun.v
Shm.v
ShmFile.v
ShmLayout.v
ShmBoot.v
ShmLock.v
ShmDemo.v
CliUdp.v
CliUdpSpec.v
IntfStat.v
IntfStatSpec.v
HugePkt.v
HugePktSpec.v
HugeFrame.v
Transport.v
TransportSpec.v
PktIo.v
PktIoSpec.v
Hqos.v
HqosSpec.v
HqosThread.v
TxBurst.v
TxBurstSpec.v
Handoff.v
HandoffSpec.v
Action.v
Wrr.v
LoadBalance.v
Encap.v
EncapSpec.v
EncapHeader.v
EncapRound.v
EncapErspan.v
EncapTunnel.v
EncapPath.v
IntfConfig.v
Datapath.v
AclHit.v
AclHitSpec.v
DatapathSpec.v
DatapathDemo.v
IntfConfigSpec.v
IntfPhy.v
IntfPhySpec.v
IpReass.v
ReassConfig.v
IpReassSplit.v
IpReassForest.v
IpReassInv.v
IpReassStep.v
IpReassProc.v
IpReassBuild.v
IpReassOrder.v
IpReassDemo.v
IpReassForward.v
