(* ===== verification/Prelude.v ===== *)
(** * Tapplet: a verification development

    Tapplet is a network packet broker: frames from its capture interfaces are
    decoded, matched against a table of ACL rules and sent, by the action of the
    rule they match, to output interfaces, to a load-balanced group of interfaces
    or through up to three tunnels.  It is written as plugins of the vector packet
    library VPP ([src/src]), whose nodes each take a frame (an array of buffer
    indices), do their work on every packet and name the next node of each.  A
    configuration library ([src/nshell-lib]), used by the command line and the REST
    server, writes rules, actions and interface settings into memory shared with
    the nodes.

    ** The parts, and the files that model them

    - Prelude: integers at their width ([u8] ... [u64], [i16]), arrays that read as
      zero where nothing was written ([m.[i]], [m.[i <- v]], [arr_equiv]), the
      option monad of loops with fuel ([let?]), reachability of a step relation,
      list lemmas, and the class [ByteHash] of a hash of bytes.
    - Wdata: the record every packet carries ([sf_wdata_t]), the header fields read
      from memory, and the class [Vlib] of what all nodes take from VPP.
    - FrameLoop: the loop of a node over a frame, as a relation ([frame_run],
      where VPP's next frame has room for two packets or not) and as a function
      ([pair_loop]); both are reduced to one packet after the other.

    Configuration ([src/nshell-lib]):
    - Crc32, AclHash: the hash of a rule ([sf_crc_nshell.h]) and the table that
      finds duplicates ([sf_acl_hash.c]).
    - AclTuple, AclBitmap, AclStore, AclApi, AclDup, AclDemo: the store of rules
      ([sf_acl_tuple_api.c], [sf_acl_api.c]); it refines a finite map from the
      user's rule ids to rules.
    - Action, DatapathDemo: actions and their configuration ([action_api.c]).
    - IntfConfig, IntfConfigSpec: the settings of an interface ([sf_intf_api.c]).
    - Shm: the memory shared by the configuration side and the data plane: the blocks
      the modules register, their layout, saving and loading ([shm_main.c],
      [shm_memory.c], [global_api.c]); ShmLayout is the layout, ShmFile the file,
      ShmBoot the start of both sides, ShmLock the lock word, ShmDemo concrete runs.
    - ReassConfig: the settings of the reassembly ([ip_reass_api.c]) and the way from
      a setting to the node that reads it.
    - IntfStat, IntfStatSpec: the counters of the threads, their collection
      ([sf_interface_stat.c]) and what the configuration library shows of them.
    - AclHit, AclHitSpec: the hits of the rules, their collection and clearing
      ([acl_cli.c], [acl_stat_tools.h]), as lists of accesses that interleave with
      those of the workers and of the library.
    - CliUdp, CliUdpSpec: a command sent to the data plane and its answer
      ([send2vpp_rest.c], [cli_udp_server.c]).

    The way of a packet ([src/src]):
    - IntfPhy, IntfPhySpec: the start of the ports, their link status and the input
      node ([sf_intf_phy_stat.c], [sf_dpdk_init.c], [sf_interface_stat.c]).
    - PktIo, PktIoSpec: from and to the card ([dpdk/device/node.c], [device.c]).
    - Handoff, HandoffSpec: to the worker of its two ends and protocol
      ([sf_pkt_handoff.c]).
    - HugePkt, HugePktSpec, HugeFrame: packets of several buffers, gathered into one
      of 16 KB on arrival and split again ([sf_huge_pkt_intput.c],
      [sf_huge_pkt_output.c]); concrete runs are at the end of PktIoSpec.
    - SfPool, SfPoolInv, SfPoolRun: the pool those buffers come from ([sf_pool.c]).
    - Decode, DecodeSpec, DecodeRound, DecodeBounds, DecodeLoop: the decoders
      ([nodes/decode]).
    - IpReass, IpReassSplit, IpReassForest, IpReassInv, IpReassStep, IpReassProc,
      IpReassBuild, IpReassOrder, IpReassDemo, IpReassForward: reassembly of IP
      fragments ([ip_reass]) over GenericHash, GenericHashRun ([generic_hash.c])
      and with timeouts from TwTimer, TwTimerRun, TwTimerSpec ([sf_timer]).
    - AclRte, AclLookup: the rules of the store become a table of DPDK's
      classifier, exchanged while packets flow ([acl_tuple_sync.c],
      [acl_sync_process.c]).
    - Datapath, DatapathSpec: the ACL node, the action node and the load-balancing
      node one after the other ([acl_entry.c], [action_main.c],
      [load_balance_interface.c]), over Wrr and LoadBalance ([action_tools.h]).
    - Encap, EncapSpec, EncapHeader, EncapRound, EncapErspan, EncapTunnel,
      EncapPath: GRE, VXLAN and ERSPAN tunnels ([nodes/additional]).
    - Transport, TransportSpec: the output node and the drop node
      ([nodes/transport]).
    - TxBurst, TxBurstSpec: handing a frame to the card ([dpdk/device/device.c]); Hqos,
      HqosSpec, HqosThread: marking packets for the scheduler of a port, the commands
      that say how, and the thread that schedules ([dpdk/hqos/hqos.c], [cli.c]).

    ** How the code is modelled

    A C function is a function on explicit state, named as in C; a node is its body
    for one packet, its body for two (with the order of its statements) and the
    loop.  Memory is a map from addresses to bytes; a pool or a hash table keeps
    its links as words, so that aliasing and reuse are visible.  Stores to a field
    of [w] bits are taken modulo [2 ^ w].  Shared memory that is not mapped, and
    errors, are [option]s and the error codes of the C code.  What is not in the
    repository is a parameter: a class for each library ([Vlib], [VlibBuffers],
    [RteAcl], [ByteHash], [Ip4Checksum], [Inet]), with the laws of the library's
    documentation where a theorem needs them ([RteAclLaws], [VlibBuffersLaws]); each
    class has an instance in one of the Demo files or beside the theorem that
    needs one, and every theorem with hypotheses has a witness that applies it
    there.

    Loops that follow links or read packets take fuel, and a result [None] means
    the fuel ran out.  Enough fuel: the number of slots for the
    duplicate hash, unless its links run in a circle ([try_map_refines],
    [post_only_detects]; [delete_readd_diverges] shows how they come to), the length of the packet for the decoders
    ([decode_terminates_inside]), the positions of one round for the weighted
    round robin ([wrr_fair], [wrr_gives_up]), the buffers of a forest for the
    reassembly ([split_on_fail_spec]), the segments of an mbuf plus one for the
    receive loop ([wire_roundtrip]).  The loops that wait for the card have no bound in
    the code: they take the list of the card's answers, [None] means they go on after
    the last one ([tx_accounts], [full_card_blocks]).

    ** What the theorems show

    - The store of rules: every call refines the same call on a finite map
      ([try_map_refines], [delete_refines]); an installed table answers what the
      map means ([sync_installs_lookup]); as long as rules are only created no rule
      is stored twice, and deleting breaks both this and termination
      ([delete_readd_diverges]).
    - The way of a packet: encoded packets decode to their fields, any bytes are
      decoded inside the packet, and each packet gets the action of the smallest
      rule that matches it ([decode_encode], [decode_terminates_inside],
      [acl_entry_applies_rules]); its action leads to its interface, tunnels
      can be read back by a receiver and nest ([action_to_interface],
      [tunnel_read_back], [tunnels_nest]); load balancing picks an interface that is
      up and shares them by weight ([load_balance_finds_up], [wrr_fair]), within the
      bounds [balance_ready] and [wrr_fair] state; [wrr_gives_up] is a packet lost
      outside them.
    - Reassembly: a fragment does what it should to the contents of the table, the
      fragments of a datagram make the datagram in any order, and what is decided
      on the datagram reaches every fragment ([frag_proc_refines],
      [reass_in_any_order], [verdict_reaches_fragments]).
    - Shared services: the pool hands out no node twice and loses none
      ([pool_alloc_safe], [pool_conservation]), the hash table finds what is in it
      ([hash_find_live]), a timer expires at its tick ([wheel_on_time]).
    - Transport: a packet split, sent, received and gathered keeps its bytes
      ([wire_roundtrip]); a frame of such packets gives back what it should
      ([hugepkt_input_conserves]); untagged packets between two ends whose
      headers name the same protocol meet at one worker ([same_ends_same_worker]); every packet is counted once
      ([output_counts_sent], [drop_counts_recorded]) and the totals shown are the
      packets counted ([totals_follow_ledger]).
    - Settings: they keep their types whatever is called ([settings_typed]); at the
      start the blocks of the modules lie one behind the other and do not overlap, for
      every order of registration ([start_lays_out]); a restart restores what was
      saved and counts itself ([restart_restores_settings]); an action set for a rule is
      the one its packets get ([rule_action_reaches_packets]).
    - Counting and commands: what a rule shows and what is still to be collected are the
      hits counted, but for those between the two reads of a collection
      ([hits_accounted]); a command gets its answer, and only its own,
      whatever is late or lost ([command_answered], [answers_belong]).
    - The ports: packets leave on interfaces whose link is up ([balanced_over_live_links],
      [links_follow_card]); a frame handed to the card is sent or freed, each packet once
      ([tx_accounts], which also shows that the freed ones are counted as sent); a packet
      marked for the scheduler names a queue the scheduler has,
      the scheduling thread keeps every packet and hands it on in bounded time
      ([packets_get_existing_queue], [hqos_keeps_packets], [packets_leave]).
    - Errors the code has, as theorems about it: [delete_readd_diverges],
      [down_interface_shares_buffer], [long_file_overruns] and others among the lemmas
      of the files ([handoff_status_truncated], [header_overruns_block],
      [lock_not_exclusive], [answerer_asked_next]).

    ** What is not modelled

    Command-line output, traces and prefetches; the allocation of arrays and the
    registration of nodes when the program starts; the system calls that create and
    attach shared memory, open files and make sockets (their outcome is an argument);
    the locks of the data plane (an operation that runs under a lock is one step; the
    threads that share an action run one after the other); the fields of the packet
    record that no modelled code reads; the rest of DPDK's and VPP's own plugin under
    [src/src/dpdk] (device set-up, buffer pools, formatting, most of its command line),
    the REST server and the command line of the management side, and the programs that
    test parts of the library. *)
From Stdlib Require Export ZArith Lia.
From stdpp Require Export base decidable list numbers gmap.
#[export] Set Default Goal Selector "!".
#[global] Open Scope Z_scope.

Declare Scope tap_scope.
Delimit Scope tap_scope with tap.

(** * Machine integers

    A [w]-bit unsigned integer is a [Z]; a store to a [w]-bit location (a C
    assignment to a [uintN_t] or to an N-bit bit-field) keeps the value modulo
    [2 ^ w]. *)

Definition wrap (w z : Z) : Z := z mod 2 ^ w.
Abbreviation u8 := (wrap 8).
Abbreviation u16 := (wrap 16).
Abbreviation u24 := (wrap 24).
Abbreviation u32 := (wrap 32).
Abbreviation u64 := (wrap 64).

(** A signed 16-bit store (two's complement). *)
Definition i16 (z : Z) : Z := (z + 2 ^ 15) mod 2 ^ 16 - 2 ^ 15.

(** A sum of two [int]s, with the wrap-around of the machine. *)
Definition i32 (z : Z) : Z := (z + 2 ^ 31) mod 2 ^ 32 - 2 ^ 31.

Lemma i32_small z : - 2 ^ 31 <= z < 2 ^ 31 -> i32 z = z.
Proof. intros Hz. unfold i32. rewrite Z.mod_small by lia. lia. Qed.

Lemma wrap_small w z : 0 <= z < 2 ^ w -> wrap w z = z.
Proof. apply Z.mod_small. Qed.

Lemma wrap_range w z : 0 <= w -> 0 <= wrap w z < 2 ^ w.
Proof. intros Hw. apply Z.mod_pos_bound, Z.pow_pos_nonneg; lia. Qed.

Lemma wrap_idemp w z : wrap w (wrap w z) = wrap w z.
Proof. apply Zmod_mod. Qed.

Lemma wrap_add_l w a b : wrap w (wrap w a + b) = wrap w (a + b).
Proof. apply Zplus_mod_idemp_l. Qed.

Lemma wrap_add_r w a b : wrap w (a + wrap w b) = wrap w (a + b).
Proof. apply Zplus_mod_idemp_r. Qed.

Lemma wrap_sub_l w a b : wrap w (wrap w a - b) = wrap w (a - b).
Proof. apply Zminus_mod_idemp_l. Qed.

Lemma wrap_sub_r w a b : wrap w (a - wrap w b) = wrap w (a - b).
Proof. apply Zminus_mod_idemp_r. Qed.

Lemma wrap_land w z : 0 <= w -> Z.land z (2 ^ w - 1) = wrap w z.
Proof.
  intros Hw. unfold wrap. rewrite <- Z.land_ones by lia.
  f_equal. rewrite Z.ones_equiv. lia.
Qed.

Lemma land_one_bit a k : 0 <= k -> Z.land a (Z.shiftl 1 k) = if Z.testbit a k then 2 ^ k else 0.
Proof.
  intros Hk. rewrite Z.shiftl_1_l. apply Z.bits_inj'. intros i Hi. rewrite Z.land_spec, Z.pow2_bits_eqb by lia.
  destruct (Z.eqb_spec k i) as [<-|Hne].
  - destruct (Z.testbit a k) eqn:E; [|by rewrite Z.bits_0]. by rewrite Z.pow2_bits_true.
  - rewrite andb_false_r. destruct (Z.testbit a k); [|by rewrite Z.bits_0]. by rewrite Z.pow2_bits_false.
Qed.

Lemma i16_small z : - 2 ^ 15 <= z < 2 ^ 15 -> i16 z = z.
Proof. intros H. unfold i16. rewrite Z.mod_small; lia. Qed.

(** [clib_net_to_host_u16/u32/u64] on a little-endian host swap the bytes. *)
Definition bswap16 (z : Z) : Z :=
  Z.lor (Z.shiftl (Z.land z 255) 8) (Z.land (Z.shiftr z 8) 255).

Definition bswap32 (z : Z) : Z :=
  Z.lor (Z.shiftl (bswap16 (Z.land z 65535)) 16)
        (bswap16 (Z.land (Z.shiftr z 16) 65535)).

Definition bswap64 (z : Z) : Z :=
  Z.lor (Z.shiftl (bswap32 (Z.land z (2 ^ 32 - 1))) 32)
        (bswap32 (Z.land (Z.shiftr z 32) (2 ^ 32 - 1))).

(** A bit of an array of 64-bit words, as [sf_bitmap.h] counts them. *)
Definition bitmap_get_mask (index : Z) : Z := Z.shiftl 1 (index mod 64).
Definition bitmap_get_index (index : Z) : Z := index / 64.

Lemma lor_shift n x y : 0 <= n -> 0 <= y < 2 ^ n -> Z.lor (Z.shiftl x n) y = x * 2 ^ n + y.
Proof.
  intros Hn Hy. rewrite <- Z.shiftl_mul_pow2 by done. symmetry. apply Z.add_nocarry_lor.
  apply Z.bits_inj'. intros i Hi. rewrite Z.land_spec, Z.bits_0.
  destruct (decide (i < n)).
  - by rewrite Z.shiftl_spec_low.
  - rewrite <- (Z.mod_small y (2 ^ n)), Z.mod_pow2_bits_high by lia. apply andb_false_r.
Qed.

Lemma land_255 z : Z.land z 255 = z mod 256.
Proof. apply (wrap_land 8). lia. Qed.

Lemma bswap16_spec z : bswap16 z = z mod 256 * 256 + z / 256 mod 256.
Proof.
  unfold bswap16. rewrite !land_255, Z.shiftr_div_pow2 by lia. change (2 ^ 8) with 256.
  rewrite lor_shift; [done|lia|]. apply Z.mod_pos_bound. lia.
Qed.

Lemma bswap16_range z : 0 <= bswap16 z < 2 ^ 16.
Proof.
  rewrite bswap16_spec. pose proof (Z.mod_pos_bound z 256 ltac:(lia)). pose proof (Z.mod_pos_bound (z / 256) 256 ltac:(lia)). lia.
Qed.

Lemma bswap32_range z : 0 <= bswap32 z < 2 ^ 32.
Proof.
  unfold bswap32. pose proof (bswap16_range (Z.land z 65535)). pose proof (bswap16_range (Z.land (Z.shiftr z 16) 65535)).
  rewrite lor_shift by lia. lia.
Qed.

(** Solve an arithmetic goal in which stores to bounded locations occur. *)
Ltac wrap_lia :=
  repeat match goal with
  | |- context [wrap ?w ?z] =>
      rewrite (wrap_small w z) by (cbn; lia)
  | H : context [wrap ?w ?z] |- _ =>
      rewrite (wrap_small w z) in H by (cbn; lia)
  end; try lia.

(** * Zero-initialised arrays

    The C program's arrays are cleared by [memset] before use; an array is a
    finite map whose missing entries read as zero.  [arr_equiv] identifies the
    arrays that read the same everywhere. *)

Class Zeroed (A : Type) := zeroed : A.
#[export] Instance zeroed_Z : Zeroed Z := 0.
#[export] Instance zeroed_list {A} : Zeroed (list A) := [].

Definition aget {A} `{Zeroed A} (m : gmap Z A) (i : Z) : A :=
  default zeroed (m !! i).
Definition aset {A} (m : gmap Z A) (i : Z) (v : A) : gmap Z A := <[i := v]> m.

Notation "m .[ i ]" := (aget m i)
  (at level 1, left associativity, format "m .[ i ]") : tap_scope.
Notation "m .[ i <- v ]" := (aset m i v)
  (at level 1, left associativity, format "m .[ i  <-  v ]") : tap_scope.
#[global] Open Scope tap_scope.

Definition arr_equiv {A} `{Zeroed A} (m1 m2 : gmap Z A) : Prop :=
  forall i, m1.[i] = m2.[i].
Infix "≡ₐ" := arr_equiv (at level 70, no associativity) : tap_scope.

Section array.
Context {A : Type} `{Zeroed A}.
Implicit Types (m : gmap Z A) (i j : Z) (v : A).

Lemma aget_empty i : (∅ : gmap Z A).[i] = zeroed.
Proof. unfold aget. by rewrite lookup_empty. Qed.

Lemma aget_aset_eq m i v : m.[i <- v].[i] = v.
Proof. unfold aget, aset. by rewrite lookup_insert_eq. Qed.

Lemma aget_aset_ne m i j v : i <> j -> m.[i <- v].[j] = m.[j].
Proof. intros Hne. unfold aget, aset. by rewrite lookup_insert_ne. Qed.

Lemma aget_aset m i j v :
  m.[i <- v].[j] = if decide (i = j) then v else m.[j].
Proof. case_decide; subst; auto using aget_aset_eq, aget_aset_ne. Qed.

#[export] Instance arr_equiv_equivalence : Equivalence (@arr_equiv A _).
Proof.
  split; [intros m i; done | intros m1 m2 E i; symmetry; apply E |].
  intros m1 m2 m3 E1 E2 i. by rewrite E1, E2.
Qed.

#[export] Instance aget_proper : Proper (arr_equiv ==> eq ==> eq) (@aget A _).
Proof. intros m1 m2 E i ? <-. apply E. Qed.

#[export] Instance aset_proper :
  Proper (arr_equiv ==> eq ==> eq ==> arr_equiv) (@aset A).
Proof. intros m1 m2 E i ? <- v ? <- j. rewrite !aget_aset. by rewrite E. Qed.

Lemma aset_same m i : m.[i <- m.[i]] ≡ₐ m.
Proof. intros j. rewrite aget_aset. case_decide; by subst. Qed.

Lemma aset_aset m i v w : m.[i <- v].[i <- w] = m.[i <- w].
Proof. unfold aset. by rewrite insert_insert_eq. Qed.
End array.

Create HintDb arr.
#[export] Hint Rewrite @aget_aset_eq @aset_aset @aget_empty : arr.
#[export] Hint Rewrite @aget_aset_ne using (congruence || lia) : arr.

(** Normalise the array reads of the goal and of the context. *)
Ltac arr_simpl := autorewrite with arr in *; cbn in *.

(** Split on whether two indices written and read are the same. *)
Ltac arr_cases :=
  repeat (rewrite aget_aset in * || case_decide || subst); try done.

(** * Loops with fuel

    A C [while] loop is a function of a fuel; [None] is "the loop has not
    finished yet".  A monad for code that calls such loops. *)

Definition obind {A B} (o : option A) (f : A -> option B) : option B :=
  match o with Some a => f a | None => None end.
Notation "'let?' x := o 'in' k" := (obind o (fun x => k))
  (at level 10, x pattern, k at level 200) : tap_scope.

Lemma obind_Some {A B} (o : option A) (f : A -> option B) b :
  obind o f = Some b <-> exists a, o = Some a /\ f a = Some b.
Proof. destruct o; cbn; naive_solver. Qed.

(** * Reachability of a step relation *)

Section reach.
Context {S : Type} (init : S -> Prop) (step : S -> S -> Prop).

Inductive reach : S -> Prop :=
| reach_init s : init s -> reach s
| reach_step s s' : reach s -> step s s' -> reach s'.

(** An invariant of the initial states kept by every step holds in every
    reachable state. *)
Lemma reach_invariant (I : S -> Prop) :
  (forall s, init s -> I s) -> (forall s s', I s -> step s s' -> I s') ->
  forall s, reach s -> I s.
Proof. intros Hi Hs s Hr. induction Hr; eauto. Qed.
End reach.

(** * Lists *)

(** [firsts P l]: the first element of [l] that satisfies [P], 0 if none. *)
Fixpoint first_such (P : Z -> bool) (l : list Z) : Z :=
  match l with
  | [] => 0
  | x :: l' => if P x then x else first_such P l'
  end.

Lemma first_such_none P l : (forall x, x ∈ l -> P x = false) -> first_such P l = 0.
Proof.
  induction l as [|x l IH]; intros HP; cbn; [done|].
  rewrite (HP x) by set_solver. apply IH. set_solver.
Qed.

Lemma first_such_in P l x : first_such P l = x -> x <> 0 -> x ∈ l /\ P x = true.
Proof.
  induction l as [|y l IH]; cbn; [lia|]. destruct (P y) eqn:E; intros Hx Hn.
  - subst. set_solver.
  - destruct (IH Hx Hn). set_solver.
Qed.

Lemma first_such_hit P l x : x ∈ l -> P x = true ->
  (forall y, y ∈ l -> y <> 0) -> first_such P l <> 0.
Proof.
  induction l as [|y l IH]; cbn; intros Hin HP Hnz; [set_solver|].
  destruct (P y) eqn:E; [apply Hnz; set_solver|].
  apply elem_of_cons in Hin as [->|Hin]; [congruence|].
  apply IH; [done|done|set_solver].
Qed.

(** Filters. *)
Lemma filter_ext_in {A} (P Q : A -> Prop) `{!forall x, Decision (P x), !forall x, Decision (Q x)}
    (l : list A) :
  (forall x, x ∈ l -> P x <-> Q x) -> filter P l = filter Q l.
Proof.
  induction l as [|x l IH]; intros E; [done|].
  assert (IH' : filter P l = filter Q l) by (apply IH; set_solver).
  destruct (decide (P x)) as [HP|HP].
  - rewrite !filter_cons_True, IH'; [done| |done]. apply E; [set_solver|done].
  - rewrite !filter_cons_False, IH'; [done| |done]. rewrite <- E; [done|set_solver].
Qed.

Lemma filter_none {A} (P : A -> Prop) `{!forall x, Decision (P x)} (l : list A) :
  (forall x, x ∈ l -> ~ P x) -> filter P l = [].
Proof.
  induction l as [|x l IH]; intros E; [done|]. rewrite filter_cons_False by (apply E; set_solver).
  apply IH. set_solver.
Qed.

Lemma filter_all {A} (P : A -> Prop) `{!forall x, Decision (P x)} (l : list A) :
  (forall x, x ∈ l -> P x) -> filter P l = l.
Proof.
  induction l as [|x l IH]; intros E; [done|]. rewrite filter_cons_True by (apply E; set_solver).
  f_equal. apply IH. set_solver.
Qed.

(** Byte strings as C compares them. *)
Definition is_byte (z : Z) : Prop := 0 <= z < 256.

Definition memcmp (a b : list Z) : Z := if decide (a = b) then 0 else 1.

Lemma memcmp_0 a b : memcmp a b = 0 <-> a = b.
Proof. unfold memcmp. case_decide; naive_solver lia. Qed.

(** Little-endian bytes of a [uint16_t]. *)
Definition le16 (z : Z) : list Z := [z mod 256; (z / 256) mod 256].

Lemma le16_inj a b :
  0 <= a < 2 ^ 16 -> 0 <= b < 2 ^ 16 -> le16 a = le16 b -> a = b.
Proof.
  intros Ha Hb E. injection E as E1 E2.
  rewrite (Z.div_mod a 256), (Z.div_mod b 256) by lia.
  rewrite (Z.mod_small (a / 256)) in E2
    by (split; [apply Z.div_pos; lia | apply Z.div_lt_upper_bound; lia]).
  rewrite (Z.mod_small (b / 256)) in E2
    by (split; [apply Z.div_pos; lia | apply Z.div_lt_upper_bound; lia]).
  lia.
Qed.

(** The [n] big-endian bytes of a number. *)
Fixpoint be_bytes (n : nat) (a : Z) : list Z :=
  match n with
  | O => []
  | S n => be_bytes n (a / 256) ++ [a mod 256]
  end.

Lemma be_bytes_length n a : length (be_bytes n a) = n.
Proof. revert a. induction n as [|n IH]; intros a; cbn; [done|]. rewrite length_app, IH. cbn. lia. Qed.

Lemma be_bytes_inj n a b :
  0 <= a < 256 ^ Z.of_nat n -> 0 <= b < 256 ^ Z.of_nat n ->
  be_bytes n a = be_bytes n b -> a = b.
Proof.
  revert a b. induction n as [|n IH]; intros a b; [cbn; lia|].
  rewrite Nat2Z.inj_succ, Z.pow_succ_r by lia. intros Ha Hb E.
  cbn [be_bytes] in E. apply app_inj_tail in E as [E Em].
  apply IH in E.
  - rewrite (Z.div_mod a 256), (Z.div_mod b 256) by lia. lia.
  - split; [apply Z.div_pos; lia|apply Z.div_lt_upper_bound; lia].
  - split; [apply Z.div_pos; lia|apply Z.div_lt_upper_bound; lia].
Qed.

(** The sum of [f] over [n] indices from [j] on. *)
Fixpoint sum_from (n : nat) (j : Z) (f : Z -> Z) : Z :=
  match n with O => 0 | S n => f j + sum_from n (j + 1) f end.

Lemma sum_from_ext n : forall j f g, (forall x, j <= x < j + Z.of_nat n -> f x = g x) -> sum_from n j f = sum_from n j g.
Proof.
  induction n as [|n IH]; intros j f g E; [done|]. cbn [sum_from].
  rewrite E by lia. f_equal. apply IH. intros x Hx. apply E. lia.
Qed.

Lemma sum_from_zero n : forall j f, (forall x, f x = 0) -> sum_from n j f = 0.
Proof. induction n as [|n IH]; intros j f E; [done|]. cbn [sum_from]. rewrite E, IH by done. done. Qed.

(** The sum of [f] over a list of indices. *)
Fixpoint zsum (f : Z -> Z) (l : list Z) : Z :=
  match l with [] => 0 | i :: l => f i + zsum f l end.

Lemma zsum_ext f g l : (forall i, i ∈ l -> f i = g i) -> zsum f l = zsum g l.
Proof.
  induction l as [|x l IH]; intros E; cbn; [done|].
  rewrite (E x) by set_solver. rewrite IH; [done|]. set_solver.
Qed.

(** Changing the summand at one index of a duplicate-free list. *)
Lemma zsum_update f g l b : NoDup l -> b ∈ l -> (forall i, i <> b -> g i = f i) ->
  zsum g l = zsum f l - f b + g b.
Proof.
  induction l as [|x l IH]; intros Hnd Hb E; [by apply not_elem_of_nil in Hb|].
  apply NoDup_cons in Hnd as [Hx Hnd]. cbn. destruct (decide (x = b)) as [->|Hne].
  - rewrite (zsum_ext g f); [lia|]. intros i Hi. apply E. set_solver.
  - rewrite (E x) by done. rewrite IH; [lia|done|set_solver|done].
Qed.

Lemma zsum_ge f l b : (forall i, 0 <= f i) -> b ∈ l -> f b <= zsum f l.
Proof.
  intros Hf. assert (forall l, 0 <= zsum f l) as Hp.
  { intros k. induction k as [|x k IH]; cbn; [done|]. specialize (Hf x). lia. }
  induction l as [|x l IH]; intros Hb; [by apply not_elem_of_nil in Hb|]. cbn.
  apply elem_of_cons in Hb as [->|Hb]; [specialize (Hp l); lia|].
  specialize (IH Hb). specialize (Hf x). lia.
Qed.

Lemma zsum_app g l1 l2 : zsum g (l1 ++ l2) = zsum g l1 + zsum g l2.
Proof. induction l1 as [|x l1 IH]; cbn; [done|]. rewrite IH. lia. Qed.

Lemma zsum_const g c l : (forall i, i ∈ l -> g i = c) -> zsum g l = c * Z.of_nat (length l).
Proof. induction l as [|x l IH]; intros E; cbn [zsum length]; [lia|]. rewrite (E x), IH by set_solver. lia. Qed.

(** The [n] little-endian bytes of a number. *)
Fixpoint le_bytes (n : nat) (a : Z) : list Z :=
  match n with
  | O => []
  | S n => a mod 256 :: le_bytes n (a / 256)
  end.

Lemma le_bytes_length n a : length (le_bytes n a) = n.
Proof. revert a. induction n as [|n IH]; intros a; cbn; [done|]. by rewrite IH. Qed.

(** The byte hash of both hash tables ([get_hash_index_nshell], [getHashIndex])
    is the CRC32C instruction when the CPU has it ([clib_crc32c], not part of this
    program) and [sf_crc32_gen] otherwise, so the operations are stated for any
    hash. *)
Class ByteHash := byte_hash : list Z -> Z.
