(* ===== verification/Crc32.v ===== *)
(** * The table-driven CRC of the configuration library

    Models [nshell-lib/include/sf_crc_nshell.h] ([sf_crc32_gen], the hash behind
    [get_hash_index_nshell] when the CPU has no CRC instruction) and its table
    [sf_crc32_table] of [nshell-lib/sf_plugin_api/sf_acl_hash.c].  The loop that
    takes four bytes at a time, and the byte loop that ends it, are proved equal
    to the bit-at-a-time CRC-32 (polynomial 0x04c11db7, reflected). *)
From S2P Require Import Prelude.

(** ** The table *)

Definition sf_crc32_table : list (list Z) :=
  [[0x00000000; 0x77073096; 0xee0e612c; 0x990951ba; 0x076dc419; 0x706af48f; 0xe963a535; 0x9e6495a3;
    0x0edb8832; 0x79dcb8a4; 0xe0d5e91e; 0x97d2d988; 0x09b64c2b; 0x7eb17cbd; 0xe7b82d07; 0x90bf1d91;
    0x1db71064; 0x6ab020f2; 0xf3b97148; 0x84be41de; 0x1adad47d; 0x6ddde4eb; 0xf4d4b551; 0x83d385c7;
    0x136c9856; 0x646ba8c0; 0xfd62f97a; 0x8a65c9ec; 0x14015c4f; 0x63066cd9; 0xfa0f3d63; 0x8d080df5;
    0x3b6e20c8; 0x4c69105e; 0xd56041e4; 0xa2677172; 0x3c03e4d1; 0x4b04d447; 0xd20d85fd; 0xa50ab56b;
    0x35b5a8fa; 0x42b2986c; 0xdbbbc9d6; 0xacbcf940; 0x32d86ce3; 0x45df5c75; 0xdcd60dcf; 0xabd13d59;
    0x26d930ac; 0x51de003a; 0xc8d75180; 0xbfd06116; 0x21b4f4b5; 0x56b3c423; 0xcfba9599; 0xb8bda50f;
    0x2802b89e; 0x5f058808; 0xc60cd9b2; 0xb10be924; 0x2f6f7c87; 0x58684c11; 0xc1611dab; 0xb6662d3d;
    0x76dc4190; 0x01db7106; 0x98d220bc; 0xefd5102a; 0x71b18589; 0x06b6b51f; 0x9fbfe4a5; 0xe8b8d433;
    0x7807c9a2; 0x0f00f934; 0x9609a88e; 0xe10e9818; 0x7f6a0dbb; 0x086d3d2d; 0x91646c97; 0xe6635c01;
    0x6b6b51f4; 0x1c6c6162; 0x856530d8; 0xf262004e; 0x6c0695ed; 0x1b01a57b; 0x8208f4c1; 0xf50fc457;
    0x65b0d9c6; 0x12b7e950; 0x8bbeb8ea; 0xfcb9887c; 0x62dd1ddf; 0x15da2d49; 0x8cd37cf3; 0xfbd44c65;
    0x4db26158; 0x3ab551ce; 0xa3bc0074; 0xd4bb30e2; 0x4adfa541; 0x3dd895d7; 0xa4d1c46d; 0xd3d6f4fb;
    0x4369e96a; 0x346ed9fc; 0xad678846; 0xda60b8d0; 0x44042d73; 0x33031de5; 0xaa0a4c5f; 0xdd0d7cc9;
    0x5005713c; 0x270241aa; 0xbe0b1010; 0xc90c2086; 0x5768b525; 0x206f85b3; 0xb966d409; 0xce61e49f;
    0x5edef90e; 0x29d9c998; 0xb0d09822; 0xc7d7a8b4; 0x59b33d17; 0x2eb40d81; 0xb7bd5c3b; 0xc0ba6cad;
    0xedb88320; 0x9abfb3b6; 0x03b6e20c; 0x74b1d29a; 0xead54739; 0x9dd277af; 0x04db2615; 0x73dc1683;
    0xe3630b12; 0x94643b84; 0x0d6d6a3e; 0x7a6a5aa8; 0xe40ecf0b; 0x9309ff9d; 0x0a00ae27; 0x7d079eb1;
    0xf00f9344; 0x8708a3d2; 0x1e01f268; 0x6906c2fe; 0xf762575d; 0x806567cb; 0x196c3671; 0x6e6b06e7;
    0xfed41b76; 0x89d32be0; 0x10da7a5a; 0x67dd4acc; 0xf9b9df6f; 0x8ebeeff9; 0x17b7be43; 0x60b08ed5;
    0xd6d6a3e8; 0xa1d1937e; 0x38d8c2c4; 0x4fdff252; 0xd1bb67f1; 0xa6bc5767; 0x3fb506dd; 0x48b2364b;
    0xd80d2bda; 0xaf0a1b4c; 0x36034af6; 0x41047a60; 0xdf60efc3; 0xa867df55; 0x316e8eef; 0x4669be79;
    0xcb61b38c; 0xbc66831a; 0x256fd2a0; 0x5268e236; 0xcc0c7795; 0xbb0b4703; 0x220216b9; 0x5505262f;
    0xc5ba3bbe; 0xb2bd0b28; 0x2bb45a92; 0x5cb36a04; 0xc2d7ffa7; 0xb5d0cf31; 0x2cd99e8b; 0x5bdeae1d;
    0x9b64c2b0; 0xec63f226; 0x756aa39c; 0x026d930a; 0x9c0906a9; 0xeb0e363f; 0x72076785; 0x05005713;
    0x95bf4a82; 0xe2b87a14; 0x7bb12bae; 0x0cb61b38; 0x92d28e9b; 0xe5d5be0d; 0x7cdcefb7; 0x0bdbdf21;
    0x86d3d2d4; 0xf1d4e242; 0x68ddb3f8; 0x1fda836e; 0x81be16cd; 0xf6b9265b; 0x6fb077e1; 0x18b74777;
    0x88085ae6; 0xff0f6a70; 0x66063bca; 0x11010b5c; 0x8f659eff; 0xf862ae69; 0x616bffd3; 0x166ccf45;
    0xa00ae278; 0xd70dd2ee; 0x4e048354; 0x3903b3c2; 0xa7672661; 0xd06016f7; 0x4969474d; 0x3e6e77db;
    0xaed16a4a; 0xd9d65adc; 0x40df0b66; 0x37d83bf0; 0xa9bcae53; 0xdebb9ec5; 0x47b2cf7f; 0x30b5ffe9;
    0xbdbdf21c; 0xcabac28a; 0x53b39330; 0x24b4a3a6; 0xbad03605; 0xcdd70693; 0x54de5729; 0x23d967bf;
    0xb3667a2e; 0xc4614ab8; 0x5d681b02; 0x2a6f2b94; 0xb40bbe37; 0xc30c8ea1; 0x5a05df1b; 0x2d02ef8d];
   [0x00000000; 0x191b3141; 0x32366282; 0x2b2d53c3; 0x646cc504; 0x7d77f445; 0x565aa786; 0x4f4196c7;
    0xc8d98a08; 0xd1c2bb49; 0xfaefe88a; 0xe3f4d9cb; 0xacb54f0c; 0xb5ae7e4d; 0x9e832d8e; 0x87981ccf;
    0x4ac21251; 0x53d92310; 0x78f470d3; 0x61ef4192; 0x2eaed755; 0x37b5e614; 0x1c98b5d7; 0x05838496;
    0x821b9859; 0x9b00a918; 0xb02dfadb; 0xa936cb9a; 0xe6775d5d; 0xff6c6c1c; 0xd4413fdf; 0xcd5a0e9e;
    0x958424a2; 0x8c9f15e3; 0xa7b24620; 0xbea97761; 0xf1e8e1a6; 0xe8f3d0e7; 0xc3de8324; 0xdac5b265;
    0x5d5daeaa; 0x44469feb; 0x6f6bcc28; 0x7670fd69; 0x39316bae; 0x202a5aef; 0x0b07092c; 0x121c386d;
    0xdf4636f3; 0xc65d07b2; 0xed705471; 0xf46b6530; 0xbb2af3f7; 0xa231c2b6; 0x891c9175; 0x9007a034;
    0x179fbcfb; 0x0e848dba; 0x25a9de79; 0x3cb2ef38; 0x73f379ff; 0x6ae848be; 0x41c51b7d; 0x58de2a3c;
    0xf0794f05; 0xe9627e44; 0xc24f2d87; 0xdb541cc6; 0x94158a01; 0x8d0ebb40; 0xa623e883; 0xbf38d9c2;
    0x38a0c50d; 0x21bbf44c; 0x0a96a78f; 0x138d96ce; 0x5ccc0009; 0x45d73148; 0x6efa628b; 0x77e153ca;
    0xbabb5d54; 0xa3a06c15; 0x888d3fd6; 0x91960e97; 0xded79850; 0xc7cca911; 0xece1fad2; 0xf5facb93;
    0x7262d75c; 0x6b79e61d; 0x4054b5de; 0x594f849f; 0x160e1258; 0x0f152319; 0x243870da; 0x3d23419b;
    0x65fd6ba7; 0x7ce65ae6; 0x57cb0925; 0x4ed03864; 0x0191aea3; 0x188a9fe2; 0x33a7cc21; 0x2abcfd60;
    0xad24e1af; 0xb43fd0ee; 0x9f12832d; 0x8609b26c; 0xc94824ab; 0xd05315ea; 0xfb7e4629; 0xe2657768;
    0x2f3f79f6; 0x362448b7; 0x1d091b74; 0x04122a35; 0x4b53bcf2; 0x52488db3; 0x7965de70; 0x607eef31;
    0xe7e6f3fe; 0xfefdc2bf; 0xd5d0917c; 0xcccba03d; 0x838a36fa; 0x9a9107bb; 0xb1bc5478; 0xa8a76539;
    0x3b83984b; 0x2298a90a; 0x09b5fac9; 0x10aecb88; 0x5fef5d4f; 0x46f46c0e; 0x6dd93fcd; 0x74c20e8c;
    0xf35a1243; 0xea412302; 0xc16c70c1; 0xd8774180; 0x9736d747; 0x8e2de606; 0xa500b5c5; 0xbc1b8484;
    0x71418a1a; 0x685abb5b; 0x4377e898; 0x5a6cd9d9; 0x152d4f1e; 0x0c367e5f; 0x271b2d9c; 0x3e001cdd;
    0xb9980012; 0xa0833153; 0x8bae6290; 0x92b553d1; 0xddf4c516; 0xc4eff457; 0xefc2a794; 0xf6d996d5;
    0xae07bce9; 0xb71c8da8; 0x9c31de6b; 0x852aef2a; 0xca6b79ed; 0xd37048ac; 0xf85d1b6f; 0xe1462a2e;
    0x66de36e1; 0x7fc507a0; 0x54e85463; 0x4df36522; 0x02b2f3e5; 0x1ba9c2a4; 0x30849167; 0x299fa026;
    0xe4c5aeb8; 0xfdde9ff9; 0xd6f3cc3a; 0xcfe8fd7b; 0x80a96bbc; 0x99b25afd; 0xb29f093e; 0xab84387f;
    0x2c1c24b0; 0x350715f1; 0x1e2a4632; 0x07317773; 0x4870e1b4; 0x516bd0f5; 0x7a468336; 0x635db277;
    0xcbfad74e; 0xd2e1e60f; 0xf9ccb5cc; 0xe0d7848d; 0xaf96124a; 0xb68d230b; 0x9da070c8; 0x84bb4189;
    0x03235d46; 0x1a386c07; 0x31153fc4; 0x280e0e85; 0x674f9842; 0x7e54a903; 0x5579fac0; 0x4c62cb81;
    0x8138c51f; 0x9823f45e; 0xb30ea79d; 0xaa1596dc; 0xe554001b; 0xfc4f315a; 0xd7626299; 0xce7953d8;
    0x49e14f17; 0x50fa7e56; 0x7bd72d95; 0x62cc1cd4; 0x2d8d8a13; 0x3496bb52; 0x1fbbe891; 0x06a0d9d0;
    0x5e7ef3ec; 0x4765c2ad; 0x6c48916e; 0x7553a02f; 0x3a1236e8; 0x230907a9; 0x0824546a; 0x113f652b;
    0x96a779e4; 0x8fbc48a5; 0xa4911b66; 0xbd8a2a27; 0xf2cbbce0; 0xebd08da1; 0xc0fdde62; 0xd9e6ef23;
    0x14bce1bd; 0x0da7d0fc; 0x268a833f; 0x3f91b27e; 0x70d024b9; 0x69cb15f8; 0x42e6463b; 0x5bfd777a;
    0xdc656bb5; 0xc57e5af4; 0xee530937; 0xf7483876; 0xb809aeb1; 0xa1129ff0; 0x8a3fcc33; 0x9324fd72];
   [0x00000000; 0x01c26a37; 0x0384d46e; 0x0246be59; 0x0709a8dc; 0x06cbc2eb; 0x048d7cb2; 0x054f1685;
    0x0e1351b8; 0x0fd13b8f; 0x0d9785d6; 0x0c55efe1; 0x091af964; 0x08d89353; 0x0a9e2d0a; 0x0b5c473d;
    0x1c26a370; 0x1de4c947; 0x1fa2771e; 0x1e601d29; 0x1b2f0bac; 0x1aed619b; 0x18abdfc2; 0x1969b5f5;
    0x1235f2c8; 0x13f798ff; 0x11b126a6; 0x10734c91; 0x153c5a14; 0x14fe3023; 0x16b88e7a; 0x177ae44d;
    0x384d46e0; 0x398f2cd7; 0x3bc9928e; 0x3a0bf8b9; 0x3f44ee3c; 0x3e86840b; 0x3cc03a52; 0x3d025065;
    0x365e1758; 0x379c7d6f; 0x35dac336; 0x3418a901; 0x3157bf84; 0x3095d5b3; 0x32d36bea; 0x331101dd;
    0x246be590; 0x25a98fa7; 0x27ef31fe; 0x262d5bc9; 0x23624d4c; 0x22a0277b; 0x20e69922; 0x2124f315;
    0x2a78b428; 0x2bbade1f; 0x29fc6046; 0x283e0a71; 0x2d711cf4; 0x2cb376c3; 0x2ef5c89a; 0x2f37a2ad;
    0x709a8dc0; 0x7158e7f7; 0x731e59ae; 0x72dc3399; 0x7793251c; 0x76514f2b; 0x7417f172; 0x75d59b45;
    0x7e89dc78; 0x7f4bb64f; 0x7d0d0816; 0x7ccf6221; 0x798074a4; 0x78421e93; 0x7a04a0ca; 0x7bc6cafd;
    0x6cbc2eb0; 0x6d7e4487; 0x6f38fade; 0x6efa90e9; 0x6bb5866c; 0x6a77ec5b; 0x68315202; 0x69f33835;
    0x62af7f08; 0x636d153f; 0x612bab66; 0x60e9c151; 0x65a6d7d4; 0x6464bde3; 0x662203ba; 0x67e0698d;
    0x48d7cb20; 0x4915a117; 0x4b531f4e; 0x4a917579; 0x4fde63fc; 0x4e1c09cb; 0x4c5ab792; 0x4d98dda5;
    0x46c49a98; 0x4706f0af; 0x45404ef6; 0x448224c1; 0x41cd3244; 0x400f5873; 0x4249e62a; 0x438b8c1d;
    0x54f16850; 0x55330267; 0x5775bc3e; 0x56b7d609; 0x53f8c08c; 0x523aaabb; 0x507c14e2; 0x51be7ed5;
    0x5ae239e8; 0x5b2053df; 0x5966ed86; 0x58a487b1; 0x5deb9134; 0x5c29fb03; 0x5e6f455a; 0x5fad2f6d;
    0xe1351b80; 0xe0f771b7; 0xe2b1cfee; 0xe373a5d9; 0xe63cb35c; 0xe7fed96b; 0xe5b86732; 0xe47a0d05;
    0xef264a38; 0xeee4200f; 0xeca29e56; 0xed60f461; 0xe82fe2e4; 0xe9ed88d3; 0xebab368a; 0xea695cbd;
    0xfd13b8f0; 0xfcd1d2c7; 0xfe976c9e; 0xff5506a9; 0xfa1a102c; 0xfbd87a1b; 0xf99ec442; 0xf85cae75;
    0xf300e948; 0xf2c2837f; 0xf0843d26; 0xf1465711; 0xf4094194; 0xf5cb2ba3; 0xf78d95fa; 0xf64fffcd;
    0xd9785d60; 0xd8ba3757; 0xdafc890e; 0xdb3ee339; 0xde71f5bc; 0xdfb39f8b; 0xddf521d2; 0xdc374be5;
    0xd76b0cd8; 0xd6a966ef; 0xd4efd8b6; 0xd52db281; 0xd062a404; 0xd1a0ce33; 0xd3e6706a; 0xd2241a5d;
    0xc55efe10; 0xc49c9427; 0xc6da2a7e; 0xc7184049; 0xc25756cc; 0xc3953cfb; 0xc1d382a2; 0xc011e895;
    0xcb4dafa8; 0xca8fc59f; 0xc8c97bc6; 0xc90b11f1; 0xcc440774; 0xcd866d43; 0xcfc0d31a; 0xce02b92d;
    0x91af9640; 0x906dfc77; 0x922b422e; 0x93e92819; 0x96a63e9c; 0x976454ab; 0x9522eaf2; 0x94e080c5;
    0x9fbcc7f8; 0x9e7eadcf; 0x9c381396; 0x9dfa79a1; 0x98b56f24; 0x99770513; 0x9b31bb4a; 0x9af3d17d;
    0x8d893530; 0x8c4b5f07; 0x8e0de15e; 0x8fcf8b69; 0x8a809dec; 0x8b42f7db; 0x89044982; 0x88c623b5;
    0x839a6488; 0x82580ebf; 0x801eb0e6; 0x81dcdad1; 0x8493cc54; 0x8551a663; 0x8717183a; 0x86d5720d;
    0xa9e2d0a0; 0xa820ba97; 0xaa6604ce; 0xaba46ef9; 0xaeeb787c; 0xaf29124b; 0xad6fac12; 0xacadc625;
    0xa7f18118; 0xa633eb2f; 0xa4755576; 0xa5b73f41; 0xa0f829c4; 0xa13a43f3; 0xa37cfdaa; 0xa2be979d;
    0xb5c473d0; 0xb40619e7; 0xb640a7be; 0xb782cd89; 0xb2cddb0c; 0xb30fb13b; 0xb1490f62; 0xb08b6555;
    0xbbd72268; 0xba15485f; 0xb853f606; 0xb9919c31; 0xbcde8ab4; 0xbd1ce083; 0xbf5a5eda; 0xbe9834ed];
   [0x00000000; 0xb8bc6765; 0xaa09c88b; 0x12b5afee; 0x8f629757; 0x37def032; 0x256b5fdc; 0x9dd738b9;
    0xc5b428ef; 0x7d084f8a; 0x6fbde064; 0xd7018701; 0x4ad6bfb8; 0xf26ad8dd; 0xe0df7733; 0x58631056;
    0x5019579f; 0xe8a530fa; 0xfa109f14; 0x42acf871; 0xdf7bc0c8; 0x67c7a7ad; 0x75720843; 0xcdce6f26;
    0x95ad7f70; 0x2d111815; 0x3fa4b7fb; 0x8718d09e; 0x1acfe827; 0xa2738f42; 0xb0c620ac; 0x087a47c9;
    0xa032af3e; 0x188ec85b; 0x0a3b67b5; 0xb28700d0; 0x2f503869; 0x97ec5f0c; 0x8559f0e2; 0x3de59787;
    0x658687d1; 0xdd3ae0b4; 0xcf8f4f5a; 0x7733283f; 0xeae41086; 0x525877e3; 0x40edd80d; 0xf851bf68;
    0xf02bf8a1; 0x48979fc4; 0x5a22302a; 0xe29e574f; 0x7f496ff6; 0xc7f50893; 0xd540a77d; 0x6dfcc018;
    0x359fd04e; 0x8d23b72b; 0x9f9618c5; 0x272a7fa0; 0xbafd4719; 0x0241207c; 0x10f48f92; 0xa848e8f7;
    0x9b14583d; 0x23a83f58; 0x311d90b6; 0x89a1f7d3; 0x1476cf6a; 0xaccaa80f; 0xbe7f07e1; 0x06c36084;
    0x5ea070d2; 0xe61c17b7; 0xf4a9b859; 0x4c15df3c; 0xd1c2e785; 0x697e80e0; 0x7bcb2f0e; 0xc377486b;
    0xcb0d0fa2; 0x73b168c7; 0x6104c729; 0xd9b8a04c; 0x446f98f5; 0xfcd3ff90; 0xee66507e; 0x56da371b;
    0x0eb9274d; 0xb6054028; 0xa4b0efc6; 0x1c0c88a3; 0x81dbb01a; 0x3967d77f; 0x2bd27891; 0x936e1ff4;
    0x3b26f703; 0x839a9066; 0x912f3f88; 0x299358ed; 0xb4446054; 0x0cf80731; 0x1e4da8df; 0xa6f1cfba;
    0xfe92dfec; 0x462eb889; 0x549b1767; 0xec277002; 0x71f048bb; 0xc94c2fde; 0xdbf98030; 0x6345e755;
    0x6b3fa09c; 0xd383c7f9; 0xc1366817; 0x798a0f72; 0xe45d37cb; 0x5ce150ae; 0x4e54ff40; 0xf6e89825;
    0xae8b8873; 0x1637ef16; 0x048240f8; 0xbc3e279d; 0x21e91f24; 0x99557841; 0x8be0d7af; 0x335cb0ca;
    0xed59b63b; 0x55e5d15e; 0x47507eb0; 0xffec19d5; 0x623b216c; 0xda874609; 0xc832e9e7; 0x708e8e82;
    0x28ed9ed4; 0x9051f9b1; 0x82e4565f; 0x3a58313a; 0xa78f0983; 0x1f336ee6; 0x0d86c108; 0xb53aa66d;
    0xbd40e1a4; 0x05fc86c1; 0x1749292f; 0xaff54e4a; 0x322276f3; 0x8a9e1196; 0x982bbe78; 0x2097d91d;
    0x78f4c94b; 0xc048ae2e; 0xd2fd01c0; 0x6a4166a5; 0xf7965e1c; 0x4f2a3979; 0x5d9f9697; 0xe523f1f2;
    0x4d6b1905; 0xf5d77e60; 0xe762d18e; 0x5fdeb6eb; 0xc2098e52; 0x7ab5e937; 0x680046d9; 0xd0bc21bc;
    0x88df31ea; 0x3063568f; 0x22d6f961; 0x9a6a9e04; 0x07bda6bd; 0xbf01c1d8; 0xadb46e36; 0x15080953;
    0x1d724e9a; 0xa5ce29ff; 0xb77b8611; 0x0fc7e174; 0x9210d9cd; 0x2aacbea8; 0x38191146; 0x80a57623;
    0xd8c66675; 0x607a0110; 0x72cfaefe; 0xca73c99b; 0x57a4f122; 0xef189647; 0xfdad39a9; 0x45115ecc;
    0x764dee06; 0xcef18963; 0xdc44268d; 0x64f841e8; 0xf92f7951; 0x41931e34; 0x5326b1da; 0xeb9ad6bf;
    0xb3f9c6e9; 0x0b45a18c; 0x19f00e62; 0xa14c6907; 0x3c9b51be; 0x842736db; 0x96929935; 0x2e2efe50;
    0x2654b999; 0x9ee8defc; 0x8c5d7112; 0x34e11677; 0xa9362ece; 0x118a49ab; 0x033fe645; 0xbb838120;
    0xe3e09176; 0x5b5cf613; 0x49e959fd; 0xf1553e98; 0x6c820621; 0xd43e6144; 0xc68bceaa; 0x7e37a9cf;
    0xd67f4138; 0x6ec3265d; 0x7c7689b3; 0xc4caeed6; 0x591dd66f; 0xe1a1b10a; 0xf3141ee4; 0x4ba87981;
    0x13cb69d7; 0xab770eb2; 0xb9c2a15c; 0x017ec639; 0x9ca9fe80; 0x241599e5; 0x36a0360b; 0x8e1c516e;
    0x866616a7; 0x3eda71c2; 0x2c6fde2c; 0x94d3b949; 0x090481f0; 0xb1b8e695; 0xa30d497b; 0x1bb12e1e;
    0x43d23e48; 0xfb6e592d; 0xe9dbf6c3; 0x516791a6; 0xccb0a91f; 0x740cce7a; 0x66b96194; 0xde0506f1]].

(** ** The routine *)

(** [sf_crc32_table[k][i]]. *)
Definition crc_tbl (k : nat) (i : Z) : Z := nth (Z.to_nat i) (nth k sf_crc32_table []) 0.

(** The little-endian load [*d32]. *)
Definition load32 (b0 b1 b2 b3 : Z) : Z :=
  Z.lor b0 (Z.shiftl (Z.lor b1 (Z.shiftl (Z.lor b2 (Z.shiftl b3 8)) 8)) 8).

(** One step of the byte loop. *)
Definition crc_byte_step (crc d : Z) : Z :=
  let tbl_idx := Z.land (Z.lxor crc d) 255 in
  Z.land (Z.lxor (crc_tbl 0 tbl_idx) (Z.shiftr crc 8)) 0xffffffff.

(** One step of the word loop ([d1 = *d32++ ^ crc]). *)
Definition crc_word_step (crc d32 : Z) : Z :=
  let d1 := Z.lxor d32 crc in
  Z.lxor (Z.lxor (Z.lxor
    (crc_tbl 0 (Z.land (Z.shiftr d1 24) 255))
    (crc_tbl 1 (Z.land (Z.shiftr d1 16) 255)))
    (crc_tbl 2 (Z.land (Z.shiftr d1 8) 255)))
    (crc_tbl 3 (Z.land d1 255)).

Fixpoint sf_crc32_loop (crc : Z) (data : list Z) : Z :=
  match data with
  | b0 :: b1 :: b2 :: b3 :: data =>
      sf_crc32_loop (crc_word_step crc (load32 b0 b1 b2 b3)) data
  | _ => fold_left crc_byte_step data crc
  end.

Definition sf_crc32_gen (data : list Z) : Z :=
  Z.lxor (sf_crc32_loop 0xffffffff data) 0xffffffff.

(** ** Reference: one bit at a time *)

Definition crc_poly : Z := 0xEDB88320.

Definition crc_bit (c : Z) : Z :=
  if Z.testbit c 0 then Z.lxor (Z.shiftr c 1) crc_poly else Z.shiftr c 1.

Definition crc_bits8 (c : Z) : Z := Nat.iter 8 crc_bit c.

Definition crc32_spec (data : list Z) : Z :=
  Z.lxor (fold_left (fun c b => crc_bits8 (Z.lxor c b)) data 0xffffffff) 0xffffffff.

(** ** Bit-level lemmas *)

Lemma testbit_high a n i : 0 <= a < 2 ^ n -> n <= i -> Z.testbit a i = false.
Proof.
  intros Ha Hi. assert (0 <= n) by (destruct (decide (0 <= n)); [done|];
    rewrite (Z.pow_neg_r 2 n) in Ha by lia; lia).
  rewrite <- (Z.mod_small a (2 ^ n)) by done. by apply Z.mod_pow2_bits_high.
Qed.

Lemma lxor_range a b n :
  0 <= n -> 0 <= a < 2 ^ n -> 0 <= b < 2 ^ n -> 0 <= Z.lxor a b < 2 ^ n.
Proof.
  intros Hn Ha Hb. replace (Z.lxor a b) with (Z.land (Z.lxor a b) (Z.ones n)).
  - rewrite Z.land_ones by done. apply Z.mod_pos_bound. lia.
  - apply Z.bits_inj'. intros i Hi. rewrite Z.land_spec, Z.lxor_spec.
    destruct (decide (i < n)).
    + rewrite Z.ones_spec_low by lia. by rewrite andb_true_r.
    + rewrite (testbit_high a n i), (testbit_high b n i) by lia. done.
Qed.

Lemma lor_shiftl_lxor a x n :
  0 <= n -> 0 <= a < 2 ^ n -> Z.lor a (Z.shiftl x n) = Z.lxor a (Z.shiftl x n).
Proof.
  intros Hn Ha. apply Z.bits_inj'. intros i Hi.
  rewrite Z.lor_spec, Z.lxor_spec, Z.shiftl_spec by done.
  destruct (decide (i < n)).
  - rewrite (Z.testbit_neg_r x) by lia. by destruct (Z.testbit a i).
  - rewrite (testbit_high a n i) by lia. by destruct (Z.testbit x _).
Qed.

Lemma split_low y n : 0 <= n -> y = Z.lxor (Z.land y (Z.ones n)) (Z.shiftl (Z.shiftr y n) n).
Proof.
  intros Hn. apply Z.bits_inj'. intros i Hi.
  rewrite Z.lxor_spec, Z.land_spec, Z.shiftl_spec by done.
  destruct (decide (i < n)).
  - rewrite Z.ones_spec_low by lia. rewrite (Z.testbit_neg_r (Z.shiftr y n)) by lia.
    by destruct (Z.testbit y i).
  - rewrite Z.ones_spec_high by lia. rewrite Z.shiftr_spec by lia.
    replace (i - n + n) with i by lia. by destruct (Z.testbit y i).
Qed.

Lemma land_255_range y : 0 <= Z.land y 255 < 2 ^ 8.
Proof. change 255 with (Z.ones 8). rewrite Z.land_ones by lia. apply Z.mod_pos_bound. lia. Qed.

(** ** The eight-bit step is linear *)

Lemma crc_bit_lxor a b : crc_bit (Z.lxor a b) = Z.lxor (crc_bit a) (crc_bit b).
Proof.
  unfold crc_bit. rewrite Z.lxor_spec, Z.shiftr_lxor.
  destruct (Z.testbit a 0), (Z.testbit b 0); cbn [xorb];
    rewrite ?Z.lxor_assoc; f_equal.
  - rewrite (Z.lxor_comm crc_poly), Z.lxor_assoc, Z.lxor_nilpotent. by rewrite Z.lxor_0_r.
  - apply Z.lxor_comm.
Qed.

Lemma crc_bits8_lxor a b : crc_bits8 (Z.lxor a b) = Z.lxor (crc_bits8 a) (crc_bits8 b).
Proof.
  unfold crc_bits8. generalize 8%nat as n. induction n as [|n IH]; [done|].
  rewrite !Nat.iter_succ, IH. apply crc_bit_lxor.
Qed.

Lemma crc_bit_shiftl x n : 0 < n -> crc_bit (Z.shiftl x n) = Z.shiftl x (n - 1).
Proof.
  intros Hn. unfold crc_bit. rewrite Z.shiftl_spec, Z.testbit_neg_r by lia.
  rewrite Z.shiftr_shiftl_l by lia. done.
Qed.

Lemma crc_bits8_shiftl x : crc_bits8 (Z.shiftl x 8) = x.
Proof.
  unfold crc_bits8, Nat.iter. cbn [nat_rect].
  rewrite !crc_bit_shiftl by lia. apply Z.shiftl_0_r.
Qed.

(** ** The table holds the images of the bytes *)

Definition table_ok : bool :=
  forallb (fun i => let i := Z.of_nat i in
    (crc_bits8 i =? crc_tbl 0 i) &&
    (crc_bits8 (crc_tbl 0 i) =? crc_tbl 1 i) &&
    (crc_bits8 (crc_tbl 1 i) =? crc_tbl 2 i) &&
    (crc_bits8 (crc_tbl 2 i) =? crc_tbl 3 i) &&
    (0 <=? crc_tbl 0 i) && (crc_tbl 0 i <? 2 ^ 32)) (seq 0 256).

Lemma table_ok_true : table_ok = true.
Proof. vm_compute. reflexivity. Qed.

Lemma table_spec i : 0 <= i < 2 ^ 8 ->
  crc_bits8 i = crc_tbl 0 i /\ crc_bits8 (crc_tbl 0 i) = crc_tbl 1 i /\
  crc_bits8 (crc_tbl 1 i) = crc_tbl 2 i /\ crc_bits8 (crc_tbl 2 i) = crc_tbl 3 i /\
  0 <= crc_tbl 0 i < 2 ^ 32.
Proof.
  intros Hi. pose proof table_ok_true as Hok. unfold table_ok in Hok.
  rewrite forallb_forall in Hok. specialize (Hok (Z.to_nat i)).
  rewrite Z2Nat.id in Hok by lia. rewrite !andb_true_iff in Hok.
  rewrite !Z.eqb_eq, Z.leb_le, Z.ltb_lt in Hok.
  destruct Hok as (((((? & ?) & ?) & ?) & ?) & ?); [apply in_seq; lia|]. done.
Qed.

#[local] Opaque sf_crc32_table crc_tbl.

Lemma crc_bits8_table y :
  crc_bits8 y = Z.lxor (crc_tbl 0 (Z.land y 255)) (Z.shiftr y 8).
Proof.
  rewrite (split_low y 8) at 1 by lia. rewrite crc_bits8_lxor, crc_bits8_shiftl.
  f_equal. by destruct (table_spec _ (land_255_range y)) as [E _].
Qed.

Lemma crc_bits8_range y : 0 <= y < 2 ^ 32 -> 0 <= crc_bits8 y < 2 ^ 32.
Proof.
  intros Hy. rewrite crc_bits8_table. apply lxor_range; [lia| |].
  - by pose proof (table_spec _ (land_255_range y)) as (_ & _ & _ & _ & ?).
  - rewrite Z.shiftr_div_pow2 by lia. split; [apply Z.div_pos; lia|].
    apply Z.div_lt_upper_bound; lia.
Qed.

(** Folding a byte into the low end commutes with what is still above it. *)
Lemma crc_bits8_low c b r :
  crc_bits8 (Z.lxor c (Z.lxor b (Z.shiftl r 8))) = Z.lxor (crc_bits8 (Z.lxor c b)) r.
Proof. by rewrite <- Z.lxor_assoc, crc_bits8_lxor, crc_bits8_shiftl. Qed.

Lemma is_byte_range32 b : is_byte b -> 0 <= b < 2 ^ 32.
Proof. unfold is_byte. lia. Qed.

Lemma crc_byte_step_spec c b :
  0 <= c < 2 ^ 32 -> is_byte b -> crc_byte_step c b = crc_bits8 (Z.lxor c b).
Proof.
  intros Hc Hb. pose proof (is_byte_range32 b Hb).
  pose proof (crc_bits8_range (Z.lxor c b) ltac:(by apply lxor_range)) as Hr.
  unfold crc_byte_step. rewrite crc_bits8_table in *.
  rewrite Z.shiftr_lxor in *.
  assert (Z.shiftr b 8 = 0) as Eb
    by (rewrite Z.shiftr_div_pow2 by lia; apply Z.div_small; exact Hb).
  rewrite Eb, Z.lxor_0_r in *. change 0xffffffff with (Z.ones 32).
  rewrite Z.land_ones by lia. by apply Z.mod_small.
Qed.

Lemma crc_bits8_4 d1 : 0 <= d1 < 2 ^ 32 ->
  crc_bits8 (crc_bits8 (crc_bits8 (crc_bits8 d1))) =
  Z.lxor (Z.lxor (Z.lxor
    (crc_tbl 0 (Z.land (Z.shiftr d1 24) 255))
    (crc_tbl 1 (Z.land (Z.shiftr d1 16) 255)))
    (crc_tbl 2 (Z.land (Z.shiftr d1 8) 255)))
    (crc_tbl 3 (Z.land d1 255)).
Proof.
  intros Hd.
  pose proof (table_spec _ (land_255_range d1)) as (_ & E1 & E2 & E3 & _).
  pose proof (table_spec _ (land_255_range (Z.shiftr d1 8))) as (_ & E4 & E5 & _).
  pose proof (table_spec _ (land_255_range (Z.shiftr d1 16))) as (_ & E6 & _).
  rewrite (crc_bits8_table d1), !crc_bits8_lxor, E1, E2, E3.
  rewrite (crc_bits8_table (Z.shiftr d1 8)), !crc_bits8_lxor, Z.shiftr_shiftr, E4, E5 by lia.
  change (8 + 8) with 16.
  rewrite (crc_bits8_table (Z.shiftr d1 16)), !crc_bits8_lxor, Z.shiftr_shiftr, E6 by lia.
  change (16 + 8) with 24.
  rewrite (crc_bits8_table (Z.shiftr d1 24)), Z.shiftr_shiftr by lia.
  change (24 + 8) with 32.
  rewrite (Z.shiftr_div_pow2 d1 32), Z.div_small, Z.lxor_0_r by lia.
  rewrite (Z.lxor_comm (crc_tbl 3 _)). f_equal.
  rewrite (Z.lxor_comm (crc_tbl 2 _)). f_equal. apply Z.lxor_comm.
Qed.

Lemma crc_word_step_spec c b0 b1 b2 b3 :
  0 <= c < 2 ^ 32 -> is_byte b0 -> is_byte b1 -> is_byte b2 -> is_byte b3 ->
  crc_word_step c (load32 b0 b1 b2 b3)
  = fold_left (fun c b => crc_bits8 (Z.lxor c b)) [b0; b1; b2; b3] c.
Proof.
  intros Hc H0 H1 H2 H3. unfold load32.
  rewrite !lor_shiftl_lxor by (unfold is_byte in *; lia).
  assert (Hlow : forall b r n, 0 <= n -> is_byte b -> 0 <= r < 2 ^ n ->
            0 <= Z.lxor b (Z.shiftl r 8) < 2 ^ (n + 8)).
  { intros b r n Hn Hb Hr. apply lxor_range; [lia| |].
    - unfold is_byte in Hb. pose proof (Z.pow_le_mono_r 2 8 (n + 8)). lia.
    - rewrite Z.shiftl_mul_pow2, Z.pow_add_r by lia. nia. }
  unfold crc_word_step. cbv zeta. rewrite (Z.lxor_comm _ c), <- crc_bits8_4.
  - cbn [fold_left]. by rewrite !crc_bits8_low.
  - apply lxor_range; [lia|done|]. apply (Hlow _ _ 24); [lia|done|].
    apply (Hlow _ _ 16); [lia|done|]. apply (Hlow _ _ 8); [lia|done|exact H3].
Qed.

Lemma crc_fold_range data c :
  0 <= c < 2 ^ 32 -> Forall is_byte data ->
  0 <= fold_left (fun c b => crc_bits8 (Z.lxor c b)) data c < 2 ^ 32.
Proof.
  intros Hc Hd. revert c Hc. induction Hd as [|b data Hb Hd IH]; intros c Hc; [done|].
  apply IH, crc_bits8_range, lxor_range; [lia|done|by apply is_byte_range32].
Qed.

Lemma crc_tail_spec data c :
  0 <= c < 2 ^ 32 -> Forall is_byte data ->
  fold_left crc_byte_step data c = fold_left (fun c b => crc_bits8 (Z.lxor c b)) data c.
Proof.
  intros Hc Hd. revert c Hc. induction Hd as [|b data Hb Hd IH]; intros c Hc; [done|].
  cbn. rewrite crc_byte_step_spec by done.
  apply IH, crc_bits8_range, lxor_range; [lia|done|by apply is_byte_range32].
Qed.

(** Induction that takes a list four elements at a time. *)
Lemma list_ind4 {A} (P : list A -> Prop) :
  P [] -> (forall a, P [a]) -> (forall a b, P [a; b]) -> (forall a b c, P [a; b; c]) ->
  (forall a b c d l, P l -> P (a :: b :: c :: d :: l)) -> forall l, P l.
Proof.
  intros H0 H1 H2 H3 Hs l.
  enough (P l /\ (forall a, P (a :: l)) /\ (forall a b, P (a :: b :: l)) /\
          (forall a b c, P (a :: b :: c :: l))) by tauto.
  induction l as [|x l (IH0 & IH1 & IH2 & IH3)]; eauto.
Qed.

Lemma sf_crc32_loop_4 crc b0 b1 b2 b3 data :
  sf_crc32_loop crc (b0 :: b1 :: b2 :: b3 :: data)
  = sf_crc32_loop (crc_word_step crc (load32 b0 b1 b2 b3)) data.
Proof. reflexivity. Qed.

Lemma sf_crc32_loop_spec data c :
  0 <= c < 2 ^ 32 -> Forall is_byte data ->
  sf_crc32_loop c data = fold_left (fun c b => crc_bits8 (Z.lxor c b)) data c.
Proof.
  revert c. induction data as [|?|? ?|? ? ?|b0 b1 b2 b3 data IH] using list_ind4;
    intros crc Hc Hd; try (by apply crc_tail_spec).
  rewrite !Forall_cons in Hd. destruct Hd as (H0 & H1 & H2 & H3 & Hd).
  rewrite sf_crc32_loop_4, crc_word_step_spec by done.
  change (b0 :: b1 :: b2 :: b3 :: data) with ([b0; b1; b2; b3] ++ data).
  rewrite fold_left_app. apply IH; [|done]. apply crc_fold_range; [done|].
  rewrite !Forall_cons. auto using Forall_nil_2.
Qed.

(** ** Properties *)

(** C40: the slicing-by-four routine computes the CRC-32 of its bytes. *)
Theorem sf_crc32_gen_spec data :
  Forall is_byte data -> sf_crc32_gen data = crc32_spec data.
Proof. intros Hd. unfold sf_crc32_gen. by rewrite sf_crc32_loop_spec by (lia || done). Qed.

Theorem sf_crc32_gen_spec_witness :
  sf_crc32_gen [0x31; 0x32; 0x33; 0x34; 0x35; 0x36; 0x37; 0x38; 0x39] = 0xCBF43926 /\
  crc32_spec [0x31; 0x32; 0x33; 0x34; 0x35; 0x36; 0x37; 0x38; 0x39] = 0xCBF43926.
Proof.
  split; [vm_compute; reflexivity|].
  rewrite <- (sf_crc32_gen_spec [0x31; 0x32; 0x33; 0x34; 0x35; 0x36; 0x37; 0x38; 0x39])
    by (repeat constructor; unfold is_byte; cbv; congruence).
  vm_compute. reflexivity.
Defined.
