(* ===== verification/AclHash.v ===== *)
(** * The duplicate-rule hash of the ACL configuration library

    Models [nshell-lib/sf_plugin_api/sf_acl_hash.c]: an array of buckets, each
    the head of a doubly linked chain of rule ids threaded through an array of
    [{hash_prev, hash_next}] nodes.  Rule ids start at 1; 0 is the null link.
    [chain] is the well-formed chain of a list of ids and [hash_repr] relates
    the two arrays to the id list of every bucket. *)
From S2P Require Import Prelude.

(** ** Data (src/acl/include/sf_acl_shm.h) *)

Record sf_acl_hash_bucket_t := mk_bucket {
  node_cnt : Z;          (* 8 bits *)
  hash_next_rule : Z     (* 24 bits *)
}.

Record sf_acl_hash_node_t := mk_node {
  hash_prev : Z;
  hash_next : Z
}.

#[export] Instance zeroed_bucket : Zeroed sf_acl_hash_bucket_t := mk_bucket 0 0.
#[export] Instance zeroed_node : Zeroed sf_acl_hash_node_t := mk_node 0 0.
#[export] Instance bucket_eq_dec : EqDecision sf_acl_hash_bucket_t.
Proof. solve_decision. Defined.
#[export] Instance node_eq_dec : EqDecision sf_acl_hash_node_t.
Proof. solve_decision. Defined.

Definition set_hash_prev (v : Z) (n : sf_acl_hash_node_t) := mk_node v (hash_next n).
Definition set_hash_next (v : Z) (n : sf_acl_hash_node_t) := mk_node (hash_prev n) v.

Section hash.
Context `{ByteHash}.

Implicit Types (B : gmap Z sf_acl_hash_bucket_t) (N : gmap Z sf_acl_hash_node_t).

Definition acl_hash_index (key : list Z) (hash_bucket_cnt : Z) : Z :=
  byte_hash key mod hash_bucket_cnt.

(** The [while(rule_id_next != 0)] loop of [acl_hash_find]. *)
Fixpoint find_loop (fuel : nat) N (rule_cfg_cmp : Z -> list Z -> Z)
    (key : list Z) (rule_id_next : Z) : option Z :=
  match fuel with
  | O => None
  | S fuel =>
      if decide (rule_id_next = 0) then Some 0
      else if decide (rule_cfg_cmp rule_id_next key = 0) then Some rule_id_next
      else find_loop fuel N rule_cfg_cmp key (hash_next N.[rule_id_next - 1])
  end.

Definition acl_hash_find (fuel : nat) B (hash_bucket_cnt : Z) N (key : list Z)
    (rule_cfg_cmp : Z -> list Z -> Z) : option Z :=
  let hash_index := acl_hash_index key hash_bucket_cnt in
  let bucket := B.[hash_index] in
  if decide (node_cnt bucket = 0) then Some 0
  else find_loop fuel N rule_cfg_cmp key (hash_next_rule bucket).

Definition acl_hash_insert B (hash_bucket_cnt : Z) N (key : list Z)
    (acutal_rule_id : Z) : gmap Z sf_acl_hash_bucket_t * gmap Z sf_acl_hash_node_t :=
  let hash_index := acl_hash_index key hash_bucket_cnt in
  let bucket := B.[hash_index] in
  (* self *)
  let N := N.[acutal_rule_id - 1 <- mk_node 0 (hash_next_rule bucket)] in
  (* next *)
  let N := if decide (hash_next_rule bucket <> 0)
           then N.[hash_next_rule bucket - 1 <-
                   set_hash_prev acutal_rule_id N.[hash_next_rule bucket - 1]]
           else N in
  (* bucket *)
  let cnt := if decide (node_cnt bucket <> 255) then u8 (node_cnt bucket + 1)
             else node_cnt bucket in
  (B.[hash_index <- mk_bucket cnt (u24 acutal_rule_id)], N).

(** Both [hash_rule_prev] and [hash_rule_next] are read from [hash_prev], the
    freed node's [hash_prev] is cleared twice and its predecessor's
    [hash_prev] (not [hash_next]) is overwritten, as in the source. *)
Definition acl_hash_free B (hash_bucket_cnt : Z) N (key : list Z)
    (acutal_rule_id : Z) : gmap Z sf_acl_hash_bucket_t * gmap Z sf_acl_hash_node_t :=
  let hash_index := acl_hash_index key hash_bucket_cnt in
  let bucket := B.[hash_index] in
  let hash_rule_prev := hash_prev N.[acutal_rule_id - 1] in
  let hash_rule_next := hash_prev N.[acutal_rule_id - 1] in
  (* self *)
  let N := N.[acutal_rule_id - 1 <- set_hash_prev 0 N.[acutal_rule_id - 1]] in
  (* prev *)
  let '(next_rule, N) :=
    if decide (hash_rule_prev = 0) then (u24 hash_rule_next, N)
    else (hash_next_rule bucket,
          N.[hash_rule_prev - 1 <-
             set_hash_prev hash_rule_next N.[hash_rule_prev - 1]]) in
  (* next *)
  let N := if decide (hash_rule_next <> 0)
           then N.[hash_rule_next - 1 <-
                   set_hash_prev hash_rule_prev N.[hash_rule_next - 1]]
           else N in
  (* bucket *)
  let cnt := if decide (node_cnt bucket <> 255) then u8 (node_cnt bucket - 1)
             else node_cnt bucket in
  (B.[hash_index <- mk_bucket cnt next_rule], N).

(** ** Representation *)

(** [chain N prev id l]: following [hash_next] from [id] visits exactly [l]
    and every node's [hash_prev] is the node before it ([prev] for the
    first). *)
Fixpoint chain N (prev id : Z) (l : list Z) : Prop :=
  match l with
  | [] => id = 0
  | x :: l' => id = x /\ 0 < x /\ hash_prev N.[x - 1] = prev /\
               chain N x (hash_next N.[x - 1]) l'
  end.

(** [path N id l id']: following [hash_next] from [id] visits [l] and then
    stands at [id']; no condition on the back links. *)
Fixpoint path N (id : Z) (l : list Z) (id' : Z) : Prop :=
  match l with
  | [] => id = id'
  | x :: l' => id = x /\ 0 < x /\ path N (hash_next N.[x - 1]) l' id'
  end.

(** [hash_repr B N ls]: bucket [b] holds the chain of [ls b], its counter is
    the chain's length saturated at 255, and every id is in one bucket. *)
Record hash_repr B N (ls : Z -> list Z) : Prop := {
  hr_chain b : chain N 0 (hash_next_rule B.[b]) (ls b);
  hr_count b : node_cnt B.[b] = Z.min 255 (Z.of_nat (length (ls b)));
  hr_nodup b : NoDup (ls b);
  hr_disj b b' x : x ∈ ls b -> x ∈ ls b' -> b = b'
}.
End hash.

Arguments find_loop : simpl nomatch.

(** ** Lemmas on chains *)

Section chain_lemmas.
Implicit Types (N : gmap Z sf_acl_hash_node_t).

Lemma chain_path N p id l : chain N p id l -> path N id l 0.
Proof.
  revert p id. induction l as [|x l IH]; cbn; [done|].
  intros p id (-> & Hx & _ & Hc). eauto.
Qed.

Lemma chain_pos N p id l x : chain N p id l -> x ∈ l -> 0 < x.
Proof.
  revert p id. induction l as [|y l IH]; cbn; intros p id Hc Hin; [set_solver|].
  destruct Hc as (_ & Hy & _ & Hc). apply elem_of_cons in Hin as [->|]; eauto.
Qed.

(** A chain only depends on the nodes it visits. *)
Lemma chain_frame N N' p id l :
  (forall x, x ∈ l -> N'.[x - 1] = N.[x - 1]) -> chain N p id l -> chain N' p id l.
Proof.
  revert p id. induction l as [|x l IH]; cbn; intros p id Hf; [done|].
  intros (-> & Hx & Hp & Hc). rewrite Hf by set_solver.
  split_and!; try done. apply IH; [|done]. intros y Hy. apply Hf. set_solver.
Qed.

Lemma path_frame N N' id l id' :
  (forall x, x ∈ l -> hash_next N'.[x - 1] = hash_next N.[x - 1]) ->
  path N id l id' -> path N' id l id'.
Proof.
  revert id. induction l as [|x l IH]; cbn; intros id Hf; [done|].
  intros (-> & Hx & Hc). rewrite Hf by set_solver.
  split_and!; try done. apply IH; [|done]. intros y Hy. apply Hf. set_solver.
Qed.

Lemma path_app N id l1 l2 id' :
  path N id (l1 ++ l2) id' <-> exists m, path N id l1 m /\ path N m l2 id'.
Proof.
  revert id. induction l1 as [|x l1 IH]; cbn; intros id.
  - naive_solver.
  - setoid_rewrite IH. naive_solver.
Qed.

(** The node at a position of a chain: its back link is the element before
    it. *)
Lemma chain_prev N p id l1 x y l2 :
  chain N p id (l1 ++ x :: y :: l2) -> hash_prev N.[y - 1] = x /\ 0 < x /\ 0 < y.
Proof.
  revert p id. induction l1 as [|z l1 IH]; cbn; intros p id.
  - intros (-> & Hx & _ & Hy & ? & ? & _). done.
  - intros (_ & _ & _ & Hc). eauto.
Qed.

Lemma find_loop_S N cmp key id fuel :
  find_loop (S fuel) N cmp key id =
  if decide (id = 0) then Some 0
  else if decide (cmp id key = 0) then Some id
  else find_loop fuel N cmp key (hash_next N.[id - 1]).
Proof. done. Qed.

Lemma find_loop_path N cmp key id l fuel :
  path N id l 0 -> (length l < fuel)%nat ->
  find_loop fuel N cmp key id
  = Some (first_such (fun x => bool_decide (cmp x key = 0)) l).
Proof.
  revert id fuel. induction l as [|x l IH]; intros id fuel Hp Hf.
  - destruct fuel; cbn in *; [lia|]. subst. done.
  - destruct fuel; [cbn in Hf; lia|]. destruct Hp as (-> & Hx & Hp).
    rewrite find_loop_S, decide_False by lia. cbn [first_such].
    case_bool_decide; case_decide; try done.
    apply IH; [done|]. cbn in Hf. lia.
Qed.

(** What a search returns satisfies the comparison, whatever the links. *)
Lemma find_loop_hit N cmp key fuel id r :
  find_loop fuel N cmp key id = Some r -> r <> 0 -> cmp r key = 0.
Proof.
  revert id. induction fuel as [|fuel IH]; intros id; [done|].
  rewrite find_loop_S. repeat case_decide; intros E Hr; simplify_eq; eauto.
Qed.

(** A search whose links loop through nodes that never match does not end. *)
Lemma find_loop_lasso N cmp key l id fuel :
  path N id l id -> l <> [] -> (forall x, x ∈ l -> cmp x key <> 0) ->
  find_loop fuel N cmp key id = None.
Proof.
  intros Hp Hne Hcmp.
  enough (forall fuel l1 l2 m, l = l1 ++ l2 -> path N m l2 id ->
            find_loop fuel N cmp key m = None) as Hgen
    by (apply (Hgen fuel [] l); done).
  clear fuel. induction fuel as [|fuel IH]; intros l1 l2 m El Hm; [done|].
  destruct l2 as [|x l2].
  - cbn in Hm. subst m. destruct l as [|x l]; [done|].
    pose proof Hp as (-> & Hx & Hp').
    rewrite find_loop_S, !decide_False by (lia || (apply Hcmp; set_solver)).
    by apply (IH [x] l).
  - cbn in Hm. destruct Hm as (-> & Hx & Hm').
    rewrite find_loop_S, !decide_False by (lia || (apply Hcmp; subst l; set_solver)).
    apply (IH (l1 ++ [x]) l2); [|done]. by rewrite <- app_assoc.
Qed.

(** So does one whose links lead to such a loop. *)
Lemma find_loop_stuck N cmp key before x circle id fuel :
  path N id before x -> path N x circle x -> circle <> [] ->
  (forall y, y ∈ before ++ circle -> cmp y key <> 0) ->
  find_loop fuel N cmp key id = None.
Proof.
  revert id fuel. induction before as [|y before IH]; intros id fuel Hb Hp Hne Hcmp; cbn in Hb.
  - subst id. by apply (find_loop_lasso _ _ _ circle).
  - destruct fuel as [|fuel]; [done|]. destruct Hb as (-> & Hy & Hb).
    rewrite find_loop_S, !decide_False by (lia || (apply Hcmp; set_solver)).
    apply IH; [done..|]. intros z Hz. apply Hcmp. set_solver.
Qed.

(** The nodes an unfinished search has visited. *)
Lemma find_loop_visited N cmp key M fuel id :
  (forall i, 0 <= hash_next N.[i] <= M) -> 0 <= id <= M -> find_loop fuel N cmp key id = None ->
  exists l x, length l = fuel /\ path N id l x /\ forall y, y ∈ l -> 1 <= y <= M /\ cmp y key <> 0.
Proof.
  intros HN. revert id. induction fuel as [|fuel IH]; intros id Hid E.
  - exists [], id. split_and!; [done..|set_solver].
  - rewrite find_loop_S in E. case_decide as Hz; [done|]. case_decide as Hc; [done|].
    destruct (IH _ (HN _) E) as (l & x & Hl & Hp & Hy). exists (id :: l), x.
    cbn. split_and!; [lia|done|lia|done|]. intros y [->|?]%elem_of_cons; [split; [lia|done]|auto].
Qed.

(** A list of more numbers than there are has one of them twice. *)
Lemma repeated_element (l : list Z) M :
  (forall y, y ∈ l -> 1 <= y <= M) -> (Z.to_nat M < length l)%nat ->
  exists l1 y l2 l3, l = l1 ++ y :: l2 ++ y :: l3.
Proof.
  intros Hr Hl. assert (Hnd : ~ NoDup l).
  { intros Hnd. assert (length l <= Z.to_nat M)%nat; [|lia]. rewrite <- (length_seqZ 1 M).
    apply submseteq_length, NoDup_submseteq; [done|]. intros y Hy. apply elem_of_seqZ. specialize (Hr y Hy). lia. }
  clear Hr Hl. induction l as [|x l IH]; [destruct Hnd; constructor|].
  destruct (decide (x ∈ l)) as [(l2 & l3 & ->)%list_elem_of_split|Hx]; [by exists [], x, l2, l3|].
  destruct IH as (l1 & y & l2 & l3 & ->); [by intros ?; apply Hnd; constructor|]. by exists (x :: l1), y, l2, l3.
Qed.

(** With all links in range, as many steps as there are slots and one more decide:
    an unfinished search goes round in a circle. *)
Lemma find_loop_circle N cmp key M id :
  (forall i, 0 <= hash_next N.[i] <= M) -> 0 <= id <= M -> find_loop (S (Z.to_nat M)) N cmp key id = None ->
  exists before x circle, path N id before x /\ path N x circle x /\ circle <> [] /\
    forall y, y ∈ before ++ circle -> 1 <= y <= M /\ cmp y key <> 0.
Proof.
  intros HN Hid E. destruct (find_loop_visited _ _ _ _ _ _ HN Hid E) as (l & z & Hl & Hp & Hy).
  destruct (repeated_element l M) as (l1 & y & l2 & l3 & ->); [intros y ?; by apply Hy|lia|].
  apply path_app in Hp as (m & H1 & H2). exists l1, m, (y :: l2).
  change (y :: l2 ++ y :: l3) with ((y :: l2) ++ y :: l3) in H2.
  apply path_app in H2 as (m' & H2 & H3). destruct H2 as (-> & Hy0 & H2). destruct H3 as (-> & _).
  split_and!; [done|by cbn|done|]. intros u Hu. apply Hy. set_solver.
Qed.
End chain_lemmas.

(** ** Insertion and search refine the id lists *)

Section refinement.
Context `{ByteHash}.
Implicit Types (B : gmap Z sf_acl_hash_bucket_t) (N : gmap Z sf_acl_hash_node_t)
  (ls : Z -> list Z).

Definition ls_push ls (h id : Z) : Z -> list Z :=
  fun b => if decide (b = h) then id :: ls h else ls b.
Definition ls_set ls (h : Z) (l : list Z) : Z -> list Z :=
  fun b => if decide (b = h) then l else ls b.

Lemma hash_repr_empty : hash_repr ∅ ∅ (fun _ => []).
Proof. split; intros; rewrite ?aget_empty; cbn; try done; [constructor|set_solver]. Qed.

(** A chain keeps its form when another node is written at its head and the
    old head's back link is redirected to it. *)
Lemma chain_push N h id l :
  chain N 0 h l -> NoDup l -> id ∉ l -> 0 < id ->
  chain (let N := N.[id - 1 <- mk_node 0 h] in
         if decide (h <> 0) then N.[h - 1 <- set_hash_prev id N.[h - 1]] else N)
        0 id (id :: l).
Proof.
  intros Hc Hnd Hid Hpos. cbn [chain]. destruct l as [|x l].
  - cbn in Hc. subst h. rewrite decide_False by lia. rewrite aget_aset_eq. done.
  - pose proof Hc as (-> & Hx & Hp & Hc'). rewrite decide_True by lia.
    assert (x <> id) by set_solver.
    split_and!; [done|done| |].
    + by rewrite aget_aset_ne, aget_aset_eq by lia.
    + rewrite (aget_aset_ne _ (x - 1) (id - 1)), aget_aset_eq by lia. cbn.
      split_and!; [done|done| |].
      * by rewrite aget_aset_eq.
      * rewrite aget_aset_eq, aget_aset_ne by lia. cbn.
        apply NoDup_cons in Hnd as [Hxl Hnd].
        eapply chain_frame; [|apply Hc']. intros y Hy.
        assert (y <> id) by set_solver. assert (y <> x) by (by intros ->).
        by rewrite !aget_aset_ne by lia.
Qed.

(** Two ids of one representation, in different buckets, are different
    array slots. *)
Lemma repr_slot_ne B N ls b b' x y :
  hash_repr B N ls -> x ∈ ls b -> y ∈ ls b' -> b <> b' -> x - 1 <> y - 1.
Proof.
  intros Hr Hx Hy Hne E. assert (x = y) as -> by lia.
  apply Hne. eapply hr_disj; eauto.
Qed.

Lemma chain_head_in N p id l : chain N p id l -> id <> 0 -> id ∈ l.
Proof. destruct l; cbn; [lia|]. intros (-> & _) _. set_solver. Qed.

Lemma acl_hash_insert_repr B N ls key cnt id :
  0 < id < 2 ^ 24 -> (forall b, id ∉ ls b) -> hash_repr B N ls ->
  let '(B', N') := acl_hash_insert B cnt N key id in
  hash_repr B' N' (ls_push ls (acl_hash_index key cnt) id).
Proof.
  intros Hid Hfresh Hr. pose proof Hr as [Hch Hcnt Hnd Hdj]. unfold acl_hash_insert.
  set (h := acl_hash_index key cnt).
  pose proof (chain_push N (hash_next_rule B.[h]) id (ls h) (Hch h) (Hnd h)
                (Hfresh h) (proj1 Hid)) as Hpush.
  split.
  - intros b. unfold ls_push. destruct (decide (b = h)) as [->|Hb].
    + rewrite aget_aset_eq; cbn [hash_next_rule].
      rewrite (wrap_small 24 id) by lia. exact Hpush.
    + rewrite (aget_aset_ne B h b) by congruence. eapply chain_frame; [|apply Hch].
      intros x Hx. assert (x <> id) by (intros ->; by apply (Hfresh b)).
      case_decide; [|by rewrite aget_aset_ne by lia].
      rewrite !aget_aset_ne; [done|lia|].
      apply (repr_slot_ne B N ls h b _ x Hr); [|done|congruence].
      eapply chain_head_in; [apply Hch|done].
  - clear Hpush. intros b. unfold ls_push. destruct (decide (b = h)) as [->|Hb].
    + rewrite aget_aset_eq; cbn [node_cnt length]. rewrite Hcnt.
      case_decide.
      * rewrite wrap_small by (split; lia). lia.
      * lia.
    + by rewrite (aget_aset_ne B h b) by congruence.
  - clear Hpush. intros b. unfold ls_push. case_decide; [|done]. by constructor.
  - clear Hpush. intros b b' x. unfold ls_push.
    repeat case_decide; subst; rewrite ?elem_of_cons; intros; destruct_or?; subst;
      try done; try (exfalso; eapply Hfresh; done); eauto.
Qed.

(** A search over a well-formed table returns the first rule of the key's
    bucket that compares equal, and 0 when there is none. *)
Lemma acl_hash_find_repr B N ls key cnt cmp fuel :
  hash_repr B N ls ->
  (length (ls (acl_hash_index key cnt)) < fuel)%nat ->
  acl_hash_find fuel B cnt N key cmp
  = Some (first_such (fun x => bool_decide (cmp x key = 0)) (ls (acl_hash_index key cnt))).
Proof.
  intros [Hch Hcnt _ _] Hf. unfold acl_hash_find.
  set (h := acl_hash_index key cnt) in *.
  case_decide as Hz.
  - rewrite Hcnt in Hz. destruct (ls h); [done|cbn in Hz; lia].
  - apply find_loop_path; [|done]. by eapply chain_path.
Qed.
End refinement.

(** ** Removal

    [acl_hash_free] unlinks a rule correctly only when it is alone in its
    bucket. *)

Section removal.
Context `{ByteHash}.
Implicit Types (B : gmap Z sf_acl_hash_bucket_t) (N : gmap Z sf_acl_hash_node_t)
  (ls : Z -> list Z).

Lemma hash_next_set_prev N i v x :
  hash_next N.[i <- set_hash_prev v N.[i]].[x] = hash_next N.[x].
Proof. rewrite aget_aset. case_decide; by subst. Qed.

Lemma node_cnt_pred n : (0 < n)%nat ->
  (if decide (Z.min 255 (Z.of_nat n) <> 255) then u8 (Z.min 255 (Z.of_nat n) - 1)
   else Z.min 255 (Z.of_nat n))
  = if decide (n < 255)%nat then Z.of_nat n - 1 else 255.
Proof.
  intros Hn. destruct (decide (n < 255)%nat).
  - rewrite decide_True by lia. rewrite wrap_small by (split; lia). lia.
  - rewrite decide_False by lia. lia.
Qed.

(** Freeing the first rule of a bucket sets the bucket's head to 0. *)
Lemma acl_hash_free_head_eq B N key cnt id :
  let h := acl_hash_index key cnt in
  hash_prev N.[id - 1] = 0 ->
  acl_hash_free B cnt N key id
  = (B.[h <- mk_bucket (if decide (node_cnt B.[h] <> 255)
                        then u8 (node_cnt B.[h] - 1) else node_cnt B.[h]) 0],
     N.[id - 1 <- set_hash_prev 0 N.[id - 1]]).
Proof.
  intros h Hp. unfold acl_hash_free. fold h. rewrite Hp.
  rewrite decide_True by done. by rewrite (decide_False (P := 0 <> 0)) by lia.
Qed.

(** Freeing a rule that is not first leaves every [hash_next] and the
    bucket's head as they were. *)
Lemma acl_hash_free_inner_next B N key cnt id :
  hash_prev N.[id - 1] <> 0 ->
  let '(B', N') := acl_hash_free B cnt N key id in
  let h := acl_hash_index key cnt in
  B' = B.[h <- mk_bucket (if decide (node_cnt B.[h] <> 255)
                          then u8 (node_cnt B.[h] - 1) else node_cnt B.[h])
                         (hash_next_rule B.[h])] /\
  (forall x, hash_next N'.[x] = hash_next N.[x]).
Proof.
  intros Hp. unfold acl_hash_free.
  rewrite decide_False by done. rewrite (decide_True (P := _ <> 0)) by done.
  split; [done|]. intros x. by rewrite !hash_next_set_prev.
Qed.

(** A rule alone in its bucket is removed. *)
Lemma acl_hash_free_single_repr B N ls key cnt id :
  hash_repr B N ls -> ls (acl_hash_index key cnt) = [id] ->
  let '(B', N') := acl_hash_free B cnt N key id in
  hash_repr B' N' (ls_set ls (acl_hash_index key cnt) []).
Proof.
  intros [Hch Hcnt Hnd Hdj] El. set (h := acl_hash_index key cnt) in *.
  pose proof (Hch h) as Hc. rewrite El in Hc. destruct Hc as (_ & _ & Hp & _).
  rewrite acl_hash_free_head_eq by done. fold h.
  split; intros b; unfold ls_set.
  - destruct (decide (b = h)) as [->|Hb].
    + by rewrite aget_aset_eq.
    + rewrite (aget_aset_ne B h b) by congruence. eapply chain_frame; [|apply Hch].
      intros x Hx. assert (x <> id).
      { intros ->. apply Hb. eapply Hdj; [done|]. rewrite El. set_solver. }
      by rewrite aget_aset_ne by lia.
  - destruct (decide (b = h)) as [->|Hb].
    + rewrite aget_aset_eq; cbn [node_cnt]. by rewrite Hcnt, El.
    + by rewrite (aget_aset_ne B h b) by congruence.
  - case_decide; [constructor|done].
  - intros b' x. repeat case_decide; intros; try congruence; try set_solver.
Qed.


(** After the first rule of a bucket is freed no rule of the bucket is found
    any more. *)
Lemma acl_hash_free_head_find B N ls key cnt id rest key' cmp fuel :
  hash_repr B N ls -> ls (acl_hash_index key cnt) = id :: rest ->
  acl_hash_index key' cnt = acl_hash_index key cnt ->
  let '(B', N') := acl_hash_free B cnt N key id in
  acl_hash_find (S fuel) B' cnt N' key' cmp = Some 0.
Proof.
  intros Hr El Hk. set (h := acl_hash_index key cnt) in *.
  pose proof (hr_chain _ _ _ Hr h) as Hc. rewrite El in Hc.
  destruct Hc as (_ & _ & Hp & _).
  rewrite acl_hash_free_head_eq by done. fold h. unfold acl_hash_find.
  rewrite Hk, aget_aset_eq. cbn [hash_next_rule]. case_decide; [done|].
  by rewrite find_loop_S, decide_True.
Qed.

(** A freed rule that was not first in its bucket is still found. *)
Lemma acl_hash_free_inner_find B N ls key cnt id l1 p l2 key' cmp fuel :
  let h := acl_hash_index key cnt in
  hash_repr B N ls -> ls h = l1 ++ p :: id :: l2 ->
  acl_hash_index key' cnt = h -> (length (ls h) < fuel)%nat ->
  let '(B', N') := acl_hash_free B cnt N key id in
  acl_hash_find fuel B' cnt N' key' cmp
  = Some (first_such (fun x => bool_decide (cmp x key' = 0)) (ls h)).
Proof.
  intros h Hr El Hk Hf. pose proof (hr_chain _ _ _ Hr h) as Hc. rewrite El in Hc.
  destruct (chain_prev _ _ _ _ _ _ _ Hc) as (Hp & Hpp & _). rewrite <- El in Hc.
  pose proof (acl_hash_free_inner_next B N key cnt id ltac:(lia)) as Hn.
  destruct (acl_hash_free B cnt N key id) as [B' N']. destruct Hn as [-> Hn].
  unfold acl_hash_find. fold h. rewrite Hk, aget_aset_eq. cbn [hash_next_rule node_cnt].
  rewrite (hr_count _ _ _ Hr h), node_cnt_pred by (rewrite El, length_app; cbn; lia).
  rewrite decide_False.
  - apply find_loop_path; [|done]. eapply path_frame; [intros; apply Hn|].
    by eapply chain_path.
  - rewrite El, length_app. cbn. case_decide; lia.
Qed.

(** Adding the freed rule again links it in front of a chain that still
    leads to it. *)
Lemma acl_hash_readd_cycle B N ls key cnt id l1 p l2 key' cmp fuel :
  let h := acl_hash_index key cnt in
  hash_repr B N ls -> ls h = l1 ++ p :: id :: l2 -> id < 2 ^ 24 ->
  acl_hash_index key' cnt = h ->
  (forall x, x ∈ id :: l1 ++ [p] -> cmp x key' <> 0) ->
  let '(B', N') := acl_hash_free B cnt N key id in
  let '(B', N') := acl_hash_insert B' cnt N' key id in
  acl_hash_find fuel B' cnt N' key' cmp = None.
Proof.
  intros h Hr El Hid Hk Hcmp. pose proof (hr_chain _ _ _ Hr h) as Hc. rewrite El in Hc.
  destruct (chain_prev _ _ _ _ _ _ _ Hc) as (Hp & Hpp & Hidp).
  pose proof (acl_hash_free_inner_next B N key cnt id ltac:(lia)) as Hn.
  destruct (acl_hash_free B cnt N key id) as [B' N']. destruct Hn as [-> Hn].
  unfold acl_hash_insert, acl_hash_find. fold h. rewrite Hk, !aget_aset_eq.
  cbn [hash_next_rule node_cnt]. rewrite (wrap_small 24 id) by lia.
  rewrite (hr_count _ _ _ Hr h), node_cnt_pred by (rewrite El, length_app; cbn; lia).
  assert (2 <= Z.of_nat (length (ls h))) by (rewrite El, length_app; cbn; lia).
  rewrite decide_False; [|repeat case_decide; rewrite ?wrap_small by (split; lia); lia].
  assert (Hh : hash_next_rule B.[h] <> 0 /\ hash_next_rule B.[h] <> id).
  { pose proof (hr_nodup _ _ _ Hr h) as Hnd. rewrite El in Hnd. destruct l1 as [|y l1].
    - destruct Hc as (-> & _). apply NoDup_cons in Hnd as [? _]. set_solver by lia.
    - destruct Hc as (-> & ? & _). apply NoDup_cons in Hnd as [? _]. set_solver by lia. }
  rewrite (decide_True (P := _ <> 0)) by apply Hh.
  apply (find_loop_lasso _ _ _ (id :: l1 ++ [p])); [|done|done].
  cbn [path]. split_and!; [done|lia|]. rewrite hash_next_set_prev, aget_aset_eq.
  cbn [hash_next]. apply chain_path in Hc.
  change (p :: id :: l2) with ([p] ++ id :: l2) in Hc. rewrite app_assoc in Hc.
  apply path_app in Hc as (m & Hc & -> & _). eapply path_frame; [|exact Hc].
  intros x Hx. rewrite hash_next_set_prev, aget_aset_ne; [apply Hn|].
  pose proof (hr_nodup _ _ _ Hr h) as Hnd. rewrite El in Hnd.
  change (p :: id :: l2) with ([p] ++ id :: l2) in Hnd. rewrite app_assoc in Hnd.
  apply NoDup_app in Hnd as (_ & Hnd & _). specialize (Hnd _ Hx). set_solver by lia.
Qed.
End removal.

(** ** Properties *)

Section hash_properties.
Context `{ByteHash}.

(** Over a well-formed table a search after an insertion returns the first
    rule that compares equal in the chain of the searched key: the inserted
    rule when it is in that bucket and compares equal, otherwise what was
    found before. *)
Theorem acl_hash_insert_find B N ls key cnt id key' cmp fuel :
  hash_repr B N ls -> 0 < id < 2 ^ 24 -> (forall b, id ∉ ls b) ->
  (S (length (ls (acl_hash_index key' cnt))) < fuel)%nat ->
  let '(B', N') := acl_hash_insert B cnt N key id in
  acl_hash_find fuel B' cnt N' key' cmp =
  if decide (acl_hash_index key' cnt = acl_hash_index key cnt /\ cmp id key' = 0)
  then Some id else acl_hash_find fuel B cnt N key' cmp.
Proof.
  intros Hr Hid Hfresh Hf.
  pose proof (acl_hash_insert_repr B N ls key cnt id Hid Hfresh Hr) as Hr'.
  destruct (acl_hash_insert B cnt N key id) as [B' N'].
  rewrite (acl_hash_find_repr B N ls) by (done || lia).
  rewrite (acl_hash_find_repr B' N' (ls_push ls (acl_hash_index key cnt) id)); [|done|].
  - unfold ls_push. destruct (decide (acl_hash_index key' cnt = acl_hash_index key cnt)) as [E|E].
    + rewrite E. cbn [first_such]. case_bool_decide; case_decide; tauto.
    + by rewrite (decide_False (P := _ /\ _)) by tauto.
  - unfold ls_push. case_decide as E; [rewrite <- E; cbn [length]|]; lia.
Qed.

(** A rule alone in its bucket is freed correctly, but freeing the first
    rule of a longer bucket makes every rule of the bucket unfindable, and a
    freed rule that was not first is still found. *)
Theorem acl_hash_free_find B N ls key cnt id l1 l2 key' cmp fuel :
  hash_repr B N ls -> ls (acl_hash_index key cnt) = l1 ++ id :: l2 ->
  acl_hash_index key' cnt = acl_hash_index key cnt ->
  (length (ls (acl_hash_index key cnt)) < fuel)%nat ->
  let '(B', N') := acl_hash_free B cnt N key id in
  acl_hash_find fuel B' cnt N' key' cmp
  = Some (if decide (l1 = []) then 0
          else first_such (fun x => bool_decide (cmp x key' = 0)) (l1 ++ id :: l2)).
Proof.
  intros Hr El Hk Hf. destruct l1 as [|x l1 _] using rev_ind.
  - destruct fuel as [|fuel]; [lia|].
    exact (acl_hash_free_head_find _ _ _ _ _ _ _ _ _ _ Hr El Hk).
  - rewrite decide_False by (by destruct l1).
    rewrite <- app_assoc in El |- *. cbn [app] in El |- *.
    pose proof (acl_hash_free_inner_find _ _ _ _ _ _ _ _ _ key' cmp fuel Hr El Hk Hf) as Hi.
    by rewrite El in Hi.
Qed.
End hash_properties.

(** *** Witnesses: every key in bucket 0, two rules *)

Section hash_witness.
#[local] Instance zero_hash : ByteHash := fun _ => 0.

Definition demo_ls (b : Z) : list Z := if decide (b = 0) then [2; 1] else [].
Definition demo_table :=
  let '(B, N) := acl_hash_insert (H := zero_hash) ∅ 8 ∅ [] 1 in
  acl_hash_insert (H := zero_hash) B 8 N [] 2.

Lemma demo_repr : hash_repr (fst demo_table) (snd demo_table) demo_ls.
Proof.
  pose proof (acl_hash_insert_repr (H := zero_hash) ∅ ∅ (fun _ => []) [] 8 1 ltac:(lia)
    ltac:(intros b; apply not_elem_of_nil) hash_repr_empty) as H1.
  destruct (acl_hash_insert (H := zero_hash) ∅ 8 ∅ [] 1) as [B1 N1] eqn:E1.
  pose proof (acl_hash_insert_repr (H := zero_hash) B1 N1
    (ls_push (fun _ => []) (acl_hash_index (H := zero_hash) [] 8) 1) [] 8 2 ltac:(lia)
    ltac:(intros b; unfold ls_push; case_decide; rewrite ?elem_of_cons, elem_of_nil; lia) H1)
    as H2.
  unfold demo_table. rewrite E1.
  destruct (acl_hash_insert (H := zero_hash) B1 8 N1 [] 2) as [B2 N2].
  cbn [fst snd]. destruct H2 as [Hc Hn Hd Hj].
  assert (E : forall b, ls_push (ls_push (fun _ => []) (acl_hash_index [] 8) 1)
                          (acl_hash_index [] 8) 2 b = demo_ls b).
  { intros b. unfold ls_push, demo_ls. change (acl_hash_index [] 8) with 0.
    by repeat case_decide. }
  split; intros; rewrite <- ?E in *; eauto.
Qed.
End hash_witness.

Theorem acl_hash_insert_find_witness :
  let '(B', N') := acl_hash_insert (H := zero_hash) (fst demo_table) 8 (snd demo_table) [] 3 in
  acl_hash_find (H := zero_hash) 10 B' 8 N' [] (fun id _ => id - 3) = Some 3.
Proof.
  pose proof (acl_hash_insert_find (H := zero_hash) (fst demo_table) (snd demo_table) demo_ls
    [] 8 3 [] (fun id _ => id - 3) 10 demo_repr ltac:(lia)
    ltac:(intros b; unfold demo_ls; case_decide; rewrite ?elem_of_cons, elem_of_nil; lia)
    ltac:(vm_compute; lia)) as Hw.
  destruct (acl_hash_insert (H := zero_hash) (fst demo_table) 8 (snd demo_table) [] 3).
  rewrite Hw. reflexivity.
Defined.

Theorem acl_hash_free_find_witness :
  let '(B', N') := acl_hash_free (H := zero_hash) (fst demo_table) 8 (snd demo_table) [] 2 in
  acl_hash_find (H := zero_hash) 10 B' 8 N' [] (fun id _ => id - 1) = Some 0.
Proof.
  apply (acl_hash_free_find (H := zero_hash) (fst demo_table) (snd demo_table) demo_ls
    [] 8 2 [] [1] [] (fun id _ => id - 1) 10 demo_repr); [reflexivity|reflexivity|].
  vm_compute. lia.
Defined.
