(* ===== verification/AclTuple.v ===== *)
(** * The ACL rule store of the configuration library

    Models [nshell-lib/sf_plugin_api/sf_acl_tuple_api.c] and the rule-map part
    of [sf_acl_api.c] over the shared-memory layout of
    [src/acl/include/sf_acl_shm.h]: the outer-id to slot map, the slot arrays of
    the IPv4 and IPv6 families with their usage bitmaps and duplicate hashes,
    and the operations that create, replace, delete and read rules.  The two
    families have the same arrays under different names, so one record
    [tuple_table] stands for each; there is one rule group
    ([MAX_RULE_GROUP_CNT] is 1), so the group dimension is dropped and the
    group guards are kept.  The library reaches the store through a pointer
    that may be NULL: an [option]. *)
From S2P Require Import Prelude AclHash.

(** ** Constants (src/acl/include/acl_defines.h) *)

Definition MAX_RULE_GROUP_CNT : Z := 1.
Definition MAX_TUPLE_RULE_PER_GROUP : Z := 2048.
Definition TUPLE_RULE_BITMAP_CNT : Z := MAX_TUPLE_RULE_PER_GROUP / 64.
Definition TUPLE_RULE_HASH_BUCKET_CNT : Z := MAX_TUPLE_RULE_PER_GROUP / 8.
Definition MAX_RULE_PER_GROUP : Z := 4096.

Definition ACL_RULE_TYPE_NONE : Z := 0.
Definition ACL_RULE_TYPE_TUPLE4 : Z := 1.
Definition ACL_RULE_TYPE_TUPLE6 : Z := 2.

(** ** Data *)

Record sf_rule_map_t := mk_rule_map { rule_type : Z; actual_rule_id : Z }.

Record sf_map_rule_t := mk_map_rule {
  outer_id_valid : bool;
  outer_group_id : Z;
  outer_rule_id : Z
}.

(** What the user gives: addresses are text. *)
Record sf_tuple_rule_cfg_t := mk_user_cfg {
  u_is_ipv6 : Z;
  u_sport_min : Z; u_sport_max : Z;
  u_dport_min : Z; u_dport_max : Z;
  u_proto_min : Z; u_proto_max : Z;
  u_sip : list Z; u_sip_mask : Z;
  u_dip : list Z; u_dip_mask : Z
}.

Definition is_ipv6 (r : sf_tuple_rule_cfg_t) : bool := negb (u_is_ipv6 r =? 0).

(** What a slot keeps.  An address, 4 or 16 bytes in network order, is the
    number those bytes spell. *)
Record tuple_cfg := mk_cfg {
  sport_min : Z; sport_max : Z;
  dport_min : Z; dport_max : Z;
  proto_min : Z; proto_max : Z;
  sip_mask : Z; dip_mask : Z;
  sip : Z; dip : Z
}.

Record tuple_rule := mk_rule { map_rule : sf_map_rule_t; rule_cfg : tuple_cfg }.

Record tuple_table := mk_table {
  tuple_rule_bitmap : gmap Z Z;
  tuple_hash_bucket : gmap Z sf_acl_hash_bucket_t;
  tuple_hash_node : gmap Z sf_acl_hash_node_t;
  tuple_rules : gmap Z tuple_rule
}.

Record SF_CONF_T := mk_conf {
  acl_sync_flag : Z;
  acl_sync_times : Z;
  rule_map : gmap Z sf_rule_map_t;
  table_v4 : tuple_table;
  table_v6 : tuple_table
}.

#[export] Instance rule_map_eq_dec : EqDecision sf_rule_map_t.
Proof. solve_decision. Defined.
#[export] Instance map_rule_eq_dec : EqDecision sf_map_rule_t.
Proof. solve_decision. Defined.
#[export] Instance tuple_cfg_eq_dec : EqDecision tuple_cfg.
Proof. solve_decision. Defined.

Definition map_rule_zero : sf_map_rule_t := mk_map_rule false 0 0.
Definition cfg_zero : tuple_cfg := mk_cfg 0 0 0 0 0 0 0 0 0 0.
#[export] Instance zeroed_rule_map : Zeroed sf_rule_map_t := mk_rule_map 0 0.
#[export] Instance zeroed_rule : Zeroed tuple_rule := mk_rule map_rule_zero cfg_zero.

Definition table_zero : tuple_table := mk_table ∅ ∅ ∅ ∅.
Definition conf_zero : SF_CONF_T := mk_conf 0 0 ∅ table_zero table_zero.

(** *** Field updates *)

Definition set_map_rule (m : sf_map_rule_t) (r : tuple_rule) := mk_rule m (rule_cfg r).
Definition set_rule_cfg (k : tuple_cfg) (r : tuple_rule) := mk_rule (map_rule r) k.

Definition with_bitmap (b : gmap Z Z) (t : tuple_table) :=
  mk_table b (tuple_hash_bucket t) (tuple_hash_node t) (tuple_rules t).
Definition with_hash (bn : gmap Z sf_acl_hash_bucket_t * gmap Z sf_acl_hash_node_t)
    (t : tuple_table) :=
  mk_table (tuple_rule_bitmap t) (fst bn) (snd bn) (tuple_rules t).
Definition with_rules (r : gmap Z tuple_rule) (t : tuple_table) :=
  mk_table (tuple_rule_bitmap t) (tuple_hash_bucket t) (tuple_hash_node t) r.

Definition table_of (c : SF_CONF_T) (v6 : bool) : tuple_table :=
  if v6 then table_v6 c else table_v4 c.
Definition with_table (v6 : bool) (t : tuple_table) (c : SF_CONF_T) : SF_CONF_T :=
  if v6 then mk_conf (acl_sync_flag c) (acl_sync_times c) (rule_map c) (table_v4 c) t
  else mk_conf (acl_sync_flag c) (acl_sync_times c) (rule_map c) t (table_v6 c).
Definition with_rule_map (m : gmap Z sf_rule_map_t) (c : SF_CONF_T) : SF_CONF_T :=
  mk_conf (acl_sync_flag c) (acl_sync_times c) m (table_v4 c) (table_v6 c).

(** ** Address text

    [inet_pton] and [inet_ntop] are the C library's; [inet_pton v6 text] is the
    address when it would return 1. *)
Class Inet := {
  inet_pton : bool -> list Z -> option Z;
  inet_ntop : bool -> Z -> list Z
}.

Definition addr_len (v6 : bool) : nat := if v6 then 16%nat else 4%nat.
Definition addr_bits (v6 : bool) : Z := if v6 then 128 else 32.

(** Their documented behaviour: an address parses to 4 or 16 bytes, and the
    text of an address parses to it. *)
Class InetLaws `{Inet} := {
  inet_pton_range (v6 : bool) s a : inet_pton v6 s = Some a -> 0 <= a < 2 ^ addr_bits v6;
  inet_pton_ntop (v6 : bool) a : 0 <= a < 2 ^ addr_bits v6 ->
    inet_pton v6 (inet_ntop v6 a) = Some a
}.

(** ** Bitmap *)

Definition bitmap_get_id (bitmap_index inner_index : Z) : Z :=
  bitmap_index * 64 + inner_index + 1.

Fixpoint used_cnt_loop (n : nat) (bitmap cnt : Z) : Z :=
  match n with
  | O => cnt
  | S n =>
      let cnt := if decide (Z.land bitmap 1 <> 0) then cnt + 1 else cnt in
      let bitmap := Z.shiftr bitmap 1 in
      if decide (bitmap = 0) then cnt else used_cnt_loop n bitmap cnt
  end.

Definition calculate_used_cnt (bitmap : Z) : Z :=
  if decide (bitmap = 0) then 0
  else if decide (bitmap = 2 ^ 64 - 1) then 64
  else used_cnt_loop 64 bitmap 0.

Definition tuple_bitmap_get_total_cnt (v6 : bool) : Z :=
  if v6 then MAX_TUPLE_RULE_PER_GROUP else MAX_TUPLE_RULE_PER_GROUP.

Fixpoint total_cnt_loop (n : nat) (ptr : gmap Z Z) (i total_cnt : Z) : Z :=
  match n with
  | O => total_cnt
  | S n => total_cnt_loop n ptr (i + 1) (total_cnt + calculate_used_cnt ptr.[i])
  end.

Definition tuple_bitmap_get_used_cnt (c : SF_CONF_T) (v6 : bool) : Z :=
  total_cnt_loop (Z.to_nat TUPLE_RULE_BITMAP_CNT) (tuple_rule_bitmap (table_of c v6)) 0 0.

(** First word that is not all ones ([bitmap_index] when there is none). *)
Fixpoint bitmap_word_loop (n : nat) (ptr : gmap Z Z) (bitmap_index : Z) : Z :=
  match n with
  | O => bitmap_index
  | S n => if decide (ptr.[bitmap_index] <> 2 ^ 64 - 1) then bitmap_index
           else bitmap_word_loop n ptr (bitmap_index + 1)
  end.

Fixpoint bitmap_bit_loop (n : nat) (temp inner_index : Z) : option Z :=
  match n with
  | O => None
  | S n => if decide (Z.land temp 1 = 0) then Some inner_index
           else bitmap_bit_loop n (Z.shiftr temp 1) (inner_index + 1)
  end.

Definition bitmap_first_unused (ptr : gmap Z Z) (bitmap_cnt : Z) : Z :=
  let bitmap_index := bitmap_word_loop (Z.to_nat bitmap_cnt) ptr 0 in
  if decide (bitmap_index = bitmap_cnt) then 0
  else match bitmap_bit_loop 64 ptr.[bitmap_index] 0 with
       | None => 0
       | Some inner_index => bitmap_get_id bitmap_index inner_index
       end.

Definition tuple_bitmap_get_first_unused (c : SF_CONF_T) (v6 : bool) : Z :=
  bitmap_first_unused (tuple_rule_bitmap (table_of c v6)) TUPLE_RULE_BITMAP_CNT.

Definition bitmap_set (ptr : gmap Z Z) (id : Z) : gmap Z Z :=
  ptr.[bitmap_get_index (id - 1) <-
       Z.lor ptr.[bitmap_get_index (id - 1)] (bitmap_get_mask (id - 1))].
Definition bitmap_unset (ptr : gmap Z Z) (id : Z) : gmap Z Z :=
  ptr.[bitmap_get_index (id - 1) <-
       Z.ldiff ptr.[bitmap_get_index (id - 1)] (bitmap_get_mask (id - 1))].

Definition tuple_bitmap_set_used_flag (id : Z) (v6 : bool) (c : SF_CONF_T) : SF_CONF_T :=
  let t := table_of c v6 in
  with_table v6 (with_bitmap (bitmap_set (tuple_rule_bitmap t) id) t) c.
Definition tuple_bitmap_unset_used_flag (id : Z) (v6 : bool) (c : SF_CONF_T) : SF_CONF_T :=
  let t := table_of c v6 in
  with_table v6 (with_bitmap (bitmap_unset (tuple_rule_bitmap t) id) t) c.

(** ** Rule configuration *)

Section config.
Context `{Inet}.

Definition init_tuple_rule_cfg : sf_tuple_rule_cfg_t :=
  mk_user_cfg 0 0 0 0 0 0 0 [] 0 [] 0.

Definition in_range (x lo hi : Z) : bool := (lo <=? x) && (x <=? hi).

Definition check_tuple_rule_cfg (rule_cfg : option sf_tuple_rule_cfg_t) : Z :=
  match rule_cfg with
  | None => -1
  | Some r =>
      if negb (in_range (u_is_ipv6 r) 0 1 &&
               in_range (u_sport_min r) 0 65535 && in_range (u_sport_max r) 0 65535 &&
               in_range (u_dport_min r) 0 65535 && in_range (u_dport_max r) 0 65535 &&
               in_range (u_proto_min r) 0 255 && in_range (u_proto_max r) 0 255)
      then -1
      else if (u_sport_max r <? u_sport_min r) || (u_dport_max r <? u_dport_min r) ||
              (u_proto_max r <? u_proto_min r)
      then -1
      else
        let ip_mask_max := if is_ipv6 r then 128 else 32 in
        (* the masks are unsigned *)
        if negb (in_range (u_sip_mask r) 0 ip_mask_max && in_range (u_dip_mask r) 0 ip_mask_max)
        then -1
        else if inet_pton (is_ipv6 r) (u_sip r) is None then -1
        else if inet_pton (is_ipv6 r) (u_dip r) is None then -1
        else 0
  end.

(** [copy_tuple_cfg_to_tuple4] ([v6 = false]) and [.._tuple6]: the scalar
    members are stored first, and the addresses as far as they parse. *)
Definition copy_tuple_cfg_to_tuple (v6 : bool) (dst : tuple_cfg)
    (r : sf_tuple_rule_cfg_t) : tuple_cfg * Z :=
  let dst := mk_cfg (u_sport_min r) (u_sport_max r) (u_dport_min r) (u_dport_max r)
               (u_proto_min r) (u_proto_max r) (u_sip_mask r) (u_dip_mask r)
               (sip dst) (dip dst) in
  match inet_pton v6 (u_sip r) with
  | None => (dst, -1)
  | Some s =>
      let dst := mk_cfg (sport_min dst) (sport_max dst) (dport_min dst) (dport_max dst)
                   (proto_min dst) (proto_max dst) (sip_mask dst) (dip_mask dst)
                   s (dip dst) in
      match inet_pton v6 (u_dip r) with
      | None => (dst, -1)
      | Some d =>
          (mk_cfg (sport_min dst) (sport_max dst) (dport_min dst) (dport_max dst)
             (proto_min dst) (proto_max dst) (sip_mask dst) (dip_mask dst)
             (sip dst) d, 0)
      end
  end.

(** The bytes of a slot's configuration, which the hash and [memcmp] read
    (the struct has no padding). *)
Definition cfg_bytes (v6 : bool) (k : tuple_cfg) : list Z :=
  le16 (sport_min k) ++ le16 (sport_max k) ++ le16 (dport_min k) ++ le16 (dport_max k) ++
  [proto_min k; proto_max k; sip_mask k; dip_mask k] ++
  be_bytes (addr_len v6) (sip k) ++ be_bytes (addr_len v6) (dip k).
End config.

Definition invalid_group (group_id : Z) : bool :=
  (group_id <=? 0) || (MAX_RULE_GROUP_CNT <? group_id).
Definition invalid_outer (id : Z) : bool := (id <=? 0) || (MAX_RULE_PER_GROUP <? id).
Definition invalid_actual (id : Z) : bool :=
  (id <=? 0) || (MAX_TUPLE_RULE_PER_GROUP <? id).

(** ** Hash of configurations *)

Section ops.
Context `{ByteHash} `{Inet}.

Definition tuple_rule_cfg_cmp (v6 : bool) (t : tuple_table) (id : Z) (key : list Z) : Z :=
  memcmp key (cfg_bytes v6 (rule_cfg (tuple_rules t).[id - 1])).

(** [tuple_rule_find_v4/v6] through [tuple_hash_find_actual]. *)
Definition tuple_hash_find_actual (fuel : nat) (c : SF_CONF_T)
    (r : sf_tuple_rule_cfg_t) : option Z :=
  let t := table_of c (is_ipv6 r) in
  let '(tmp_cfg, ret) := copy_tuple_cfg_to_tuple (is_ipv6 r) cfg_zero r in
  if decide (ret <> 0) then Some (-1)
  else acl_hash_find fuel (tuple_hash_bucket t) TUPLE_RULE_HASH_BUCKET_CNT
         (tuple_hash_node t) (cfg_bytes (is_ipv6 r) tmp_cfg)
         (tuple_rule_cfg_cmp (is_ipv6 r) t).

Definition tuple_hash_find_outer (c : SF_CONF_T) (id : Z) (v6 : bool) : Z :=
  if decide (id <> 0) then
    let m := map_rule (tuple_rules (table_of c v6)).[id - 1] in
    if outer_id_valid m then outer_rule_id m else 0
  else 0.

Definition tuple_hash_insert (id : Z) (v6 : bool) (c : SF_CONF_T) : SF_CONF_T :=
  let t := table_of c v6 in
  let key := cfg_bytes v6 (rule_cfg (tuple_rules t).[id - 1]) in
  with_table v6 (with_hash (acl_hash_insert (tuple_hash_bucket t)
    TUPLE_RULE_HASH_BUCKET_CNT (tuple_hash_node t) key id) t) c.

Definition tuple_hash_free (id : Z) (v6 : bool) (c : SF_CONF_T) : SF_CONF_T :=
  let t := table_of c v6 in
  let key := cfg_bytes v6 (rule_cfg (tuple_rules t).[id - 1]) in
  with_table v6 (with_hash (acl_hash_free (tuple_hash_bucket t)
    TUPLE_RULE_HASH_BUCKET_CNT (tuple_hash_node t) key id) t) c.

(** ** Set and get *)

(** [set_tuple4_rule_cfg], [set_tuple6_rule_cfg], [set_tuple_rule_cfg]: the
    result of the copy is ignored. *)
Definition set_tuple_rule_cfg (conf : option SF_CONF_T) (group_id id : Z)
    (r : sf_tuple_rule_cfg_t) (v6 : bool) : option SF_CONF_T * Z :=
  match conf with
  | None => (conf, -1)
  | Some c =>
      if invalid_group group_id then (conf, -1)
      else if invalid_actual id then (conf, -1)
      else if decide (is_ipv6 r <> v6) then (conf, -1)
      else
        let t := table_of c v6 in
        let rule := (tuple_rules t).[id - 1] in
        let '(k, _) := copy_tuple_cfg_to_tuple v6 (rule_cfg rule) r in
        (Some (with_table v6 (with_rules (tuple_rules t).[id - 1 <- set_rule_cfg k rule] t) c), 0)
  end.

(** The result is the return code and, when it is 0, the filled structure. *)
Definition get_tuple_rule_cfg_inline (conf : option SF_CONF_T) (group_id id : Z)
    (v6 : bool) : Z * option sf_tuple_rule_cfg_t :=
  match conf with
  | None => (-1, None)
  | Some c =>
      if invalid_group group_id then (-1, None)
      else if invalid_actual id then (-1, None)
      else
        let k := rule_cfg (tuple_rules (table_of c v6)).[id - 1] in
        (0, Some (mk_user_cfg (if v6 then 1 else 0) (sport_min k) (sport_max k) (dport_min k) (dport_max k)
                    (proto_min k) (proto_max k) (inet_ntop v6 (sip k)) (sip_mask k)
                    (inet_ntop v6 (dip k)) (dip_mask k)))
  end.

Definition get_tuple_rule_cfg (conf : option SF_CONF_T) (group_id outer : Z) :
    Z * option sf_tuple_rule_cfg_t :=
  match conf with
  | None => (-1, None)
  | Some c =>
      if invalid_group group_id then (-1, None)
      else if invalid_outer outer then (-1, None)
      else
        let rm := (rule_map c).[outer - 1] in
        if decide (rule_type rm = ACL_RULE_TYPE_TUPLE4) then
          get_tuple_rule_cfg_inline conf group_id (actual_rule_id rm) false
        else if decide (rule_type rm = ACL_RULE_TYPE_TUPLE6) then
          get_tuple_rule_cfg_inline conf group_id (actual_rule_id rm) true
        else (-1, None)
  end.

(** ** Map, create, delete *)

Definition tuple_map_rule_map (group_id outer id : Z) (v6 : bool) (c : SF_CONF_T) :
    SF_CONF_T :=
  let ty := if v6 then ACL_RULE_TYPE_TUPLE6 else ACL_RULE_TYPE_TUPLE4 in
  let c := with_rule_map (rule_map c).[outer - 1 <- mk_rule_map ty (u24 id)] c in
  let t := table_of c v6 in
  with_table v6 (with_rules (tuple_rules t).[id - 1 <-
    set_map_rule (mk_map_rule true (wrap 7 group_id) (u24 outer))
      (tuple_rules t).[id - 1]] t) c.

Definition tuple_delete_old_map (conf : option SF_CONF_T) (group_id id : Z) (v6 : bool) :
    option SF_CONF_T * Z :=
  match conf with
  | None => (conf, -1)
  | Some c =>
      if invalid_group group_id then (conf, -1)
      else if invalid_actual id then (conf, -1)
      else
        let t := table_of c v6 in
        let c := with_table v6 (with_rules (tuple_rules t).[id - 1 <-
                   set_map_rule map_rule_zero (tuple_rules t).[id - 1]] t) c in
        let c := tuple_hash_free id v6 c in
        let c := tuple_bitmap_unset_used_flag id v6 c in
        (Some c, 0)
  end.

Definition acl_get_rule_map_type (conf : option SF_CONF_T) (group_id outer : Z) : Z :=
  match conf with
  | None => -1
  | Some c =>
      if invalid_group group_id then -1
      else if invalid_outer outer then -1
      else rule_type (rule_map c).[outer - 1]
  end.

Definition acl_delete_old_map (conf : option SF_CONF_T) (group_id outer : Z)
    (no_check : bool) : option SF_CONF_T * Z :=
  match conf with
  | None => (conf, -1)
  | Some c =>
      if invalid_group group_id then (conf, -1)
      else if invalid_outer outer then (conf, -1)
      else
        let rm := (rule_map c).[outer - 1] in
        let clear := fun conf : option SF_CONF_T => match conf with
          | Some c => Some (with_rule_map (rule_map c).[outer - 1 <- zeroed] c)
          | None => None
          end in
        if decide (rule_type rm = ACL_RULE_TYPE_TUPLE4) then
          let '(conf, ret) := tuple_delete_old_map conf group_id (actual_rule_id rm) false in
          (clear conf, ret)
        else if decide (rule_type rm = ACL_RULE_TYPE_TUPLE6) then
          let '(conf, ret) := tuple_delete_old_map conf group_id (actual_rule_id rm) true in
          (clear conf, ret)
        else if decide (rule_type rm = ACL_RULE_TYPE_NONE) then
          if no_check then (clear conf, 0) else (conf, -2)
        else (conf, -1)
  end.

Definition FAIL_REASON_INTERNAL_ERROR : Z := -1.
Definition FAIL_REASON_OLD_RULE_EXIST : Z := -2.
Definition FAIL_REASON_INVALID_ID : Z := -3.
Definition FAIL_REASON_INVALID_CFG : Z := -4.
Definition FAIL_REASON_RULE_FULL : Z := -5.

(** The end of [tuple_try_map_new_rule]: a PUT deletes the old rule, then the
    rule is mapped, marked used and hashed. *)
Definition tuple_commit_rule (c : SF_CONF_T) (group_id outer id : Z) (v6 check_old : bool) :
    option SF_CONF_T * Z :=
  let '(conf, ret) := if check_old then (Some c, 0)
                      else acl_delete_old_map (Some c) group_id outer true in
  match conf with
  | Some c =>
      if decide (ret < 0) then (Some c, FAIL_REASON_INTERNAL_ERROR)
      else
        let c := tuple_map_rule_map group_id outer id v6 c in
        let c := tuple_bitmap_set_used_flag id v6 c in
        let c := tuple_hash_insert id v6 c in
        (Some c, 0)
  | None => (None, FAIL_REASON_INTERNAL_ERROR)
  end.

(** [None] when the duplicate search has not finished within the fuel. *)
Definition tuple_try_map_new_rule (fuel : nat) (conf : option SF_CONF_T)
    (group_id outer : Z) (r : option sf_tuple_rule_cfg_t) (check_old : bool) :
    option (option SF_CONF_T * Z) :=
  match conf with
  | None => Some (conf, FAIL_REASON_INTERNAL_ERROR)
  | Some c =>
      if invalid_group group_id then Some (conf, FAIL_REASON_INVALID_ID)
      else if invalid_outer outer then Some (conf, FAIL_REASON_INVALID_ID)
      else match r with
      | None => Some (conf, FAIL_REASON_INTERNAL_ERROR)
      | Some r =>
          if check_old && (0 <? acl_get_rule_map_type conf group_id outer) then
            Some (conf, FAIL_REASON_OLD_RULE_EXIST)
          else if decide (check_tuple_rule_cfg (Some r) <> 0) then
            Some (conf, FAIL_REASON_INVALID_CFG)
          else
            let v6 := is_ipv6 r in
            let? found := tuple_hash_find_actual fuel c r in
            let id := u32 found in
            if decide (id = 0) then
              let id := tuple_bitmap_get_first_unused c v6 in
              if decide (id = 0) then Some (conf, FAIL_REASON_RULE_FULL)
              else
                let '(conf, ret) := set_tuple_rule_cfg conf group_id id r v6 in
                match conf with
                | Some c =>
                    if decide (ret <> 0) then Some (conf, FAIL_REASON_INTERNAL_ERROR)
                    else Some (tuple_commit_rule c group_id outer id v6 check_old)
                | None => Some (conf, FAIL_REASON_INTERNAL_ERROR)
                end
            else
              let dup := tuple_hash_find_outer c id v6 in
              if decide (0 < dup) then
                if decide (dup = outer) then Some (conf, 0) else Some (conf, dup)
              else Some (tuple_commit_rule c group_id outer id v6 check_old)
      end
  end.

(** [INIT_CONFIG_FUNC_DEFINITION]: a reset is refused while a
    synchronisation is pending and keeps its two counters. *)
Definition acl_init_config (is_reset : bool) (conf : option SF_CONF_T) :
    option SF_CONF_T * Z :=
  match conf with
  | None => (conf, -1)
  | Some c =>
      if is_reset && (0 <? acl_sync_flag c) then (conf, -1)
      else (Some (if is_reset
                  then mk_conf (acl_sync_flag c) (acl_sync_times c) ∅ table_zero table_zero
                  else conf_zero), 0)
  end.

(** ** Walking the configured rules *)

Fixpoint find_next_loop (n : nat) (m : gmap Z sf_rule_map_t) (id : Z) : Z :=
  match n with
  | O => 0
  | S n => if decide (rule_type m.[id - 1] <> 0) then id else find_next_loop n m (id + 1)
  end.

Definition acl_sys_conf_find_next_rule (conf : option SF_CONF_T)
    (group_id start_rule_id : Z) : Z :=
  match conf with
  | None => -1
  | Some c =>
      if invalid_group group_id then -1
      else
        let id := start_rule_id + 1 in
        find_next_loop (Z.to_nat (MAX_RULE_PER_GROUP + 1 - id)) (rule_map c) id
  end.
End ops.
