(* ===== verification/AclBitmap.v ===== *)
(** * The slot bitmap

    The word-by-word bitmap operations of [sf_acl_tuple_api.c] against the set
    of slots they stand for: [slot_used] reads one slot, and the counting and
    search loops are shown to count the used slots and to find the smallest
    free one. *)
From S2P Require Import Prelude AclTuple.

Definition slot_used (bm : gmap Z Z) (id : Z) : bool :=
  Z.testbit bm.[bitmap_get_index (id - 1)] ((id - 1) mod 64).

(** Every word is a [uint64_t]. *)
Definition words_ok (bm : gmap Z Z) : Prop := forall i, 0 <= bm.[i] < 2 ^ 64.

Lemma words_ok_empty : words_ok ∅.
Proof. intros i. by rewrite aget_empty. Qed.

(** ** Single slots *)

Lemma mask_testbit i j : 0 <= i -> Z.testbit (bitmap_get_mask j) i = bool_decide (i = j mod 64).
Proof.
  intros Hi. unfold bitmap_get_mask. pose proof (Z.mod_pos_bound j 64 ltac:(lia)).
  rewrite Z.shiftl_1_l, Z.pow2_bits_eqb by lia.
  rewrite bool_decide_decide. case_decide; [apply Z.eqb_eq|apply Z.eqb_neq]; lia.
Qed.

(** Two slots share a word and a bit only when they are the same. *)
Lemma slot_split a b :
  bitmap_get_index (a - 1) = bitmap_get_index (b - 1) ->
  (a - 1) mod 64 = (b - 1) mod 64 -> a = b.
Proof. unfold bitmap_get_index. intros. pose proof (Z.div_mod (a - 1) 64).
  pose proof (Z.div_mod (b - 1) 64). lia. Qed.

Lemma slot_used_set bm id a :
  slot_used (bitmap_set bm id) a = bool_decide (a = id) || slot_used bm a.
Proof.
  unfold slot_used, bitmap_set. rewrite aget_aset.
  destruct (decide (bitmap_get_index (id - 1) = bitmap_get_index (a - 1))) as [E|E].
  - rewrite E, Z.lor_spec, mask_testbit by (apply Z.mod_pos_bound; lia).
    rewrite orb_comm. f_equal. apply bool_decide_ext. split; [|by intros ->].
    intros Em. by apply slot_split.
  - rewrite bool_decide_eq_false_2; [done|]. by intros ->.
Qed.

Lemma slot_used_unset bm id a :
  slot_used (bitmap_unset bm id) a = negb (bool_decide (a = id)) && slot_used bm a.
Proof.
  unfold slot_used, bitmap_unset. rewrite aget_aset.
  destruct (decide (bitmap_get_index (id - 1) = bitmap_get_index (a - 1))) as [E|E].
  - rewrite E, Z.ldiff_spec, mask_testbit by (apply Z.mod_pos_bound; lia).
    rewrite andb_comm. do 2 f_equal. apply bool_decide_ext. split; [|by intros ->].
    intros Em. by apply slot_split.
  - rewrite bool_decide_eq_false_2; [done|]. by intros ->.
Qed.

Lemma mask_range j : 0 <= bitmap_get_mask j < 2 ^ 64.
Proof.
  unfold bitmap_get_mask. pose proof (Z.mod_pos_bound j 64 ltac:(lia)).
  rewrite Z.shiftl_1_l. split; [apply Z.pow_nonneg; lia|].
  apply Z.pow_lt_mono_r; lia.
Qed.

Lemma word_range w : 0 <= w -> (forall i, 64 <= i -> Z.testbit w i = false) -> 0 <= w < 2 ^ 64.
Proof.
  intros Hw Hb. split; [done|]. destruct (decide (w = 0)) as [->|Hn]; [lia|].
  apply Z.log2_lt_pow2; [lia|]. destruct (decide (Z.log2 w < 64)); [done|].
  specialize (Hb (Z.log2 w) ltac:(lia)). rewrite Z.bit_log2 in Hb by lia. done.
Qed.

Lemma word_high w i : 0 <= w < 2 ^ 64 -> 64 <= i -> Z.testbit w i = false.
Proof.
  intros Hw Hi. rewrite <- (Z.mod_small w (2 ^ 64)) by done.
  by apply Z.mod_pow2_bits_high.
Qed.

Lemma bitmap_set_words bm id : words_ok bm -> words_ok (bitmap_set bm id).
Proof.
  intros Hw i. unfold bitmap_set. rewrite aget_aset. case_decide; [|apply Hw].
  apply word_range; [apply Z.lor_nonneg; split; [apply Hw|apply mask_range]|].
  intros j Hj. rewrite Z.lor_spec, !word_high; auto using mask_range.
Qed.

Lemma bitmap_unset_words bm id : words_ok bm -> words_ok (bitmap_unset bm id).
Proof.
  intros Hw i. unfold bitmap_unset. rewrite aget_aset. case_decide; [|apply Hw].
  apply word_range; [apply Z.ldiff_nonneg; left; apply Hw|].
  intros j Hj. rewrite Z.ldiff_spec, word_high; auto.
Qed.

(** ** Search *)

Lemma land_1_testbit w : Z.land w 1 = 0 <-> Z.testbit w 0 = false.
Proof.
  rewrite Z.bit0_odd. pose proof (Z.land_ones w 1 ltac:(lia)) as E.
  change (Z.ones 1) with 1 in E. change (2 ^ 1) with 2 in E. rewrite E, Zmod_odd.
  by destruct (Z.odd w).
Qed.

Lemma bitmap_bit_loop_spec n w k i :
  bitmap_bit_loop n w k = Some i ->
  k <= i < k + Z.of_nat n /\ Z.testbit w (i - k) = false /\
  forall j, k <= j < i -> Z.testbit w (j - k) = true.
Proof.
  revert w k. induction n as [|n IH]; intros w k; cbn [bitmap_bit_loop]; [done|].
  case_decide as Hb; rewrite land_1_testbit in Hb.
  - intros [= ->]. rewrite Z.sub_diag. split_and!; [lia|lia|done|lia].
  - apply not_false_is_true in Hb. intros (Hr & Hi & Hj)%IH. rewrite Z.shiftr_spec in Hi by lia.
    split_and!; [lia|lia| |].
    + rewrite <- Hi. f_equal. lia.
    + intros j Hj'. destruct (decide (j = k)) as [->|]; [by rewrite Z.sub_diag|].
      rewrite <- (Hj j) by lia. rewrite Z.shiftr_spec by lia. f_equal. lia.
Qed.

Lemma bitmap_bit_loop_none n w k :
  bitmap_bit_loop n w k = None -> forall j, 0 <= j < Z.of_nat n -> Z.testbit w j = true.
Proof.
  revert w k. induction n as [|n IH]; intros w k; cbn [bitmap_bit_loop]; [lia|].
  case_decide as Hb; rewrite land_1_testbit in Hb; [done|].
  apply not_false_is_true in Hb. intros E j Hj.
  destruct (decide (j = 0)) as [->|]; [done|].
  rewrite <- (IH _ _ E (j - 1)) by lia. rewrite Z.shiftr_spec by lia. f_equal. lia.
Qed.

(** A 64-bit word with every bit set is all ones. *)
Lemma word_full w : 0 <= w < 2 ^ 64 ->
  (w = 2 ^ 64 - 1 <-> forall j, 0 <= j < 64 -> Z.testbit w j = true).
Proof.
  intros Hw. change (2 ^ 64 - 1) with (Z.ones 64). split.
  - intros -> j Hj. by rewrite Z.ones_spec_low by lia.
  - intros Hf. apply Z.bits_inj'. intros i Hi. destruct (decide (i < 64)).
    + rewrite Hf, Z.ones_spec_low by lia. done.
    + rewrite word_high, Z.ones_spec_high by lia. done.
Qed.

Lemma bitmap_word_loop_spec n bm k : 0 <= k ->
  let i := bitmap_word_loop n bm k in
  k <= i <= k + Z.of_nat n /\ (forall j, k <= j < i -> bm.[j] = 2 ^ 64 - 1) /\
  (i < k + Z.of_nat n -> bm.[i] <> 2 ^ 64 - 1).
Proof.
  revert k. induction n as [|n IH]; intros k Hk; cbn [bitmap_word_loop].
  - split_and!; lia.
  - case_decide as Hb.
    + split_and!; try lia.
    + destruct (IH (k + 1) ltac:(lia)) as (Hr & Hf & Hn). split_and!; try lia.
      * intros j Hj. destruct (decide (j = k)) as [->|]; [|apply Hf; lia].
        exact Hb.
Qed.

Lemma slot_used_full bm id : 1 <= id ->
  bm.[(id - 1) / 64] = 2 ^ 64 - 1 -> slot_used bm id = true.
Proof.
  intros Hid E. unfold slot_used, bitmap_get_index. rewrite E.
  change (2 ^ 64 - 1) with (Z.ones 64). apply Z.ones_spec_low.
  pose proof (Z.mod_pos_bound (id - 1) 64). lia.
Qed.

(** Slots in terms of their word and bit. *)
Lemma slot_used_at bm i j : 0 <= i -> 0 <= j < 64 ->
  slot_used bm (bitmap_get_id i j) = Z.testbit bm.[i] j.
Proof.
  intros Hi Hj. unfold slot_used, bitmap_get_index, bitmap_get_id.
  replace (i * 64 + j + 1 - 1) with (j + i * 64) by lia.
  by rewrite Z.div_add, Z.div_small, Z.mod_add, Z.mod_small by lia.
Qed.

(** The search returns the smallest free slot. *)
Lemma bitmap_first_unused_spec bm cnt :
  words_ok bm -> 0 <= cnt -> let id := bitmap_first_unused bm cnt in
  (id = 0 /\ forall a, 1 <= a <= cnt * 64 -> slot_used bm a = true) \/
  (1 <= id <= cnt * 64 /\ slot_used bm id = false /\
   forall a, 1 <= a < id -> slot_used bm a = true).
Proof.
  intros Hw Hc. unfold bitmap_first_unused. cbv zeta.
  destruct (bitmap_word_loop_spec (Z.to_nat cnt) bm 0 ltac:(lia)) as (Hr & Hf & Hn).
  set (i := bitmap_word_loop (Z.to_nat cnt) bm 0) in *.
  assert (Hbefore : forall a, 1 <= a <= i * 64 -> slot_used bm a = true).
  { intros a Ha. apply slot_used_full; [lia|]. apply Hf. split; [apply Z.div_pos; lia|].
    apply Z.div_lt_upper_bound; lia. }
  case_decide as Ei; [left; split; [done|]; by rewrite <- Ei|].
  specialize (Hn ltac:(lia)).
  destruct (bitmap_bit_loop 64 bm.[i] 0) as [j|] eqn:Ej.
  - apply bitmap_bit_loop_spec in Ej as (Hj & Hu & Hl). rewrite Z.sub_0_r in Hu.
    right. unfold bitmap_get_id at 1 2. split_and!; [lia|nia| |].
    + rewrite slot_used_at by lia. done.
    + intros a Ha. destruct (decide (a <= i * 64)); [by apply Hbefore; lia|].
      unfold bitmap_get_id in Ha. replace a with (bitmap_get_id i (a - 1 - i * 64))
        by (unfold bitmap_get_id; lia).
      rewrite slot_used_at by lia. rewrite <- (Hl (a - 1 - i * 64)) by lia. f_equal. lia.
  - exfalso. apply Hn, word_full; [apply Hw|]. intros j Hj.
    by eapply bitmap_bit_loop_none.
Qed.

(** ** Counting *)

Definition count_bits (n : nat) (w : Z) : Z :=
  Z.of_nat (length (filter (fun j => Z.testbit w j = true) (seqZ 0 (Z.of_nat n)))).

Lemma filter_length_shift (P Q : Z -> Prop) `{!forall x, Decision (P x)}
    `{!forall x, Decision (Q x)} k a n :
  (forall j, a <= j < a + n -> P j <-> Q (j + k)) ->
  length (filter P (seqZ a n)) = length (filter Q (seqZ (a + k) n)).
Proof.
  destruct (decide (n <= 0)) as [|Hn]; [intros _; by rewrite !seqZ_nil by lia|].
  replace n with (Z.of_nat (Z.to_nat n)) by lia. generalize (Z.to_nat n) as m. clear Hn.
  intros m. revert a. induction m as [|m IH]; intros a HPQ; [done|].
  rewrite !(seqZ_cons _ (Z.of_nat (S m))) by lia.
  replace (Z.pred (Z.of_nat (S m))) with (Z.of_nat m) by lia.
  rewrite !filter_cons. replace (Z.succ (a + k)) with (Z.succ a + k) by lia.
  specialize (IH (Z.succ a) ltac:(intros; apply HPQ; lia)).
  pose proof (HPQ a ltac:(lia)). repeat case_decide; cbn; tauto || lia.
Qed.

Lemma count_bits_S n w :
  count_bits (S n) w = (if Z.testbit w 0 then 1 else 0) + count_bits n (Z.shiftr w 1).
Proof.
  unfold count_bits. rewrite seqZ_cons by lia. rewrite filter_cons.
  replace (Z.pred (Z.of_nat (S n))) with (Z.of_nat n) by lia.
  pose proof (filter_length_shift (fun j => Z.testbit (Z.shiftr w 1) j = true)
               (fun j => Z.testbit w j = true) 1 0 (Z.of_nat n)) as E.
  change (0 + 1) with (Z.succ 0) in E. rewrite E.
  - case_decide as Eb; [rewrite Eb|apply not_true_is_false in Eb; rewrite Eb];
      cbn [length]; lia.
  - intros j Hj. by rewrite Z.shiftr_spec by lia.
Qed.

Lemma count_bits_0 n : count_bits n 0 = 0.
Proof.
  induction n as [|n IH]; [done|]. rewrite count_bits_S. change (Z.shiftr 0 1) with 0.
  rewrite IH. done.
Qed.

Lemma used_cnt_loop_spec n w cnt :
  0 <= w < 2 ^ Z.of_nat n -> used_cnt_loop n w cnt = cnt + count_bits n w.
Proof.
  revert w cnt. induction n as [|n IH]; intros w cnt Hw; cbn [used_cnt_loop].
  - change (count_bits 0 w) with 0. lia.
  - rewrite count_bits_S.
    assert (Hs : 0 <= Z.shiftr w 1 < 2 ^ Z.of_nat n).
    { rewrite Nat2Z.inj_succ, Z.pow_succ_r in Hw by lia.
      rewrite Z.shiftr_div_pow2 by lia. change (2 ^ 1) with 2.
      split; [apply Z.div_pos|apply Z.div_lt_upper_bound]; lia. }
    assert (Hif : (if decide (Z.land w 1 <> 0) then cnt + 1 else cnt)
                  = cnt + (if Z.testbit w 0 then 1 else 0)).
    { pose proof (land_1_testbit w). destruct (Z.testbit w 0); case_decide; intuition lia. }
    cbv zeta. rewrite Hif. clear Hif. case_decide as Ez; [rewrite Ez, count_bits_0|rewrite IH by done]; lia.
Qed.

Lemma calculate_used_cnt_spec w :
  0 <= w < 2 ^ 64 -> calculate_used_cnt w = count_bits 64 w.
Proof.
  intros Hw. unfold calculate_used_cnt.
  repeat case_decide; subst; [by rewrite count_bits_0| |].
  - vm_compute. reflexivity.
  - by rewrite used_cnt_loop_spec.
Qed.

Definition used_slots (bm : gmap Z Z) (n : Z) : list Z :=
  filter (fun id => slot_used bm id = true) (seqZ 1 n).

Lemma total_cnt_loop_spec n bm i total :
  words_ok bm -> 0 <= i ->
  total_cnt_loop n bm i total = total + Z.of_nat (length (
    filter (fun id => slot_used bm id = true) (seqZ (i * 64 + 1) (Z.of_nat n * 64)))).
Proof.
  intros Hw. revert i total. induction n as [|n IH]; intros i total Hi; cbn [total_cnt_loop].
  - change (Z.of_nat 0 * 64) with 0. rewrite seqZ_nil by lia.
    cbn [filter list_filter length]. lia.
  - rewrite IH, calculate_used_cnt_spec by (apply Hw || lia).
    replace (Z.of_nat (S n) * 64) with (64 + Z.of_nat n * 64) by lia.
    rewrite (seqZ_app _ 64) by lia. rewrite filter_app, length_app.
    replace (i * 64 + 1 + 64) with ((i + 1) * 64 + 1) by lia.
    unfold count_bits. change (Z.of_nat 64) with 64.
    rewrite (filter_length_shift _ (fun id => slot_used bm id = true) (i * 64 + 1) 0 64).
    + replace (0 + (i * 64 + 1)) with (i * 64 + 1) by lia. lia.
    + intros j Hj. rewrite <- slot_used_at by lia. unfold bitmap_get_id.
      by replace (j + (i * 64 + 1)) with (i * 64 + j + 1) by lia.
Qed.
