(* ===== verification/AclStore.v ===== *)
(** * The rule store refines a finite map

    [store c] is what the ACL configuration means: the outer rule id's family
    and configuration.  [acl_inv] ties the outer-id map, the slots' back
    pointers and the bitmaps together; every operation of the library keeps it
    and acts on [store] as on a finite map.  The links of the duplicate hash are
    only known to stay in range: the refinement holds whatever the hash
    returns. *)
From S2P Require Import Prelude AclHash AclTuple AclBitmap.

(** ** Reading updated configurations *)

Lemma table_of_with_table c v v' t :
  table_of (with_table v t c) v' = if decide (v = v') then t else table_of c v'.
Proof. by destruct v, v'. Qed.

Lemma table_of_with_table_eq c v t : table_of (with_table v t c) v = t.
Proof. by destruct v. Qed.

Lemma rule_map_with_table c v t : rule_map (with_table v t c) = rule_map c.
Proof. by destruct v. Qed.

Lemma table_of_with_rule_map c m v : table_of (with_rule_map m c) v = table_of c v.
Proof. by destruct v. Qed.

Definition rule_ty (v6 : bool) : Z := if v6 then ACL_RULE_TYPE_TUPLE6 else ACL_RULE_TYPE_TUPLE4.

Lemma rule_ty_inj v v' : rule_ty v = rule_ty v' -> v = v'.
Proof. by destruct v, v'. Qed.

Lemma rule_ty_nz v : rule_ty v <> 0.
Proof. by destruct v. Qed.

Definition valid_outer (o : Z) : Prop := 1 <= o <= 4096.
Definition valid_slot (id : Z) : Prop := 1 <= id <= 2048.

Lemma invalid_outer_false o : invalid_outer o = false <-> valid_outer o.
Proof.
  unfold invalid_outer, valid_outer, MAX_RULE_PER_GROUP.
  rewrite orb_false_iff, Z.leb_gt, Z.ltb_ge. lia.
Qed.

Lemma invalid_actual_false id : invalid_actual id = false <-> valid_slot id.
Proof.
  unfold invalid_actual, valid_slot, MAX_TUPLE_RULE_PER_GROUP.
  rewrite orb_false_iff, Z.leb_gt, Z.ltb_ge. lia.
Qed.

Lemma invalid_group_false g : invalid_group g = false <-> g = 1.
Proof.
  unfold invalid_group, MAX_RULE_GROUP_CNT.
  rewrite orb_false_iff, Z.leb_gt, Z.ltb_ge. lia.
Qed.

(** ** The invariant *)

Definition cfg_wf (v6 : bool) (k : tuple_cfg) : Prop :=
  (0 <= sport_min k < 2 ^ 16 /\ 0 <= sport_max k < 2 ^ 16 /\
   0 <= dport_min k < 2 ^ 16 /\ 0 <= dport_max k < 2 ^ 16) /\
  (0 <= sip_mask k <= addr_bits v6 /\ 0 <= dip_mask k <= addr_bits v6) /\
  0 <= sip k < 2 ^ addr_bits v6 /\ 0 <= dip k < 2 ^ addr_bits v6.

Lemma cfg_wf_zero v6 : cfg_wf v6 cfg_zero.
Proof. unfold cfg_wf. destruct v6; cbn; lia. Qed.

(** The bytes the hash compares determine the configuration. *)
Lemma cfg_bytes_inj v6 k k' :
  cfg_wf v6 k -> cfg_wf v6 k' -> cfg_bytes v6 k = cfg_bytes v6 k' -> k = k'.
Proof.
  intros (Hp & Hm & Hs & Hd) (Hp' & Hm' & Hs' & Hd') E. destruct k, k'; cbn in *.
  unfold cfg_bytes in E. cbn in E. injection E as E1 E2 E3 E4 E5 E6 E7 E8 -> -> -> -> Ea.
  apply app_inj_1 in Ea as [Ea Eb]; [|by rewrite !be_bytes_length].
  assert (256 ^ Z.of_nat (addr_len v6) = 2 ^ addr_bits v6) as Ep by (by destruct v6).
  apply be_bytes_inj in Ea; [|lia..]. apply be_bytes_inj in Eb; [|lia..].
  f_equal; try done; apply le16_inj; try lia; unfold le16; congruence.
Qed.

(** Every link of the duplicate hash is 0 or a slot. *)
Definition links_ok (t : tuple_table) : Prop :=
  (forall b, 0 <= hash_next_rule (tuple_hash_bucket t).[b] <= 2048) /\
  (forall i, 0 <= hash_next (tuple_hash_node t).[i] <= 2048 /\
             0 <= hash_prev (tuple_hash_node t).[i] <= 2048).

Definition slot_map (t : tuple_table) (id : Z) : sf_map_rule_t :=
  map_rule (tuple_rules t).[id - 1].
Definition slot_cfg (t : tuple_table) (id : Z) : tuple_cfg :=
  rule_cfg (tuple_rules t).[id - 1].

(** Per family: [rm] is the outer-id map. *)
Record table_inv (rm : gmap Z sf_rule_map_t) (v6 : bool) (t : tuple_table) : Prop := {
  ti_fwd o : valid_outer o -> rule_type rm.[o - 1] = rule_ty v6 ->
    valid_slot (actual_rule_id rm.[o - 1]) /\
    slot_map t (actual_rule_id rm.[o - 1]) = mk_map_rule true 1 o;
  ti_bwd id : valid_slot id -> outer_id_valid (slot_map t id) = true ->
    valid_outer (outer_rule_id (slot_map t id)) /\
    rm.[outer_rule_id (slot_map t id) - 1] = mk_rule_map (rule_ty v6) id;
  ti_bit id : valid_slot id ->
    slot_used (tuple_rule_bitmap t) id = outer_id_valid (slot_map t id);
  ti_cfg id : cfg_wf v6 (slot_cfg t id);
  ti_words : words_ok (tuple_rule_bitmap t);
  ti_links : links_ok t
}.

Record acl_inv (c : SF_CONF_T) : Prop := {
  ai_type o : valid_outer o -> rule_type (rule_map c).[o - 1] = 0 \/
    exists v6, rule_type (rule_map c).[o - 1] = rule_ty v6;
  ai_table v6 : table_inv (rule_map c) v6 (table_of c v6)
}.

(** ** The abstract store *)

Definition store (c : SF_CONF_T) (o : Z) : option (bool * tuple_cfg) :=
  let rm := (rule_map c).[o - 1] in
  if invalid_outer o then None
  else if decide (rule_type rm = ACL_RULE_TYPE_TUPLE4) then
    Some (false, slot_cfg (table_v4 c) (actual_rule_id rm))
  else if decide (rule_type rm = ACL_RULE_TYPE_TUPLE6) then
    Some (true, slot_cfg (table_v6 c) (actual_rule_id rm))
  else None.

Lemma store_ty c o v6 :
  valid_outer o -> rule_type (rule_map c).[o - 1] = rule_ty v6 ->
  store c o = Some (v6, slot_cfg (table_of c v6) (actual_rule_id (rule_map c).[o - 1])).
Proof.
  intros Ho%invalid_outer_false E. unfold store. rewrite Ho, E. by destruct v6.
Qed.

Lemma store_none c o :
  rule_type (rule_map c).[o - 1] = 0 \/ ~ valid_outer o -> store c o = None.
Proof.
  unfold store. destruct (invalid_outer o) eqn:Ho; [done|].
  apply invalid_outer_false in Ho. intros [E|]; [|done]. by rewrite E.
Qed.

(** Stores agree when the outer-id entries do and the slots they name do. *)
Lemma store_ext c c' o :
  (rule_map c').[o - 1] = (rule_map c).[o - 1] ->
  (forall v6, valid_outer o -> rule_type (rule_map c).[o - 1] = rule_ty v6 ->
    let id := actual_rule_id (rule_map c).[o - 1] in
    slot_cfg (table_of c' v6) id = slot_cfg (table_of c v6) id) ->
  store c' o = store c o.
Proof.
  intros E Hs. unfold store. rewrite E. destruct (invalid_outer o) eqn:Ho; [done|].
  apply invalid_outer_false in Ho.
  case_decide as E4; [specialize (Hs false Ho E4); cbn in Hs; by rewrite Hs|].
  case_decide as E6; [specialize (Hs true Ho E6); cbn in Hs; by rewrite Hs|].
  done.
Qed.

Lemma table_inv_zero v6 : table_inv ∅ v6 table_zero.
Proof.
  split; unfold slot_map, slot_cfg, links_ok; cbn; intros;
    rewrite ?aget_empty in *; cbn in *; try done.
  - destruct v6; done.
  - unfold slot_used. rewrite aget_empty. apply Z.testbit_0_l.
  - apply cfg_wf_zero.
Qed.

Lemma acl_inv_zero f n : acl_inv (mk_conf f n ∅ table_zero table_zero).
Proof.
  split.
  - intros o _. left. cbn. by rewrite aget_empty.
  - intros []; apply table_inv_zero.
Qed.

(** ** Links stay in range *)

Section links.
Context `{ByteHash}.

Lemma links_insert t key id :
  valid_slot id -> links_ok t ->
  links_ok (with_hash (acl_hash_insert (tuple_hash_bucket t) TUPLE_RULE_HASH_BUCKET_CNT
                         (tuple_hash_node t) key id) t).
Proof.
  intros Hid [Hb Hn]. unfold valid_slot in Hid. unfold acl_hash_insert, with_hash.
  set (h := acl_hash_index key _). split; cbn.
  - intros b. rewrite aget_aset. case_decide; [cbn|apply Hb].
    rewrite wrap_small by lia. lia.
  - intros i. pose proof (Hb h). pose proof (Hn (hash_next_rule (tuple_hash_bucket t).[h] - 1)).
    pose proof (Hn i).
    destruct (decide (hash_next_rule (tuple_hash_bucket t).[h] <> 0));
      rewrite !aget_aset; repeat case_decide; cbn; lia.
Qed.

Lemma links_free t key id :
  valid_slot id -> links_ok t ->
  links_ok (with_hash (acl_hash_free (tuple_hash_bucket t) TUPLE_RULE_HASH_BUCKET_CNT
                         (tuple_hash_node t) key id) t).
Proof.
  intros Hid [Hb Hn]. unfold acl_hash_free, with_hash.
  set (h := acl_hash_index key _). pose proof (Hb h) as Hh.
  set (p := hash_prev (tuple_hash_node t).[id - 1]).
  assert (Hp : 0 <= p <= 2048) by apply Hn.
  assert (Hset : forall N i v, (forall i, 0 <= hash_next N.[i] <= 2048 /\
                     0 <= hash_prev N.[i] <= 2048) -> 0 <= v <= 2048 ->
                   forall j, 0 <= hash_next N.[i <- set_hash_prev v N.[i]].[j] <= 2048 /\
                     0 <= hash_prev N.[i <- set_hash_prev v N.[i]].[j] <= 2048).
  { intros N i v HN Hv j. rewrite aget_aset. case_decide; cbn; [split; [apply HN|done]|].
    apply HN. }
  destruct (decide (p = 0)) as [E|E]; cbn.
  - split; cbn.
    + intros b. rewrite aget_aset. case_decide; [cbn|apply Hb].
      rewrite wrap_small by lia. lia.
    + rewrite (decide_False (P := p <> 0)) by lia. apply Hset; [done|lia].
  - split; cbn.
    + intros b. rewrite aget_aset. by case_decide; [cbn|apply Hb].
    + rewrite (decide_True (P := p <> 0)) by done. by do 3 (apply Hset; [|lia]).
Qed.

(** The search stays in range too. *)
Lemma find_loop_range N cmp key fuel id r :
  (forall i, 0 <= hash_next N.[i] <= 2048) -> 0 <= id <= 2048 ->
  find_loop fuel N cmp key id = Some r -> 0 <= r <= 2048.
Proof.
  intros HN. revert id. induction fuel as [|fuel IH]; intros id Hid; [done|].
  rewrite find_loop_S. repeat case_decide; intros E; simplify_eq; eauto; lia.
Qed.

Lemma acl_hash_find_ok t fuel cnt key cmp r :
  links_ok t ->
  acl_hash_find fuel (tuple_hash_bucket t) cnt (tuple_hash_node t) key cmp = Some r ->
  0 <= r <= 2048 /\ (r <> 0 -> cmp r key = 0).
Proof.
  intros [Hb Hn]. unfold acl_hash_find. case_decide; [intros [= <-]; lia|].
  intros E. split.
  - eapply find_loop_range; [| |exact E]; [apply Hn|apply Hb].
  - intros Hr. by eapply find_loop_hit.
Qed.
End links.

(** ** One family under the three primitive changes *)

Lemma slot_idx_ne id a : id <> a -> id - 1 <> a - 1.
Proof. lia. Qed.

Lemma slot_map_upd t id r a :
  slot_map (with_rules (tuple_rules t).[id - 1 <- r] t) a
  = if decide (id = a) then map_rule r else slot_map t a.
Proof.
  unfold slot_map. cbn. rewrite aget_aset. repeat case_decide; subst; done || lia.
Qed.

Lemma slot_cfg_upd t id r a :
  slot_cfg (with_rules (tuple_rules t).[id - 1 <- r] t) a
  = if decide (id = a) then rule_cfg r else slot_cfg t a.
Proof.
  unfold slot_cfg. cbn. rewrite aget_aset. repeat case_decide; subst; done || lia.
Qed.

(** Writing a free slot's configuration. *)
Lemma table_inv_set_cfg rm v t id k :
  table_inv rm v t -> cfg_wf v k ->
  table_inv rm v (with_rules (tuple_rules t).[id - 1 <- set_rule_cfg k (tuple_rules t).[id - 1]] t).
Proof.
  intros [Hf Hb Hbit Hcfg Hw Hl] Hk. set (t' := with_rules _ t).
  assert (Hm : forall a, slot_map t' a = slot_map t a)
    by (intros a; unfold t'; rewrite slot_map_upd; by case_decide; subst).
  split; [| | | |done|done]; try setoid_rewrite Hm; try done.
  intros a. unfold t'. rewrite slot_cfg_upd. by case_decide.
Qed.

(** Changing an entry of the outer-id map that is and stays foreign. *)
Lemma table_inv_foreign rm v t o e :
  table_inv rm v t -> rule_type rm.[o - 1] <> rule_ty v -> rule_type e <> rule_ty v ->
  table_inv rm.[o - 1 <- e] v t.
Proof.
  intros [Hf Hb Hbit Hcfg Hw Hl] H1 H2. split; try done.
  - intros o' Ho'. rewrite aget_aset. case_decide; [done|]. by apply Hf.
  - intros id Hid Hv. destruct (Hb id Hid Hv) as [Ho E]. split; [done|].
    rewrite aget_aset. case_decide as Eo; [|done]. rewrite Eo, E in H1. done.
Qed.

(** Releasing the slot an outer id names. *)
Lemma table_inv_unmap rm v t o id B N :
  table_inv rm v t -> valid_outer o -> rm.[o - 1] = mk_rule_map (rule_ty v) id ->
  let t' := mk_table (bitmap_unset (tuple_rule_bitmap t) id) B N
              (tuple_rules t).[id - 1 <- set_map_rule map_rule_zero (tuple_rules t).[id - 1]] in
  links_ok t' -> table_inv rm.[o - 1 <- zeroed] v t'.
Proof.
  intros [Hf Hb Hbit Hcfg Hw Hl] Ho E t' Hl'.
  destruct (Hf o Ho) as [Hid Hmo]; [by rewrite E|]. rewrite E in Hid, Hmo.
  cbn [actual_rule_id] in Hid, Hmo.
  assert (Hm : forall a, slot_map t' a = if decide (id = a) then map_rule_zero else slot_map t a)
    by exact (slot_map_upd t id (set_map_rule map_rule_zero _)).
  assert (Hc : forall a, slot_cfg t' a = slot_cfg t a).
  { intros a.
    unfold slot_cfg, t'. cbn. rewrite aget_aset. by case_decide as Ea; [rewrite <- Ea|]. }
  split; [| | | |by apply bitmap_unset_words|done]; try setoid_rewrite Hm; try setoid_rewrite Hc.
  - intros o' Ho'. rewrite aget_aset. case_decide as Eo; [by destruct v|]. intros Ht.
    destruct (Hf o' Ho' Ht) as [Ha Hma]. split; [done|]. rewrite decide_False; [done|].
    intros Ea. rewrite <- Ea, Hmo in Hma. injection Hma. lia.
  - intros a Ha. case_decide as Ea; [done|]. intros Hv.
    destruct (Hb a Ha Hv) as [Ho' Eo']. split; [done|]. rewrite aget_aset_ne; [done|].
    intros Eo. rewrite <- Eo, E in Eo'. congruence.
  - intros a Ha. cbn [t' tuple_rule_bitmap]. rewrite slot_used_unset.
    case_decide as Ea; [subst; by rewrite bool_decide_eq_true_2|].
    rewrite bool_decide_eq_false_2 by congruence. by apply Hbit.
  - done.
Qed.

(** Giving a free slot to an unmapped outer id. *)
Lemma table_inv_map rm v t o id B N :
  table_inv rm v t -> valid_outer o -> rule_type rm.[o - 1] <> rule_ty v ->
  valid_slot id -> outer_id_valid (slot_map t id) = false ->
  let t' := mk_table (bitmap_set (tuple_rule_bitmap t) id) B N
              (tuple_rules t).[id - 1 <- set_map_rule (mk_map_rule true 1 o)
                                           (tuple_rules t).[id - 1]] in
  links_ok t' -> table_inv rm.[o - 1 <- mk_rule_map (rule_ty v) id] v t'.
Proof.
  intros [Hf Hb Hbit Hcfg Hw Hl] Ho Hty Hid Hfree t' Hl'.
  assert (Hm : forall a, slot_map t' a
                         = if decide (id = a) then mk_map_rule true 1 o else slot_map t a)
    by exact (slot_map_upd t id (set_map_rule (mk_map_rule true 1 o) _)).
  assert (Hc : forall a, slot_cfg t' a = slot_cfg t a).
  { intros a. unfold slot_cfg, t'. cbn. rewrite aget_aset.
    by case_decide as Ea; [rewrite <- Ea|]. }
  split; [| | | |by apply bitmap_set_words|done]; try setoid_rewrite Hm; try setoid_rewrite Hc.
  - intros o' Ho'. rewrite aget_aset. case_decide as Eo.
    + intros _. cbn [actual_rule_id]. rewrite decide_True by done.
      split; [done|]. f_equal. lia.
    + intros Ht. destruct (Hf o' Ho' Ht) as [Ha Hma]. split; [done|].
      rewrite decide_False; [done|]. intros Ea. rewrite Ea, Hma in Hfree. done.
  - intros a Ha. case_decide as Ea.
    + intros _. cbn [outer_rule_id]. rewrite aget_aset_eq. by subst.
    + intros Hv. destruct (Hb a Ha Hv) as [Ho' Eo']. split; [done|].
      rewrite aget_aset_ne; [done|]. intros Eo. apply Hty. by rewrite Eo, Eo'.
  - intros a Ha. cbn [t' tuple_rule_bitmap]. rewrite slot_used_set.
    case_decide as Ea; [subst; by rewrite bool_decide_eq_true_2|].
    rewrite bool_decide_eq_false_2 by congruence. by apply Hbit.
  - done.
Qed.

(** ** The operations on the whole configuration *)

Section store_ops.
Context `{ByteHash} `{InetLaws}.

(** What releasing outer id [o] does to a configuration. *)
Record unmapped (c c' : SF_CONF_T) (o : Z) : Prop := {
  um_inv : acl_inv c';
  um_none : rule_type (rule_map c').[o - 1] = 0;
  um_store o' : o' <> o -> store c' o' = store c o';
  um_cfg v id : slot_cfg (table_of c' v) id = slot_cfg (table_of c v) id;
  um_free v id : valid_slot id -> outer_id_valid (slot_map (table_of c v) id) = false ->
    outer_id_valid (slot_map (table_of c' v) id) = false
}.

Lemma unmapped_clear c o :
  acl_inv c -> rule_type (rule_map c).[o - 1] = 0 ->
  unmapped c (with_rule_map (rule_map c).[o - 1 <- zeroed] c) o.
Proof.
  intros [Hty Htab] E. split; try done.
  - split.
    + intros o' Ho'. cbn [with_rule_map rule_map]. rewrite aget_aset.
      case_decide; [by left|auto].
    + intros v. rewrite table_of_with_rule_map. apply table_inv_foreign; [done| |].
      * rewrite E. by destruct v.
      * by destruct v.
  - cbn. by rewrite aget_aset_eq.
  - intros o' Ho'. apply store_ext; [|done]. cbn. by rewrite aget_aset_ne by lia.
Qed.

Lemma unmapped_table c o v id B N :
  acl_inv c -> valid_outer o -> (rule_map c).[o - 1] = mk_rule_map (rule_ty v) id ->
  let t := table_of c v in
  let t' := mk_table (bitmap_unset (tuple_rule_bitmap t) id) B N
              (tuple_rules t).[id - 1 <- set_map_rule map_rule_zero (tuple_rules t).[id - 1]] in
  links_ok t' ->
  unmapped c (with_rule_map (rule_map c).[o - 1 <- zeroed] (with_table v t' c)) o.
Proof.
  intros [Hty Htab] Ho E t t' Hl.
  assert (Hcfg : forall v' a, slot_cfg (table_of (with_rule_map (rule_map c).[o - 1 <- zeroed]
            (with_table v t' c)) v') a = slot_cfg (table_of c v') a).
  { intros v' a. rewrite table_of_with_rule_map, table_of_with_table.
    case_decide as Ev; [|done]. subst v'. unfold slot_cfg, t'. cbn. rewrite aget_aset.
    by case_decide as Ea; [rewrite <- Ea|]. }
  split; [|cbn; by rewrite aget_aset_eq| |done|].
  - split.
    + intros o' Ho'. cbn [with_rule_map rule_map]. rewrite aget_aset.
      case_decide; [by left|auto].
    + intros v'. rewrite table_of_with_rule_map, table_of_with_table. cbn [with_rule_map rule_map].
      case_decide as Ev; [subst v'; by apply table_inv_unmap|].
      apply table_inv_foreign; [done| |by destruct v'].
      rewrite E. cbn. intros Et. apply Ev. by apply rule_ty_inj.
  - intros o' Ho'. apply store_ext; [|by intros; apply Hcfg]. cbn.
    by rewrite aget_aset_ne by lia.
  - intros v' a Ha. rewrite table_of_with_rule_map, table_of_with_table.
    case_decide as Ev; [|done]. subst v'. intros Hv.
    unfold slot_map, t'. cbn. rewrite aget_aset. case_decide; [done|exact Hv].
Qed.

(** Deletion of a mapped outer id. *)
Lemma delete_mapped c o v no_check :
  acl_inv c -> valid_outer o -> rule_type (rule_map c).[o - 1] = rule_ty v ->
  exists c', acl_delete_old_map (Some c) 1 o no_check = (Some c', 0) /\ unmapped c c' o.
Proof.
  intros Hi Ho Et. pose proof Hi as [Hty Htab].
  destruct (ti_fwd _ _ _ (Htab v) o Ho Et) as [Hid _].
  set (id := actual_rule_id (rule_map c).[o - 1]) in *.
  assert (E : (rule_map c).[o - 1] = mk_rule_map (rule_ty v) id)
    by (rewrite <- Et; by destruct (rule_map c).[o - 1]).
  apply invalid_outer_false in Ho as Ho'. apply invalid_actual_false in Hid as Hid'.
  set (t := table_of c v).
  set (t1 := with_rules (tuple_rules t).[id - 1 <-
               set_map_rule map_rule_zero (tuple_rules t).[id - 1]] t).
  set (key := cfg_bytes v (rule_cfg (tuple_rules t1).[id - 1])).
  set (BN := acl_hash_free (tuple_hash_bucket t1) TUPLE_RULE_HASH_BUCKET_CNT
               (tuple_hash_node t1) key id).
  eexists. split; cycle 1.
  - apply (unmapped_table c o v id (fst BN) (snd BN)); [done|done|done|].
    apply (links_free t1 key id); [done|]. apply (ti_links _ _ _ (Htab v)).
  - unfold acl_delete_old_map, tuple_delete_old_map.
    rewrite Ho', E. cbn [rule_type actual_rule_id invalid_group].
    change (invalid_group 1) with false. cbn [rule_ty]. rewrite Hid'.
    unfold tuple_hash_free, tuple_bitmap_unset_used_flag.
    destruct v; cbn; reflexivity.
Qed.

(** Deletion succeeds on every valid outer id of a well-formed store. *)
Lemma delete_old_map_cases c o no_check :
  acl_inv c -> valid_outer o ->
  (rule_type (rule_map c).[o - 1] = 0 /\ no_check = false /\
   acl_delete_old_map (Some c) 1 o no_check = (Some c, -2)) \/
  (exists c', (rule_type (rule_map c).[o - 1] <> 0 \/ no_check = true) /\
     acl_delete_old_map (Some c) 1 o no_check = (Some c', 0) /\ unmapped c c' o).
Proof.
  intros Hi Ho. pose proof Hi as [Hty _]. destruct (Hty o Ho) as [E|[v E]].
  - apply invalid_outer_false in Ho as Ho'. destruct no_check; [right|left].
    + eexists. split; [by right|]. split; [|by apply unmapped_clear].
      unfold acl_delete_old_map. rewrite Ho', E. done.
    + split_and!; [done|done|]. unfold acl_delete_old_map. by rewrite Ho', E.
  - right. destruct (delete_mapped c o v no_check Hi Ho E) as (c' & Hd & Hu).
    exists c'. split; [left; rewrite E; apply rule_ty_nz|done].
Qed.

(** ** Creating and replacing rules *)

(** The configuration a request denotes, when it is accepted. *)
Definition cfg_of (r : sf_tuple_rule_cfg_t) : option tuple_cfg :=
  if decide (check_tuple_rule_cfg (Some r) = 0)
  then Some (fst (copy_tuple_cfg_to_tuple (is_ipv6 r) cfg_zero r)) else None.

Lemma in_range_true x lo hi : in_range x lo hi = true -> lo <= x <= hi.
Proof. unfold in_range. rewrite andb_true_iff, !Z.leb_le. lia. Qed.

Lemma check_copy r dst :
  check_tuple_rule_cfg (Some r) = 0 ->
  copy_tuple_cfg_to_tuple (is_ipv6 r) dst r
    = (fst (copy_tuple_cfg_to_tuple (is_ipv6 r) cfg_zero r), 0) /\
  cfg_wf (is_ipv6 r) (fst (copy_tuple_cfg_to_tuple (is_ipv6 r) cfg_zero r)).
Proof.
  unfold check_tuple_rule_cfg, copy_tuple_cfg_to_tuple.
  destruct (negb _) eqn:E1; [done|]. repeat (case_match; [done|]).
  destruct (inet_pton (is_ipv6 r) (u_sip r)) as [s|] eqn:Es; [|done].
  destruct (inet_pton (is_ipv6 r) (u_dip r)) as [d|] eqn:Ed; [|done].
  intros _. split; [done|]. apply negb_false_iff in E1.
  rewrite !andb_true_iff in E1. unfold cfg_wf; cbn.
  destruct E1 as ((((((_ & R1) & R2) & R3) & R4) & _) & _).
  apply in_range_true in R1, R2, R3, R4.
  match goal with E : negb _ = false |- _ =>
    apply negb_false_iff, andb_true_iff in E as [M1 M2] end.
  apply in_range_true in M1, M2. unfold addr_bits at 1 2.
  split_and!; try lia; by eapply inet_pton_range.
Qed.

Lemma commit_spec c o id v check_old :
  acl_inv c -> valid_outer o -> valid_slot id ->
  outer_id_valid (slot_map (table_of c v) id) = false ->
  (check_old = true -> rule_type (rule_map c).[o - 1] = 0) ->
  exists c', tuple_commit_rule c 1 o id v check_old = (Some c', 0) /\ acl_inv c' /\
    store c' o = Some (v, slot_cfg (table_of c v) id) /\
    forall o', o' <> o -> store c' o' = store c o'.
Proof.
  intros Hi Ho Hid Hfree Hold.
  assert (Hd : exists c1, unmapped c c1 o /\
    (if check_old then (Some c, 0) else acl_delete_old_map (Some c) 1 o true) = (Some c1, 0)).
  { destruct check_old.
    - exists c. split; [|done]. by split; auto.
    - destruct (delete_old_map_cases c o true Hi Ho) as [(_ & ? & _)|(c1 & _ & E & Hu)];
        [done|]. eauto. }
  destruct Hd as (c1 & [Hi1 Hn1 Hst1 Hcfg1 Hf1] & Ed). unfold tuple_commit_rule. rewrite Ed.
  specialize (Hf1 v id Hid Hfree). rewrite <- Hcfg1.
  destruct (decide (0 < 0)); [lia|].
  eexists. split; [reflexivity|].
  unfold tuple_hash_insert, tuple_bitmap_set_used_flag, tuple_map_rule_map.
  rewrite !(wrap_small 24), (wrap_small 7) by (unfold valid_slot, valid_outer in *; lia).
  rewrite !table_of_with_table_eq, table_of_with_rule_map.
  set (ty := if v then _ else _). change ty with (rule_ty v).
  set (t := table_of c1 v) in *.
  set (t1 := with_bitmap _ _).
  match goal with |- context [with_table v ?t0 (with_table v t1 _)] => set (t' := t0) end.
  set (c2 := with_rule_map _ c1).
  assert (Hl : links_ok t').
  { apply (links_insert t1 (cfg_bytes v (rule_cfg (tuple_rules t1).[id - 1])) id); [done|].
    apply (ti_links _ _ _ (ai_table _ Hi1 v)). }
  match goal with |- acl_inv ?x /\ _ => set (cf := x) end.
  assert (Htab : forall v', table_of cf v' = if decide (v = v') then t' else table_of c1 v').
  { intros v'. unfold cf. rewrite !table_of_with_table. by case_decide. }
  assert (Hrm : rule_map cf = (rule_map c1).[o - 1 <- mk_rule_map (rule_ty v) id])
    by (unfold cf; by rewrite !rule_map_with_table).
  assert (Hcfg : forall v' a, slot_cfg (if decide (v = v') then t' else table_of c1 v') a
                              = slot_cfg (table_of c1 v') a).
  { intros v' a. case_decide as Ev; [subst v'|done].
    unfold slot_cfg, t', t1, t. cbn. rewrite aget_aset.
    by case_decide as Ea; [rewrite <- Ea|]. }
  split_and!.
  - split.
    + intros o' Ho'. rewrite Hrm, aget_aset.
      case_decide; [right; by exists v|by apply (ai_type _ Hi1)].
    + intros v'. rewrite Htab, Hrm. case_decide as Ev.
      * subst v'. apply (table_inv_map _ _ t); try done; [apply (ai_table _ Hi1)|].
        rewrite Hn1. by destruct v.
      * apply table_inv_foreign; [apply (ai_table _ Hi1)| |].
        -- rewrite Hn1. by destruct v'.
        -- cbn. intros Et. by apply Ev, rule_ty_inj.
  - rewrite (store_ty _ o v); [|done|by rewrite Hrm, aget_aset_eq].
    rewrite Htab, Hrm, aget_aset_eq. do 2 f_equal. apply (Hcfg v).
  - intros o' Ho'. rewrite <- (Hst1 o' Ho'). apply store_ext.
    + rewrite Hrm. by rewrite aget_aset_ne by lia.
    + intros v' _ _. cbn zeta. rewrite Htab. apply Hcfg.
Qed.

Lemma set_cfg_eq c id r k :
  cfg_of r = Some k -> valid_slot id ->
  let t := table_of c (is_ipv6 r) in
  set_tuple_rule_cfg (Some c) 1 id r (is_ipv6 r)
  = (Some (with_table (is_ipv6 r) (with_rules
       (tuple_rules t).[id - 1 <- set_rule_cfg k (tuple_rules t).[id - 1]] t) c), 0).
Proof.
  intros Hk Hid%invalid_actual_false t. unfold cfg_of in Hk.
  case_decide as Hchk; [|done]. injection Hk as Hk.
  unfold set_tuple_rule_cfg. change (invalid_group 1) with false. rewrite Hid.
  rewrite decide_False by tauto. fold t.
  destruct (check_copy r (rule_cfg (tuple_rules t).[id - 1]) Hchk) as [-> _].
  by rewrite Hk.
Qed.

Lemma cfg_of_wf r k : cfg_of r = Some k -> cfg_wf (is_ipv6 r) k.
Proof.
  unfold cfg_of. case_decide as Hchk; [|done]. intros [= <-].
  by apply (check_copy r cfg_zero).
Qed.

(** Writing the configuration of a free slot does not change the store. *)
Lemma set_cfg_free c id r k :
  acl_inv c -> valid_slot id -> cfg_of r = Some k ->
  outer_id_valid (slot_map (table_of c (is_ipv6 r)) id) = false ->
  exists c', set_tuple_rule_cfg (Some c) 1 id r (is_ipv6 r) = (Some c', 0) /\ acl_inv c' /\
    rule_map c' = rule_map c /\
    outer_id_valid (slot_map (table_of c' (is_ipv6 r)) id) = false /\
    slot_cfg (table_of c' (is_ipv6 r)) id = k /\
    forall o, store c' o = store c o.
Proof.
  intros Hi Hid Hk Hfree. rewrite (set_cfg_eq c id r k Hk Hid).
  apply cfg_of_wf in Hk. set (v := is_ipv6 r) in *. set (t := table_of c v) in *.
  eexists. split; [reflexivity|]. split_and!.
  - split.
    + intros o Ho. rewrite rule_map_with_table. by apply (ai_type _ Hi).
    + intros v'. rewrite rule_map_with_table, table_of_with_table.
      case_decide as Ev; [destruct Ev|apply (ai_table _ Hi)].
      apply table_inv_set_cfg; [apply (ai_table _ Hi)|done].
  - apply rule_map_with_table.
  - rewrite table_of_with_table_eq, slot_map_upd. by rewrite decide_True.
  - rewrite table_of_with_table_eq, slot_cfg_upd. by rewrite decide_True.
  - intros o. apply store_ext; [by rewrite rule_map_with_table|].
    intros v' Ho Et. cbn zeta. rewrite table_of_with_table. case_decide as Ev; [destruct Ev|done].
    fold t. rewrite slot_cfg_upd. case_decide as Ea; [|done]. exfalso.
    destruct (ti_fwd _ _ _ (ai_table _ Hi v) o Ho Et) as [_ Hm].
    rewrite <- Ea in Hm. fold t in Hm. rewrite Hm in Hfree. done.
Qed.
End store_ops.
