(* ===== verification/AclApi.v ===== *)
(** * The ACL configuration API: properties

    The exported operations of the configuration library as a step relation on
    the (possibly unmapped) shared memory, the invariant of every reachable
    store, and what each call does to the abstract store, on every branch. *)
From S2P Require Import Prelude AclHash AclTuple AclBitmap AclStore Crc32.

Section api.
Context `{ByteHash} `{InetLaws}.

(** ** What a create or replace request may do *)

Inductive try_map_outcome (c : SF_CONF_T) (o : Z) (r : sf_tuple_rule_cfg_t)
    (check_old : bool) : option SF_CONF_T -> Z -> Prop :=
| tm_done c' k :
    cfg_of r = Some k -> valid_outer o -> acl_inv c' ->
    (check_old = true -> store c o = None) ->
    store c' o = Some (is_ipv6 r, k) ->
    (forall o', o' <> o -> store c' o' = store c o') ->
    try_map_outcome c o r check_old (Some c') 0
| tm_duplicate k d :
    cfg_of r = Some k -> valid_outer d -> d <> o ->
    store c d = Some (is_ipv6 r, k) ->
    try_map_outcome c o r check_old (Some c) d
| tm_invalid_id :
    ~ valid_outer o -> try_map_outcome c o r check_old (Some c) FAIL_REASON_INVALID_ID
| tm_old_exists :
    check_old = true -> store c o <> None ->
    try_map_outcome c o r check_old (Some c) FAIL_REASON_OLD_RULE_EXIST
| tm_invalid_cfg :
    cfg_of r = None -> try_map_outcome c o r check_old (Some c) FAIL_REASON_INVALID_CFG
| tm_full :
    (forall id, valid_slot id ->
       slot_used (tuple_rule_bitmap (table_of c (is_ipv6 r))) id = true) ->
    try_map_outcome c o r check_old (Some c) FAIL_REASON_RULE_FULL.

Lemma store_some_ty c o :
  acl_inv c -> valid_outer o -> 0 < rule_type (rule_map c).[o - 1] -> store c o <> None.
Proof.
  intros Hi Ho Hp. destruct (ai_type _ Hi o Ho) as [E|[v E]]; [lia|].
  by rewrite (store_ty _ _ _ Ho E).
Qed.

(** A search hit is a slot with the request's configuration. *)
Lemma find_actual_hit fuel c r k found :
  acl_inv c -> cfg_of r = Some k -> tuple_hash_find_actual fuel c r = Some found ->
  0 <= found <= 2048 /\
  (found <> 0 -> slot_cfg (table_of c (is_ipv6 r)) found = k).
Proof.
  intros Hi Hk. unfold tuple_hash_find_actual. unfold cfg_of in Hk.
  case_decide as Hchk; [|done]. injection Hk as Hk.
  destruct (check_copy r cfg_zero Hchk) as [Ecp Hwf]. rewrite Hk in Ecp, Hwf.
  rewrite Ecp.
  rewrite decide_False by lia. intros Hf.
  eapply acl_hash_find_ok in Hf as [Hr Hc];
    [|apply (ti_links _ _ _ (ai_table _ Hi (is_ipv6 r)))].
  split; [done|]. intros Hnz. specialize (Hc Hnz). unfold tuple_rule_cfg_cmp in Hc.
  apply memcmp_0 in Hc. symmetry. eapply cfg_bytes_inj; [exact Hwf| |exact Hc].
  apply (ti_cfg _ _ _ (ai_table _ Hi (is_ipv6 r))).
Qed.

Lemma first_unused_cases c v :
  acl_inv c -> let id := tuple_bitmap_get_first_unused c v in
  (id = 0 /\ forall a, valid_slot a -> slot_used (tuple_rule_bitmap (table_of c v)) a = true) \/
  (valid_slot id /\ outer_id_valid (slot_map (table_of c v) id) = false).
Proof.
  intros Hi id. pose proof (ai_table _ Hi v) as Ht.
  destruct (bitmap_first_unused_spec (tuple_rule_bitmap (table_of c v)) TUPLE_RULE_BITMAP_CNT
    (ti_words _ _ _ Ht)) as [[E Ha]|(Hr & Hu & _)]; [done|left|right]; fold (tuple_bitmap_get_first_unused c v) in *; fold id.
  - split; [done|]. exact Ha.
  - assert (valid_slot id) as Hid by exact Hr. split; [done|].
    by rewrite <- (ti_bit _ _ _ Ht id Hid).
Qed.

(** Every result of the request, by cases on the code's checks. *)
Lemma try_map_result fuel c o r check_old conf' ret :
  acl_inv c ->
  tuple_try_map_new_rule fuel (Some c) 1 o (Some r) check_old = Some (conf', ret) ->
  try_map_outcome c o r check_old conf' ret.
Proof.
  intros Hi. unfold tuple_try_map_new_rule. change (invalid_group 1) with false.
  cbn [acl_get_rule_map_type]. change (invalid_group 1) with false.
  destruct (invalid_outer o) eqn:Ho.
  { intros [= <- <-]. apply tm_invalid_id. intros Hv%invalid_outer_false. congruence. }
  apply invalid_outer_false in Ho.
  destruct (check_old && _) eqn:Eold.
  { intros [= <- <-]. apply andb_true_iff in Eold as [-> Hp%Z.ltb_lt].
    apply tm_old_exists; [done|]. by apply store_some_ty. }
  assert (Hnone : check_old = true -> rule_type (rule_map c).[o - 1] = 0).
  { intros ->. cbn in Eold. apply Z.ltb_ge in Eold.
    destruct (ai_type _ Hi o Ho) as [E|[v E]]; [done|]. rewrite E in Eold.
    by destruct v. }
  case_decide as Hchk.
  { intros [= <- <-]. apply tm_invalid_cfg. unfold cfg_of. by rewrite decide_False. }
  assert (Hk : exists k, cfg_of r = Some k).
  { unfold cfg_of. rewrite decide_True by done. eauto. }
  destruct Hk as [k Hk]. cbv zeta.
  intros (found & Hf & Hrest)%obind_Some.
  destruct (find_actual_hit _ _ _ _ _ Hi Hk Hf) as [Hr Hhit].
  rewrite (wrap_small 32) in Hrest by lia. case_decide as Hz.
  - destruct (first_unused_cases c (is_ipv6 r) Hi) as [[E Hall]|[Hid Hfree]].
    + rewrite decide_True in Hrest by done. injection Hrest as <- <-. by apply tm_full.
    + rewrite decide_False in Hrest by (unfold valid_slot in Hid; lia).
      destruct (set_cfg_free c _ r k Hi Hid Hk Hfree)
        as (c1 & E1 & Hi1 & Hrm1 & Hfree1 & Hk1 & Hst1).
      rewrite E1 in Hrest. rewrite decide_False in Hrest by tauto.
      destruct (commit_spec c1 o _ (is_ipv6 r) check_old Hi1 Ho Hid Hfree1)
        as (c2 & E2 & Hi2 & Hs2 & Hs2'); [by rewrite Hrm1|].
      rewrite E2 in Hrest. injection Hrest as <- <-.
      eapply (tm_done _ _ _ _ c2 k); try done.
      * intros Hc. apply store_none. left. by apply Hnone.
      * by rewrite Hs2, Hk1.
      * intros o' Ho'. by rewrite Hs2', Hst1.
  - specialize (Hhit Hz). assert (Hid : valid_slot found) by (unfold valid_slot; lia).
    unfold tuple_hash_find_outer in Hrest. rewrite (decide_True (P := found <> 0)) in Hrest by done.
    fold (slot_map (table_of c (is_ipv6 r)) found) in Hrest.
    destruct (outer_id_valid (slot_map (table_of c (is_ipv6 r)) found)) eqn:Ev.
    + destruct (ti_bwd _ _ _ (ai_table _ Hi (is_ipv6 r)) found Hid Ev) as [Hod Ed].
      set (d := outer_rule_id _) in *. rewrite decide_True in Hrest by (unfold valid_outer in Hod; lia).
      assert (Hsd : store c d = Some (is_ipv6 r, k)).
      { rewrite (store_ty c d (is_ipv6 r) Hod) by (by rewrite Ed). rewrite Ed.
        cbn [actual_rule_id]. by rewrite Hhit. }
      case_decide as Edo.
      * injection Hrest as <- <-. rewrite Edo in Hsd. apply (tm_done _ _ _ _ c k); try done.
        intros Hc. rewrite <- Edo in Hnone. specialize (Hnone Hc). rewrite Ed in Hnone.
        by destruct (is_ipv6 r).
      * injection Hrest as <- <-. by apply (tm_duplicate _ _ _ _ k d).
    + rewrite decide_False in Hrest by lia.
      destruct (commit_spec c o found (is_ipv6 r) check_old Hi Ho Hid Ev Hnone)
        as (c2 & E2 & Hi2 & Hs2 & Hs2').
      rewrite E2 in Hrest. injection Hrest as <- <-.
      apply (tm_done _ _ _ _ c2 k); try done.
      * intros Hc. apply store_none. left. by apply Hnone.
      * by rewrite Hs2, Hhit.
Qed.

(** The links of the bucket of [k] run in a circle on which no slot holds [k]. *)
Definition search_circles (c : SF_CONF_T) (v : bool) (k : tuple_cfg) : Prop :=
  let t := table_of c v in
  let b := (tuple_hash_bucket t).[acl_hash_index (cfg_bytes v k) TUPLE_RULE_HASH_BUCKET_CNT] in
  node_cnt b <> 0 /\ exists before x circle,
    path (tuple_hash_node t) (hash_next_rule b) before x /\ path (tuple_hash_node t) x circle x /\
    circle <> [] /\ forall id, id ∈ before ++ circle -> valid_slot id /\ slot_cfg t id <> k.

(** 2049 steps of the duplicate search decide: there are 2048 slots. *)
Lemma find_actual_circle c r k :
  acl_inv c -> cfg_of r = Some k -> tuple_hash_find_actual 2049 c r = None ->
  search_circles c (is_ipv6 r) k.
Proof.
  intros Hi Hk. unfold cfg_of in Hk. case_decide as Hchk; [|done]. injection Hk as Hk.
  unfold tuple_hash_find_actual. destruct (check_copy r cfg_zero Hchk) as [Ecp _]. rewrite Hk in Ecp.
  rewrite Ecp, decide_False by lia. unfold acl_hash_find, search_circles. case_decide as Hn; [done|]. intros E.
  destruct (ti_links _ _ _ (ai_table _ Hi (is_ipv6 r))) as [Hb HN].
  apply (find_loop_circle _ _ _ 2048) in E as (before & x & circle & P1 & P2 & P3 & P4);
    [|intros i; apply HN|apply Hb].
  split; [done|]. exists before, x, circle. split_and!; try done. intros id Hid.
  destruct (P4 id Hid) as [Hr Hc]. split; [exact Hr|]. intros E'. apply Hc, memcmp_0.
  by unfold slot_cfg in E'; rewrite E'.
Qed.

Lemma search_circles_find fuel c r k :
  cfg_of r = Some k -> acl_inv c -> search_circles c (is_ipv6 r) k -> tuple_hash_find_actual fuel c r = None.
Proof.
  intros Hk Hi (Hn & before & x & circle & P1 & P2 & P3 & P4). unfold cfg_of in Hk. case_decide as Hchk; [|done].
  injection Hk as Hk. unfold tuple_hash_find_actual. destruct (check_copy r cfg_zero Hchk) as [Ecp Hwf].
  rewrite Hk in Ecp, Hwf. rewrite Ecp, decide_False by lia. unfold acl_hash_find. rewrite decide_False by done.
  apply (find_loop_stuck _ _ _ before x circle); try done. intros id Hid.
  destruct (P4 id Hid) as [_ Hc]. unfold tuple_rule_cfg_cmp. intros E%memcmp_0. apply Hc. symmetry.
  eapply cfg_bytes_inj; [exact Hwf| |exact E]. apply (ti_cfg _ _ _ (ai_table _ Hi (is_ipv6 r))).
Qed.

(** A request that passes the checks of the code searches before it does anything. *)
Lemma try_map_searches fuel c o r k check_old :
  valid_outer o -> (check_old = true -> store c o = None) -> acl_inv c -> cfg_of r = Some k ->
  tuple_hash_find_actual fuel c r = None ->
  tuple_try_map_new_rule fuel (Some c) 1 o (Some r) check_old = None.
Proof.
  intros Ho Hn Hi Hk E. unfold tuple_try_map_new_rule. change (invalid_group 1) with false.
  apply invalid_outer_false in Ho as Ho'. rewrite Ho'.
  cbn [acl_get_rule_map_type]. change (invalid_group 1) with false. rewrite Ho'.
  destruct (check_old && _) eqn:Et.
  { apply andb_true_iff in Et as [-> Et%Z.ltb_lt]. apply store_some_ty in Et; [|done..]. by rewrite Hn in Et. }
  unfold cfg_of in Hk. case_decide as Hchk; [|done]. rewrite decide_False by tauto. cbv zeta. by rewrite E.
Qed.

(** C1: on a well-formed store every create (POST) or replace (PUT) request returns
    within 2049 steps of the duplicate search, and then either stores exactly the
    requested configuration under the requested id and changes nothing else, or
    leaves the store untouched and returns the code of the failing check, a positive
    result being an id that already holds the same configuration; or the links of the
    bucket run in a circle without the configuration, and the request never
    returns. *)
Theorem try_map_refines c o r check_old :
  acl_inv c ->
  (exists conf' ret, tuple_try_map_new_rule 2049 (Some c) 1 o (Some r) check_old = Some (conf', ret) /\
     try_map_outcome c o r check_old conf' ret) \/
  (exists k, cfg_of r = Some k /\ search_circles c (is_ipv6 r) k /\
     forall fuel, tuple_try_map_new_rule fuel (Some c) 1 o (Some r) check_old = None).
Proof.
  intros Hi. destruct (tuple_try_map_new_rule 2049 (Some c) 1 o (Some r) check_old) as [[conf' ret]|] eqn:E.
  - left. exists conf', ret. split; [done|]. by eapply try_map_result.
  - right. assert (exists k, cfg_of r = Some k /\ tuple_hash_find_actual 2049 c r = None /\ valid_outer o /\
      (check_old = true -> store c o = None)) as (k & Hk & Ef & Ho & Hn).
    { revert E. unfold tuple_try_map_new_rule. change (invalid_group 1) with false.
      cbn [acl_get_rule_map_type]. change (invalid_group 1) with false.
      destruct (invalid_outer o) eqn:Ho; [done|]. apply invalid_outer_false in Ho. destruct (check_old && _) eqn:Et; [done|].
      case_decide as Hchk; [done|]. cbv zeta. destruct (tuple_hash_find_actual 2049 c r); cbn [obind].
      { repeat (case_decide || case_match); done. }
      intros _. unfold cfg_of. rewrite decide_True by tauto. eexists. split_and!; [done..|].
      intros ->. apply store_none. left. apply Z.ltb_ge in Et. destruct (ai_type _ Hi o Ho) as [|[v Ev]]; [done|].
      rewrite Ev in Et. by destruct v. }
    exists k. pose proof (find_actual_circle _ _ _ Hi Hk Ef) as Hc. split_and!; [done..|].
    intros fuel. apply (try_map_searches _ _ _ _ k); try done. by eapply search_circles_find.
Qed.

(** ** Deletion *)

(** [c'] is [c] without outer id [o]. *)
Definition removed (c c' : SF_CONF_T) (o : Z) : Prop :=
  acl_inv c' /\ store c' o = None /\ forall o', o' <> o -> store c' o' = store c o'.

(** C2: deleting a configured outer id removes exactly that id, whatever the
    duplicate hash does; deleting an absent one is refused with -2 unless the
    caller asked for no check, and then the store's meaning is unchanged. *)
Theorem delete_refines c o no_check :
  acl_inv c -> valid_outer o ->
  (store c o = None -> no_check = false ->
     acl_delete_old_map (Some c) 1 o no_check = (Some c, -2)) /\
  (store c o <> None \/ no_check = true -> exists c',
     acl_delete_old_map (Some c) 1 o no_check = (Some c', 0) /\ removed c c' o).
Proof.
  intros Hi Ho.
  destruct (delete_old_map_cases c o no_check Hi Ho) as [(E & -> & Ed)|(c' & Hc & Ed & Hu)].
  - split; [by intros|]. intros [Hs|]; [|done]. destruct Hs. apply store_none. by left.
  - split.
    + intros Hs ->. destruct Hc as [Hc|]; [|done].
      destruct (ai_type _ Hi o Ho) as [|[v Ev]]; [done|].
      by rewrite (store_ty _ _ _ Ho Ev) in Hs.
    + intros _. destruct Hu as [Hi' Hn Hst _ _]. exists c'. split; [done|].
      split_and!; try done. apply store_none. by left.
Qed.

(** ** Reading back *)

(** [r] spells the configuration [k]: what [get_tuple_rule_cfg] fills in. *)
Definition user_of (v6 : bool) (k : tuple_cfg) : sf_tuple_rule_cfg_t :=
  mk_user_cfg (if v6 then 1 else 0) (sport_min k) (sport_max k) (dport_min k) (dport_max k)
    (proto_min k) (proto_max k) (inet_ntop v6 (sip k)) (sip_mask k)
    (inet_ntop v6 (dip k)) (dip_mask k).

Lemma get_refines c o :
  acl_inv c -> valid_outer o ->
  get_tuple_rule_cfg (Some c) 1 o
  = match store c o with
    | Some (v6, k) => (0, Some (user_of v6 k))
    | None => (-1, None)
    end.
Proof.
  intros Hi Ho. unfold get_tuple_rule_cfg. change (invalid_group 1) with false.
  apply invalid_outer_false in Ho as Ho'. rewrite Ho'. cbv zeta.
  destruct (ai_type _ Hi o Ho) as [E|[v E]].
  - rewrite (store_none c o), E by (by left). done.
  - rewrite (store_ty c o v Ho E).
    destruct (ti_fwd _ _ _ (ai_table _ Hi v) o Ho E) as [Hid _].
    apply invalid_actual_false in Hid.
    unfold get_tuple_rule_cfg_inline. change (invalid_group 1) with false.
    destruct v; rewrite E, Hid; done.
Qed.

(** What is read back is accepted again and denotes the same
    configuration. *)
Lemma cfg_of_user r k : cfg_of r = Some k -> cfg_of (user_of (is_ipv6 r) k) = Some k.
Proof.
  unfold cfg_of. case_decide as Hchk; [|done]. intros [= Hk].
  destruct (check_copy r cfg_zero Hchk) as [Ecp Hwf]. rewrite Hk in Ecp, Hwf.
  destruct Hwf as (_ & _ & Hs & Hd).
  assert (E6 : is_ipv6 (user_of (is_ipv6 r) k) = is_ipv6 r) by (by destruct (is_ipv6 r)).
  assert (Hchk' : check_tuple_rule_cfg (Some (user_of (is_ipv6 r) k)) = 0).
  { unfold check_tuple_rule_cfg in *. rewrite E6. cbn [user_of u_sip u_dip].
    rewrite !inet_pton_ntop by done.
    unfold copy_tuple_cfg_to_tuple in Ecp.
    destruct (negb (in_range (u_is_ipv6 r) _ _ && _ && _ && _ && _ && _ && _)) eqn:E1; [done|].
    repeat (case_match; [done|]).
    destruct (inet_pton (is_ipv6 r) (u_sip r)); [|done].
    destruct (inet_pton (is_ipv6 r) (u_dip r)); [|done].
    injection Ecp as <-. cbn in *. apply negb_false_iff in E1. rewrite !andb_true_iff in E1.
    destruct E1 as ((((((_ & R1) & R2) & R3) & R4) & R5) & R6).
    rewrite R1, R2, R3, R4, R5, R6. destruct (is_ipv6 r); cbn in *;
      repeat match goal with E : _ = false |- _ => rewrite E; clear E end; done. }
  rewrite decide_True by done. rewrite E6. f_equal.
  unfold copy_tuple_cfg_to_tuple. cbn. rewrite !inet_pton_ntop by done. by destruct k.
Qed.

(** C15: an accepted request is read back: [get_tuple_rule_cfg] on the id
    succeeds with text that denotes the configuration that was asked for, and
    submitting that text again would be accepted as the same rule. *)
Theorem put_get_roundtrip fuel c o r check_old conf' :
  acl_inv c ->
  tuple_try_map_new_rule fuel (Some c) 1 o (Some r) check_old = Some (conf', 0) ->
  exists k, cfg_of r = Some k /\
    get_tuple_rule_cfg conf' 1 o = (0, Some (user_of (is_ipv6 r) k)) /\
    cfg_of (user_of (is_ipv6 r) k) = Some k.
Proof.
  intros Hi Ht. pose proof (try_map_result _ _ _ _ _ _ _ Hi Ht) as Ho.
  inversion Ho as [c' k Hk Hv Hi' _ Hs _| k d _ Hd _ _| | | |]; subst.
  - exists k. split; [done|]. split; [|by apply cfg_of_user].
    rewrite get_refines by done. by rewrite Hs.
  - unfold valid_outer in Hd. lia.
Qed.

(** ** Reachable configurations *)

Definition with_sync (f n : Z) (c : SF_CONF_T) : SF_CONF_T :=
  mk_conf f n (rule_map c) (table_v4 c) (table_v6 c).

(** One call of the library, or a change of the synchronisation counters by
    either side. *)
Inductive acl_step : option SF_CONF_T -> option SF_CONF_T -> Prop :=
| st_map conf fuel g o r check_old conf' ret :
    tuple_try_map_new_rule fuel conf g o r check_old = Some (conf', ret) ->
    acl_step conf conf'
| st_delete conf g o no_check :
    acl_step conf (fst (acl_delete_old_map conf g o no_check))
| st_init conf is_reset : acl_step conf (fst (acl_init_config is_reset conf))
| st_sync c f n : acl_step (Some c) (Some (with_sync f n c)).

Definition acl_start (conf : option SF_CONF_T) : Prop :=
  conf = None \/ conf = Some conf_zero.

Definition conf_inv (conf : option SF_CONF_T) : Prop :=
  match conf with Some c => acl_inv c | None => True end.

Lemma outcome_inv c o r check_old conf' ret :
  acl_inv c -> try_map_outcome c o r check_old conf' ret -> conf_inv conf'.
Proof. intros Hi Ho. by destruct Ho. Qed.

Lemma step_inv conf conf' : conf_inv conf -> acl_step conf conf' -> conf_inv conf'.
Proof.
  intros Hi Hs. destruct Hs as [conf fuel g o r check_old conf' ret Ht|conf g o nc|conf rst|c f n].
  - destruct conf as [c|]; [|by injection Ht as <- _].
    pose proof Ht as Ht'. unfold tuple_try_map_new_rule in Ht. destruct (invalid_group g) eqn:Hg;
      [by injection Ht as <- _|]. apply invalid_group_false in Hg. subst g.
    destruct r as [r|]; [|destruct (invalid_outer o); by injection Ht as <- _].
    eapply outcome_inv; [exact Hi|]. by eapply (try_map_result _ _ _ _ _ _ _ Hi).
  - destruct conf as [c|]; [|done]. unfold acl_delete_old_map.
    destruct (invalid_group g) eqn:Hg; [done|]. apply invalid_group_false in Hg. subst g.
    destruct (invalid_outer o) eqn:Ho; [done|]. apply invalid_outer_false in Ho as Hv.
    destruct (delete_old_map_cases c o nc Hi Hv) as [(_ & _ & Ed)|(c' & _ & Ed & Hu)];
      unfold acl_delete_old_map in Ed; change (invalid_group 1) with false in Ed;
      rewrite Ho in Ed; rewrite Ed; [done|by apply Hu].
  - destruct conf as [c|]; [|done]. unfold acl_init_config. destruct (_ && _); [done|].
    destruct rst; apply acl_inv_zero.
  - split; [apply Hi|]. intros v. pose proof (ai_table _ Hi v). by destruct v.
Qed.

(** C34: in every reachable configuration the outer-id map and the slots' back
    pointers are inverse to each other, a slot is marked used exactly when it
    is mapped, and every slot's configuration is well formed. *)
Theorem reachable_inv conf c :
  reach acl_start acl_step conf -> conf = Some c -> acl_inv c.
Proof.
  intros Hr ->. change (conf_inv (Some c)). revert Hr. apply reach_invariant.
  - intros s [->| ->]; [done|apply acl_inv_zero].
  - apply step_inv.
Qed.

(** ** Counting and listing the configured rules *)

Definition store_has (c : SF_CONF_T) (v : bool) (o : Z) : bool :=
  match store c o with Some (v', _) => Bool.eqb v' v | None => false end.

Lemma store_has_ty c v o :
  acl_inv c -> valid_outer o ->
  store_has c v o = true <-> rule_type (rule_map c).[o - 1] = rule_ty v.
Proof.
  intros Hi Ho. unfold store_has. destruct (ai_type _ Hi o Ho) as [E|[v' E]].
  - rewrite store_none, E by (by left). split; [done|]. by destruct v.
  - rewrite (store_ty _ _ _ Ho E), E, eqb_true_iff. split; [by intros ->|apply rule_ty_inj].
Qed.

(** The outer ids of a family and its used slots correspond. *)
Lemma owners_permutation c v :
  acl_inv c ->
  map (fun o => actual_rule_id (rule_map c).[o - 1])
    (filter (fun o => store_has c v o = true) (seqZ 1 4096))
  ≡ₚ used_slots (tuple_rule_bitmap (table_of c v)) 2048.
Proof.
  intros Hi. pose proof (ai_table _ Hi v) as Ht.
  assert (Hown : forall o, o ∈ filter (fun o => store_has c v o = true) (seqZ 1 4096) <->
            valid_outer o /\ rule_type (rule_map c).[o - 1] = rule_ty v).
  { intros o. rewrite list_elem_of_filter, elem_of_seqZ. unfold valid_outer.
    split; intros [H1' H2']; (split; [|lia || (apply store_has_ty; done || (unfold valid_outer; lia))]).
    - lia.
    - apply store_has_ty; done || (unfold valid_outer; lia). }
  apply NoDup_Permutation.
  - apply NoDup_fmap_2_strong; [|apply NoDup_filter, NoDup_seqZ].
    intros o o' Ho Ho' E. apply Hown in Ho as [Ho Et], Ho' as [Ho' Et'].
    destruct (ti_fwd _ _ _ Ht o Ho Et) as [_ Hm], (ti_fwd _ _ _ Ht o' Ho' Et') as [_ Hm'].
    rewrite E, Hm' in Hm. by injection Hm.
  - apply NoDup_filter, NoDup_seqZ.
  - intros id. unfold used_slots. rewrite list_elem_of_filter, elem_of_seqZ.
    rewrite list_elem_of_fmap. setoid_rewrite Hown. split.
    + intros (o & -> & Ho & Et). destruct (ti_fwd _ _ _ Ht o Ho Et) as [Hid Hm].
      rewrite (ti_bit _ _ _ Ht) by done. rewrite Hm. unfold valid_slot in Hid. split; [done|lia].
    + intros [Hu Hr]. assert (valid_slot id) as Hid by (unfold valid_slot; lia).
      rewrite (ti_bit _ _ _ Ht) in Hu by done.
      destruct (ti_bwd _ _ _ Ht id Hid Hu) as [Ho E].
      eexists. split; [|split; [exact Ho|]]; by rewrite E.
Qed.

(** The number of used slots the library reports for a family is the
    number of outer ids configured in that family. *)
Theorem used_cnt_counts c v :
  acl_inv c ->
  tuple_bitmap_get_used_cnt c v
  = Z.of_nat (length (filter (fun o => store_has c v o = true) (seqZ 1 4096))).
Proof.
  intros Hi. unfold tuple_bitmap_get_used_cnt.
  rewrite total_cnt_loop_spec by (apply (ti_words _ _ _ (ai_table _ Hi v)) || lia).
  rewrite Z.add_0_l. f_equal. pose proof (owners_permutation c v Hi) as Hp.
  apply Permutation_length in Hp. rewrite length_map in Hp. by rewrite Hp.
Qed.

Lemma find_next_loop_spec n m id :
  let r := find_next_loop n m id in
  (r = 0 /\ forall o, id <= o < id + Z.of_nat n -> rule_type m.[o - 1] = 0) \/
  (id <= r < id + Z.of_nat n /\ rule_type m.[r - 1] <> 0 /\
   forall o, id <= o < r -> rule_type m.[o - 1] = 0).
Proof.
  revert id. induction n as [|n IH]; intros id; cbn [find_next_loop].
  - left. split; [done|lia].
  - case_decide as E.
    + right. split_and!; [lia|lia|done|lia].
    + assert (E' : rule_type m.[id - 1] = 0) by lia. clear E.
      destruct (IH (id + 1)) as [[Er Ha]|(Hr & Hnz & Ha)]; [left|right].
      * split; [done|]. intros o Ho. destruct (decide (o = id)) as [->|]; [done|].
        apply Ha. lia.
      * split_and!; [lia|lia|done|]. intros o Ho.
        destruct (decide (o = id)) as [->|]; [done|]. apply Ha. lia.
Qed.

Definition configured (c : SF_CONF_T) (o : Z) : Prop := store c o <> None.

(** [acl_sys_conf_find_next_rule] returns the smallest configured id above
    its argument, and 0 when there is none. *)
Theorem find_next_rule_spec c s :
  acl_inv c -> 0 <= s -> let r := acl_sys_conf_find_next_rule (Some c) 1 s in
  (r = 0 /\ forall o, s < o -> ~ configured c o) \/
  (s < r <= 4096 /\ configured c r /\ forall o, s < o < r -> ~ configured c o).
Proof.
  intros Hi Hs. unfold acl_sys_conf_find_next_rule. change (invalid_group 1) with false.
  cbv zeta. change MAX_RULE_PER_GROUP with 4096.
  assert (Hz : forall o, rule_type (rule_map c).[o - 1] = 0 -> ~ configured c o)
    by (intros o E Hc; apply Hc, store_none; by left).
  destruct (find_next_loop_spec (Z.to_nat (4096 + 1 - (s + 1))) (rule_map c) (s + 1))
    as [[-> Ha]|(Hr & Hnz & Ha)]; [left|right].
  - split; [done|]. intros o Ho. destruct (decide (o <= 4096)).
    + apply Hz, Ha. lia.
    + intros Hc. apply Hc, store_none. right. unfold valid_outer. lia.
  - set (r := find_next_loop _ _ _) in *. split_and!; [lia|lia| |].
    + apply store_some_ty; [done|unfold valid_outer; lia|].
      destruct (ai_type _ Hi r) as [|[v E]]; [unfold valid_outer; lia|lia|].
      rewrite E. by destruct v.
    + intros o Ho. apply Hz, Ha. lia.
Qed.
End api.
