(* ===== verification/AclDup.v ===== *)
(** * Duplicate detection

    While rules are only created (POST), the duplicate hash is complete: it
    holds every configured slot in the bucket of its configuration, so a create
    request always terminates and no two outer ids hold the same rule.  The
    last section shows that deleting a rule and creating it again makes later
    requests search for ever. *)
From S2P Require Import Prelude Crc32 AclHash AclTuple AclBitmap AclStore AclApi.

Section dup.
Context `{ByteHash} `{InetLaws}.

Definition slot_bucket (v : bool) (t : tuple_table) (id : Z) : Z :=
  acl_hash_index (cfg_bytes v (slot_cfg t id)) TUPLE_RULE_HASH_BUCKET_CNT.

Definition slot_on (t : tuple_table) (id : Z) : Prop :=
  valid_slot id /\ outer_id_valid (slot_map t id) = true.

(** The hash of one family holds exactly the configured slots, and their
    configurations differ. *)
Record table_complete (v : bool) (t : tuple_table) (ls : Z -> list Z) : Prop := {
  tc_repr : hash_repr (tuple_hash_bucket t) (tuple_hash_node t) ls;
  tc_in id b : id ∈ ls b -> slot_on t id /\ b = slot_bucket v t id;
  tc_all id : slot_on t id -> id ∈ ls (slot_bucket v t id);
  tc_uniq id id' : slot_on t id -> slot_on t id' -> slot_cfg t id = slot_cfg t id' -> id = id'
}.

Definition post_inv (c : SF_CONF_T) : Prop :=
  acl_inv c /\ exists ls, forall v, table_complete v (table_of c v) (ls v).

Lemma post_inv_zero : post_inv conf_zero.
Proof.
  split; [apply acl_inv_zero|]. exists (fun _ _ => []). intros v.
  replace (table_of conf_zero v) with table_zero by (by destruct v).
  split; try (unfold slot_on, slot_map; cbn; intros; rewrite ?aget_empty in *; set_solver).
  apply hash_repr_empty.
Qed.

Lemma bucket_length v t ls b : table_complete v t ls -> (length (ls b) <= 2048)%nat.
Proof.
  intros Ht. change 2048%nat with (Z.to_nat 2048). rewrite <- (length_seqZ 1 2048).
  apply submseteq_length, NoDup_submseteq; [apply (tc_repr _ _ _ Ht)|].
  intros id Hid. apply (tc_in _ _ _ Ht) in Hid as [[Hv _] _].
  apply elem_of_seqZ. unfold valid_slot in Hv. lia.
Qed.

(** The search finds the slot that holds the configuration, or nothing. *)
Lemma find_complete fuel c ls r k :
  (forall v, table_complete v (table_of c v) (ls v)) ->
  cfg_of r = Some k -> acl_inv c -> (2048 < fuel)%nat ->
  exists found, tuple_hash_find_actual fuel c r = Some found /\
    let t := table_of c (is_ipv6 r) in
    (found = 0 /\ forall id, slot_on t id -> slot_cfg t id <> k) \/
    (slot_on t found /\ slot_cfg t found = k).
Proof.
  intros Hls Hk Hi Hfuel. pose proof (Hls (is_ipv6 r)) as Ht.
  destruct (tuple_hash_find_actual fuel c r) as [found|] eqn:Ef.
  - exists found. split; [done|].
    destruct (find_actual_hit _ _ _ _ _ Hi Hk Ef) as [_ Hhit]. cbv zeta.
    unfold cfg_of in Hk. case_decide as Hchk; [|done]. injection Hk as Hk.
    unfold tuple_hash_find_actual in Ef.
    destruct (check_copy r cfg_zero Hchk) as [Ecp Hwf]. rewrite Hk in Ecp, Hwf.
    rewrite Ecp in Ef. rewrite decide_False in Ef by lia.
    rewrite (acl_hash_find_repr _ _ (ls (is_ipv6 r))) in Ef; [|apply Ht|].
    2:{ pose proof (bucket_length _ _ _ (acl_hash_index (cfg_bytes (is_ipv6 r) k)
          TUPLE_RULE_HASH_BUCKET_CNT) Ht). lia. }
    injection Ef as Ef. destruct (decide (found = 0)) as [Ez|Ez].
    + left. split; [done|]. intros id Hon Ec. rewrite Ez in Ef. revert Ef.
      apply (first_such_hit _ _ id).
      * apply (tc_all _ _ _ Ht) in Hon. unfold slot_bucket in Hon. by rewrite Ec in Hon.
      * apply bool_decide_eq_true_2. apply memcmp_0. by rewrite <- Ec.
      * intros y Hy%(tc_in _ _ _ Ht). destruct Hy as [[Hv _] _]. unfold valid_slot in Hv. lia.
    + right. split; [|by apply Hhit]. apply first_such_in in Ef as [Hin _]; [|done].
      by apply (tc_in _ _ _ Ht) in Hin as [? _].
  - exfalso. revert Ef. unfold tuple_hash_find_actual.
    destruct (copy_tuple_cfg_to_tuple _ _ _) as [k0 ret]. case_decide; [done|].
    rewrite (acl_hash_find_repr _ _ (ls (is_ipv6 r))); [done|apply Ht|].
    pose proof (bucket_length _ _ _ (acl_hash_index (cfg_bytes (is_ipv6 r) k0)
          TUPLE_RULE_HASH_BUCKET_CNT) Ht). lia.
Qed.

(** Adding a free slot with a new configuration. *)
Lemma table_complete_add v t ls id o k bm :
  table_complete v t ls -> valid_slot id -> outer_id_valid (slot_map t id) = false ->
  (forall a, slot_on t a -> slot_cfg t a <> k) ->
  let key := cfg_bytes v k in
  let BN := acl_hash_insert (tuple_hash_bucket t) TUPLE_RULE_HASH_BUCKET_CNT
              (tuple_hash_node t) key id in
  table_complete v
    (mk_table bm (fst BN) (snd BN) (tuple_rules t).[id - 1 <- mk_rule (mk_map_rule true 1 o) k])
    (ls_push ls (acl_hash_index key TUPLE_RULE_HASH_BUCKET_CNT) id).
Proof.
  intros Ht Hid Hfree Hnew key BN. set (t' := mk_table _ _ _ _).
  assert (Hm : forall a, slot_map t' a = if decide (id = a) then mk_map_rule true 1 o
                                         else slot_map t a).
  { intros a. exact (slot_map_upd t id (mk_rule (mk_map_rule true 1 o) k) a). }
  assert (Hc : forall a, slot_cfg t' a = if decide (id = a) then k else slot_cfg t a).
  { intros a. exact (slot_cfg_upd t id (mk_rule (mk_map_rule true 1 o) k) a). }
  assert (Hon : forall a, slot_on t' a <-> a = id \/ slot_on t a).
  { intros a. unfold slot_on. rewrite Hm. case_decide as Ea; [subst a|]; naive_solver. }
  assert (Hoff : ~ slot_on t id) by (intros [_ E]; congruence).
  assert (Hfresh : forall b, id ∉ ls b) by (intros b [? _]%(tc_in _ _ _ Ht); done).
  assert (Hb : forall a, slot_bucket v t' a
                         = if decide (id = a) then acl_hash_index key TUPLE_RULE_HASH_BUCKET_CNT
                           else slot_bucket v t a).
  { intros a. unfold slot_bucket. rewrite Hc. by case_decide. }
  split.
  - pose proof (acl_hash_insert_repr _ _ ls key TUPLE_RULE_HASH_BUCKET_CNT id
      ltac:(unfold valid_slot in Hid; lia) Hfresh (tc_repr _ _ _ Ht)) as Hrep.
    fold BN in Hrep. destruct BN. exact Hrep.
  - intros a b. unfold ls_push. rewrite Hb, Hon. case_decide as Eb; case_decide as Ea; subst.
    + by auto.
    + rewrite elem_of_cons. intros [->|Ha]; [done|].
      by apply (tc_in _ _ _ Ht) in Ha as [? ?]; auto.
    + intros Ha. by apply Hfresh in Ha.
    + intros Ha. apply (tc_in _ _ _ Ht) in Ha as [? ?]; auto.
  - intros a. rewrite Hon, Hb. unfold ls_push. intros [->|Ha].
    + rewrite (decide_True (P := id = id)) by done. rewrite decide_True by done. set_solver.
    + rewrite (decide_False (P := id = a)) by (by intros ->).
      pose proof (tc_all _ _ _ Ht a Ha). case_decide as E; [rewrite <- E|]; set_solver.
  - intros a a'. rewrite !Hon, !Hc. intros [->|Ha] [->|Ha']; [done| | |].
    + rewrite decide_True by done. rewrite decide_False by (by intros ->).
      intros E. by destruct (Hnew a' Ha').
    + rewrite decide_False by (by intros ->). rewrite decide_True by done.
      intros E. by destruct (Hnew a Ha).
    + rewrite !decide_False by (by intros ->). by apply (tc_uniq _ _ _ Ht).
Qed.

(** What a POST leaves when it stores a rule in slot [id]. *)
Lemma commit_post_eq c o id v :
  valid_outer o -> valid_slot id ->
  let t := table_of c v in
  let key := cfg_bytes v (slot_cfg t id) in
  let BN := acl_hash_insert (tuple_hash_bucket t) TUPLE_RULE_HASH_BUCKET_CNT
              (tuple_hash_node t) key id in
  tuple_commit_rule c 1 o id v true =
  (Some (with_table v (mk_table (bitmap_set (tuple_rule_bitmap t) id) (fst BN) (snd BN)
           (tuple_rules t).[id - 1 <- mk_rule (mk_map_rule true 1 o) (slot_cfg t id)])
           (with_rule_map (rule_map c).[o - 1 <- mk_rule_map (rule_ty v) id] c)), 0).
Proof.
  intros Ho Hid t key BN. unfold tuple_commit_rule.
  destruct (decide (0 < 0)); [lia|].
  unfold tuple_hash_insert, tuple_bitmap_set_used_flag, tuple_map_rule_map.
  rewrite !(wrap_small 24), (wrap_small 7) by (unfold valid_slot, valid_outer in *; lia).
  rewrite !table_of_with_table_eq, table_of_with_rule_map. fold t.
  cbn [with_rules with_bitmap with_hash tuple_rules tuple_rule_bitmap tuple_hash_bucket
    tuple_hash_node set_map_rule]. rewrite aget_aset_eq. cbn [rule_cfg].
  by destruct v.
Qed.

Lemma post_create_eq c o id r k :
  cfg_of r = Some k -> valid_outer o -> valid_slot id ->
  let v := is_ipv6 r in
  let t := table_of c v in
  let BN := acl_hash_insert (tuple_hash_bucket t) TUPLE_RULE_HASH_BUCKET_CNT
              (tuple_hash_node t) (cfg_bytes v k) id in
  exists c1, set_tuple_rule_cfg (Some c) 1 id r v = (Some c1, 0) /\
  tuple_commit_rule c1 1 o id v true =
  (Some (with_table v (mk_table (bitmap_set (tuple_rule_bitmap t) id) (fst BN) (snd BN)
           (tuple_rules t).[id - 1 <- mk_rule (mk_map_rule true 1 o) k])
           (with_rule_map (rule_map c).[o - 1 <- mk_rule_map (rule_ty v) id] c)), 0).
Proof.
  intros Hk Ho Hid v t BN. eexists. split; [by apply (set_cfg_eq c id r k)|].
  rewrite commit_post_eq, !table_of_with_table_eq, rule_map_with_table, slot_cfg_upd by done.
  rewrite decide_True by done.
  cbn [with_rules tuple_rules tuple_hash_bucket tuple_hash_node tuple_rule_bitmap].
  rewrite aset_aset. unfold v, BN, t. by destruct (is_ipv6 r).
Qed.

(** A POST returns and keeps the hash complete. *)
Lemma post_step fuel c g o r :
  post_inv c -> (2048 < fuel)%nat ->
  exists conf' ret, tuple_try_map_new_rule fuel (Some c) g o r true = Some (conf', ret) /\
    exists c', conf' = Some c' /\ post_inv c'.
Proof.
  intros [Hi [ls Hls]] Hfuel.
  assert (Hsame : post_inv c) by (split; eauto).
  destruct (tuple_try_map_new_rule fuel (Some c) g o r true) as [[conf' ret]|] eqn:Et.
  all: pose proof Et as Et'; unfold tuple_try_map_new_rule in Et;
    destruct (invalid_group g) eqn:Hg; [simplify_eq; eauto 10|];
    destruct (invalid_outer o) eqn:Ho; [simplify_eq; eauto 10|];
    destruct r as [r|]; [|simplify_eq; eauto 10];
    destruct (true && _); [simplify_eq; eauto 10|];
    case_decide as Hchk; [simplify_eq; eauto 10|];
    assert (exists k, cfg_of r = Some k) as [k Hk]
      by (unfold cfg_of; rewrite decide_True by done; eauto);
    destruct (find_complete fuel c ls r k Hls Hk Hi Hfuel) as (found & Ef & Hf);
    rewrite Ef in Et; cbn [obind] in Et.
  - exists conf', ret. split; [done|].
    apply invalid_group_false in Hg. subst g.
    pose proof (outcome_inv _ _ _ _ _ _ Hi (try_map_result _ _ _ _ _ _ _ Hi Et')) as Hi'.
    apply invalid_outer_false in Ho. cbv zeta in Hf. set (v := is_ipv6 r) in *.
    destruct Hf as [[-> Hnew]|[Hon Hfk]].
    + change (u32 0) with 0 in Et. rewrite decide_True in Et by done.
      destruct (first_unused_cases c v Hi) as [[E _]|[Hid Hfree]].
      { rewrite decide_True in Et by done. simplify_eq. eauto. }
      rewrite decide_False in Et by (unfold valid_slot in Hid; lia).
      set (id := tuple_bitmap_get_first_unused c v) in *.
      destruct (post_create_eq c o id r k Hk Ho Hid) as (c1 & E1 & E2).
      fold v in E1, E2. rewrite E1 in Et. rewrite decide_False in Et by tauto.
      rewrite E2 in Et. injection Et as <- <-.
      eexists. split; [reflexivity|]. split; [exact Hi'|].
      exists (fun v' => if decide (v = v')
        then ls_push (ls v) (acl_hash_index (cfg_bytes v k) TUPLE_RULE_HASH_BUCKET_CNT) id
        else ls v'). intros v'. rewrite table_of_with_table.
      destruct (decide (v = v')) as [Ev|Ev].
      * destruct Ev. by apply table_complete_add.
      * rewrite table_of_with_rule_map. apply Hls.
    + destruct Hon as [Hid Hv]. rewrite (wrap_small 32) in Et
        by (unfold valid_slot in Hid; lia).
      rewrite decide_False in Et by (unfold valid_slot in Hid; lia).
      unfold tuple_hash_find_outer in Et.
      rewrite (decide_True (P := found <> 0)) in Et by (unfold valid_slot in Hid; lia).
      fold (slot_map (table_of c v) found) in Et. rewrite Hv in Et.
      destruct (ti_bwd _ _ _ (ai_table _ Hi v) found Hid Hv) as [Hd _].
      rewrite decide_True in Et by (unfold valid_outer in Hd; lia).
      case_decide; injection Et as <- <-; eauto.
  - exfalso. cbv zeta in Et. repeat (case_decide || case_match); done.
Qed.
End dup.

(** ** Create-only histories *)

Section post_only.
Context `{ByteHash} `{InetLaws}.

Definition post_rel (c c' : SF_CONF_T) : Prop :=
  exists fuel g o r ret, tuple_try_map_new_rule fuel (Some c) g o r true = Some (Some c', ret).

Lemma find_loop_mono N cmp key fuel fuel' id r :
  find_loop fuel N cmp key id = Some r -> (fuel <= fuel')%nat ->
  find_loop fuel' N cmp key id = Some r.
Proof.
  revert fuel' id. induction fuel as [|fuel IH]; intros fuel' id; [done|].
  intros E Hle. destruct fuel' as [|fuel']; [lia|]. rewrite find_loop_S in E |- *.
  repeat case_decide; try done. apply (IH fuel'); [done|lia].
Qed.

(** More fuel does not change a finished request. *)
Lemma try_map_mono fuel fuel' conf g o r b res :
  tuple_try_map_new_rule fuel conf g o r b = Some res -> (fuel <= fuel')%nat ->
  tuple_try_map_new_rule fuel' conf g o r b = Some res.
Proof.
  intros E Hle. unfold tuple_try_map_new_rule in *.
  destruct conf as [c|]; [|done]. destruct (invalid_group g); [done|].
  destruct (invalid_outer o); [done|]. destruct r as [r|]; [|done].
  destruct (_ && _); [done|]. case_decide; [done|]. cbv zeta in *.
  apply obind_Some in E as (found & Ef & E). apply obind_Some. exists found. split; [|done].
  clear E. revert Ef. unfold tuple_hash_find_actual, acl_hash_find.
  destruct (copy_tuple_cfg_to_tuple _ _ _). repeat (case_decide; [done|]).
  intros Ef. by eapply find_loop_mono.
Qed.

Lemma post_rel_inv c c' : post_inv c -> post_rel c c' -> post_inv c'.
Proof.
  intros Hi (fuel & g & o & r & ret & E).
  destruct (post_step (fuel + 2049) c g o r Hi ltac:(lia)) as (conf' & ret' & E' & c1 & -> & Hi1).
  apply (try_map_mono _ (fuel + 2049)) in E; [|lia]. rewrite E in E'. by simplify_eq.
Qed.

Lemma post_reach_inv c : reach (fun c => c = conf_zero) post_rel c -> post_inv c.
Proof.
  apply reach_invariant; [intros c' ->; apply post_inv_zero|apply post_rel_inv].
Qed.

(** A configured outer id names a slot that is on. *)
Lemma store_slot c o v k :
  acl_inv c -> store c o = Some (v, k) -> exists id,
    slot_on (table_of c v) id /\ slot_cfg (table_of c v) id = k /\
    outer_rule_id (slot_map (table_of c v) id) = o.
Proof.
  intros Hi Hs. destruct (invalid_outer o) eqn:Ho;
    [unfold store in Hs; by rewrite Ho in Hs|]. apply invalid_outer_false in Ho.
  destruct (ai_type _ Hi o Ho) as [E|[v' E]].
  - rewrite store_none in Hs by (by left). done.
  - rewrite (store_ty _ _ _ Ho E) in Hs. injection Hs as -> Hk.
    destruct (ti_fwd _ _ _ (ai_table _ Hi v) o Ho E) as [Hid Hm].
    eexists. split_and!; [split; [exact Hid|]|exact Hk|]; by rewrite Hm.
Qed.

Lemma post_inv_unique c o o' v k :
  post_inv c -> store c o = Some (v, k) -> store c o' = Some (v, k) -> o = o'.
Proof.
  intros [Hi [ls Hls]] Hs1 Hs2.
  destruct (store_slot _ _ _ _ Hi Hs1) as (id & Hon & Hk & Ho).
  destruct (store_slot _ _ _ _ Hi Hs2) as (id' & Hon' & Hk' & Ho').
  rewrite <- Ho, <- Ho'. do 2 f_equal. apply (tc_uniq _ _ _ (Hls v)); [done|done|congruence].
Qed.

(** As long as rules are only created, no two outer ids hold the same
    rule. *)
Theorem post_only_unique c o o' :
  reach (fun c => c = conf_zero) post_rel c -> o <> o' ->
  store c o = store c o' -> store c o = None.
Proof.
  intros Hr Hne E. destruct (store c o) as [[v k]|] eqn:Es; [|done]. destruct Hne.
  apply post_reach_inv in Hr. by eapply post_inv_unique.
Qed.

(** A create request whose search hits a configured slot. *)
Lemma try_map_hit fuel c o id r k :
  acl_inv c -> valid_outer o -> store c o = None -> cfg_of r = Some k ->
  tuple_hash_find_actual fuel c r = Some id -> slot_on (table_of c (is_ipv6 r)) id ->
  outer_rule_id (slot_map (table_of c (is_ipv6 r)) id) <> o ->
  tuple_try_map_new_rule fuel (Some c) 1 o (Some r) true
  = Some (Some c, outer_rule_id (slot_map (table_of c (is_ipv6 r)) id)).
Proof.
  intros Hi Ho Hn Hk Ef [Hid Hv] Hne. unfold tuple_try_map_new_rule.
  change (invalid_group 1) with false. apply invalid_outer_false in Ho as Ho'. rewrite Ho'.
  cbn [acl_get_rule_map_type]. change (invalid_group 1) with false. rewrite Ho'.
  destruct (true && _) eqn:Et.
  { apply Z.ltb_lt in Et. by apply store_some_ty in Hn. }
  unfold cfg_of in Hk. case_decide as Hchk; [|done].
  rewrite decide_False by tauto. cbv zeta. rewrite Ef. cbn [obind].
  rewrite (wrap_small 32) by (unfold valid_slot in Hid; lia).
  rewrite decide_False by (unfold valid_slot in Hid; lia). unfold tuple_hash_find_outer.
  rewrite (decide_True (P := id <> 0)) by (unfold valid_slot in Hid; lia).
  fold (slot_map (table_of c (is_ipv6 r)) id). rewrite Hv.
  destruct (ti_bwd _ _ _ (ai_table _ Hi _) id Hid Hv) as [Hd _].
  rewrite decide_True by (unfold valid_outer in Hd; lia). by rewrite decide_False.
Qed.

End post_only.

(** ** Deleting a rule and creating it again *)

Section readd.
Context `{ByteHash} `{InetLaws}.

(** What deleting a configured id does to the tables. *)
Lemma delete_eq c o v id no_check :
  valid_outer o -> valid_slot id -> (rule_map c).[o - 1] = mk_rule_map (rule_ty v) id ->
  let t := table_of c v in
  let BN := acl_hash_free (tuple_hash_bucket t) TUPLE_RULE_HASH_BUCKET_CNT (tuple_hash_node t)
              (cfg_bytes v (slot_cfg t id)) id in
  acl_delete_old_map (Some c) 1 o no_check =
  (Some (with_rule_map (rule_map c).[o - 1 <- zeroed]
     (with_table v (mk_table (bitmap_unset (tuple_rule_bitmap t) id) (fst BN) (snd BN)
        (tuple_rules t).[id - 1 <- mk_rule map_rule_zero (slot_cfg t id)]) c)), 0).
Proof.
  intros Ho Hid E t BN. apply invalid_outer_false in Ho as Ho'. apply invalid_actual_false in Hid as Hid'.
  unfold acl_delete_old_map, tuple_delete_old_map. rewrite Ho', E. cbn [rule_type actual_rule_id].
  change (invalid_group 1) with false. rewrite Hid'.
  unfold tuple_hash_free, tuple_bitmap_unset_used_flag. cbv zeta. rewrite !table_of_with_table_eq.
  cbn [with_rules with_hash with_bitmap tuple_rules tuple_rule_bitmap tuple_hash_bucket tuple_hash_node].
  rewrite !aget_aset_eq. cbn [rule_cfg set_map_rule]. unfold BN, t, slot_cfg.
  destruct (decide (rule_ty v = ACL_RULE_TYPE_TUPLE4)) as [e|e];
    [|destruct (decide (rule_ty v = ACL_RULE_TYPE_TUPLE6)) as [e'|e']]; destruct v; try discriminate; try (by destruct e);
    try (by destruct e'); reflexivity.
Qed.

(** A comparison with a slot's bytes succeeds when the slot holds the configuration. *)
Lemma cfg_cmp_0 v t x k : cfg_wf v k -> cfg_wf v (slot_cfg t x) ->
  tuple_rule_cfg_cmp v t x (cfg_bytes v k) = 0 <-> slot_cfg t x = k.
Proof.
  intros Hk Hx. unfold tuple_rule_cfg_cmp. rewrite memcmp_0. fold (slot_cfg t x).
  split; [intros E; symmetry; by eapply cfg_bytes_inj|by intros ->].
Qed.

Lemma find_actual_eq fuel c r k : cfg_of r = Some k ->
  tuple_hash_find_actual fuel c r =
  let v := is_ipv6 r in let t := table_of c v in
  acl_hash_find fuel (tuple_hash_bucket t) TUPLE_RULE_HASH_BUCKET_CNT (tuple_hash_node t) (cfg_bytes v k) (tuple_rule_cfg_cmp v t).
Proof.
  unfold cfg_of. case_decide as Hc; [|done]. intros [= Hk]. unfold tuple_hash_find_actual.
  destruct (check_copy r cfg_zero Hc) as [E _]. rewrite Hk in E. rewrite E. by rewrite decide_False by lia.
Qed.

(** The first rule of a list that holds [k], when one slot does. *)
Lemma first_holding v t k id (l : list Z) :
  cfg_wf v k -> (forall x, cfg_wf v (slot_cfg t x)) -> id ∈ l -> (forall x, x ∈ l -> 0 < x) ->
  slot_cfg t id = k -> (forall x, x ∈ l -> slot_cfg t x = k -> x = id) ->
  first_such (fun x => bool_decide (tuple_rule_cfg_cmp v t x (cfg_bytes v k) = 0)) l = id.
Proof.
  intros Hk Ht Hin Hpos Hc Hu.
  assert (Hnz : first_such (fun x => bool_decide (tuple_rule_cfg_cmp v t x (cfg_bytes v k) = 0)) l <> 0).
  { apply (first_such_hit _ _ id); [done|by apply bool_decide_eq_true_2, cfg_cmp_0|].
    intros y Hy. specialize (Hpos y Hy). lia. }
  destruct (first_such_in _ _ _ eq_refl Hnz) as [Hx Hm]. apply bool_decide_eq_true_1, cfg_cmp_0 in Hm; auto.
Qed.

(** A configured rule, its slot and its place in its bucket. *)
Lemma stored_place c ls o v k :
  acl_inv c -> (forall v, table_complete v (table_of c v) (ls v)) -> store c o = Some (v, k) ->
  let t := table_of c v in let id := actual_rule_id (rule_map c).[o - 1] in
  valid_outer o /\ valid_slot id /\ (rule_map c).[o - 1] = mk_rule_map (rule_ty v) id /\
  slot_on t id /\ slot_cfg t id = k /\ id ∈ ls v (acl_hash_index (cfg_bytes v k) TUPLE_RULE_HASH_BUCKET_CNT).
Proof.
  intros Hi Hls Hs t id. destruct (invalid_outer o) eqn:Ho; [unfold store in Hs; by rewrite Ho in Hs|].
  apply invalid_outer_false in Ho. destruct (ai_type _ Hi o Ho) as [E|[v' E]]; [by rewrite store_none in Hs by (by left)|].
  rewrite (store_ty _ _ _ Ho E) in Hs. injection Hs as -> Hk. fold t id in Hk.
  destruct (ti_fwd _ _ _ (ai_table _ Hi v) o Ho E) as [Hid Hm]. fold t id in Hid, Hm.
  assert (Hon : slot_on t id) by (split; [done|by rewrite Hm]).
  split_and!; [done..| |done|done|].
  - rewrite <- E. unfold id. by destruct (rule_map c).[o - 1].
  - pose proof (tc_all _ _ _ (Hls v) id Hon) as Hin. unfold slot_bucket in Hin. by fold t in Hin; rewrite Hk in Hin.
Qed.

(** An element of a chain that is not its head has one before it. *)
Lemma chain_not_head N h l id : chain N 0 h l -> id ∈ l -> h <> id -> exists l1 p l2, l = l1 ++ p :: id :: l2.
Proof.
  intros Hc [l1 [l2 ->]]%list_elem_of_split Hne. destruct l1 as [|x l1] using rev_ind; [by destruct Hc as [-> _]|].
  exists l1, x, l2. by rewrite <- app_assoc.
Qed.

Section one_rule.
Context (c : SF_CONF_T) (ls : bool -> Z -> list Z) (o id : Z) (v : bool) (k : tuple_cfg) (l1 : list Z) (p : Z) (l2 : list Z).
Let t := table_of c v.
Let h := acl_hash_index (cfg_bytes v k) TUPLE_RULE_HASH_BUCKET_CNT.
Context (Hi : acl_inv c) (Hls : forall v, table_complete v (table_of c v) (ls v)) (Hon : slot_on t id)
  (Hk : slot_cfg t id = k) (El : ls v h = l1 ++ p :: id :: l2).

Let BN := acl_hash_free (tuple_hash_bucket t) TUPLE_RULE_HASH_BUCKET_CNT (tuple_hash_node t) (cfg_bytes v k) id.
Let BN' := acl_hash_insert (fst BN) TUPLE_RULE_HASH_BUCKET_CNT (snd BN) (cfg_bytes v k) id.

(** The rules of a table with the same configurations in its slots. *)
Lemma same_cmp t' x k' : (forall x, slot_cfg t' x = slot_cfg t x) -> cfg_wf v k' ->
  tuple_rule_cfg_cmp v t' x (cfg_bytes v k') = 0 <-> slot_cfg t x = k'.
Proof. intros E Hk'. rewrite <- E. apply cfg_cmp_0; [done|]. rewrite E. apply (ti_cfg _ _ _ (ai_table _ Hi v)). Qed.

Lemma deleted_still_found t' : (forall x, slot_cfg t' x = slot_cfg t x) -> cfg_wf v k ->
  acl_hash_find 2049 (fst BN) TUPLE_RULE_HASH_BUCKET_CNT (snd BN) (cfg_bytes v k) (tuple_rule_cfg_cmp v t') = Some id.
Proof.
  intros Et Hwf. pose proof (acl_hash_free_inner_find _ _ _ (cfg_bytes v k) TUPLE_RULE_HASH_BUCKET_CNT id l1 p l2
    (cfg_bytes v k) (tuple_rule_cfg_cmp v t') 2049 (tc_repr _ _ _ (Hls v)) El eq_refl) as E.
  fold t in E. unfold BN. destruct (acl_hash_free _ _ _ _ _) as [B N]. cbn [fst snd]. rewrite E.
  2: { pose proof (bucket_length _ _ _ h (Hls v)). fold h. lia. }
  f_equal. fold h. assert (Hin : forall x, x ∈ ls v h -> slot_on t x) by (intros x Hx; by apply (tc_in _ _ _ (Hls v)) in Hx as [? _]).
  apply (first_holding v t' k id); [done| | | | |].
  - intros x. rewrite Et. apply (ti_cfg _ _ _ (ai_table _ Hi v)).
  - rewrite El. set_solver.
  - intros x Hx. destruct (Hin x Hx) as [Hv _]. unfold valid_slot in Hv. lia.
  - by rewrite Et.
  - intros x Hx Ex. rewrite Et in Ex. apply (tc_uniq _ _ _ (Hls v)); [by apply Hin|done|]. by fold t; rewrite Ex.
Qed.

Lemma readded_circles t' k' fuel : (forall x, slot_cfg t' x = slot_cfg t x) -> cfg_wf v k' ->
  acl_hash_index (cfg_bytes v k') TUPLE_RULE_HASH_BUCKET_CNT = h -> (forall x, slot_on t x -> slot_cfg t x <> k') ->
  acl_hash_find fuel (fst BN') TUPLE_RULE_HASH_BUCKET_CNT (snd BN') (cfg_bytes v k') (tuple_rule_cfg_cmp v t') = None.
Proof.
  intros Et Hwf Eh Hnew. pose proof (acl_hash_readd_cycle _ _ _ (cfg_bytes v k) TUPLE_RULE_HASH_BUCKET_CNT id l1 p l2
    (cfg_bytes v k') (tuple_rule_cfg_cmp v t') fuel (tc_repr _ _ _ (Hls v)) El) as E.
  revert E. fold t. unfold BN', BN. destruct (acl_hash_free _ _ _ _ _) as [B N]. cbn [fst snd].
  destruct (acl_hash_insert _ _ _ _ _) as [B' N']. cbn [fst snd]. intros E. apply E; [|exact Eh|].
  - destruct Hon as [Hv _]. unfold valid_slot in Hv. lia.
  - intros x Hx. rewrite (same_cmp t' x k' Et Hwf). apply Hnew.
    assert (x ∈ ls v h) as Hx' by (rewrite El; set_solver). by apply (tc_in _ _ _ (Hls v)) in Hx' as [? _].
Qed.
End one_rule.

(** A create request whose search finds a slot that no id names takes that slot. *)
Lemma try_map_reuses_slot fuel c o r id :
  valid_outer o -> rule_type (rule_map c).[o - 1] = 0 -> check_tuple_rule_cfg (Some r) = 0 ->
  tuple_hash_find_actual fuel c r = Some id -> valid_slot id -> slot_map (table_of c (is_ipv6 r)) id = map_rule_zero ->
  tuple_try_map_new_rule fuel (Some c) 1 o (Some r) true = Some (tuple_commit_rule c 1 o id (is_ipv6 r) true).
Proof.
  intros Ho Hrm Hchk Ef Hid Hm. unfold tuple_try_map_new_rule. change (invalid_group 1) with false.
  apply invalid_outer_false in Ho as Ho'. rewrite Ho'.
  cbn [acl_get_rule_map_type]. change (invalid_group 1) with false. rewrite Ho', Hrm. cbn [andb Z.ltb Z.compare].
  rewrite decide_False by tauto. cbv zeta. rewrite Ef. cbn [obind].
  unfold valid_slot in Hid. rewrite (wrap_small 32) by lia. rewrite decide_False by lia.
  unfold tuple_hash_find_outer. rewrite (decide_True (P := id <> 0)) by lia. fold (slot_map (table_of c (is_ipv6 r)) id).
  by rewrite Hm, decide_False by done.
Qed.

(** Writing a slot without changing its configuration. *)
Lemma slot_cfg_same bm B N t id m k x : slot_cfg t id = k ->
  slot_cfg (mk_table bm B N (tuple_rules t).[id - 1 <- mk_rule m k]) x = slot_cfg t x.
Proof.
  intros <-. unfold slot_cfg. cbn [tuple_rules]. rewrite aget_aset. case_decide as E; [|done]. by rewrite <- E.
Qed.

Lemma delete_and_readd c o r k :
  post_inv c -> cfg_of r = Some k -> store c o = Some (is_ipv6 r, k) ->
  let v := is_ipv6 r in
  hash_next_rule (tuple_hash_bucket (table_of c v)).[acl_hash_index (cfg_bytes v k) TUPLE_RULE_HASH_BUCKET_CNT]
    <> actual_rule_id (rule_map c).[o - 1] ->
  exists c1 c2, acl_delete_old_map (Some c) 1 o false = (Some c1, 0) /\
    tuple_try_map_new_rule 2049 (Some c1) 1 o (Some r) true = Some (Some c2, 0) /\
    acl_inv c2 /\ (forall o', store c2 o' = store c o') /\
    forall fuel r' k', cfg_of r' = Some k' -> is_ipv6 r' = v ->
      acl_hash_index (cfg_bytes v k') TUPLE_RULE_HASH_BUCKET_CNT = acl_hash_index (cfg_bytes v k) TUPLE_RULE_HASH_BUCKET_CNT ->
      (forall o', store c o' <> Some (v, k')) -> tuple_hash_find_actual fuel c2 r' = None.
Proof.
  intros [Hi [ls Hls]] Hk Hs v Hhead. destruct (stored_place c ls o v k Hi Hls Hs) as (Ho & Hid & Erm & Hon & Hsk & Hin).
  set (t := table_of c v) in *. set (h := acl_hash_index _ _) in *. set (id := actual_rule_id _) in *.
  destruct (chain_not_head _ _ _ _ (hr_chain _ _ _ (tc_repr _ _ _ (Hls v)) h) Hin Hhead) as (l1 & p & l2 & El).
  pose proof (cfg_of_wf r k Hk) as Hwf. fold v in Hwf.
  pose proof (delete_eq c o v id false Ho Hid Erm) as Ed. cbv zeta in Ed. fold t in Ed. rewrite Hsk in Ed.
  destruct (proj2 (delete_refines c o false Hi Ho)) as (c1 & Ed' & Hi1 & Hn1 & Hst1); [left; by rewrite Hs|].
  rewrite Ed in Ed'. injection Ed' as Ec1. set (BN := acl_hash_free _ _ _ _ _) in *.
  set (t1 := mk_table (bitmap_unset (tuple_rule_bitmap t) id) (fst BN) (snd BN) (tuple_rules t).[id - 1 <- mk_rule map_rule_zero k]) in *.
  assert (Et1 : table_of c1 v = t1) by (rewrite <- Ec1, table_of_with_rule_map; apply table_of_with_table_eq).
  assert (Hc1 : forall x, slot_cfg t1 x = slot_cfg t x) by (intros x; by apply slot_cfg_same).
  assert (Hm1 : slot_map t1 id = map_rule_zero) by (unfold slot_map, t1; cbn [tuple_rules]; by rewrite aget_aset_eq).
  assert (Hrm1 : rule_type (rule_map c1).[o - 1] = 0) by (rewrite <- Ec1; cbn [with_rule_map rule_map]; by rewrite aget_aset_eq).
  assert (Ef : tuple_hash_find_actual 2049 c1 r = Some id).
  { rewrite (find_actual_eq 2049 c1 r k Hk). fold v. cbv zeta. rewrite Et1.
    exact (deleted_still_found c ls id v k l1 p l2 Hi Hls Hon Hsk El t1 Hc1 Hwf). }
  destruct (commit_spec c1 o id v true Hi1 Ho Hid) as (c2 & Ecm & Hi2 & Hs2 & Hs2'); [by rewrite Et1, Hm1|done|].
  rewrite Et1, Hc1, Hsk in Hs2. exists c1, c2. split; [by rewrite Ed, Ec1|].
  assert (Hchk : check_tuple_rule_cfg (Some r) = 0) by (unfold cfg_of in Hk; by case_decide).
  split; [rewrite (try_map_reuses_slot 2049 c1 o r id) by (done || (fold v; by rewrite Et1)); fold v; by rewrite Ecm|]. split; [done|]. split.
  { intros o'. destruct (decide (o' = o)) as [->|Hne]; [by rewrite Hs2, Hs|]. by rewrite Hs2', Hst1. }
  intros fuel r' k' Hk' Ev Eh Hnew. rewrite (find_actual_eq fuel c2 r' k' Hk'). rewrite Ev. cbv zeta.
  rewrite (commit_post_eq c1 o id v Ho Hid) in Ecm. cbv zeta in Ecm. rewrite Et1, Hc1, Hsk in Ecm.
  apply (f_equal fst) in Ecm. cbn [fst] in Ecm. apply (inj Some) in Ecm. rewrite <- Ecm.
  rewrite table_of_with_table_eq. cbn [tuple_hash_bucket tuple_hash_node].
  apply (readded_circles c ls id v k l1 p l2 Hi Hls Hon Hsk El).
  - intros x. rewrite slot_cfg_same; [apply Hc1|by rewrite Hc1].
  - rewrite <- Ev. by apply cfg_of_wf.
  - exact Eh.
  - intros x [Hv Hu] Ex. destruct (ti_bwd _ _ _ (ai_table _ Hi v) x Hv Hu) as [Hd E].
    apply (Hnew (outer_rule_id (slot_map (table_of c v) x))). rewrite (store_ty c _ v Hd) by (by rewrite E). rewrite E. cbn [actual_rule_id].
    by rewrite Ex.
Qed.

End readd.
