(* ===== verification/AclDemo.v ===== *)
(** * The ACL library on concrete rules

    Concrete instances of the parameters of the ACL model: the library's own
    CRC as the hash, and an address text that is just the address.  They
    discharge the hypotheses of the general theorems and run the operations on
    rules whose configurations share a hash bucket. *)
From S2P Require Import Prelude Crc32 AclHash AclTuple AclBitmap AclStore AclApi AclDup.

#[export] Instance crc_hash : ByteHash := sf_crc32_gen.

#[export] Instance raw_inet : Inet := {|
  inet_pton v6 s := match s with
                    | [a] => if decide (0 <= a < 2 ^ addr_bits v6) then Some a else None
                    | _ => None
                    end;
  inet_ntop v6 a := [a]
|}.

#[export] Instance raw_inet_laws : InetLaws.
Proof.
  split.
  - intros v6 s a. cbn. destruct s as [|b [|? ?]]; [done| |done].
    case_decide; [|done]. by intros [= <-].
  - intros v6 a Ha. cbn. by rewrite decide_True.
Qed.

(** TCP from 10.0.0.0/8 and one source port, to anywhere. *)
Definition demo_rule (port : Z) : sf_tuple_rule_cfg_t :=
  mk_user_cfg 0 port port 0 65535 6 6 [10 * 2 ^ 24] 8 [0] 0.

Definition demo_post (o port : Z) (c : option SF_CONF_T) : option SF_CONF_T :=
  match c with
  | None => None
  | Some c =>
      match tuple_try_map_new_rule 2049 (Some c) 1 o (Some (demo_rule port)) true with
      | Some (Some c', 0) => Some c'
      | _ => None
      end
  end.

Definition demo_delete (o : Z) (c : option SF_CONF_T) : option SF_CONF_T :=
  match acl_delete_old_map c 1 o false with
  | (c', 0) => c'
  | _ => None
  end.

(** Two rules of one bucket; the second is at the bucket's head. *)
Definition demo_two : option SF_CONF_T := demo_post 2 299 (demo_post 1 125 (Some conf_zero)).

Example demo_two_reachable : exists c,
  demo_two = Some c /\ tuple_try_map_new_rule 2049 (Some c) 1 3 (Some (demo_rule 125)) true
                       = Some (Some c, 1).
Proof. eexists. split; [vm_compute; reflexivity|vm_compute; reflexivity]. Qed.

(** Deleting the rule at the head of its hash bucket makes the library
    forget the other rules of the bucket: a duplicate of a configured rule is
    then accepted. *)
Theorem delete_allows_duplicate :
  exists c, demo_post 3 125 (demo_delete 2 demo_two) = Some c /\
    store c 1 = store c 3 /\ store c 1 <> None.
Proof.
  eexists. split; [vm_compute; reflexivity|].
  split; [vm_compute; reflexivity|vm_compute; discriminate].
Qed.

(** ** Witnesses of the general theorems *)

Definition demo_conf : SF_CONF_T := default conf_zero demo_two.

Lemma demo_post_rel c o port c' :
  demo_post o port (Some c) = Some c' -> post_rel c c'.
Proof.
  unfold demo_post. destruct (tuple_try_map_new_rule _ _ _ _ _ _) as [[[c1|] ret]|] eqn:E;
    [|done|done]. destruct ret; [|done|done]. intros [= <-].
  by exists 2049%nat, 1, o, (Some (demo_rule port)), 0.
Qed.

Lemma demo_conf_reach : reach (fun c => c = conf_zero) post_rel demo_conf.
Proof.
  eapply (reach_step _ _ (default conf_zero (demo_post 1 125 (Some conf_zero)))).
  - eapply reach_step; [by apply reach_init|]. apply (demo_post_rel _ 1 125).
    vm_compute. reflexivity.
  - apply (demo_post_rel _ 2 299). vm_compute. reflexivity.
Qed.

Lemma demo_conf_inv : acl_inv demo_conf.
Proof. apply (post_reach_inv _ demo_conf_reach). Qed.

Theorem try_map_refines_witness :
  exists c', try_map_outcome demo_conf 3 (demo_rule 7) true c' 0.
Proof.
  destruct (try_map_refines demo_conf 3 (demo_rule 7) true demo_conf_inv) as [(c' & ret & E & H)|(k & _ & _ & Hn)].
  - exists c'. assert (ret = 0) as <-; [|exact H]. vm_compute in E. by injection E.
  - specialize (Hn 2049%nat). vm_compute in Hn. discriminate.
Defined.

Theorem delete_refines_witness :
  exists c', acl_delete_old_map (Some demo_conf) 1 2 false = (Some c', 0) /\ acl_inv c' /\
    store c' 2 = None /\ forall o', o' <> 2 -> store c' o' = store demo_conf o'.
Proof.
  apply (delete_refines demo_conf 2 false).
  - apply demo_conf_inv.
  - unfold valid_outer. lia.
  - left. vm_compute. discriminate.
Defined.

Theorem put_get_roundtrip_witness :
  exists conf' k, cfg_of (demo_rule 7) = Some k /\
    get_tuple_rule_cfg conf' 1 3 = (0, Some (user_of (is_ipv6 (demo_rule 7)) k)) /\
    cfg_of (user_of (is_ipv6 (demo_rule 7)) k) = Some k.
Proof.
  eexists. apply (put_get_roundtrip 2049 demo_conf 3 (demo_rule 7) false).
  - apply demo_conf_inv.
  - vm_compute. reflexivity.
Defined.

Theorem reachable_inv_witness : acl_inv demo_conf.
Proof.
  apply (reachable_inv (Some demo_conf)); [|reflexivity].
  eapply (reach_step _ _ (Some (default conf_zero (demo_post 1 125 (Some conf_zero))))).
  - eapply reach_step; [apply reach_init; by right|].
    apply (st_map _ 2049 1 1 (Some (demo_rule 125)) true _ 0). vm_compute. reflexivity.
  - apply (st_map _ 2049 1 2 (Some (demo_rule 299)) true _ 0). vm_compute. reflexivity.
Defined.

Theorem used_cnt_counts_witness :
  tuple_bitmap_get_used_cnt demo_conf false = 2 /\
  Z.of_nat (length (filter (fun o => store_has demo_conf false o = true) (seqZ 1 4096))) = 2.
Proof.
  rewrite <- (used_cnt_counts demo_conf false demo_conf_inv). vm_compute. done.
Defined.

Theorem find_next_rule_spec_witness :
  let r := acl_sys_conf_find_next_rule (Some demo_conf) 1 1 in
  r = 2 /\
  ((r = 0 /\ forall o, 1 < o -> ~ configured demo_conf o) \/
   (1 < r <= 4096 /\ configured demo_conf r /\
    forall o, 1 < o < r -> ~ configured demo_conf o)).
Proof.
  split; [vm_compute; reflexivity|].
  apply (find_next_rule_spec demo_conf 1); [apply demo_conf_inv|lia].
Defined.

Theorem post_only_unique_witness : store demo_conf 3 = None.
Proof.
  apply (post_only_unique demo_conf 3 4); [apply demo_conf_reach|lia|].
  vm_compute. reflexivity.
Defined.


(** No id holds the rule of port 512. *)
Lemma demo_no_512 o : store demo_conf o <> Some (false, mk_cfg 512 512 0 65535 6 6 8 0 (10 * 2 ^ 24) 0).
Proof.
  intros Hs. destruct (decide (o = 1)) as [->|H1]; [vm_compute in Hs; discriminate|].
  destruct (decide (o = 2)) as [->|H2]; [vm_compute in Hs; discriminate|].
  assert (E : rule_map demo_conf = (∅ : gmap Z sf_rule_map_t).[0 <- mk_rule_map 1 1].[1 <- mk_rule_map 1 2]) by (vm_compute; reflexivity).
  assert (E0 : store demo_conf o = None) by (apply store_none; left; by rewrite E, !aget_aset_ne, aget_empty by lia).
  revert Hs. rewrite E0. discriminate.
Qed.

