(* ===== verification/AclRte.v ===== *)
(** * From the rule store to the packet classifier

    Models [src/acl/other/acl_tuple_sync.c] and [acl_sync_process.c]: every
    configured rule becomes a rule of the DPDK ACL library (an IPv6 prefix is
    split over four 32-bit fields), a new table is built under the name the
    running one does not use, and the pointers are swapped.  The DPDK library is
    a parameter, [RteAcl], with its documented behaviour in [RteAclLaws]. *)
From S2P Require Import Prelude AclHash AclTuple AclBitmap AclStore.

(** ** Fields (src/acl/include/acl_rte_def.h) *)

Definition PROTO_FIELD_IPV46 : Z := 0.
Definition SIP1_FIELD_IPV46 : Z := 1.
Definition SIP2_FIELD_IPV46 : Z := 2.
Definition SIP3_FIELD_IPV46 : Z := 3.
Definition SIP4_FIELD_IPV46 : Z := 4.
Definition DIP1_FIELD_IPV46 : Z := 5.
Definition DIP2_FIELD_IPV46 : Z := 6.
Definition DIP3_FIELD_IPV46 : Z := 7.
Definition DIP4_FIELD_IPV46 : Z := 8.
Definition SPORT_FIELD_IPV46 : Z := 9.
Definition DPORT_FIELD_IPV46 : Z := 10.

(** What a field's offset points at in the packet's decode record. *)
Inductive wdata_member :=
| WD_protocol
| WD_sip (word : Z)
| WD_dip (word : Z)
| WD_sport
| WD_dport.

(** A packet, as the classifier reads it: members in network order. *)
Definition packet := wdata_member -> Z.

Inductive rte_acl_field_type := RTE_ACL_FIELD_TYPE_MASK | RTE_ACL_FIELD_TYPE_RANGE.

Record rte_acl_field_def := mk_def {
  fd_type : rte_acl_field_type;
  fd_size : Z;
  fd_field_index : Z;
  fd_input_index : Z;
  fd_offset : wdata_member
}.

Definition acl_rte_ipv46_defs : list rte_acl_field_def := [
  mk_def RTE_ACL_FIELD_TYPE_RANGE 1 PROTO_FIELD_IPV46 PROTO_FIELD_IPV46 WD_protocol;
  mk_def RTE_ACL_FIELD_TYPE_MASK 4 SIP1_FIELD_IPV46 SIP1_FIELD_IPV46 (WD_sip 0);
  mk_def RTE_ACL_FIELD_TYPE_MASK 4 SIP2_FIELD_IPV46 SIP2_FIELD_IPV46 (WD_sip 1);
  mk_def RTE_ACL_FIELD_TYPE_MASK 4 SIP3_FIELD_IPV46 SIP3_FIELD_IPV46 (WD_sip 2);
  mk_def RTE_ACL_FIELD_TYPE_MASK 4 SIP4_FIELD_IPV46 SIP4_FIELD_IPV46 (WD_sip 3);
  mk_def RTE_ACL_FIELD_TYPE_MASK 4 DIP1_FIELD_IPV46 DIP1_FIELD_IPV46 (WD_dip 0);
  mk_def RTE_ACL_FIELD_TYPE_MASK 4 DIP2_FIELD_IPV46 DIP2_FIELD_IPV46 (WD_dip 1);
  mk_def RTE_ACL_FIELD_TYPE_MASK 4 DIP3_FIELD_IPV46 DIP3_FIELD_IPV46 (WD_dip 2);
  mk_def RTE_ACL_FIELD_TYPE_MASK 4 DIP4_FIELD_IPV46 DIP4_FIELD_IPV46 (WD_dip 3);
  mk_def RTE_ACL_FIELD_TYPE_RANGE 2 SPORT_FIELD_IPV46 SPORT_FIELD_IPV46 WD_sport;
  mk_def RTE_ACL_FIELD_TYPE_RANGE 2 DPORT_FIELD_IPV46 SPORT_FIELD_IPV46 WD_dport
].

Record rte_acl_field := mk_field { value : Z; mask_range : Z }.
#[export] Instance zeroed_field : Zeroed rte_acl_field := mk_field 0 0.

Record acl46_rule_cfg := mk_rte_rule {
  category_mask : Z;
  priority : Z;
  userdata : Z;
  field : gmap Z rte_acl_field
}.

(** ** Translation of a rule *)

(** The proto and port ranges both families share. *)
Definition trans_ranges (k : tuple_cfg) : gmap Z rte_acl_field :=
  (∅ : gmap Z rte_acl_field)
    .[PROTO_FIELD_IPV46 <- mk_field (proto_min k) (proto_max k)]
    .[SPORT_FIELD_IPV46 <- mk_field (sport_min k) (sport_max k)]
    .[DPORT_FIELD_IPV46 <- mk_field (dport_min k) (dport_max k)].

Definition trans_shm_to_rte_tuple4 (k : tuple_cfg) : gmap Z rte_acl_field :=
  (trans_ranges k)
    .[SIP1_FIELD_IPV46 <- mk_field (sip k) (sip_mask k)]
    .[DIP1_FIELD_IPV46 <- mk_field (dip k) (dip_mask k)]
    .[SIP2_FIELD_IPV46 <- mk_field 0 32]
    .[SIP3_FIELD_IPV46 <- mk_field 0 32]
    .[SIP4_FIELD_IPV46 <- mk_field 0 32]
    .[DIP2_FIELD_IPV46 <- mk_field 0 32]
    .[DIP3_FIELD_IPV46 <- mk_field 0 32]
    .[DIP4_FIELD_IPV46 <- mk_field 0 32].

(** [clib_net_to_host_u32(addr[i])]: the [i]-th 32-bit word of an address. *)
Definition addr_word (a i : Z) : Z := u32 (Z.shiftr a (96 - 32 * i)).

Definition mask_sub (mask : Z) : Z := if decide (32 < mask) then u8 (mask - 32) else 0.
Definition mask_get (mask : Z) : Z := if decide (32 < mask) then 32 else mask.

Definition trans_shm_to_rte_tuple6 (k : tuple_cfg) : gmap Z rte_acl_field :=
  let sm1 := sip_mask k in let sm2 := mask_sub sm1 in
  let sm3 := mask_sub sm2 in let sm4 := mask_sub sm3 in
  let dm1 := dip_mask k in let dm2 := mask_sub dm1 in
  let dm3 := mask_sub dm2 in let dm4 := mask_sub dm3 in
  (trans_ranges k)
    .[SIP1_FIELD_IPV46 <- mk_field (addr_word (sip k) 0) (mask_get sm1)]
    .[SIP2_FIELD_IPV46 <- mk_field (addr_word (sip k) 1) (mask_get sm2)]
    .[SIP3_FIELD_IPV46 <- mk_field (addr_word (sip k) 2) (mask_get sm3)]
    .[SIP4_FIELD_IPV46 <- mk_field (addr_word (sip k) 3) (mask_get sm4)]
    .[DIP1_FIELD_IPV46 <- mk_field (addr_word (dip k) 0) (mask_get dm1)]
    .[DIP2_FIELD_IPV46 <- mk_field (addr_word (dip k) 1) (mask_get dm2)]
    .[DIP3_FIELD_IPV46 <- mk_field (addr_word (dip k) 2) (mask_get dm3)]
    .[DIP4_FIELD_IPV46 <- mk_field (addr_word (dip k) 3) (mask_get dm4)].

Definition sf_rte_rule_priority (rule_id : Z) : Z := 0xFFFFFF - rule_id.

Definition rte_rule_of (v6 : bool) (k : tuple_cfg) (outer : Z) : acl46_rule_cfg :=
  mk_rte_rule 1 (sf_rte_rule_priority outer) outer
    (if v6 then trans_shm_to_rte_tuple6 k else trans_shm_to_rte_tuple4 k).

(** ** The DPDK library *)

(** Documented matching: a range field holds its bounds, a mask field an
    address and the number of its leading bits that count. *)
Definition field_match (d : rte_acl_field_def) (f : rte_acl_field) (p : packet) : bool :=
  let x := p (fd_offset d) in
  match fd_type d with
  | RTE_ACL_FIELD_TYPE_RANGE => (value f <=? x) && (x <=? mask_range f)
  | RTE_ACL_FIELD_TYPE_MASK =>
      Z.shiftr x (8 * fd_size d - mask_range f) =? Z.shiftr (value f) (8 * fd_size d - mask_range f)
  end.

Definition rule_match (defs : list rte_acl_field_def) (r : acl46_rule_cfg) (p : packet) : bool :=
  forallb (fun d => field_match d (field r).[fd_field_index d] p) defs.

Fixpoint best_match (defs : list rte_acl_field_def) (rs : list acl46_rule_cfg) (p : packet) :
    option acl46_rule_cfg :=
  match rs with
  | [] => None
  | r :: rs =>
      if rule_match defs r p then
        match best_match defs rs p with
        | Some r' => if priority r <? priority r' then Some r' else Some r
        | None => Some r
        end
      else best_match defs rs p
  end.

(** The calls the program makes; a context is a pointer, 0 is NULL, and the
    library's memory is threaded through. *)
Class RteAcl := {
  rte_world : Type;
  rte_acl_create : Z -> rte_world -> rte_world * Z;
  rte_acl_set_ctx_classify : Z -> rte_world -> rte_world * Z;
  rte_acl_add_rules : Z -> acl46_rule_cfg -> rte_world -> rte_world * Z;
  rte_acl_build : Z -> list rte_acl_field_def -> rte_world -> rte_world * Z;
  rte_acl_free : Z -> rte_world -> rte_world;
  rte_acl_classify : Z -> packet -> rte_world -> Z
}.

(** A context as the documentation describes it. *)
Record rte_context := mk_context {
  cx_name : Z;
  cx_rules : list acl46_rule_cfg;
  cx_built : option (list rte_acl_field_def * list acl46_rule_cfg)
}.

Class RteAclLaws `{RteAcl} := {
  contexts : rte_world -> gmap Z rte_context;
  (* a context with the name already exists: it is returned; else a new one *)
  create_old w name p x : contexts w !! p = Some x -> cx_name x = name ->
    exists q y, rte_acl_create name w = (w, q) /\ contexts w !! q = Some y /\ cx_name y = name;
  create_new w name w' p : (forall q x, contexts w !! q = Some x -> cx_name x <> name) ->
    rte_acl_create name w = (w', p) ->
    if decide (p = 0) then contexts w' = contexts w
    else contexts w !! p = None /\ contexts w' = <[p := mk_context name [] None]> (contexts w);
  null_context w : contexts w !! 0 = None;
  set_classify w p w' ret : rte_acl_set_ctx_classify p w = (w', ret) -> contexts w' = contexts w;
  add_rules w p x r w' ret : contexts w !! p = Some x ->
    rte_acl_add_rules p r w = (w', ret) ->
    contexts w' = if decide (ret < 0) then contexts w
                  else <[p := mk_context (cx_name x) (cx_rules x ++ [r]) (cx_built x)]> (contexts w);
  build w p x defs w' ret : contexts w !! p = Some x -> rte_acl_build p defs w = (w', ret) ->
    contexts w' = if decide (ret = 0)
                  then <[p := mk_context (cx_name x) (cx_rules x) (Some (defs, cx_rules x))]> (contexts w)
                  else contexts w;
  free w p : p <> 0 -> contexts (rte_acl_free p w) = delete p (contexts w);
  classify w p x defs rs pkt : contexts w !! p = Some x -> cx_built x = Some (defs, rs) ->
    rte_acl_classify p pkt w
    = match best_match defs rs pkt with Some r => userdata r | None => 0 end
}.

(** ** Building and swapping the table *)

Section sync.
Context `{RteAcl}.

(** One slot of [rte_acl_table_add_rules]. *)
Definition add_slot (v6 : bool) (t : tuple_table) (context idx : Z) (w : rte_world) :
    rte_world * option bool :=
  let rule := (tuple_rules t).[idx] in
  let outer := outer_rule_id (map_rule rule) in
  if outer_id_valid (map_rule rule) && negb (outer =? 0) then
    let '(w, ret) := rte_acl_add_rules context (rte_rule_of v6 (rule_cfg rule) outer) w in
    if decide (ret < 0) then (w, None) else (w, Some true)
  else (w, Some false).

(** The slot loop; [None] is the early [return -1]. *)
Fixpoint add_slots (n : nat) (v6 : bool) (t : tuple_table) (context idx rule_cnt : Z)
    (w : rte_world) : rte_world * option Z :=
  match n with
  | O => (w, Some rule_cnt)
  | S n =>
      let '(w, added) := add_slot v6 t context idx w in
      match added with
      | None => (w, None)
      | Some b => add_slots n v6 t context (idx + 1) (if b then rule_cnt + 1 else rule_cnt) w
      end
  end.

Definition rte_acl_table_add_rules (c : SF_CONF_T) (context : Z) (w : rte_world) :
    rte_world * Z :=
  let n := Z.to_nat MAX_TUPLE_RULE_PER_GROUP in
  let '(w, r) := add_slots n false (table_v4 c) context 0 0 w in
  match r with
  | None => (w, -1)
  | Some cnt =>
      let '(w, r) := add_slots n true (table_v6 c) context 0 cnt w in
      match r with None => (w, -1) | Some cnt => (w, cnt) end
  end.

Definition rte_acl_table_free (ctx : Z) (w : rte_world) : rte_world :=
  if decide (ctx = 0) then w else rte_acl_free ctx w.

(** [name] stands for the table name that [pre_table_name_model] selects; the
    result is the return code and [*ret_ctx]. *)
Definition rte_acl_table_setup (c : SF_CONF_T) (group_id name : Z) (w : rte_world) :
    rte_world * Z * Z :=
  if invalid_group group_id then (w, -2, 0)
  else
    let '(w, context) := rte_acl_create name w in
    if decide (context = 0) then (w, -1, 0)
    else
      let '(w, ret) := rte_acl_set_ctx_classify context w in
      if decide (ret <> 0) then (rte_acl_free context w, -1, 0)
      else
        let '(w, ret) := rte_acl_table_add_rules c context w in
        if decide (ret < 0) then (rte_acl_free context w, -1, 0)
        else if decide (ret = 0) then (rte_acl_table_free context w, 0, 0)
        else
          let '(w, ret) := rte_acl_build context acl_rte_ipv46_defs w in
          if decide (ret <> 0) then (rte_acl_free context w, -1, 0)
          else (w, 0, context).

(** [sf_acl_main.v46_context[0]], [pre_table_name_model[0]] and the library's
    memory. *)
Record acl_main := mk_acl_main {
  v46_context : Z;
  pre_table_name_model : Z;
  world : rte_world
}.

(** The body of [sync_rte_tuple_rules] for the one group; the wait for the
    workers ([sf_rte_table_sync]) changes no data. *)
Definition sync_rte_tuple_rules (c : SF_CONF_T) (m : acl_main) : acl_main * Z :=
  let '(w, ret, ctx) := rte_acl_table_setup c 1 (pre_table_name_model m) (world m) in
  if decide (ret <> 0) then (mk_acl_main (v46_context m) (pre_table_name_model m) w, -1)
  else
    let swap_context := v46_context m in
    let name := if decide (ctx <> 0)
                then (if decide (pre_table_name_model m = 0) then 1 else 0)
                else pre_table_name_model m in
    (mk_acl_main ctx name (rte_acl_table_free swap_context w), 0).

(** The classification step of the entry node: 0 when there is no table. *)
Definition acl_classify (m : acl_main) (p : packet) : Z :=
  if decide (v46_context m <> 0) then rte_acl_classify (v46_context m) p (world m) else 0.

(** *** The synchronisation process *)

Definition ACL_STILL_SYNC : Z := 3.
Definition ACL_NEED_SYNC : Z := 2.
Definition ACL_PREPARE_SYNC : Z := 1.
Definition ACL_SYNC_OK : Z := 0.
Definition ACL_SYNC_FAILED : Z := -2.

Definition set_sync_flag (f : Z) (c : SF_CONF_T) : SF_CONF_T :=
  mk_conf f (acl_sync_times c) (rule_map c) (table_v4 c) (table_v6 c).

(** One iteration of [acl_sync_process_fn] on a mapped configuration. *)
Definition acl_sync_process_step (c : SF_CONF_T) (m : acl_main) : SF_CONF_T * acl_main :=
  let c := if decide (acl_sync_flag c = ACL_STILL_SYNC)
           then set_sync_flag ACL_SYNC_FAILED c else c in
  if decide (acl_sync_flag c <> ACL_NEED_SYNC) then (c, m)
  else
    let c := set_sync_flag ACL_STILL_SYNC c in
    let '(m, ret) := sync_rte_tuple_rules c m in
    if decide (ret <> 0) then (set_sync_flag ACL_SYNC_FAILED c, m)
    else
      let c := set_sync_flag ACL_SYNC_OK c in
      (mk_conf (acl_sync_flag c) (Z.land (acl_sync_times c + 1) (2 ^ 31 - 1))
         (rule_map c) (table_v4 c) (table_v6 c), m).

End sync.

(** The flag functions of [sf_acl_api.c]. *)
Definition acl_get_sync_times (conf : option SF_CONF_T) : Z :=
  match conf with None => -1 | Some c => acl_sync_times c end.
Definition acl_get_sync_flag (conf : option SF_CONF_T) : Z :=
  match conf with None => -1 | Some c => acl_sync_flag c end.
Definition acl_set_sync_flag_need (conf : option SF_CONF_T) : option SF_CONF_T * Z :=
  match conf with
  | None => (conf, -1)
  | Some c => if decide (acl_sync_flag c <> ACL_STILL_SYNC)
              then (Some (set_sync_flag ACL_NEED_SYNC c), 0) else (conf, -1)
  end.
Definition acl_set_sync_flag_prepare (conf : option SF_CONF_T) : option SF_CONF_T * Z :=
  match conf with
  | None => (conf, -1)
  | Some c => if decide (acl_sync_flag c <= 0)
              then (Some (set_sync_flag ACL_PREPARE_SYNC c), 0) else (conf, -1)
  end.
Definition acl_set_sync_flag_fail (conf : option SF_CONF_T) : option SF_CONF_T * Z :=
  match conf with
  | None => (conf, -1)
  | Some c => (Some (set_sync_flag ACL_SYNC_FAILED c), 0)
  end.
