(* ===== verification/AclLookup.v ===== *)
(** * The classifier answers what the rule store means

    [lookup c p] is the specification: the smallest outer id whose rule matches
    the packet.  A successful synchronisation installs a table whose
    classification is [lookup]; a failed one leaves the running table as it
    was, and the two table names keep alternating. *)
From Stdlib Require Import Btauto.
From S2P Require Import Prelude Crc32 AclHash AclTuple AclBitmap AclStore AclApi AclDup AclDemo AclRte.

(** ** What a rule matches *)

Definition words_ok_pkt (p : packet) : Prop :=
  (forall i, 0 <= p (WD_sip i) < 2 ^ 32) /\ (forall i, 0 <= p (WD_dip i) < 2 ^ 32).

(** The 128-bit number four address words spell. *)
Definition join_words (w : Z -> Z) : Z :=
  Z.lor (Z.shiftl (w 0) 96) (Z.lor (Z.shiftl (w 1) 64) (Z.lor (Z.shiftl (w 2) 32) (w 3))).

(** The first [m] of [bits] address bits agree. *)
Definition prefix_eq (bits m a x : Z) : bool :=
  Z.shiftr x (bits - m) =? Z.shiftr a (bits - m).

Definition addr_match (v6 : bool) (m a : Z) (w : Z -> Z) : bool :=
  if v6 then prefix_eq 128 m a (join_words w)
  else prefix_eq 32 m a (w 0) && (w 1 =? 0) && (w 2 =? 0) && (w 3 =? 0).

Definition tuple_match (v6 : bool) (k : tuple_cfg) (p : packet) : bool :=
  in_range (p WD_protocol) (proto_min k) (proto_max k) &&
  in_range (p WD_sport) (sport_min k) (sport_max k) &&
  in_range (p WD_dport) (dport_min k) (dport_max k) &&
  addr_match v6 (sip_mask k) (sip k) (fun i => p (WD_sip i)) &&
  addr_match v6 (dip_mask k) (dip k) (fun i => p (WD_dip i)).

(** ** Splitting a prefix over four words *)

Lemma shiftr_eq_bits n x y : 0 <= n ->
  Z.shiftr x n = Z.shiftr y n <-> forall j, n <= j -> Z.testbit x j = Z.testbit y j.
Proof.
  intros Hn. split.
  - intros E j Hj. replace j with (j - n + n) by lia.
    by rewrite <- !Z.shiftr_spec, E by lia.
  - intros Hb. apply Z.bits_inj'. intros i Hi. rewrite !Z.shiftr_spec by done. apply Hb. lia.
Qed.

Lemma word_bit a i j : 0 <= j -> i <= 3 ->
  Z.testbit (addr_word a i) j = (j <? 32) && Z.testbit a (j + (96 - 32 * i)).
Proof.
  intros Hj Hi. unfold addr_word, wrap. destruct (Z.ltb_spec j 32).
  - rewrite Z.mod_pow2_bits_low, Z.shiftr_spec by lia. done.
  - by rewrite Z.mod_pow2_bits_high by lia.
Qed.

Lemma join_words_bit w j : (forall i, 0 <= w i < 2 ^ 32) -> 0 <= j < 128 ->
  Z.testbit (join_words w) j = Z.testbit (w (3 - j / 32)) (j mod 32).
Proof.
  intros Hw Hj. unfold join_words.
  pose proof (Z.div_mod j 32 ltac:(lia)). pose proof (Z.mod_pos_bound j 32 ltac:(lia)).
  assert (Hhi : forall i n, 32 <= n -> Z.testbit (w i) n = false)
    by (intros i n Hn; apply (testbit_high _ 32); auto).
  assert (Hlo : forall i n, n < 0 -> Z.testbit (w i) n = false)
    by (intros i n Hn; by apply Z.testbit_neg_r).
  rewrite !Z.lor_spec, !Z.shiftl_spec by lia.
  assert (0 <= j / 32 < 4) by (split; [apply Z.div_pos|apply Z.div_lt_upper_bound]; lia).
  set (q := j / 32) in *. set (s := j mod 32) in *.
  assert (q = 0 \/ q = 1 \/ q = 2 \/ q = 3) as [E|[E|[E|E]]] by lia; rewrite E in *.
  all: change (3 - 0) with 3; change (3 - 1) with 2; change (3 - 2) with 1; change (3 - 3) with 0.
  - rewrite (Hlo 0), (Hlo 1), (Hlo 2) by lia. cbn. f_equal. lia.
  - rewrite (Hlo 0), (Hlo 1), (Hhi 3) by lia. cbn. rewrite orb_false_r. f_equal. lia.
  - rewrite (Hlo 0), (Hhi 2), (Hhi 3) by lia. cbn. rewrite !orb_false_r. f_equal. lia.
  - rewrite (Hhi 1), (Hhi 2), (Hhi 3) by lia. rewrite !orb_false_r. f_equal. lia.
Qed.

Lemma join_words_range w : (forall i, 0 <= w i < 2 ^ 32) -> 0 <= join_words w < 2 ^ 128.
Proof.
  intros Hw. unfold join_words.
  rewrite (Z.lor_comm _ (Z.lor (Z.shiftl (w 1) 64) _)), (Z.lor_comm _ (Z.lor (Z.shiftl (w 2) 32) _)),
    (Z.lor_comm _ (w 3)).
  assert (Hs : forall a b n, 0 <= n -> 0 <= a < 2 ^ n -> 0 <= b < 2 ^ 32 ->
            0 <= Z.lor a (Z.shiftl b n) < 2 ^ (n + 32)).
  { intros a b n Hn Ha Hb. rewrite lor_shiftl_lxor by done. apply lxor_range; [lia| |].
    - pose proof (Z.pow_le_mono_r 2 n (n + 32)). lia.
    - rewrite Z.shiftl_mul_pow2, Z.pow_add_r by lia. nia. }
  apply (Hs _ _ 96); [lia| |done]. apply (Hs _ _ 64); [lia| |done].
  by apply (Hs _ _ 32); [lia| |].
Qed.

(** The number of prefix bits that fall into word [i]. *)
Definition word_mask (m i : Z) : Z := Z.max 0 (Z.min 32 (m - 32 * i)).

Lemma prefix_split a m w :
  (forall i, 0 <= w i < 2 ^ 32) -> 0 <= a < 2 ^ 128 -> 0 <= m <= 128 ->
  prefix_eq 128 m a (join_words w)
  = forallb (fun i => prefix_eq 32 (word_mask m i) (addr_word a i) (w i)) [0; 1; 2; 3].
Proof.
  intros Hw Ha Hm. apply eq_bool_prop_intro. rewrite !Is_true_true.
  rewrite forallb_forall. unfold prefix_eq. setoid_rewrite Z.eqb_eq.
  assert (Hwm : forall i, 0 <= 32 - word_mask m i) by (unfold word_mask; lia).
  setoid_rewrite shiftr_eq_bits; [|lia|done].
  assert (Hi4 : forall i, In i [0; 1; 2; 3] <-> 0 <= i <= 3) by (intros i; cbn; lia).
  setoid_rewrite Hi4. split.
  - intros Hb i Hi j Hj. specialize (Hwm i). rewrite word_bit by lia.
    destruct (Z.ltb_spec j 32); [|by rewrite (testbit_high _ 32) by (auto || lia)].
    rewrite <- (Hb (j + (96 - 32 * i))) by (unfold word_mask in *; lia).
    rewrite join_words_bit by (auto || lia). cbn [andb].
    replace (j + (96 - 32 * i)) with (j + (3 - i) * 32) by lia.
    rewrite Z.div_add, Z.mod_add, Z.div_small, Z.mod_small by lia. f_equal. f_equal. lia.
  - intros Hb j Hj. destruct (Z.lt_ge_cases j 128).
    + rewrite join_words_bit by (auto || lia).
      pose proof (Z.div_mod j 32 ltac:(lia)). pose proof (Z.mod_pos_bound j 32 ltac:(lia)).
      assert (0 <= j / 32 < 4) by (split; [apply Z.div_pos|apply Z.div_lt_upper_bound]; lia).
      rewrite Hb by (unfold word_mask; lia). rewrite word_bit by lia.
      destruct (Z.ltb_spec (j mod 32) 32); [|lia]. cbn [andb]. f_equal. lia.
    + rewrite !(testbit_high _ 128) by (auto using join_words_range || lia). done.
Qed.

Lemma mask_chain m : 0 <= m <= 128 ->
  mask_get m = word_mask m 0 /\ mask_get (mask_sub m) = word_mask m 1 /\
  mask_get (mask_sub (mask_sub m)) = word_mask m 2 /\
  mask_get (mask_sub (mask_sub (mask_sub m))) = word_mask m 3.
Proof.
  intros Hm.
  assert (Hs : forall x, 0 <= x <= 128 -> mask_sub x = Z.max 0 (x - 32)).
  { intros x Hx. unfold mask_sub. case_decide; [rewrite wrap_small by (split; lia)|]; lia. }
  rewrite (Hs m), (Hs (Z.max 0 (m - 32))), (Hs (Z.max 0 (Z.max 0 (m - 32) - 32))) by lia.
  unfold mask_get, word_mask. split_and!; case_decide; lia.
Qed.

(** ** A translated rule matches what the configuration means *)

Lemma rte_rule_match v6 k o p :
  cfg_wf v6 k -> words_ok_pkt p ->
  rule_match acl_rte_ipv46_defs (rte_rule_of v6 k o) p = tuple_match v6 k p.
Proof.
  intros (_ & (Hms & Hmd) & Hs & Hd) [Hws Hwd].
  unfold rule_match, tuple_match, addr_match, rte_rule_of.
  destruct v6; cbn [addr_bits] in *.
  - rewrite !prefix_split by auto.
    destruct (mask_chain (sip_mask k) Hms) as (E1 & E2 & E3 & E4).
    destruct (mask_chain (dip_mask k) Hmd) as (F1 & F2 & F3 & F4).
    cbn [forallb acl_rte_ipv46_defs fd_field_index field]. unfold trans_shm_to_rte_tuple6, trans_ranges.
    unfold field_match, prefix_eq; cbn [fd_type fd_offset fd_size].
    repeat (rewrite aget_aset_eq || rewrite aget_aset_ne by done). cbn [value mask_range].
    rewrite E1, E2, E3, E4, F1, F2, F3, F4. change (8 * 4) with 32. unfold in_range.
    rewrite !andb_true_r. btauto.
  - cbn [forallb acl_rte_ipv46_defs fd_field_index field]. unfold trans_shm_to_rte_tuple4, trans_ranges.
    unfold field_match, prefix_eq; cbn [fd_type fd_offset fd_size].
    repeat (rewrite aget_aset_eq || rewrite aget_aset_ne by done). cbn [value mask_range].
    change (8 * 4) with 32. change (32 - 32) with 0. rewrite !Z.shiftr_0_r. unfold in_range.
    rewrite !andb_true_r. btauto.
Qed.

(** ** The rules of a table *)

Definition lookup (c : SF_CONF_T) (p : packet) : Z :=
  first_such (fun o => match store c o with
                       | Some (v6, k) => tuple_match v6 k p
                       | None => false
                       end) (seqZ 1 4096).

Lemma lookup_ext c c' p : (forall o, store c' o = store c o) -> lookup c' p = lookup c p.
Proof.
  intros E. unfold lookup. generalize (seqZ 1 4096) as l.
  induction l as [|o l IH]; cbn [first_such]; [done|]. by rewrite E, IH.
Qed.

Fixpoint table_rules (n : nat) (v6 : bool) (t : tuple_table) (idx : Z) : list acl46_rule_cfg :=
  match n with
  | O => []
  | S n =>
      let rule := (tuple_rules t).[idx] in
      let o := outer_rule_id (map_rule rule) in
      if outer_id_valid (map_rule rule) && negb (o =? 0)
      then rte_rule_of v6 (rule_cfg rule) o :: table_rules n v6 t (idx + 1)
      else table_rules n v6 t (idx + 1)
  end.

Definition all_rules (c : SF_CONF_T) : list acl46_rule_cfg :=
  table_rules 2048 false (table_v4 c) 0 ++ table_rules 2048 true (table_v6 c) 0.

Lemma table_rules_elem n v6 t idx r :
  r ∈ table_rules n v6 t idx <-> exists i, idx <= i < idx + Z.of_nat n /\
    let rule := (tuple_rules t).[i] in
    let o := outer_rule_id (map_rule rule) in
    outer_id_valid (map_rule rule) = true /\ o <> 0 /\ r = rte_rule_of v6 (rule_cfg rule) o.
Proof.
  revert idx. induction n as [|n IH]; intros idx; cbn [table_rules].
  - rewrite elem_of_nil. split; [done|]. intros (i & Hi & _). lia.
  - cbv zeta in *. set (rule := (tuple_rules t).[idx]).
    destruct (outer_id_valid (map_rule rule) && _) eqn:E.
    + apply andb_true_iff in E as [E1 E2%negb_true_iff%Z.eqb_neq].
      rewrite elem_of_cons, IH. split.
      * intros [->|(i & Hi & Hr)]; [exists idx; split; [lia|done]|exists i; split; [lia|done]].
      * intros (i & Hi & Hr). destruct (decide (i = idx)) as [->|]; [left; apply Hr|].
        right. exists i. split; [lia|done].
    + rewrite IH. split; intros (i & Hi & Hr); exists i; (split; [|done]); [lia|].
      destruct (decide (i = idx)) as [->|]; [|lia]. exfalso.
      destruct Hr as (H1 & H2 & _). fold rule in H1, H2. apply Z.eqb_neq in H2.
      by rewrite H1, H2 in E.
Qed.

(** The rules given to the classifier are the rules of the store. *)
Lemma all_rules_elem c r :
  acl_inv c ->
  r ∈ all_rules c <-> exists o v k, store c o = Some (v, k) /\ valid_outer o /\ cfg_wf v k /\
    r = rte_rule_of v k o.
Proof.
  intros Hi. unfold all_rules. rewrite elem_of_app.
  assert (Hv : forall v, r ∈ table_rules 2048 v (table_of c v) 0 <->
    exists o k, store c o = Some (v, k) /\ valid_outer o /\ cfg_wf v k /\ r = rte_rule_of v k o).
  { intros v. pose proof (ai_table _ Hi v) as Ht. rewrite table_rules_elem. split.
    - intros (i & Hir & Hval & _ & ->). cbv zeta in *.
      assert (Hid : valid_slot (i + 1)) by (unfold valid_slot; lia).
      assert (Em : map_rule (tuple_rules (table_of c v)).[i] = slot_map (table_of c v) (i + 1))
        by (unfold slot_map; by replace (i + 1 - 1) with i by lia).
      rewrite Em in Hval |- *.
      destruct (ti_bwd _ _ _ Ht _ Hid Hval) as [Ho E].
      set (o := outer_rule_id _) in *. exists o, (slot_cfg (table_of c v) (i + 1)).
      split_and!; [|done|apply (ti_cfg _ _ _ Ht)|].
      + rewrite (store_ty c o v Ho) by (by rewrite E). by rewrite E.
      + unfold slot_cfg. by replace (i + 1 - 1) with i by lia.
    - intros (o & k & Hs & Ho & _ & ->).
      destruct (ai_type _ Hi o Ho) as [E|[v' E]]; [by rewrite store_none in Hs by (by left)|].
      rewrite (store_ty _ _ _ Ho E) in Hs. injection Hs as -> Hk.
      destruct (ti_fwd _ _ _ Ht o Ho E) as [Hid Hm].
      exists (actual_rule_id (rule_map c).[o - 1] - 1). unfold valid_slot in Hid. split; [lia|].
      unfold slot_map in Hm. unfold slot_cfg in Hk. cbv zeta. rewrite Hm, Hk. cbn.
      unfold valid_outer in Ho. split_and!; [done|lia|done]. }
  pose proof (Hv false) as H4. pose proof (Hv true) as H6. cbn [table_of] in H4, H6.
  rewrite H4, H6. split.
  - intros [(o & k & Hx)|(o & k & Hx)]; eauto.
  - intros (o & [] & k & Hx); eauto.
Qed.

Lemma store_slot_cfg c o v k :
  acl_inv c -> store c o = Some (v, k) -> valid_outer o /\ cfg_wf v k.
Proof.
  intros Hi Hs. destruct (invalid_outer o) eqn:Ho;
    [unfold store in Hs; by rewrite Ho in Hs|]. apply invalid_outer_false in Ho. split; [done|].
  destruct (ai_type _ Hi o Ho) as [E|[v' E]]; [by rewrite store_none in Hs by (by left)|].
  rewrite (store_ty _ _ _ Ho E) in Hs. injection Hs as -> <-.
  apply (ti_cfg _ _ _ (ai_table _ Hi v)).
Qed.

(** ** The best match *)

Lemma best_match_spec defs rs p :
  match best_match defs rs p with
  | None => forall r, r ∈ rs -> rule_match defs r p = false
  | Some r => r ∈ rs /\ rule_match defs r p = true /\
      forall r', r' ∈ rs -> rule_match defs r' p = true -> priority r' <= priority r
  end.
Proof.
  induction rs as [|r rs IH]; cbn [best_match]; [intros r Hr; by apply elem_of_nil in Hr|].
  destruct (rule_match defs r p) eqn:Em.
  - destruct (best_match defs rs p) as [r1|].
    + destruct IH as (Hin & Hm & Hmax). destruct (Z.ltb_spec (priority r) (priority r1)).
      * split_and!; [set_solver|done|]. intros r'. rewrite elem_of_cons.
        intros [->|Hr'] Hm'; [lia|auto].
      * split_and!; [set_solver|done|]. intros r'. rewrite elem_of_cons.
        intros [->|Hr'] Hm'; [lia|]. specialize (Hmax r' Hr' Hm'). lia.
    + split_and!; [set_solver|done|]. intros r'. rewrite elem_of_cons.
      intros [->|Hr'] Hm'; [lia|]. by rewrite IH in Hm'.
  - destruct (best_match defs rs p) as [r1|].
    + destruct IH as (Hin & Hm & Hmax). split_and!; [set_solver|done|].
      intros r'. rewrite elem_of_cons. intros [->|Hr'] Hm'; [congruence|auto].
    + intros r'. rewrite elem_of_cons. intros [->|Hr']; auto.
Qed.

Lemma first_such_min (P : Z -> bool) s n x :
  s <= x < s + Z.of_nat n -> P x = true -> (forall y, s <= y < x -> P y = false) ->
  first_such P (seqZ s (Z.of_nat n)) = x.
Proof.
  revert s. induction n as [|n IH]; intros s Hx HP Hm; [lia|].
  rewrite seqZ_cons by lia. cbn [first_such].
  replace (Z.pred (Z.of_nat (S n))) with (Z.of_nat n) by lia.
  destruct (decide (x = s)) as [->|]; [by rewrite HP|].
  rewrite (Hm s) by lia. apply IH; [lia|done|]. intros y Hy. apply Hm. lia.
Qed.

(** The best match over the store's rules is [lookup]. *)
Lemma best_match_lookup c p :
  acl_inv c -> words_ok_pkt p ->
  match best_match acl_rte_ipv46_defs (all_rules c) p with Some r => userdata r | None => 0 end
  = lookup c p.
Proof.
  intros Hi Hp. pose proof (best_match_spec acl_rte_ipv46_defs (all_rules c) p) as Hb.
  destruct (best_match _ _ _) as [r|].
  - destruct Hb as (Hin & Hm & Hmax). apply all_rules_elem in Hin as (o & v & k & Hs & Ho & Hwf & ->);
      [|done]. rewrite rte_rule_match in Hm by done. cbn [rte_rule_of userdata].
    unfold valid_outer in Ho. symmetry. unfold lookup. change 4096 with (Z.of_nat 4096).
    apply first_such_min; [lia|by rewrite Hs|].
    intros y Hy. destruct (store c y) as [[v' k']|] eqn:Ey; [|done].
    destruct (tuple_match v' k' p) eqn:Em; [|done]. exfalso.
    assert (Hvy : valid_outer y) by (unfold valid_outer; lia).
    destruct (store_slot_cfg c y v' k' Hi Ey) as [_ Hwf'].
    assert (rte_rule_of v' k' y ∈ all_rules c) as Hin
      by (apply all_rules_elem; [done|by exists y, v', k']).
    specialize (Hmax _ Hin). rewrite rte_rule_match in Hmax by done. specialize (Hmax Em).
    cbn [rte_rule_of priority] in Hmax. unfold sf_rte_rule_priority in Hmax. lia.
  - symmetry. apply first_such_none. intros o Ho.
    destruct (store c o) as [[v k]|] eqn:Es; [|done].
    destruct (store_slot_cfg c o v k Hi Es) as [Hv Hwf].
    rewrite <- (rte_rule_match v k o) by done. apply Hb. apply all_rules_elem; [done|].
    by exists o, v, k.
Qed.

(** ** Synchronisation *)

Section sync_proofs.
Context `{RteAclLaws}.

Lemma add_slots_spec n v6 t p idx cnt w nm rs b w' res :
  contexts w !! p = Some (mk_context nm rs b) ->
  add_slots n v6 t p idx cnt w = (w', res) ->
  exists pre, contexts w' = <[p := mk_context nm (rs ++ pre) b]> (contexts w) /\
    match res with
    | Some cnt' => pre = table_rules n v6 t idx /\ cnt' = cnt + Z.of_nat (length pre)
    | None => True
    end.
Proof.
  revert idx cnt w rs. induction n as [|n IH]; intros idx cnt w rs Hp; cbn [add_slots table_rules].
  - intros [= <- <-]. exists []. rewrite app_nil_r, insert_id by done. cbn. split_and!; [done|done|lia].
  - unfold add_slot. cbv zeta. destruct (outer_id_valid _ && _).
    + set (r := rte_rule_of _ _ _). destruct (rte_acl_add_rules p r w) as [w1 ret] eqn:Ea.
      pose proof (add_rules _ _ _ _ _ _ Hp Ea) as Hc. cbn in Hc. case_decide.
      * intros [= <- <-]. exists []. rewrite app_nil_r, Hc, insert_id by done. done.
      * intros E. apply (IH _ _ _ (rs ++ [r])) in E as (pre & Hc' & Hr);
          [|rewrite Hc; by rewrite lookup_insert_eq].
        exists (r :: pre). rewrite Hc', Hc, insert_insert_eq, <- app_assoc. split; [done|].
        destruct res; [|done]. destruct Hr as [-> ->]. cbn [length]. split; [done|lia].
    + intros E. by apply (IH _ _ _ rs) in E.
Qed.

#[local] Opaque add_slots table_rules.

Lemma add_rules_spec c p w nm w' ret :
  contexts w !! p = Some (mk_context nm [] None) ->
  rte_acl_table_add_rules c p w = (w', ret) ->
  exists rs, contexts w' = <[p := mk_context nm rs None]> (contexts w) /\
    (ret = -1 \/ (rs = all_rules c /\ ret = Z.of_nat (length rs))).
Proof.
  intros Hp. unfold rte_acl_table_add_rules.
  change (Z.to_nat MAX_TUPLE_RULE_PER_GROUP) with 2048%nat. cbv zeta.
  destruct (add_slots 2048 false (table_v4 c) p 0 0 w) as [w3 r3] eqn:E3.
  destruct (add_slots_spec _ _ _ _ _ _ _ _ _ _ _ _ Hp E3) as (pre3 & G3 & R3).
  cbn [app] in G3. destruct r3 as [cnt3|].
  2:{ intros [= <- <-]. eauto. }
  destruct R3 as [R3 C3].
  destruct (add_slots 2048 true (table_v6 c) p 0 cnt3 w3) as [w4 r4] eqn:E4.
  assert (Hp3 : contexts w3 !! p = Some (mk_context nm pre3 None))
    by (rewrite G3; apply lookup_insert_eq).
  destruct (add_slots_spec _ _ _ _ _ _ _ _ _ _ _ _ Hp3 E4) as (pre4 & G4 & R4).
  rewrite G3, insert_insert_eq in G4. destruct r4 as [cnt4|].
  2:{ intros [= <- <-]. eauto. }
  destruct R4 as [R4 C4]. intros [= <- <-]. exists (pre3 ++ pre4). split; [done|]. right.
  split; [unfold all_rules; by rewrite R3, R4|]. rewrite length_app. lia.
Qed.

(** Building a table leaves every other context alone; the built one holds
    exactly the rules of the configuration. *)
Lemma setup_spec c name w w' ret ctx :
  (forall q x, contexts w !! q = Some x -> cx_name x <> name) ->
  rte_acl_table_setup c 1 name w = (w', ret, ctx) ->
  (ret <> 0 /\ contexts w' = contexts w) \/
  (ret = 0 /\ ctx = 0 /\ contexts w' = contexts w /\ all_rules c = []) \/
  (ret = 0 /\ ctx <> 0 /\ contexts w !! ctx = None /\
   contexts w' = <[ctx := mk_context name (all_rules c) (Some (acl_rte_ipv46_defs, all_rules c))]>
                   (contexts w)).
Proof.
  intros Hnew. unfold rte_acl_table_setup. change (invalid_group 1) with false.
  destruct (rte_acl_create name w) as [w1 p] eqn:E1.
  pose proof (create_new _ _ _ _ Hnew E1) as G1. destruct (decide (p = 0)) as [|Hp].
  { intros [= <- <- <-]. by left. }
  destruct G1 as [Hfresh G1]. destruct (rte_acl_set_ctx_classify p w1) as [w2 ret2] eqn:E2.
  pose proof (set_classify _ _ _ _ E2) as G2. rewrite <- G2 in G1.
  assert (Hfree : forall wx x, contexts wx = <[p := x]> (contexts w) ->
                   contexts (rte_acl_free p wx) = contexts w).
  { intros wx x Hx. rewrite free, Hx by done. by rewrite delete_insert_id. }
  case_decide.
  { intros [= <- <- <-]. left. split; [done|]. by eapply Hfree. }
  destruct (rte_acl_table_add_rules c p w2) as [w3 ret3] eqn:E3.
  assert (Hp2 : contexts w2 !! p = Some (mk_context name [] None))
    by (rewrite G1; apply lookup_insert_eq).
  destruct (add_rules_spec _ _ _ _ _ _ Hp2 E3) as (rs & G3 & Hrs).
  rewrite G1, insert_insert_eq in G3. case_decide.
  { intros [= <- <- <-]. left. split; [done|]. by eapply Hfree. }
  destruct Hrs as [|[-> Hrs]]; [lia|]. case_decide as Ez.
  { unfold rte_acl_table_free. rewrite decide_False by done. intros [= <- <- <-].
    right; left. split_and!; [done|done|by eapply Hfree|].
    apply length_zero_iff_nil. lia. }
  destruct (rte_acl_build p acl_rte_ipv46_defs w3) as [w5 ret5] eqn:E5.
  assert (Hp3 : contexts w3 !! p = Some (mk_context name (all_rules c) None))
    by (rewrite G3; apply lookup_insert_eq).
  pose proof (build _ _ _ _ _ _ Hp3 E5) as G5.
  destruct (decide (ret5 = 0)) as [E6|E6].
  - rewrite decide_False by lia. intros [= <- <- <-]. right; right.
    split_and!; [done|done|done|]. rewrite G5, G3. cbn [cx_name cx_rules].
    by rewrite insert_insert_eq.
  - rewrite decide_True by done. intros [= <- <- <-]. left. split; [done|].
    eapply Hfree. by rewrite G5.
Qed.

(** The running table is the only context, has the name not selected for the
    next one, and is built. *)
Definition main_inv (m : acl_main) : Prop :=
  (pre_table_name_model m = 0 \/ pre_table_name_model m = 1) /\
  ((v46_context m = 0 /\ contexts (world m) = ∅) \/
   (v46_context m <> 0 /\ exists rs,
      contexts (world m) = {[v46_context m := mk_context (1 - pre_table_name_model m) rs
                               (Some (acl_rte_ipv46_defs, rs))]})).

Lemma main_inv_fresh m : main_inv m ->
  forall q x, contexts (world m) !! q = Some x -> cx_name x <> pre_table_name_model m.
Proof.
  intros [Hn [[_ E]|[_ [rs E]]]] q x; rewrite E; [by rewrite lookup_empty|].
  intros [_ <-]%lookup_singleton_Some. cbn. lia.
Qed.

Lemma sync_installs_lookup_aux c m m' ret :
  acl_inv c -> main_inv m -> sync_rte_tuple_rules c m = (m', ret) ->
  main_inv m' /\
  (ret = 0 -> forall p, words_ok_pkt p -> acl_classify m' p = lookup c p) /\
  (ret <> 0 -> v46_context m' = v46_context m /\
     contexts (world m') = contexts (world m) /\
     (forall p, acl_classify m' p = acl_classify m p)).
Proof.
  intros Hi Hm. unfold sync_rte_tuple_rules.
  destruct (rte_acl_table_setup _ _ _ _) as [[w ret1] ctx] eqn:Es.
  pose proof (setup_spec _ _ _ _ _ _ (main_inv_fresh m Hm) Es) as Hs.
  pose proof Hm as [Hn Hctx]. case_decide as Er.
  - intros [= <- <-]. destruct Hs as [[_ Hw]|[(? & _)|(? & _)]]; [|done|done].
    assert (Hm' : main_inv (mk_acl_main (v46_context m) (pre_table_name_model m) w))
      by (split; [done|]; cbn [v46_context world pre_table_name_model]; by rewrite Hw).
    split; [exact Hm'|]. split; [done|]. intros _. split_and!; [done|done|].
    intros p. unfold acl_classify. cbn [v46_context world]. case_decide; [|done].
    destruct Hctx as [[? _]|[_ [rs E]]]; [done|].
    rewrite (classify w _ (mk_context (1 - pre_table_name_model m) rs
               (Some (acl_rte_ipv46_defs, rs))) acl_rte_ipv46_defs rs p); cbn; [|rewrite Hw, E; apply lookup_singleton_eq|done].
    rewrite (classify (world m) _ (mk_context (1 - pre_table_name_model m) rs
               (Some (acl_rte_ipv46_defs, rs))) acl_rte_ipv46_defs rs p);
      [done|rewrite E; apply lookup_singleton_eq|done].
  - intros [= <- <-]. destruct Hs as [[? _]|[(_ & -> & Hw & Hnil)|(_ & Hc & Hfr & Hw)]]; [lia| |].
    + assert (Hempty : contexts (rte_acl_table_free (v46_context m) w) = ∅).
      { unfold rte_acl_table_free. destruct Hctx as [[-> E]|[Hnz [rs E]]].
        - by rewrite decide_True, Hw by done.
        - rewrite decide_False, free, Hw, E by done. apply delete_singleton_eq. }
      split; [|split; [|done]].
      * split; cbn [pre_table_name_model v46_context world];
          [by rewrite (decide_False (P := 0 <> 0)) by lia|left; split; [done|exact Hempty]].
      * intros _ p Hp. rewrite <- best_match_lookup by done. by rewrite Hnil.
    + set (x := mk_context _ _ _) in Hw.
      assert (Hone : contexts (rte_acl_table_free (v46_context m) w) = {[ctx := x]}).
      { unfold rte_acl_table_free. destruct Hctx as [[-> E]|[Hnz [rs E]]].
        - by rewrite decide_True, Hw, E by done.
        - rewrite decide_False, free, Hw, E by done. rewrite E in Hfr.
          apply lookup_singleton_None in Hfr.
          rewrite delete_insert_ne by congruence. by rewrite delete_singleton_eq. }
      split; [|split; [|done]].
      * split; cbn [pre_table_name_model v46_context world].
        -- rewrite (decide_True (P := ctx <> 0)) by done. case_decide; lia.
        -- right. split; [done|]. exists (all_rules c). rewrite Hone. unfold x.
           rewrite (decide_True (P := ctx <> 0)) by done. do 2 f_equal. case_decide; lia.
      * intros _ p Hp. unfold acl_classify. cbn [v46_context world]. rewrite decide_True by done.
        rewrite (classify _ _ x acl_rte_ipv46_defs (all_rules c) p);
          [|rewrite Hone; apply lookup_singleton_eq|done].
        by apply best_match_lookup.
Qed.

(** C3: a synchronisation that succeeds installs a table that answers every
    packet with the smallest configured rule id that matches it, and one that
    fails leaves the answers as they were; in both cases the next one builds
    under a name that is not in use. *)
Theorem sync_installs_lookup c m m' ret :
  acl_inv c -> main_inv m -> sync_rte_tuple_rules c m = (m', ret) ->
  main_inv m' /\
  (ret = 0 -> forall p, words_ok_pkt p -> acl_classify m' p = lookup c p) /\
  (ret <> 0 -> v46_context m' = v46_context m /\
     contexts (world m') = contexts (world m) /\
     (forall p, acl_classify m' p = acl_classify m p)).
Proof. apply sync_installs_lookup_aux. Qed.

(** ** The synchronisation process *)

(** An iteration of the synchronisation process serves a pending request:
    it leaves the flag at OK with a table that answers what the store means, or
    at FAILED with the old table; without a request it only turns an abandoned
    synchronisation into FAILED.  The rules are never touched and the counter
    of synchronisations stays a non-negative 31-bit number. *)
Theorem sync_process_step_spec c m c' m' :
  acl_inv c -> main_inv m -> 0 <= acl_sync_times c ->
  acl_sync_process_step c m = (c', m') ->
  main_inv m' /\ (forall o, store c' o = store c o) /\ 0 <= acl_sync_times c' /\
  acl_sync_flag c' <> ACL_STILL_SYNC /\ acl_sync_flag c' <> ACL_NEED_SYNC /\
  (acl_sync_flag c = ACL_NEED_SYNC ->
     (acl_sync_flag c' = ACL_SYNC_OK /\ acl_sync_times c' < 2 ^ 31 /\
      forall p, words_ok_pkt p -> acl_classify m' p = lookup c p) \/
     (acl_sync_flag c' = ACL_SYNC_FAILED /\ acl_sync_times c' = acl_sync_times c /\
      forall p, acl_classify m' p = acl_classify m p)) /\
  (acl_sync_flag c <> ACL_NEED_SYNC ->
     m' = m /\ acl_sync_times c' = acl_sync_times c /\
     acl_sync_flag c' = if decide (acl_sync_flag c = ACL_STILL_SYNC) then ACL_SYNC_FAILED
                        else acl_sync_flag c).
Proof.
  intros Hi Hm Ht. unfold acl_sync_process_step.
  destruct (decide (acl_sync_flag c = ACL_STILL_SYNC)) as [Es|Es].
  - rewrite decide_True by done. intros [= <- <-]. split_and!; try done.
    rewrite Es. done.
  - case_decide as En.
    + intros [= <- <-]. by split_and!.
    + destruct (sync_rte_tuple_rules _ m) as [m1 ret] eqn:E.
      assert (Hi' : acl_inv (set_sync_flag ACL_STILL_SYNC c)).
      { split; [apply Hi|]. intros v. pose proof (ai_table _ Hi v). by destruct v. }
      destruct (sync_installs_lookup_aux _ _ _ _ Hi' Hm E) as (Hm' & Hok & Hfail).
      case_decide as Er; intros [= <- <-].
      * split_and!; try done. intros _. right. split_and!; [done|done|]. by apply Hfail.
      * cbn [acl_sync_times set_sync_flag acl_sync_flag].
        rewrite (wrap_land 31) by lia. pose proof (wrap_range 31 (acl_sync_times c + 1)).
        split_and!; try done; [lia|]. intros _. left. split_and!; [done|lia|].
        intros p Hp. rewrite Hok by (done || lia). by apply lookup_ext.
Qed.
End sync_proofs.

(** * A classifier library that behaves as documented

    A concrete instance of the DPDK parameters, kept as a finite map of
    contexts, that satisfies [RteAclLaws]; it discharges the hypotheses of the
    synchronisation theorems on the concrete rules of [AclDemo]. *)

Definition ref_find (name : Z) (w : gmap Z rte_context) : option Z :=
  fst <$> head (filter (fun '(_, x) => cx_name x = name) (map_to_list (delete 0 w))).

Definition ref_upd (p : Z) (f : rte_context -> rte_context) (w : gmap Z rte_context) :
    gmap Z rte_context * Z :=
  match delete 0 w !! p with
  | Some x => (<[p := f x]> w, 0)
  | None => (w, -22)
  end.

#[export] Instance ref_rte : RteAcl := {|
  rte_world := gmap Z rte_context;
  rte_acl_create name w :=
    match ref_find name w with
    | Some q => (w, q)
    | None => let p := fresh (dom w ∪ {[0]}) in (<[p := mk_context name [] None]> w, p)
    end;
  rte_acl_set_ctx_classify p w := (w, 0);
  rte_acl_add_rules p r w :=
    ref_upd p (fun x => mk_context (cx_name x) (cx_rules x ++ [r]) (cx_built x)) w;
  rte_acl_build p defs w :=
    ref_upd p (fun x => mk_context (cx_name x) (cx_rules x) (Some (defs, cx_rules x))) w;
  rte_acl_free p w := delete p w;
  rte_acl_classify p pkt w :=
    match delete 0 w !! p with
    | Some (mk_context _ _ (Some (defs, rs))) =>
        match best_match defs rs pkt with Some r => userdata r | None => 0 end
    | _ => 0
    end
|}.

Lemma ref_find_some name w q :
  ref_find name w = Some q -> exists x, delete 0 w !! q = Some x /\ cx_name x = name.
Proof.
  unfold ref_find. destruct (filter _ _) as [|[q' x] l] eqn:E; [done|]. cbn. intros [= ->].
  assert ((q, x) ∈ filter (fun '(_, x) => cx_name x = name) (map_to_list (delete 0 w))) as Hin
    by (rewrite E; set_solver).
  apply list_elem_of_filter in Hin as [Hn Hin]. apply elem_of_map_to_list in Hin. eauto.
Qed.

Lemma ref_find_none name w q x :
  ref_find name w = None -> delete 0 w !! q = Some x -> cx_name x <> name.
Proof.
  unfold ref_find. destruct (filter _ _) as [|? ?] eqn:E; [|done]. intros _ Hq Hn.
  assert ((q, x) ∈ filter (fun '(_, x) => cx_name x = name) (map_to_list (delete 0 w))) as Hin
    by (apply list_elem_of_filter; split; [done|by apply elem_of_map_to_list]).
  rewrite E in Hin. by apply elem_of_nil in Hin.
Qed.

Lemma ref_upd_spec p f w x w' ret :
  delete 0 w !! p = Some x -> ref_upd p f w = (w', ret) ->
  ret = 0 /\ delete 0 w' = <[p := f x]> (delete 0 w).
Proof.
  unfold ref_upd. intros Hp. rewrite Hp. intros [= <- <-].
  apply lookup_delete_Some in Hp as [Hne _]. by rewrite delete_insert_ne by congruence.
Qed.

#[export] Instance ref_rte_laws : RteAclLaws.
Proof.
  refine {| contexts := fun w : rte_world => delete 0 (w : gmap Z rte_context) |}.
  - intros w name p x Hp Hn. cbn. destruct (ref_find name w) as [q|] eqn:E.
    + destruct (ref_find_some _ _ _ E) as (y & Hy & Hny). by exists q, y.
    + by destruct (ref_find_none _ _ _ _ E Hp).
  - intros w name w' p Hnew. cbn. destruct (ref_find name w) as [q|] eqn:E.
    + destruct (ref_find_some _ _ _ E) as (y & Hy & Hny). by destruct (Hnew _ _ Hy).
    + pose proof (is_fresh (dom w ∪ {[0]})) as Hf. set (p' := fresh _) in *.
      assert (p' <> 0) as Hnz by set_solver. assert (p' ∉ dom w) as Hdom by set_solver.
      apply (not_elem_of_dom (D := gset Z) (w : gmap Z rte_context)) in Hdom. intros [= <- <-]. rewrite decide_False by done.
      by rewrite lookup_delete_ne, delete_insert_ne by congruence.
  - intros w. apply lookup_delete_eq.
  - by intros w p w' ret [= <- <-].
  - intros w p x r w' ret Hp E. destruct (ref_upd_spec _ _ _ _ _ _ Hp E) as [-> ->].
    by rewrite decide_False by lia.
  - intros w p x defs w' ret Hp E. destruct (ref_upd_spec _ _ _ _ _ _ Hp E) as [-> ->].
    by rewrite decide_True.
  - intros w p Hp. cbn. apply delete_delete.
  - intros w p x defs rs pkt Hp Hb. cbn. rewrite Hp. destruct x as [nm rl bt]. cbn in Hb.
    by rewrite Hb.
Defined.

(** ** Witnesses *)

Definition demo_main : acl_main := mk_acl_main 0 0 (∅ : gmap Z rte_context).

Lemma demo_main_inv : main_inv demo_main.
Proof. split; [by left|]. left. split; [done|]. apply delete_empty. Qed.

(** A TCP packet from 10.1.2.3, port 299. *)
Definition demo_pkt : packet := fun m =>
  match m with
  | WD_protocol => 6
  | WD_sip 0 => 0x0A010203
  | WD_dip 0 => 0xC0A80001
  | WD_sport => 299
  | WD_dport => 80
  | _ => 0
  end.

Lemma demo_pkt_ok : words_ok_pkt demo_pkt.
Proof. split; intros []; cbn; lia. Qed.

Lemma demo_lookup : lookup demo_conf demo_pkt = 2.
Proof. vm_compute. reflexivity. Qed.

Theorem sync_installs_lookup_witness :
  acl_classify (fst (sync_rte_tuple_rules demo_conf demo_main)) demo_pkt = 2.
Proof.
  destruct (sync_rte_tuple_rules demo_conf demo_main) as [m' ret] eqn:E.
  assert (ret = 0) as Hr.
  { change ret with (snd (m', ret)). rewrite <- E. vm_compute. reflexivity. }
  destruct (sync_installs_lookup demo_conf demo_main m' ret demo_conf_inv demo_main_inv E)
    as (_ & Hok & _).
  cbn [fst]. rewrite (Hok Hr demo_pkt demo_pkt_ok). apply demo_lookup.
Defined.

Theorem sync_process_step_spec_witness :
  let '(c', m') := acl_sync_process_step (set_sync_flag ACL_NEED_SYNC demo_conf) demo_main in
  main_inv m' /\ acl_sync_flag c' <> ACL_NEED_SYNC.
Proof.
  destruct (acl_sync_process_step _ _) as [c' m'] eqn:E.
  assert (Hi : acl_inv (set_sync_flag ACL_NEED_SYNC demo_conf)).
  { split; [apply demo_conf_inv|]. intros v. pose proof (ai_table _ demo_conf_inv v). by destruct v. }
  destruct (sync_process_step_spec _ _ c' m' Hi demo_main_inv ltac:(vm_compute; done) E)
    as (Hm & _ & _ & _ & Hn & _).
  split; [exact Hm|exact Hn].
Defined.
