(* ===== verification/GenericHash.v ===== *)
(** * The generic hash table

    Models [src/sf_lib/sf_hash/generic_hash.h] and [generic_hash.c], the table
    behind the reassembly module: an array of buckets, each with a lock, a
    counter and a doubly linked chain of caller-owned nodes, and statistics kept
    outside the locks.  A node is an address, 0 is NULL.  [gh_repr] relates a
    table to the node list of every bucket, newest first. *)
From S2P Require Import Prelude.

(** ** Data *)

Record generic_node_t := mk_gnode { gn_prev : Z; gn_next : Z }.
Record generic_buck_t := mk_gbuck { bk_ncount : Z; bk_head : Z }.

#[export] Instance zeroed_gnode : Zeroed generic_node_t := mk_gnode 0 0.
#[export] Instance zeroed_gbuck : Zeroed generic_buck_t := mk_gbuck 0 0.

Definition set_gprev (v : Z) (n : generic_node_t) := mk_gnode v (gn_next n).
Definition set_gnext (v : Z) (n : generic_node_t) := mk_gnode (gn_prev n) v.

Record generic_hash_t := mk_ghash {
  hashsize : Z;
  hashmax : Z;
  bcount : Z;
  ncount : Z;
  lmax : Z;
  nmax : Z;
  bmax : Z;
  weight : Z;
  buckets : gmap Z generic_buck_t
}.

Definition ghash_zero : generic_hash_t := mk_ghash 0 0 0 0 0 0 0 0 ∅.

(** ** Initialisation *)

Definition GENERIC_MAX_HASH_SIZE : Z := 0x2000000.

(** The [while] loop that shifts until the top bit of [temp1] is set. *)
Fixpoint admit_loop (fuel : nat) (temp1 hashsize_admit : Z) : option Z :=
  match fuel with
  | O => None
  | S fuel =>
      if decide (Z.land temp1 0x80000000 = 0)
      then admit_loop fuel (u32 (Z.shiftl temp1 1)) (Z.shiftr hashsize_admit 1)
      else Some hashsize_admit
  end.

(** [h] is the caller's pointer, [mem] the allocator's answer for the bucket
    vector; the result is what [h] points to afterwards and the return code. *)
Definition hashInit (fuel : nat) (h : option generic_hash_t) (hsize hmax : Z) (mem : bool) :
    option (option generic_hash_t * Z) :=
  match h with
  | None => Some (None, -1)
  | Some h0 =>
      if decide (hsize = 0 \/ hmax = 0) then Some (Some h0, -1)
      else
        let hsize := if decide (GENERIC_MAX_HASH_SIZE < hsize) then GENERIC_MAX_HASH_SIZE
                     else hsize in
        let? hashsize_admit := admit_loop fuel hsize 0x80000000 in
        if mem then Some (Some (mk_ghash hashsize_admit hmax 0 0 0 0 0 0 ∅), 0)
        else Some (Some ghash_zero, -1)
  end.

Definition hashFree (h : generic_hash_t) : generic_hash_t := ghash_zero.

(** ** Searching *)

Definition buck_index (h : generic_hash_t) (hash : Z) : Z := Z.land hash (hashsize h - 1).

(** The [for] loops over a chain; [cmp] tells whether the node is the one
    searched. *)
Fixpoint find_node_loop (fuel : nat) (N : gmap Z generic_node_t) (cmp : Z -> bool) (node : Z) :
    option Z :=
  match fuel with
  | O => None
  | S fuel =>
      if decide (node = 0) then Some 0
      else if cmp node then Some node
      else find_node_loop fuel N cmp (gn_next N.[node])
  end.

Definition hashFindNode {key : Type} (fuel : nat) (N : gmap Z generic_node_t) (h : generic_hash_t)
    (hash : Z) (k : key) (cmp : key -> Z -> Z) : option Z :=
  find_node_loop fuel N (fun node => cmp k node =? 0) (bk_head (buckets h).[buck_index h hash]).

(** [data] reads the bytes behind a node. *)
Definition hashFindNode_memcmp (fuel : nat) (N : gmap Z generic_node_t) (h : generic_hash_t)
    (hash : Z) (key : list Z) (data : Z -> list Z) : option Z :=
  find_node_loop fuel N (fun node => memcmp key (take (length key) (data node)) =? 0)
    (bk_head (buckets h).[buck_index h hash]).

Definition hashFindNodeByPtr (fuel : nat) (N : gmap Z generic_node_t) (h : generic_hash_t)
    (hash c_node : Z) : option Z :=
  find_node_loop fuel N (fun node => node =? c_node) (bk_head (buckets h).[buck_index h hash]).

Definition hashNodeGet (N : gmap Z generic_node_t) (h : generic_hash_t) (hash c_node : Z) : Z :=
  if decide (c_node = 0) then bk_head (buckets h).[buck_index h hash] else gn_next N.[c_node].

Definition hashNodeCountGet (h : generic_hash_t) (hash : Z) : Z :=
  bk_ncount (buckets h).[buck_index h hash].

(** ** Inserting and freeing *)

Definition hashInsertNode (N : gmap Z generic_node_t) (h : generic_hash_t) (hash node : Z) :
    gmap Z generic_node_t * generic_hash_t :=
  let b := buck_index h hash in
  let buck := (buckets h).[b] in
  let N := N.[node <- mk_gnode 0 0] in
  let N := if decide (bk_head buck <> 0) then
             let N := N.[node <- set_gnext (bk_head buck) N.[node]] in
             N.[bk_head buck <- set_gprev node N.[bk_head buck]]
           else N in
  let buck := mk_gbuck (u32 (bk_ncount buck + 1)) node in
  let nc := u32 (ncount h + 1) in
  let w := u64 (weight h + bk_ncount buck) in
  let '(bc, bm) := if decide (bk_ncount buck = 1) then
                     let bc := u32 (bcount h + 1) in
                     (bc, if decide (bmax h < bc) then bc else bmax h)
                   else (bcount h, bmax h) in
  let nm := if decide (nmax h < nc) then nc else nmax h in
  let lm := if decide (lmax h < bk_ncount buck) then bk_ncount buck else lmax h in
  (N, mk_ghash (hashsize h) (hashmax h) bc nc lm nm bm w (buckets h).[b <- buck]).

Definition hashFreeNode (N : gmap Z generic_node_t) (h : generic_hash_t) (node hash : Z) :
    gmap Z generic_node_t * generic_hash_t :=
  let b := buck_index h hash in
  let buck := (buckets h).[b] in
  if decide (gn_prev N.[node] = 0 /\ bk_head buck = 0) then (N, h)
  else
    let '(N, hd) :=
      if decide (node = bk_head buck) then
        let hd := gn_next N.[node] in
        (if decide (gn_next N.[node] <> 0)
         then N.[gn_next N.[node] <- set_gprev 0 N.[gn_next N.[node]]] else N, hd)
      else
        let N := N.[gn_prev N.[node] <- set_gnext (gn_next N.[node]) N.[gn_prev N.[node]]] in
        (if decide (gn_next N.[node] <> 0)
         then N.[gn_next N.[node] <- set_gprev (gn_prev N.[node]) N.[gn_next N.[node]]] else N,
         bk_head buck) in
    let buck := mk_gbuck (u32 (bk_ncount buck - 1)) hd in
    let w := u64 (weight h - u32 (bk_ncount buck + 1)) in
    let nc := u32 (ncount h - 1) in
    let bc := if decide (bk_ncount buck = 0) then u32 (bcount h - 1) else bcount h in
    (N, mk_ghash (hashsize h) (hashmax h) bc nc (lmax h) (nmax h) (bmax h) w
          (buckets h).[b <- buck]).

(** ** Traversal *)

(** The inner loop of [hashTraverse]; the flag tells that the handler stopped
    the traversal. *)
Fixpoint traverse_chain {ctx : Type} (fuel : nat) (N : gmap Z generic_node_t)
    (handler : ctx -> Z -> ctx * Z) (context : ctx) (node : Z) : option (ctx * bool) :=
  match fuel with
  | O => None
  | S fuel =>
      if decide (node = 0) then Some (context, false)
      else
        let '(context, ret) := handler context node in
        if decide (ret <> 0) then Some (context, true)
        else traverse_chain fuel N handler context (gn_next N.[node])
  end.

Fixpoint traverse_buckets {ctx : Type} (n fuel : nat) (N : gmap Z generic_node_t)
    (h : generic_hash_t) (handler : ctx -> Z -> ctx * Z) (context : ctx) (i : Z) : option ctx :=
  match n with
  | O => Some context
  | S n =>
      let? (context, stopped) :=
        traverse_chain fuel N handler context (bk_head (buckets h).[i]) in
      if (stopped : bool) then Some context
      else traverse_buckets n fuel N h handler context (i + 1)
  end.

Definition hashTraverse {ctx : Type} (fuel : nat) (N : gmap Z generic_node_t)
    (h : generic_hash_t) (handler : ctx -> Z -> ctx * Z) (context : ctx) : option ctx :=
  traverse_buckets (Z.to_nat (hashsize h)) fuel N h handler context 0.

(** ** Representation *)

(** [dseg N p x l p' x']: from the link [x] (whose back link is [p]) the chain
    runs through [l] and leaves with back link [p'] and link [x']. *)
Fixpoint dseg (N : gmap Z generic_node_t) (p x : Z) (l : list Z) (p' x' : Z) : Prop :=
  match l with
  | [] => p = p' /\ x = x'
  | y :: l => x = y /\ y <> 0 /\ gn_prev N.[y] = p /\ dseg N y (gn_next N.[y]) l p' x'
  end.

(** A complete chain: no back link before it, NULL after it. *)
Definition dchain (N : gmap Z generic_node_t) (x : Z) (l : list Z) : Prop :=
  exists p', dseg N 0 x l p' 0.

Definition llen (l : list Z) : Z := Z.of_nat (length l).
Definition used (l : list Z) : Z := if decide (l = []) then 0 else 1.
Definition tri (n : Z) : Z := n * (n + 1) / 2.

(** [gh_repr N h ls]: [ls b] is the node list of bucket [b], every node is in
    one bucket once, and the statistics are exact. *)
Record gh_repr (N : gmap Z generic_node_t) (h : generic_hash_t) (ls : Z -> list Z) : Prop := {
  gr_size : exists k, 0 <= k <= 25 /\ hashsize h = 2 ^ k;
  gr_chain b : 0 <= b < hashsize h -> dchain N (bk_head (buckets h).[b]) (ls b);
  gr_count b : 0 <= b < hashsize h -> bk_ncount (buckets h).[b] = llen (ls b);
  gr_nodup b : 0 <= b < hashsize h -> NoDup (ls b);
  gr_disj b b' x : 0 <= b < hashsize h -> 0 <= b' < hashsize h -> x ∈ ls b -> x ∈ ls b' -> b = b';
  gr_ncount : ncount h = zsum (fun b => llen (ls b)) (seqZ 0 (hashsize h));
  gr_bcount : bcount h
    = zsum (fun b => used (ls b)) (seqZ 0 (hashsize h));
  gr_weight : weight h
    = u64 (zsum (fun b => tri (llen (ls b))) (seqZ 0 (hashsize h)));
  gr_bound : ncount h < 2 ^ 32;
  gr_nmax : ncount h <= nmax h;
  gr_bmax : bcount h <= bmax h;
  gr_lmax b : 0 <= b < hashsize h -> llen (ls b) <= lmax h
}.

(** ** Chains *)

Section chains.
Implicit Types (N : gmap Z generic_node_t) (l : list Z).

Lemma dseg_app N p x l1 l2 p' x' :
  dseg N p x (l1 ++ l2) p' x' <-> exists q y, dseg N p x l1 q y /\ dseg N q y l2 p' x'.
Proof.
  revert p x. induction l1 as [|z l1 IH]; intros p x; cbn.
  - split; [intros H; by exists p, x|]. intros (q & y & [-> ->] & H). done.
  - rewrite IH. naive_solver.
Qed.

Lemma dseg_frame N N' p x l p' x' :
  (forall y, y ∈ l -> N'.[y] = N.[y]) -> dseg N p x l p' x' -> dseg N' p x l p' x'.
Proof.
  revert p x. induction l as [|z l IH]; intros p x E; cbn; [done|].
  rewrite (E z) by set_solver. intros (-> & ? & ? & H). split_and!; try done.
  apply IH; [|done]. set_solver.
Qed.

Lemma dchain_frame N N' x l :
  (forall y, y ∈ l -> N'.[y] = N.[y]) -> dchain N x l -> dchain N' x l.
Proof. intros E [p' H]. exists p'. by apply (dseg_frame N). Qed.

Lemma dseg_nonzero N p x l p' x' y : dseg N p x l p' x' -> y ∈ l -> y <> 0.
Proof.
  revert p x. induction l as [|z l IH]; intros p x; cbn; [set_solver|].
  intros (-> & ? & ? & H) Hy. apply elem_of_cons in Hy as [->|Hy]; eauto.
Qed.

(** Redirecting the first back link and the last forward link. *)
Lemma dseg_set_first N p q x y l p' x' :
  y ∉ l -> dseg N p x (y :: l) p' x' ->
  dseg N.[y <- set_gprev q N.[y]] q x (y :: l) p' x'.
Proof.
  intros Hy. cbn. intros (-> & Hn & Hp & H). rewrite aget_aset_eq. cbn.
  split_and!; try done. apply (dseg_frame N); [|done].
  intros z Hz. apply aget_aset_ne. intros ->. done.
Qed.

Lemma dseg_set_last N p x l m p' x' v :
  m ∉ l -> dseg N p x (l ++ [m]) p' x' ->
  p' = m /\ x' = gn_next N.[m] /\
  dseg N.[m <- set_gnext v N.[m]] p x (l ++ [m]) m v.
Proof.
  intros Hm H. apply dseg_app in H as (q & y & H1 & H2).
  destruct H2 as (-> & Hn & Hp & <- & <-). split_and!; try done.
  apply dseg_app. exists q, m. split.
  - apply (dseg_frame N); [|done]. intros z Hz. apply aget_aset_ne. intros ->. done.
  - cbn. rewrite aget_aset_eq. done.
Qed.

Lemma dchain_nil N x : dchain N x [] <-> x = 0.
Proof. split; [intros [p [_ ->]]; done|]. intros ->. by exists 0. Qed.

(** Pushing a fresh node in front. *)
Lemma dchain_push N x l node :
  node <> 0 -> node ∉ l -> NoDup l -> dchain N x l ->
  let N1 := N.[node <- mk_gnode 0 0] in
  let N2 := if decide (x <> 0) then
              let N1 := N1.[node <- set_gnext x N1.[node]] in
              N1.[x <- set_gprev node N1.[x]]
            else N1 in
  dchain N2 node (node :: l) /\ (forall y, y ∉ node :: l -> N2.[y] = N.[y]).
Proof.
  intros Hnz Hni Hnd [p' H]. cbv zeta. destruct l as [|y l].
  - destruct H as [_ ->]. rewrite decide_False by auto. split.
    + exists node. cbn. rewrite aget_aset_eq. done.
    + intros z Hz. apply aget_aset_ne. set_solver.
  - assert (x = y /\ y <> 0) as [-> Hy] by (destruct H as (? & ? & _); done).
    rewrite decide_True by done. apply NoDup_cons in Hnd as [Hy' _].
    rewrite !aget_aset_eq, aset_aset. unfold set_gnext at 1 2. cbn [gn_prev gn_next].
    set (M := N.[node <- mk_gnode 0 y]).
    assert (Hne : node <> y) by set_solver.
    split.
    + assert (H' : dseg M 0 y (y :: l) p' 0).
      { apply (dseg_frame N); [|done]. intros z Hz. apply aget_aset_ne. intros ->. done. }
      apply (dseg_set_first _ _ node) in H'; [|done].
      exists p'. split; [done|]. split; [done|].
      assert (E : M.[y <- set_gprev node M.[y]].[node] = mk_gnode 0 y).
      { rewrite (aget_aset_ne M) by done. apply aget_aset_eq. }
      rewrite E. split; [done|]. exact H'.
    + intros z Hz. rewrite (aget_aset_ne M) by set_solver.
      apply aget_aset_ne. set_solver.
Qed.

(** Taking a node out of the middle. *)
Lemma dchain_unlink N x l1 node l2 :
  NoDup (l1 ++ node :: l2) -> dchain N x (l1 ++ node :: l2) ->
  let '(N', x') :=
    if decide (node = x) then
      (if decide (gn_next N.[node] <> 0)
       then N.[gn_next N.[node] <- set_gprev 0 N.[gn_next N.[node]]] else N, gn_next N.[node])
    else
      let N := N.[gn_prev N.[node] <- set_gnext (gn_next N.[node]) N.[gn_prev N.[node]]] in
      (if decide (gn_next N.[node] <> 0)
       then N.[gn_next N.[node] <- set_gprev (gn_prev N.[node]) N.[gn_next N.[node]]] else N, x) in
  dchain N' x' (l1 ++ l2) /\ (forall y, y ∉ l1 ++ l2 -> N'.[y] = N.[y]).
Proof.
  intros Hnd [p' H]. apply NoDup_app in Hnd as (Hnd1 & Hd & Hnd2).
  apply NoDup_cons in Hnd2 as [Hn2 Hnd2].
  apply dseg_app in H as (q & y & H1 & H2). cbn in H2. destruct H2 as (-> & Hnz & Hp & H2).
  (* the part after the node, re-hung behind [q'] *)
  assert (Hrest : forall M q', (forall z, z ∈ l2 -> M.[z] = N.[z]) ->
    exists p'', dseg (if decide (gn_next N.[node] <> 0)
                   then M.[gn_next N.[node] <- set_gprev q' M.[gn_next N.[node]]] else M)
               q' (gn_next N.[node]) l2 p'' 0 /\ (l2 = [] -> gn_next N.[node] = 0) /\
      (forall z, z ∉ l2 -> (if decide (gn_next N.[node] <> 0)
                   then M.[gn_next N.[node] <- set_gprev q' M.[gn_next N.[node]]] else M).[z] = M.[z])).
  { intros M q' E. destruct l2 as [|w l2].
    - destruct H2 as [_ E0]. rewrite E0. rewrite decide_False by auto.
      exists q'. cbn. auto.
    - assert (gn_next N.[node] = w /\ w <> 0) as [Ew Hw] by (destruct H2 as (? & ? & _); done).
      rewrite Ew, decide_True by done. apply NoDup_cons in Hnd2 as [Hw2 _].
      exists p'. rewrite Ew in H2. split; [|split; [done|]].
      + eapply (dseg_set_first M node); [done|]. eapply (dseg_frame N); [|exact H2]. done.
      + intros z Hz. apply aget_aset_ne. set_solver. }
  destruct l1 as [|m l1 _] using rev_ind.
  - destruct H1 as [<- ->]. rewrite decide_True by done.
    destruct (Hrest N 0) as (p'' & Hs & _ & Hf); [done|]. cbn [app]. split; [by exists p''|done].
  - assert (Hm : m ∉ l1).
    { apply NoDup_app in Hnd1 as (_ & Hd1 & _). set_solver. }
    pose proof (dseg_set_last N 0 x l1 m q node (gn_next N.[node]) Hm H1) as (Hqm & En & H1').
    rewrite Hqm in Hp, H1.
    assert (Hnx : node <> x).
    { destruct (l1 ++ [m]) as [|z k] eqn:E; [by destruct l1|].
      destruct H1 as [-> _]. specialize (Hd z). intros ->. apply Hd; set_solver. }
    rewrite decide_False by done. rewrite Hp. cbv zeta.
    assert (Hne : m <> node) by (specialize (Hd m); set_solver).
    set (M := N.[m <- set_gnext (gn_next N.[node]) N.[m]]) in *.
    assert (EM : M.[node] = N.[node]) by (apply aget_aset_ne; done).
    rewrite EM, Hp.
    destruct (Hrest M m) as (p'' & Hs & _ & Hf).
    { intros z Hz. apply aget_aset_ne. specialize (Hd m). set_solver. }
    split.
    + exists p''. apply dseg_app. exists m, (gn_next N.[node]). split; [|done].
      apply (dseg_frame M); [|done]. intros z Hz. apply Hf. specialize (Hd z). set_solver.
    + intros z Hz. rewrite Hf by set_solver. apply aget_aset_ne. set_solver.
Qed.

(** A search along a chain. *)
Lemma find_node_loop_chain N cmp p x l p' :
  dseg N p x l p' 0 ->
  forall fuel, (length l < fuel)%nat -> find_node_loop fuel N cmp x = Some (first_such cmp l).
Proof.
  revert p x. induction l as [|y l IH]; intros p x H [|fuel] Hf; cbn in Hf; try lia.
  - destruct H as [_ ->]. done.
  - destruct H as (-> & Hy & _ & H). cbn. rewrite decide_False by done.
    destruct (cmp y); [done|]. eapply IH; [exact H|lia].
Qed.
End chains.
