(* ===== verification/GenericHashRun.v ===== *)
(** * Correctness of the generic hash table

    The table's operations keep [gh_repr]; in every state a caller that inserts
    each node once and frees it with the hash it was inserted with can reach, a
    search returns a live node of the bucket that compares equal, or NULL when
    there is none, a traversal visits every live node once and the statistics
    count the live nodes.  The caller may write to nodes that are not in the
    table. *)
From S2P Require Import Prelude GenericHash.

Implicit Types (N : gmap Z generic_node_t) (h : generic_hash_t) (ls : Z -> list Z).

Definition upd (ls : Z -> list Z) (b : Z) (l : list Z) : Z -> list Z :=
  fun b' => if decide (b' = b) then l else ls b'.

Lemma upd_eq ls b l : upd ls b l b = l.
Proof. unfold upd. by rewrite decide_True. Qed.
Lemma upd_ne ls b b' l : b' <> b -> upd ls b l b' = ls b'.
Proof. intros. unfold upd. by rewrite decide_False. Qed.

(** ** Initialisation *)

Lemma land_top_bit t : 0 <= t < 2 ^ 32 -> Z.land t 0x80000000 = 0 <-> t < 2 ^ 31.
Proof.
  intros Ht. change 0x80000000 with (2 ^ 31). split.
  - intros E. destruct (decide (t < 2 ^ 31)) as [|Hge]; [done|].
    assert (Z.testbit (Z.land t (2 ^ 31)) 31 = true) as E'; [|by rewrite E, Z.bits_0 in E'].
    rewrite Z.land_spec, Z.pow2_bits_true, andb_true_r by lia.
    apply Z.testbit_true; [lia|]. assert (t / 2 ^ 31 = 1) as ->; [|done].
    symmetry. apply (Z.div_unique _ _ _ (t - 2 ^ 31)); lia.
  - intros Hlt. apply Z.bits_inj'. intros n Hn. rewrite Z.land_spec, Z.bits_0.
    rewrite Z.pow2_bits_eqb by lia. destruct (Z.eqb_spec 31 n) as [<-|]; [|by rewrite andb_false_r].
    rewrite andb_true_r. destruct (decide (t = 0)) as [->|]; [by rewrite Z.bits_0|].
    apply Z.bits_above_log2; [lia|]. apply Z.log2_lt_pow2; lia.
Qed.

Lemma admit_loop_spec i fuel s :
  (i <= 31)%nat -> (32 - i <= fuel)%nat -> 0 < s -> s * 2 ^ Z.of_nat i < 2 ^ 32 ->
  exists k, 0 <= k <= 31 /\ 2 ^ k <= s < 2 ^ (k + 1) /\
    admit_loop fuel (s * 2 ^ Z.of_nat i) (2 ^ (31 - Z.of_nat i)) = Some (2 ^ k).
Proof.
  intros Hi. remember (31 - i)%nat as m eqn:Em. revert i fuel Hi Em.
  induction m as [|m IH]; intros i fuel Hi Em Hf Hs Hlt;
    (destruct fuel as [|fuel]; [lia|]); cbn [admit_loop].
  - assert (i = 31)%nat as -> by lia. change (Z.of_nat 31) with 31 in *.
    exists 0. rewrite decide_False; [split_and!; try lia; done|].
    rewrite land_top_bit by lia. lia.
  - destruct (decide (Z.land (s * 2 ^ Z.of_nat i) 2147483648 = 0)) as [E|E].
    + apply land_top_bit in E; [|lia].
      destruct (IH (S i) fuel) as (k & Hk & Hr & Hl); try lia.
      { rewrite Nat2Z.inj_succ, Z.pow_succ_r by lia. lia. }
      exists k. split; [done|]. split; [done|]. rewrite <- Hl. f_equal.
      * rewrite Z.shiftl_mul_pow2 by lia. rewrite wrap_small by lia.
        rewrite Nat2Z.inj_succ, Z.pow_succ_r by lia. lia.
      * rewrite Z.shiftr_div_pow2 by lia.
        replace (31 - Z.of_nat i) with (31 - Z.of_nat (S i) + 1) by lia.
        rewrite Z.pow_add_r, Z.div_mul by lia. done.
    + rewrite land_top_bit in E by lia. exists (31 - Z.of_nat i). split; [lia|]. split; [|done].
      set (j := Z.of_nat i) in *. assert (0 <= j <= 31) by lia.
      assert (2 ^ 31 = 2 ^ (31 - j) * 2 ^ j) as E31 by (rewrite <- Z.pow_add_r by lia; f_equal; lia).
      assert (2 ^ 32 = 2 ^ (31 - j + 1) * 2 ^ j) as E32 by (rewrite <- Z.pow_add_r by lia; f_equal; lia).
      assert (0 < 2 ^ j) by (apply Z.pow_pos_nonneg; lia). nia.
Qed.

Lemma zsum_zero (f : Z -> Z) l : (forall i, i ∈ l -> f i = 0) -> zsum f l = 0.
Proof. induction l as [|x l IH]; intros E; cbn; [done|]. rewrite E, IH by set_solver. done. Qed.

Lemma gh_repr_init N k hmax : 0 <= k <= 25 ->
  gh_repr N (mk_ghash (2 ^ k) hmax 0 0 0 0 0 0 ∅) (fun _ => []).
Proof.
  intros Hk. split; cbn; intros; try done; try (rewrite zsum_zero; done).
  - by exists k.
  - rewrite aget_empty. by exists 0.
  - constructor.
  - set_solver.
Qed.

Lemma hashInit_result h hsize hmax :
  0 < hsize < 2 ^ 32 -> 0 < hmax < 2 ^ 32 ->
  exists k, 0 <= k <= 25 /\ 2 ^ k <= Z.min hsize (2 ^ 25) < 2 ^ (k + 1) /\
    hashInit 32 (Some h) hsize hmax true
    = Some (Some (mk_ghash (2 ^ k) hmax 0 0 0 0 0 0 ∅), 0).
Proof.
  intros Hs Hm. unfold hashInit. rewrite decide_False by lia.
  set (s := if decide (GENERIC_MAX_HASH_SIZE < hsize) then GENERIC_MAX_HASH_SIZE else hsize).
  assert (Es : s = Z.min hsize (2 ^ 25)).
  { unfold s, GENERIC_MAX_HASH_SIZE. destruct (decide (33554432 < hsize)); lia. }
  destruct (admit_loop_spec 0 32 s) as (k & Hk & Hr & E); try lia.
  change (Z.of_nat 0) with 0 in E. rewrite Z.pow_0_r, Z.mul_1_r in E.
  change (2 ^ (31 - 0)) with 2147483648 in E. rewrite E. cbn [obind].
  exists k. split; [|split; [lia|done]]. split; [lia|].
  destruct (decide (k <= 25)); [done|]. assert (2 ^ 26 <= 2 ^ k) by (apply Z.pow_le_mono_r; lia). lia.
Qed.

(** Initialising a table that gets its memory returns 0 and an empty table
    whose number of buckets is the largest power of two that is at most the
    requested size and at most 2^25: the loop ends within 32 rounds for every
    32-bit size. *)
Theorem hashInit_spec h hsize hmax :
  0 < hsize < 2 ^ 32 -> 0 < hmax < 2 ^ 32 ->
  exists h', hashInit 32 (Some h) hsize hmax true = Some (Some h', 0) /\
    (exists k, hashsize h' = 2 ^ k /\ 2 ^ k <= Z.min hsize (2 ^ 25) < 2 ^ (k + 1)) /\
    hashmax h' = hmax /\ forall N, gh_repr N h' (fun _ => []).
Proof.
  intros Hs Hm. destruct (hashInit_result h hsize hmax Hs Hm) as (k & Hk & Hr & E).
  eexists. split; [exact E|]. cbn [hashsize hashmax].
  split; [by exists k|]. split; [done|]. intros N. by apply gh_repr_init.
Qed.

(** ** Inserting and freeing *)

Lemma buck_index_range N h ls hash : gh_repr N h ls -> 0 <= buck_index h hash < hashsize h.
Proof.
  intros [[k [Hk E]] _]. unfold buck_index. rewrite E, wrap_land by lia. apply wrap_range. lia.
Qed.

Lemma bucket_in h b : 0 <= b < hashsize h -> b ∈ seqZ 0 (hashsize h).
Proof. intros. apply elem_of_seqZ. lia. Qed.

Lemma len_le_ncount N h ls b : gh_repr N h ls -> 0 <= b < hashsize h ->
  llen (ls b) <= ncount h.
Proof.
  intros Hr Hb. rewrite (gr_ncount _ _ _ Hr).
  apply (zsum_ge (fun b => llen (ls b))); [unfold llen; lia|]. by apply bucket_in.
Qed.

Lemma used_cons x l : used (x :: l) = 1.
Proof. done. Qed.

Lemma used_llen l : used l = 0 /\ llen l = 0 \/ used l = 1 /\ 0 < llen l.
Proof. unfold used, llen. destruct l; cbn; [left|right]; repeat split; lia. Qed.

Lemma llen_cons x l : llen (x :: l) = llen l + 1.
Proof. unfold llen. cbn. lia. Qed.

Lemma bcount_le N h ls : gh_repr N h ls -> bcount h <= hashsize h.
Proof.
  intros Hr. rewrite (gr_bcount _ _ _ Hr).
  assert (forall l, zsum (fun b => used (ls b)) l <= Z.of_nat (length l)).
  { intros l. induction l as [|x l IH]; cbn [zsum length]; [done|]. pose proof (used_llen (ls x)). lia. }
  etrans; [apply H|]. rewrite length_seqZ. destruct (gr_size _ _ _ Hr) as [k [Hk E]].
  assert (0 < hashsize h) by (rewrite E; lia). lia.
Qed.

Lemma size_bound N h ls : gh_repr N h ls -> 0 < hashsize h <= 2 ^ 25.
Proof.
  intros Hr. destruct (gr_size _ _ _ Hr) as [k [Hk E]]. rewrite E. split; [lia|].
  apply Z.pow_le_mono_r; lia.
Qed.

Lemma tri_succ n : 0 <= n -> tri (n + 1) = tri n + (n + 1).
Proof.
  intros Hn. unfold tri. replace ((n + 1) * (n + 1 + 1)) with (n * (n + 1) + (n + 1) * 2) by lia.
  rewrite Z.div_add by lia. lia.
Qed.

Lemma zsum_bucket (f : list Z -> Z) h ls b l :
  0 <= b < hashsize h ->
  zsum (fun b' => f (upd ls b l b')) (seqZ 0 (hashsize h))
  = zsum (fun b' => f (ls b')) (seqZ 0 (hashsize h)) - f (ls b) + f l.
Proof.
  intros Hb. rewrite (zsum_update (fun b' => f (ls b')) _ _ b).
  - by rewrite upd_eq.
  - apply NoDup_seqZ.
  - by apply bucket_in.
  - intros i Hi. by rewrite upd_ne.
Qed.

Lemma upd_disj ls b l h :
  (forall x, x ∈ l -> x ∈ ls b \/ forall b', 0 <= b' < hashsize h -> x ∉ ls b') ->
  (forall b1 b2 x, 0 <= b1 < hashsize h -> 0 <= b2 < hashsize h -> x ∈ ls b1 -> x ∈ ls b2 -> b1 = b2) ->
  0 <= b < hashsize h ->
  forall b1 b2 x, 0 <= b1 < hashsize h -> 0 <= b2 < hashsize h ->
    x ∈ upd ls b l b1 -> x ∈ upd ls b l b2 -> b1 = b2.
Proof.
  intros Hl Hd Hb b1 b2 x H1 H2. unfold upd.
  destruct (decide (b1 = b)) as [->|], (decide (b2 = b)) as [->|]; intros Hx1 Hx2; try done.
  - destruct (Hl x Hx1) as [?|Hn]; [eauto|]. by destruct (Hn b2).
  - destruct (Hl x Hx2) as [?|Hn]; [eauto|]. by destruct (Hn b1).
  - eauto.
Qed.

Lemma max_if a b : (if decide (a < b) then b else a) = Z.max a b.
Proof. destruct (decide (a < b)); lia. Qed.

(** What both operations do: bucket [b] gets the chain of [l]. *)
Lemma gh_repr_update N h ls b l N' h' x :
  gh_repr N h ls -> 0 <= b < hashsize h ->
  hashsize h' = hashsize h -> buckets h' = (buckets h).[b <- mk_gbuck (llen l) x] ->
  dchain N' x l -> NoDup l ->
  (forall x, x ∈ l -> x ∈ ls b \/ forall b', 0 <= b' < hashsize h -> x ∉ ls b') ->
  (forall y, y ∉ ls b -> y ∉ l -> N'.[y] = N.[y]) ->
  ncount h' = ncount h - llen (ls b) + llen l ->
  bcount h' = bcount h - used (ls b) + used l ->
  weight h' = u64 (weight h - tri (llen (ls b)) + tri (llen l)) ->
  ncount h' < 2 ^ 32 -> ncount h' <= nmax h' -> bcount h' <= bmax h' ->
  llen l <= lmax h' -> lmax h <= lmax h' ->
  gh_repr N' h' (upd ls b l).
Proof.
  intros Hr Hb Es Eb Hch Hnd Hl Hfr Enc Ebc Ew Hbd Hnm Hbm Hl1 Hl2.
  split; rewrite ?Es, ?Eb; try done.
  - apply (gr_size _ _ _ Hr).
  - intros b' Hb'. destruct (decide (b' = b)) as [->|Hne].
    + by rewrite aget_aset_eq, upd_eq.
    + rewrite aget_aset_ne, upd_ne by done. apply (dchain_frame N); [|by apply (gr_chain _ _ _ Hr)].
      intros y Hy. apply Hfr; intros Hy'.
      * by specialize (gr_disj _ _ _ Hr b' b y Hb' Hb Hy Hy').
      * destruct (Hl y Hy') as [Hy2|Hn]; [|by apply (Hn b')].
        by specialize (gr_disj _ _ _ Hr b' b y Hb' Hb Hy Hy2).
  - intros b' Hb'. destruct (decide (b' = b)) as [->|Hne].
    + by rewrite aget_aset_eq, upd_eq.
    + rewrite aget_aset_ne, upd_ne by done. by apply (gr_count _ _ _ Hr).
  - intros b' Hb'. destruct (decide (b' = b)) as [->|Hne]; [by rewrite upd_eq|].
    rewrite upd_ne by done. by apply (gr_nodup _ _ _ Hr).
  - apply (upd_disj ls b l h); [done|apply (gr_disj _ _ _ Hr)|done].
  - rewrite (zsum_bucket llen) by done.
    rewrite Enc, (gr_ncount _ _ _ Hr). done.
  - rewrite (zsum_bucket used) by done.
    rewrite Ebc, (gr_bcount _ _ _ Hr). done.
  - rewrite (zsum_bucket (fun l => tri (llen l))) by done.
    rewrite Ew, (gr_weight _ _ _ Hr).  rewrite <- wrap_add_l, wrap_sub_l, wrap_add_l. done.
  - intros b' Hb'. destruct (decide (b' = b)) as [->|Hne]; [by rewrite upd_eq|].
    rewrite upd_ne by done. pose proof (gr_lmax _ _ _ Hr b' Hb'). lia.
Qed.

Lemma bcount_ge N h ls b : gh_repr N h ls -> 0 <= b < hashsize h -> used (ls b) <= bcount h.
Proof.
  intros Hr Hb. rewrite (gr_bcount _ _ _ Hr).
  apply (zsum_ge (fun b => used (ls b))); [|by apply bucket_in].
  intros i. unfold used. case_decide; lia.
Qed.

Lemma hashInsertNode_repr N h ls hash node N' h' :
  gh_repr N h ls -> node <> 0 -> (forall b, 0 <= b < hashsize h -> node ∉ ls b) ->
  ncount h + 1 < 2 ^ 32 -> hashInsertNode N h hash node = (N', h') ->
  let b := buck_index h hash in
  gh_repr N' h' (upd ls b (node :: ls b)) /\ hashsize h' = hashsize h /\ ncount h' = ncount h + 1 /\
  (forall y, y ∉ node :: ls b -> N'.[y] = N.[y]).
Proof.
  intros Hr Hnz Hfresh Hbd E. pose proof (buck_index_range _ _ _ hash Hr) as Hb.
  set (b := buck_index h hash) in *. cbv zeta.
  pose proof (gr_count _ _ _ Hr b Hb) as Hc. pose proof (len_le_ncount _ _ _ _ Hr Hb) as Hlen.
  pose proof (bcount_le _ _ _ Hr) as Hbc. pose proof (size_bound _ _ _ Hr) as Hsz.
  pose proof (bcount_ge _ _ _ _ Hr Hb) as Hbg. pose proof (used_llen (ls b)) as Hu.
  pose proof (gr_bmax _ _ _ Hr) as Hbm.
  pose proof (dchain_push N _ _ node Hnz (Hfresh b Hb) (gr_nodup _ _ _ Hr b Hb)
    (gr_chain _ _ _ Hr b Hb)) as [Hch Hfr].
  unfold hashInsertNode in E. fold b in E. cbv zeta in E, Hch, Hfr. cbn [bk_ncount] in E.
  set (N2 := if decide (bk_head (buckets h).[b] <> 0) then _ else _) in *.
  rewrite !max_if, Hc in E.
  rewrite (wrap_small 32 (llen (ls b) + 1)), (wrap_small 32 (ncount h + 1)),
    (wrap_small 32 (bcount h + 1)) in E by lia.
  assert (Hbcm : exists bc bm, (if decide (llen (ls b) + 1 = 1)
      then (bcount h + 1, Z.max (bmax h) (bcount h + 1)) else (bcount h, bmax h)) = (bc, bm) /\
      bc = bcount h - used (ls b) + 1 /\ bc <= bm).
  { destruct (decide (llen (ls b) + 1 = 1)); do 2 eexists; (split; [reflexivity|]); lia. }
  destruct Hbcm as (bc & bm & Ebc & Hbc1 & Hbc2). rewrite Ebc in E. injection E as <- <-.
  cbn [hashsize ncount]. split_and!; try done.
  apply (gh_repr_update N h ls b _ _ _ node);
    cbn [hashsize buckets bcount bmax ncount nmax lmax weight];
    rewrite ?used_cons, ?llen_cons; try done; try lia.
  - apply NoDup_cons. split; [by apply Hfresh|by apply (gr_nodup _ _ _ Hr)].
  - intros x Hx. apply elem_of_cons in Hx as [->|Hx]; [right; auto|by left].
  - intros y _ Hy. by apply Hfr.
  - f_equal. rewrite tri_succ by (unfold llen; lia). lia.
Qed.

Lemma filter_split l1 (node : Z) l2 : NoDup (l1 ++ node :: l2) ->
  filter (fun x => x <> node) (l1 ++ node :: l2) = l1 ++ l2.
Proof.
  intros Hnd. apply NoDup_app in Hnd as (_ & Hd & Hnd). apply NoDup_cons in Hnd as [Hn _].
  rewrite filter_app, filter_cons_False by auto.
  rewrite !filter_all; [done| |].
  - intros x Hx ->. done.
  - intros x Hx ->. apply (Hd node Hx). set_solver.
Qed.

Lemma llen_split l1 (node : Z) l2 : llen (l1 ++ node :: l2) = llen (l1 ++ l2) + 1.
Proof. unfold llen. rewrite !length_app. cbn. lia. Qed.

Lemma hashFreeNode_repr N h ls hash node N' h' :
  gh_repr N h ls -> node ∈ ls (buck_index h hash) ->
  hashFreeNode N h node hash = (N', h') ->
  let b := buck_index h hash in
  gh_repr N' h' (upd ls b (filter (fun x => x <> node) (ls b))) /\ hashsize h' = hashsize h /\
  ncount h' = ncount h - 1 /\ (forall y, y ∉ ls b -> N'.[y] = N.[y]).
Proof.
  intros Hr Hin E. pose proof (buck_index_range _ _ _ hash Hr) as Hb.
  set (b := buck_index h hash) in *. cbv zeta.
  pose proof (gr_count _ _ _ Hr b Hb) as Hc. pose proof (len_le_ncount _ _ _ _ Hr Hb) as Hlen.
  pose proof (bcount_le _ _ _ Hr) as Hbc. pose proof (size_bound _ _ _ Hr) as Hsz.
  pose proof (gr_bound _ _ _ Hr) as Hbd. pose proof (gr_nodup _ _ _ Hr b Hb) as Hnd.
  pose proof (bcount_ge _ _ _ _ Hr Hb) as Hbg. pose proof (gr_chain _ _ _ Hr b Hb) as Hch0.
  pose proof (gr_lmax _ _ _ Hr b Hb) as Hlm. pose proof (gr_nmax _ _ _ Hr). pose proof (gr_bmax _ _ _ Hr).
  apply list_elem_of_split in Hin as (l1 & l2 & El). rewrite El in Hnd, Hch0, Hbg, Hc, Hlen, Hlm.
  rewrite llen_split in Hc, Hlen, Hlm.
  replace (used (l1 ++ node :: l2)) with 1 in Hbg by (by destruct l1).
  pose proof (dchain_unlink N _ l1 node l2 Hnd Hch0) as Hch.
  pose proof (used_llen (l1 ++ l2)) as Hu. rewrite El, filter_split by done.
  assert (Hhd : bk_head (buckets h).[b] <> 0).
  { destruct Hch0 as [p' Hs]. destruct (l1 ++ node :: l2) as [|z k] eqn:Ek; [by destruct l1|].
    destruct Hs as (Ez & Hz & _). congruence. }
  unfold hashFreeNode in E. fold b in E. cbv zeta in E, Hch.
  rewrite (decide_False (P := _ /\ _)) in E by tauto.
  set (u := if decide (node = bk_head (buckets h).[b]) then _ else _) in *.
  destruct u as [N2 x2]. destruct Hch as [Hch Hfr]. cbn [bk_ncount] in E. rewrite Hc in E.
  rewrite (wrap_small 32 (llen (l1 ++ l2) + 1 - 1)), (wrap_small 32 (ncount h - 1)),
    (wrap_small 32 (bcount h - 1)) in E by lia.
  rewrite Z.add_simpl_r, (wrap_small 32 (llen (l1 ++ l2) + 1)) in E by lia.
  injection E as <- <-. cbn [hashsize ncount]. split_and!; try done.
  - apply (gh_repr_update N h ls b _ _ _ x2);
      cbn [hashsize buckets bcount bmax ncount nmax lmax weight];
      rewrite ?El, ?llen_split; replace (used (l1 ++ node :: l2)) with 1 by (by destruct l1);
      try done; try lia.
    + rewrite <- (filter_split l1 node l2 Hnd). by apply NoDup_filter.
    + intros x Hx. left. set_solver.
    + intros y _ Hy. by apply Hfr.
    + destruct (decide (llen (l1 ++ l2) = 0)); lia.
    + f_equal. rewrite tri_succ by (unfold llen; lia). lia.
    + destruct (decide (llen (l1 ++ l2) = 0)); lia.
  - intros y Hy. apply Hfr. set_solver.
Qed.

(** ** Runs of the table *)

(** [live] remembers the hash each node in the table was inserted with. *)
Definition gh_state : Type := gmap Z generic_node_t * generic_hash_t * gmap Z Z.

Inductive gh_step : gh_state -> gh_state -> Prop :=
| gh_insert N h live node hash N' h' :
    node <> 0 -> live !! node = None -> ncount h + 1 < 2 ^ 32 ->
    hashInsertNode N h hash node = (N', h') ->
    gh_step (N, h, live) (N', h', <[node := hash]> live)
| gh_free N h live node hash N' h' :
    live !! node = Some hash -> hashFreeNode N h node hash = (N', h') ->
    gh_step (N, h, live) (N', h', delete node live)
| gh_write N h live node v :
    live !! node = None -> gh_step (N, h, live) (N.[node <- v], h, live).

Definition gh_init (s : gh_state) : Prop :=
  let '(N, h, live) := s in
  live = ∅ /\ exists h0 hsize hmax, 0 < hsize < 2 ^ 32 /\ 0 < hmax < 2 ^ 32 /\
    hashInit 32 (Some h0) hsize hmax true = Some (Some h, 0).

Definition in_bucket h (live : gmap Z Z) (b x : Z) : Prop :=
  exists hash, live !! x = Some hash /\ buck_index h hash = b.

Definition gh_inv (s : gh_state) : Prop :=
  let '(N, h, live) := s in
  exists ls, gh_repr N h ls /\ live !! 0 = None /\ ncount h = Z.of_nat (size live) /\
    forall b x, 0 <= b < hashsize h -> (x ∈ ls b <-> in_bucket h live b x).

Lemma buck_index_eq h h' hash : hashsize h' = hashsize h -> buck_index h' hash = buck_index h hash.
Proof. unfold buck_index. by intros ->. Qed.

Lemma gh_step_insert N h live node hash N' h' :
  gh_inv (N, h, live) -> node <> 0 -> live !! node = None -> ncount h + 1 < 2 ^ 32 ->
  hashInsertNode N h hash node = (N', h') -> gh_inv (N', h', <[node := hash]> live).
Proof.
  intros (ls & Hr & H0 & Hn & Hin) Hnz Hfr Hbd E.
  pose proof (buck_index_range _ _ _ hash Hr) as Hb.
  apply (hashInsertNode_repr _ _ ls) in E as (Hr' & Es & En & _); [|done|done| |done].
  2:{ intros b Hb' Hx. apply Hin in Hx as (? & ? & _); [congruence|done]. }
  eexists. split; [exact Hr'|]. split; [by rewrite lookup_insert_ne|]. split.
  { rewrite map_size_insert_None by done. lia. }
  intros b x. rewrite Es. intros Hb'. unfold in_bucket.
  setoid_rewrite (buck_index_eq h h' _ Es). unfold upd.
  destruct (decide (x = node)) as [->|Hne].
  - rewrite lookup_insert_eq. destruct (decide (b = buck_index h hash)) as [->|Hbne].
    + split; [by exists hash|]. set_solver.
    + split; [|naive_solver]. intros Hx. apply Hin in Hx as (? & ? & _); [congruence|done].
  - rewrite lookup_insert_ne by done.
    destruct (decide (b = buck_index h hash)) as [->|Hbne]; [|by apply Hin].
    rewrite elem_of_cons, Hin by done. unfold in_bucket. naive_solver.
Qed.

Lemma gh_step_free N h live node hash N' h' :
  gh_inv (N, h, live) -> live !! node = Some hash ->
  hashFreeNode N h node hash = (N', h') -> gh_inv (N', h', delete node live).
Proof.
  intros (ls & Hr & H0 & Hn & Hin) Hl E.
  pose proof (buck_index_range _ _ _ hash Hr) as Hb.
  apply (hashFreeNode_repr _ _ ls) in E as (Hr' & Es & En & _); [|done|].
  2:{ apply Hin; [done|]. by exists hash. }
  eexists. split; [exact Hr'|]. split.
  { destruct (decide (node = 0)) as [->|]; [congruence|]. by rewrite lookup_delete_ne. }
  split.
  { rewrite map_size_delete_Some by by exists hash.
    assert (size live <> 0)%nat; [|lia]. intros Hs. apply map_size_empty_inv in Hs. naive_solver. }
  intros b x. rewrite Es. intros Hb'. unfold in_bucket.
  setoid_rewrite (buck_index_eq h h' _ Es). unfold upd.
  destruct (decide (x = node)) as [->|Hne].
  - rewrite lookup_delete_eq. split; [|naive_solver].
    destruct (decide (b = buck_index h hash)) as [->|Hbne].
    { rewrite list_elem_of_filter. by intros [? _]. }
    intros Hx. apply Hin in Hx as (? & ? & ?); [congruence|done].
  - rewrite lookup_delete_ne by done.
    destruct (decide (b = buck_index h hash)) as [->|Hbne]; [|by apply Hin].
    rewrite list_elem_of_filter, Hin by done. unfold in_bucket. naive_solver.
Qed.

Lemma gh_step_write N h live node v :
  gh_inv (N, h, live) -> live !! node = None -> gh_inv (N.[node <- v], h, live).
Proof.
  intros (ls & Hr & H0 & Hn & Hin) Hl. exists ls. split_and!; try done.
  destruct Hr. split; try done. intros b Hb. apply (dchain_frame N); [|auto].
  intros y Hy. apply aget_aset_ne. intros ->. apply Hin in Hy as (? & ? & _); [congruence|done].
Qed.

Lemma gh_reach_inv s : reach gh_init gh_step s -> gh_inv s.
Proof.
  apply reach_invariant.
  - intros [[N h] live] (-> & h0 & hsize & hmax & Hs & Hm & E).
    destruct (hashInit_result h0 hsize hmax Hs Hm) as (k & Hk & _ & E').
    rewrite E' in E. injection E as <-.
    exists (fun _ => []). split; [by apply gh_repr_init|]. split; [done|]. split; [done|].
    intros b x _. split; [by intros ?%not_elem_of_nil|].
    intros (hash & Hl & _). by rewrite lookup_empty in Hl.
  - intros s1 s2 Hi Hst. destruct Hst; eauto using gh_step_insert, gh_step_free, gh_step_write.
Qed.

(** ** Properties *)

(** A search in a state with the invariant. *)
Lemma find_node_loop_live N h live hash (P : Z -> bool) fuel :
  gh_inv (N, h, live) -> (size live < fuel)%nat ->
  exists r, find_node_loop fuel N P (bk_head (buckets h).[buck_index h hash]) = Some r /\
    (r = 0 <-> forall x hx, live !! x = Some hx -> buck_index h hx = buck_index h hash -> P x = false) /\
    (r <> 0 -> P r = true /\ exists hx, live !! r = Some hx /\ buck_index h hx = buck_index h hash).
Proof.
  intros (ls & Hr & H0 & Hn & Hin) Hf.
  pose proof (buck_index_range _ _ _ hash Hr) as Hb.
  destruct (gr_chain _ _ _ Hr _ Hb) as [p' Hch].
  pose proof (len_le_ncount _ _ _ _ Hr Hb) as Hlen. unfold llen in Hlen.
  eexists. split. { apply (find_node_loop_chain _ _ _ _ _ _ Hch). lia. }
  assert (Hnz : forall y, y ∈ ls (buck_index h hash) -> y <> 0).
  { intros y Hy. by apply (dseg_nonzero _ _ _ _ _ _ _ Hch). }
  split.
  - split.
    + intros E x hx Hx Eb. destruct (P x) eqn:Ep; [|done]. exfalso.
      apply (first_such_hit P (ls (buck_index h hash)) x); try done.
      apply Hin; [done|]. by exists hx.
    + intros Hall. apply first_such_none. intros x Hx.
      apply Hin in Hx as (hx & Hx & Eb); [|done]. eauto.
  - intros Hn0. destruct (first_such_in P _ _ eq_refl Hn0) as [Hi Hp].
    split; [done|]. by apply Hin in Hi.
Qed.

(** C14: in every reachable table a search ends after at most one step per node
    of the table and answers with a live node of the searched bucket that
    compares equal, or with NULL exactly when no live node of the bucket does;
    the node count is the number of live nodes. *)
Theorem hash_find_live (key : Type) N h live hash (k : key) (cmp : key -> Z -> Z) :
  reach gh_init gh_step (N, h, live) ->
  ncount h = Z.of_nat (size live) /\
  exists r, hashFindNode (S (size live)) N h hash k cmp = Some r /\
    (r = 0 <-> forall x hx, live !! x = Some hx -> buck_index h hx = buck_index h hash ->
                 cmp k x <> 0) /\
    (r <> 0 -> cmp k r = 0 /\
       exists hx, live !! r = Some hx /\ buck_index h hx = buck_index h hash).
Proof.
  intros Hi%gh_reach_inv. split; [by destruct Hi as (ls & _ & _ & Hn & _)|].
  destruct (find_node_loop_live N h live hash (fun x => cmp k x =? 0) (S (size live)) Hi)
    as (r & E & Hz & Hnz); [lia|].
  exists r. split; [done|]. setoid_rewrite Z.eqb_neq in Hz. rewrite Z.eqb_eq in Hnz. done.
Qed.

(** Running a handler over a list until it asks to stop. *)
Fixpoint run_handler {ctx : Type} (handler : ctx -> Z -> ctx * Z) (context : ctx) (l : list Z) :
    ctx * bool :=
  match l with
  | [] => (context, false)
  | x :: l => let '(context, ret) := handler context x in
              if decide (ret <> 0) then (context, true) else run_handler handler context l
  end.

Lemma run_handler_app {ctx : Type} (handler : ctx -> Z -> ctx * Z) c l1 l2 :
  run_handler handler c (l1 ++ l2)
  = let '(c1, stop) := run_handler handler c l1 in
    if stop then (c1, true) else run_handler handler c1 l2.
Proof.
  revert c. induction l1 as [|x l1 IH]; intros c; cbn; [done|].
  destruct (handler c x) as [c1 ret]. destruct (decide (ret <> 0)); [done|]. apply IH.
Qed.

Lemma traverse_chain_spec {ctx : Type} fuel N (handler : ctx -> Z -> ctx * Z) c p x l p' :
  dseg N p x l p' 0 -> (length l < fuel)%nat ->
  traverse_chain fuel N handler c x = Some (run_handler handler c l).
Proof.
  revert fuel c p x. induction l as [|y l IH]; intros [|fuel] c p x H Hf; cbn in Hf; try lia.
  - destruct H as [_ ->]. done.
  - destruct H as (-> & Hy & _ & H). cbn. rewrite decide_False by done.
    destruct (handler c y) as [c1 ret]. destruct (decide (ret <> 0)); [done|].
    eapply IH; [exact H|lia].
Qed.

Lemma traverse_buckets_spec {ctx : Type} n fuel N h ls (handler : ctx -> Z -> ctx * Z) c i :
  gh_repr N h ls -> ncount h < Z.of_nat fuel -> 0 <= i -> i + Z.of_nat n = hashsize h ->
  traverse_buckets n fuel N h handler c i
  = Some (fst (run_handler handler c (concat (map ls (seqZ i (Z.of_nat n)))))).
Proof.
  intros Hr Hf. revert c i. induction n as [|n IH]; intros c i Hi E; [done|].
  cbn [traverse_buckets]. rewrite seqZ_cons by lia. cbn [map concat]. rewrite run_handler_app.
  assert (Hb : 0 <= i < hashsize h) by lia.
  destruct (gr_chain _ _ _ Hr i Hb) as [p' Hch].
  pose proof (len_le_ncount _ _ _ _ Hr Hb) as Hlen. unfold llen in Hlen.
  rewrite (traverse_chain_spec fuel N handler c 0 _ (ls i) p') by (done || lia).
  cbn [obind]. destruct (run_handler handler c (ls i)) as [c1 [|]]; [done|].
  rewrite IH by lia. replace (Z.pred (Z.of_nat (S n))) with (Z.of_nat n) by lia.
  replace (Z.succ i) with (i + 1) by lia. done.
Qed.

Lemma concat_NoDup N h ls n i :
  gh_repr N h ls -> 0 <= i -> i + Z.of_nat n <= hashsize h ->
  NoDup (concat (map ls (seqZ i (Z.of_nat n)))).
Proof.
  intros Hr. revert i. induction n as [|n IH]; intros i Hi Hn; [by apply NoDup_nil|].
  rewrite seqZ_cons by lia. cbn [map concat]. apply NoDup_app. split_and!.
  - apply (gr_nodup _ _ _ Hr). lia.
  - intros x Hx Hx2. apply list_elem_of_In, in_concat in Hx2 as (l & Hl & Hx2).
    apply in_map_iff in Hl as (j & <- & Hj). apply list_elem_of_In, elem_of_seqZ in Hj.
    apply list_elem_of_In in Hx2.
    pose proof (gr_disj _ _ _ Hr i j x ltac:(lia) ltac:(lia) Hx Hx2). lia.
  - replace (Z.pred (Z.of_nat (S n))) with (Z.of_nat n) by lia. apply IH; lia.
Qed.

(** In every reachable table a traversal hands every live node to the
    handler exactly once, in an order that does not depend on the handler, and
    ends early exactly when the handler asks to stop. *)
Theorem hash_traverse_all N h live :
  reach gh_init gh_step (N, h, live) ->
  exists order, order ≡ₚ (map_to_list live).*1 /\
    forall (ctx : Type) (handler : ctx -> Z -> ctx * Z) c,
      hashTraverse (S (size live)) N h handler c = Some (fst (run_handler handler c order)).
Proof.
  intros (ls & Hr & H0 & Hn & Hin)%gh_reach_inv. pose proof (size_bound _ _ _ Hr) as Hsz.
  exists (concat (map ls (seqZ 0 (hashsize h)))).
  assert (Ez : Z.of_nat (Z.to_nat (hashsize h)) = hashsize h) by lia. split.
  - apply NoDup_Permutation.
    + rewrite <- Ez. apply (concat_NoDup N h); [done|lia|lia].
    + apply NoDup_fst_map_to_list.
    + intros x. rewrite list_elem_of_In, in_concat. split.
      * intros (l & Hl & Hx). apply in_map_iff in Hl as (b & <- & Hb).
        apply list_elem_of_In, elem_of_seqZ in Hb. apply list_elem_of_In, Hin in Hx; [|lia].
        destruct Hx as (hx & Hx & _). apply list_elem_of_fmap. exists (x, hx).
        split; [done|]. by apply elem_of_map_to_list.
      * intros Hx. apply list_elem_of_fmap in Hx as ([x' hx] & -> & Hx).
        apply elem_of_map_to_list in Hx. pose proof (buck_index_range _ _ _ hx Hr) as Hb.
        exists (ls (buck_index h hx)). split.
        -- apply in_map_iff. eexists. split; [reflexivity|]. apply list_elem_of_In, elem_of_seqZ. lia.
        -- apply list_elem_of_In, Hin; [done|]. by exists hx.
  - intros ctx handler c. unfold hashTraverse.
    rewrite (traverse_buckets_spec _ _ _ _ ls) by (done || lia). by rewrite Ez.
Qed.

(** The number of live nodes of a bucket. *)
Definition load h (live : gmap Z Z) (b : Z) : Z :=
  Z.of_nat (size (filter (fun p : Z * Z => buck_index h p.2 = b) live)).

Lemma load_eq N h live ls b :
  gh_repr N h ls -> 0 <= b < hashsize h ->
  (forall x, x ∈ ls b <-> in_bucket h live b x) -> llen (ls b) = load h live b.
Proof.
  intros Hr Hb Hin. unfold llen, load. f_equal. rewrite <- size_dom.
  rewrite <- (size_list_to_set (C := gset Z) (ls b)) by (by apply (gr_nodup _ _ _ Hr)).
  f_equal. apply set_eq. intros x. rewrite elem_of_list_to_set, Hin, elem_of_dom.
  unfold in_bucket, is_Some. split; intros (hx & Hx).
  - exists hx. by apply map_lookup_filter_Some.
  - apply map_lookup_filter_Some in Hx. by exists hx.
Qed.

(** In every reachable table the statistics are those of the live nodes:
    the counter of every bucket is its load, [bcount] the number of buckets in
    use, [weight] the sum over the buckets of 1 + ... + load, and the three
    recorded maxima bound the present values. *)
Theorem hash_stats_exact N h live :
  reach gh_init gh_step (N, h, live) ->
  (forall hash, hashNodeCountGet h hash = load h live (buck_index h hash) /\
     load h live (buck_index h hash) <= lmax h) /\
  bcount h = zsum (fun b => if decide (load h live b = 0) then 0 else 1) (seqZ 0 (hashsize h)) /\
  weight h = u64 (zsum (fun b => tri (load h live b)) (seqZ 0 (hashsize h))) /\
  ncount h <= nmax h /\ bcount h <= bmax h.
Proof.
  intros (ls & Hr & H0 & Hn & Hin)%gh_reach_inv.
  assert (Hl : forall b, 0 <= b < hashsize h -> llen (ls b) = load h live b).
  { intros b Hb. apply (load_eq N); [done|done|]. intros x. by apply Hin. }
  split_and!.
  - intros hash. pose proof (buck_index_range _ _ _ hash Hr) as Hb. rewrite <- Hl by done.
    split; [by apply (gr_count _ _ _ Hr)|by apply (gr_lmax _ _ _ Hr)].
  - rewrite (gr_bcount _ _ _ Hr). apply zsum_ext. intros b Hb%elem_of_seqZ.
    rewrite <- Hl by lia. pose proof (used_llen (ls b)). case_decide; lia.
  - rewrite (gr_weight _ _ _ Hr). f_equal. apply zsum_ext. intros b Hb%elem_of_seqZ.
    by rewrite Hl by lia.
  - apply (gr_nmax _ _ _ Hr).
  - apply (gr_bmax _ _ _ Hr).
Qed.

(** ** A concrete run *)

Definition demo_hash : generic_hash_t := mk_ghash 4 100 0 0 0 0 0 0 ∅.
Definition demo_insert (s : gh_state) (node hash : Z) : gh_state :=
  let '(N, h, live) := s in
  let '(N, h) := hashInsertNode N h hash node in (N, h, <[node := hash]> live).

(** Three nodes, two of them in one bucket, then the older of the two freed. *)
Definition demo_table : gh_state :=
  let '(N, h, live) :=
    demo_insert (demo_insert (demo_insert (∅, demo_hash, ∅) 100 5) 200 6) 300 9 in
  let '(N, h) := hashFreeNode N h 100 5 in (N, h, delete 100 live).

Lemma demo_insert_reach s node hash :
  reach gh_init gh_step s -> node <> 0 -> snd s !! node = None -> ncount (snd (fst s)) + 1 < 2 ^ 32 ->
  reach gh_init gh_step (demo_insert s node hash).
Proof.
  intros Hr Hn Hl Hb. destruct s as [[N h] live]. cbn in *.
  destruct (hashInsertNode N h hash node) as [N' h'] eqn:E.
  eapply reach_step; [exact Hr|]. by apply gh_insert.
Qed.

Lemma demo_table_reach : reach gh_init gh_step demo_table.
Proof.
  unfold demo_table.
  set (s := demo_insert (demo_insert (demo_insert (∅, demo_hash, ∅) 100 5) 200 6) 300 9).
  assert (Hs : reach gh_init gh_step s).
  { repeat (apply demo_insert_reach; [|done|vm_compute; reflexivity|vm_compute; reflexivity]).
    apply reach_init. split; [done|]. exists ghash_zero, 7, 100. split; [done|]. split; [done|].
    vm_compute. reflexivity. }
  assert (Hl : snd s !! 100 = Some 5) by (vm_compute; reflexivity).
  clearbody s. destruct s as [[N h] live]. cbn [snd] in Hl.
  destruct (hashFreeNode N h 100 5) as [N' h'] eqn:E.
  eapply reach_step; [exact Hs|]. by eapply gh_free.
Qed.

Lemma hashInit_spec_witness :
  exists h', hashInit 32 (Some ghash_zero) 1000 9 true = Some (Some h', 0) /\
    (exists k, hashsize h' = 2 ^ k /\ 2 ^ k <= Z.min 1000 (2 ^ 25) < 2 ^ (k + 1)) /\
    hashmax h' = 9 /\ forall N, gh_repr N h' (fun _ => []).
Proof. apply (hashInit_spec ghash_zero 1000 9); lia. Defined.

(** Searching the bucket of hash 13, whose other node was freed. *)
Lemma hash_find_live_witness :
  let '(N, h, live) := demo_table in
  ncount h = 2 /\ hashFindNode 3 N h 13 300 (fun k x => if decide (k = x) then 0 else 1) = Some 300 /\
  ncount h = Z.of_nat (size live) /\
  exists r, hashFindNode (S (size live)) N h 13 300 (fun k x => if decide (k = x) then 0 else 1) = Some r /\
    (r = 0 <-> forall x hx, live !! x = Some hx -> buck_index h hx = buck_index h 13 ->
                 (if decide (300 = x) then 0 else 1) <> 0) /\
    (r <> 0 -> (if decide (300 = r) then 0 else 1) = 0 /\
       exists hx, live !! r = Some hx /\ buck_index h hx = buck_index h 13).
Proof.
  assert (En : let '(N, h, live) := demo_table in
    ncount h = 2 /\ hashFindNode 3 N h 13 300 (fun k x => if decide (k = x) then 0 else 1) = Some 300)
    by (vm_compute; split; reflexivity).
  destruct demo_table as [[N h] live] eqn:E.
  destruct En as [En1 En2]. split; [exact En1|]. split; [exact En2|].
  apply (hash_find_live Z N h live 13 300 (fun k x => if decide (k = x) then 0 else 1)).
  rewrite <- E. apply demo_table_reach.
Defined.

Lemma hash_traverse_all_witness :
  let '(N, h, live) := demo_table in
  exists order, order ≡ₚ (map_to_list live).*1 /\
    forall (ctx : Type) (handler : ctx -> Z -> ctx * Z) c,
      hashTraverse (S (size live)) N h handler c = Some (fst (run_handler handler c order)).
Proof.
  destruct demo_table as [[N h] live] eqn:E. apply hash_traverse_all.
  rewrite <- E. apply demo_table_reach.
Defined.

Lemma hash_stats_exact_witness :
  let '(N, h, live) := demo_table in
  (forall hash, hashNodeCountGet h hash = load h live (buck_index h hash) /\
     load h live (buck_index h hash) <= lmax h) /\
  bcount h = zsum (fun b => if decide (load h live b = 0) then 0 else 1) (seqZ 0 (hashsize h)) /\
  weight h = u64 (zsum (fun b => tri (load h live b)) (seqZ 0 (hashsize h))) /\
  ncount h <= nmax h /\ bcount h <= bmax h.
Proof.
  destruct demo_table as [[N h] live] eqn:E. apply (hash_stats_exact N).
  rewrite <- E. apply demo_table_reach.
Defined.
