(* ===== verification/TwTimer.v ===== *)
(** * The timing wheel

    Models [src/sf_lib/sf_timer/sf_tw_timer.h], [sf_tw_timer.c], [sf_timer.h] and
    [sf_timer_input.c]: 2^14 buckets, each a chain of chunks of 510 slots; a
    submission writes the slot of the bucket that the wheel will reach after
    [ticks] steps, a run of the input node steps the wheel by the ticks that have
    passed, chains the chunks of the buckets it meets onto the expire list and
    hands their slots to the graph nodes of their groups.  Times are IEEE
    binary64 numbers ([SpecFloat]).  A slot pointer is a chunk address and an
    index; the chunk pool's answer is an argument of the submission (what
    [SfPool.alloc_node_from_pool] promises of it is that it is a node nobody
    holds). *)
From Stdlib Require Export Floats.SpecFloat.
From S2P Require Import Prelude.

(** ** Doubles *)

Abbreviation f64 := spec_float.
Definition f64_add : f64 -> f64 -> f64 := SFadd 53 1024.
Definition f64_sub : f64 -> f64 -> f64 := SFsub 53 1024.
Definition f64_mul : f64 -> f64 -> f64 := SFmul 53 1024.
Definition f64_div : f64 -> f64 -> f64 := SFdiv 53 1024.
Definition f64_lt : f64 -> f64 -> bool := SFltb.
Definition f64_of (z : Z) : f64 := binary_normalize 53 1024 z 0 false.

(** The conversion of a C cast to [uint32_t]: truncation towards zero (out of
    range the cast is undefined and the model wraps). *)
Definition u32_of_f64 (f : f64) : Z :=
  match f with
  | S754_finite s m e =>
      let v := Z.shiftl (Zpos m) e in u32 (if s then - v else v)
  | _ => 0
  end.

(** ** Data *)

Definition SF_TIMER_MAX_TICKS : Z := 2 ^ 14.
Definition SF_TW_TIMER_BUCKET_MASK : Z := SF_TIMER_MAX_TICKS - 1.
Definition SF_TW_TIMER_SLOT_CNT : Z := (32 * 128 - 8) / 8 - 1.
(** The double nearest to 0.1. *)
Definition SF_TIMER_SECOND_PER_TICK : f64 := S754_finite false 7205759403792794 (-56).

Record sf_timer_chunk_t := mk_chunk {
  next_chunk : Z;
  current_slot_cnt : Z;
  sf_timer_slots : gmap Z Z
}.

Record sf_timer_bucket_t := mk_tbucket {
  slot_used_cnt : Z;
  slot_left_cnt : Z;
  first_chunk : Z;
  current_chunk : Z
}.

Record sf_tw_timer_t := mk_tw {
  timer_info_start : Z;
  sf_timer_buckets : gmap Z sf_timer_bucket_t;
  expire_chunk_list : Z;
  pre_bucket_index : Z;
  ticks_per_second : f64;
  timer_interval : f64;
  last_run_time : f64;
  next_run_time : f64
}.

Record sf_timer_record_t := mk_trecord {
  slot_handler : Z * Z;
  timer_info : Z;
  safe_clib_time : f64
}.

#[export] Instance zeroed_chunk : Zeroed sf_timer_chunk_t := mk_chunk 0 0 ∅.
#[export] Instance zeroed_tbucket : Zeroed sf_timer_bucket_t := mk_tbucket 0 0 0 0.

(** [union sf_timer_handle]: 8 bits of group, 56 bits of index. *)
Definition handle_data (group_id index : Z) : Z :=
  Z.lor (u8 group_id) (Z.shiftl (wrap 56 index) 8).
Definition handle_group (data : Z) : Z := Z.land data 255.
Definition handle_index (data : Z) : Z := Z.shiftr data 8.

Definition set_next_chunk (v : Z) (c : sf_timer_chunk_t) :=
  mk_chunk v (current_slot_cnt c) (sf_timer_slots c).
Definition set_slot (i v : Z) (c : sf_timer_chunk_t) :=
  mk_chunk (next_chunk c) (current_slot_cnt c) (sf_timer_slots c).[i <- v].

(** ** Initialisation *)

(** [start] is the address of [sf_tw_timer_init], [mem] tells whether the bucket
    vector could be allocated. *)
Definition sf_tw_timer_init (start : Z) (mem : bool) : sf_tw_timer_t * Z :=
  if mem then
    (mk_tw start ∅ 0 0 (f64_div (f64_of 1) SF_TIMER_SECOND_PER_TICK) SF_TIMER_SECOND_PER_TICK
       (S754_zero false) (S754_zero false), 0)
  else (mk_tw 0 ∅ 0 0 (S754_zero false) (S754_zero false) (S754_zero false) (S754_zero false), -1).

(** ** Submitting and stopping *)

Implicit Types (M : gmap Z sf_timer_chunk_t) (tw : sf_tw_timer_t).

Definition set_bucket tw (i : Z) (b : sf_timer_bucket_t) : sf_tw_timer_t :=
  mk_tw (timer_info_start tw) (sf_timer_buckets tw).[i <- b] (expire_chunk_list tw)
    (pre_bucket_index tw) (ticks_per_second tw) (timer_interval tw) (last_run_time tw)
    (next_run_time tw).

(** [alloc] is the chunk pool's answer, 0 for NULL; [record] tells whether the
    caller wants the record. *)
Definition sf_submit_timer_tw tw M (record : bool) (sf_timer_info group_id ticks alloc : Z) :
    sf_tw_timer_t * gmap Z sf_timer_chunk_t * option sf_timer_record_t * Z :=
  let data := handle_data group_id (u64 (sf_timer_info - timer_info_start tw)) in
  if decide (SF_TIMER_MAX_TICKS < ticks) then (tw, M, None, -1)
  else
    let timer_bucket_index := Z.land (u32 (pre_bucket_index tw + ticks)) SF_TW_TIMER_BUCKET_MASK in
    let bucket := (sf_timer_buckets tw).[timer_bucket_index] in
    let done M cur bucket :=
      (set_bucket tw timer_bucket_index bucket, M,
       if record then
         Some (mk_trecord (cur, current_slot_cnt M.[cur] - 1) sf_timer_info
                 (f64_add (last_run_time tw)
                    (f64_mul (f64_of (u32 (ticks - 2))) (timer_interval tw))))
       else None, 0) in
    if decide (0 < slot_left_cnt bucket) then
      let cur := current_chunk bucket in
      let c := M.[cur] in
      let c := set_slot (current_slot_cnt c) data c in
      let M := M.[cur <- mk_chunk (next_chunk c) (u64 (current_slot_cnt c + 1)) (sf_timer_slots c)] in
      done M cur (mk_tbucket (u32 (slot_used_cnt bucket + 1)) (u32 (slot_left_cnt bucket - 1))
                    (first_chunk bucket) (current_chunk bucket))
    else if decide (alloc = 0) then (tw, M, None, -1)
    else
      let M := M.[alloc <- mk_chunk 0 1 (sf_timer_slots M.[alloc]).[0 <- data]] in
      let '(M, first) :=
        if decide (current_chunk bucket = 0) then (M, alloc)
        else (M.[current_chunk bucket <- set_next_chunk alloc M.[current_chunk bucket]],
              first_chunk bucket) in
      done M alloc (mk_tbucket (u32 (slot_used_cnt bucket + 1))
                      (u32 (slot_left_cnt bucket + (SF_TW_TIMER_SLOT_CNT - 1))) first alloc).

Definition write_slot M (handler : Z * Z) (v : Z) : gmap Z sf_timer_chunk_t :=
  M.[fst handler <- set_slot (snd handler) v M.[fst handler]].

Definition SF_TIMER_STATUS_BUSY : Z := 1.
Definition SF_TIMER_STATUS_SUCCESS : Z := 0.

Definition sf_stop_timer M (r : sf_timer_record_t) (time_now : f64) : gmap Z sf_timer_chunk_t * Z :=
  if f64_lt time_now (safe_clib_time r)
  then (write_slot M (slot_handler r) 0, SF_TIMER_STATUS_SUCCESS)
  else (M, SF_TIMER_STATUS_BUSY).

(** What happens to the timer's information block. *)
Inductive info_fate := Info_freed | Info_zeroed.

Definition sf_stop_timer_void_tw M (r : sf_timer_record_t) (time_now : f64) :
    gmap Z sf_timer_chunk_t * info_fate :=
  if f64_lt time_now (safe_clib_time r)
  then (write_slot M (slot_handler r) 0, Info_freed)
  else (M, Info_zeroed).

(** ** Expiry *)

(** The loop over the elapsed ticks; [n] counts the ticks left. *)
Fixpoint expire_loop (n : nat) (pre : Z) (B : gmap Z sf_timer_bucket_t) M (first last ret_cnt : Z) :
    Z * gmap Z sf_timer_bucket_t * gmap Z sf_timer_chunk_t * Z * Z * Z :=
  match n with
  | O => (pre, B, M, first, last, ret_cnt)
  | S n =>
      let pre := Z.land (u32 (pre + 1)) SF_TW_TIMER_BUCKET_MASK in
      let bucket := B.[pre] in
      if decide (slot_used_cnt bucket = 0) then expire_loop n pre B M first last ret_cnt
      else
        let ret_cnt := ret_cnt + slot_used_cnt bucket in
        let '(M, first) :=
          if decide (first = 0) then (M, first_chunk bucket)
          else (M.[last <- set_next_chunk (first_chunk bucket) M.[last]], first) in
        expire_loop n pre B.[pre <- mk_tbucket 0 0 0 0] M first (current_chunk bucket) ret_cnt
  end.

Definition elapsed_ticks tw (now : f64) : Z :=
  u32_of_f64 (f64_mul (ticks_per_second tw) (f64_sub now (last_run_time tw))).

Definition sf_tw_timer_expire_internal tw M (now : f64) :
    sf_tw_timer_t * gmap Z sf_timer_chunk_t * Z :=
  if f64_lt now (next_run_time tw) then (tw, M, 0)
  else if decide (expire_chunk_list tw <> 0) then (tw, M, 0)
  else
    let nticks := elapsed_ticks tw now in
    let '(pre, B, M, first, last, ret_cnt) :=
      expire_loop (Z.to_nat nticks) (pre_bucket_index tw) (sf_timer_buckets tw) M 0 0 0 in
    (mk_tw (timer_info_start tw) B first pre (ticks_per_second tw) (timer_interval tw)
       (f64_add (last_run_time tw) (f64_mul (f64_of nticks) (timer_interval tw)))
       (f64_add now (timer_interval tw)), M, ret_cnt).

(** ** The input node *)

Definition SF_NEXT_NODE_TIMER_ERROR_DROP : Z := 0.

(** One slot: the pointer it is decoded to and the node it is sent to. *)
Definition timer_slot_next (start : Z) (next_index_vec : gmap Z Z) (data : Z) : Z * Z :=
  (u64 (handle_index data + start),
   if decide (handle_group data <> 0) then next_index_vec.[handle_group data]
   else SF_NEXT_NODE_TIMER_ERROR_DROP).

Definition chunk_slots (c : sf_timer_chunk_t) : list Z :=
  map (fun i => (sf_timer_slots c).[i]) (seqZ 0 (u32 (current_slot_cnt c))).

(** The two-at-a-time loop and the one-at-a-time loop treat a slot alike: the
    chunk's slots are sent on in order; the result is what is enqueued and the
    number of slots in use. *)
Definition sf_timer_input_internal (start : Z) (next_index_vec : gmap Z Z) (c : sf_timer_chunk_t) :
    list (Z * Z) * Z :=
  (map (timer_slot_next start next_index_vec) (chunk_slots c),
   Z.of_nat (length (filter (fun d => handle_group d <> 0) (chunk_slots c)))).

(** The [while] loop: [out] collects what is enqueued, [freed] the chunks given
    back to the pool. *)
Fixpoint input_loop (fuel : nat) M (start : Z) (next_index_vec : gmap Z Z) (list_head ret_cnt : Z)
    (out : list (Z * Z)) (freed : list Z) : option (Z * Z * list (Z * Z) * list Z) :=
  match fuel with
  | O => None
  | S fuel =>
      if decide (list_head = 0) then Some (list_head, ret_cnt, out, freed)
      else
        let cur := list_head in
        let list_head := next_chunk M.[cur] in
        let '(sent, cnt) := sf_timer_input_internal start next_index_vec M.[cur] in
        let ret_cnt := ret_cnt + cnt in
        let out := out ++ sent in
        let freed := freed ++ [cur] in
        if decide (SF_TW_TIMER_SLOT_CNT <= ret_cnt) then Some (list_head, ret_cnt, out, freed)
        else input_loop fuel M start next_index_vec list_head ret_cnt out freed
  end.

Definition set_expire tw (l : Z) : sf_tw_timer_t :=
  mk_tw (timer_info_start tw) (sf_timer_buckets tw) l (pre_bucket_index tw)
    (ticks_per_second tw) (timer_interval tw) (last_run_time tw) (next_run_time tw).

(** The node function, with the wheel, the chunks, the [expired_timer_cnt]
    statistics, what was enqueued and the chunks freed. *)
Definition sf_timer_input_node (fuel : nat) tw M (next_index_vec : gmap Z Z) (expired : Z)
    (time_now : f64) : option (sf_tw_timer_t * gmap Z sf_timer_chunk_t * Z * list (Z * Z) * list Z) :=
  let '(tw, M) :=
    if decide (expire_chunk_list tw = 0)
    then fst (sf_tw_timer_expire_internal tw M time_now) else (tw, M) in
  let? (rest, ret_cnt, out, freed) :=
    input_loop fuel M (timer_info_start tw) next_index_vec (expire_chunk_list tw) 0 [] [] in
  Some (set_expire tw rest, M, u64 (expired + ret_cnt), out, freed).
