(* ===== verification/TwTimerRun.v ===== *)
(** * Correctness of the timing wheel

    The wheel refines a list of pending timers, each with the tick at which it
    is due: submission appends one, the wheel's step to tick [t] moves exactly
    the timers due at [t] to the expire list, in submission order, and the
    input node hands on the expire list chunk by chunk without losing or
    repeating a timer.  Stopping a pending timer blanks its slot and no other. *)
From stdpp Require Import functions.
From S2P Require Import Prelude TwTimer.

Implicit Types (M : gmap Z sf_timer_chunk_t) (B : gmap Z sf_timer_bucket_t) (cs ecs : list Z).

(** ** Representation *)

(** From the link [x] the chain runs through [cs] to the link [x']. *)
Fixpoint cseg M (x : Z) cs (x' : Z) : Prop :=
  match cs with
  | [] => x = x'
  | c :: cs => x = c /\ c <> 0 /\ cseg M (next_chunk M.[c]) cs x'
  end.

Definition chunk_entries M (c : Z) : list (Z * Z * Z) :=
  map (fun i => (c, i, (sf_timer_slots M.[c]).[i])) (seqZ 0 (current_slot_cnt M.[c])).
Definition entries M cs : list (Z * Z * Z) := concat (map (chunk_entries M) cs).

(** A pending timer: the tick it is due at, its slot and the slot's content. *)
Record timer := mk_timer { due : Z; slot : Z * Z; tdata : Z }.
Definition ent (e : timer) : Z * Z * Z := (slot e, tdata e).

Definition full_chunk M (c : Z) : Prop := current_slot_cnt M.[c] = SF_TW_TIMER_SLOT_CNT.

Inductive bucket_ok M (b : sf_timer_bucket_t) : list Z -> Prop :=
| bucket_empty : b = mk_tbucket 0 0 0 0 -> bucket_ok M b []
| bucket_chain cs :
    cseg M (first_chunk b) (cs ++ [current_chunk b]) 0 -> NoDup (cs ++ [current_chunk b]) ->
    Forall (full_chunk M) cs ->
    current_slot_cnt M.[current_chunk b] = SF_TW_TIMER_SLOT_CNT - slot_left_cnt b ->
    0 <= slot_left_cnt b < SF_TW_TIMER_SLOT_CNT ->
    slot_used_cnt b = Z.of_nat (length (entries M (cs ++ [current_chunk b]))) ->
    slot_used_cnt b < 2 ^ 32 ->
    bucket_ok M b (cs ++ [current_chunk b]).

(** The timers of bucket [b]. *)
Definition of_bucket (b : Z) (pend : list timer) : list timer :=
  filter (fun e => due e mod SF_TIMER_MAX_TICKS = b) pend.

(** [T] counts the steps of the wheel; [cs b] are the chunks of bucket [b] and
    [ecs] those of the expire list, which starts at [first]. *)
Record wheel_inv (pre : Z) B M (first T : Z) (cs : Z -> list Z) (pend : list timer)
    ecs (epend : list timer) : Prop := {
  wi_pre : pre = T mod SF_TIMER_MAX_TICKS;
  wi_bucket b : 0 <= b < SF_TIMER_MAX_TICKS -> bucket_ok M B.[b] (cs b);
  wi_entries b : 0 <= b < SF_TIMER_MAX_TICKS -> entries M (cs b) = ent <$> of_bucket b pend;
  wi_due e : e ∈ pend -> T < due e <= T + SF_TIMER_MAX_TICKS;
  wi_exp : cseg M first ecs 0;
  wi_enodup : NoDup ecs;
  wi_ecnt c : c ∈ ecs -> 1 <= current_slot_cnt M.[c] <= SF_TW_TIMER_SLOT_CNT;
  wi_eentries : entries M ecs = ent <$> epend;
  wi_disj b b' c : 0 <= b < SF_TIMER_MAX_TICKS -> 0 <= b' < SF_TIMER_MAX_TICKS ->
    c ∈ cs b -> c ∈ cs b' -> b = b';
  wi_edisj b c : 0 <= b < SF_TIMER_MAX_TICKS -> c ∈ cs b -> c ∉ ecs
}.

(** ** Chains and entries *)

Lemma cseg_app M x cs1 cs2 x' :
  cseg M x (cs1 ++ cs2) x' <-> exists y, cseg M x cs1 y /\ cseg M y cs2 x'.
Proof.
  revert x. induction cs1 as [|c cs1 IH]; intros x; cbn; [naive_solver|].
  rewrite IH. naive_solver.
Qed.

Lemma cseg_frame M M' x cs x' :
  (forall c, c ∈ cs -> next_chunk M'.[c] = next_chunk M.[c]) -> cseg M x cs x' -> cseg M' x cs x'.
Proof.
  revert x. induction cs as [|c cs IH]; intros x E; cbn; [done|].
  rewrite (E c) by set_solver. intros (-> & ? & H). split_and!; try done.
  apply IH; [|done]. set_solver.
Qed.

Lemma cseg_set_last M x cs c v :
  c ∉ cs -> cseg M x (cs ++ [c]) 0 -> cseg M.[c <- set_next_chunk v M.[c]] x (cs ++ [c]) v.
Proof.
  intros Hc (y & H1 & -> & Hn & _)%cseg_app. apply cseg_app. exists c. split.
  - apply (cseg_frame M); [|done]. intros z Hz. rewrite aget_aset_ne; [done|]. intros ->. done.
  - cbn. by rewrite aget_aset_eq.
Qed.

Lemma cseg_nonzero M x cs x' c : cseg M x cs x' -> c ∈ cs -> c <> 0.
Proof.
  revert x. induction cs as [|z cs IH]; intros x; cbn; [set_solver|].
  intros (-> & ? & H) Hy. apply elem_of_cons in Hy as [->|Hy]; eauto.
Qed.

(** Chunks agree on what their slots hold. *)
Definition same_slots M M' (c : Z) : Prop :=
  current_slot_cnt M'.[c] = current_slot_cnt M.[c] /\ sf_timer_slots M'.[c] = sf_timer_slots M.[c].

Lemma same_slots_set_next M d v c : same_slots M M.[d <- set_next_chunk v M.[d]] c.
Proof. split; rewrite aget_aset; destruct (decide (d = c)); by subst. Qed.

Lemma entries_frame M M' cs : (forall c, c ∈ cs -> same_slots M M' c) -> entries M' cs = entries M cs.
Proof.
  intros E. unfold entries. f_equal. apply map_ext_in. intros c Hc%list_elem_of_In.
  destruct (E c Hc) as [E1 E2]. unfold chunk_entries. by rewrite E1, E2.
Qed.

Lemma entries_app M cs1 cs2 : entries M (cs1 ++ cs2) = entries M cs1 ++ entries M cs2.
Proof. unfold entries. by rewrite map_app, concat_app. Qed.

Lemma bucket_ok_frame M M' b cs :
  (forall c, c ∈ cs -> M'.[c] = M.[c]) -> bucket_ok M b cs -> bucket_ok M' b cs.
Proof.
  intros E H. destruct H as [|cs Hs Hnd Hf Hc Hl Hu Hb]; [by constructor|].
  assert (Ec : forall c, c ∈ cs ++ [current_chunk b] -> same_slots M M' c).
  { intros c Hi. unfold same_slots. by rewrite E. }
  constructor; try done.
  - apply (cseg_frame M); [|done]. intros c Hi. by rewrite E.
  - apply Forall_forall. intros c Hi. rewrite Forall_forall in Hf. unfold full_chunk.
    rewrite E by set_solver. by apply Hf.
  - rewrite E by set_solver. done.
  - by rewrite (entries_frame M).
Qed.

Lemma bucket_nonempty M b cs : bucket_ok M b cs ->
  0 <= slot_used_cnt b /\ (slot_used_cnt b = 0 <-> cs = []) /\ (slot_used_cnt b = 0 -> b = mk_tbucket 0 0 0 0).
Proof.
  intros [->|cs' Hs Hnd Hf Hc Hl Hu Hb]; [cbn; split; [lia|done]|].
  assert (slot_used_cnt b <> 0); [|split; [lia|split; [split; [lia|by destruct cs']|lia]]].
  rewrite Hu, entries_app, length_app. cbn. rewrite app_nil_r. unfold chunk_entries.
  rewrite length_map, length_seqZ. lia.
Qed.

Lemma bucket_ok_props M b cs : bucket_ok M b cs -> cs <> [] ->
  cseg M (first_chunk b) cs 0 /\ NoDup cs /\ last cs = Some (current_chunk b) /\
  first_chunk b <> 0 /\
  (forall c, c ∈ cs -> 1 <= current_slot_cnt M.[c] <= SF_TW_TIMER_SLOT_CNT).
Proof.
  intros [|cs' Hs Hnd Hf Hc Hl Hu Hb] Hne; [done|]. split_and!; try done.
  - by rewrite last_snoc.
  - intros E. destruct (cs' ++ [current_chunk b]) as [|c l] eqn:Ec; [done|].
    destruct Hs as (? & ? & _). congruence.
  - intros c Hi. apply elem_of_app in Hi as [Hi| ->%list_elem_of_singleton].
    + rewrite Forall_forall in Hf. rewrite (Hf c Hi). vm_compute. split; discriminate.
    + lia.
Qed.

(** ** Timers by bucket *)

(** Within one turn of the wheel the bucket determines the tick. *)
Lemma due_unique T d d' : T < d <= T + SF_TIMER_MAX_TICKS -> T < d' <= T + SF_TIMER_MAX_TICKS ->
  d mod SF_TIMER_MAX_TICKS = d' mod SF_TIMER_MAX_TICKS -> d = d'.
Proof.
  unfold SF_TIMER_MAX_TICKS. change (2 ^ 14) with 16384. intros H H' E.
  pose proof (Z.div_mod d 16384). pose proof (Z.div_mod d' 16384). lia.
Qed.

Lemma of_bucket_next T pend :
  (forall e, e ∈ pend -> T < due e <= T + SF_TIMER_MAX_TICKS) ->
  of_bucket ((T + 1) mod SF_TIMER_MAX_TICKS) pend = filter (fun e => due e = T + 1) pend.
Proof.
  intros Hd. apply filter_ext_in. intros e He. split; [|by intros ->].
  apply (due_unique T); [by apply Hd|]. unfold SF_TIMER_MAX_TICKS. lia.
Qed.

Lemma of_bucket_rest T pend b :
  (forall e, e ∈ pend -> T < due e <= T + SF_TIMER_MAX_TICKS) ->
  of_bucket b (filter (fun e => due e <> T + 1) pend)
  = if decide (b = (T + 1) mod SF_TIMER_MAX_TICKS) then [] else of_bucket b pend.
Proof.
  intros Hd. unfold of_bucket. rewrite list_filter_filter.
  destruct (decide (b = (T + 1) mod SF_TIMER_MAX_TICKS)) as [->|Hne].
  - apply filter_none. intros e He [Hm Hn]. apply Hn.
    apply (due_unique T); [by apply Hd| |done]. unfold SF_TIMER_MAX_TICKS. lia.
  - apply filter_ext_in. intros e He. split; [tauto|]. intros Hm. split; [done|].
    intros E. rewrite E in Hm. congruence.
Qed.

(** ** A step of the wheel *)

Lemma mod_range T : 0 <= T mod SF_TIMER_MAX_TICKS < SF_TIMER_MAX_TICKS.
Proof. apply Z.mod_pos_bound. done. Qed.

Lemma wheel_inv_ext pre B B' M first T ch pend ecs epend :
  (forall b, B'.[b] = B.[b]) -> wheel_inv pre B M first T ch pend ecs epend ->
  wheel_inv pre B' M first T ch pend ecs epend.
Proof. intros E []. split; try done. intros b Hb. rewrite E. auto. Qed.

Lemma last_app_nonempty {A} (l1 l2 : list A) : l2 <> [] -> last (l1 ++ l2) = last l2.
Proof.
  intros Hne. destruct l2 as [|x l2 _] using rev_ind; [done|]. by rewrite app_assoc, !last_snoc.
Qed.

(** Bucket [T + 1] is moved behind the expire list. *)
Lemma wheel_move pre B M first T ch pend ecs epend M' first' :
  let b := (T + 1) mod SF_TIMER_MAX_TICKS in
  wheel_inv pre B M first T ch pend ecs epend ->
  (forall c, same_slots M M' c) -> (forall c, c ∉ ecs -> M'.[c] = M.[c]) ->
  cseg M' first' (ecs ++ ch b) 0 ->
  wheel_inv b B.[b <- mk_tbucket 0 0 0 0] M' first' (T + 1) (<[b := []]> ch)
    (filter (fun e => due e <> T + 1) pend) (ecs ++ ch b)
    (epend ++ filter (fun e => due e = T + 1) pend).
Proof.
  cbv zeta. intros Hi Hs Hf Hc. pose proof (mod_range (T + 1)) as Hr.
  set (b := (T + 1) mod SF_TIMER_MAX_TICKS) in *.
  assert (Hcsb : forall d c, d <> b -> c ∈ (<[b:=[]]> ch) d -> c ∈ ch d).
  { intros d c Hne. by rewrite fn_lookup_insert_ne. }
  assert (Hnb : forall c, c ∉ (<[b:=[]]> ch) b).
  { intros c. rewrite fn_lookup_insert. apply not_elem_of_nil. }
  split; try done.
  - intros d Hd. destruct (decide (d = b)) as [->|Hne].
    + rewrite aget_aset_eq, fn_lookup_insert. by constructor.
    + rewrite aget_aset_ne, fn_lookup_insert_ne by done.
      apply (bucket_ok_frame M); [|by apply (wi_bucket _ _ _ _ _ _ _ _ _ Hi)].
      intros c Hin. apply Hf. by apply (wi_edisj _ _ _ _ _ _ _ _ _ Hi d).
  - intros d Hd. rewrite of_bucket_rest by apply (wi_due _ _ _ _ _ _ _ _ _ Hi).
    rewrite (entries_frame M) by done. fold b. destruct (decide (d = b)) as [->|Hne].
    + by rewrite fn_lookup_insert.
    + rewrite fn_lookup_insert_ne by done. by apply (wi_entries _ _ _ _ _ _ _ _ _ Hi).
  - intros e He. apply list_elem_of_filter in He as [Hn He].
    pose proof (wi_due _ _ _ _ _ _ _ _ _ Hi e He). lia.
  - apply NoDup_app. split_and!; [apply (wi_enodup _ _ _ _ _ _ _ _ _ Hi)| |].
    + intros c Hc1 Hc2. by apply (wi_edisj _ _ _ _ _ _ _ _ _ Hi b c).
    + destruct (decide (ch b = [])) as [->|Hne]; [by apply NoDup_nil|].
      pose proof (wi_bucket _ _ _ _ _ _ _ _ _ Hi b Hr) as Hb.
      by destruct (bucket_ok_props _ _ _ Hb Hne) as (_ & ? & _).
  - intros c Hin. rewrite (proj1 (Hs c)). apply elem_of_app in Hin as [Hin|Hin].
    + by apply (wi_ecnt _ _ _ _ _ _ _ _ _ Hi).
    + assert (Hne : ch b <> []) by (intros E; rewrite E in Hin; by apply not_elem_of_nil in Hin).
      pose proof (wi_bucket _ _ _ _ _ _ _ _ _ Hi b Hr) as Hb.
      destruct (bucket_ok_props _ _ _ Hb Hne) as (_ & _ & _ & _ & Hcnt). by apply Hcnt.
  - rewrite entries_app, !(entries_frame M M') by done.
    rewrite (wi_eentries _ _ _ _ _ _ _ _ _ Hi), (wi_entries _ _ _ _ _ _ _ _ _ Hi) by done.
    rewrite fmap_app. f_equal. unfold b. rewrite of_bucket_next; [done|].
    apply (wi_due _ _ _ _ _ _ _ _ _ Hi).
  - intros d d' c Hd Hd' Hin Hin'.
    destruct (decide (d = b)) as [->|Hne]; [by destruct (Hnb c)|].
    destruct (decide (d' = b)) as [->|Hne']; [by destruct (Hnb c)|].
    apply (wi_disj _ _ _ _ _ _ _ _ _ Hi d d' c); auto.
  - intros d c Hd Hin Hin'. destruct (decide (d = b)) as [->|Hne]; [by destruct (Hnb c)|].
    apply elem_of_app in Hin' as [Hin'|Hin'].
    + apply (wi_edisj _ _ _ _ _ _ _ _ _ Hi d c); auto.
    + apply Hne, (wi_disj _ _ _ _ _ _ _ _ _ Hi d b c); auto.
Qed.

Definition last_ok (l : Z) ecs : Prop := forall c, last ecs = Some c -> c = l.

Lemma land_mask z : 0 <= z < 2 ^ 32 ->
  Z.land (u32 z) SF_TW_TIMER_BUCKET_MASK = z mod SF_TIMER_MAX_TICKS.
Proof.
  intros Hz. rewrite wrap_small by done. change SF_TW_TIMER_BUCKET_MASK with (2 ^ 14 - 1).
  by rewrite wrap_land by lia.
Qed.

(** One tick of the loop. *)
Lemma tick_inv B M first l ret_cnt T ch pend ecs epend :
  wheel_inv (T mod SF_TIMER_MAX_TICKS) B M first T ch pend ecs epend -> last_ok l ecs ->
  let b := (T + 1) mod SF_TIMER_MAX_TICKS in
  exists B' M' first' l' ch' ecs',
    wheel_inv b B' M' first' (T + 1) ch' (filter (fun e => due e <> T + 1) pend) ecs'
      (epend ++ filter (fun e => due e = T + 1) pend) /\
    last_ok l' ecs' /\ (forall c, same_slots M M' c) /\
    forall n, expire_loop (S n) (T mod SF_TIMER_MAX_TICKS) B M first l ret_cnt
      = expire_loop n b B' M' first' l'
          (ret_cnt + Z.of_nat (length (filter (fun e => due e = T + 1) pend))).
Proof.
  intros Hi Hl. cbv zeta. pose proof (mod_range (T + 1)) as Hr.
  set (b := (T + 1) mod SF_TIMER_MAX_TICKS) in *.
  assert (Eb : Z.land (u32 (T mod SF_TIMER_MAX_TICKS + 1)) SF_TW_TIMER_BUCKET_MASK = b).
  { pose proof (mod_range T) as Hr0. rewrite land_mask.
    - apply Zplus_mod_idemp_l.
    - unfold SF_TIMER_MAX_TICKS in *. lia. }
  pose proof (wi_bucket _ _ _ _ _ _ _ _ _ Hi b Hr) as Hb.
  assert (Ec : slot_used_cnt B.[b] = Z.of_nat (length (filter (fun e => due e = T + 1) pend))).
  { rewrite <- (of_bucket_next T) by apply (wi_due _ _ _ _ _ _ _ _ _ Hi).
    fold b. rewrite <- (length_fmap ent), <- (wi_entries _ _ _ _ _ _ _ _ _ Hi b Hr).
    inversion Hb as [E0 E1|? ? ? ? ? ? Hu ? E1]; [by rewrite E0|done]. }
  destruct (bucket_nonempty _ _ _ Hb) as (Hu0 & Hu & Huz).
  assert (Hsame : forall c, same_slots M M c) by (intros c; split; done).
  destruct (decide (slot_used_cnt B.[b] = 0)) as [E0|E0].
  { exists B, M, first, l, (<[b:=[]]> ch), ecs. pose proof (proj1 Hu E0) as Hch.
    split_and!; try done.
    - replace ecs with (ecs ++ ch b) by (by rewrite Hch, app_nil_r).
      eapply wheel_inv_ext; [|apply (wheel_move (T mod SF_TIMER_MAX_TICKS) B M first T ch pend ecs epend M first)]; try done.
      + intros d. rewrite aget_aset. fold b. destruct (decide (b = d)) as [<-|]; [auto|done].
      + fold b. rewrite Hch, app_nil_r. apply (wi_exp _ _ _ _ _ _ _ _ _ Hi).
    - intros n. cbn [expire_loop]. rewrite Eb, decide_True by done. by rewrite <- Ec, E0, Z.add_0_r. }
  assert (Hne : ch b <> []) by tauto.
  destruct (bucket_ok_props _ _ _ Hb Hne) as (Hs & Hnd & Hlast & Hf0 & _).
  pose proof (wi_exp _ _ _ _ _ _ _ _ _ Hi) as Hexp.
  destruct (decide (first = 0)) as [Ef|Ef].
  - assert (ecs = []) as ->.
    { destruct ecs as [|c ecs]; [done|]. destruct Hexp as (? & ? & _). congruence. }
    exists B.[b <- mk_tbucket 0 0 0 0], M, (first_chunk B.[b]), (current_chunk B.[b]), (<[b:=[]]> ch), (ch b).
    split_and!; try done.
    + apply (wheel_move (T mod SF_TIMER_MAX_TICKS) B M first T ch pend [] epend M); done.
    + intros c. rewrite Hlast. by intros [= ->].
    + intros n. cbn [expire_loop]. rewrite Eb, decide_False, decide_True by done. by rewrite Ec.
  - destruct ecs as [|d ecs _] using rev_ind; [done|].
    assert (l = d) as -> by (symmetry; apply Hl; by rewrite last_snoc).
    pose proof (wi_enodup _ _ _ _ _ _ _ _ _ Hi) as Hnde. apply NoDup_app in Hnde as (_ & Hd & _).
    assert (Hd' : d ∉ ecs) by (intros Hin; apply (Hd d Hin); set_solver).
    exists B.[b <- mk_tbucket 0 0 0 0], M.[d <- set_next_chunk (first_chunk B.[b]) M.[d]], first,
      (current_chunk B.[b]), (<[b:=[]]> ch), ((ecs ++ [d]) ++ ch b).
    assert (Hss : forall c, same_slots M M.[d <- set_next_chunk (first_chunk B.[b]) M.[d]] c)
      by (intros c; apply same_slots_set_next).
    split_and!; try done.
    + apply (wheel_move (T mod SF_TIMER_MAX_TICKS) B M first T ch pend (ecs ++ [d]) epend); try done.
      * intros c Hc. apply aget_aset_ne. set_solver.
      * fold b. apply cseg_app. exists (first_chunk B.[b]). split; [by apply cseg_set_last|].
        apply (cseg_frame M); [|done]. intros c Hc. rewrite aget_aset_ne; [done|]. intros ->.
        apply (wi_edisj _ _ _ _ _ _ _ _ _ Hi b c); [done|done|set_solver].
    + intros c. rewrite last_app_nonempty, Hlast by done. by intros [= ->].
    + intros n. cbn [expire_loop]. rewrite Eb, !decide_False by done. by rewrite Ec.
Qed.

(** [n] ticks: what is due is moved, tick by tick, and counted. *)
Definition due_within (T n : Z) (pend : list timer) : list timer :=
  concat (map (fun i => filter (fun e => due e = T + i) pend) (seqZ 1 n)).

Lemma due_within_S T n pend : 0 <= n ->
  due_within T (n + 1) pend
  = filter (fun e => due e = T + 1) pend
    ++ due_within (T + 1) n (filter (fun e => due e <> T + 1) pend).
Proof.
  intros Hn. unfold due_within. rewrite seqZ_cons by lia. cbn [map concat]. f_equal.
  replace (Z.pred (n + 1)) with n by lia. rewrite <- (fmap_add_seqZ 1 1).
  f_equal. change (map ?f (?g <$> ?l)) with (f <$> (g <$> l)). rewrite <- list_fmap_compose.
  apply list_fmap_ext. intros j i Hi%lookup_seqZ. cbn. rewrite list_filter_filter.
  apply filter_ext_in. intros e _. split; [intros ->; lia|lia].
Qed.

Lemma expire_loop_spec n B M first l ret_cnt T ch pend ecs epend :
  wheel_inv (T mod SF_TIMER_MAX_TICKS) B M first T ch pend ecs epend -> last_ok l ecs ->
  let T' := T + Z.of_nat n in
  let fired := due_within T (Z.of_nat n) pend in
  exists B' M' first' l' ch' ecs',
    expire_loop n (T mod SF_TIMER_MAX_TICKS) B M first l ret_cnt
    = (T' mod SF_TIMER_MAX_TICKS, B', M', first', l', ret_cnt + Z.of_nat (length fired)) /\
    wheel_inv (T' mod SF_TIMER_MAX_TICKS) B' M' first' T' ch' (filter (fun e => T' < due e) pend)
      ecs' (epend ++ fired) /\
    (forall c, same_slots M M' c).
Proof.
  cbv zeta. revert B M first l ret_cnt T ch pend ecs epend.
  induction n as [|n IH]; intros B M first l ret_cnt T ch pend ecs epend Hi Hl.
  - exists B, M, first, l, ch, ecs. change (Z.of_nat 0) with 0. rewrite !Z.add_0_r. cbn [expire_loop].
    change (due_within T 0 pend) with (@nil timer). rewrite app_nil_r. split; [done|]. split; [|done].
    rewrite filter_all; [done|].
    intros e He. pose proof (wi_due _ _ _ _ _ _ _ _ _ Hi e He). lia.
  - destruct (tick_inv B M first l ret_cnt T ch pend ecs epend Hi Hl)
      as (B1 & M1 & f1 & l1 & ch1 & ecs1 & Hi1 & Hl1 & Hs1 & E1).
    destruct (IH B1 M1 f1 l1 (ret_cnt + Z.of_nat (length (filter (fun e => due e = T + 1) pend)))
      _ _ _ _ _ Hi1 Hl1) as (B2 & M2 & f2 & l2 & ch2 & ecs2 & E2 & Hi2 & Hs2).
    exists B2, M2, f2, l2, ch2, ecs2.
    replace (T + Z.of_nat (S n)) with (T + 1 + Z.of_nat n) by lia.
    replace (Z.of_nat (S n)) with (Z.of_nat n + 1) by lia.
    rewrite due_within_S, length_app by lia. split; [|split].
    + rewrite E1, E2. f_equal. lia.
    + rewrite <- app_assoc in Hi2. rewrite list_filter_filter in Hi2.
      rewrite (filter_ext_in (fun e => T + 1 + Z.of_nat n < due e)
        (fun e => T + 1 + Z.of_nat n < due e /\ due e <> T + 1)); [done|].
      intros e _. lia.
    + intros c. destruct (Hs1 c) as [A1 A2], (Hs2 c) as [A3 A4]. split; congruence.
Qed.

(** ** Submitting *)

(** A change of one bucket that appends one timer. *)
Lemma wheel_append pre B M first T ch pend ecs epend M' bkt l e :
  let b := due e mod SF_TIMER_MAX_TICKS in
  wheel_inv pre B M first T ch pend ecs epend -> T < due e <= T + SF_TIMER_MAX_TICKS ->
  bucket_ok M' bkt l -> entries M' l = entries M (ch b) ++ [ent e] ->
  (forall c, c ∉ l -> M'.[c] = M.[c]) ->
  (forall c, c ∈ l -> c ∈ ch b \/
    c ∉ ecs /\ forall b', 0 <= b' < SF_TIMER_MAX_TICKS -> c ∉ ch b') ->
  wheel_inv pre B.[b <- bkt] M' first T (<[b := l]> ch) (pend ++ [e]) ecs epend.
Proof.
  cbv zeta. intros Hi Hd Hb He Hf Hl. pose proof (mod_range (due e)) as Hr.
  set (b := due e mod SF_TIMER_MAX_TICKS) in *.
  assert (Hfe : forall c, c ∈ ecs -> M'.[c] = M.[c]).
  { intros c Hc. apply Hf. intros Hin. destruct (Hl c Hin) as [Hin'|[Hn _]]; [|done].
    by apply (wi_edisj _ _ _ _ _ _ _ _ _ Hi b c). }
  assert (Hfo : forall d c, 0 <= d < SF_TIMER_MAX_TICKS -> d <> b -> c ∈ ch d -> c ∉ l).
  { intros d c Hd' Hne Hc Hin. destruct (Hl c Hin) as [Hin'|[_ Hn]]; [|by apply (Hn d)].
    apply Hne, (wi_disj _ _ _ _ _ _ _ _ _ Hi d b c); auto. }
  split.
  - apply (wi_pre _ _ _ _ _ _ _ _ _ Hi).
  - intros d Hd'. destruct (decide (d = b)) as [->|Hne].
    + by rewrite aget_aset_eq, fn_lookup_insert.
    + rewrite aget_aset_ne, fn_lookup_insert_ne by done.
      apply (bucket_ok_frame M); [|by apply (wi_bucket _ _ _ _ _ _ _ _ _ Hi)]. eauto.
  - intros d Hd'. unfold of_bucket. rewrite filter_app, fmap_app. fold (of_bucket d pend).
    destruct (decide (d = b)) as [->|Hne].
    + rewrite fn_lookup_insert, filter_cons_True, filter_nil by done.
      rewrite He, (wi_entries _ _ _ _ _ _ _ _ _ Hi) by done. done.
    + rewrite fn_lookup_insert_ne, filter_cons_False, filter_nil by auto.
      rewrite app_nil_r, <- (wi_entries _ _ _ _ _ _ _ _ _ Hi) by done.
      apply entries_frame. intros c Hc. unfold same_slots. by rewrite Hf by eauto.
  - intros e' [He'| ->%list_elem_of_singleton]%elem_of_app; [|done].
    by apply (wi_due _ _ _ _ _ _ _ _ _ Hi).
  - apply (cseg_frame M); [|apply (wi_exp _ _ _ _ _ _ _ _ _ Hi)]. intros c Hc. by rewrite Hfe.
  - apply (wi_enodup _ _ _ _ _ _ _ _ _ Hi).
  - intros c Hc. rewrite Hfe by done. by apply (wi_ecnt _ _ _ _ _ _ _ _ _ Hi).
  - rewrite <- (wi_eentries _ _ _ _ _ _ _ _ _ Hi). apply entries_frame.
    intros c Hc. unfold same_slots. by rewrite Hfe.
  - intros d d' c Hd1 Hd2.
    destruct (decide (d = b)) as [->|Hne], (decide (d' = b)) as [->|Hne'];
      rewrite ?fn_lookup_insert, ?(fn_lookup_insert_ne _ _ _ _ (not_eq_sym Hne)),
        ?(fn_lookup_insert_ne _ _ _ _ (not_eq_sym Hne')); try done; intros Hc Hc'.
    + by destruct (Hfo d' c).
    + by destruct (Hfo d c).
    + by apply (wi_disj _ _ _ _ _ _ _ _ _ Hi d d' c).
  - intros d c Hd' Hc. destruct (decide (d = b)) as [->|Hne].
    + rewrite fn_lookup_insert in Hc. destruct (Hl c Hc) as [Hin|[Hn _]]; [|done].
      by apply (wi_edisj _ _ _ _ _ _ _ _ _ Hi b).
    + rewrite fn_lookup_insert_ne in Hc by done. by apply (wi_edisj _ _ _ _ _ _ _ _ _ Hi d).
Qed.

Lemma chunk_entries_put M c nx n slots data :
  0 <= n -> current_slot_cnt M.[c] = n -> sf_timer_slots M.[c] = slots ->
  chunk_entries M.[c <- mk_chunk nx (n + 1) slots.[n <- data]] c
  = chunk_entries M c ++ [(c, n, data)].
Proof.
  intros Hn En Es. unfold chunk_entries. rewrite aget_aset_eq. cbn [current_slot_cnt sf_timer_slots].
  rewrite En, Es, seqZ_app by lia. rewrite map_app. cbn [map seqZ]. f_equal.
  - apply map_ext_in. intros i Hi%list_elem_of_In%elem_of_seqZ.
    rewrite (aget_aset_ne slots) by lia. done.
  - change (seqZ (0 + n) 1) with (seqZ (0 + n) (Z.succ 0)). rewrite seqZ_cons by lia. cbn.
    rewrite Z.add_0_l. by rewrite aget_aset_eq.
Qed.

Lemma entries_snoc M cs c : entries M (cs ++ [c]) = entries M cs ++ chunk_entries M c.
Proof. rewrite entries_app. unfold entries at 2. cbn. by rewrite app_nil_r. Qed.

Lemma entries_frame_eq M M' cs :
  (forall c, c ∈ cs -> M'.[c] = M.[c]) -> entries M' cs = entries M cs.
Proof. intros E. apply entries_frame. intros c Hc. unfold same_slots. by rewrite E. Qed.

(** Writing into the current chunk of a bucket with a slot left. *)
Lemma bucket_put M b cs data :
  bucket_ok M b cs -> 0 < slot_left_cnt b -> slot_used_cnt b + 1 < 2 ^ 32 ->
  let cur := current_chunk b in
  let n := current_slot_cnt M.[cur] in
  let M' := M.[cur <- mk_chunk (next_chunk M.[cur]) (n + 1) (sf_timer_slots M.[cur]).[n <- data]] in
  bucket_ok M' (mk_tbucket (slot_used_cnt b + 1) (slot_left_cnt b - 1) (first_chunk b) cur) cs /\
  entries M' cs = entries M cs ++ [(cur, n, data)] /\ cur ∈ cs /\ 0 <= n < SF_TW_TIMER_SLOT_CNT.
Proof.
  intros Hb Hl Hu1. destruct Hb as [->|cs Hs Hnd Hf Hc Hl' Hu Hu2]; [cbn in Hl; lia|]. cbv zeta.
  set (cur := current_chunk b) in *. set (n := current_slot_cnt M.[cur]) in *.
  apply NoDup_app in Hnd as Hnd'. destruct Hnd' as (_ & Hnc & _).
  assert (Hcur : cur ∉ cs) by (intros Hin; apply (Hnc cur Hin); set_solver).
  set (M' := M.[cur <- _]).
  assert (Hfr : forall c, c ∈ cs -> M'.[c] = M.[c]).
  { intros c Hin. apply aget_aset_ne. intros ->. done. }
  assert (Ee : entries M' (cs ++ [cur]) = entries M (cs ++ [cur]) ++ [(cur, n, data)]).
  { rewrite !entries_snoc, (entries_frame_eq M) by done. rewrite <- app_assoc. f_equal.
    apply chunk_entries_put; [lia|done|done]. }
  split; [|split; [done|split; [set_solver|lia]]].
  constructor; cbn [first_chunk current_chunk slot_left_cnt slot_used_cnt]; try done; try lia.
  - apply (cseg_frame M); [|done]. intros c _. unfold M'. rewrite aget_aset.
    destruct (decide (cur = c)); by subst.
  - apply Forall_forall. intros c Hin. rewrite Forall_forall in Hf. unfold full_chunk.
    rewrite Hfr by done. by apply Hf.
  - unfold M'. rewrite aget_aset_eq. cbn [current_slot_cnt]. lia.
  - rewrite Ee, length_app. cbn [length]. lia.
Qed.

(** Hanging a new chunk behind a bucket without a slot left. *)
Lemma bucket_new M b cs alloc data :
  bucket_ok M b cs -> slot_left_cnt b = 0 -> slot_used_cnt b + 1 < 2 ^ 32 ->
  alloc <> 0 -> alloc ∉ cs ->
  let M1 := M.[alloc <- mk_chunk 0 1 (sf_timer_slots M.[alloc]).[0 <- data]] in
  let '(M', first) :=
    if decide (current_chunk b = 0) then (M1, alloc)
    else (M1.[current_chunk b <- set_next_chunk alloc M1.[current_chunk b]], first_chunk b) in
  bucket_ok M' (mk_tbucket (slot_used_cnt b + 1) (SF_TW_TIMER_SLOT_CNT - 1) first alloc) (cs ++ [alloc]) /\
  entries M' (cs ++ [alloc]) = entries M cs ++ [(alloc, 0, data)] /\
  current_slot_cnt M'.[alloc] = 1 /\ (forall c, c ∉ cs ++ [alloc] -> M'.[c] = M.[c]).
Proof.
  intros Hb Hl Hu1 Hnz Hni. cbv zeta. set (M1 := M.[alloc <- _]).
  assert (Hce : forall M', M'.[alloc] = M1.[alloc] -> chunk_entries M' alloc = [(alloc, 0, data)]).
  { intros M' E. unfold chunk_entries. rewrite E. unfold M1. rewrite aget_aset_eq.
    cbn [current_slot_cnt sf_timer_slots]. cbn [seqZ map]. change (seqZ 0 1) with [0]. cbn [map].
    by rewrite aget_aset_eq. }
  destruct Hb as [->|cs Hs Hnd Hf Hc Hl' Hu Hu2].
  - cbn [current_chunk first_chunk slot_used_cnt app]. rewrite decide_True by done.
    assert (Ee : entries M1 [alloc] = [(alloc, 0, data)]).
    { unfold entries. cbn [map concat]. rewrite app_nil_r. by apply Hce. }
    assert (Ec : current_slot_cnt M1.[alloc] = 1) by (unfold M1; by rewrite aget_aset_eq).
    split; [|split; [by rewrite Ee|split; [done|]]].
    + apply (bucket_chain M1 (mk_tbucket (0 + 1) (SF_TW_TIMER_SLOT_CNT - 1) alloc alloc) []);
        cbn [current_chunk first_chunk slot_used_cnt slot_left_cnt app]; try done.
      * cbn. split_and!; try done. unfold M1. by rewrite aget_aset_eq.
      * apply NoDup_singleton.
      * by rewrite Ee.
    + intros c Hin. apply aget_aset_ne. set_solver.
  - set (cur := current_chunk b) in *.
    assert (Hcn : cur <> 0) by (apply (cseg_nonzero M (first_chunk b) (cs ++ [cur]) 0); [done|set_solver]).
    rewrite decide_False by done. set (M' := M1.[cur <- _]).
    assert (Hca : cur <> alloc) by set_solver.
    assert (Ea : M'.[alloc] = M1.[alloc]) by (by apply aget_aset_ne).
    assert (Hss : forall c, c ∈ cs ++ [cur] -> same_slots M M' c).
    { intros c Hin. destruct (same_slots_set_next M1 cur alloc c) as [A1 A2]. fold M' in A1, A2.
      assert (E1 : M1.[c] = M.[c]) by (apply aget_aset_ne; set_solver).
      unfold same_slots. by rewrite A1, A2, E1. }
    assert (Ee : entries M' ((cs ++ [cur]) ++ [alloc])
      = entries M (cs ++ [cur]) ++ [(alloc, 0, data)]).
    { rewrite entries_snoc, (entries_frame M M' (cs ++ [cur])) by done. by rewrite Hce. }
    assert (Ec : current_slot_cnt M'.[alloc] = 1) by (rewrite Ea; unfold M1; by rewrite aget_aset_eq).
    split; [|split; [done|split; [done|]]].
    + apply (bucket_chain M' (mk_tbucket (slot_used_cnt b + 1) (SF_TW_TIMER_SLOT_CNT - 1)
        (first_chunk b) alloc)); cbn [current_chunk first_chunk slot_used_cnt slot_left_cnt]; try done.
      * apply cseg_app. exists alloc. split.
        -- apply cseg_set_last; [apply NoDup_app in Hnd as (_ & Hd & _); intros Hin; apply (Hd cur Hin); set_solver|].
           apply (cseg_frame M); [|done]. intros c Hin. unfold M1. rewrite aget_aset_ne; [done|set_solver].
        -- cbn. split_and!; try done. rewrite Ea. unfold M1. by rewrite aget_aset_eq.
      * apply NoDup_app. split_and!; [done|set_solver|apply NoDup_singleton].
      * apply Forall_forall. intros c Hin. destruct (Hss c Hin) as [Hsc _]. unfold full_chunk. rewrite Hsc.
        apply elem_of_app in Hin as [Hin| ->%list_elem_of_singleton].
        -- rewrite Forall_forall in Hf. by apply Hf.
        -- rewrite Hc. lia.
      * rewrite Ee, length_app. cbn [length]. lia.
    + intros c Hin. unfold M', M1. rewrite !aget_aset_ne by set_solver. done.
Qed.

(** ** The runs of a wheel *)

Definition winv tw M (T : Z) (ch : Z -> list Z) (pend : list timer) ecs (epend : list timer) : Prop :=
  wheel_inv (pre_bucket_index tw) (sf_timer_buckets tw) M (expire_chunk_list tw) T ch pend ecs epend.

(** The chunks the wheel holds. *)
Inductive on_chain M : Z -> Z -> Prop :=
| on_here c : c <> 0 -> on_chain M c c
| on_next x c : x <> 0 -> on_chain M (next_chunk M.[x]) c -> on_chain M x c.

Definition held tw M (c : Z) : Prop :=
  on_chain M (expire_chunk_list tw) c \/
  exists b, 0 <= b < SF_TIMER_MAX_TICKS /\ on_chain M (first_chunk (sf_timer_buckets tw).[b]) c.

Lemma cseg_on_chain M x cs c : cseg M x cs 0 -> c ∈ cs -> on_chain M x c.
Proof.
  revert x. induction cs as [|d cs IH]; intros x; cbn; [by intros _ ?%not_elem_of_nil|].
  intros (-> & Hd & H) Hc. apply elem_of_cons in Hc as [->|Hc]; [by apply on_here|].
  apply on_next; [done|]. by apply IH.
Qed.

Lemma held_spec tw M T ch pend ecs epend c : winv tw M T ch pend ecs epend -> ~ held tw M c ->
  c ∉ ecs /\ forall b, 0 <= b < SF_TIMER_MAX_TICKS -> c ∉ ch b.
Proof.
  intros Hi Hn. split.
  - intros Hc. apply Hn. left. apply (cseg_on_chain M _ ecs); [apply (wi_exp _ _ _ _ _ _ _ _ _ Hi)|done].
  - intros b Hb Hc. apply Hn. right. exists b. split; [done|].
    pose proof (wi_bucket _ _ _ _ _ _ _ _ _ Hi b Hb) as Hbk.
    assert (Hne : ch b <> []) by (by intros E; rewrite E in Hc; apply not_elem_of_nil in Hc).
    destruct (bucket_ok_props _ _ _ Hbk Hne) as (Hs & _). by apply (cseg_on_chain M _ (ch b)).
Qed.

(** A delay of no ticks is a whole turn. *)
Definition turn (ticks : Z) : Z := if decide (ticks = 0) then SF_TIMER_MAX_TICKS else ticks.

Lemma turn_mod T ticks : (T + turn ticks) mod SF_TIMER_MAX_TICKS = (T + ticks) mod SF_TIMER_MAX_TICKS.
Proof.
  unfold turn. destruct (decide (ticks = 0)) as [->|]; [|done].
  rewrite Z.add_0_r. unfold SF_TIMER_MAX_TICKS. by rewrite <- (Z_mod_plus_full T 1 (2 ^ 14)).
Qed.

Lemma used_le_pend tw M T ch pend ecs epend b : winv tw M T ch pend ecs epend ->
  0 <= b < SF_TIMER_MAX_TICKS -> slot_used_cnt (sf_timer_buckets tw).[b] <= Z.of_nat (length pend).
Proof.
  intros Hi Hb. pose proof (wi_bucket _ _ _ _ _ _ _ _ _ Hi b Hb) as Hbk.
  assert (E : slot_used_cnt (sf_timer_buckets tw).[b] = Z.of_nat (length (entries M (ch b)))).
  { inversion Hbk as [E0 E1|? ? ? ? ? ? Hu ? E1]; [by rewrite E0|done]. }
  rewrite E, (wi_entries _ _ _ _ _ _ _ _ _ Hi), length_fmap by done.
  apply inj_le, length_filter.
Qed.

(** What a submission does, on every branch. *)
Lemma submit_inv tw M T ch pend ecs epend record info group ticks alloc tw' M' rec ret :
  winv tw M T ch pend ecs epend -> 0 <= ticks < 2 ^ 32 -> Z.of_nat (length pend) + 1 < 2 ^ 32 ->
  (alloc <> 0 -> ~ held tw M alloc) ->
  sf_submit_timer_tw tw M record info group ticks alloc = (tw', M', rec, ret) ->
  let data := handle_data group (u64 (info - timer_info_start tw)) in
  let bkt := (sf_timer_buckets tw).[(T + ticks) mod SF_TIMER_MAX_TICKS] in
  (ret = -1 /\ tw' = tw /\ M' = M /\ rec = None /\
     (SF_TIMER_MAX_TICKS < ticks \/ alloc = 0 /\ slot_left_cnt bkt = 0)) \/
  (ret = 0 /\ ticks <= SF_TIMER_MAX_TICKS /\ timer_info_start tw' = timer_info_start tw /\
   exists sl ch', winv tw' M' T ch' (pend ++ [mk_timer (T + turn ticks) sl data]) ecs epend /\
     rec = if record then Some (mk_trecord sl info (f64_add (last_run_time tw)
             (f64_mul (f64_of (u32 (ticks - 2))) (timer_interval tw)))) else None).
Proof.
  intros Hi Ht Hlen Hal E. cbv zeta. unfold sf_submit_timer_tw in E.
  destruct (decide (SF_TIMER_MAX_TICKS < ticks)) as [Hgt|Hle].
  { injection E as <- <- <- <-. left. split_and!; auto. }
  assert (Eb : Z.land (u32 (pre_bucket_index tw + ticks)) SF_TW_TIMER_BUCKET_MASK
    = (T + ticks) mod SF_TIMER_MAX_TICKS).
  { rewrite (wi_pre _ _ _ _ _ _ _ _ _ Hi). pose proof (mod_range T).
    unfold SF_TIMER_MAX_TICKS in *. rewrite land_mask by lia. apply Zplus_mod_idemp_l. }
  rewrite Eb in E. pose proof (mod_range (T + ticks)) as Hr.
  set (b := (T + ticks) mod SF_TIMER_MAX_TICKS) in *.
  set (bk := (sf_timer_buckets tw).[b]) in *.
  set (data := handle_data group (u64 (info - timer_info_start tw))) in *.
  pose proof (wi_bucket _ _ _ _ _ _ _ _ _ Hi b Hr) as Hbk. fold bk in Hbk.
  pose proof (used_le_pend _ _ _ _ _ _ _ b Hi Hr) as Hu. fold bk in Hu.
  assert (Hleft : 0 <= slot_left_cnt bk < SF_TW_TIMER_SLOT_CNT).
  { inversion Hbk as [E0 E1|]; [rewrite E0; by vm_compute|done]. }
  assert (Hu0 : 0 <= slot_used_cnt bk) by (by apply (bucket_nonempty M bk (ch b))).
  assert (Hslots : SF_TW_TIMER_SLOT_CNT = 510) by done.
  assert (Hdue : forall sl, due (mk_timer (T + turn ticks) sl data) mod SF_TIMER_MAX_TICKS = b).
  { intros sl. cbn. apply turn_mod. }
  assert (Hdr : T < T + turn ticks <= T + SF_TIMER_MAX_TICKS).
  { unfold turn. unfold SF_TIMER_MAX_TICKS in *. destruct (decide (ticks = 0)); lia. }
  cbv zeta in E. destruct (decide (0 < slot_left_cnt bk)) as [Hl|Hl].
  - unfold set_slot in E. cbn [next_chunk current_slot_cnt sf_timer_slots] in E.
    destruct (bucket_put M bk (ch b) data Hbk Hl ltac:(lia)) as (Hbk' & He & Hin & Hn).
    set (cur := current_chunk bk) in *. set (n := current_slot_cnt M.[cur]) in *.
    rewrite (wrap_small 64 (n + 1)) in E by lia.
    rewrite (wrap_small 32 (slot_used_cnt bk + 1)), (wrap_small 32 (slot_left_cnt bk - 1)) in E by lia.
    set (M1 := M.[cur <- _]) in *. right.
    assert (Ecur : current_slot_cnt M1.[cur] = n + 1) by (unfold M1; by rewrite aget_aset_eq).
    rewrite Ecur, Z.add_simpl_r in E. injection E as <- <- <- <-.
    split; [done|]. split; [lia|]. split; [done|]. exists (cur, n), (<[b := ch b]> ch). split; [|done].
    unfold winv. cbn. rewrite <- (Hdue (cur, n)) at 1 2.
    apply (wheel_append _ _ M); rewrite ?Hdue; try done.
    + intros c Hc. apply aget_aset_ne. intros ->. done.
    + intros c Hc. by left.
  - assert (Hl0 : slot_left_cnt bk = 0) by lia.
    destruct (decide (alloc = 0)) as [->|Ha].
    { injection E as <- <- <- <-. left. split_and!; auto. }
    destruct (held_spec _ _ _ _ _ _ _ _ Hi (Hal Ha)) as [Hne Hnb].
    pose proof (bucket_new M bk (ch b) alloc data Hbk Hl0 ltac:(lia) Ha (Hnb b Hr)) as Hnew.
    cbv zeta in Hnew. set (u := if decide (current_chunk bk = 0) then _ else _) in *.
    destruct u as [M1 first]. destruct Hnew as (Hbk' & He & Ecur & Hfr).
    rewrite Hl0, Ecur, Z.add_0_l in E.
    rewrite (wrap_small 32 (slot_used_cnt bk + 1)), (wrap_small 32 (SF_TW_TIMER_SLOT_CNT - 1)) in E by lia.
    right. injection E as <- <- <- <-. split; [done|]. split; [lia|]. split; [done|].
    exists (alloc, 0), (<[b := ch b ++ [alloc]]> ch). split; [|done].
    unfold winv. cbn. rewrite <- (Hdue (alloc, 0)) at 1 2.
    apply (wheel_append _ _ M); rewrite ?Hdue; try done.
    intros c [Hc| ->%list_elem_of_singleton]%elem_of_app; [by left|right; done].
Qed.

(** Blanking a slot. *)
Definition blank (h : Z * Z) (e : timer) : timer :=
  if decide (slot e = h) then mk_timer (due e) (slot e) 0 else e.

Lemma chunk_entries_write M h c :
  chunk_entries (write_slot M h 0) c
  = map (fun p => if decide (fst p = h) then (fst p, 0) else p) (chunk_entries M c).
Proof.
  unfold chunk_entries, write_slot. destruct h as [d i]. cbn [fst snd]. rewrite map_map.
  assert (E : current_slot_cnt M.[d <- set_slot i 0 M.[d]].[c] = current_slot_cnt M.[c]).
  { rewrite aget_aset. destruct (decide (d = c)); by subst. }
  rewrite E. apply map_ext. intros j. cbn [fst]. rewrite (aget_aset M).
  destruct (decide (d = c)) as [->|Hne].
  - cbn [sf_timer_slots set_slot]. rewrite aget_aset.
    by destruct (decide (i = j)), (decide ((c, j) = (c, i))); simplify_eq.
  - destruct (decide ((c, j) = (d, i))); [congruence|done].
Qed.

Lemma entries_write M h cs :
  entries (write_slot M h 0) cs
  = map (fun p => if decide (fst p = h) then (fst p, 0) else p) (entries M cs).
Proof.
  unfold entries. rewrite concat_map, map_map. f_equal. apply map_ext. intros c.
  apply chunk_entries_write.
Qed.

Lemma ent_blank h (l : list timer) :
  map (fun p => if decide (fst p = h) then (fst p, 0) else p) (ent <$> l) = ent <$> (blank h <$> l).
Proof.
  rewrite <- !list_fmap_compose. apply (list_fmap_ext (_ ∘ ent) (ent ∘ blank h)).
  intros _ e _. unfold ent, blank. cbn. by destruct (decide (slot e = h)).
Qed.

Lemma due_blank h e : due (blank h e) = due e.
Proof. unfold blank. by destruct (decide (slot e = h)). Qed.

Lemma of_bucket_blank b h (l : list timer) : of_bucket b (blank h <$> l) = blank h <$> of_bucket b l.
Proof.
  unfold of_bucket. induction l as [|e l IH]; [done|]. rewrite fmap_cons.
  destruct (decide (due e mod SF_TIMER_MAX_TICKS = b)) as [Hp|Hp].
  - rewrite !filter_cons_True, fmap_cons, IH; [done|done|by rewrite due_blank].
  - rewrite !filter_cons_False, IH; [done|done|by rewrite due_blank].
Qed.

Lemma write_slot_links M h c : next_chunk (write_slot M h 0).[c] = next_chunk M.[c] /\
  current_slot_cnt (write_slot M h 0).[c] = current_slot_cnt M.[c].
Proof. unfold write_slot. rewrite aget_aset. destruct (decide (fst h = c)); by subst. Qed.

Lemma bucket_ok_write M h b cs : bucket_ok M b cs -> bucket_ok (write_slot M h 0) b cs.
Proof.
  intros H. destruct H as [|cs Hs Hnd Hf Hc Hl Hu Hb]; [by constructor|].
  constructor; try done.
  - apply (cseg_frame M); [|done]. intros c _. apply write_slot_links.
  - eapply Forall_impl; [exact Hf|]. intros c. unfold full_chunk. by rewrite (proj2 (write_slot_links M h c)).
  - by rewrite (proj2 (write_slot_links M h _)).
  - by rewrite entries_write, length_map.
Qed.

Lemma winv_write tw M T ch pend ecs epend h : winv tw M T ch pend ecs epend ->
  winv tw (write_slot M h 0) T ch (blank h <$> pend) ecs (blank h <$> epend).
Proof.
  intros Hi. destruct Hi. split; try done.
  - intros b Hb. by apply bucket_ok_write, wi_bucket0.
  - intros b Hb. rewrite entries_write, wi_entries0, ent_blank by done. f_equal.
    symmetry. apply of_bucket_blank.
  - intros e He. apply list_elem_of_fmap in He as (e' & -> & He). rewrite due_blank. auto.
  - apply (cseg_frame M); [|done]. intros c _. apply write_slot_links.
  - intros c Hc. rewrite (proj2 (write_slot_links M h c)). auto.
  - by rewrite entries_write, wi_eentries0, ent_blank.
Qed.

(** ** Handing on the expire list *)

Definition deliver (start : Z) (vec : gmap Z Z) (e : timer) : Z * Z :=
  timer_slot_next start vec (tdata e).
Definition live_count (l : list timer) : Z :=
  Z.of_nat (length (filter (fun e => handle_group (tdata e) <> 0) l)).

Lemma live_count_app l1 l2 : live_count (l1 ++ l2) = live_count l1 + live_count l2.
Proof. unfold live_count. rewrite filter_app, length_app. lia. Qed.

Lemma chunk_slots_ent M c l : 1 <= current_slot_cnt M.[c] <= SF_TW_TIMER_SLOT_CNT ->
  chunk_entries M c = ent <$> l -> chunk_slots M.[c] = tdata <$> l.
Proof.
  intros Hc E. assert (E' : snd <$> chunk_entries M c = tdata <$> l).
  { rewrite E, <- list_fmap_compose. done. }
  rewrite <- E'. unfold chunk_entries, chunk_slots.
  rewrite wrap_small by (change SF_TW_TIMER_SLOT_CNT with 510 in Hc; lia).
  change (?f <$> ?l) with (map f l). by rewrite map_map.
Qed.

Lemma input_internal_ent M c l start vec : 1 <= current_slot_cnt M.[c] <= SF_TW_TIMER_SLOT_CNT ->
  chunk_entries M c = ent <$> l ->
  sf_timer_input_internal start vec M.[c] = (deliver start vec <$> l, live_count l).
Proof.
  intros Hc E. unfold sf_timer_input_internal. rewrite (chunk_slots_ent M c l Hc E). f_equal.
  - change (map ?f ?l) with (f <$> l). by rewrite <- list_fmap_compose.
  - unfold live_count. f_equal. clear E. induction l as [|e l IH]; [done|]. rewrite fmap_cons.
    destruct (decide (handle_group (tdata e) <> 0)) as [Hg|Hg].
    + rewrite !filter_cons_True by done. cbn [length]. by rewrite IH.
    + by rewrite !filter_cons_False by done.
Qed.

Lemma input_loop_spec M start vec x ecs epend ret out freed :
  cseg M x ecs 0 -> (forall c, c ∈ ecs -> 1 <= current_slot_cnt M.[c] <= SF_TW_TIMER_SLOT_CNT) ->
  entries M ecs = ent <$> epend ->
  exists x' ecs1 ecs2 ep1 ep2,
    (forall fuel, (length ecs < fuel)%nat -> input_loop fuel M start vec x ret out freed
      = Some (x', ret + live_count ep1, out ++ (deliver start vec <$> ep1), freed ++ ecs1)) /\
    ecs = ecs1 ++ ecs2 /\ epend = ep1 ++ ep2 /\ cseg M x' ecs2 0 /\ entries M ecs2 = ent <$> ep2 /\
    (ep2 = [] \/ SF_TW_TIMER_SLOT_CNT <= ret + live_count ep1).
Proof.
  revert x epend ret out freed.
  induction ecs as [|c ecs IH]; intros x epend ret out freed Hs Hc He.
  - cbn in Hs. subst x. symmetry in He. apply fmap_nil_inv in He as ->.
    exists 0, [], [], [], []. split_and!; try done; [|by left].
    intros [|fuel] Hf; cbn in Hf; [lia|]. cbn [input_loop]. rewrite decide_True by done.
    by rewrite fmap_nil, !app_nil_r, Z.add_0_r.
  - destruct Hs as (-> & Hnz & Hs).
    change (entries M (c :: ecs)) with (chunk_entries M c ++ entries M ecs) in He.
    symmetry in He. apply fmap_app_inv in He as (l1 & l2 & E1 & E2 & ->).
    assert (Hin : 1 <= current_slot_cnt M.[c] <= SF_TW_TIMER_SLOT_CNT) by (apply Hc; set_solver).
    pose proof (input_internal_ent M c l1 start vec Hin E1) as Ei.
    destruct (decide (SF_TW_TIMER_SLOT_CNT <= ret + live_count l1)) as [Hge|Hlt].
    + exists (next_chunk M.[c]), [c], ecs, l1, l2. split_and!; try done; [|by right].
      intros [|fuel] Hf; [lia|]. cbn [input_loop]. rewrite decide_False by done.
      by rewrite Ei, decide_True by done.
    + destruct (IH (next_chunk M.[c]) l2 (ret + live_count l1) (out ++ (deliver start vec <$> l1))
        (freed ++ [c])) as (x' & e1 & e2 & p1 & p2 & Er & -> & -> & Hs' & He' & Hor);
        [done| |done|].
      { intros d Hd. apply Hc. set_solver. }
      exists x', (c :: e1), e2, (l1 ++ p1), p2. rewrite live_count_app, Z.add_assoc.
      split_and!; try done; [|by rewrite <- app_assoc].
      intros [|fuel] Hf; cbn in Hf; [lia|]. cbn [input_loop]. rewrite decide_False by done.
      rewrite Ei, decide_False by done. rewrite Er by lia.
      by rewrite fmap_app, <- !app_assoc.
Qed.

Lemma length_entries M cs :
  (forall c, c ∈ cs -> 1 <= current_slot_cnt M.[c] <= SF_TW_TIMER_SLOT_CNT) ->
  (length cs <= length (entries M cs))%nat.
Proof.
  induction cs as [|c cs IH]; intros Hc; [done|].
  change (entries M (c :: cs)) with (chunk_entries M c ++ entries M cs). rewrite length_app. cbn [length].
  unfold chunk_entries at 1. rewrite length_map, length_seqZ.
  pose proof (Hc c ltac:(set_solver)). assert (length cs <= length (entries M cs))%nat; [|lia].
  apply IH. intros d Hd. apply Hc. set_solver.
Qed.

(** *** The abstract machine

    A state pairs the wheel and its chunks with the number of ticks it has
    made, the pending timers and the expired ones not handed on yet. *)
Record wheel_state := mk_ws {
  ws_tw : sf_tw_timer_t;
  ws_mem : gmap Z sf_timer_chunk_t;
  ws_ticks : Z;
  ws_pend : list timer;
  ws_exp : list timer
}.

(** The ticks a call of the node makes. *)
Definition node_ticks tw (now : f64) : Z :=
  if decide (expire_chunk_list tw = 0)
  then if f64_lt now (next_run_time tw) then 0 else elapsed_ticks tw now
  else 0.

Inductive wheel_step : wheel_state -> wheel_state -> Prop :=
| ws_submit tw M T pend ex info group ticks alloc tw' M' r :
    0 <= ticks < 2 ^ 32 -> Z.of_nat (length pend) + 1 < 2 ^ 32 ->
    (alloc <> 0 -> ~ held tw M alloc) ->
    sf_submit_timer_tw tw M true info group ticks alloc = (tw', M', Some r, 0) ->
    wheel_step (mk_ws tw M T pend ex)
      (mk_ws tw' M' T (pend ++ [mk_timer (T + turn ticks) (slot_handler r)
         (handle_data group (u64 (info - timer_info_start tw)))]) ex)
| ws_stop tw M T pend ex r now M' :
    slot_handler r ∈ slot <$> pend ->
    sf_stop_timer M r now = (M', SF_TIMER_STATUS_SUCCESS) ->
    wheel_step (mk_ws tw M T pend ex)
      (mk_ws tw M' T (blank (slot_handler r) <$> pend) (blank (slot_handler r) <$> ex))
| ws_node tw M T pend ex fuel vec expired now tw' M' expired' out freed :
    let n := node_ticks tw now in
    (length (ex ++ due_within T n pend) < fuel)%nat ->
    sf_timer_input_node fuel tw M vec expired now = Some (tw', M', expired', out, freed) ->
    wheel_step (mk_ws tw M T pend ex)
      (mk_ws tw' M' (T + n) (filter (fun e => T + n < due e) pend)
         (drop (length out) (ex ++ due_within T n pend))).

Definition wheel_init (s : wheel_state) : Prop :=
  ws_ticks s = 0 /\ ws_pend s = [] /\ ws_exp s = [] /\
  exists start, sf_tw_timer_init start true = (ws_tw s, 0).

Definition ws_inv (s : wheel_state) : Prop :=
  0 <= ws_ticks s /\
  exists ch ecs, winv (ws_tw s) (ws_mem s) (ws_ticks s) ch (ws_pend s) ecs (ws_exp s).

Lemma due_within_0 T pend : due_within T 0 pend = [].
Proof. done. Qed.

Lemma elapsed_nonneg tw now : 0 <= elapsed_ticks tw now.
Proof. unfold elapsed_ticks, u32_of_f64. destruct (f64_mul _ _); try done. apply wrap_range. lia. Qed.

Lemma node_ticks_nonneg tw now : 0 <= node_ticks tw now.
Proof.
  unfold node_ticks. destruct (decide (expire_chunk_list tw = 0)); [|done].
  destruct (f64_lt now (next_run_time tw)); [done|]. apply elapsed_nonneg.
Qed.

(** The first half of the node: the expiry. *)
Lemma node_expire tw M T ch pend ecs ex now tw1 M1 :
  winv tw M T ch pend ecs ex ->
  (if decide (expire_chunk_list tw = 0)
   then fst (sf_tw_timer_expire_internal tw M now) else (tw, M)) = (tw1, M1) ->
  let n := node_ticks tw now in
  timer_info_start tw1 = timer_info_start tw /\
  exists ch1 ecs1, winv tw1 M1 (T + n) ch1 (filter (fun e => T + n < due e) pend) ecs1
    (ex ++ due_within T n pend).
Proof.
  intros Hi E. cbv zeta. unfold node_ticks.
  assert (Hsame : tw1 = tw -> M1 = M -> timer_info_start tw1 = timer_info_start tw /\
    exists ch1 ecs1, winv tw1 M1 (T + 0) ch1 (filter (fun e => T + 0 < due e) pend) ecs1
      (ex ++ due_within T 0 pend)).
  { intros -> ->. split; [done|]. exists ch, ecs. rewrite Z.add_0_r, due_within_0, app_nil_r, filter_all; [done|].
    intros e He. apply (wi_due _ _ _ _ _ _ _ _ _ Hi e He). }
  destruct (decide (expire_chunk_list tw = 0)) as [E0|E0]; [|injection E as <- <-; auto].
  unfold sf_tw_timer_expire_internal in E.
  destruct (f64_lt now (next_run_time tw)); [injection E as <- <-; auto|].
  rewrite decide_False in E by tauto.
  assert (ecs = []) as ->.
  { pose proof (wi_exp _ _ _ _ _ _ _ _ _ Hi) as Hx. rewrite E0 in Hx.
    destruct ecs as [|c ecs]; [done|]. destruct Hx as (? & ? & _). congruence. }
  unfold winv in Hi. rewrite E0 in Hi. pose proof (wi_pre _ _ _ _ _ _ _ _ _ Hi) as Hpre.
  pose proof (elapsed_nonneg tw now) as Hn. rewrite Hpre in Hi, E.
  destruct (expire_loop_spec (Z.to_nat (elapsed_ticks tw now)) (sf_timer_buckets tw) M 0 0 0 T ch pend [] ex Hi)
    as (B' & M' & f' & l' & ch' & ecs' & El & Hi' & _); [done|].
  rewrite Z2Nat.id in El, Hi' by done. rewrite El in E. cbn [fst] in E. injection E as <- <-.
  split; [done|]. by exists ch', ecs'.
Qed.

(** One call of the node. *)
Lemma node_spec tw M T ch pend ecs ex vec expired now :
  winv tw M T ch pend ecs ex ->
  let n := node_ticks tw now in
  let all := ex ++ due_within T n pend in
  exists tw' M' ep1 ep2 ch' ecs' freed,
    all = ep1 ++ ep2 /\
    (forall fuel, (length all < fuel)%nat ->
      sf_timer_input_node fuel tw M vec expired now
      = Some (tw', M', u64 (expired + live_count ep1),
              deliver (timer_info_start tw) vec <$> ep1, freed)) /\
    (ep2 = [] \/ SF_TW_TIMER_SLOT_CNT <= live_count ep1) /\
    winv tw' M' (T + n) ch' (filter (fun e => T + n < due e) pend) ecs' ep2.
Proof.
  intros Hi. cbv zeta. unfold sf_timer_input_node.
  destruct (if decide (expire_chunk_list tw = 0) then _ else _) as [tw1 M1] eqn:E1.
  destruct (node_expire _ _ _ _ _ _ _ _ _ _ Hi E1) as (Est & ch1 & ecs1 & Hi1).
  set (all := ex ++ due_within T (node_ticks tw now) pend) in *.
  pose proof (wi_ecnt _ _ _ _ _ _ _ _ _ Hi1) as Hcnt.
  assert (Hlen : (length ecs1 <= length all)%nat).
  { pose proof (length_entries M1 ecs1 Hcnt) as Hl.
    by rewrite (wi_eentries _ _ _ _ _ _ _ _ _ Hi1), length_fmap in Hl. }
  destruct (input_loop_spec M1 (timer_info_start tw1) vec _ _ _ 0 [] []
    (wi_exp _ _ _ _ _ _ _ _ _ Hi1) Hcnt (wi_eentries _ _ _ _ _ _ _ _ _ Hi1)) as
    (x' & e1 & e2 & ep1 & ep2 & El & -> & Eall & Hs & He & Hor).
  exists (set_expire tw1 x'), M1, ep1, ep2, ch1, e2, e1. split; [done|]. split; [|split; [done|]].
  - intros fuel Hf. rewrite El by lia. cbn [obind]. by rewrite Est.
  - destruct Hi1. split; try done.
    + by apply NoDup_app in wi_enodup0 as (_ & _ & ?).
    + intros c Hc. apply Hcnt. set_solver.
    + intros b c Hb Hc Hin. apply (wi_edisj0 b c Hb Hc). set_solver.
Qed.

Lemma ws_reach_inv s : reach wheel_init wheel_step s -> ws_inv s.
Proof.
  apply reach_invariant.
  - intros [tw M T pend ex] (HT & Hp & He & start & E). cbn in *. subst. injection E as <-.
    split; [done|]. exists (fun _ => []), []. split; cbn; try done.
    + intros b Hb. rewrite aget_empty. by constructor.
    + intros e He. by apply not_elem_of_nil in He.
    + apply NoDup_nil_2.
    + intros c Hc. by apply not_elem_of_nil in Hc.
    + intros b b' c _ _ Hc. by apply not_elem_of_nil in Hc.
    + intros b c _ Hc. by apply not_elem_of_nil in Hc.
  - intros s1 s2 (HT & ch & ecs & Hi) Hst. destruct Hst as [tw M T pend ex info group ticks alloc tw' M' r Ht Hl Hal E
      |tw M T pend ex r now M' Hin E|tw M T pend ex fuel vec expired now tw' M' expired' out freed n Hf E];
      cbn [ws_tw ws_mem ws_ticks ws_pend ws_exp] in *; split; cbn [ws_tw ws_mem ws_ticks ws_pend ws_exp]; try lia.
    + destruct (submit_inv _ _ _ _ _ _ _ _ _ _ _ _ _ _ _ _ Hi Ht Hl Hal E)
        as [(? & _)|(_ & _ & _ & sl & ch' & Hi' & Er)]; [done|].
      injection Er as ->. by exists ch', ecs.
    + unfold sf_stop_timer in E. destruct (f64_lt now (safe_clib_time r)); [|done].
      injection E as <-. exists ch, ecs. by apply winv_write.
    + pose proof (node_ticks_nonneg tw now). lia.
    + destruct (node_spec tw M T ch pend ecs ex vec expired now Hi)
        as (tw1 & M1 & ep1 & ep2 & ch1 & ecs1 & fr & Ea & En & _ & Hi1).
      fold n in Ea, En, Hi1. rewrite En in E by done. injection E as <- <- _ <- _.
      exists ch1, ecs1. rewrite length_fmap, Ea, drop_app_length. done.
Qed.

(** ** Slots are not shared *)

Lemma entries_slots_nodup M cs : NoDup cs -> NoDup (fst <$> entries M cs).
Proof.
  induction cs as [|c cs IH]; intros Hnd; [by apply NoDup_nil_2|].
  apply NoDup_cons in Hnd as [Hc Hnd].
  change (entries M (c :: cs)) with (chunk_entries M c ++ entries M cs). rewrite fmap_app.
  assert (Hfst : forall d p, p ∈ fst <$> chunk_entries M d -> fst p = d).
  { intros d p Hp. apply list_elem_of_fmap in Hp as (q & -> & Hq).
    apply list_elem_of_fmap in Hq as (i & -> & _). done. }
  apply NoDup_app. split_and!; [|intros p Hp Hp'|by apply IH].
  - unfold chunk_entries. change (map ?f ?l) with (f <$> l). rewrite <- list_fmap_compose.
    apply NoDup_fmap_2; [intros i j [= ?]; done|apply NoDup_seqZ].
  - apply Hfst in Hp. apply list_elem_of_fmap in Hp' as (q & -> & Hq).
    apply list_elem_of_In, in_concat in Hq as (l & Hl & Hq).
    apply in_map_iff in Hl as (d & <- & Hd). apply list_elem_of_In in Hd, Hq.
    assert (fst (fst q) = d) as Eq by (apply Hfst, list_elem_of_fmap; by exists q). congruence.
Qed.

Lemma NoDup_by_class {A K} `{EqDecision K} (f : A -> Z * Z) (g : A -> K) (l : list A) :
  (forall b, NoDup (f <$> filter (fun x => g x = b) l)) ->
  (forall x y, x ∈ l -> y ∈ l -> f x = f y -> g x = g y) -> NoDup (f <$> l).
Proof.
  induction l as [|x l IH]; intros Hb Hg; [by apply NoDup_nil_2|]. rewrite fmap_cons.
  apply NoDup_cons. split.
  - intros Hx. apply list_elem_of_fmap in Hx as (y & Ef & Hy).
    pose proof (Hb (g x)) as Hn. rewrite filter_cons_True, fmap_cons in Hn by done.
    apply NoDup_cons in Hn as [Hn _]. apply Hn. rewrite Ef. apply list_elem_of_fmap. exists y. split; [done|].
    apply list_elem_of_filter. split; [|done]. symmetry. apply Hg; [set_solver|set_solver|done].
  - apply IH.
    + intros b. specialize (Hb b). destruct (decide (g x = b)) as [E|E].
      * rewrite filter_cons_True, fmap_cons in Hb by done. by apply NoDup_cons in Hb as [_ ?].
      * by rewrite filter_cons_False in Hb by done.
    + intros y z Hy Hz. apply Hg; set_solver.
Qed.

Lemma slot_chunk M cs l e : entries M cs = ent <$> l -> e ∈ l -> fst (slot e) ∈ cs.
Proof.
  intros E He. assert (Hi : ent e ∈ entries M cs) by (rewrite E; apply list_elem_of_fmap; by exists e).
  apply list_elem_of_In, in_concat in Hi as (k & Hk & Hi).
  apply in_map_iff in Hk as (d & <- & Hd). apply list_elem_of_In in Hd, Hi.
  apply list_elem_of_fmap in Hi as (i & Ei & _). unfold ent in Ei. injection Ei as Es _. by rewrite Es.
Qed.

Lemma slots_nodup tw M T ch pend ecs ex : winv tw M T ch pend ecs ex -> NoDup (slot <$> pend).
Proof.
  intros Hi. apply (NoDup_by_class slot (fun e => due e mod SF_TIMER_MAX_TICKS)).
  - intros b. fold (of_bucket b pend).
    destruct (decide (0 <= b < SF_TIMER_MAX_TICKS)) as [Hb|Hb].
    + pose proof (wi_bucket _ _ _ _ _ _ _ _ _ Hi b Hb) as Hbk.
      assert (NoDup (ch b)) as Hnd.
      { inversion Hbk; [by apply NoDup_nil_2|done]. }
      apply (entries_slots_nodup M) in Hnd. rewrite (wi_entries _ _ _ _ _ _ _ _ _ Hi) in Hnd by done.
      by rewrite <- list_fmap_compose in Hnd.
    + unfold of_bucket. rewrite filter_none; [by apply NoDup_nil_2|].
      intros e _ <-. apply Hb, mod_range.
  - intros e e' He He' Es.
    assert (Hc : forall x, x ∈ pend -> fst (slot x) ∈ ch (due x mod SF_TIMER_MAX_TICKS)).
    { intros x Hx. apply (slot_chunk M _ (of_bucket (due x mod SF_TIMER_MAX_TICKS) pend)).
      - apply (wi_entries _ _ _ _ _ _ _ _ _ Hi), mod_range.
      - apply list_elem_of_filter. done. }
    apply (wi_disj _ _ _ _ _ _ _ _ _ Hi _ _ (fst (slot e))); try apply mod_range; [by apply Hc|].
    rewrite Es. by apply Hc.
Qed.
