(* ===== verification/TwTimerSpec.v ===== *)
(** * What the timing wheel promises

    The properties of the wheel over its reachable states, and a concrete
    run. *)
From S2P Require Import Prelude TwTimer TwTimerRun.

Implicit Types (M : gmap Z sf_timer_chunk_t) (tw : sf_tw_timer_t).

(** ** Nothing is lost *)

Lemma due_within_perm T n pend : 0 <= n ->
  (forall e, e ∈ pend -> T < due e) ->
  due_within T n pend ++ filter (fun e => T + n < due e) pend ≡ₚ pend.
Proof.
  intros Hn. rewrite <- (Z2Nat.id n) by done. clear Hn. generalize (Z.to_nat n) as m. intros m.
  revert T pend. induction m as [|m IH]; intros T pend Hd.
  - change (Z.of_nat 0) with 0. rewrite due_within_0, Z.add_0_r, filter_all; [done|auto].
  - replace (Z.of_nat (S m)) with (Z.of_nat m + 1) by lia. rewrite due_within_S by lia.
    set (rest := filter (fun e => due e <> T + 1) pend).
    assert (E : filter (fun e => T + (Z.of_nat m + 1) < due e) pend
      = filter (fun e => T + 1 + Z.of_nat m < due e) rest).
    { unfold rest. rewrite list_filter_filter. apply filter_ext_in. intros e _. lia. }
    rewrite E, <- app_assoc, (IH (T + 1) rest).
    + unfold rest. rewrite <- (filter_app_complement (fun e => due e = T + 1) pend) at 3. done.
    + intros e He. apply list_elem_of_filter in He as [Hne He]. specialize (Hd e He). lia.
Qed.

Lemma elem_of_due_within T n pend e :
  e ∈ due_within T n pend <-> e ∈ pend /\ T < due e <= T + n.
Proof.
  unfold due_within. rewrite list_elem_of_In, in_concat. split.
  - intros (l & Hl & He). apply in_map_iff in Hl as (i & <- & Hi).
    apply list_elem_of_In, elem_of_seqZ in Hi. apply list_elem_of_In, list_elem_of_filter in He as [Hd He].
    split; [done|lia].
  - intros [He Hd]. exists (filter (fun e' => due e' = T + (due e - T)) pend). split.
    + apply in_map_iff. exists (due e - T). split; [done|]. apply list_elem_of_In, elem_of_seqZ. lia.
    + apply list_elem_of_In, list_elem_of_filter. split; [lia|done].
Qed.

(** ** Properties *)

(** C5: in every reachable wheel, a call of the input node that makes [n] ticks
    ends, moves exactly the pending timers due within the [n] ticks behind the
    expired ones, in order of their due tick, keeps all others pending, and
    hands on a prefix of the expired timers, each decoded and sent to its
    group's node: all of them, or at least a chunk's worth of live ones.
    Every pending timer is at most one turn of the wheel away. *)
Theorem wheel_on_time s vec expired now :
  reach wheel_init wheel_step s ->
  let T := ws_ticks s in
  let n := node_ticks (ws_tw s) now in
  let fired := due_within T n (ws_pend s) in
  (forall e, e ∈ ws_pend s -> T < due e <= T + SF_TIMER_MAX_TICKS) /\
  (forall e, e ∈ fired <-> e ∈ ws_pend s /\ T < due e <= T + n) /\
  fired ++ filter (fun e => T + n < due e) (ws_pend s) ≡ₚ ws_pend s /\
  exists tw' M' sent rest freed,
    ws_exp s ++ fired = sent ++ rest /\
    (rest = [] \/ SF_TW_TIMER_SLOT_CNT <= live_count sent) /\
    forall fuel, (length (ws_exp s ++ fired) < fuel)%nat ->
      sf_timer_input_node fuel (ws_tw s) (ws_mem s) vec expired now
      = Some (tw', M', u64 (expired + live_count sent),
              deliver (timer_info_start (ws_tw s)) vec <$> sent, freed).
Proof.
  intros (HT & ch & ecs & Hi)%ws_reach_inv. cbv zeta.
  pose proof (wi_due _ _ _ _ _ _ _ _ _ Hi) as Hd. split; [exact Hd|]. split.
  { intros e. apply elem_of_due_within. }
  split.
  { apply due_within_perm; [apply node_ticks_nonneg|]. intros e He. by apply Hd. }
  destruct (node_spec _ _ _ _ _ _ _ vec expired now Hi)
    as (tw' & M' & ep1 & ep2 & ch' & ecs' & freed & Ea & En & Hor & _).
  by exists tw', M', ep1, ep2, freed.
Qed.

(** Submitting to a reachable wheel fails (-1) exactly when the delay exceeds
    one turn or the bucket needs a chunk and there is none, and then changes
    nothing; otherwise the timer is pending, due after its delay (a delay of no
    ticks counts as a whole turn), behind all others, and the record names the
    slot that holds its handle. *)
Theorem submit_spec s info group ticks alloc tw' M' rec ret :
  reach wheel_init wheel_step s -> 0 <= ticks < 2 ^ 32 ->
  Z.of_nat (length (ws_pend s)) + 1 < 2 ^ 32 -> (alloc <> 0 -> ~ held (ws_tw s) (ws_mem s) alloc) ->
  sf_submit_timer_tw (ws_tw s) (ws_mem s) true info group ticks alloc = (tw', M', rec, ret) ->
  let bucket := (sf_timer_buckets (ws_tw s)).[(ws_ticks s + ticks) mod SF_TIMER_MAX_TICKS] in
  let data := handle_data group (u64 (info - timer_info_start (ws_tw s))) in
  (ret = -1 <-> SF_TIMER_MAX_TICKS < ticks \/ alloc = 0 /\ slot_left_cnt bucket = 0) /\
  (ret = -1 -> tw' = ws_tw s /\ M' = ws_mem s /\ rec = None) /\
  (ret <> -1 -> ret = 0 /\ exists r, rec = Some r /\ timer_info r = info /\
     (sf_timer_slots M'.[fst (slot_handler r)]).[snd (slot_handler r)] = data /\
     reach wheel_init wheel_step (mk_ws tw' M' (ws_ticks s)
       (ws_pend s ++ [mk_timer (ws_ticks s + turn ticks) (slot_handler r) data]) (ws_exp s))).
Proof.
  intros Hr Ht Hl Hal E. cbv zeta. destruct (ws_reach_inv _ Hr) as (HT & ch & ecs & Hi).
  assert (Hleft : SF_TIMER_MAX_TICKS < ticks \/ alloc = 0 /\
    slot_left_cnt (sf_timer_buckets (ws_tw s)).[(ws_ticks s + ticks) mod SF_TIMER_MAX_TICKS] = 0 -> ret = -1).
  { intros Hc. unfold sf_submit_timer_tw in E.
    destruct (decide (SF_TIMER_MAX_TICKS < ticks)) as [Hgt|Hle]; [by injection E as <- <- <- <-|].
    destruct Hc as [?|[-> Hc]]; [done|].
    rewrite (wi_pre _ _ _ _ _ _ _ _ _ Hi) in E. pose proof (mod_range (ws_ticks s)) as Hr0.
    rewrite land_mask in E by (unfold SF_TIMER_MAX_TICKS in *; lia).
    rewrite Zplus_mod_idemp_l in E. cbv zeta in E. rewrite Hc in E. by injection E as <- <- <- <-. }
  destruct (submit_inv _ _ _ _ _ _ _ _ _ _ _ _ _ _ _ _ Hi Ht Hl Hal E)
    as [(-> & -> & -> & -> & Hwhy)|(-> & Hle & Est & sl & ch' & Hi' & ->)].
  - split; [done|]. split; [done|]. intros []. done.
  - split; [split; [done|by intros H; apply Hleft in H]|]. split; [done|].
    intros _. split; [done|]. eexists. split; [reflexivity|]. cbn [timer_info slot_handler].
    split; [done|]. split.
    + set (data := handle_data group _) in *. set (e := mk_timer _ sl data) in *.
      pose proof (mod_range (due e)) as Hb.
      assert (He : ent e ∈ entries M' (ch' (due e mod SF_TIMER_MAX_TICKS))).
      { rewrite (wi_entries _ _ _ _ _ _ _ _ _ Hi') by done. apply list_elem_of_fmap. exists e.
        split; [done|]. apply list_elem_of_filter. split; [done|]. set_solver. }
      apply list_elem_of_In, in_concat in He as (k & Hk & He).
      apply in_map_iff in Hk as (d & <- & _). apply list_elem_of_In, list_elem_of_fmap in He as (i & Ei & _).
      injection Ei as Es Ed. rewrite Es. cbn. by rewrite <- Ed.
    + destruct s as [tw M T pend ex]. cbn [ws_tw ws_mem ws_ticks ws_pend ws_exp] in *.
      eapply reach_step; [exact Hr|]. by apply (ws_submit tw M T pend ex info group ticks alloc tw' M' _ Ht Hl Hal E).
Qed.

(** Stopping a pending timer of a reachable wheel before its safe time blanks
    that timer and no other: exactly one pending timer has the slot, it will be
    delivered to the drop node, and all the others keep their due tick, their
    order and their handle; at or after the safe time nothing is written. *)
Theorem stop_exact s e r now :
  reach wheel_init wheel_step s -> e ∈ ws_pend s -> slot_handler r = slot e ->
  (f64_lt now (safe_clib_time r) = false -> sf_stop_timer (ws_mem s) r now = (ws_mem s, SF_TIMER_STATUS_BUSY)) /\
  (f64_lt now (safe_clib_time r) = true ->
   exists M' l1 l2 l3,
     sf_stop_timer (ws_mem s) r now = (M', SF_TIMER_STATUS_SUCCESS) /\
     ws_pend s = l1 ++ e :: l2 /\ l3 = l1 ++ mk_timer (due e) (slot e) 0 :: l2 /\
     (exists ex, reach wheel_init wheel_step (mk_ws (ws_tw s) M' (ws_ticks s) l3 ex)) /\
     forall start vec, snd (deliver start vec (mk_timer (due e) (slot e) 0)) = SF_NEXT_NODE_TIMER_ERROR_DROP).
Proof.
  intros Hr He Es. unfold sf_stop_timer at 1 2. split; [by intros ->|]. intros Hlt. rewrite Hlt.
  destruct (ws_reach_inv _ Hr) as (_ & ch & ecs & Hi). apply slots_nodup in Hi as Hnd.
  destruct s as [tw M T pend ex]. cbn [ws_tw ws_mem ws_ticks ws_pend ws_exp] in *.
  apply list_elem_of_split in He as (l1 & l2 & ->). eexists _, l1, l2, _.
  split; [reflexivity|]. split; [done|]. split; [done|]. split; [|done].
  rewrite fmap_app, fmap_cons in Hnd. apply NoDup_app in Hnd as (_ & Hd & Hnd2).
  apply NoDup_cons in Hnd2 as [Hd2 _].
  assert (Hid : forall l : list timer, slot e ∉ slot <$> l -> blank (slot_handler r) <$> l = l).
  { intros l Hn. rewrite Es. induction l as [|x l IH]; [done|]. rewrite fmap_cons in *.
    apply not_elem_of_cons in Hn as [Hx Hn]. rewrite IH by done. f_equal.
    unfold blank. by rewrite decide_False. }
  exists (blank (slot_handler r) <$> ex). eapply reach_step; [exact Hr|].
  assert (El : l1 ++ mk_timer (due e) (slot e) 0 :: l2 = blank (slot_handler r) <$> (l1 ++ e :: l2)).
  { rewrite fmap_app, fmap_cons, !Hid; [|done|].
    - f_equal. f_equal. unfold blank. by rewrite decide_True.
    - intros Hin. apply (Hd (slot e) Hin). set_solver. }
  rewrite El. apply (ws_stop tw M T _ ex r now).
  - rewrite Es. apply list_elem_of_fmap. exists e. split; [done|]. set_solver.
  - unfold sf_stop_timer. by rewrite Hlt.
Qed.

(** ** Handles *)

Lemma handle_decode group index : 0 <= group < 256 -> 0 <= index < 2 ^ 56 ->
  handle_group (handle_data group index) = group /\ handle_index (handle_data group index) = index.
Proof.
  intros Hg Hi. unfold handle_group, handle_index, handle_data.
  rewrite (wrap_small 8 group) by done. rewrite (wrap_small 56 index) by done. split.
  - change 255 with (Z.ones 8). apply Z.bits_inj'. intros j Hj. rewrite Z.land_spec, Z.lor_spec.
    rewrite Z.testbit_ones by lia. destruct (decide (j < 8)) as [Hlt|Hge].
    + rewrite Z.shiftl_spec_low by done. rewrite orb_false_r.
      replace ((0 <=? j) && (j <? 8)) with true by lia. by rewrite andb_true_r.
    + replace ((0 <=? j) && (j <? 8)) with false by lia. rewrite andb_false_r. symmetry.
      destruct (decide (group = 0)) as [->|]; [apply Z.bits_0|]. apply Z.bits_above_log2; [lia|].
      assert (Z.log2 group < 8); [|lia]. apply Z.log2_lt_pow2; [lia|]. change (2 ^ 8) with 256. lia.
  - rewrite Z.shiftr_lor, Z.shiftr_shiftl_l by lia. rewrite Z.sub_diag, Z.shiftl_0_r.
    rewrite (Z.shiftr_eq_0 group).
    + apply Z.lor_0_l.
    + lia.
    + destruct (decide (group = 0)) as [->|]; [done|]. apply Z.log2_lt_pow2; [lia|]. change (2 ^ 8) with 256. lia.
Qed.

(** A handle keeps its group, and gives back the information block's address
    exactly when that address is not below the start address, which is the
    address of a function: the index has 56 bits, so an address below it comes
    back 2^56 too high. *)
Theorem handle_roundtrip info start group vec :
  0 <= info < 2 ^ 48 -> 0 <= start < 2 ^ 48 -> 0 < group < 256 ->
  let data := handle_data group (u64 (info - start)) in
  timer_slot_next start vec data = (if decide (start <= info) then info else info + 2 ^ 56, vec.[group]).
Proof.
  intros Hi Hs Hg. cbv zeta. unfold timer_slot_next.
  assert (Ed : handle_data group (u64 (info - start))
    = handle_data group (if decide (start <= info) then info - start else 2 ^ 56 + info - start)).
  { unfold handle_data. f_equal. f_equal. destruct (decide (start <= info)).
    - by rewrite (wrap_small 64) by lia.
    - unfold wrap. rewrite <- Znumtheory.Zmod_div_mod; [|done|done|by exists (2 ^ 8)].
      rewrite <- (Z_mod_plus_full (info - start) 1 (2 ^ 56)). f_equal. lia. }
  rewrite Ed. clear Ed.
  destruct (handle_decode group (if decide (start <= info) then info - start else 2 ^ 56 + info - start))
    as [Eg Ei]; [lia|destruct (decide (start <= info)); lia|].
  rewrite Eg, Ei, (decide_True (P := group <> 0)) by lia. f_equal.
  destruct (decide (start <= info)); rewrite wrap_small by lia; lia.
Qed.

(** ** A concrete run

    A timer of group 4, due after 5 ticks; the node is then called at time 1.0,
    ten ticks later. *)

Definition demo_ws0 : wheel_state := mk_ws (fst (sf_tw_timer_init 4096 true)) ∅ 0 [] [].

Definition submit_ws (s : wheel_state) (info group ticks alloc : Z) : wheel_state :=
  match sf_submit_timer_tw (ws_tw s) (ws_mem s) true info group ticks alloc with
  | (tw', M', Some r, _) =>
      mk_ws tw' M' (ws_ticks s) (ws_pend s ++ [mk_timer (ws_ticks s + turn ticks) (slot_handler r)
        (handle_data group (u64 (info - timer_info_start (ws_tw s))))]) (ws_exp s)
  | _ => s
  end.

Definition demo_ws1 : wheel_state := submit_ws demo_ws0 8000 4 5 64.

Lemma on_chain_null M c : ~ on_chain M 0 c.
Proof. intros H. remember 0 as x. destruct H; done. Qed.

Lemma demo_bucket b : (sf_timer_buckets (ws_tw demo_ws0)).[b] = mk_tbucket 0 0 0 0.
Proof. apply (aget_empty (A := sf_timer_bucket_t)). Qed.

Lemma demo_ws1_reach : reach wheel_init wheel_step demo_ws1.
Proof.
  eapply reach_step.
  - apply (reach_init _ _ demo_ws0). split; [done|]. split; [done|]. split; [done|]. by exists 4096.
  - unfold demo_ws1, submit_ws.
    destruct (sf_submit_timer_tw (ws_tw demo_ws0) (ws_mem demo_ws0) true 8000 4 5 64)
      as [[[tw M] [r|]] ret] eqn:E.
    + assert (ret = 0) as ->.
      { change ret with (snd (tw, M, Some r, ret)). rewrite <- E. vm_compute. reflexivity. }
      apply (ws_submit _ _ 0 [] [] 8000 4 5 64 tw M r); [lia|cbn; lia| |exact E].
      intros _ [Hc|(b & _ & Hc)].
      * by apply on_chain_null in Hc.
      * rewrite demo_bucket in Hc. by apply on_chain_null in Hc.
    + exfalso. assert (Hs : snd (fst (tw, M, @None sf_timer_record_t, ret)) <> None); [|done].
      rewrite <- E. vm_compute. discriminate.
Qed.

Lemma wheel_on_time_witness :
  deliver 4096 {[4 := 7]} <$> due_within 0 (node_ticks (ws_tw demo_ws1) (f64_of 1)) (ws_pend demo_ws1)
  = [(8000, 7)] /\
  let T := ws_ticks demo_ws1 in
  let n := node_ticks (ws_tw demo_ws1) (f64_of 1) in
  let fired := due_within T n (ws_pend demo_ws1) in
  (forall e, e ∈ ws_pend demo_ws1 -> T < due e <= T + SF_TIMER_MAX_TICKS) /\
  (forall e, e ∈ fired <-> e ∈ ws_pend demo_ws1 /\ T < due e <= T + n) /\
  fired ++ filter (fun e => T + n < due e) (ws_pend demo_ws1) ≡ₚ ws_pend demo_ws1 /\
  exists tw' M' sent rest freed,
    ws_exp demo_ws1 ++ fired = sent ++ rest /\
    (rest = [] \/ SF_TW_TIMER_SLOT_CNT <= live_count sent) /\
    forall fuel, (length (ws_exp demo_ws1 ++ fired) < fuel)%nat ->
      sf_timer_input_node fuel (ws_tw demo_ws1) (ws_mem demo_ws1) {[4 := 7]} 0 (f64_of 1)
      = Some (tw', M', u64 (0 + live_count sent),
              deliver (timer_info_start (ws_tw demo_ws1)) {[4 := 7]} <$> sent, freed).
Proof.
  split; [vm_compute; reflexivity|].
  apply (wheel_on_time demo_ws1 {[4 := 7]} 0 (f64_of 1)). apply demo_ws1_reach.
Defined.

(** A submission to an empty bucket, with a chunk for it. *)
Lemma submit_spec_witness :
  exists tw' M' rec ret,
    sf_submit_timer_tw (ws_tw demo_ws0) (ws_mem demo_ws0) true 8064 4 12 128 = (tw', M', rec, ret) /\
    (ret <> -1 -> ret = 0 /\ exists r, rec = Some r /\ timer_info r = 8064 /\
     (sf_timer_slots M'.[fst (slot_handler r)]).[snd (slot_handler r)]
     = handle_data 4 (u64 (8064 - timer_info_start (ws_tw demo_ws0))) /\
     reach wheel_init wheel_step (mk_ws tw' M' (ws_ticks demo_ws0)
       (ws_pend demo_ws0 ++ [mk_timer (ws_ticks demo_ws0 + turn 12) (slot_handler r)
          (handle_data 4 (u64 (8064 - timer_info_start (ws_tw demo_ws0))))]) (ws_exp demo_ws0))).
Proof.
  destruct (sf_submit_timer_tw (ws_tw demo_ws0) (ws_mem demo_ws0) true 8064 4 12 128)
    as [[[tw' M'] rec] ret] eqn:E.
  exists tw', M', rec, ret. split; [done|].
  apply (submit_spec demo_ws0 8064 4 12 128 tw' M' rec ret).
  - apply reach_init. split; [done|]. split; [done|]. split; [done|]. by exists 4096.
  - lia.
  - cbn. lia.
  - intros _ [Hc|(b & _ & Hc)].
    + by apply on_chain_null in Hc.
    + rewrite demo_bucket in Hc. by apply on_chain_null in Hc.
  - exact E.
Defined.

Definition demo_timer : timer := mk_timer 5 (64, 0) (handle_data 4 (8000 - 4096)).
Definition demo_record : sf_timer_record_t := mk_trecord (64, 0) 8000 (f64_of 1).

Lemma stop_exact_witness :
  exists M' l1 l2 l3,
    sf_stop_timer (ws_mem demo_ws1) demo_record (S754_zero false) = (M', SF_TIMER_STATUS_SUCCESS) /\
    ws_pend demo_ws1 = l1 ++ demo_timer :: l2 /\
    l3 = l1 ++ mk_timer (due demo_timer) (slot demo_timer) 0 :: l2 /\
    (exists ex, reach wheel_init wheel_step (mk_ws (ws_tw demo_ws1) M' (ws_ticks demo_ws1) l3 ex)) /\
    forall start vec, snd (deliver start vec (mk_timer (due demo_timer) (slot demo_timer) 0))
      = SF_NEXT_NODE_TIMER_ERROR_DROP.
Proof.
  apply (stop_exact demo_ws1 demo_timer demo_record (S754_zero false)).
  - apply demo_ws1_reach.
  - assert (E : ws_pend demo_ws1 = [demo_timer]) by (vm_compute; reflexivity).
    rewrite E. by apply list_elem_of_singleton.
  - done.
  - vm_compute. reflexivity.
Defined.

Lemma handle_roundtrip_witness :
  timer_slot_next 4096 {[4 := 7]} (handle_data 4 (u64 (8000 - 4096))) = (8000, 7) /\
  timer_slot_next 4096 {[4 := 7]} (handle_data 4 (u64 (8000 - 4096)))
  = (if decide (4096 <= 8000) then 8000 else 8000 + 2 ^ 56, ({[4 := 7]} : gmap Z Z).[4]).
Proof. split; [vm_compute; reflexivity|]. apply (handle_roundtrip 8000 4096 4 {[4 := 7]}); lia. Defined.
