(* ===== verification/FrameLoop.v ===== *)
(** * The loop of a node over a frame

    A node handles the buffers of a frame two at a time when four are left and the
    next node's frame has room, one at a time otherwise.  The room is VPP's, not
    this program's, so the loop is a relation.  When the body for two packets does
    what the body for one does twice, every run of the loop is the run of the
    packets one after the other. *)
From S2P Require Import Prelude.

Section frame.
Context {S : Type} (one : S -> Z -> option (S * Z)) (two : S -> Z -> Z -> option (S * Z * Z)).
Implicit Types (st : S).

(** The buffers with the next node of each, in the order of the frame. *)
Inductive frame_run : S -> list Z -> S -> list (Z * Z) -> Prop :=
| frame_done st : frame_run st [] st []
| frame_two st b0 b1 from st' next0 next1 st'' out :
    (4 <= length (b0 :: b1 :: from))%nat -> two st b0 b1 = Some (st', next0, next1) ->
    frame_run st' from st'' out ->
    frame_run st (b0 :: b1 :: from) st'' ((b0, next0) :: (b1, next1) :: out)
| frame_one st b0 from st' next0 st'' out :
    one st b0 = Some (st', next0) -> frame_run st' from st'' out ->
    frame_run st (b0 :: from) st'' ((b0, next0) :: out).

(** The reference: the packets one after the other. *)
Fixpoint one_by_one st (from : list Z) : option (S * list (Z * Z)) :=
  match from with
  | [] => Some (st, [])
  | b :: from =>
      let? (st, next) := one st b in
      let? (st, out) := one_by_one st from in
      Some (st, (b, next) :: out)
  end.

Definition two_steps st (b0 b1 : Z) : option (S * Z * Z) :=
  let? (st, next0) := one st b0 in
  let? (st, next1) := one st b1 in
  Some (st, next0, next1).

Lemma one_by_one_run from : forall st st' out,
  one_by_one st from = Some (st', out) -> frame_run st from st' out.
Proof.
  induction from as [|b from IH]; intros st st' out; cbn [one_by_one].
  - intros [= <- <-]. constructor.
  - intros E. apply obind_Some in E as ([st1 n] & E0 & E). apply obind_Some in E as ([st2 out2] & E1 & [= <- <-]).
    by apply frame_one with st1; [|apply IH].
Qed.

(** [P]: what a buffer must satisfy; the body keeps it for the other buffers. *)
Context (P : S -> Z -> Prop).
Hypothesis two_ok : forall st b0 b1, b0 <> b1 -> P st b0 -> P st b1 -> two st b0 b1 = two_steps st b0 b1.
Hypothesis one_keeps : forall st b st' n b', one st b = Some (st', n) -> b' <> b -> P st b' -> P st' b'.

Lemma frame_run_iff st from st' out : NoDup from -> Forall (P st) from ->
  frame_run st from st' out <-> one_by_one st from = Some (st', out).
Proof.
  intros Hnd HP. split; [|apply one_by_one_run]. intros Hr.
  induction Hr as [st|st b0 b1 from st1 n0 n1 st2 out Hl Htwo Hr IH|st b0 from st1 n0 st2 out Hone Hr IH].
  - done.
  - apply NoDup_cons in Hnd as [Hn0 Hnd]. apply NoDup_cons in Hnd as [Hn1 Hnd].
    apply Forall_cons in HP as [HP0 HP]. apply Forall_cons in HP as [HP1 HP].
    apply not_elem_of_cons in Hn0 as [Hne Hn0].
    rewrite (two_ok st b0 b1 Hne HP0 HP1) in Htwo. unfold two_steps in Htwo.
    apply obind_Some in Htwo as ([sta m0] & E0 & Htwo). apply obind_Some in Htwo as ([stb m1] & E1 & [= -> -> ->]).
    cbn [one_by_one]. rewrite E0. cbn [obind]. rewrite E1. cbn [obind]. rewrite IH; [done|done|].
    apply Forall_forall. intros b Hb. rewrite Forall_forall in HP.
    apply (one_keeps _ _ _ _ b E1); [by intros ->|]. apply (one_keeps _ _ _ _ b E0); [by intros ->|]. by apply HP.
  - apply NoDup_cons in Hnd as [Hn0 Hnd]. apply Forall_cons in HP as [HP0 HP].
    cbn [one_by_one]. rewrite Hone. cbn [obind]. rewrite IH; [done|done|].
    apply Forall_forall. intros b Hb. rewrite Forall_forall in HP.
    apply (one_keeps _ _ _ _ b Hone); [by intros ->|]. by apply HP.
Qed.
End frame.

(** ** A loop that always runs in pairs while four buffers are left

    Where the node has no next frame to watch, the pairs are fixed. *)

Section pairs.
Context {S : Type} (one : S -> Z -> S) (two : S -> Z -> Z -> S).
Implicit Types (s : S).

Fixpoint pair_loop s (from : list Z) : S :=
  match from with
  | b0 :: ((b1 :: ((_ :: _ :: _) as from2)) as from1) => pair_loop (two s b0 b1) from2
  | b0 :: from1 => pair_loop (one s b0) from1
  | [] => s
  end.

(** [I handled rest s]: an invariant of the loop. *)
Context (I : list Z -> list Z -> S -> Prop).
Hypothesis one_inv : forall hd b rest s, I hd (b :: rest) s -> I (hd ++ [b]) rest (one s b).
Hypothesis two_inv : forall hd b0 b1 rest s, I hd (b0 :: b1 :: rest) s -> I ((hd ++ [b0]) ++ [b1]) rest (two s b0 b1).

Lemma pair_loop_inv_from n : forall rest hd s, (length rest <= n)%nat -> I hd rest s -> I (hd ++ rest) [] (pair_loop s rest).
Proof.
  induction n as [|n IH]; intros [|b0 from1] hd s Hn Hi; cbn [length] in Hn; try lia; [by rewrite app_nil_r..|].
  assert (Hone : I (hd ++ b0 :: from1) [] (pair_loop (one s b0) from1)).
  { rewrite cons_middle, app_assoc. apply IH; [lia|by apply one_inv]. }
  destruct from1 as [|b1 [|b2 [|b3 from]]]; [exact Hone..|]. cbn [length] in Hn.
  change (I (hd ++ b0 :: b1 :: b2 :: b3 :: from) [] (pair_loop (two s b0 b1) (b2 :: b3 :: from))).
  replace (hd ++ b0 :: b1 :: b2 :: b3 :: from) with (((hd ++ [b0]) ++ [b1]) ++ b2 :: b3 :: from) by (by rewrite <- !app_assoc).
  apply IH; [cbn [length]; lia|by apply two_inv].
Qed.

Lemma pair_loop_inv from s : I [] from s -> I from [] (pair_loop s from).
Proof. exact (pair_loop_inv_from (length from) from [] s (Nat.le_refl _)). Qed.
End pairs.

(** Pairs that do what two singles do: the loop is the singles in order. *)
Lemma pair_loop_foldl {S : Type} (one : S -> Z -> S) two from s :
  (forall s b0 b1, two s b0 b1 = one (one s b0) b1) -> pair_loop one two s from = foldl one s from.
Proof.
  intros Ht. apply (pair_loop_inv one two (fun hd _ s' => s' = foldl one s hd)); [| |done].
  - intros hd b rest s' ->. by rewrite foldl_snoc.
  - intros hd b0 b1 rest s' ->. by rewrite Ht, !foldl_snoc.
Qed.
