(* ===== verification/Wdata.v ===== *)
(** * Packet metadata

    Models the per-packet record [sf_wdata_t] of
    [src/sf_lib/sf_net/new_pkt_wdata.h] with the operations of [pkt_wdata.h], and
    the header accessors of [common_header.h] on a little-endian host.  Packet
    bytes live in one memory, [mem], addressed by the C pointers.  The members
    the decoders and the reassembly do not use ([timestamp], [recv8]) are left
    out of the record. *)
From S2P Require Import Prelude.

(** ** Data *)

Definition IP_VERSION_4 : Z := 4.
Definition IP_VERSION_6 : Z := 6.
Definition MAX_IP_WDATA : Z := 1.

(** Interfaces are numbered from 1. *)
Definition MAX_INTERFACE_CNT : Z := 63.

Definition IP_PRO_HOPOPT : Z := 0.
Definition IP_PRO_TCP : Z := 6.
Definition IP_PRO_UDP : Z := 17.
Definition IP_PRO_ROUTING : Z := 43.
Definition IP_PRO_IPV6_FRAG : Z := 44.
Definition IP_PRO_AH : Z := 51.
Definition IP_PRO_DSTOPTS : Z := 60.
Definition IP_PRO_INVALID : Z := 255.

(** [union ip_addr]: an IPv4 address is the low half of the first word. *)
Record ip_addr_t := mk_addr { addr_v6_upper : Z; addr_v6_lower : Z }.
Definition addr_v4 (a : ip_addr_t) : Z := u32 (addr_v6_upper a).
Definition set_addr_v4 (v : Z) (a : ip_addr_t) : ip_addr_t :=
  mk_addr (Z.lor (Z.shiftl (Z.shiftr (addr_v6_upper a) 32) 32) v) (addr_v6_lower a).

Record ip_wdata_t := mk_ipw {
  ip_offset : Z;
  version : Z;
  protocol : Z;
  header_len : Z;
  payload_len : Z;
  ip_sip : ip_addr_t;
  ip_dip : ip_addr_t;
  is_frag : Z;
  reass_over : Z
}.

Record l4_wdata_t := mk_l4w { l4_offset : Z; l4_sport : Z; l4_dport : Z; l4_header_len : Z }.
Record vlan_wdata_t := mk_vlanw { vlan_offset : Z; inner_layer_count : Z }.

Record sf_wdata_t := mk_wdata {
  current_data : Z;
  current_length : Z;
  interface_id : Z;
  interface_out : Z;
  l2_hdr_offset : Z;
  unused8 : Z;
  data_ptr : Z;
  packet_type : Z;
  outer_vlan_id : Z;
  outer_ether_type : Z;
  ip_wdata_cnt : Z;
  l4_wdata_cnt : Z;
  vlan_wdata_cnt : Z;
  vlan_wdatas : vlan_wdata_t;
  arg_to_next : Z;
  ip_wdata : ip_wdata_t;
  l4_wdata : l4_wdata_t
}.

#[export] Instance zeroed_wdata : Zeroed sf_wdata_t :=
  mk_wdata 0 0 0 0 0 0 0 0 0 0 0 0 0 (mk_vlanw 0 0) 0
    (mk_ipw 0 0 0 0 0 (mk_addr 0 0) (mk_addr 0 0) 0 0) (mk_l4w 0 0 0 0).

Definition UNUSED8_FLAG_PKT_RECORD_DROP : Z := 1.
Definition UNUSED8_FLAG_HUGE_PKT : Z := 4.
Definition UNUSED8_FLAG_IP_REASS_PKT : Z := 8.
Definition UNUSED8_PKT_HUGE_PKT_WITH_WDATA : Z := 7.

Definition is_reass_pkt (w : sf_wdata_t) : bool :=
  negb (Z.land (unused8 w) UNUSED8_FLAG_IP_REASS_PKT =? 0).

(** What the code takes from the vector packet library: the head room of a
    buffer, the size of a frame and the routine that computes an IPv4 header's
    checksum from memory. *)
Class Vlib := {
  VLIB_BUFFER_PRE_DATA_SIZE : Z;
  VLIB_FRAME_SIZE : Z;
  ip4_header_checksum : gmap Z Z -> Z -> Z
}.

Definition SF_HUGE_PKT_PRE_DATA_SIZE `{Vlib} : Z := VLIB_BUFFER_PRE_DATA_SIZE.
Definition SF_HUGE_PKT_16KB_MAX_SIZE : Z := 2 ^ 14.
Definition SF_HUGE_PKT_MAX_DATA_SIZE `{Vlib} : Z := SF_HUGE_PKT_16KB_MAX_SIZE - SF_HUGE_PKT_PRE_DATA_SIZE.

(** ** Setters *)

Implicit Types (w : sf_wdata_t).

Definition with_current (cd cl : Z) w : sf_wdata_t :=
  mk_wdata cd cl (interface_id w) (interface_out w) (l2_hdr_offset w) (unused8 w) (data_ptr w)
    (packet_type w) (outer_vlan_id w) (outer_ether_type w) (ip_wdata_cnt w) (l4_wdata_cnt w)
    (vlan_wdata_cnt w) (vlan_wdatas w) (arg_to_next w) (ip_wdata w) (l4_wdata w).

Definition with_buffer (flags dptr : Z) w : sf_wdata_t :=
  mk_wdata (current_data w) (current_length w) (interface_id w) (interface_out w) (l2_hdr_offset w)
    flags dptr (packet_type w) (outer_vlan_id w) (outer_ether_type w) (ip_wdata_cnt w)
    (l4_wdata_cnt w) (vlan_wdata_cnt w) (vlan_wdatas w) (arg_to_next w) (ip_wdata w) (l4_wdata w).

Definition with_layers (ipc l4c vlc : Z) (vl : vlan_wdata_t) (ipw : ip_wdata_t) (l4w : l4_wdata_t) w :
    sf_wdata_t :=
  mk_wdata (current_data w) (current_length w) (interface_id w) (interface_out w) (l2_hdr_offset w)
    (unused8 w) (data_ptr w) (packet_type w) (outer_vlan_id w) (outer_ether_type w) ipc l4c vlc vl
    (arg_to_next w) ipw l4w.

Definition with_ip_wdata (ipw : ip_wdata_t) w : sf_wdata_t :=
  with_layers (ip_wdata_cnt w) (l4_wdata_cnt w) (vlan_wdata_cnt w) (vlan_wdatas w) ipw (l4_wdata w) w.

Definition with_arg (arg : Z) w : sf_wdata_t :=
  mk_wdata (current_data w) (current_length w) (interface_id w) (interface_out w) (l2_hdr_offset w)
    (unused8 w) (data_ptr w) (packet_type w) (outer_vlan_id w) (outer_ether_type w) (ip_wdata_cnt w)
    (l4_wdata_cnt w) (vlan_wdata_cnt w) (vlan_wdatas w) arg (ip_wdata w) (l4_wdata w).

Definition with_type (pt ovid oet : Z) w : sf_wdata_t :=
  mk_wdata (current_data w) (current_length w) (interface_id w) (interface_out w) (l2_hdr_offset w)
    (unused8 w) (data_ptr w) pt ovid oet (ip_wdata_cnt w)
    (l4_wdata_cnt w) (vlan_wdata_cnt w) (vlan_wdatas w) (arg_to_next w) (ip_wdata w) (l4_wdata w).

Definition with_out (out : Z) w : sf_wdata_t :=
  mk_wdata (current_data w) (current_length w) (interface_id w) out (l2_hdr_offset w)
    (unused8 w) (data_ptr w) (packet_type w) (outer_vlan_id w) (outer_ether_type w) (ip_wdata_cnt w)
    (l4_wdata_cnt w) (vlan_wdata_cnt w) (vlan_wdatas w) (arg_to_next w) (ip_wdata w) (l4_wdata w).

(** ** The working window *)

Definition sf_wqe_get_current w : Z := data_ptr w + current_data w.

Definition sf_wqe_advance (l : Z) w : sf_wdata_t :=
  with_current (i16 (current_data w + l)) (u16 (current_length w - l)) w.

Definition sf_wqe_reset w : sf_wdata_t :=
  with_current (l2_hdr_offset w)
    (u16 (current_length w + (current_data w - l2_hdr_offset w))) w.

(** [set_packet_type] *)
Definition set_packet_type (value : Z) w : sf_wdata_t :=
  with_type (Z.lor (packet_type w) (Z.shiftl 1 value)) (outer_vlan_id w) (outer_ether_type w) w.

(** The low half of the argument. *)
Definition arg1_to_next w : Z := u16 (arg_to_next w).

Definition has_packet_type (value : Z) w : bool := Z.testbit (packet_type w) value.

(** ** Decoded headers *)

Definition update_vlan_wdata (offset layer_cnt : Z) w : sf_wdata_t :=
  with_layers (ip_wdata_cnt w) (l4_wdata_cnt w) 1 (mk_vlanw (u16 offset) (u8 layer_cnt))
    (ip_wdata w) (l4_wdata w) w.

Definition update_ipv4_wdata (offset sip dip proto hlen plen frag : Z) (i : ip_wdata_t) : ip_wdata_t :=
  mk_ipw (u16 offset) IP_VERSION_4 proto (u16 hlen) (u16 plen) (set_addr_v4 sip (ip_sip i))
    (set_addr_v4 dip (ip_dip i)) frag (reass_over i).

Definition update_ipv6_wdata (offset : Z) (sip dip : ip_addr_t) (proto hlen plen frag : Z)
    (i : ip_wdata_t) : ip_wdata_t :=
  mk_ipw (u16 offset) IP_VERSION_6 proto (u16 hlen) (u16 plen) sip dip frag (reass_over i).

Definition update_l4_wdata (offset sport dport hlen : Z) w : sf_wdata_t :=
  with_layers (ip_wdata_cnt w) 1 (vlan_wdata_cnt w) (vlan_wdatas w) (ip_wdata w)
    (mk_l4w (u16 offset) (u16 sport) (u16 dport) (u16 hlen)) w.

(** ** Header fields in memory *)

Section fields.
Variable mem : gmap Z Z.

(** The bytes at an address; a field wider than a byte as the host reads it. *)
Definition bytes_at (a : Z) (n : nat) : list Z := map (fun i => mem.[a + i]) (seqZ 0 (Z.of_nat n)).
Definition le_at (a : Z) (n : nat) : Z :=
  foldr (fun b acc => b + 256 * acc) 0 (bytes_at a n).

Definition ip4_hdr_len (p : Z) : Z := Z.shiftl (Z.land mem.[p] 15) 2.
Definition ip4_totalLen (p : Z) : Z := le_at (p + 2) 2.
Definition ip4_id (p : Z) : Z := le_at (p + 4) 2.
Definition get_ip4_hdr_flag (p : Z) : Z := Z.shiftr mem.[p + 6] 5.
Definition get_ip4_hdr_offset (p : Z) : Z :=
  Z.lor (Z.shiftl (Z.land mem.[p + 6] 31) 8) mem.[p + 7].
Definition ip4_protocol (p : Z) : Z := mem.[p + 9].
Definition ip4_src_ip (p : Z) : Z := le_at (p + 12) 4.
Definition ip4_dst_ip (p : Z) : Z := le_at (p + 16) 4.

Definition IPV4_FLAGS_MORE_FRAG_MASK : Z := 1.
Definition ip4_is_frag (p : Z) : bool :=
  negb (Z.land (get_ip4_hdr_flag p) IPV4_FLAGS_MORE_FRAG_MASK =? 0) ||
  negb (mem.[p + 7] =? 0) || negb (Z.land mem.[p + 6] 31 =? 0).

Definition IPV6_HEADER_LEN : Z := 40.
Definition IPV6_FRAG_HEADER_LEN : Z := 8.
Definition ip6_payload_len (p : Z) : Z := le_at (p + 4) 2.
Definition ip6_next_header (p : Z) : Z := mem.[p + 6].
Definition ip6_addr_at (p : Z) : ip_addr_t := mk_addr (le_at p 8) (le_at (p + 8) 8).

(** The fragment extension header: offset in the 13 upper bits of its second
    half-word, flag in the lowest. *)
Definition ip6f_flags (p : Z) : Z := Z.land mem.[p + 3] 1.
Definition get_ip6_frag_offset (p : Z) : Z :=
  Z.lor (Z.shiftl mem.[p + 2] 5) (Z.shiftr mem.[p + 3] 3).
Definition ip6f_ident (p : Z) : Z := le_at (p + 4) 4.
End fields.

Lemma seqZ_nat_app a (n1 n2 : nat) :
  seqZ a (Z.of_nat (n1 + n2)) = seqZ a (Z.of_nat n1) ++ seqZ (a + Z.of_nat n1) (Z.of_nat n2).
Proof. rewrite Nat2Z.inj_add. apply seqZ_app; lia. Qed.

Lemma bytes_at_ext m m' a a' n :
  (forall i, 0 <= i < Z.of_nat n -> m'.[a' + i] = m.[a + i]) -> bytes_at m' a' n = bytes_at m a n.
Proof.
  intros E. unfold bytes_at. apply list_fmap_ext. intros j i Hi.
  apply E. by apply list_elem_of_lookup_2, elem_of_seqZ in Hi.
Qed.

Lemma bytes_at_app m a n1 n2 :
  bytes_at m a (n1 + n2) = bytes_at m a n1 ++ bytes_at m (a + Z.of_nat n1) n2.
Proof.
  unfold bytes_at. rewrite seqZ_nat_app, map_app. f_equal.
  rewrite Z.add_0_l. rewrite <- (Z.add_0_r (Z.of_nat n1)) at 1.
  rewrite <- fmap_add_seqZ. unfold fmap, list_fmap. rewrite (map_map (Z.add (Z.of_nat n1))). apply map_ext. intros i. f_equal. lia.
Qed.

(** [memcpy] between regions that do not overlap. *)
Fixpoint memcpy (mem : gmap Z Z) (dst src : Z) (n : nat) : gmap Z Z :=
  match n with
  | O => mem
  | S n => memcpy mem.[dst <- mem.[src]] (dst + 1) (src + 1) n
  end.

Lemma memcpy_frame n : forall mem dst src a,
  a < dst \/ dst + Z.of_nat n <= a -> (memcpy mem dst src n).[a] = mem.[a].
Proof.
  induction n as [|n IH]; intros mem dst src a Ha; cbn; [done|].
  rewrite IH by lia. apply aget_aset_ne. lia.
Qed.

Lemma memcpy_copy n : forall mem dst src i,
  dst + Z.of_nat n <= src \/ src + Z.of_nat n <= dst -> 0 <= i < Z.of_nat n ->
  (memcpy mem dst src n).[dst + i] = mem.[src + i].
Proof.
  induction n as [|n IH]; intros mem dst src i Hd Hi; cbn; [lia|].
  destruct (decide (i = 0)) as [->|Hne].
  - rewrite memcpy_frame by lia. rewrite !Z.add_0_r. apply aget_aset_eq.
  - replace (dst + i) with (dst + 1 + (i - 1)) by lia.
    rewrite IH by lia. rewrite aget_aset_ne by lia. f_equal. lia.
Qed.

(** Bytes of a value stored in memory: [memcpy] from elsewhere, or the assignment
    of a field wider than a byte. *)
Fixpoint poke (mem : gmap Z Z) (p : Z) (l : list Z) : gmap Z Z :=
  match l with [] => mem | x :: l => poke mem.[p <- x] (p + 1) l end.

Lemma poke_frame l : forall mem p a, a < p \/ p + Z.of_nat (length l) <= a -> (poke mem p l).[a] = mem.[a].
Proof.
  induction l as [|x l IH]; intros mem p a Ha; [done|]. cbn [poke length] in *. rewrite IH by lia. apply aget_aset_ne. lia.
Qed.

Lemma poke_at l : forall mem p i x, l !! i = Some x -> (poke mem p l).[p + Z.of_nat i] = x.
Proof.
  induction l as [|y l IH]; intros mem p i x Hi; [by rewrite lookup_nil in Hi|]. destruct i as [|i]; cbn [poke].
  - injection Hi as ->. rewrite Z.add_0_r, poke_frame by lia. apply aget_aset_eq.
  - replace (p + Z.of_nat (S i)) with (p + 1 + Z.of_nat i) by lia. by apply IH.
Qed.

(** Bytes stored after stored bytes. *)
Lemma poke_app mem p l1 l2 a : a = p + Z.of_nat (length l1) -> poke (poke mem p l1) a l2 = poke mem p (l1 ++ l2).
Proof.
  intros ->. revert mem p. induction l1 as [|x l1 IH]; intros mem p; cbn [poke app length]; [by rewrite Z.add_0_r|].
  rewrite <- IH. f_equal. lia.
Qed.

(** The bytes of a [union ip_addr]. *)
Definition addr_bytes (a : ip_addr_t) : list Z := le_bytes 8 (addr_v6_upper a) ++ le_bytes 8 (addr_v6_lower a).

(** ** Bytes in memory *)

Definition holds (mem : gmap Z Z) (p : Z) (l : list Z) : Prop := forall i x, l !! i = Some x -> mem.[p + Z.of_nat i] = x.

Lemma holds_app mem p l1 l2 :
  holds mem p (l1 ++ l2) <-> holds mem p l1 /\ holds mem (p + Z.of_nat (length l1)) l2.
Proof.
  unfold holds. split.
  - intros Hh. split; intros i x Hi.
    + apply Hh. by apply lookup_app_l_Some.
    + rewrite <- Z.add_assoc, <- Nat2Z.inj_add. apply Hh. rewrite lookup_app_r by lia.
      by replace (length l1 + i - length l1)%nat with i by lia.
  - intros [H1 H2] i x [Hi|[Hl Hi]]%lookup_app_Some; [by apply H1|].
    specialize (H2 _ _ Hi). rewrite <- H2. f_equal. lia.
Qed.

Lemma holds_cons mem p x l : holds mem p (x :: l) <-> mem.[p] = x /\ holds mem (p + 1) l.
Proof.
  rewrite (holds_app mem p [x] l). cbn [length]. change (Z.of_nat 1) with 1.
  split; intros [H1 H2]; (split; [|done]).
  - specialize (H1 0%nat x eq_refl). by rewrite Z.add_0_r in H1.
  - intros [|i] y Hi; [|by destruct i]. injection Hi as <-. by rewrite Z.add_0_r.
Qed.

Lemma holds_nil mem p : holds mem p [].
Proof. intros i x Hi. by rewrite lookup_nil in Hi. Qed.

Lemma le_at_S mem p n : le_at mem p (S n) = mem.[p] + 256 * le_at mem (p + 1) n.
Proof.
  unfold le_at, bytes_at. rewrite Nat2Z.inj_succ, seqZ_cons by lia. cbn [map foldr].
  rewrite Z.add_0_r. f_equal. f_equal. rewrite Z.pred_succ.
  rewrite <- (Z.add_0_r 1), <- (fmap_add_seqZ 1 0). unfold fmap, list_fmap. rewrite (map_map (Z.add 1)).
  f_equal. apply map_ext. intros i. f_equal. lia.
Qed.

(** A little-endian field reads back. *)
Lemma le_at_holds mem n : forall p v, holds mem p (le_bytes n v) -> le_at mem p n = v mod 256 ^ Z.of_nat n.
Proof.
  induction n as [|n IH]; intros p v Hh.
  - cbn. by rewrite Z.mod_1_r.
  - cbn [le_bytes] in Hh. apply holds_cons in Hh as [Hb Hh].
    rewrite le_at_S, Hb, (IH _ _ Hh), Nat2Z.inj_succ, Z.pow_succ_r by lia.
    rewrite Z.rem_mul_r by lia. done.
Qed.

Lemma le_at_small mem n p v : holds mem p (le_bytes n v) -> 0 <= v < 256 ^ Z.of_nat n -> le_at mem p n = v.
Proof. intros Hh Hv. rewrite (le_at_holds _ _ _ _ Hh). by apply Z.mod_small. Qed.

Lemma le_at_ext mem1 mem2 a n : (forall i, a <= i < a + Z.of_nat n -> mem1.[i] = mem2.[i]) ->
  le_at mem1 a n = le_at mem2 a n.
Proof.
  intros E. unfold le_at, bytes_at. f_equal. apply map_ext_in. intros i Hi. apply E.
  apply list_elem_of_In, elem_of_seqZ in Hi. lia.
Qed.

Lemma poke_holds mem p l : holds (poke mem p l) p l.
Proof. intros i x Hi. by apply poke_at. Qed.

(** A field written reads back, and leaves the others alone. *)
Lemma le_at_poke_eq mem p n v : le_at (poke mem p (le_bytes n v)) p n = v mod 256 ^ Z.of_nat n.
Proof. apply le_at_holds, poke_holds. Qed.

Lemma le_at_poke_ne mem p l a n : a + Z.of_nat n <= p \/ p + Z.of_nat (length l) <= a -> le_at (poke mem p l) a n = le_at mem a n.
Proof. intros Ha. apply le_at_ext. intros i Hi. apply poke_frame. lia. Qed.

(** ** Bytes read back *)

Lemma bytes_at_length m a n : length (bytes_at m a n) = n.
Proof. unfold bytes_at. rewrite length_map, length_seqZ. lia. Qed.

Lemma bytes_at_lookup m a n i : (i < n)%nat -> bytes_at m a n !! i = Some m.[a + Z.of_nat i].
Proof.
  intros Hi. unfold bytes_at. change (map ?g ?k) with (g <$> k). rewrite list_lookup_fmap, lookup_seqZ_lt by lia. done.
Qed.

Lemma bytes_at_split m a n k : (k <= n)%nat -> bytes_at m a n = bytes_at m a k ++ bytes_at m (a + Z.of_nat k) (n - k).
Proof. intros Hk. rewrite <- bytes_at_app. f_equal. lia. Qed.

Lemma take_bytes_at m a n k : (k <= n)%nat -> take k (bytes_at m a n) = bytes_at m a k.
Proof. intros Hk. rewrite (bytes_at_split _ _ _ k) by done. rewrite take_app_le by (rewrite bytes_at_length; lia). by rewrite take_ge by (rewrite bytes_at_length; lia). Qed.

Lemma drop_bytes_at m a n k : (k <= n)%nat -> drop k (bytes_at m a n) = bytes_at m (a + Z.of_nat k) (n - k).
Proof. intros Hk. rewrite (bytes_at_split _ _ _ k) by done. rewrite drop_app_ge by (rewrite bytes_at_length; lia). rewrite bytes_at_length. by rewrite Nat.sub_diag. Qed.

Lemma holds_same m m' p (l : list Z) : (forall a, p <= a < p + Z.of_nat (length l) -> m'.[a] = m.[a]) -> holds m p l -> holds m' p l.
Proof. intros E H i x Hi. pose proof (lookup_lt_Some _ _ _ Hi). rewrite E by lia. by apply H. Qed.

Lemma holds_bytes m p (l : list Z) : holds m p l -> bytes_at m p (length l) = l.
Proof.
  intros H. apply list_eq. intros i. destruct (l !! i) as [x|] eqn:E.
  - rewrite bytes_at_lookup by by eapply lookup_lt_Some. f_equal. by apply H.
  - apply lookup_ge_None. rewrite bytes_at_length. by apply lookup_ge_None in E.
Qed.

(** ** Texts in arrays *)

(** [strncpy]: at most [n] characters, and zeros up to [n]. *)
Definition strncpy (n : nat) (src dst : list Z) : list Z := take n (src ++ repeat 0 n) ++ drop n dst.
(** A text in an array ends at the first 0. *)
Fixpoint cstr (l : list Z) : list Z :=
  match l with
  | [] => []
  | x :: l => if decide (x = 0) then [] else x :: cstr l
  end.

Lemma bytes_at_S m a n : bytes_at m a (S n) = m.[a] :: bytes_at m (a + 1) n.
Proof. rewrite (bytes_at_split m a (S n) 1) by lia. rewrite Nat.sub_succ, Nat.sub_0_r.
  change (bytes_at m a 1) with [m.[a + 0]]. by rewrite Z.add_0_r.
Qed.

Lemma cstr_holds m s : forall a n, Forall (fun ch => 0 < ch < 256) s -> holds m a (s ++ [0]) -> (length s < n)%nat -> cstr (bytes_at m a n) = s.
Proof.
  induction s as [|ch s IH]; intros a [|n] Hs Hh Hn; cbn [length] in Hn; try lia; rewrite bytes_at_S; cbn [app] in Hh;
    apply holds_cons in Hh as [Hb Hh]; cbn [cstr]; rewrite Hb.
  - done.
  - apply Forall_cons in Hs as [Hc Hs]. rewrite decide_False by lia. f_equal. apply IH; [done|done|lia].
Qed.
