(* ===== verification/Decode.v ===== *)
(** * The packet decoders

    Models [src/sf_main/nodes/decode/]: [sf_eth_input.c] with the VLAN parser of
    [include/sf_eth_tool.h], [sf_ip4_input.c], [sf_ip6_input.c], [sf_tcp_input.c]
    and [sf_udp_input.c].  A decoder reads the packet at the current position,
    fills in the packet's record and moves the position; the node sends the packet
    to the next node it names. *)
From S2P Require Import Prelude Wdata.

Implicit Types (w : sf_wdata_t) (mem : gmap Z Z).

Definition PACKET_TYPE_ERROR : Z := 0.

(** ** Ethernet and VLAN tags *)

Definition ETHER_INVALID_TYPE : Z := 0.
Definition ETHER_VLAN_NET_ORDER : Z := 0x0081.
Definition ETHER_QINQ_NET_ORDER : Z := 0xa888.
Definition ETHER_IPV4_NET_ORDER : Z := 0x0008.
Definition ETHER_IPV6_NET_ORDER : Z := 0xDD86.
Definition ETH_HEADER_LEN : Z := 14.
Definition VLAN_HEADER_LEN : Z := 4.

Definition is_vlan_type (t : Z) : bool := (t =? ETHER_VLAN_NET_ORDER) || (t =? ETHER_QINQ_NET_ORDER).

(** The [while] loop; the result is the record and the EtherType returned. *)
Fixpoint vlan_loop (fuel : nat) mem (offset layer_cnt : Z) w : option (sf_wdata_t * Z) :=
  match fuel with
  | O => None
  | S fuel =>
      if decide (current_length w <= VLAN_HEADER_LEN) then Some (w, ETHER_INVALID_TYPE)
      else
        let eth_type := le_at mem (sf_wqe_get_current w + 2) 2 in
        let layer_cnt := u8 (layer_cnt + 1) in
        let w := sf_wqe_advance VLAN_HEADER_LEN w in
        if is_vlan_type eth_type then vlan_loop fuel mem offset layer_cnt w
        else Some (if decide (layer_cnt <> 0) then update_vlan_wdata offset layer_cnt w else w, eth_type)
  end.

Definition parse_vlan_hdr_only (fuel : nat) mem w : option (sf_wdata_t * Z) :=
  vlan_loop fuel mem (u16 (current_data w)) 0 w.

Definition parse_eth_hdr (fuel : nat) mem (eth_type : Z) w : option (sf_wdata_t * Z) :=
  if is_vlan_type eth_type then parse_vlan_hdr_only fuel mem w else Some (w, eth_type).

Definition ETH_NEXT_ACL_ENTRY : Z := 0.
Definition ETH_NEXT_IP4_INPUT : Z := 1.
Definition ETH_NEXT_IP6_INPUT : Z := 2.

Definition sf_eth_get_next_index (eth_type : Z) : Z :=
  if decide (eth_type = ETHER_IPV4_NET_ORDER) then ETH_NEXT_IP4_INPUT
  else if decide (eth_type = ETHER_IPV6_NET_ORDER) then ETH_NEXT_IP6_INPUT
  else ETH_NEXT_ACL_ENTRY.

(** One packet in [sf_eth_input_node]. *)
Definition eth_input_one (fuel : nat) mem w : option (sf_wdata_t * Z) :=
  let eth_type := le_at mem (sf_wqe_get_current w + 12) 2 in
  let w := sf_wqe_advance ETH_HEADER_LEN w in
  let? (w, eth_type) := parse_eth_hdr fuel mem eth_type w in
  Some (w, sf_eth_get_next_index eth_type).

(** ** IPv4 *)

Definition IP_NEXT_ACL_ENTRY : Z := 0.
Definition IP_NEXT_UDP_INPUT : Z := 1.
Definition IP_NEXT_TCP_INPUT : Z := 2.
Definition IP_NEXT_REASS : Z := 3.

Definition b2z (b : bool) : Z := if b then 1 else 0.

Definition count_ip (ipw : ip_wdata_t) w : sf_wdata_t :=
  with_layers (u8 (ip_wdata_cnt w + 1)) (l4_wdata_cnt w) (vlan_wdata_cnt w) (vlan_wdatas w) ipw (l4_wdata w) w.

(** The record, [*next0] and [*need_lookup]. *)
Definition ip4_decode mem w (next0 ip_frag_next : Z) : sf_wdata_t * Z * Z :=
  let p := sf_wqe_get_current w in
  let hlen := ip4_hdr_len mem p in
  if decide (MAX_IP_WDATA <= ip_wdata_cnt w) then (w, IP_NEXT_ACL_ENTRY, 0)
  else if decide (current_length w < hlen) then (set_packet_type PACKET_TYPE_ERROR w, IP_NEXT_ACL_ENTRY, 0)
  else
    let i := update_ipv4_wdata (current_data w) (ip4_src_ip mem p) (ip4_dst_ip mem p) (ip4_protocol mem p)
               hlen (bswap16 (ip4_totalLen mem p) - hlen) (b2z (ip4_is_frag mem p)) (ip_wdata w) in
    let w := count_ip i w in
    if decide (is_frag i = 0) then (sf_wqe_advance hlen w, next0, ip4_protocol mem p)
    else (w, ip_frag_next, 0).

Definition sf_ip4_get_next_index (protocol : Z) : Z :=
  if decide (protocol = IP_PRO_UDP) then IP_NEXT_UDP_INPUT
  else if decide (protocol = IP_PRO_TCP) then IP_NEXT_TCP_INPUT
  else IP_NEXT_ACL_ENTRY.

(** One packet in [sf_ip4_input_node]. *)
Definition ip4_input_one mem w : sf_wdata_t * Z :=
  let '(w, next0, need_lookup) := ip4_decode mem w 0 IP_NEXT_REASS in
  (w, if decide (need_lookup <> 0) then sf_ip4_get_next_index need_lookup else next0).

(** ** IPv6 *)

(** The loop over the extension headers: the header length, whether the packet is
    a fragment and the protocol after them. *)
Fixpoint ip6_ext_loop (fuel : nat) mem (pre_data left_len hdr_len frag protocol : Z) : option (Z * Z * Z) :=
  match fuel with
  | O => None
  | S fuel =>
      if decide (protocol = IP_PRO_IPV6_FRAG) then
        if decide (left_len <= IPV6_FRAG_HEADER_LEN) then Some (hdr_len, frag, IP_PRO_INVALID)
        else
          let protocol := mem.[pre_data] in
          let left_len := u16 (left_len - IPV6_FRAG_HEADER_LEN) in
          let hdr_len := u16 (hdr_len + IPV6_FRAG_HEADER_LEN) in
          if negb (ip6f_flags mem pre_data =? 0) || negb (get_ip6_frag_offset mem pre_data =? 0)
          then Some (hdr_len, 1, protocol)
          else ip6_ext_loop fuel mem (pre_data + IPV6_FRAG_HEADER_LEN) left_len hdr_len frag protocol
      else
        let ah := bool_decide (protocol = IP_PRO_AH) in
        if ah || bool_decide (protocol = IP_PRO_HOPOPT) || bool_decide (protocol = IP_PRO_ROUTING)
           || bool_decide (protocol = IP_PRO_DSTOPTS) then
          let protocol := mem.[pre_data] in
          let ext_hdr_len := if (ah : bool) then u16 (Z.shiftl (mem.[pre_data + 1] + 2) 2)
                             else u16 (Z.shiftl (mem.[pre_data + 1] + 1) 3) in
          if decide (left_len <= ext_hdr_len) then Some (hdr_len, frag, IP_PRO_INVALID)
          else ip6_ext_loop fuel mem (pre_data + ext_hdr_len) (u16 (left_len - ext_hdr_len))
                 (u16 (hdr_len + ext_hdr_len)) frag protocol
        else Some (hdr_len, frag, protocol)
  end.

(** [hdr_len] is what the caller's variable held: a packet that is too short
    leaves it as it was. *)
Definition parse_ipv6_hdr (fuel : nat) mem (hdr_len : Z) w : option (sf_wdata_t * Z * Z * Z) :=
  let p := sf_wqe_get_current w in
  if decide (current_length w < IPV6_HEADER_LEN)
  then Some (set_packet_type PACKET_TYPE_ERROR w, hdr_len, 0, IP_PRO_INVALID)
  else
    let? (hdr_len, frag, protocol) :=
      ip6_ext_loop fuel mem (p + IPV6_HEADER_LEN) (u16 (current_length w - IPV6_HEADER_LEN)) IPV6_HEADER_LEN 0
        (ip6_next_header mem p) in
    Some (if decide (protocol = IP_PRO_INVALID) then set_packet_type PACKET_TYPE_ERROR w else w,
          hdr_len, frag, protocol).

Definition sf_ip6_get_next_index (frag_next_index ip_protocol frag : Z) : Z :=
  if decide (frag <> 0) then frag_next_index
  else if decide (ip_protocol = IP_PRO_TCP) then IP_NEXT_TCP_INPUT
  else if decide (ip_protocol = IP_PRO_UDP) then IP_NEXT_UDP_INPUT
  else IP_NEXT_ACL_ENTRY.

(** What both paths of [sf_ip6_input_node] do with a header that was parsed. *)
Definition ip6_accept mem (p hdr_len frag protocol : Z) w : sf_wdata_t * Z :=
  let plen := u16 (bswap16 (ip6_payload_len mem p) + IPV6_HEADER_LEN - hdr_len) in
  let i := update_ipv6_wdata (current_data w) (ip6_addr_at mem (p + 8)) (ip6_addr_at mem (p + 24))
             protocol hdr_len plen frag (ip_wdata w) in
  let w := count_ip i w in
  (if decide (frag = 0) then sf_wqe_advance hdr_len w else w,
   sf_ip6_get_next_index IP_NEXT_REASS protocol frag).

(** One packet in the single-packet loop of [sf_ip6_input_node]. *)
Definition ip6_input_one (fuel : nat) mem (hdr_len : Z) w : option (sf_wdata_t * Z) :=
  let p := sf_wqe_get_current w in
  let? (w, hdr_len, frag, protocol) := parse_ipv6_hdr fuel mem hdr_len w in
  Some (if decide (MAX_IP_WDATA <= ip_wdata_cnt w) then (w, IP_NEXT_ACL_ENTRY)
        else if decide (protocol = IP_PRO_INVALID)
        then (set_packet_type PACKET_TYPE_ERROR w, IP_NEXT_ACL_ENTRY)
        else ip6_accept mem p hdr_len frag protocol w).

(** ** TCP and UDP *)

Definition L4_NEXT_ACL_ENTRY : Z := 0.
Definition UDP_HEADER_LEN : Z := 8.

(** [arg1_to_next] and [arg2_to_next] are the halves of [arg_to_next]. *)
Definition set_arg12 (arg1 arg2 : Z) w : sf_wdata_t := with_arg (u16 arg1 + 2 ^ 16 * u16 arg2) w.

Definition l4_src_port mem (p : Z) : Z := le_at mem p 2.
Definition l4_dst_port mem (p : Z) : Z := le_at mem (p + 2) 2.
Definition tcp_hdr_len mem (p : Z) : Z := u16 (Z.shiftl (Z.shiftr mem.[p + 12] 4) 2).

(** The record and [*next]. *)
Definition sf_tcp_decode mem w (next : Z) : sf_wdata_t * Z :=
  let p := sf_wqe_get_current w in
  let hlen := tcp_hdr_len mem p in
  if decide (current_length w < hlen) then (set_packet_type PACKET_TYPE_ERROR w, L4_NEXT_ACL_ENTRY)
  else
    let w := set_arg12 (l4_src_port mem p) (l4_dst_port mem p) w in
    let w := update_l4_wdata (current_data w) (l4_src_port mem p) (l4_dst_port mem p) hlen w in
    (sf_wqe_advance hlen w, next).

Definition tcp_input_one mem w : sf_wdata_t * Z := sf_tcp_decode mem w L4_NEXT_ACL_ENTRY.

(** One packet in [sf_udp_input_node]. *)
Definition udp_input_one mem w : sf_wdata_t * Z :=
  let p := sf_wqe_get_current w in
  if decide (UDP_HEADER_LEN <= current_length w) then
    let w := update_l4_wdata (current_data w) (l4_src_port mem p) (l4_dst_port mem p) UDP_HEADER_LEN w in
    let w := set_arg12 (l4_src_port mem p) (l4_dst_port mem p) w in
    (sf_wqe_advance UDP_HEADER_LEN w, L4_NEXT_ACL_ENTRY)
  else (set_packet_type PACKET_TYPE_ERROR w, L4_NEXT_ACL_ENTRY).

(** ** The graph of the decoders *)

Inductive destination := To_acl_entry | To_ip4_reass | To_ip6_reass.

(** The transport decoder the IP node names, or the reassembly. *)
Definition decode_l4 mem (reass : destination) (r : sf_wdata_t * Z) : sf_wdata_t * destination :=
  let '(w, next) := r in
  if decide (next = IP_NEXT_UDP_INPUT) then (fst (udp_input_one mem w), To_acl_entry)
  else if decide (next = IP_NEXT_TCP_INPUT) then (fst (tcp_input_one mem w), To_acl_entry)
  else if decide (next = IP_NEXT_REASS) then (w, reass)
  else (w, To_acl_entry).

(** A packet from [sf_eth_input] until it leaves the decoders. *)
Definition decode (fuel : nat) mem (hdr_len : Z) w : option (sf_wdata_t * destination) :=
  let? (w, next) := eth_input_one fuel mem w in
  if decide (next = ETH_NEXT_IP4_INPUT) then Some (decode_l4 mem To_ip4_reass (ip4_input_one mem w))
  else if decide (next = ETH_NEXT_IP6_INPUT) then
    let? r := ip6_input_one fuel mem hdr_len w in Some (decode_l4 mem To_ip6_reass r)
  else Some (w, To_acl_entry).
