(* ===== verification/DecodeSpec.v ===== *)
(** * What the decoders find

    Packets as values with an encoder; decoding an encoded packet gives its fields.
    Bounds and termination of the loops over VLAN tags and IPv6 extension headers. *)
From S2P Require Import Prelude Wdata Decode.

Implicit Types (w : sf_wdata_t) (mem : gmap Z Z) (l : list Z).

Definition be16 (v : Z) : list Z := [v / 256 mod 256; v mod 256].

(** A big-endian 16-bit field reads back. *)
Lemma be16_holds mem p v : holds mem p (be16 v) -> bswap16 (le_at mem p 2) = u16 v.
Proof.
  intros Hh. unfold be16 in Hh. apply holds_cons in Hh as [H0 Hh]. apply holds_cons in Hh as [H1 _].
  rewrite (le_at_S mem p 1), (le_at_S mem (p + 1) 0), H0, H1. change (le_at mem _ 0) with 0.
  rewrite bswap16_spec, Z.mul_0_r, Z.add_0_r. set (a := v / 256 mod 256). set (b := v mod 256).
  assert (0 <= a < 256) by (apply Z.mod_pos_bound; lia). assert (0 <= b < 256) by (apply Z.mod_pos_bound; lia).
  rewrite (Z.mul_comm 256 b), Z_mod_plus_full, Z_div_plus_full, (Z.div_small a) by lia.
  rewrite (Z.mod_small a), (Z.mod_small (0 + b)) by lia. unfold wrap. change (2 ^ 16) with (256 * 256).
  rewrite Z.rem_mul_r by lia. fold a b. lia.
Qed.

(** ** Moving the window *)

Lemma i16_add a b : i16 (i16 a + b) = i16 (a + b).
Proof.
  unfold i16. f_equal. replace ((a + 2 ^ 15) mod 2 ^ 16 - 2 ^ 15 + b + 2 ^ 15) with ((a + 2 ^ 15) mod 2 ^ 16 + b) by lia.
  rewrite Zplus_mod_idemp_l. f_equal. lia.
Qed.

Lemma advance_advance a b w : sf_wqe_advance a (sf_wqe_advance b w) = sf_wqe_advance (b + a) w.
Proof.
  unfold sf_wqe_advance. cbn. unfold with_current. cbn. f_equal.
  - rewrite i16_add. f_equal. lia.
  - rewrite wrap_sub_l. f_equal. lia.
Qed.

(** The window holds [n] more bytes and the position stays in range. *)
Definition room w (n : Z) : Prop :=
  0 <= current_data w /\ current_data w + n < 2 ^ 15 /\ n <= current_length w < 2 ^ 16.

Lemma room_advance w n k : room w n -> 0 <= k <= n ->
  current_data (sf_wqe_advance k w) = current_data w + k /\
  current_length (sf_wqe_advance k w) = current_length w - k /\
  sf_wqe_get_current (sf_wqe_advance k w) = sf_wqe_get_current w + k /\ room (sf_wqe_advance k w) (n - k).
Proof.
  intros (H1 & H2 & H3) Hk. unfold room, sf_wqe_get_current. cbn.
  rewrite i16_small, wrap_small by lia. lia.
Qed.

(** ** VLAN tags *)

(** A tag: the two bytes of its TCI and whether it is announced as a service tag. *)
Definition tag : Type := Z * Z * bool.
Definition tpid (g : tag) : Z := if snd g then ETHER_QINQ_NET_ORDER else ETHER_VLAN_NET_ORDER.
Definition outer_type (tags : list tag) (t : Z) : Z := match tags with [] => t | g :: _ => tpid g end.
Fixpoint tags_bytes (tags : list tag) (t : Z) : list Z :=
  match tags with
  | [] => []
  | (t0, t1, _) :: tags => [t0; t1] ++ le_bytes 2 (outer_type tags t) ++ tags_bytes tags t
  end.

Definition payload_type (t : Z) : Prop := 0 <= t < 2 ^ 16 /\ is_vlan_type t = false.

Lemma outer_type_vlan g tags t : is_vlan_type (outer_type (g :: tags) t) = true.
Proof. unfold outer_type, tpid. by destruct (snd g). Qed.

Lemma outer_type_range tags t : 0 <= t < 2 ^ 16 -> 0 <= outer_type tags t < 2 ^ 16.
Proof. intros Ht. destruct tags as [|[[? ?] q] ?]; [done|]. unfold outer_type, tpid. by destruct q. Qed.

Definition taglen (tags : list tag) : Z := 4 * Z.of_nat (length tags).

Lemma vlan_loop_tags mem off t tags : forall w cnt fuel,
  tags <> [] -> holds mem (sf_wqe_get_current w) (tags_bytes tags t) -> payload_type t ->
  room w (taglen tags + 1) -> (length tags <= fuel)%nat ->
  vlan_loop fuel mem off cnt w =
  let w' := sf_wqe_advance (taglen tags) w in
  let n := u8 (cnt + Z.of_nat (length tags)) in
  Some (if decide (n <> 0) then update_vlan_wdata off n w' else w', t).
Proof.
  unfold taglen. induction tags as [|[[t0 t1] q] tags IH]; intros w cnt [|fuel] Hne Hh Ht Hr Hf; cbn [length] in Hf;
    try done; try lia.
  cbn [tags_bytes] in Hh. rewrite holds_app, holds_app in Hh. destruct Hh as (_ & Hty & Hrest).
  cbn [length] in Hty, Hrest, Hr. change (length (le_bytes 2 _)) with 2%nat in Hrest.
  assert (Ety : le_at mem (sf_wqe_get_current w + 2) 2 = outer_type tags t)
    by (apply le_at_small; [done|apply outer_type_range, Ht]).
  cbn [vlan_loop]. unfold VLAN_HEADER_LEN.
  destruct (room_advance w (4 * Z.of_nat (S (length tags)) + 1) 4 Hr) as (Ecd & Ecl & Ecur & Hr'); [lia|].
  destruct Hr as (? & ? & ?). rewrite decide_False by lia. rewrite Ety.
  destruct tags as [|g tags].
  - cbn [outer_type]. destruct Ht as [_ ->]. done.
  - rewrite outer_type_vlan, IH; [|done| |done| |].
    + cbv zeta. rewrite advance_advance, wrap_add_l. cbn [length].
      replace (cnt + 1 + Z.of_nat (S (length tags))) with (cnt + Z.of_nat (S (S (length tags)))) by lia.
      replace (4 + 4 * Z.of_nat (S (length tags))) with (4 * Z.of_nat (S (S (length tags)))) by lia. done.
    + rewrite Ecur. replace (sf_wqe_get_current w + 4) with (sf_wqe_get_current w + Z.of_nat 2 + Z.of_nat 2) by lia. done.
    + cbn [length] in *. by replace (4 * Z.of_nat (S (length tags)) + 1)
        with (4 * Z.of_nat (S (S (length tags))) + 1 - 4) by lia.
    + cbn [length] in *. lia.
Qed.

(** What the Ethernet node leaves of the record. *)
Definition eth_decoded (tags : list tag) w : sf_wdata_t :=
  let w1 := sf_wqe_advance (ETH_HEADER_LEN + taglen tags) w in
  match tags with [] => w1 | _ => update_vlan_wdata (current_data w + ETH_HEADER_LEN) (Z.of_nat (length tags)) w1 end.

Definition eth_bytes (macs : list Z) (tags : list tag) (t : Z) : list Z :=
  macs ++ le_bytes 2 (outer_type tags t) ++ tags_bytes tags t.

Lemma tags_bytes_length tags t : Z.of_nat (length (tags_bytes tags t)) = taglen tags.
Proof.
  unfold taglen. induction tags as [|[[t0 t1] q] tags IH]; [done|]. cbn [tags_bytes length app].
  rewrite length_app. change (length (le_bytes 2 _)) with 2%nat. lia.
Qed.

Lemma eth_bytes_length macs tags t : length macs = 12%nat ->
  Z.of_nat (length (eth_bytes macs tags t)) = ETH_HEADER_LEN + taglen tags.
Proof.
  intros Hm. unfold eth_bytes. rewrite !length_app, Hm. change (length (le_bytes 2 _)) with 2%nat.
  rewrite !Nat2Z.inj_add, tags_bytes_length. unfold ETH_HEADER_LEN. lia.
Qed.

Lemma eth_input_tags fuel mem w macs tags t :
  length macs = 12%nat -> holds mem (sf_wqe_get_current w) (eth_bytes macs tags t) -> payload_type t ->
  room w (ETH_HEADER_LEN + taglen tags + 1) -> (length tags < 256)%nat -> (length tags <= fuel)%nat ->
  eth_input_one fuel mem w = Some (eth_decoded tags w, sf_eth_get_next_index t).
Proof.
  intros Hm Hh Ht Hr Hn Hf. unfold eth_bytes in Hh. rewrite holds_app, holds_app, Hm in Hh.
  destruct Hh as (_ & Hty & Hrest). change (length (le_bytes 2 _)) with 2%nat in Hrest.
  assert (Htl : 0 <= taglen tags) by (unfold taglen; lia).
  assert (Ety : le_at mem (sf_wqe_get_current w + 12) 2 = outer_type tags t)
    by (apply le_at_small; [done|apply outer_type_range, Ht]).
  destruct (room_advance w (ETH_HEADER_LEN + taglen tags + 1) ETH_HEADER_LEN Hr) as (Ecd & Ecl & Ecur & Hr');
    [unfold ETH_HEADER_LEN; lia|].
  unfold eth_input_one. rewrite Ety. unfold parse_eth_hdr, eth_decoded.
  destruct tags as [|g tags].
  - cbn [outer_type]. destruct Ht as [_ ->]. cbn [obind]. unfold taglen. cbn. done.
  - rewrite outer_type_vlan. unfold parse_vlan_hdr_only.
    rewrite (vlan_loop_tags _ _ t (g :: tags)); [|done| |done| |done].
    + cbn [obind]. cbv zeta. rewrite advance_advance, Ecd, Z.add_0_l.
      rewrite (wrap_small 8 (Z.of_nat _)) by lia. rewrite decide_True by (cbn [length]; lia).
      do 2 f_equal. destruct Hr as (? & ? & ?). unfold ETH_HEADER_LEN in *. rewrite wrap_small by lia. done.
    + rewrite Ecur. unfold ETH_HEADER_LEN.
      replace (sf_wqe_get_current w + 14) with (sf_wqe_get_current w + Z.of_nat 12 + Z.of_nat 2) by lia. done.
    + by replace (taglen (g :: tags) + 1) with (ETH_HEADER_LEN + taglen (g :: tags) + 1 - ETH_HEADER_LEN) by lia.
Qed.
