(* ===== verification/DecodeRound.v ===== *)
(** * Decoding an encoded packet

    A packet as a value (tags, an IPv4 or IPv6 header with its options or
    extension headers, a transport header, data), its bytes, and the theorem that
    the decoders recover it from them. *)
From S2P Require Import Prelude Wdata Decode DecodeSpec.

Implicit Types (w : sf_wdata_t) (mem : gmap Z Z) (l : list Z).

(** ** Transport headers *)

Inductive transport :=
| Udp (sport dport : Z) (rest : list Z)
| Tcp (sport dport : Z) (seqs : list Z) (words low : Z) (rest : list Z)
| Opaque (proto : Z).

Definition tr_proto (t : transport) : Z :=
  match t with Udp _ _ _ => IP_PRO_UDP | Tcp _ _ _ _ _ _ => IP_PRO_TCP | Opaque p => p end.

Definition tr_bytes (t : transport) : list Z :=
  match t with
  | Udp s d rest => le_bytes 2 s ++ le_bytes 2 d ++ rest
  | Tcp s d seqs words low rest => le_bytes 2 s ++ le_bytes 2 d ++ seqs ++ [words * 16 + low] ++ rest
  | Opaque _ => []
  end.

Definition tr_len (t : transport) : Z :=
  match t with Udp _ _ _ => UDP_HEADER_LEN | Tcp _ _ _ words _ _ => 4 * words | Opaque _ => 0 end.

Definition tr_ok (t : transport) : Prop :=
  match t with
  | Udp s d rest => 0 <= s < 2 ^ 16 /\ 0 <= d < 2 ^ 16 /\ length rest = 4%nat
  | Tcp s d seqs words low rest =>
      0 <= s < 2 ^ 16 /\ 0 <= d < 2 ^ 16 /\ length seqs = 8%nat /\ 0 <= low < 16 /\ 5 <= words < 16 /\
      Z.of_nat (length rest) = 4 * words - 13
  | Opaque p => 0 <= p < 256
  end.

Lemma tr_bytes_length t : tr_ok t -> Z.of_nat (length (tr_bytes t)) = tr_len t.
Proof.
  destruct t as [s d rest|s d seqs words low rest|p]; cbn [tr_ok tr_bytes tr_len]; [| |done]; intros Hok;
    rewrite !length_app; change (length (le_bytes 2 _)) with 2%nat; [unfold UDP_HEADER_LEN; lia|].
  cbn [length]. lia.
Qed.

(** The two ports at the start of both headers. *)
Lemma ports_found mem p s d l : 0 <= s < 2 ^ 16 -> 0 <= d < 2 ^ 16 ->
  holds mem p (le_bytes 2 s ++ le_bytes 2 d ++ l) -> l4_src_port mem p = s /\ l4_dst_port mem p = d.
Proof.
  intros Hs Hd Hh. rewrite !holds_app in Hh. change (length (le_bytes 2 _)) with 2%nat in Hh.
  destruct Hh as (H1 & H2 & _). split; by apply le_at_small.
Qed.

Definition l4_found (s d hlen : Z) w : sf_wdata_t :=
  sf_wqe_advance hlen (update_l4_wdata (current_data w) s d hlen (set_arg12 s d w)).

Lemma udp_input_found mem w s d rest :
  tr_ok (Udp s d rest) -> holds mem (sf_wqe_get_current w) (tr_bytes (Udp s d rest)) ->
  UDP_HEADER_LEN <= current_length w -> fst (udp_input_one mem w) = l4_found s d UDP_HEADER_LEN w.
Proof.
  intros (Hs & Hd & _) Hh Hl. cbn [tr_bytes] in Hh. destruct (ports_found _ _ _ _ _ Hs Hd Hh) as [Es Ed].
  unfold udp_input_one. rewrite decide_True by done. rewrite Es, Ed. done.
Qed.

Lemma nibble_high a b : 0 <= b < 16 -> Z.shiftr (a * 16 + b) 4 = a.
Proof.
  intros Hb. rewrite Z.shiftr_div_pow2 by lia. change (2 ^ 4) with 16.
  by rewrite Z.div_add_l, (Z.div_small b), Z.add_0_r by lia.
Qed.

Lemma tcp_input_found mem w s d seqs words low rest :
  let t := Tcp s d seqs words low rest in
  tr_ok t -> holds mem (sf_wqe_get_current w) (tr_bytes t) -> tr_len t <= current_length w ->
  fst (tcp_input_one mem w) = l4_found s d (tr_len t) w.
Proof.
  intros t Hok Hh Hl. subst t. cbn [tr_ok tr_bytes tr_len] in *. destruct Hok as (Hs & Hd & Hq & Hlow & Hw & Hr).
  destruct (ports_found _ _ _ _ _ Hs Hd Hh) as [Es Ed].
  assert (Eh : tcp_hdr_len mem (sf_wqe_get_current w) = 4 * words).
  { rewrite !holds_app, Hq in Hh. change (length (le_bytes 2 _)) with 2%nat in Hh.
    destruct Hh as (_ & _ & _ & Hb & _). apply holds_cons in Hb as [Hb _].
    unfold tcp_hdr_len. replace (sf_wqe_get_current w + 12)
      with (sf_wqe_get_current w + Z.of_nat 2 + Z.of_nat 2 + Z.of_nat 8) by lia.
    rewrite Hb, nibble_high, Z.shiftl_mul_pow2, wrap_small by lia. lia. }
  unfold tcp_input_one, sf_tcp_decode. rewrite Eh, decide_False by lia. rewrite Es, Ed. done.
Qed.

(** ** The IPv4 header *)

Record v4_header := mk_v4 {
  h4_tos : Z; h4_id : Z; h4_flags : Z; h4_off : Z; h4_ttl : Z; h4_sum : Z;
  h4_src : Z; h4_dst : Z; h4_opts : list Z
}.

Definition h4_len (h : v4_header) : Z := 20 + Z.of_nat (length (h4_opts h)).

Definition h4_bytes (h : v4_header) (proto plen : Z) : list Z :=
  [64 + h4_len h / 4; h4_tos h] ++ be16 (h4_len h + plen) ++ be16 (h4_id h) ++ [h4_flags h; h4_off h] ++
  [h4_ttl h; proto] ++ be16 (h4_sum h) ++ le_bytes 4 (h4_src h) ++ le_bytes 4 (h4_dst h) ++ h4_opts h.

Definition h4_ok (h : v4_header) : Prop :=
  0 <= h4_src h < 2 ^ 32 /\ 0 <= h4_dst h < 2 ^ 32 /\ h4_len h mod 4 = 0 /\ h4_len h <= 60.

(** More fragments follow, or the offset is not zero. *)
Definition h4_frag (h : v4_header) : bool :=
  Z.testbit (h4_flags h) 5 || negb (Z.land (h4_flags h) 31 =? 0) || negb (h4_off h =? 0).

Lemma h4_bytes_length h proto plen : Z.of_nat (length (h4_bytes h proto plen)) = h4_len h.
Proof. unfold h4_bytes, h4_len. rewrite !length_app. cbn [length be16 le_bytes]. lia. Qed.

Lemma low_bit_testbit z : negb (Z.land z 1 =? 0) = Z.testbit z 0.
Proof.
  rewrite Z.bit0_odd. change 1 with (2 ^ 1 - 1). rewrite (wrap_land 1) by lia. unfold wrap.
  rewrite Zmod_odd. by destruct (Z.odd z).
Qed.

Lemma h4_fields mem p h proto plen :
  h4_ok h -> holds mem p (h4_bytes h proto plen) ->
  ip4_hdr_len mem p = h4_len h /\ bswap16 (ip4_totalLen mem p) = u16 (h4_len h + plen) /\
  ip4_protocol mem p = proto /\ ip4_src_ip mem p = h4_src h /\ ip4_dst_ip mem p = h4_dst h /\
  ip4_is_frag mem p = h4_frag h.
Proof.
  intros (Hs & Hd & Hm & Hl) Hh. unfold h4_bytes in Hh. rewrite !holds_app in Hh.
  cbn [length be16] in Hh. change (length (le_bytes 4 _)) with 4%nat in Hh.
  destruct Hh as (H0 & H2 & _ & H6 & H8 & _ & H12 & H16 & _).
  apply holds_cons in H0 as [H0 _]. apply holds_cons in H6 as [H6 H7]. apply holds_cons in H7 as [H7 _].
  apply holds_cons in H8 as [_ H9]. apply holds_cons in H9 as [H9 _].
  change (Z.of_nat 2) with 2 in *. change (Z.of_nat 4) with 4 in *. rewrite <- !Z.add_assoc in *.
  change (2 + (2 + 2)) with 6 in H6. change (2 + (2 + (2 + 1))) with 7 in H7.
  change (2 + (2 + (2 + (2 + 1)))) with 9 in H9. change (2 + (2 + (2 + (2 + (2 + 2))))) with 12 in H12.
  change (2 + (2 + (2 + (2 + (2 + (2 + 4)))))) with 16 in H16.
  split_and!.
  - assert (0 <= h4_len h / 4 < 16).
    { split; [apply Z.div_pos; unfold h4_len; lia|]. apply Z.div_lt_upper_bound; lia. }
    unfold ip4_hdr_len. rewrite H0. change 15 with (2 ^ 4 - 1). rewrite (wrap_land 4) by lia.
    unfold wrap. change (2 ^ 4) with 16. replace (64 + h4_len h / 4) with (h4_len h / 4 + 4 * 16) by lia.
    rewrite Z_mod_plus_full, Z.mod_small, Z.shiftl_mul_pow2 by lia.
    pose proof (Z.div_mod (h4_len h) 4). lia.
  - by apply be16_holds.
  - done.
  - by apply le_at_small.
  - by apply le_at_small.
  - unfold ip4_is_frag, h4_frag, get_ip4_hdr_flag, IPV4_FLAGS_MORE_FRAG_MASK.
    rewrite H6, H7, low_bit_testbit, Z.shiftr_spec by lia. change (0 + 5) with 5.
    destruct (Z.testbit _ _), (Z.land _ _ =? 0), (h4_off h =? 0); done.
Qed.

(** What the IPv4 node leaves of the record. *)
Definition ip4_found (h : v4_header) (proto plen : Z) w : ip_wdata_t :=
  update_ipv4_wdata (current_data w) (h4_src h) (h4_dst h) proto (h4_len h) plen (b2z (h4_frag h)) (ip_wdata w).

Definition ip_advance (frag : bool) (hlen : Z) (i : ip_wdata_t) w : sf_wdata_t :=
  if frag then count_ip i w else sf_wqe_advance hlen (count_ip i w).

Lemma update_ipv4_plen off s d proto hlen a b frag i :
  u16 a = u16 b -> update_ipv4_wdata off s d proto hlen a frag i = update_ipv4_wdata off s d proto hlen b frag i.
Proof. unfold update_ipv4_wdata. by intros ->. Qed.

Lemma ip4_input_found mem w h proto plen :
  h4_ok h -> holds mem (sf_wqe_get_current w) (h4_bytes h proto plen) ->
  ip_wdata_cnt w < MAX_IP_WDATA -> h4_len h <= current_length w ->
  ip4_input_one mem w =
  (ip_advance (h4_frag h) (h4_len h) (ip4_found h proto plen w) w,
   if h4_frag h then IP_NEXT_REASS else sf_ip4_get_next_index proto).
Proof.
  intros Hok Hh Hc Hl. destruct (h4_fields _ _ _ _ _ Hok Hh) as (E1 & E2 & E3 & E4 & E5 & E6).
  unfold ip4_input_one, ip4_decode. rewrite E1, E2, E3, E4, E5, E6, decide_False, decide_False by lia.
  rewrite (update_ipv4_plen _ _ _ _ _ _ plen) by (rewrite wrap_sub_l; f_equal; lia).
  unfold update_ipv4_wdata at 1, ip_advance, ip4_found. cbn [is_frag]. destruct (h4_frag h); [done|].
  cbn [b2z]. destruct (decide (0 = 0)) as [_|]; [|done]. destruct (decide (proto <> 0)) as [|Hz]; [reflexivity|]. apply dec_stable in Hz. by rewrite Hz.
Qed.

(** ** IPv6 extension headers *)

(** The header's kind, its length byte and what follows the first two bytes. *)
Record ext_header := mk_ext { x_kind : Z; x_len : Z; x_body : list Z }.

Definition ext_bytes (x : ext_header) (next : Z) : list Z := next :: x_len x :: x_body x.
Definition ext_size (x : ext_header) : Z := 2 + Z.of_nat (length (x_body x)).

Definition skippable (k : Z) : Prop := k = IP_PRO_HOPOPT \/ k = IP_PRO_ROUTING \/ k = IP_PRO_DSTOPTS.

(** An options header counts in units of eight bytes, an authentication header in
    units of four; a fragment header is skipped when it holds a whole packet. *)
Definition ext_ok (x : ext_header) : Prop :=
  0 <= x_len x < 256 /\
  (skippable (x_kind x) /\ ext_size x = 8 * (x_len x + 1) \/
   x_kind x = IP_PRO_AH /\ ext_size x = 4 * (x_len x + 2) \/
   x_kind x = IP_PRO_IPV6_FRAG /\ exists r i0 i1 i2 i3, x_body x = [0; r; i0; i1; i2; i3] /\ 0 <= r < 8 /\ r mod 2 = 0).

Definition outer_proto (xs : list ext_header) (proto : Z) : Z :=
  match xs with [] => proto | x :: _ => x_kind x end.

Fixpoint exts_bytes (xs : list ext_header) (proto : Z) : list Z :=
  match xs with [] => [] | x :: xs => ext_bytes x (outer_proto xs proto) ++ exts_bytes xs proto end.

Definition exts_size (xs : list ext_header) : Z := foldr Z.add 0 (map ext_size xs).

(** The header that ends the chain. *)
Inductive ext_end :=
| Ends (proto : Z)
| Fragmented (proto res b2 b3 : Z) (ident : list Z).

Definition end_proto (e : ext_end) : Z := match e with Ends p => p | Fragmented _ _ _ _ _ => IP_PRO_IPV6_FRAG end.
Definition end_payload (e : ext_end) : Z := match e with Ends p => p | Fragmented p _ _ _ _ => p end.
Definition end_bytes (e : ext_end) : list Z :=
  match e with Ends _ => [] | Fragmented p r b2 b3 ident => [p; r; b2; b3] ++ ident end.
Definition end_frag (e : ext_end) : bool := match e with Ends _ => false | Fragmented _ _ _ _ _ => true end.
Definition end_size (e : ext_end) : Z := if end_frag e then IPV6_FRAG_HEADER_LEN else 0.

Definition ends_chain (p : Z) : Prop :=
  p <> IP_PRO_HOPOPT /\ p <> IP_PRO_ROUTING /\ p <> IP_PRO_DSTOPTS /\ p <> IP_PRO_AH /\ p <> IP_PRO_IPV6_FRAG.

Definition end_ok (e : ext_end) : Prop :=
  match e with
  | Ends p => ends_chain p
  | Fragmented _ _ b2 b3 ident => 0 <= b2 < 256 /\ 0 <= b3 < 256 /\ (b2 <> 0 \/ Z.land b3 1 <> 0 \/ 8 <= b3) /\ length ident = 4%nat
  end.

Lemma exts_size_cons x xs : exts_size (x :: xs) = ext_size x + exts_size xs.
Proof. done. Qed.

Lemma exts_size_nonneg xs : 0 <= exts_size xs.
Proof. induction xs as [|x xs IH]; [done|]. rewrite exts_size_cons. unfold ext_size. lia. Qed.

Lemma ext_bytes_length x next : Z.of_nat (length (ext_bytes x next)) = ext_size x.
Proof. unfold ext_bytes, ext_size. cbn [length]. lia. Qed.

Lemma exts_bytes_length xs p : Z.of_nat (length (exts_bytes xs p)) = exts_size xs.
Proof.
  induction xs as [|x xs IH]; [done|]. cbn [exts_bytes].
  by rewrite exts_size_cons, length_app, Nat2Z.inj_add, IH, ext_bytes_length.
Qed.

(** One header of the chain, in the loop. *)
Lemma ext_loop_step fuel mem p left_len hdr_len frag x next :
  ext_ok x -> holds mem p (ext_bytes x next) -> ext_size x < left_len < 2 ^ 16 ->
  0 <= hdr_len -> hdr_len + ext_size x < 2 ^ 16 ->
  ip6_ext_loop (S fuel) mem p left_len hdr_len frag (x_kind x) =
  ip6_ext_loop fuel mem (p + ext_size x) (left_len - ext_size x) (hdr_len + ext_size x) frag next.
Proof.
  intros [Hx Hk] Hh Hl H0 Hhl. unfold ext_bytes in Hh.
  apply holds_cons in Hh as [Hn Hh]. apply holds_cons in Hh as [Hlen Hb].
  destruct Hk as [[Hs Hz]|[[Hs Hz]|[Hs (r & i0 & i1 & i2 & i3 & Eb & Hr & Hr2)]]].
  - assert (Hne : x_kind x <> IP_PRO_IPV6_FRAG /\ bool_decide (x_kind x = IP_PRO_AH) = false /\
      bool_decide (x_kind x = IP_PRO_HOPOPT) || bool_decide (x_kind x = IP_PRO_ROUTING) ||
      bool_decide (x_kind x = IP_PRO_DSTOPTS) = true) by by destruct Hs as [->|[->| ->]].
    destruct Hne as (N1 & N2 & N3). cbn [ip6_ext_loop]. rewrite decide_False by done. cbv zeta.
    rewrite N2, orb_false_l, N3, Hn, Hlen. rewrite (Z.shiftl_mul_pow2 (x_len x + 1) 3), (wrap_small 16 (_ * _)) by lia.
    replace ((x_len x + 1) * 2 ^ 3) with (ext_size x) by lia. rewrite decide_False by lia.
    by rewrite !wrap_small by lia.
  - cbn [ip6_ext_loop]. rewrite Hs. rewrite decide_False by done. cbv zeta.
    rewrite bool_decide_eq_true_2, !orb_true_l, Hn, Hlen by done.
    rewrite (Z.shiftl_mul_pow2 (x_len x + 2) 2), (wrap_small 16 (_ * _)) by lia.
    replace ((x_len x + 2) * 2 ^ 2) with (ext_size x) by lia. rewrite decide_False by lia.
    by rewrite !wrap_small by lia.
  - assert (Ez : ext_size x = IPV6_FRAG_HEADER_LEN) by (unfold ext_size; by rewrite Eb).
    rewrite Ez in *. unfold IPV6_FRAG_HEADER_LEN in *.
    rewrite Eb in Hb. apply holds_cons in Hb as [H2 Hb]. apply holds_cons in Hb as [H3 _].
    replace (p + 1 + 1) with (p + 2) in * by lia. replace (p + 2 + 1) with (p + 3) in * by lia.
    cbn [ip6_ext_loop]. rewrite Hs. rewrite decide_True, decide_False by done || (unfold IPV6_FRAG_HEADER_LEN; lia).
    unfold ip6f_flags, get_ip6_frag_offset, IPV6_FRAG_HEADER_LEN. rewrite H2, H3, Hn.
    rewrite !wrap_small by lia.
    assert (Hrs : r = 0 \/ r = 2 \/ r = 4 \/ r = 6).
    { pose proof (Z.div_mod r 2). lia. }
    by destruct Hrs as [->|[->|[->| ->]]].
Qed.

(** The loop walks the whole chain. *)
Lemma ext_loop_chain mem e xs : forall fuel p left_len hdr_len,
  Forall ext_ok xs -> end_ok e -> holds mem p (exts_bytes xs (end_proto e) ++ end_bytes e) ->
  (length xs < fuel)%nat -> 0 <= hdr_len -> hdr_len + exts_size xs + end_size e < 2 ^ 16 ->
  exts_size xs + end_size e < left_len < 2 ^ 16 ->
  ip6_ext_loop fuel mem p left_len hdr_len 0 (outer_proto xs (end_proto e)) =
  Some (hdr_len + exts_size xs + end_size e, b2z (end_frag e), end_payload e).
Proof.
  induction xs as [|x xs IH]; intros [|fuel] p left_len hdr_len Hxs He Hh Hf H0 Hhl Hl; cbn [length] in Hf; try lia.
  - cbn [exts_bytes app] in Hh. change (exts_size []) with 0 in *. cbn [outer_proto].
    destruct e as [proto|proto r b2 b3 ident]; cbn [end_proto end_payload end_size end_frag end_bytes b2z] in *.
    + destruct He as (N1 & N2 & N3 & N4 & N5). cbn [ip6_ext_loop]. rewrite decide_False by done. cbv zeta.
      rewrite !bool_decide_eq_false_2 by done. cbn. do 3 f_equal. lia.
    + unfold IPV6_FRAG_HEADER_LEN in *.
      cbn [app] in Hh. apply holds_cons in Hh as [Hn Hh]. apply holds_cons in Hh as [_ Hh].
      apply holds_cons in Hh as [H2 Hh]. apply holds_cons in Hh as [H3 _].
      replace (p + 1 + 1) with (p + 2) in * by lia. replace (p + 2 + 1) with (p + 3) in * by lia.
      destruct He as (Hb2 & Hb3 & Hfr & _). cbn [ip6_ext_loop]. rewrite decide_True by done.
      unfold IPV6_FRAG_HEADER_LEN. rewrite decide_False by lia.
      unfold ip6f_flags, get_ip6_frag_offset. rewrite H2, H3, Hn.
      assert (Hor : negb (Z.land b3 1 =? 0) || negb (Z.lor (Z.shiftl b2 5) (Z.shiftr b3 3) =? 0) = true).
      { rewrite Z.shiftr_div_pow2, lor_shift by (try (split; [apply Z.div_pos|apply Z.div_lt_upper_bound]); lia).
        apply orb_true_iff. rewrite !negb_true_iff, !Z.eqb_neq.
        assert (0 <= b3 / 2 ^ 3) by (apply Z.div_pos; lia).
        destruct Hfr as [?|[?|?]]; [right; lia|by left|right].
        assert (1 <= b3 / 2 ^ 3) by (apply Z.div_le_lower_bound; lia). lia. }
      rewrite Hor, wrap_small by lia. do 3 f_equal. lia.
  - apply Forall_cons in Hxs as [Hx Hxs]. rewrite exts_size_cons in *. cbn [exts_bytes] in Hh.
    rewrite <- app_assoc, holds_app, ext_bytes_length in Hh. destruct Hh as [Hx1 Hh].
    assert (He0 : 0 <= end_size e) by (unfold end_size, IPV6_FRAG_HEADER_LEN; destruct (end_frag e); lia).
    assert (Hx0 : 0 <= ext_size x) by (unfold ext_size; lia). pose proof (exts_size_nonneg xs).
    cbn [outer_proto]. rewrite (ext_loop_step _ _ _ _ _ _ _ _ Hx Hx1) by lia.
    rewrite IH by (done || lia). do 3 f_equal. lia.
Qed.

(** ** The IPv6 header *)

Record v6_header := mk_v6 {
  h6_flow : list Z; h6_hops : Z; h6_src : ip_addr_t; h6_dst : ip_addr_t; h6_exts : list ext_header;
  h6_fragment : option (Z * Z * Z * list Z)
}.

Definition h6_end (h : v6_header) (proto : Z) : ext_end :=
  match h6_fragment h with None => Ends proto | Some (r, b2, b3, ident) => Fragmented proto r b2 b3 ident end.
Definition h6_frag (h : v6_header) : bool := if h6_fragment h is None then false else true.

Definition h6_len (h : v6_header) : Z :=
  IPV6_HEADER_LEN + exts_size (h6_exts h) + (if h6_frag h then IPV6_FRAG_HEADER_LEN else 0).

Definition addr_ok (a : ip_addr_t) : Prop := 0 <= addr_v6_upper a < 2 ^ 64 /\ 0 <= addr_v6_lower a < 2 ^ 64.

Definition h6_fixed (h : v6_header) (proto plen : Z) : list Z :=
  h6_flow h ++ be16 (h6_len h - IPV6_HEADER_LEN + plen) ++
  [outer_proto (h6_exts h) (end_proto (h6_end h proto)); h6_hops h] ++ addr_bytes (h6_src h) ++ addr_bytes (h6_dst h).

Definition h6_chain (h : v6_header) (proto : Z) : list Z :=
  exts_bytes (h6_exts h) (end_proto (h6_end h proto)) ++ end_bytes (h6_end h proto).

Definition h6_bytes (h : v6_header) (proto plen : Z) : list Z := h6_fixed h proto plen ++ h6_chain h proto.

Definition h6_ok (h : v6_header) (proto : Z) : Prop :=
  length (h6_flow h) = 4%nat /\ addr_ok (h6_src h) /\ addr_ok (h6_dst h) /\ Forall ext_ok (h6_exts h) /\
  end_ok (h6_end h proto) /\ proto <> IP_PRO_INVALID.

Lemma h6_end_size h proto : end_size (h6_end h proto) = if h6_frag h then IPV6_FRAG_HEADER_LEN else 0.
Proof. unfold h6_end, h6_frag, end_size. by destruct (h6_fragment h) as [[[[? ?] ?] ?]|]. Qed.

Lemma h6_end_payload h proto : end_payload (h6_end h proto) = proto.
Proof. unfold h6_end. by destruct (h6_fragment h) as [[[[? ?] ?] ?]|]. Qed.

Lemma h6_end_frag h proto : end_frag (h6_end h proto) = h6_frag h.
Proof. unfold h6_end, h6_frag. by destruct (h6_fragment h) as [[[[? ?] ?] ?]|]. Qed.

Lemma h6_fixed_length h proto plen : length (h6_flow h) = 4%nat -> length (h6_fixed h proto plen) = 40%nat.
Proof. intros Hf. unfold h6_fixed, addr_bytes. rewrite !length_app, Hf. done. Qed.

Lemma h6_bytes_length h proto plen : h6_ok h proto -> Z.of_nat (length (h6_bytes h proto plen)) = h6_len h.
Proof.
  intros (Hf & _ & _ & _ & He & _). unfold h6_bytes, h6_chain. rewrite !length_app, h6_fixed_length by done.
  rewrite !Nat2Z.inj_add, exts_bytes_length. unfold h6_len. rewrite <- (h6_end_size h proto).
  unfold end_size. destruct (h6_end h proto) as [p|p r b2 b3 ident]; cbn [end_bytes end_frag length]; [unfold IPV6_HEADER_LEN; lia|].
  destruct He as (_ & _ & _ & Hi). rewrite length_app, Hi. unfold IPV6_HEADER_LEN, IPV6_FRAG_HEADER_LEN. cbn [length]. lia.
Qed.

Lemma addr_holds mem p a : addr_ok a -> holds mem p (addr_bytes a) -> ip6_addr_at mem p = a.
Proof.
  intros [Hu Hl] Hh. unfold addr_bytes in Hh. rewrite holds_app in Hh. destruct Hh as [H1 H2].
  change (Z.of_nat (length (le_bytes 8 _))) with 8 in H2. unfold ip6_addr_at.
  rewrite (le_at_small _ _ _ _ H1), (le_at_small _ _ _ _ H2) by done. by destruct a.
Qed.

Lemma h6_fields mem p h proto plen :
  h6_ok h proto -> holds mem p (h6_bytes h proto plen) ->
  bswap16 (ip6_payload_len mem p) = u16 (h6_len h - IPV6_HEADER_LEN + plen) /\
  ip6_next_header mem p = outer_proto (h6_exts h) (end_proto (h6_end h proto)) /\
  ip6_addr_at mem (p + 8) = h6_src h /\ ip6_addr_at mem (p + 24) = h6_dst h /\
  holds mem (p + IPV6_HEADER_LEN) (h6_chain h proto).
Proof.
  intros (Hf & Hs & Hd & _) Hh. unfold h6_bytes in Hh. rewrite holds_app, h6_fixed_length in Hh by done.
  destruct Hh as [Hh Hc]. unfold h6_fixed in Hh. rewrite !holds_app, Hf in Hh. cbn [length be16] in Hh.
  change (length (addr_bytes _)) with 16%nat in Hh.
  change (Z.of_nat 2) with 2 in Hh. change (Z.of_nat 4) with 4 in Hh. change (Z.of_nat 16) with 16 in Hh.
  rewrite <- !Z.add_assoc in Hh. destruct Hh as (_ & H4 & H6 & H8 & H24).
  apply holds_cons in H6 as [H6 _]. split_and!; [by apply be16_holds|done|by apply addr_holds..|done].
Qed.

Definition ip6_found (h : v6_header) (proto plen : Z) w : ip_wdata_t :=
  update_ipv6_wdata (current_data w) (h6_src h) (h6_dst h) proto (h6_len h) plen (b2z (h6_frag h)) (ip_wdata w).

Lemma parse_ipv6_found fuel mem hl w h proto plen :
  h6_ok h proto -> holds mem (sf_wqe_get_current w) (h6_bytes h proto plen) ->
  (length (h6_exts h) < fuel)%nat -> h6_len h < current_length w < 2 ^ 16 ->
  parse_ipv6_hdr fuel mem hl w = Some (w, h6_len h, b2z (h6_frag h), proto).
Proof.
  intros Hok Hh Hf Hl. destruct (h6_fields _ _ _ _ _ Hok Hh) as (_ & E2 & _ & _ & Hc).
  destruct Hok as (_ & _ & _ & Hx & He & Hp). pose proof (exts_size_nonneg (h6_exts h)) as Hx0.
  unfold h6_len in *. rewrite <- (h6_end_size h proto) in *.
  assert (He0 : 0 <= end_size (h6_end h proto)) by (unfold end_size, IPV6_FRAG_HEADER_LEN; destruct (end_frag _); lia).
  unfold parse_ipv6_hdr, IPV6_HEADER_LEN in *. rewrite decide_False by lia. rewrite E2, (wrap_small 16) by lia.
  rewrite (ext_loop_chain _ _ _ _ _ _ _ Hx He Hc Hf) by lia. cbn [obind].
  rewrite h6_end_payload, h6_end_frag, decide_False by done. do 4 f_equal.
Qed.

Lemma ip6_input_found fuel mem hl w h proto plen :
  h6_ok h proto -> holds mem (sf_wqe_get_current w) (h6_bytes h proto plen) ->
  (length (h6_exts h) < fuel)%nat -> h6_len h < current_length w < 2 ^ 16 -> ip_wdata_cnt w < MAX_IP_WDATA ->
  ip6_input_one fuel mem hl w =
  Some (ip_advance (h6_frag h) (h6_len h) (ip6_found h proto plen w) w,
        sf_ip6_get_next_index IP_NEXT_REASS proto (b2z (h6_frag h))).
Proof.
  intros Hok Hh Hf Hl Hc. unfold ip6_input_one. rewrite (parse_ipv6_found _ _ _ _ _ _ _ Hok Hh Hf Hl). cbn [obind].
  destruct (h6_fields _ _ _ _ _ Hok Hh) as (E1 & _ & E3 & E4 & _). destruct Hok as (_ & _ & _ & _ & _ & Hp).
  rewrite decide_False by lia. rewrite decide_False by done. unfold ip6_accept. rewrite E1, E3, E4.
  unfold ip6_found, ip_advance, update_ipv6_wdata. rewrite wrap_idemp.
  replace (u16 (u16 (h6_len h - IPV6_HEADER_LEN + plen) + IPV6_HEADER_LEN - h6_len h)) with (u16 plen).
  - by destruct (h6_frag h).
  - rewrite <- Z.add_sub_assoc, wrap_add_l. f_equal. lia.
Qed.

(** ** Whole packets *)

Inductive network := V4 (h : v4_header) | V6 (h : v6_header).

Record packet := mk_packet {
  p_macs : list Z; p_tags : list tag; p_net : network; p_tr : transport; p_data : list Z
}.

Definition net_type (n : network) : Z := match n with V4 _ => ETHER_IPV4_NET_ORDER | V6 _ => ETHER_IPV6_NET_ORDER end.
Definition net_len (n : network) : Z := match n with V4 h => h4_len h | V6 h => h6_len h end.
Definition net_frag (n : network) : bool := match n with V4 h => h4_frag h | V6 h => h6_frag h end.
Definition net_bytes (n : network) (proto plen : Z) : list Z :=
  match n with V4 h => h4_bytes h proto plen | V6 h => h6_bytes h proto plen end.
Definition net_reass (n : network) : destination := match n with V4 _ => To_ip4_reass | V6 _ => To_ip6_reass end.
Definition net_exts (n : network) : list ext_header := match n with V4 _ => [] | V6 h => h6_exts h end.
Definition net_found (n : network) (proto plen : Z) w : ip_wdata_t :=
  match n with V4 h => ip4_found h proto plen w | V6 h => ip6_found h proto plen w end.

(** What follows the IP header. *)
Definition p_rest (p : packet) : list Z := tr_bytes (p_tr p) ++ p_data p.
Definition p_plen (p : packet) : Z := Z.of_nat (length (p_rest p)).
Definition l2_len (p : packet) : Z := ETH_HEADER_LEN + taglen (p_tags p).

Definition encode (p : packet) : list Z :=
  eth_bytes (p_macs p) (p_tags p) (net_type (p_net p)) ++ net_bytes (p_net p) (tr_proto (p_tr p)) (p_plen p) ++ p_rest p.

Definition net_ok (n : network) (proto plen : Z) : Prop :=
  match n with V4 h => h4_ok h | V6 h => h6_ok h proto /\ 0 < plen end.

(** An opaque transport stands for a protocol without decoder, or for the bytes
    of a fragment. *)
Definition packet_ok (p : packet) : Prop :=
  length (p_macs p) = 12%nat /\ (length (p_tags p) < 256)%nat /\ tr_ok (p_tr p) /\
  net_ok (p_net p) (tr_proto (p_tr p)) (p_plen p) /\
  (net_frag (p_net p) = false ->
   match p_tr p with Opaque q => q <> IP_PRO_UDP /\ q <> IP_PRO_TCP | _ => True end).

Definition p_dest (p : packet) : destination := if net_frag (p_net p) then net_reass (p_net p) else To_acl_entry.

(** What the transport decoder does with the record. *)
Definition l4_step (t : transport) w : sf_wdata_t :=
  match t with
  | Udp s d _ | Tcp s d _ _ _ _ => l4_found s d (tr_len t) w
  | Opaque _ => w
  end.

Definition decoded (p : packet) w : sf_wdata_t :=
  let w := eth_decoded (p_tags p) w in
  let i := net_found (p_net p) (tr_proto (p_tr p)) (p_plen p) w in
  let w := ip_advance (net_frag (p_net p)) (net_len (p_net p)) i w in
  if net_frag (p_net p) then w else l4_step (p_tr p) w.

Lemma decode_l4_found mem w reass t l :
  tr_ok t -> match t with Opaque q => q <> IP_PRO_UDP /\ q <> IP_PRO_TCP | _ => True end ->
  holds mem (sf_wqe_get_current w) (tr_bytes t ++ l) -> tr_len t <= current_length w ->
  decode_l4 mem reass (w, sf_ip4_get_next_index (tr_proto t)) = (l4_step t w, To_acl_entry) /\
  decode_l4 mem reass (w, sf_ip6_get_next_index IP_NEXT_REASS (tr_proto t) 0) = (l4_step t w, To_acl_entry).
Proof.
  intros Hok Hq Hh Hl. rewrite holds_app in Hh. destruct Hh as [Hh _].
  destruct t as [s d rest|s d seqs words low rest|q]; cbn [tr_proto l4_step].
  - pose proof (udp_input_found _ _ _ _ _ Hok Hh Hl) as E. unfold decode_l4. cbn.
    change (fst (udp_input_one mem w) = l4_found s d UDP_HEADER_LEN w) in E. by rewrite <- E.
  - pose proof (tcp_input_found _ _ _ _ _ _ _ _ Hok Hh Hl) as E. by rewrite <- E.
  - destruct Hq as [N1 N2]. unfold sf_ip4_get_next_index, sf_ip6_get_next_index.
    rewrite !(decide_False (P := q = _)) by done. done.
Qed.

Lemma net_bytes_length p : packet_ok p ->
  Z.of_nat (length (net_bytes (p_net p) (tr_proto (p_tr p)) (p_plen p))) = net_len (p_net p).
Proof.
  intros (_ & _ & _ & Hn & _). destruct (p_net p) as [h|h]; cbn [net_bytes net_len].
  - apply h4_bytes_length.
  - apply h6_bytes_length, Hn.
Qed.

Lemma encode_length p : packet_ok p ->
  Z.of_nat (length (encode p)) = l2_len p + net_len (p_net p) + p_plen p.
Proof.
  intros Hok. unfold encode, l2_len. rewrite !length_app, !Nat2Z.inj_add, (net_bytes_length p Hok).
  rewrite eth_bytes_length by apply Hok. unfold p_plen. lia.
Qed.

Lemma eth_decoded_window tags w n :
  room w (ETH_HEADER_LEN + taglen tags + n) -> 0 <= n ->
  current_data (eth_decoded tags w) = current_data w + (ETH_HEADER_LEN + taglen tags) /\
  current_length (eth_decoded tags w) = current_length w - (ETH_HEADER_LEN + taglen tags) /\
  sf_wqe_get_current (eth_decoded tags w) = sf_wqe_get_current w + (ETH_HEADER_LEN + taglen tags) /\
  ip_wdata_cnt (eth_decoded tags w) = ip_wdata_cnt w.
Proof.
  intros Hr Hn. assert (0 <= taglen tags) by (unfold taglen; lia).
  destruct (room_advance w _ (ETH_HEADER_LEN + taglen tags) Hr) as (E1 & E2 & E3 & _); [unfold ETH_HEADER_LEN; lia|].
  unfold eth_decoded. by destruct tags.
Qed.

Lemma net_len_nonneg p : packet_ok p -> 0 <= net_len (p_net p).
Proof. intros Hok. rewrite <- (net_bytes_length p Hok). lia. Qed.

Lemma ip_advance_window hlen i w n : room w (hlen + n) -> 0 <= hlen -> 0 <= n ->
  sf_wqe_get_current (ip_advance false hlen i w) = sf_wqe_get_current w + hlen /\
  current_length (ip_advance false hlen i w) = current_length w - hlen /\
  current_data (ip_advance false hlen i w) = current_data w + hlen.
Proof. intros Hr Hh Hn. destruct (room_advance w _ hlen Hr) as (E1 & E2 & E3 & _); [lia|]. done. Qed.

Lemma tr_len_le_plen p : packet_ok p -> tr_len (p_tr p) <= p_plen p.
Proof.
  intros (_ & _ & Ht & _). unfold p_plen, p_rest. rewrite length_app, <- (tr_bytes_length _ Ht). lia.
Qed.

Lemma plen_nonneg p : 0 <= p_plen p.
Proof. unfold p_plen. lia. Qed.

Lemma net_len_pos p : 20 <= net_len (p_net p).
Proof.
  destruct (p_net p) as [h|h]; cbn [net_len]; [unfold h4_len; lia|].
  unfold h6_len, IPV6_HEADER_LEN, IPV6_FRAG_HEADER_LEN. pose proof (exts_size_nonneg (h6_exts h)).
  destruct (h6_frag h); lia.
Qed.

Lemma room_l2 w p : packet_ok p -> room w (Z.of_nat (length (encode p))) ->
  room w (l2_len p + (net_len (p_net p) + p_plen p)).
Proof. intros Hok Hr. rewrite (encode_length p Hok) in Hr. by rewrite Z.add_assoc. Qed.

Lemma window_l3 w p : packet_ok p -> room w (Z.of_nat (length (encode p))) ->
  let w1 := eth_decoded (p_tags p) w in
  current_data w1 = current_data w + l2_len p /\ current_length w1 = current_length w - l2_len p /\
  sf_wqe_get_current w1 = sf_wqe_get_current w + l2_len p /\ ip_wdata_cnt w1 = ip_wdata_cnt w.
Proof.
  intros Hok Hr. pose proof (plen_nonneg p). pose proof (net_len_pos p).
  apply (eth_decoded_window _ _ _ (room_l2 w p Hok Hr)). lia.
Qed.

Lemma room_l3 w p : packet_ok p -> room w (Z.of_nat (length (encode p))) ->
  room (eth_decoded (p_tags p) w) (net_len (p_net p) + p_plen p).
Proof.
  intros Hok Hr. destruct (window_l3 w p Hok Hr) as (E1 & E2 & _ & _).
  assert (0 <= taglen (p_tags p)) by (unfold taglen; lia). pose proof (plen_nonneg p). pose proof (net_len_pos p).
  destruct (room_l2 w p Hok Hr) as (? & ? & ?). unfold room. rewrite E1, E2. unfold l2_len, ETH_HEADER_LEN in *. lia.
Qed.

Section decoding.
Context (fuel : nat) (mem : gmap Z Z) (hl : Z) (w : sf_wdata_t) (p : packet).
Hypothesis Hok : packet_ok p.
Hypothesis Hh : holds mem (sf_wqe_get_current w) (encode p).
Hypothesis Hroom : room w (Z.of_nat (length (encode p))).
Hypothesis Hcnt : ip_wdata_cnt w = 0.
Hypothesis Hfuel : (length (p_tags p) + length (net_exts (p_net p)) < fuel)%nat.

Let w1 := eth_decoded (p_tags p) w.

Lemma encode_parts :
  holds mem (sf_wqe_get_current w) (eth_bytes (p_macs p) (p_tags p) (net_type (p_net p))) /\
  holds mem (sf_wqe_get_current w1) (net_bytes (p_net p) (tr_proto (p_tr p)) (p_plen p)) /\
  holds mem (sf_wqe_get_current w1 + net_len (p_net p)) (p_rest p).
Proof.
  pose proof Hh as H. unfold encode in H. rewrite !holds_app, eth_bytes_length, (net_bytes_length p Hok) in H by apply Hok.
  destruct (window_l3 w p Hok Hroom) as (_ & _ & E & _). unfold w1. by rewrite E.
Qed.

Lemma eth_step : eth_input_one fuel mem w = Some (w1, sf_eth_get_next_index (net_type (p_net p))).
Proof.
  destruct Hok as (Hm & Ht & _). pose proof (plen_nonneg p). pose proof (net_len_pos p).
  apply eth_input_tags with (p_macs p); [done|apply encode_parts| | |done|lia].
  - destruct (p_net p); split; vm_compute; intuition congruence.
  - destruct (room_l2 w p Hok Hroom) as (? & ? & ?). unfold room, l2_len in *. lia.
Qed.

(** The transport decoder sees the bytes after the IP header. *)
Lemma l4_ready i : net_frag (p_net p) = false ->
  let w2 := ip_advance false (net_len (p_net p)) i w1 in
  holds mem (sf_wqe_get_current w2) (tr_bytes (p_tr p) ++ p_data p) /\ tr_len (p_tr p) <= current_length w2.
Proof.
  intros _ w2. pose proof (plen_nonneg p). pose proof (net_len_pos p). pose proof (tr_len_le_plen p Hok).
  destruct (ip_advance_window (net_len (p_net p)) i w1 _ (room_l3 w p Hok Hroom)) as (E1 & E2 & _); [lia..|].
  unfold w2. rewrite E1, E2. split; [apply encode_parts|].
  destruct (room_l3 w p Hok Hroom) as (_ & _ & Hl). fold w1 in Hl. lia.
Qed.

Lemma decode_encode_aux : decode fuel mem hl w = Some (decoded p w, p_dest p).
Proof.
  pose proof (plen_nonneg p) as Hp0. pose proof (net_len_pos p) as Hn20. pose proof l4_ready as Hl4.
  destruct encode_parts as (_ & Hnet & _). pose proof (room_l3 w p Hok Hroom) as (Hd & Hd2 & Hlen & Hl16).
  fold w1 in Hd, Hd2, Hlen, Hl16. assert (Hc : ip_wdata_cnt w1 < MAX_IP_WDATA)
    by (destruct (window_l3 w p Hok Hroom) as (_ & _ & _ & Ec); unfold w1; rewrite Ec, Hcnt; done).
  destruct Hok as (Hm & Htg & Htr & Hn & Hq).
  unfold decode, decoded, p_dest. rewrite eth_step. cbn [obind]. fold w1.
  destruct (p_net p) as [h|h]; cbn [net_type net_frag net_len net_bytes net_ok net_found net_exts] in *.
  - cbn [sf_eth_get_next_index]. change (sf_eth_get_next_index ETHER_IPV4_NET_ORDER) with ETH_NEXT_IP4_INPUT.
    rewrite decide_True by done.
    rewrite (ip4_input_found _ _ h (tr_proto (p_tr p)) (p_plen p) Hn Hnet Hc) by lia.
    destruct (h4_frag h); [done|].
    destruct (Hl4 (ip4_found h (tr_proto (p_tr p)) (p_plen p) w1) eq_refl) as [Hb Hle].
    destruct (decode_l4_found _ _ To_ip4_reass _ _ Htr (Hq eq_refl) Hb Hle) as [E _]. by rewrite E.
  - change (sf_eth_get_next_index ETHER_IPV6_NET_ORDER) with ETH_NEXT_IP6_INPUT.
    rewrite decide_False, decide_True by done. destruct Hn as [Hn Hpl].
    rewrite (ip6_input_found _ _ _ _ h (tr_proto (p_tr p)) (p_plen p) Hn Hnet) by lia. cbn [obind].
    destruct (h6_frag h); [done|].
    destruct (Hl4 (ip6_found h (tr_proto (p_tr p)) (p_plen p) w1) eq_refl) as [Hb Hle].
    destruct (decode_l4_found _ _ To_ip6_reass _ _ Htr (Hq eq_refl) Hb Hle) as [_ E]. cbn [b2z]. by rewrite E.
Qed.
End decoding.

(** What the record says of the packet after the decoders. *)
Record describes (p : packet) (w w' : sf_wdata_t) : Prop := {
  de_data : current_data w' = current_data w + l2_len p +
              (if net_frag (p_net p) then 0 else net_len (p_net p) + tr_len (p_tr p));
  de_length : current_length w' = current_length w - l2_len p -
              (if net_frag (p_net p) then 0 else net_len (p_net p) + tr_len (p_tr p));
  de_vlan : p_tags p <> [] ->
    vlan_wdata_cnt w' = 1 /\ vlan_wdatas w' = mk_vlanw (current_data w + ETH_HEADER_LEN) (Z.of_nat (length (p_tags p)));
  de_no_vlan : p_tags p = [] -> vlan_wdata_cnt w' = vlan_wdata_cnt w;
  de_ip_cnt : ip_wdata_cnt w' = 1;
  de_ip_offset : ip_offset (ip_wdata w') = current_data w + l2_len p;
  de_protocol : protocol (ip_wdata w') = tr_proto (p_tr p);
  de_header_len : header_len (ip_wdata w') = net_len (p_net p);
  de_payload_len : payload_len (ip_wdata w') = p_plen p;
  de_is_frag : is_frag (ip_wdata w') = b2z (net_frag (p_net p));
  de_addresses : match p_net p with
    | V4 h => version (ip_wdata w') = IP_VERSION_4 /\ addr_v4 (ip_sip (ip_wdata w')) = h4_src h /\
              addr_v4 (ip_dip (ip_wdata w')) = h4_dst h
    | V6 h => version (ip_wdata w') = IP_VERSION_6 /\ ip_sip (ip_wdata w') = h6_src h /\ ip_dip (ip_wdata w') = h6_dst h
    end;
  de_l4 : match p_tr p, net_frag (p_net p) with
    | Udp s d _, false | Tcp s d _ _ _ _, false =>
        l4_wdata_cnt w' = 1 /\ arg_to_next w' = s + 2 ^ 16 * d /\
        l4_wdata w' = mk_l4w (current_data w + l2_len p + net_len (p_net p)) s d (tr_len (p_tr p))
    | _, _ => l4_wdata_cnt w' = l4_wdata_cnt w /\ l4_wdata w' = l4_wdata w /\ arg_to_next w' = arg_to_next w
    end;
  de_type : packet_type w' = packet_type w
}.

Lemma addr_v4_set v a : 0 <= v < 2 ^ 32 -> addr_v4 (set_addr_v4 v a) = v.
Proof.
  intros Hv. unfold addr_v4, set_addr_v4. cbn [addr_v6_upper].
  rewrite (lor_shift 32) by (done || lia). unfold wrap. rewrite Z.add_comm, Z_mod_plus_full. by apply Z.mod_small.
Qed.

Lemma ip_found_fields n proto plen w : net_ok n proto plen -> 0 <= current_data w < 2 ^ 16 ->
  0 <= net_len n < 2 ^ 16 -> 0 <= plen < 2 ^ 16 ->
  let i := net_found n proto plen w in
  ip_offset i = current_data w /\ protocol i = proto /\ header_len i = net_len n /\ payload_len i = plen /\
  is_frag i = b2z (net_frag n) /\
  match n with
  | V4 h => version i = IP_VERSION_4 /\ addr_v4 (ip_sip i) = h4_src h /\ addr_v4 (ip_dip i) = h4_dst h
  | V6 h => version i = IP_VERSION_6 /\ ip_sip i = h6_src h /\ ip_dip i = h6_dst h
  end.
Proof.
  intros Hok Hd Hn Hp. destruct n as [h|h]; cbn [net_ok net_len net_found net_frag] in *;
    cbn; rewrite ?(wrap_small 16) by done; split_and!; try done; apply addr_v4_set, Hok.
Qed.

Lemma l4_step_window t w n : tr_ok t -> room w (tr_len t + n) -> 0 <= n ->
  let w' := l4_step t w in
  current_data w' = current_data w + tr_len t /\ current_length w' = current_length w - tr_len t /\
  ip_wdata w' = ip_wdata w /\ ip_wdata_cnt w' = ip_wdata_cnt w /\ vlan_wdatas w' = vlan_wdatas w /\
  vlan_wdata_cnt w' = vlan_wdata_cnt w /\ packet_type w' = packet_type w /\
  match t with
  | Udp s d _ | Tcp s d _ _ _ _ => l4_wdata_cnt w' = 1 /\ arg_to_next w' = s + 2 ^ 16 * d /\
      l4_wdata w' = mk_l4w (current_data w) s d (tr_len t)
  | Opaque _ => l4_wdata_cnt w' = l4_wdata_cnt w /\ l4_wdata w' = l4_wdata w /\ arg_to_next w' = arg_to_next w
  end.
Proof.
  intros Ht Hr Hn.
  assert (Htl : 0 <= tr_len t) by (rewrite <- (tr_bytes_length t Ht); lia).
  destruct (room_advance w _ (tr_len t) Hr) as (E1 & E2 & _ & _); [lia|]. destruct Hr as (? & ? & ?).
  destruct t as [s d rest|s d seqs words low rest|q]; cbn [l4_step tr_len tr_ok] in *.
  - destruct Ht as (Hs & Hdd & _). unfold l4_found. split_and!; try done; cbn; rewrite ?wrap_small by lia; done.
  - destruct Ht as (Hs & Hdd & _). unfold l4_found. split_and!; try done; cbn; rewrite ?wrap_small by lia; done.
  - split_and!; try done; lia.
Qed.

Lemma eth_decoded_keeps tags w :
  ip_wdata_cnt (eth_decoded tags w) = ip_wdata_cnt w /\ l4_wdata_cnt (eth_decoded tags w) = l4_wdata_cnt w /\
  l4_wdata (eth_decoded tags w) = l4_wdata w /\ arg_to_next (eth_decoded tags w) = arg_to_next w /\
  packet_type (eth_decoded tags w) = packet_type w.
Proof. by destruct tags. Qed.

Lemma ip_advance_fields frag hlen i w : ip_wdata_cnt w = 0 ->
  let w' := ip_advance frag hlen i w in
  ip_wdata w' = i /\ ip_wdata_cnt w' = 1 /\ vlan_wdata_cnt w' = vlan_wdata_cnt w /\ vlan_wdatas w' = vlan_wdatas w /\
  l4_wdata_cnt w' = l4_wdata_cnt w /\ l4_wdata w' = l4_wdata w /\ arg_to_next w' = arg_to_next w /\
  packet_type w' = packet_type w.
Proof. intros Hc. unfold ip_advance. destruct frag; cbn; rewrite Hc; done. Qed.

Section describing.
Context (w : sf_wdata_t) (p : packet).
Hypothesis Hok : packet_ok p.
Hypothesis Hroom : room w (Z.of_nat (length (encode p))).
Hypothesis Hcnt : ip_wdata_cnt w = 0.

Let w1 := eth_decoded (p_tags p) w.
Let i := net_found (p_net p) (tr_proto (p_tr p)) (p_plen p) w1.
Let w2 := ip_advance (net_frag (p_net p)) (net_len (p_net p)) i w1.

(** The record up to the IP header. *)
Lemma l3_described :
  current_data w1 = current_data w + l2_len p /\ current_length w1 = current_length w - l2_len p /\
  ip_wdata_cnt w1 = 0 /\ room w1 (net_len (p_net p) + p_plen p) /\ 0 <= current_data w1 < 2 ^ 15.
Proof.
  pose proof (room_l3 w p Hok Hroom) as Hr3. destruct (window_l3 w p Hok Hroom) as (E1 & E2 & _ & E4).
  pose proof (net_len_pos p). pose proof (plen_nonneg p).
  fold w1 in E1, E2, E4, Hr3. split_and!; try done; [by rewrite E4|apply Hr3|]. destruct Hr3 as (? & ? & ?). lia.
Qed.

Lemma vlan_described :
  (p_tags p <> [] -> vlan_wdata_cnt w1 = 1 /\
     vlan_wdatas w1 = mk_vlanw (current_data w + ETH_HEADER_LEN) (Z.of_nat (length (p_tags p)))) /\
  (p_tags p = [] -> vlan_wdata_cnt w1 = vlan_wdata_cnt w).
Proof.
  destruct Hok as (_ & Htg & _). destruct (room_l2 w p Hok Hroom) as (? & ? & ?).
  pose proof (net_len_pos p). pose proof (plen_nonneg p). unfold l2_len in *.
  unfold w1, eth_decoded. destruct (p_tags p) as [|g tags] eqn:Et; split; intros Hn; try done. split; [done|].
  assert (0 <= taglen (g :: tags)) by (unfold taglen; lia). unfold ETH_HEADER_LEN in *.
  unfold update_vlan_wdata. cbn [vlan_wdatas with_layers]. rewrite (wrap_small 16), (wrap_small 8) by lia. done.
Qed.

Lemma ip_described :
  ip_offset i = current_data w + l2_len p /\ protocol i = tr_proto (p_tr p) /\ header_len i = net_len (p_net p) /\
  payload_len i = p_plen p /\ is_frag i = b2z (net_frag (p_net p)) /\
  match p_net p with
  | V4 h => version i = IP_VERSION_4 /\ addr_v4 (ip_sip i) = h4_src h /\ addr_v4 (ip_dip i) = h4_dst h
  | V6 h => version i = IP_VERSION_6 /\ ip_sip i = h6_src h /\ ip_dip i = h6_dst h
  end.
Proof.
  destruct l3_described as (E1 & _ & _ & (Hd & Hd2 & Hl & Hl2) & _). rewrite <- E1.
  pose proof (net_len_pos p). pose proof (plen_nonneg p). destruct Hok as (_ & _ & _ & Hn & _).
  apply ip_found_fields; try done; lia.
Qed.

Lemma decoded_describes : describes p w (decoded p w).
Proof.
  destruct l3_described as (Ed & El & Ec & Hr & Hdr). destruct vlan_described as (Hv & Hv0).
  destruct ip_described as (Ei1 & Ei2 & Ei3 & Ei4 & Ei5 & Ei6).
  destruct (eth_decoded_keeps (p_tags p) w) as (_ & K2 & K3 & K4 & K5). fold w1 in K2, K3, K4, K5.
  destruct (ip_advance_fields (net_frag (p_net p)) (net_len (p_net p)) i w1 Ec) as (A1 & A2 & A3 & A4 & A5 & A6 & A7 & A8).
  fold w2 in A1, A2, A3, A4, A5, A6, A7, A8.
  pose proof (net_len_pos p). pose proof (plen_nonneg p). pose proof (tr_len_le_plen p Hok) as Htl.
  unfold decoded. fold w1 i w2. destruct (net_frag (p_net p)) eqn:Ef.
  - assert (B1 : current_data w2 = current_data w1) by done. assert (B2 : current_length w2 = current_length w1) by done.
    split; rewrite ?A1, ?A2, ?A3, ?A4, ?A5, ?A6, ?A7, ?A8, ?B1, ?B2, ?Ef, ?Ed, ?El, ?Z.add_0_r, ?Z.sub_0_r, ?K2, ?K3, ?K4; try done.
    by destruct (p_tr p).
  - destruct (ip_advance_window (net_len (p_net p)) i w1 _ Hr) as (_ & B2 & B1); [lia..|].
    fold w2 in B1, B2. assert (Hr2 : room w2 (tr_len (p_tr p) + (p_plen p - tr_len (p_tr p)))).
    { destruct Hr as (? & ? & ?). unfold room. rewrite B1, B2. lia. }
    destruct (l4_step_window (p_tr p) w2 _ (proj1 (proj2 (proj2 Hok))) Hr2) as (C1 & C2 & C3 & C4 & C5 & C6 & C7 & C8); [lia|].
    split; rewrite ?C1, ?C2, ?C3, ?C4, ?C5, ?C6, ?C7, ?A1, ?A2, ?A3, ?A4, ?A8, ?B1, ?B2, ?Ef, ?Ed, ?El, ?K5; try done; try lia.
    destruct (p_tr p); rewrite ?A5, ?A6, ?A7, ?K2, ?K3, ?K4 in C8; [by rewrite B1, Ed in C8..|done].
Qed.
End describing.

(** C8: decoding undoes encoding.  For every well-formed packet (any number of
    VLAN tags up to 255, an IPv4 header with options or an IPv6 header with a
    chain of extension headers, whole or a fragment, a UDP or TCP header or the
    bytes of another protocol), if the bytes at the current position are those of
    the packet, the decoders stop with the record that describes it: position,
    tags, addresses, protocol, lengths, fragment flag and ports; the packet goes
    to the reassembly of its version when it is a fragment, to the ACL node
    otherwise, and is not marked as an error. *)
Theorem decode_encode fuel mem hl w p :
  packet_ok p -> holds mem (sf_wqe_get_current w) (encode p) -> room w (Z.of_nat (length (encode p))) ->
  ip_wdata_cnt w = 0 -> (length (p_tags p) + length (net_exts (p_net p)) < fuel)%nat ->
  exists w', decode fuel mem hl w = Some (w', p_dest p) /\ describes p w w'.
Proof.
  intros Hok Hh Hr Hc Hf. exists (decoded p w). split; [by apply decode_encode_aux|by apply decoded_describes].
Qed.

(** ** A concrete packet *)

Lemma holds_poke l : forall mem p, holds (poke mem p l) p l.
Proof.
  intros mem p i x. apply poke_at.
Qed.

(** Two VLAN tags, IPv6 with a hop-by-hop header and a skipped fragment header,
    UDP, three bytes of data. *)
Definition demo_packet : packet :=
  mk_packet (repeat 2 12) [(0, 7, true); (0, 9, false)]
    (V6 (mk_v6 [96; 0; 0; 0] 64 (mk_addr 1 2) (mk_addr 3 4)
           [mk_ext IP_PRO_HOPOPT 0 [1; 4; 0; 0; 0; 0]; mk_ext IP_PRO_IPV6_FRAG 0 [0; 0; 9; 9; 9; 9]] None))
    (Udp 53 4660 [0; 0; 0; 0]) [10; 11; 12].

Definition no_ip : ip_wdata_t := mk_ipw 0 0 0 0 0 (mk_addr 0 0) (mk_addr 0 0) 0 0.
Definition demo_record (len : Z) : sf_wdata_t :=
  mk_wdata 0 len 1 0 0 0 4096 0 0 0 0 0 0 (mk_vlanw 0 0) 0 no_ip (mk_l4w 0 0 0 0).

Lemma demo_exts_ok :
  Forall ext_ok [mk_ext IP_PRO_HOPOPT 0 [1; 4; 0; 0; 0; 0]; mk_ext IP_PRO_IPV6_FRAG 0 [0; 0; 9; 9; 9; 9]].
Proof.
  apply Forall_cons; split; [|apply Forall_singleton]; (split; [cbn; lia|]).
  - left. split; [by left|done].
  - right. right. split; [done|]. exists 0, 9, 9, 9, 9. repeat split; lia.
Qed.

Lemma demo_packet_ok : packet_ok demo_packet.
Proof.
  split; [done|]. split; [cbn; lia|]. split; [by repeat split|]. split; [|done]. split; [|by vm_compute].
  split; [done|]. split; [by repeat split|]. split; [by repeat split|]. split; [apply demo_exts_ok|].
  by repeat split.
Qed.

Lemma decode_encode_witness : exists w',
  decode 6 (poke empty 4096 (encode demo_packet)) 0 (demo_record 90) = Some (w', To_acl_entry) /\
  describes demo_packet (demo_record 90) w'.
Proof.
  refine (decode_encode 6 _ 0 (demo_record 90) demo_packet demo_packet_ok _ _ _ _).
  - apply (holds_poke _ empty 4096).
  - repeat split; vm_compute; congruence.
  - reflexivity.
  - cbn. lia.
Defined.
