(* ===== verification/DecodeBounds.v ===== *)
(** * The decoders terminate inside the packet

    Any bytes whatever: the loops over the VLAN tags and over the extension
    headers end, every decoder returns, and the position it leaves is inside the
    packet. *)
From S2P Require Import Prelude Wdata Decode DecodeSpec DecodeRound.

Implicit Types (w : sf_wdata_t) (mem : gmap Z Z) (l : list Z).

Definition bytes_ok mem : Prop := forall a, 0 <= mem.[a] < 256.

(** The packet of the record ends at [e]. *)
Definition fits w (e : Z) : Prop :=
  0 <= current_data w /\ 0 <= current_length w /\ current_data w + current_length w = e /\ e < 2 ^ 15.

Lemma fits_advance w e k : fits w e -> 0 <= k <= current_length w ->
  fits (sf_wqe_advance k w) e /\ current_length (sf_wqe_advance k w) = current_length w - k /\
  current_data (sf_wqe_advance k w) = current_data w + k.
Proof.
  intros (H1 & H2 & H3 & H4) Hk. unfold fits. cbn. rewrite i16_small, wrap_small by lia. lia.
Qed.

(** ** The loop over the tags *)

Lemma vlan_loop_total mem off e fuel : forall w cnt,
  fits w e -> current_length w < 4 * Z.of_nat fuel ->
  exists w' t, vlan_loop fuel mem off cnt w = Some (w', t) /\ fits w' e /\ current_length w' <= current_length w.
Proof.
  induction fuel as [|fuel IH]; intros w cnt Hw Hf; [destruct Hw; lia|]. cbn [vlan_loop].
  destruct (decide (current_length w <= VLAN_HEADER_LEN)) as [|Hl]; [by eauto using Z.le_refl|].
  unfold VLAN_HEADER_LEN in *. destruct (fits_advance w e 4 Hw) as (Hw1 & Hlen & _); [lia|].
  destruct (is_vlan_type _).
  - destruct (IH (sf_wqe_advance 4 w) (u8 (cnt + 1)) Hw1) as (w' & t & E & Hw' & Hle); [lia|].
    exists w', t. split_and!; [done|done|lia].
  - eexists _, _. split; [reflexivity|]. destruct (decide _); (split; [done|]); cbn [update_vlan_wdata]; [|lia].
    change (current_length (sf_wqe_advance 4 w) <= current_length w). lia.
Qed.

Lemma eth_input_total fuel mem w e :
  fits w e -> ETH_HEADER_LEN <= current_length w -> current_length w < 4 * Z.of_nat fuel ->
  exists w' t, eth_input_one fuel mem w = Some (w', t) /\ fits w' e /\ current_length w' <= current_length w - ETH_HEADER_LEN.
Proof.
  intros Hw Hl Hf. unfold ETH_HEADER_LEN in *. destruct (fits_advance w e 14 Hw) as (Hw1 & Hlen & _); [lia|].
  unfold eth_input_one, parse_eth_hdr, ETH_HEADER_LEN. destruct (is_vlan_type _).
  - destruct (vlan_loop_total mem (u16 (current_data (sf_wqe_advance 14 w))) e fuel (sf_wqe_advance 14 w) 0 Hw1)
      as (w' & t & E & Hw' & Hle); [lia|].
    unfold parse_vlan_hdr_only. rewrite E. cbn [obind]. eexists _, _. split_and!; [done|done|lia].
  - cbn [obind]. eexists _, _. split_and!; [done|done|lia].
Qed.

(** ** The loop over the extension headers *)

Lemma ext_loop_total mem fuel : bytes_ok mem -> forall pre left_len hdr_len frag protocol,
  0 <= left_len < 8 * Z.of_nat fuel -> 0 <= hdr_len -> hdr_len + left_len < 2 ^ 16 -> 0 <= frag ->
  exists h f q, ip6_ext_loop fuel mem pre left_len hdr_len frag protocol = Some (h, f, q) /\
    hdr_len <= h <= hdr_len + left_len.
Proof.
  intros Hb. induction fuel as [|fuel IH]; intros pre left_len hdr_len frag protocol Hf H0 Hs Hfr; [lia|].
  cbn [ip6_ext_loop]. destruct (decide (protocol = IP_PRO_IPV6_FRAG)).
  - unfold IPV6_FRAG_HEADER_LEN. destruct (decide (left_len <= 8)).
    { eexists _, _, _. split; [done|lia]. }
    rewrite !wrap_small by lia. destruct (_ || _); [eexists _, _, _; split; [done|lia]|].
    destruct (IH (pre + 8) (left_len - 8) (hdr_len + 8) frag mem.[pre]) as (h & f & q & E & Hh); [lia..|].
    exists h, f, q. split; [done|lia].
  - cbv zeta. destruct (bool_decide (protocol = IP_PRO_AH) || _ || _ || _); [|eexists _, _, _; split; [done|lia]].
    pose proof (Hb (pre + 1)) as Hx. rewrite !Z.shiftl_mul_pow2 by lia.
    set (x := if bool_decide (protocol = IP_PRO_AH) then _ else _).
    assert (Hx8 : 8 <= x < 2 ^ 16) by (unfold x; destruct (bool_decide _); rewrite wrap_small by lia; lia).
    clearbody x. destruct (decide (left_len <= x)); [eexists _, _, _; split; [done|lia]|].
    rewrite !wrap_small by lia.
    destruct (IH (pre + x) (left_len - x) (hdr_len + x) frag mem.[pre]) as (h & f & q & E & Hh); [lia..|].
    exists h, f, q. split; [done|lia].
Qed.

Lemma parse_ipv6_total fuel mem hl w :
  bytes_ok mem -> 0 <= current_length w < 2 ^ 16 -> current_length w < 8 * Z.of_nat fuel ->
  exists w' h f q, parse_ipv6_hdr fuel mem hl w = Some (w', h, f, q) /\
    (w' = w \/ w' = set_packet_type PACKET_TYPE_ERROR w) /\ (q <> IP_PRO_INVALID -> w' = w /\ 0 <= h <= current_length w).
Proof.
  intros Hb Hl Hf. unfold parse_ipv6_hdr, IPV6_HEADER_LEN. destruct (decide (current_length w < 40)).
  { eexists _, _, _, _. split; [done|]. split; [by right|done]. }
  rewrite (wrap_small 16) by lia.
  destruct (ext_loop_total mem fuel Hb (sf_wqe_get_current w + 40) (current_length w - 40) 40 0
              (ip6_next_header mem (sf_wqe_get_current w))) as (h & f & q & E & Hh); [lia..|].
  rewrite E. cbn [obind]. eexists _, _, _, _. split; [done|].
  destruct (decide (q = IP_PRO_INVALID)); (split; [by auto|]); intros Hq; [done|]. split; [done|lia].
Qed.

(** ** The decoders of the IP and transport headers *)

Lemma ip4_input_fits mem w e : bytes_ok mem -> fits w e ->
  fits (fst (ip4_input_one mem w)) e /\ current_length (fst (ip4_input_one mem w)) <= current_length w.
Proof.
  intros Hb Hw. unfold ip4_input_one, ip4_decode.
  destruct (decide (MAX_IP_WDATA <= _)); [done|].
  destruct (decide (current_length w < _)) as [|Hl]; [done|].
  assert (Hh : 0 <= ip4_hdr_len mem (sf_wqe_get_current w)).
  { unfold ip4_hdr_len. apply Z.shiftl_nonneg, Z.land_nonneg. by right. }
  destruct (fits_advance w e (ip4_hdr_len mem (sf_wqe_get_current w)) Hw) as (Hw' & E & _); [lia|].
  destruct (decide (is_frag _ = 0)); cbn [fst]; [|done]. split; [done|].
  change (current_length (sf_wqe_advance (ip4_hdr_len mem (sf_wqe_get_current w)) w) <= current_length w). lia.
Qed.

Lemma ip6_input_fits fuel mem hl w e : bytes_ok mem -> fits w e -> current_length w < 8 * Z.of_nat fuel ->
  exists w' n, ip6_input_one fuel mem hl w = Some (w', n) /\ fits w' e /\ current_length w' <= current_length w.
Proof.
  intros Hb Hw Hf. pose proof Hw as (? & ? & ? & ?).
  destruct (parse_ipv6_total fuel mem hl w Hb) as (w1 & h & f & q & E & Hw1 & Hq); [lia..|].
  unfold ip6_input_one. rewrite E. cbn [obind]. eexists _, _. split; [by rewrite <- surjective_pairing|].
  assert (Hf1 : fits w1 e /\ current_length w1 = current_length w) by by destruct Hw1 as [-> | ->].
  destruct Hf1 as [Hf1 Hl1]. destruct (decide (MAX_IP_WDATA <= _)); [by rewrite <- Hl1|].
  destruct (decide (q = IP_PRO_INVALID)) as [|Hne]; [by rewrite <- Hl1|].
  destruct (Hq Hne) as [-> Hh]. unfold ip6_accept. cbn [fst].
  destruct (decide (f = 0)); [|done].
  destruct (fits_advance w e h Hw Hh) as (Hw' & El & _). split; [done|].
  change (current_length (sf_wqe_advance h w) <= current_length w). lia.
Qed.

Lemma tcp_input_fits mem w e : bytes_ok mem -> fits w e ->
  fits (fst (tcp_input_one mem w)) e /\ current_length (fst (tcp_input_one mem w)) <= current_length w.
Proof.
  intros Hb Hw. unfold tcp_input_one, sf_tcp_decode. destruct (decide _) as [|Hl]; [done|].
  assert (Hh : 0 <= tcp_hdr_len mem (sf_wqe_get_current w)) by (apply wrap_range; lia).
  destruct (fits_advance w e (tcp_hdr_len mem (sf_wqe_get_current w)) Hw) as (Hw' & E & _); [lia|].
  split; [done|]. cbn [fst].
  change (current_length (sf_wqe_advance (tcp_hdr_len mem (sf_wqe_get_current w)) w) <= current_length w). lia.
Qed.

Lemma udp_input_fits mem w e : fits w e ->
  fits (fst (udp_input_one mem w)) e /\ current_length (fst (udp_input_one mem w)) <= current_length w.
Proof.
  intros Hw. unfold udp_input_one. destruct (decide _) as [Hl|]; [|done]. unfold UDP_HEADER_LEN in *.
  destruct (fits_advance w e 8 Hw) as (Hw' & E & _); [lia|]. split; [done|]. cbn [fst].
  change (current_length (sf_wqe_advance 8 w) <= current_length w). lia.
Qed.

Lemma decode_l4_fits mem reass r e : bytes_ok mem -> fits (fst r) e ->
  fits (fst (decode_l4 mem reass r)) e /\ current_length (fst (decode_l4 mem reass r)) <= current_length (fst r).
Proof.
  intros Hb Hw. destruct r as [w next]. cbn [fst] in Hw. unfold decode_l4.
  destruct (decide _); [by apply udp_input_fits|]. destruct (decide _); [by apply tcp_input_fits|].
  by destruct (decide _).
Qed.

(** C16: on any bytes behind an Ethernet header the decoders terminate and stay inside
    the packet.  A record whose packet has at least the 14 bytes of that header and ends
    below byte 2^15 of its buffer is decoded within a fuel of a quarter of its length, and the record left behind
    describes a suffix of what follows that header, with the same end. *)
Theorem decode_terminates_inside fuel mem hl w e :
  bytes_ok mem -> fits w e -> ETH_HEADER_LEN <= current_length w -> current_length w < 4 * Z.of_nat fuel ->
  exists w' d, decode fuel mem hl w = Some (w', d) /\
    0 <= current_data w' /\ 0 <= current_length w' <= current_length w - ETH_HEADER_LEN /\
    current_data w' + current_length w' = current_data w + current_length w.
Proof.
  intros Hb Hw Hl Hf. destruct (eth_input_total fuel mem w e Hw Hl Hf) as (w1 & t & E & Hw1 & Hle).
  pose proof Hw as (_ & _ & He & _). unfold decode. rewrite E. cbn [obind].
  assert (Hend : forall w', fits w' e /\ current_length w' <= current_length w1 -> 0 <= current_data w' /\
    0 <= current_length w' <= current_length w - ETH_HEADER_LEN /\
    current_data w' + current_length w' = current_data w + current_length w).
  { intros w' [(H1 & H2 & H3 & H4) H5]. lia. }
  destruct (decide (t = ETH_NEXT_IP4_INPUT)); [|destruct (decide (t = ETH_NEXT_IP6_INPUT))].
  - destruct (ip4_input_fits mem w1 e Hb Hw1) as [Hw2 Hl2].
    destruct (decode_l4_fits mem To_ip4_reass _ e Hb Hw2) as [Hw3 Hl3].
    eexists _, _. split; [by rewrite <- surjective_pairing|]. apply Hend. split; [done|lia].
  - destruct (ip6_input_fits fuel mem hl w1 e Hb Hw1) as (w2 & nx & E2 & Hw2 & Hl2).
    { destruct Hw1 as (? & ? & ?). unfold ETH_HEADER_LEN in *. lia. }
    rewrite E2. cbn [obind]. destruct (decode_l4_fits mem To_ip6_reass (w2, nx) e Hb Hw2) as [Hw3 Hl3].
    cbn [fst] in Hl3. eexists _, _. split; [by rewrite <- surjective_pairing|]. apply Hend. split; [done|lia].
  - eexists _, _. split; [done|]. apply Hend. split; [done|lia].
Qed.

(** A record of 20 bytes, all zero. *)
Lemma decode_terminates_inside_witness : exists w' d,
  decode 6 empty 0 (demo_record 20) = Some (w', d) /\
    0 <= current_data w' /\ 0 <= current_length w' <= 6 /\ current_data w' + current_length w' = 20.
Proof.
  refine (decode_terminates_inside 6 empty 0 (demo_record 20) 20 _ _ _ _).
  - intros a. rewrite aget_empty. unfold zeroed, zeroed_Z. lia.
  - repeat split; vm_compute; congruence.
  - cbn. unfold ETH_HEADER_LEN. lia.
  - cbn. lia.
Defined.
