(* ===== verification/DecodeLoop.v ===== *)
(** * The nodes of the decoders

    The bodies for one packet and for two packets, whose steps are interleaved, and
    the nodes over a frame. *)
From S2P Require Import Prelude FrameLoop Wdata Decode DecodeSpec DecodeRound.

Implicit Types (mem : gmap Z Z).

Abbreviation wdatas := (gmap Z sf_wdata_t).
Implicit Types (st : wdatas).

(** ** One packet and two packets *)

Definition on_buffer (f : sf_wdata_t -> option (sf_wdata_t * Z)) st (b : Z) : option (wdatas * Z) :=
  let? (w, next) := f st.[b] in Some (st.[b <- w], next).

(** [sf_eth_input_node]: both positions move before either packet's tags are read. *)
Definition eth_two (fuel : nat) mem st (b0 b1 : Z) : option (wdatas * Z * Z) :=
  let p0 := sf_wqe_get_current st.[b0] in
  let p1 := sf_wqe_get_current st.[b1] in
  let st := st.[b0 <- sf_wqe_advance ETH_HEADER_LEN st.[b0]] in
  let st := st.[b1 <- sf_wqe_advance ETH_HEADER_LEN st.[b1]] in
  let? (w0, eth_type0) := parse_eth_hdr fuel mem (le_at mem (p0 + 12) 2) st.[b0] in
  let st := st.[b0 <- w0] in
  let? (w1, eth_type1) := parse_eth_hdr fuel mem (le_at mem (p1 + 12) 2) st.[b1] in
  Some (st.[b1 <- w1], sf_eth_get_next_index eth_type0, sf_eth_get_next_index eth_type1).

(** [sf_ip4_input_node] decodes both before it looks the next nodes up. *)
Definition ip4_two mem st (b0 b1 : Z) : option (wdatas * Z * Z) :=
  let '(w0, next0, need_lookup_0) := ip4_decode mem st.[b0] 0 IP_NEXT_REASS in
  let st := st.[b0 <- w0] in
  let '(w1, next1, need_lookup_1) := ip4_decode mem st.[b1] 0 IP_NEXT_REASS in
  let st := st.[b1 <- w1] in
  Some (st, if decide (need_lookup_0 <> 0) then sf_ip4_get_next_index need_lookup_0 else next0,
            if decide (need_lookup_1 <> 0) then sf_ip4_get_next_index need_lookup_1 else next1).

(** [sf_ip6_input_node] parses both headers first; neither packet's number of
    layers is looked at. *)
Definition ip6_two (fuel : nat) mem (hdr_len : Z) st (b0 b1 : Z) : option (wdatas * Z * Z) :=
  let p0 := sf_wqe_get_current st.[b0] in
  let p1 := sf_wqe_get_current st.[b1] in
  let? (w0, hdr_len0, frag0, protocol0) := parse_ipv6_hdr fuel mem hdr_len st.[b0] in
  let st := st.[b0 <- w0] in
  let? (w1, hdr_len1, frag1, protocol1) := parse_ipv6_hdr fuel mem hdr_len st.[b1] in
  let st := st.[b1 <- w1] in
  let '(w0, next0) :=
    if decide (protocol0 <> IP_PRO_INVALID) then ip6_accept mem p0 hdr_len0 frag0 protocol0 st.[b0]
    else (st.[b0], IP_NEXT_ACL_ENTRY) in
  let st := st.[b0 <- w0] in
  let '(w1, next1) :=
    if decide (protocol1 <> IP_PRO_INVALID) then ip6_accept mem p1 hdr_len1 frag1 protocol1 st.[b1]
    else (st.[b1], IP_NEXT_ACL_ENTRY) in
  Some (st.[b1 <- w1], next0, next1).

Definition tcp_two mem st (b0 b1 : Z) : option (wdatas * Z * Z) :=
  let '(w0, next0) := sf_tcp_decode mem st.[b0] L4_NEXT_ACL_ENTRY in
  let st := st.[b0 <- w0] in
  let '(w1, next1) := sf_tcp_decode mem st.[b1] L4_NEXT_ACL_ENTRY in
  Some (st.[b1 <- w1], next0, next1).

Definition udp_two mem st (b0 b1 : Z) : option (wdatas * Z * Z) :=
  let '(w0, next0) := udp_input_one mem st.[b0] in
  let st := st.[b0 <- w0] in
  let '(w1, next1) := udp_input_one mem st.[b1] in
  Some (st.[b1 <- w1], next0, next1).

(** ** The five nodes *)

Definition sf_eth_input_node (fuel : nat) mem := frame_run (on_buffer (eth_input_one fuel mem)) (eth_two fuel mem).
Definition sf_ip4_input_node mem := frame_run (on_buffer (fun w => Some (ip4_input_one mem w))) (ip4_two mem).
Definition sf_ip6_input_node (fuel : nat) mem (hdr_len : Z) :=
  frame_run (on_buffer (ip6_input_one fuel mem hdr_len)) (ip6_two fuel mem hdr_len).
Definition sf_tcp_input_node mem := frame_run (on_buffer (fun w => Some (tcp_input_one mem w))) (tcp_two mem).
Definition sf_udp_input_node mem := frame_run (on_buffer (fun w => Some (udp_input_one mem w))) (udp_two mem).

(** ** Every run of a node is the reference *)

Lemma on_buffer_keeps f st b st' n b' : on_buffer f st b = Some (st', n) -> b' <> b -> st'.[b'] = st.[b'].
Proof.
  unfold on_buffer. destruct (f st.[b]) as [[w x]|]; cbn; [|done]. intros [= <- <-] Hne. by apply aget_aset_ne.
Qed.

Lemma node_run_iff f two (P : sf_wdata_t -> Prop) st from st' out :
  (forall st b0 b1, b0 <> b1 -> P st.[b0] -> P st.[b1] -> two st b0 b1 = two_steps (on_buffer f) st b0 b1) ->
  NoDup from -> Forall (fun b => P st.[b]) from ->
  frame_run (on_buffer f) two st from st' out <-> one_by_one (on_buffer f) st from = Some (st', out).
Proof.
  intros Htwo. apply (frame_run_iff _ _ (fun st b => P st.[b])); [done|].
  intros st1 b st2 n b' E Hne. by rewrite (on_buffer_keeps _ _ _ _ _ _ E Hne).
Qed.

Lemma aset_back (st : wdatas) b0 b1 x y z : b0 <> b1 -> st.[b0 <- x].[b1 <- y].[b0 <- z] = st.[b0 <- z].[b1 <- y].
Proof.
  intros Hne. unfold aset. rewrite (insert_insert_ne _ b0 b1) by done. by rewrite insert_insert_eq, insert_insert_ne.
Qed.

Lemma set_packet_type_idem v w : set_packet_type v (set_packet_type v w) = set_packet_type v w.
Proof.
  unfold set_packet_type, with_type. cbn. f_equal. by rewrite <- Z.lor_assoc, Z.lor_diag.
Qed.

(** The body of the loop for two packets, when both steps work on one packet
    each and leave the memory alone. *)
Lemma ip4_two_ok mem st b0 b1 : b0 <> b1 ->
  ip4_two mem st b0 b1 = two_steps (on_buffer (fun w => Some (ip4_input_one mem w))) st b0 b1.
Proof.
  intros Hne. unfold ip4_two, two_steps, on_buffer, ip4_input_one. cbn [obind].
  destruct (ip4_decode mem st.[b0] 0 IP_NEXT_REASS) as [[w0 n0] l0]. cbn [obind].
  by destruct (ip4_decode mem st.[b0 <- w0].[b1] 0 IP_NEXT_REASS) as [[w1 n1] l1].
Qed.

Lemma tcp_two_ok mem st b0 b1 : b0 <> b1 ->
  tcp_two mem st b0 b1 = two_steps (on_buffer (fun w => Some (tcp_input_one mem w))) st b0 b1.
Proof.
  intros Hne. unfold tcp_two, two_steps, on_buffer, tcp_input_one. cbn [obind].
  destruct (sf_tcp_decode mem st.[b0] L4_NEXT_ACL_ENTRY) as [w0 n0]. cbn [obind].
  by destruct (sf_tcp_decode mem st.[b0 <- w0].[b1] L4_NEXT_ACL_ENTRY) as [w1 n1].
Qed.

Lemma udp_two_ok mem st b0 b1 : b0 <> b1 ->
  udp_two mem st b0 b1 = two_steps (on_buffer (fun w => Some (udp_input_one mem w))) st b0 b1.
Proof.
  intros Hne. unfold udp_two, two_steps, on_buffer. cbn [obind].
  destruct (udp_input_one mem st.[b0]) as [w0 n0]. cbn [obind].
  by destruct (udp_input_one mem st.[b0 <- w0].[b1]) as [w1 n1].
Qed.

Lemma eth_two_ok fuel mem st b0 b1 : b0 <> b1 ->
  eth_two fuel mem st b0 b1 = two_steps (on_buffer (eth_input_one fuel mem)) st b0 b1.
Proof.
  intros Hne. unfold eth_two, two_steps, on_buffer, eth_input_one. cbv zeta.
  rewrite (aget_aset_ne _ b0 b1), (aget_aset_ne _ b1 b0), (aget_aset_eq _ b0) by done.
  destruct (parse_eth_hdr fuel mem _ (sf_wqe_advance ETH_HEADER_LEN st.[b0])) as [[w0 t0]|]; cbn [obind]; [|done].
  rewrite (aget_aset_ne _ b0 b1), aget_aset_eq, (aget_aset_ne _ b0 b1) by done.
  destruct (parse_eth_hdr fuel mem _ (sf_wqe_advance ETH_HEADER_LEN st.[b1])) as [[w1 t1]|]; cbn [obind]; [|done].
  by rewrite (aset_back st b0 b1), aset_aset.
Qed.

(** What the second path does with a packet, given that it has no layer yet. *)
Lemma ip6_input_split fuel mem hl w : ip_wdata_cnt w < MAX_IP_WDATA ->
  ip6_input_one fuel mem hl w =
  let? (w', h, f, q) := parse_ipv6_hdr fuel mem hl w in
  Some (if decide (q <> IP_PRO_INVALID) then ip6_accept mem (sf_wqe_get_current w) h f q w' else (w', IP_NEXT_ACL_ENTRY)).
Proof.
  intros Hc. unfold ip6_input_one, parse_ipv6_hdr. destruct (decide (current_length w < IPV6_HEADER_LEN)).
  { cbn [obind]. rewrite decide_False by (cbn; lia). rewrite decide_True by done.
    rewrite (decide_False (P := IP_PRO_INVALID <> IP_PRO_INVALID)) by (intros Hq; done). by rewrite set_packet_type_idem. }
  destruct (ip6_ext_loop _ _ _ _ _ _ _) as [[[h f] q]|]; cbn [obind]; [|done].
  destruct (decide (q = IP_PRO_INVALID)) as [Hq|Hq].
  - rewrite decide_False by (cbn; lia). rewrite (decide_False (P := q <> IP_PRO_INVALID)) by (intros Hn; done).
    by rewrite set_packet_type_idem.
  - rewrite decide_False by lia. by rewrite (decide_True (P := q <> IP_PRO_INVALID)).
Qed.

Lemma ip6_two_ok fuel mem hl st b0 b1 : b0 <> b1 ->
  ip_wdata_cnt st.[b0] < MAX_IP_WDATA -> ip_wdata_cnt st.[b1] < MAX_IP_WDATA ->
  ip6_two fuel mem hl st b0 b1 = two_steps (on_buffer (ip6_input_one fuel mem hl)) st b0 b1.
Proof.
  intros Hne H0 H1. unfold ip6_two, two_steps, on_buffer. rewrite (ip6_input_split _ _ _ _ H0).
  destruct (parse_ipv6_hdr fuel mem hl st.[b0]) as [[[[w0 h0] f0] q0]|]; cbn [obind]; [|done].
  destruct (parse_ipv6_hdr fuel mem hl st.[b1]) as [[[[w1 h1] f1] q1]|] eqn:E1; rewrite (aget_aset_ne _ b0 b1) by done.
  - rewrite E1. cbn [obind]. rewrite (aget_aset_ne _ b1 b0), (aget_aset_eq _ b0) by done.
    destruct (if decide (q0 <> IP_PRO_INVALID) then _ else _) as [v0 n0]. cbn [obind].
    rewrite (aget_aset_ne _ b0 b1), aget_aset_eq, (aget_aset_ne _ b0 b1), (ip6_input_split _ _ _ _ H1), E1 by done.
    cbn [obind]. destruct (if decide (q1 <> IP_PRO_INVALID) then _ else _) as [v1 n1]. cbn [obind].
    by rewrite (aset_back st b0 b1), aset_aset.
  - rewrite E1. cbn [obind]. destruct (if decide (q0 <> IP_PRO_INVALID) then _ else _) as [v0 n0]. cbn [obind].
    by rewrite (aget_aset_ne _ b0 b1), (ip6_input_split _ _ _ _ H1), E1.
Qed.

(** ** The five nodes *)

Inductive decoder := Eth_input | Ip4_input | Ip6_input | Tcp_input | Udp_input.

Definition decoder_one (d : decoder) (fuel : nat) mem (hdr_len : Z) (w : sf_wdata_t) : option (sf_wdata_t * Z) :=
  match d with
  | Eth_input => eth_input_one fuel mem w
  | Ip4_input => Some (ip4_input_one mem w)
  | Ip6_input => ip6_input_one fuel mem hdr_len w
  | Tcp_input => Some (tcp_input_one mem w)
  | Udp_input => Some (udp_input_one mem w)
  end.

Definition decoder_node (d : decoder) (fuel : nat) mem (hdr_len : Z) : wdatas -> list Z -> wdatas -> list (Z * Z) -> Prop :=
  match d with
  | Eth_input => sf_eth_input_node fuel mem
  | Ip4_input => sf_ip4_input_node mem
  | Ip6_input => sf_ip6_input_node fuel mem hdr_len
  | Tcp_input => sf_tcp_input_node mem
  | Udp_input => sf_udp_input_node mem
  end.

(** The pairing of packets is not observable.  Whatever room VPP leaves in the
    frames, hence whichever packets of a frame of distinct buffers a decoder node
    takes two at a time with interleaved steps, the records and the next nodes it
    leaves are those of its decoder run on the packets one after the other, in
    order; the IPv6 node needs packets without an IP layer, since its path for two
    packets does not count the layers. *)
Theorem frames_one_by_one d fuel mem hl st from st' out :
  NoDup from -> (d = Ip6_input -> Forall (fun b => ip_wdata_cnt st.[b] < MAX_IP_WDATA) from) ->
  decoder_node d fuel mem hl st from st' out <->
  one_by_one (on_buffer (decoder_one d fuel mem hl)) st from = Some (st', out).
Proof.
  intros Hnd Hc. assert (Hall : Forall (fun b => (fun _ : sf_wdata_t => True) st.[b]) from) by by apply Forall_true.
  destruct d; cbn [decoder_node decoder_one].
  - apply (node_run_iff _ _ (fun _ => True)); auto using eth_two_ok.
  - apply (node_run_iff _ _ (fun _ => True)); auto using ip4_two_ok.
  - apply (node_run_iff _ _ (fun w => ip_wdata_cnt w < MAX_IP_WDATA)); auto using ip6_two_ok.
  - apply (node_run_iff _ _ (fun _ => True)); auto using tcp_two_ok.
  - apply (node_run_iff _ _ (fun _ => True)); auto using udp_two_ok.
Qed.

Definition demo_frame (layers : Z) : wdatas :=
  list_to_map (map (fun b => (b, with_layers layers 0 0 (mk_vlanw 0 0) no_ip (mk_l4w 0 0 0 0) (demo_record 20))) [1; 2; 3; 4; 5]).

Lemma frames_one_by_one_witness : exists st' out,
  decoder_node Udp_input 0 empty 0 (demo_frame 1) [1; 2; 3; 4; 5] st' out /\ map snd out = [0; 0; 0; 0; 0].
Proof.
  eexists _, _. split.
  - refine (proj2 (frames_one_by_one Udp_input 0 empty 0 (demo_frame 1) [1; 2; 3; 4; 5] _ _ _ _) _).
    + apply (bool_decide_unpack _). vm_compute. exact I.
    + done.
    + reflexivity.
  - reflexivity.
Defined.

(** An IPv6 header without next header (59) and one byte of payload. *)
Definition demo_v6 : list Z := [96; 0; 0; 0; 0; 1; 59; 64] ++ repeat 0 33.
Definition demo_v6_frame (layers : Z) : wdatas :=
  list_to_map (map (fun b => (b, with_layers layers 0 0 (mk_vlanw 0 0) no_ip (mk_l4w 0 0 0 0) (demo_record 41))) [1; 2; 3; 4; 5]).

Definition demo_layers st : list (Z * Z) := map (fun b => (ip_wdata_cnt st.[b], current_data st.[b])) [1; 2; 3; 4; 5].
Definition demo_v6_mem : gmap Z Z := poke empty 4096 demo_v6.

Lemma demo_one_by_one : exists st out,
  one_by_one (on_buffer (ip6_input_one 1 demo_v6_mem 0)) (demo_v6_frame 1) [1; 2; 3; 4; 5] = Some (st, out) /\
  demo_layers st = repeat (1, 0) 5.
Proof.
  assert (H : match one_by_one (on_buffer (ip6_input_one 1 demo_v6_mem 0)) (demo_v6_frame 1) [1; 2; 3; 4; 5] with
              | Some (st, _) => demo_layers st = repeat (1, 0) 5 | None => False end) by (vm_compute; reflexivity).
  destruct (one_by_one _ _ _) as [[st out]|]; [by exists st, out|done].
Qed.

Lemma demo_pair_first : exists st1 n0 n1 st out,
  ip6_two 1 demo_v6_mem 0 (demo_v6_frame 1) 1 2 = Some (st1, n0, n1) /\
  one_by_one (on_buffer (ip6_input_one 1 demo_v6_mem 0)) st1 [3; 4; 5] = Some (st, out) /\
  demo_layers st = [(2, 40); (2, 40); (1, 0); (1, 0); (1, 0)].
Proof.
  assert (H : match ip6_two 1 demo_v6_mem 0 (demo_v6_frame 1) 1 2 with
              | Some (st1, _, _) => match one_by_one (on_buffer (ip6_input_one 1 demo_v6_mem 0)) st1 [3; 4; 5] with
                  | Some (st, _) => demo_layers st = [(2, 40); (2, 40); (1, 0); (1, 0); (1, 0)] | None => False end
              | None => False end) by (vm_compute; reflexivity).
  destruct (ip6_two _ _ _ _ _ _) as [[[st1 n0] n1]|]; [|done].
  destruct (one_by_one _ _ _) as [[st out]|] eqn:E; [by exists st1, n0, n1, st, out|done].
Qed.

(** The IPv6 node counts a second layer when it takes packets in pairs.  On
    the same frame of packets that already have an IP layer, two runs of the node
    end in different records: taken one by one the packets keep one layer and
    their position, the packets taken in a pair get a second one. *)
Theorem ip6_pairs_differ : exists st1 st2 out1 out2,
  sf_ip6_input_node 1 demo_v6_mem 0 (demo_v6_frame 1) [1; 2; 3; 4; 5] st1 out1 /\
  sf_ip6_input_node 1 demo_v6_mem 0 (demo_v6_frame 1) [1; 2; 3; 4; 5] st2 out2 /\
  demo_layers st1 = repeat (1, 0) 5 /\ demo_layers st2 = [(2, 40); (2, 40); (1, 0); (1, 0); (1, 0)].
Proof.
  destruct demo_one_by_one as (st1 & out1 & E1 & L1).
  destruct demo_pair_first as (sta & n0 & n1 & st2 & out2 & E0 & E2 & L2).
  exists st1, st2, out1, ((1, n0) :: (2, n1) :: out2). split_and!; [by apply one_by_one_run| |done|done].
  apply frame_two with sta; [cbn; lia|done|]. by apply one_by_one_run.
Qed.
