(* ===== verification/SfPool.v ===== *)
(** * The packet-object pool

    Models [src/sf_lib/sf_pool/sf_pool.h] and [sf_pool.c]: a global free list of
    nodes chained through their first word, and per worker a stack of nodes
    whose upper part is at the same time a chained list that is given back as a
    whole.  A node's link shares memory with the user's data, so its owner may
    overwrite it at any time.  Each call takes the global lock at most once, so a
    call is one step; the memory allocator's answer is an argument. *)
From S2P Require Import Prelude.

(** ** Data *)

Record sf_pool_per_thread_t := mk_local {
  current_stack_len : Z;
  stack_max_len : Z;
  free_list_len : Z;
  free_list_max_len : Z;
  local_pool_stack : gmap Z Z;
  local_free_list : Z;
  local_last_node : Z
}.

Record sf_pool_head_t := mk_head {
  init_size : Z;
  fill_free_size : Z;
  pool_mem_inc_max : Z;
  local_cache_size : Z;
  data_align_len : Z;
  pool_mem_inc_time : Z;
  free_cnt : Z;
  total_cnt : Z;
  freelist : Z
}.

(** The [next] words, the head and the workers' caches. *)
Record pool_state := mk_pool {
  heap : gmap Z Z;
  head : sf_pool_head_t;
  locals : list sf_pool_per_thread_t
}.

Definition set_counts (inc free total flist : Z) (h : sf_pool_head_t) : sf_pool_head_t :=
  mk_head (init_size h) (fill_free_size h) (pool_mem_inc_max h) (local_cache_size h)
    (data_align_len h) inc free total flist.

(** ** Filling and giving back *)

Definition align_data_len (data_len : Z) : Z :=
  let align_page_cnt := data_len / 64 in
  let align_page_cnt := u32 (align_page_cnt + (if decide (0 < data_len mod 64) then 1 else 0)) in
  if decide (data_len <= 64) then 64 else u32 (align_page_cnt * 64).

(** The [for] loop that splits new memory over the target array. *)
Fixpoint split_nodes (n : nat) (new_mem align i : Z) (target : gmap Z Z) : gmap Z Z :=
  match n with
  | O => target
  | S n => split_nodes n new_mem align (i + 1) target.[i <- new_mem + align * i]
  end.

(** [new_mem] is the allocator's answer, 0 when it has no memory. *)
Definition sf_pool_increase_nodes (h : sf_pool_head_t) (target : gmap Z Z)
    (needed_size new_mem : Z) : sf_pool_head_t * gmap Z Z * Z :=
  if decide (pool_mem_inc_time h < pool_mem_inc_max h) then
    if decide (new_mem <> 0) then
      (set_counts (u32 (pool_mem_inc_time h + 1)) (free_cnt h) (total_cnt h) (freelist h) h,
       split_nodes (Z.to_nat needed_size) new_mem (data_align_len h) 0 target, needed_size)
    else (h, target, 0)
  else (h, target, 0).

(** The [while] loop that takes nodes off the global list; [n] counts the
    places left in the target. *)
Fixpoint take_loop (n : nat) (hp : gmap Z Z) (flist : Z) (target : gmap Z Z) (index : Z) :
    Z * gmap Z Z * Z :=
  match n with
  | O => (flist, target, index)
  | S n => if decide (flist <> 0)
           then take_loop n hp hp.[flist] target.[index <- flist] (index + 1)
           else (flist, target, index)
  end.

Definition sf_pool_fill_cache (hp : gmap Z Z) (h : sf_pool_head_t) (target : gmap Z Z)
    (is_runtime : bool) (new_mem : Z) : sf_pool_head_t * gmap Z Z * Z :=
  let needed_size := if is_runtime then fill_free_size h else local_cache_size h in
  if decide (free_cnt h = 0) then
    let '(h, target, ret) := sf_pool_increase_nodes h target needed_size new_mem in
    (set_counts (pool_mem_inc_time h) (free_cnt h) (u32 (total_cnt h + ret)) (freelist h) h,
     target, ret)
  else
    let '(flist, target, ret) := take_loop (Z.to_nat needed_size) hp (freelist h) target 0 in
    (set_counts (pool_mem_inc_time h) (u32 (free_cnt h - ret)) (total_cnt h) flist h,
     target, ret).

Definition sf_pool_recycle_cache (hp : gmap Z Z) (h : sf_pool_head_t)
    (local_free_list local_last_node : Z) : gmap Z Z * sf_pool_head_t :=
  (hp.[local_last_node <- freelist h],
   set_counts (pool_mem_inc_time h) (u32 (free_cnt h + fill_free_size h)) (total_cnt h)
     local_free_list h).

(** ** Allocation and release *)

(** The result is NULL (0) when the cache cannot be filled. *)
Definition alloc_node_from_pool (hp : gmap Z Z) (h : sf_pool_head_t) (l : sf_pool_per_thread_t)
    (new_mem : Z) : sf_pool_head_t * sf_pool_per_thread_t * Z :=
  let '(h, l, ok) :=
    if decide (current_stack_len l = 0) then
      let '(h, stack, ret) := sf_pool_fill_cache hp h (local_pool_stack l) true new_mem in
      let l := mk_local (current_stack_len l) (stack_max_len l) (free_list_len l)
                 (free_list_max_len l) stack (local_free_list l) (local_last_node l) in
      if decide (ret = 0) then (h, l, false)
      else (h, mk_local ret (stack_max_len l) (free_list_len l)
                 (free_list_max_len l) stack (local_free_list l) (local_last_node l), true)
    else (h, l, true) in
  if ok then
    let len := current_stack_len l - 1 in
    let pnode := (local_pool_stack l).[len] in
    let '(flist, last, flen) :=
      if decide (len > stack_max_len l) then
        ((local_pool_stack l).[len - 1], local_last_node l, u32 (free_list_len l - 1))
      else if decide (len = stack_max_len l) then (0, 0, u32 (free_list_len l - 1))
      else (local_free_list l, local_last_node l, free_list_len l) in
    (h, mk_local len (stack_max_len l) flen (free_list_max_len l) (local_pool_stack l) flist last,
     pnode)
  else (h, l, 0).

Definition free_node_to_pool (hp : gmap Z Z) (h : sf_pool_head_t) (l : sf_pool_per_thread_t)
    (data_ptr : Z) : gmap Z Z * sf_pool_head_t * sf_pool_per_thread_t :=
  let stack := (local_pool_stack l).[current_stack_len l <- data_ptr] in
  let len := u32 (current_stack_len l + 1) in
  if decide (len > stack_max_len l) then
    let hp := hp.[data_ptr <- local_free_list l] in
    let flist := data_ptr in
    let flen := u32 (free_list_len l + 1) in
    let last := if decide (local_last_node l = 0) then flist else local_last_node l in
    if decide (flen >= free_list_max_len l) then
      let '(hp, h) := sf_pool_recycle_cache hp h flist last in
      (hp, h, mk_local (u32 (len - free_list_max_len l)) (stack_max_len l) 0
                (free_list_max_len l) stack 0 0)
    else (hp, h, mk_local len (stack_max_len l) flen (free_list_max_len l) stack flist last)
  else (hp, h, mk_local len (stack_max_len l) (free_list_len l) (free_list_max_len l) stack
                 (local_free_list l) (local_last_node l)).

(** ** Initialisation *)

(** The first memory is pushed node by node onto the global list. *)
Fixpoint push_loop (n : nat) (hp : gmap Z Z) (flist memory_start align i : Z) : gmap Z Z * Z :=
  match n with
  | O => (hp, flist)
  | S n => let pool_node := memory_start + i * align in
           push_loop n hp.[pool_node <- flist] pool_node memory_start align (i + 1)
  end.

Definition sf_pool_init_local (hp : gmap Z Z) (h : sf_pool_head_t) (new_mem : Z) :
    sf_pool_head_t * sf_pool_per_thread_t :=
  let '(h', stack, ret) := sf_pool_fill_cache hp h ∅ false new_mem in
  (h', mk_local ret (local_cache_size h) 0 (fill_free_size h) stack 0 0).

(** One worker's cache after another; [mems] are the allocator's answers. *)
Fixpoint init_locals (hp : gmap Z Z) (h : sf_pool_head_t) (mems : list Z) :
    sf_pool_head_t * list sf_pool_per_thread_t :=
  match mems with
  | [] => (h, [])
  | m :: mems =>
      let '(h, l) := sf_pool_init_local hp h m in
      let '(h, ls) := init_locals hp h mems in
      (h, l :: ls)
  end.

(** [None] where the code stops with [clib_error].  The list has one answer of
    the allocator per worker. *)
Definition sf_pool_init (data_len init_size_per_worker local_cache_size fill_free_size
    increment_max_times memory_start : Z) (mems : list Z) : option pool_state :=
  let align := align_data_len data_len in
  let init_size := u32 (init_size_per_worker * Z.of_nat (length mems)) in
  if decide (fill_free_size > local_cache_size) then None
  else if decide (memory_start = 0) then None
  else
    let '(hp, flist) := push_loop (Z.to_nat init_size) ∅ 0 memory_start align 0 in
    let h := mk_head init_size fill_free_size increment_max_times local_cache_size align
               0 init_size init_size flist in
    let '(h, ls) := init_locals hp h mems in
    Some (mk_pool hp h ls).
