(* ===== verification/SfPoolInv.v ===== *)
(** * The pool never hands a node out twice and never loses one

    [pool_ok s used] relates a pool to the nodes its users own: the global list,
    the workers' stacks and the users' nodes are disjoint and are all the nodes
    ever made, the counters count them, and the upper part of every stack is a
    well-linked list.  Every step of every worker keeps it. *)
From S2P Require Import Prelude SfPool.

(** ** Lists in memory *)

Fixpoint lseg (hp : gmap Z Z) (a : Z) (l : list Z) : Prop :=
  match l with
  | [] => a = 0
  | x :: l => a = x /\ x <> 0 /\ lseg hp hp.[x] l
  end.

Lemma lseg_frame hp hp' a l :
  (forall x, x ∈ l -> hp'.[x] = hp.[x]) -> lseg hp a l -> lseg hp' a l.
Proof.
  revert a. induction l as [|x l IH]; cbn; intros a Hf; [done|].
  intros (-> & Hx & Hl). rewrite Hf by set_solver. split_and!; [done|done|].
  apply IH; [|done]. intros y Hy. apply Hf. set_solver.
Qed.

Lemma lseg_nz hp a l x : lseg hp a l -> x ∈ l -> x <> 0.
Proof.
  revert a. induction l as [|y l IH]; cbn; intros a; [set_solver|].
  intros (-> & Hy & Hl) [->|Hin]%elem_of_cons; eauto.
Qed.

Lemma lseg_nil hp a l : lseg hp a l -> a = 0 <-> l = [].
Proof. destruct l; cbn; [done|]. intros (-> & Hx & _). done. Qed.

Definition stack_list (l : sf_pool_per_thread_t) : list Z :=
  map (fun i => (local_pool_stack l).[i]) (seqZ 0 (current_stack_len l)).

(** ** The invariant *)

Record local_ok (h : sf_pool_head_t) (hp : gmap Z Z) (l : sf_pool_per_thread_t) : Prop := {
  lo_max : stack_max_len l = local_cache_size h /\ free_list_max_len l = fill_free_size h;
  lo_len : 0 <= current_stack_len l < local_cache_size h + fill_free_size h;
  lo_flen : free_list_len l = Z.max 0 (current_stack_len l - local_cache_size h);
  lo_flist : local_free_list l = if decide (local_cache_size h < current_stack_len l)
             then (local_pool_stack l).[current_stack_len l - 1] else 0;
  lo_last : local_last_node l = if decide (local_cache_size h < current_stack_len l)
            then (local_pool_stack l).[local_cache_size h] else 0;
  lo_next i : local_cache_size h < i < current_stack_len l ->
    hp.[(local_pool_stack l).[i]] = (local_pool_stack l).[i - 1];
  lo_nz i : 0 <= i < current_stack_len l -> (local_pool_stack l).[i] <> 0
}.

Record head_ok (h : sf_pool_head_t) : Prop := {
  ho_cfg : 0 < fill_free_size h <= local_cache_size h;
  ho_align : 0 < data_align_len h;
  ho_inc : 0 <= pool_mem_inc_time h <= pool_mem_inc_max h;
  ho_bound : local_cache_size h + fill_free_size h < 2 ^ 32 /\ pool_mem_inc_max h < 2 ^ 32 /\
    0 <= init_size h /\ init_size h + pool_mem_inc_max h * local_cache_size h < 2 ^ 32
}.

Definition all_nodes (G : list Z) (ls : list sf_pool_per_thread_t) (used : list Z) : list Z :=
  G ++ concat (map stack_list ls) ++ used.

Record pool_ok_with (G : list Z) (s : pool_state) (used : list Z) : Prop := {
  po_head : head_ok (head s);
  po_free : lseg (heap s) (freelist (head s)) G;
  po_cnt : free_cnt (head s) = Z.of_nat (length G);
  po_local i l : locals s !! i = Some l -> local_ok (head s) (heap s) l;
  po_nodup : NoDup (all_nodes G (locals s) used);
  po_used : 0 ∉ used;
  po_total : total_cnt (head s) = Z.of_nat (length (all_nodes G (locals s) used));
  po_bound : total_cnt (head s)
             <= init_size (head s) + pool_mem_inc_time (head s) * local_cache_size (head s)
}.

Definition pool_ok (s : pool_state) (used : list Z) : Prop := exists G, pool_ok_with G s used.

(** ** Shared lemmas *)

Lemma concat_insert {A} (f : A -> list Z) (ls : list A) (i : nat) l :
  ls !! i = Some l -> exists rest, concat (map f ls) ≡ₚ f l ++ rest /\
    (forall l', concat (map f (<[i := l']> ls)) ≡ₚ f l' ++ rest) /\
    (forall (j : nat) l0 x, j <> i -> ls !! j = Some l0 -> x ∈ f l0 -> x ∈ rest).
Proof.
  revert i. induction ls as [|y ls IH]; intros i Hi; [done|].
  destruct i as [|i]; cbn in Hi.
  - injection Hi as ->. exists (concat (map f ls)). split_and!; [done|done|].
    intros [|j] l0 x Hne Hj Hx; [done|]. apply list_elem_of_In, in_concat. exists (f l0).
    split; [|by apply list_elem_of_In]. apply in_map, list_elem_of_In.
    cbn in Hj. by apply list_elem_of_lookup_2 in Hj.
  - destruct (IH i Hi) as (rest & E & E' & Hr). exists (f y ++ rest). cbn. split_and!.
    + rewrite E. apply Permutation_app_swap_app.
    + intros l'. rewrite E'. apply Permutation_app_swap_app.
    + intros [|j] l0 x Hne Hj Hx; apply elem_of_app; cbn in Hj; [left; by simplify_eq|right].
      by apply (Hr j l0); [lia|..].
Qed.

Lemma stack_list_length l : 0 <= current_stack_len l ->
  Z.of_nat (length (stack_list l)) = current_stack_len l.
Proof. intros Hl. unfold stack_list. rewrite length_map, length_seqZ. lia. Qed.

Lemma stack_list_elem l x :
  x ∈ stack_list l <-> exists i, 0 <= i < current_stack_len l /\ (local_pool_stack l).[i] = x.
Proof.
  unfold stack_list. rewrite list_elem_of_fmap. setoid_rewrite elem_of_seqZ.
  split; intros (i & H1 & H2); exists i; (split; [try done; lia|done || lia]).
Qed.

Lemma stack_list_top l : 0 < current_stack_len l ->
  stack_list l = map (fun i => (local_pool_stack l).[i]) (seqZ 0 (current_stack_len l - 1))
                 ++ [(local_pool_stack l).[current_stack_len l - 1]].
Proof.
  intros Hl. unfold stack_list.
  replace (current_stack_len l) with (current_stack_len l - 1 + 1) at 1 by lia.
  rewrite seqZ_app, map_app by lia. done.
Qed.

Lemma map_seqZ_ext (f g : Z -> Z) a n :
  (forall i, a <= i < a + n -> f i = g i) -> map f (seqZ a n) = map g (seqZ a n).
Proof. intros E. apply map_ext_in. intros i Hi%list_elem_of_In%elem_of_seqZ. apply E. lia. Qed.

(** A worker's lists only depend on the links of its own nodes. *)
Lemma local_ok_frame h h' hp hp' l :
  head_ok h ->
  local_cache_size h' = local_cache_size h -> fill_free_size h' = fill_free_size h ->
  (forall x, x ∈ stack_list l -> hp'.[x] = hp.[x]) -> local_ok h hp l -> local_ok h' hp' l.
Proof.
  intros [Hcfg _ _ _] Ec Ef Hf [Hm Hl Hfl Hfi Hla Hn Hz]. split; rewrite ?Ec, ?Ef; try done.
  intros i Hi. rewrite Hf; [by apply Hn|]. apply stack_list_elem. exists i. split; [lia|done].
Qed.

Lemma nodup_app_disj (l1 l2 : list Z) x : NoDup (l1 ++ l2) -> x ∈ l1 -> x ∈ l2 -> False.
Proof. intros (_ & Hd & _)%NoDup_app H1 H2. by apply (Hd x). Qed.

Lemma all_nodes_upd G (ls : list sf_pool_per_thread_t) used (i : nat) l :
  ls !! i = Some l -> exists rest,
    all_nodes G ls used ≡ₚ G ++ stack_list l ++ rest ++ used /\
    (forall G' l' used',
      all_nodes G' (<[i := l']> ls) used' ≡ₚ G' ++ stack_list l' ++ rest ++ used') /\
    (forall (j : nat) l0 x, j <> i -> ls !! j = Some l0 -> x ∈ stack_list l0 -> x ∈ rest).
Proof.
  intros Hi. destruct (concat_insert stack_list ls i l Hi) as (rest & E & E' & Hr).
  exists rest. unfold all_nodes. split_and!; [by rewrite E, <- app_assoc| |done].
  intros G' l' used'. by rewrite E', <- app_assoc.
Qed.

Lemma locals_upd h hp h' hp' (ls : list sf_pool_per_thread_t) (i : nat) l' :
  head_ok h -> local_cache_size h' = local_cache_size h -> fill_free_size h' = fill_free_size h ->
  (forall j l, ls !! j = Some l -> local_ok h hp l) ->
  (forall j l x, j <> i -> ls !! j = Some l -> x ∈ stack_list l -> hp'.[x] = hp.[x]) ->
  local_ok h' hp' l' ->
  forall j l, <[i := l']> ls !! j = Some l -> local_ok h' hp' l.
Proof.
  intros Hh Ec Ef Hls Hf Hl' j l Hj. destruct (decide (j = i)) as [->|Hne].
  - destruct (decide (i < length ls)%nat) as [Hlt|Hge].
    + rewrite list_lookup_insert_eq in Hj by done. by injection Hj as <-.
    + rewrite list_insert_ge in Hj by lia. apply lookup_lt_Some in Hj. lia.
  - rewrite list_lookup_insert_ne in Hj by congruence.
    eapply local_ok_frame; [exact Hh|done|done| |by eapply Hls]. intros x Hx. by eapply Hf.
Qed.

(** ** Taking the top of a stack *)

Definition top_node (l : sf_pool_per_thread_t) : Z :=
  (local_pool_stack l).[current_stack_len l - 1].

Definition pop_local (l : sf_pool_per_thread_t) : sf_pool_per_thread_t :=
  let len := current_stack_len l - 1 in
  let '(flist, last, flen) :=
    if decide (len > stack_max_len l) then
      ((local_pool_stack l).[len - 1], local_last_node l, u32 (free_list_len l - 1))
    else if decide (len = stack_max_len l) then (0, 0, u32 (free_list_len l - 1))
    else (local_free_list l, local_last_node l, free_list_len l) in
  mk_local len (stack_max_len l) flen (free_list_max_len l) (local_pool_stack l) flist last.

Lemma pop_local_len l : current_stack_len (pop_local l) = current_stack_len l - 1.
Proof. unfold pop_local. repeat case_decide; done. Qed.

Lemma pop_local_stack l : local_pool_stack (pop_local l) = local_pool_stack l.
Proof. unfold pop_local. repeat case_decide; done. Qed.

Lemma pop_stack_list l : 0 < current_stack_len l ->
  stack_list l = stack_list (pop_local l) ++ [top_node l].
Proof.
  intros Hl. rewrite stack_list_top by done. unfold stack_list.
  by rewrite pop_local_len, pop_local_stack.
Qed.

Lemma pop_local_ok h hp l :
  head_ok h -> local_ok h hp l -> 0 < current_stack_len l -> local_ok h hp (pop_local l).
Proof.
  intros [Hcfg _ _ [Hb _]] [[Hm Hfm] Hl Hfl Hfi Hla Hn Hz] Hpos.
  split; rewrite ?pop_local_len, ?pop_local_stack.
  - unfold pop_local. by repeat case_decide.
  - lia.
  - unfold pop_local. rewrite Hm.
    repeat case_decide; cbn [free_list_len]; rewrite ?wrap_small by (split; lia); lia.
  - unfold pop_local. rewrite Hm. destruct (decide (_ > _)).
    + cbn [local_free_list]. rewrite decide_True by lia. done.
    + rewrite (decide_False (P := local_cache_size h < _)) by lia.
      destruct (decide (_ = _)); cbn [local_free_list]; [done|].
      by rewrite Hfi, decide_False by lia.
  - unfold pop_local. rewrite Hm. destruct (decide (_ > _)).
    + cbn [local_last_node]. by rewrite Hla, !decide_True by lia.
    + rewrite (decide_False (P := local_cache_size h < _)) by lia.
      destruct (decide (_ = _)); cbn [local_last_node]; [done|].
      by rewrite Hla, decide_False by lia.
  - intros i Hi. apply Hn. lia.
  - intros i Hi. apply Hz. lia.
Qed.

Lemma pop_ok G hp h ls used i l :
  pool_ok_with G (mk_pool hp h ls) used -> ls !! i = Some l -> 0 < current_stack_len l ->
  pool_ok_with G (mk_pool hp h (<[i := pop_local l]> ls)) (top_node l :: used) /\
  top_node l <> 0 /\ top_node l ∉ used.
Proof.
  intros [Hh Hf Hc Hl Hnd Hu Ht Hb] Hi Hpos. cbn [heap head locals] in *.
  destruct (all_nodes_upd G ls used i l Hi) as (rest & E & E' & _).
  assert (Ep : all_nodes G (<[i := pop_local l]> ls) (top_node l :: used)
               ≡ₚ all_nodes G ls used).
  { rewrite E, E', (pop_stack_list l Hpos). apply Permutation_app_head.
    rewrite <- app_assoc. apply Permutation_app_head. cbn [app].
    by rewrite Permutation_middle. }
  assert (Hnz : top_node l <> 0) by (apply (lo_nz _ _ _ (Hl _ _ Hi)); lia).
  split; [|split; [done|]].
  - split; cbn [heap head locals]; try done.
    + eapply locals_upd; try done. by apply pop_local_ok; [done|eapply Hl|].
    + by rewrite Ep.
    + rewrite elem_of_cons. intros [?|?]; [congruence|done].
    + by rewrite Ep.
  - intros Hin. rewrite E in Hnd. apply NoDup_app in Hnd as (_ & _ & Hnd).
    eapply (nodup_app_disj _ _ _ Hnd).
    + rewrite (pop_stack_list l Hpos). apply elem_of_app. right. by apply list_elem_of_singleton.
    + apply elem_of_app. by right.
Qed.

(** ** Filling an empty stack *)

Definition with_stack (len : Z) (st : gmap Z Z) (l : sf_pool_per_thread_t) : sf_pool_per_thread_t :=
  mk_local len (stack_max_len l) (free_list_len l) (free_list_max_len l) st
    (local_free_list l) (local_last_node l).

Lemma take_loop_spec n hp flist target idx G flist' target' idx' :
  lseg hp flist G -> take_loop n hp flist target idx = (flist', target', idx') ->
  idx' = idx + Z.of_nat (length (take n G)) /\ lseg hp flist' (drop n G) /\
  map (fun i => target'.[i]) (seqZ idx (Z.of_nat (length (take n G)))) = take n G /\
  (forall j, j < idx -> target'.[j] = target.[j]).
Proof.
  revert flist target idx G. induction n as [|n IH]; intros flist target idx G Hl;
    cbn [take_loop].
  - intros [= <- <- <-]. rewrite take_0, drop_0. cbn [length Z.of_nat]. change (seqZ idx 0) with (@nil Z). split_and!; [lia|done|done|done].
  - case_decide as Hz.
    + destruct G as [|x G]; cbn in Hl; [done|]. destruct Hl as (-> & Hx & Hl).
      intros E. apply IH with (G := G) in E as (-> & Hl' & Hm & Hj); [|done].
      cbn [take drop length]. split_and!; [lia|done| |].
      * rewrite seqZ_cons by lia. cbn [map].
        replace (Z.pred (Z.of_nat (S (length (take n G)))))
          with (Z.of_nat (length (take n G))) by lia.
        change (Z.succ idx) with (idx + 1). rewrite Hm, Hj, aget_aset_eq by lia. done.
      * intros j Hlt. rewrite Hj by lia. by rewrite aget_aset_ne by lia.
    + intros [= <- <- <-]. assert (G = []) as -> by (apply (lseg_nil _ _ _ Hl); lia).
      rewrite take_nil, drop_nil. cbn [length Z.of_nat]. split_and!; [lia|done|done|done].
Qed.

Lemma split_nodes_spec n mem align i target :
  map (fun j => (split_nodes n mem align i target).[j]) (seqZ i (Z.of_nat n))
  = map (fun j => mem + align * j) (seqZ i (Z.of_nat n)) /\
  (forall j, j < i -> (split_nodes n mem align i target).[j] = target.[j]).
Proof.
  revert i target. induction n as [|n IH]; intros i target; cbn [split_nodes]; [done|].
  destruct (IH (i + 1) target.[i <- mem + align * i]) as [Hm Hj].
  rewrite seqZ_cons by lia. replace (Z.pred (Z.of_nat (S n))) with (Z.of_nat n) by lia.
  cbn [map]. change (Z.succ i) with (i + 1). rewrite Hm, Hj, aget_aset_eq by lia.
  split; [done|]. intros j Hlt. rewrite Hj by lia. by rewrite aget_aset_ne by lia.
Qed.

(** The allocator hands out memory that holds no node of the pool. *)
Definition fresh_mem (h : sf_pool_head_t) (nodes : list Z) (new_mem n : Z) : Prop :=
  new_mem <> 0 -> forall j, 0 <= j < n ->
    new_mem + data_align_len h * j <> 0 /\ new_mem + data_align_len h * j ∉ nodes.

(** The nodes of a new block are distinct and new. *)
Lemma new_block_nodup h nodes mem n :
  0 < data_align_len h -> NoDup nodes -> fresh_mem h nodes mem n -> mem <> 0 ->
  NoDup (map (fun j => mem + data_align_len h * j) (seqZ 0 n) ++ nodes) /\
  0 ∉ map (fun j => mem + data_align_len h * j) (seqZ 0 n).
Proof.
  intros Ha Hnd Hf Hm. specialize (Hf Hm). split.
  - apply NoDup_app. split_and!; [|intros x Hx Hx'|done].
    + apply NoDup_fmap_2_strong; [|apply NoDup_seqZ]. intros x y _ _ E. nia.
    + apply list_elem_of_fmap in Hx as (j & -> & Hj%elem_of_seqZ).
      by apply (Hf j ltac:(lia)).
  - intros Hx. apply list_elem_of_fmap in Hx as (j & E & Hj%elem_of_seqZ).
    by destruct (Hf j ltac:(lia)).
Qed.

(** What a fill needs to know of the rest of the pool: [R] is every node that is
    not on the global list. *)
Record fill_pre (hp : gmap Z Z) (h : sf_pool_head_t) (G R : list Z) : Prop := {
  fp_head : head_ok h;
  fp_free : lseg hp (freelist h) G;
  fp_cnt : free_cnt h = Z.of_nat (length G);
  fp_nodup : NoDup (G ++ R);
  fp_total : total_cnt h = Z.of_nat (length (G ++ R));
  fp_bound : total_cnt h <= init_size h + pool_mem_inc_time h * local_cache_size h
}.

Record same_config (h h' : sf_pool_head_t) : Prop := {
  sc_init : init_size h' = init_size h;
  sc_fill : fill_free_size h' = fill_free_size h;
  sc_max : pool_mem_inc_max h' = pool_mem_inc_max h;
  sc_cache : local_cache_size h' = local_cache_size h;
  sc_align : data_align_len h' = data_align_len h
}.

Lemma total_small h : head_ok h -> 0 <= total_cnt h ->
  total_cnt h <= init_size h + pool_mem_inc_time h * local_cache_size h -> 0 <= total_cnt h < 2 ^ 32.
Proof.
  intros [Hcfg _ Hinc (_ & _ & _ & Hb)] H0 Ht.
  assert (pool_mem_inc_time h * local_cache_size h <= pool_mem_inc_max h * local_cache_size h)
    by (apply Z.mul_le_mono_nonneg_r; lia). lia.
Qed.

Lemma fill_core hp h G R target rt mem h' st' ret :
  fill_pre hp h G R ->
  fresh_mem h (G ++ R) mem (if rt : bool then fill_free_size h else local_cache_size h) ->
  sf_pool_fill_cache hp h target rt mem = (h', st', ret) ->
  exists G' T, fill_pre hp h' G' (T ++ R) /\ same_config h h' /\
    map (fun i => st'.[i]) (seqZ 0 ret) = T /\ ret = Z.of_nat (length T) /\
    0 <= ret <= (if rt then fill_free_size h else local_cache_size h) /\ 0 ∉ T /\
    (ret = 0 -> h' = h /\ G = [] /\ st' = target /\
       (mem = 0 \/ pool_mem_inc_time h = pool_mem_inc_max h)) /\
    (forall x, x ∈ G' ++ T -> x ∈ G \/ (mem <> 0 /\ exists j,
       0 <= j < (if rt then fill_free_size h else local_cache_size h) /\
       x = mem + data_align_len h * j)).
Proof.
  intros [Hh Hf Hc Hnd Ht Hb] Hfr. pose proof Hh as [Hcfg Ha Hinc (Hb1 & Hb2 & Hb3 & Hb4)].
  set (needed := if rt then fill_free_size h else local_cache_size h) in *.
  assert (Hneed : 0 < needed <= local_cache_size h) by (unfold needed; destruct rt; lia).
  pose proof (total_small h Hh ltac:(lia) Hb) as Htb.
  unfold sf_pool_fill_cache. fold needed. case_decide as E0.
  - assert (G = []) as -> by (destruct G; [done|cbn in Hc; lia]). cbn [app] in *.
    assert (Hfail : forall st, (set_counts (pool_mem_inc_time h) (free_cnt h) (u32 (total_cnt h + 0))
        (freelist h) h, st, 0) = (h', st', ret) -> mem = 0 \/ pool_mem_inc_time h = pool_mem_inc_max h ->
        st = target ->
        exists G' T, fill_pre hp h' G' (T ++ R) /\ same_config h h' /\
          map (fun i => st'.[i]) (seqZ 0 ret) = T /\ ret = Z.of_nat (length T) /\
          0 <= ret <= needed /\ 0 ∉ T /\ (ret = 0 -> h' = h /\ [] = @nil Z /\ st' = target /\
            (mem = 0 \/ pool_mem_inc_time h = pool_mem_inc_max h)) /\
          (forall x, x ∈ G' ++ T -> x ∈ @nil Z \/ (mem <> 0 /\ exists j,
            0 <= j < needed /\ x = mem + data_align_len h * j))).
    { intros st E Hwhy ->. rewrite Z.add_0_r, wrap_small in E by done.
      assert (h = h') as <- by (injection E as <- _ _; by destruct h).
      injection E as _ <- <-. exists [], []. split; [by split|]. split; [by split|].
      cbn. split_and!; try done; try lia; try apply not_elem_of_nil. by left. }
    unfold sf_pool_increase_nodes. case_decide; [case_decide as Hm|].
    + intros [= <- <- <-]. destruct (new_block_nodup h R mem needed Ha Hnd Hfr Hm) as [Hnd' H0].
      set (T := map (fun j => mem + data_align_len h * j) (seqZ 0 needed)) in *.
      assert (Hlen : Z.of_nat (length T) = needed)
        by (unfold T; rewrite length_map, length_seqZ; lia).
      exists [], T. cbn [set_counts pool_mem_inc_time free_cnt total_cnt freelist].
      assert (Hmul : (pool_mem_inc_time h + 1) * local_cache_size h
                     <= pool_mem_inc_max h * local_cache_size h)
        by (apply Z.mul_le_mono_nonneg_r; lia).
      split_and!; try done; try lia.
      * split; cbn; try done.
        -- split; cbn; try lia; rewrite wrap_small by (split; lia); lia.
        -- rewrite length_app. rewrite wrap_small by (split; lia). lia.
        -- rewrite !wrap_small by (split; lia). lia.
      * destruct (split_nodes_spec (Z.to_nat needed) mem (data_align_len h) 0 target) as [Es _].
        rewrite Z2Nat.id in Es by lia. exact Es.
      * intros x Hx. right. split; [done|]. apply list_elem_of_fmap in Hx as (j & -> & Hj%elem_of_seqZ).
        exists j. split; [lia|done].
    + intros Eq. apply (Hfail _ Eq); [left; lia|done].
    + intros Eq. apply (Hfail _ Eq); [right; lia|done].
  - destruct (take_loop _ _ _ _ _) as [[flist st] k] eqn:Ek. intros [= <- <- <-].
    destruct (take_loop_spec _ _ _ _ _ _ _ _ _ Hf Ek) as (-> & Hf' & Hm & _).
    set (n := Z.to_nat needed) in *. rewrite Z.add_0_l.
    pose proof (take_drop n G) as Etd.
    assert (Hlt : length (take n G) = min n (length G)) by apply length_take.
    assert (Hld : length (drop n G) = (length G - n)%nat) by apply length_drop.
    assert (Ep : drop n G ++ take n G ++ R ≡ₚ G ++ R).
    { rewrite app_assoc. apply Permutation_app_tail. rewrite Permutation_app_comm. by rewrite Etd. }
    exists (drop n G), (take n G). cbn [set_counts pool_mem_inc_time free_cnt total_cnt freelist].
    rewrite length_app in Ht.
    split_and!; try done; try lia.
    + split; cbn; try done.
      * rewrite Hc, wrap_small; lia.
      * by rewrite Ep.
      * rewrite Ep, length_app. lia.
    + intros H0. apply (lseg_nz _ _ _ 0 Hf); [|done]. rewrite <- Etd. by apply elem_of_app; left.
    + intros x Hx. left. rewrite <- Etd. rewrite elem_of_app in Hx |- *. tauto.
Qed.

(** ** Allocation *)

Lemma pool_fill_pre G hp h ls used :
  pool_ok_with G (mk_pool hp h ls) used ->
  fill_pre hp h G (concat (map stack_list ls) ++ used).
Proof. intros [Hh Hf Hc Hl Hnd Hu Ht Hb]. by split. Qed.

Lemma head_frame h h' hp l :
  head_ok h -> same_config h h' -> local_ok h hp l -> local_ok h' hp l.
Proof.
  intros Hh [_ Ef _ Ec _]. by apply local_ok_frame.
Qed.

Lemma fill_ok G hp h ls used i l mem h' st' ret :
  pool_ok_with G (mk_pool hp h ls) used -> ls !! i = Some l -> current_stack_len l = 0 ->
  fresh_mem h (all_nodes G ls used) mem (fill_free_size h) ->
  sf_pool_fill_cache hp h (local_pool_stack l) true mem = (h', st', ret) ->
  (ret = 0 /\ h' = h /\ st' = local_pool_stack l /\ G = [] /\
     (mem = 0 \/ pool_mem_inc_time h = pool_mem_inc_max h)) \/
  (0 < ret <= fill_free_size h /\ exists G',
     pool_ok_with G' (mk_pool hp h' (<[i := with_stack ret st' l]> ls)) used).
Proof.
  intros Hp Hi Hlen Hfr Ef. pose proof (pool_fill_pre _ _ _ _ _ Hp) as Hpre.
  destruct (fill_core _ _ _ _ _ true _ _ _ _ Hpre Hfr Ef)
    as (G' & T & [Hh' Hf' Hc' Hnd' Ht' Hb'] & Hsame & Hst & Hret & Hr & H0 & Hz & _).
  destruct (decide (ret = 0)) as [E|E]; [left; destruct (Hz E) as (-> & -> & -> & Hw); done|right].
  split; [lia|]. exists G'. destruct Hp as [Hh Hf Hc Hl Hnd Hu Ht Hb].
  cbn [heap head locals] in *.
  destruct (all_nodes_upd [] ls used i l Hi) as (rest & E1 & E2 & _).
  assert (Esl : stack_list l = []) by (unfold stack_list; by rewrite Hlen).
  assert (Esl1 : stack_list (with_stack ret st' l) = T) by exact Hst.
  unfold all_nodes in E1. rewrite Esl in E1. cbn [app] in E1.
  assert (Ep : all_nodes G' (<[i := with_stack ret st' l]> ls) used
               ≡ₚ G' ++ T ++ concat (map stack_list ls) ++ used)
    by (by rewrite E2, E1, Esl1).
  split; cbn [heap head locals]; try done; try (by rewrite Ep).
  pose proof Hh as [Hcfg _ _ _].
  eapply (locals_upd h hp); try done; try apply Hsame.
  destruct (Hl i l Hi) as [[Hm Hfm] Hll Hfl Hfi Hla Hn Hnz].
  pose proof (sc_cache _ _ Hsame) as Ec. pose proof (sc_fill _ _ Hsame) as Eff.
  split; cbn [with_stack current_stack_len stack_max_len free_list_len free_list_max_len
    local_pool_stack local_free_list local_last_node]; rewrite ?Ec, ?Eff.
  - done.
  - lia.
  - rewrite Hfl, Hlen. lia.
  - rewrite Hfi, Hlen. by rewrite !decide_False by lia.
  - rewrite Hla, Hlen. by rewrite !decide_False by lia.
  - lia.
  - intros j Hj E'. apply H0. rewrite <- Hst, <- E'. apply list_elem_of_fmap.
    exists j. split; [done|]. apply elem_of_seqZ. lia.
Qed.

Lemma alloc_eq_pop hp h l mem : current_stack_len l <> 0 ->
  alloc_node_from_pool hp h l mem = (h, pop_local l, top_node l).
Proof.
  intros Hl. unfold alloc_node_from_pool, pop_local, top_node. rewrite decide_False by done.
  by repeat case_decide.
Qed.

Lemma alloc_eq_fill hp h l mem h' st' ret : current_stack_len l = 0 ->
  sf_pool_fill_cache hp h (local_pool_stack l) true mem = (h', st', ret) ->
  alloc_node_from_pool hp h l mem
  = if decide (ret = 0) then (h', with_stack (current_stack_len l) st' l, 0)
    else (h', pop_local (with_stack ret st' l), top_node (with_stack ret st' l)).
Proof.
  intros Hl Ef. unfold alloc_node_from_pool. rewrite decide_True by done. rewrite Ef.
  destruct (decide (ret = 0)); [done|]. unfold pop_local, top_node. by repeat case_decide.
Qed.

Lemma alloc_ok G hp h ls used i l mem h' l' p :
  pool_ok_with G (mk_pool hp h ls) used -> ls !! i = Some l ->
  fresh_mem h (all_nodes G ls used) mem (fill_free_size h) ->
  alloc_node_from_pool hp h l mem = (h', l', p) ->
  (p = 0 /\ h' = h /\ l' = l /\ current_stack_len l = 0 /\ G = [] /\
     (mem = 0 \/ pool_mem_inc_time h = pool_mem_inc_max h)) \/
  (p <> 0 /\ p ∉ used /\ exists G',
     pool_ok_with G' (mk_pool hp h' (<[i := l']> ls)) (p :: used)).
Proof.
  intros Hp Hi Hfr. pose proof (po_local _ _ _ Hp _ _ Hi) as Hlok. cbn [head heap] in Hlok.
  pose proof (lo_len _ _ _ Hlok) as Hlen.
  destruct (decide (current_stack_len l = 0)) as [E0|E0].
  - destruct (sf_pool_fill_cache hp h (local_pool_stack l) true mem) as [[h1 st1] ret] eqn:Ef.
    rewrite (alloc_eq_fill _ _ _ _ _ _ _ E0 Ef).
    destruct (fill_ok _ _ _ _ _ _ _ _ _ _ _ Hp Hi E0 Hfr Ef)
      as [(-> & -> & -> & HG & Hw)|(Hr & G' & Hp')].
    + rewrite decide_True by done. intros [= <- <- <-]. left. split_and!; try done. by destruct l.
    + rewrite decide_False by lia. intros [= <- <- <-]. right.
      assert (Hi' : <[i := with_stack ret st1 l]> ls !! i = Some (with_stack ret st1 l)).
      { apply list_lookup_insert_eq. by eapply lookup_lt_Some. }
      destruct (pop_ok _ _ _ _ _ _ _ Hp' Hi') as (Hp2 & Hnz & Hnu); [cbn; lia|].
      split_and!; [done|done|]. exists G'. by rewrite list_insert_insert_eq in Hp2.
  - rewrite alloc_eq_pop by done. intros [= <- <- <-]. right.
    destruct (pop_ok _ _ _ _ _ _ _ Hp Hi) as (Hp' & Hnz & Hnu); [lia|]. eauto.
Qed.

(** ** Release *)

Lemma nodup_map_inj (f : Z -> Z) n i j :
  NoDup (map f (seqZ 0 n)) -> 0 <= i < n -> 0 <= j < n -> f i = f j -> i = j.
Proof.
  intros Hnd Hi Hj E.
  assert (H1 : map f (seqZ 0 n) !! Z.to_nat i = Some (f i))
    by (rewrite list_lookup_fmap, lookup_seqZ_lt by lia; cbn; do 2 f_equal; lia).
  assert (H2 : map f (seqZ 0 n) !! Z.to_nat j = Some (f i))
    by (rewrite list_lookup_fmap, lookup_seqZ_lt by lia; cbn; rewrite E; do 2 f_equal; lia).
  pose proof (NoDup_lookup _ _ _ _ Hnd H1 H2). lia.
Qed.

(** A stack's upper part, read downwards, followed by a list. *)
Lemma lseg_downward hp (st : gmap Z Z) lo k g G :
  (forall i, lo <= i <= lo + Z.of_nat k -> st.[i] <> 0) ->
  (forall i, lo < i <= lo + Z.of_nat k -> hp.[st.[i]] = st.[i - 1]) ->
  hp.[st.[lo]] = g -> lseg hp g G ->
  lseg hp st.[lo + Z.of_nat k]
    (rev (map (fun i => st.[i]) (seqZ lo (Z.of_nat (S k)))) ++ G).
Proof.
  intros Hnz Hn Hlo Hg. induction k as [|k IH].
  - change (Z.of_nat 1) with 1. change (seqZ lo 1) with [0 + lo]. cbn [map rev app].
    rewrite Z.add_0_l, Z.add_0_r. cbn [lseg].
    split_and!; [done|apply Hnz; lia|by rewrite Hlo].
  - replace (Z.of_nat (S (S k))) with (Z.of_nat (S k) + 1) by lia.
    rewrite seqZ_app, map_app, rev_app_distr by lia.
    change (seqZ (lo + Z.of_nat (S k)) 1) with [0 + (lo + Z.of_nat (S k))].
    cbn [map rev app]. rewrite Z.add_0_l. cbn [lseg].
    split_and!; [done|apply Hnz; lia|]. rewrite Hn by lia.
    replace (lo + Z.of_nat (S k) - 1) with (lo + Z.of_nat k) by lia.
    apply IH; intros; [apply Hnz|apply Hn]; lia.
Qed.

(** What a release knows of the grown stack. *)
Record grown (hp : gmap Z Z) (G rest : list Z) (st : gmap Z Z) (n : Z) : Prop := {
  gr_dist i j : 0 <= i < n -> 0 <= j < n -> st.[i] = st.[j] -> i = j;
  gr_free i : 0 <= i < n -> st.[i] ∉ G;
  gr_rest i : 0 <= i < n -> st.[i] ∉ rest;
  gr_nz i : 0 <= i < n -> st.[i] <> 0
}.

Lemma grown_of hp G rest st n :
  NoDup (G ++ map (fun i => st.[i]) (seqZ 0 n) ++ rest) ->
  0 ∉ map (fun i => st.[i]) (seqZ 0 n) -> grown hp G rest st n.
Proof.
  intros Hnd H0.
  assert (Hin : forall i, 0 <= i < n -> st.[i] ∈ map (fun i => st.[i]) (seqZ 0 n))
    by (intros i Hi; apply list_elem_of_fmap; exists i; split; [done|apply elem_of_seqZ; lia]).
  apply NoDup_app in Hnd as (_ & Hd & Hnd). apply NoDup_app in Hnd as (Hns & Hd2 & _).
  split.
  - intros i j Hi Hj E. by apply (nodup_map_inj (fun i => st.[i]) n).
  - intros i Hi HG. apply (Hd _ HG). apply elem_of_app. left. by apply Hin.
  - intros i Hi. by apply Hd2, Hin.
  - intros i Hi E. pose proof (Hin i Hi) as Hx. rewrite E in Hx. done.
Qed.

(** The worker's record after a release that is not given back. *)
Lemma free_keep_ok h hp l p :
  head_ok h -> local_ok h hp l -> p <> 0 ->
  let st := (local_pool_stack l).[current_stack_len l <- p] in
  let n := current_stack_len l + 1 in
  (forall i, 0 <= i < current_stack_len l -> (local_pool_stack l).[i] <> p) ->
  n < local_cache_size h + fill_free_size h -> local_cache_size h < n ->
  local_ok h hp.[p <- local_free_list l]
    (mk_local n (stack_max_len l) (u32 (free_list_len l + 1)) (free_list_max_len l) st p
       (if decide (local_last_node l = 0) then p else local_last_node l)).
Proof.
  intros [Hcfg _ _ [Hb _]] [Hm Hl Hfl Hfi Hla Hn Hnz] Hp st n Hne Hlt Hgt.
  assert (Hst : forall i, i < current_stack_len l -> st.[i] = (local_pool_stack l).[i])
    by (intros i Hi; unfold st; by rewrite aget_aset_ne by lia).
  assert (Htop : st.[current_stack_len l] = p) by apply aget_aset_eq.
  split; cbn [current_stack_len stack_max_len free_list_len free_list_max_len
    local_pool_stack local_free_list local_last_node]; fold st n.
  - done.
  - lia.
  - rewrite Hfl, wrap_small by (split; lia). lia.
  - rewrite decide_True by lia. replace (n - 1) with (current_stack_len l) by lia. by rewrite Htop.
  - rewrite (decide_True (P := local_cache_size h < n)) by lia. rewrite Hla.
    destruct (decide (local_cache_size h < current_stack_len l)).
    + rewrite decide_False by (apply Hnz; lia). by rewrite Hst by lia.
    + rewrite decide_True by done. replace (local_cache_size h) with (current_stack_len l) by lia.
      by rewrite Htop.
  - intros i Hi. destruct (decide (i = current_stack_len l)) as [->|].
    + rewrite Htop, aget_aset_eq, Hfi, decide_True by lia. by rewrite Hst by lia.
    + rewrite (Hst i), (Hst (i - 1)) by lia.
      rewrite aget_aset_ne; [apply Hn; lia|]. intros E. apply (Hne i); [lia|done].
  - intros i Hi. destruct (decide (i = current_stack_len l)) as [->|]; [by rewrite Htop|].
    rewrite Hst by lia. apply Hnz. lia.
Qed.

(** Giving the upper part of a full stack back to the global list. *)
Lemma recycle_lseg hp h (st : gmap Z Z) lo k p flist G :
  lseg hp (freelist h) G -> st.[lo + Z.of_nat k] = p ->
  (forall i j, lo <= i <= lo + Z.of_nat k -> lo <= j <= lo + Z.of_nat k ->
     st.[i] = st.[j] -> i = j) ->
  (forall i, lo <= i <= lo + Z.of_nat k -> st.[i] ∉ G /\ st.[i] <> 0) ->
  (forall i, lo < i < lo + Z.of_nat k -> hp.[st.[i]] = st.[i - 1]) ->
  flist = (if decide (k = 0%nat) then 0 else st.[lo + Z.of_nat k - 1]) ->
  let last := st.[lo] in
  lseg (hp.[p <- flist]).[last <- freelist h] p
    (rev (map (fun i => st.[i]) (seqZ lo (Z.of_nat (S k)))) ++ G).
Proof.
  intros Hg Hp Hd HG Hn Hfl last. rewrite <- Hp at 2.
  apply (lseg_downward _ _ _ _ (freelist h)).
  - intros i Hi. by apply HG.
  - intros i Hi. rewrite (aget_aset_ne _ last) by (intros E; apply Hd in E; lia).
    destruct (decide (i = lo + Z.of_nat k)) as [->|].
    + rewrite Hp, aget_aset_eq, Hfl, decide_False by lia. f_equal; lia.
    + rewrite aget_aset_ne by (rewrite <- Hp; intros E; apply Hd in E; lia). apply Hn. lia.
  - apply aget_aset_eq.
  - eapply lseg_frame; [|exact Hg]. intros x Hx. rewrite !aget_aset_ne; [done| |].
    + rewrite <- Hp. intros <-. destruct (HG (lo + Z.of_nat k)) as [Hno _]; [lia|done].
    + intros <-. destruct (HG lo) as [Hno _]; [lia|done].
Qed.

Lemma free_ok G hp h ls used used' i l p hp' h' l' :
  pool_ok_with G (mk_pool hp h ls) used -> used ≡ₚ p :: used' -> ls !! i = Some l ->
  free_node_to_pool hp h l p = (hp', h', l') ->
  exists G', pool_ok_with G' (mk_pool hp' h' (<[i := l']> ls)) used'.
Proof.
  intros [Hh Hf Hc Hl Hnd Hu Ht Hb] Eu Hi. cbn [heap head locals] in *.
  pose proof Hh as [Hcfg Ha Hinc (Hb1 & Hb2 & Hb3 & Hb4)].
  pose proof (Hl i l Hi) as Hlok. pose proof Hlok as [[Hm Hfm] Hll Hfl Hfi Hla Hn Hnz].
  destruct (all_nodes_upd G ls used i l Hi) as (rest & E1 & E2 & Hr).
  assert (Hp0 : p <> 0) by (intros ->; apply Hu; rewrite Eu; set_solver).
  set (len := current_stack_len l) in *. set (st := (local_pool_stack l).[len <- p]).
  assert (Est : map (fun i => st.[i]) (seqZ 0 (len + 1)) = stack_list l ++ [p]).
  { rewrite seqZ_app, map_app by lia. f_equal.
    - apply map_seqZ_ext. intros j Hj. unfold st. by rewrite aget_aset_ne by lia.
    - change (seqZ (0 + len) 1) with [0 + (0 + len)]. cbn [map]. rewrite !Z.add_0_l.
      unfold st. by rewrite aget_aset_eq. }
  assert (Eall : all_nodes G ls used
                 ≡ₚ G ++ map (fun i => st.[i]) (seqZ 0 (len + 1)) ++ rest ++ used').
  { rewrite E1, Est, Eu. apply Permutation_app_head. rewrite <- app_assoc.
    apply Permutation_app_head. cbn [app]. by rewrite Permutation_middle. }
  rewrite Eall in Hnd.
  assert (Hgr : grown hp G (rest ++ used') st (len + 1)).
  { apply grown_of; [done|]. rewrite Est, elem_of_app, list_elem_of_singleton.
    intros [H0|]; [|congruence]. apply stack_list_elem in H0 as (j & Hj & E).
    by apply (Hnz j). }
  assert (Htop : st.[len] = p) by apply aget_aset_eq.
  assert (Hlow : forall j, j < len -> st.[j] = (local_pool_stack l).[j])
    by (intros j Hj; unfold st; by rewrite aget_aset_ne by lia).
  assert (Hne : forall j, 0 <= j < len -> (local_pool_stack l).[j] <> p).
  { intros j Hj E. rewrite <- Hlow, <- Htop in E by lia.
    apply (gr_dist _ _ _ _ _ Hgr) in E; lia. }
  assert (Hu' : 0 ∉ used') by (intros H0; apply Hu; rewrite Eu; set_solver).
  assert (Hoth : forall j l0 x, j <> i -> ls !! j = Some l0 -> x ∈ stack_list l0 ->
            forall k, 0 <= k < len + 1 -> st.[k] <> x).
  { intros j l0 x Hj Hl0 Hx k Hk <-. apply (gr_rest _ _ _ _ _ Hgr k Hk), elem_of_app.
    left. by eapply Hr. }
  unfold free_node_to_pool. fold len st. rewrite (wrap_small 32) by (split; lia).
  rewrite Hm, Hfm. destruct (decide (len + 1 > local_cache_size h)) as [Hgt|Hle].
  - rewrite (wrap_small 32 (free_list_len l + 1)) by (split; lia).
    destruct (decide (free_list_len l + 1 >= fill_free_size h)) as [Hrec|Hkeep].
    + (* the upper part goes back *)
      assert (Hlen : len + 1 = local_cache_size h + fill_free_size h) by lia.
      set (last := if decide (local_last_node l = 0) then p else local_last_node l).
      assert (Hlast : last = st.[local_cache_size h]).
      { unfold last. rewrite Hla. destruct (decide (local_cache_size h < len)).
        - rewrite decide_False by (apply Hnz; lia). by rewrite Hlow by lia.
        - rewrite decide_True by done. replace (local_cache_size h) with len by lia. done. }
      cbn [sf_pool_recycle_cache]. intros [= <- <- <-].
      set (k := Z.to_nat (fill_free_size h - 1)).
      set (F := map (fun i => st.[i]) (seqZ (local_cache_size h) (Z.of_nat (S k)))).
      assert (Hk : local_cache_size h + Z.of_nat k = len) by (unfold k; lia).
      assert (EF : map (fun i => st.[i]) (seqZ 0 (len + 1))
                   = map (fun i => st.[i]) (seqZ 0 (local_cache_size h)) ++ F).
      { unfold F. replace (len + 1) with (local_cache_size h + Z.of_nat (S k)) by lia.
        by rewrite seqZ_app, map_app by lia. }
      exists (rev F ++ G).
      rewrite (wrap_small 32 (len + 1 - fill_free_size h)) by (split; lia).
      match goal with |- pool_ok_with _ (mk_pool _ _ (<[i := ?x]> ls)) _ => set (l1 := x) end.
      assert (Esl : stack_list l1 = map (fun i => st.[i]) (seqZ 0 (local_cache_size h))).
      { unfold stack_list, l1. cbn [current_stack_len local_pool_stack].
        by replace (len + 1 - fill_free_size h) with (local_cache_size h) by lia. }
      assert (Ep : all_nodes (rev F ++ G) (<[i := l1]> ls) used'
                   ≡ₚ G ++ map (fun i => st.[i]) (seqZ 0 (len + 1)) ++ rest ++ used').
      { rewrite E2, Esl, EF, <- (Permutation_rev F).
        rewrite <- !app_assoc. rewrite (Permutation_app_swap_app F G).
        apply Permutation_app_head. by rewrite Permutation_app_swap_app. }
      rewrite Eall in Ht.
      split; cbn [heap head locals set_counts freelist free_cnt total_cnt init_size
        pool_mem_inc_time local_cache_size]; try done; try (by rewrite Ep).
      * apply (recycle_lseg hp h st (local_cache_size h) k p (local_free_list l) G) in Hf.
        -- rewrite Hlast. exact Hf.
        -- by rewrite Hk.
        -- intros a b Ha' Hb' E. by apply (gr_dist _ _ _ _ _ Hgr) in E; lia.
        -- intros a Ha'. split; [apply (gr_free _ _ _ _ _ Hgr)|apply (gr_nz _ _ _ _ _ Hgr)]; lia.
        -- intros a Ha'. rewrite !Hlow by lia. apply Hn. lia.
        -- rewrite Hfi, Hk. destruct (decide (k = 0%nat)).
           ++ rewrite decide_False by lia. done.
           ++ rewrite decide_True by lia. by rewrite Hlow by lia.
      * assert (Z.of_nat (length F) = fill_free_size h)
          by (unfold F; rewrite length_map, length_seqZ; lia).
        rewrite length_app, length_rev.
        assert (HT : total_cnt h = Z.of_nat (length G + (length (map (fun i => st.[i]) (seqZ 0 (len + 1))) + length (rest ++ used')))) by (by rewrite Ht, !length_app).
        rewrite EF, length_app in HT.
        pose proof (total_small h Hh ltac:(lia) Hb).
        rewrite wrap_small; lia.
      * eapply (locals_upd h hp); try done.
        -- intros j l0 x Hj Hl0 Hx. rewrite !aget_aset_ne; [done| |].
           ++ rewrite <- Htop. apply (Hoth _ _ _ Hj Hl0 Hx). lia.
           ++ rewrite Hlast. apply (Hoth _ _ _ Hj Hl0 Hx). lia.
        -- unfold l1. split; cbn [current_stack_len stack_max_len free_list_len free_list_max_len
             local_pool_stack local_free_list local_last_node set_counts local_cache_size
             fill_free_size]; try done; try lia.
           ++ by rewrite decide_False by lia.
           ++ by rewrite decide_False by lia.
           ++ intros a Ha'. apply (gr_nz _ _ _ _ _ Hgr). lia.
    + (* the node joins the upper part *)
      intros [= <- <- <-]. exists G.
      match goal with |- pool_ok_with _ (mk_pool _ _ (<[i := ?x]> ls)) _ => set (l1 := x) end.
      assert (Ep : all_nodes G (<[i := l1]> ls) used'
                   ≡ₚ G ++ map (fun i => st.[i]) (seqZ 0 (len + 1)) ++ rest ++ used')
        by (by rewrite E2).
      rewrite Eall in Ht.
      split; cbn [heap head locals]; try done; try (by rewrite Ep).
      * eapply lseg_frame; [|exact Hf]. intros x Hx. rewrite aget_aset_ne; [done|].
        rewrite <- Htop. intros <-. by apply (gr_free _ _ _ _ _ Hgr len); [lia|].
      * eapply (locals_upd h hp); try done.
        -- intros j l0 x Hj Hl0 Hx. rewrite aget_aset_ne; [done|].
           rewrite <- Htop. apply (Hoth _ _ _ Hj Hl0 Hx). lia.
        -- unfold l1. pose proof (free_keep_ok h hp l p Hh Hlok Hp0 Hne) as Hk.
           rewrite (wrap_small 32 (free_list_len l + 1)) in Hk by (split; lia).
           fold len st in Hk. rewrite Hm, Hfm in Hk. apply Hk; lia.
  - (* the node joins the lower part *)
    intros [= <- <- <-]. exists G.
    match goal with |- pool_ok_with _ (mk_pool _ _ (<[i := ?x]> ls)) _ => set (l1 := x) end.
    assert (Ep : all_nodes G (<[i := l1]> ls) used'
                 ≡ₚ G ++ map (fun i => st.[i]) (seqZ 0 (len + 1)) ++ rest ++ used')
      by (by rewrite E2).
    rewrite Eall in Ht.
    split; cbn [heap head locals]; try done; try (by rewrite Ep).
    eapply (locals_upd h hp); try done. unfold l1.
    split; cbn [current_stack_len stack_max_len free_list_len free_list_max_len
      local_pool_stack local_free_list local_last_node]; try done; try lia.
    + rewrite Hfi, !decide_False by lia. done.
    + rewrite Hla, !decide_False by lia. done.
    + intros a Ha'. by apply (gr_nz _ _ _ _ _ Hgr).
Qed.
