(* ===== verification/SfPoolRun.v ===== *)
(** * Runs of the pool

    The steps of all workers and of the owners of nodes, and what holds of every
    pool they can reach from initialisation. *)
From S2P Require Import Prelude SfPool SfPoolInv.

(** ** Initialisation *)

Definition block (align mem n : Z) : list Z := map (fun j => mem + align * j) (seqZ 0 n).

(** The allocator's successive answers do not overlap. *)
Fixpoint fresh_blocks (align n : Z) (U mems : list Z) : Prop :=
  match mems with
  | [] => True
  | m :: mems =>
      (m <> 0 -> forall x, x ∈ block align m n -> x <> 0 /\ x ∉ U) /\
      fresh_blocks align n (if decide (m <> 0) then U ++ block align m n else U) mems
  end.

Lemma push_loop_spec n hp flist m align i G hp' flist' :
  0 < align -> lseg hp flist G ->
  (forall j, i <= j < i + Z.of_nat n -> m + j * align <> 0 /\ m + j * align ∉ G) ->
  push_loop n hp flist m align i = (hp', flist') ->
  lseg hp' flist' (rev (map (fun j => m + align * j) (seqZ i (Z.of_nat n))) ++ G).
Proof.
  intros Ha. revert hp flist i G. induction n as [|n IH]; intros hp flist i G Hl Hf;
    cbn [push_loop].
  - by intros [= <- <-].
  - intros E. destruct (Hf i ltac:(lia)) as [Hnz Hni].
    apply IH with (G := m + i * align :: G) in E.
    + rewrite seqZ_cons by lia. replace (Z.pred (Z.of_nat (S n))) with (Z.of_nat n) by lia.
      change (Z.succ i) with (i + 1). cbn [map rev]. rewrite <- app_assoc. cbn [app].
      by rewrite (Z.mul_comm align i).
    + cbn [lseg]. split_and!; [done|done|]. rewrite aget_aset_eq.
      eapply lseg_frame; [|exact Hl]. intros x Hx. rewrite aget_aset_ne; [done|]. by intros <-.
    + intros j Hj. destruct (Hf j ltac:(lia)) as [H1 H2]. split; [done|].
      rewrite elem_of_cons. intros [E'|?]; [|done]. nia.
Qed.

Lemma init_local_core hp h G R m h' l :
  fill_pre hp h G R -> fresh_mem h (G ++ R) m (local_cache_size h) ->
  sf_pool_init_local hp h m = (h', l) ->
  exists G', fill_pre hp h' G' (stack_list l ++ R) /\ same_config h h' /\
    local_ok h' hp l /\ 0 ∉ stack_list l /\
    (forall x, x ∈ G' ++ stack_list l -> x ∈ G \/
       (m <> 0 /\ x ∈ block (data_align_len h) m (local_cache_size h))).
Proof.
  intros Hp Hfr. unfold sf_pool_init_local.
  destruct (sf_pool_fill_cache hp h ∅ false m) as [[h1 st] ret] eqn:Ef. intros [= <- <-].
  destruct (fill_core _ _ _ _ _ false _ _ _ _ Hp Hfr Ef)
    as (G' & T & Hp' & Hs & Hst & Hret & Hr & H0 & _ & Hsub). cbn iota in *.
  exists G'. assert (Esl : forall fl, stack_list (mk_local ret (local_cache_size h) 0 fl st 0 0) = T)
    by (intros fl; exact Hst).
  rewrite !Esl. split_and!; [done|done| |done|].
  - pose proof Hp as [[Hcfg _ _ _] _ _ _ _ _].
    pose proof (sc_cache _ _ Hs) as Ec. pose proof (sc_fill _ _ Hs) as Efl.
    split; cbn [current_stack_len stack_max_len free_list_len free_list_max_len
      local_pool_stack local_free_list local_last_node]; rewrite ?Ec, ?Efl; try done; try lia.
    + by rewrite decide_False by lia.
    + by rewrite decide_False by lia.
    + intros j Hj E. apply H0. rewrite <- Hst, <- E. apply list_elem_of_fmap. exists j.
      split; [done|]. apply elem_of_seqZ. lia.
  - intros x Hx. destruct (Hsub x Hx) as [?|(Hm & j & Hj & ->)]; [by left|right].
    split; [done|]. apply list_elem_of_fmap. exists j. split; [done|]. apply elem_of_seqZ. lia.
Qed.

Lemma same_config_trans h1 h2 h3 : same_config h1 h2 -> same_config h2 h3 -> same_config h1 h3.
Proof. intros [] []. split; congruence. Qed.

Lemma init_locals_core hp h G R U mems h' ls :
  fill_pre hp h G R -> (forall x, x ∈ G ++ R -> x ∈ U) ->
  fresh_blocks (data_align_len h) (local_cache_size h) U mems ->
  init_locals hp h mems = (h', ls) ->
  exists G', fill_pre hp h' G' (concat (map stack_list ls) ++ R) /\ same_config h h' /\
    (forall (j : nat) l, ls !! j = Some l -> local_ok h' hp l) /\ length ls = length mems.
Proof.
  revert h G R U h' ls. induction mems as [|m mems IH]; intros h G R U h' ls Hp HU Hfr;
    cbn [init_locals].
  - intros [= <- <-]. exists G. by split_and!.
  - destruct (sf_pool_init_local hp h m) as [h1 l] eqn:E1.
    destruct (init_locals hp h1 mems) as [h2 ls2] eqn:E2. intros [= <- <-].
    cbn [fresh_blocks] in Hfr. destruct Hfr as [Hm Hfr].
    assert (Hfm : fresh_mem h (G ++ R) m (local_cache_size h)).
    { intros Hnz j Hj. destruct (Hm Hnz (m + data_align_len h * j)) as [H1 H2].
      - apply list_elem_of_fmap. exists j. split; [done|]. apply elem_of_seqZ. lia.
      - split; [done|]. intros Hin. by apply H2, HU. }
    destruct (init_local_core _ _ _ _ _ _ _ Hp Hfm E1) as (G1 & Hp1 & Hs1 & Hl1 & H01 & Hsub).
    rewrite <- (sc_align _ _ Hs1), <- (sc_cache _ _ Hs1) in Hfr.
    assert (HU1 : forall x, x ∈ G1 ++ stack_list l ++ R -> x ∈ (if decide (m <> 0) then
        U ++ block (data_align_len h1) m (local_cache_size h1) else U)).
    { intros x Hx. rewrite (sc_align _ _ Hs1), (sc_cache _ _ Hs1).
      rewrite app_assoc, elem_of_app in Hx.
      assert (x ∈ G ++ R \/ (m <> 0 /\ x ∈ block (data_align_len h) m (local_cache_size h)))
        as Hx'.
      { destruct Hx as [Hx|Hx]; [|left; apply elem_of_app; by right].
        destruct (Hsub x Hx) as [?|?]; [left; apply elem_of_app; by left|by right]. }
      case_decide as Hz; [rewrite elem_of_app|];
        destruct Hx' as [Hx'|[? Hx']]; auto; done. }
    destruct (IH _ _ _ _ _ _ Hp1 HU1 Hfr E2) as (G2 & Hp2 & Hs2 & Hl2 & Hlen).
    exists G2. split_and!.
    + cbn [map concat]. assert (Ep : (stack_list l ++ concat (map stack_list ls2)) ++ R
        ≡ₚ concat (map stack_list ls2) ++ stack_list l ++ R)
        by (rewrite <- app_assoc; apply Permutation_app_swap_app).
      destruct Hp2 as [A1 A2 A3 A4 A5 A6]. split; try done.
      * by rewrite Ep.
      * by rewrite Ep.
    + by eapply same_config_trans.
    + intros [|j] l0; cbn; [intros [= <-]|apply Hl2].
      eapply head_frame; [|exact Hs2|done]. apply Hp1.
    + cbn. by rewrite Hlen.
Qed.

(** What the code's callers must provide. *)
Record init_args_ok (data_len init_n cache fill inc mem : Z) (mems : list Z) : Prop := {
  ia_len : 0 < data_len < 2 ^ 31;
  ia_cfg : 0 < fill /\ 0 <= cache /\ 0 <= init_n /\ 0 <= inc < 2 ^ 32 /\ cache + fill < 2 ^ 32;
  ia_bound : init_n * Z.of_nat (length mems) + inc * cache < 2 ^ 32;
  ia_mem : forall x, x ∈ block (align_data_len data_len) mem (init_n * Z.of_nat (length mems)) -> x <> 0;
  ia_fresh : fresh_blocks (align_data_len data_len) cache
    (block (align_data_len data_len) mem (init_n * Z.of_nat (length mems))) mems
}.

Lemma align_data_len_pos n : 0 < n < 2 ^ 31 -> 64 <= align_data_len n /\ n <= align_data_len n.
Proof.
  intros Hn. unfold align_data_len. pose proof (Z.div_mod n 64 ltac:(lia)).
  pose proof (Z.mod_pos_bound n 64 ltac:(lia)).
  destruct (decide (n <= 64)); [lia|].
  assert (n / 64 <= 2 ^ 31 / 64) by (apply Z.div_le_mono; lia).
  change (2 ^ 31 / 64) with (2 ^ 25) in *.
  case_decide; rewrite !wrap_small; try lia; try (split; try lia);
    rewrite ?wrap_small by (split; lia); lia.
Qed.

Lemma block_seqZ align m n :
  0 < align -> NoDup (block align m n).
Proof.
  intros Ha. apply NoDup_fmap_2_strong; [|apply NoDup_seqZ]. intros x y _ _ E. nia.
Qed.

Lemma init_ok data_len init_n cache fill inc mem mems s :
  init_args_ok data_len init_n cache fill inc mem mems ->
  sf_pool_init data_len init_n cache fill inc mem mems = Some s ->
  pool_ok s [] /\ length (locals s) = length mems.
Proof.
  intros [Hdl (Hf & Hca & Hi & Hinc & Hcf) Hb Hmem Hfr]. unfold sf_pool_init. cbv zeta.
  assert (Hn : 0 <= init_n * Z.of_nat (length mems)) by (apply Z.mul_nonneg_nonneg; lia).
  assert (0 <= inc * cache) by (apply Z.mul_nonneg_nonneg; lia).
  rewrite wrap_small by lia.
  set (n := init_n * Z.of_nat (length mems)) in *.
  destruct (align_data_len_pos data_len Hdl) as [Ha _]. set (align := align_data_len data_len) in *.
  case_decide as Hcf'; [done|]. case_decide; [done|].
  destruct (push_loop _ _ _ _ _ _) as [hp flist] eqn:Ep.
  apply push_loop_spec with (G := []) in Ep; [|lia|done|].
  2:{ intros j Hj. split; [|apply not_elem_of_nil]. rewrite Z.mul_comm. apply Hmem.
      apply list_elem_of_fmap. exists j. split; [done|]. apply elem_of_seqZ. lia. }
  rewrite app_nil_r, Z2Nat.id in Ep by lia. fold (block align mem n) in Ep.
  destruct (init_locals _ _ _) as [h ls] eqn:El. intros [= <-].
  assert (Hlen : Z.of_nat (length (rev (block align mem n))) = n)
    by (unfold block; rewrite length_rev, length_map, length_seqZ; lia).
  set (h0 := mk_head n fill inc cache align 0 n n flist) in El.
  assert (Hpre : fill_pre hp h0 (rev (block align mem n)) []).
  { split; cbn; rewrite ?app_nil_r; try done; try lia.
    - split; cbn; try lia; unfold n in *; lia.
    - rewrite <- Permutation_rev. apply block_seqZ. lia. }
  assert (HU : forall x, x ∈ rev (block align mem n) ++ [] -> x ∈ block align mem n)
    by (intros x; rewrite app_nil_r; by rewrite <- Permutation_rev).
  destruct (init_locals_core _ _ _ _ _ _ _ _ Hpre HU Hfr El)
    as (G & [A1 A2 A3 A4 A5 A6] & Hs & Hls & Hlls).
  rewrite app_nil_r in A4, A5. split; [|done]. exists G.
  split; cbn [heap head locals]; try done; unfold all_nodes; rewrite ?app_nil_r; try done.
  apply not_elem_of_nil.
Qed.

(** ** Steps *)

(** [used] are the nodes the program owns.  A worker allocates (the allocator
    may answer with fresh memory or with NULL), a worker releases an owned node,
    and an owner writes its node's first word. *)
Inductive pool_step : pool_state * list Z -> pool_state * list Z -> Prop :=
| ps_alloc s used (i : nat) l mem h' l' p :
    locals s !! i = Some l ->
    (forall G, pool_ok_with G s used ->
       fresh_mem (head s) (all_nodes G (locals s) used) mem (fill_free_size (head s))) ->
    alloc_node_from_pool (heap s) (head s) l mem = (h', l', p) ->
    pool_step (s, used) (mk_pool (heap s) h' (<[i := l']> (locals s)),
                         if decide (p = 0) then used else p :: used)
| ps_free s used used' (i : nat) l p hp' h' l' :
    used ≡ₚ p :: used' -> locals s !! i = Some l ->
    free_node_to_pool (heap s) (head s) l p = (hp', h', l') ->
    pool_step (s, used) (mk_pool hp' h' (<[i := l']> (locals s)), used')
| ps_write s used p v :
    p ∈ used -> pool_step (s, used) (mk_pool (heap s).[p <- v] (head s) (locals s), used).

Definition pool_init_state (s : pool_state * list Z) : Prop :=
  snd s = [] /\ exists data_len init_n cache fill inc mem mems,
    init_args_ok data_len init_n cache fill inc mem mems /\
    sf_pool_init data_len init_n cache fill inc mem mems = Some (fst s).

Lemma pool_step_ok s s' : pool_ok (fst s) (snd s) -> pool_step s s' -> pool_ok (fst s') (snd s').
Proof.
  intros [G Hp] Hs. destruct Hs as [s used i l mem h' l' p Hi Hfr Ea|s used used' i l p hp' h' l' Eu Hi Ef
    |s used p v Hin]; cbn [fst snd] in *; destruct s as [hp h ls]; cbn [heap head locals] in *.
  - destruct (alloc_ok _ _ _ _ _ _ _ _ _ _ _ Hp Hi (Hfr G Hp) Ea)
      as [(-> & -> & -> & _)|(Hnz & _ & G' & Hp')].
    + rewrite decide_True by done. exists G. by rewrite list_insert_id.
    + rewrite decide_False by done. by exists G'.
  - by eapply free_ok.
  - exists G. destruct Hp as [Hh Hf Hc Hl Hnd Hu Ht Hb]. cbn [heap head locals] in *.
    unfold all_nodes in Hnd. split; cbn [heap head locals]; try done.
    + eapply lseg_frame; [|exact Hf]. intros x Hx. rewrite aget_aset_ne; [done|]. intros <-.
      eapply (nodup_app_disj _ _ _ Hnd Hx). apply elem_of_app. by right.
    + intros i l Hi. eapply (local_ok_frame (h) h); [done|done|done| |by eapply Hl].
      intros x Hx. rewrite aget_aset_ne; [done|]. intros <-.
      apply NoDup_app in Hnd as (_ & _ & Hnd). eapply (nodup_app_disj _ _ _ Hnd); [|exact Hin].
      apply list_elem_of_In, in_concat. exists (stack_list l). split; [|by apply list_elem_of_In].
      apply in_map, list_elem_of_In. by eapply list_elem_of_lookup_2.
Qed.

Lemma pool_reach_ok s : reach pool_init_state pool_step s -> pool_ok (fst s) (snd s).
Proof.
  apply (reach_invariant _ _ (fun s => pool_ok (fst s) (snd s))).
  - intros [s0 used] (Hu & a & b & c & d & e & f & g & Ha & E). cbn in Hu. subst.
    by eapply init_ok.
  - intros s1 s2. apply pool_step_ok.
Qed.

(** ** Properties *)

(** C13: in every state the workers can reach, an allocation that returns a node
    returns one that no one owns, that is in no other cache and not on the
    global list any more, and a failing allocation (NULL) happens only when the
    worker's cache and the global list are empty and no more memory may be or
    can be taken; it changes nothing. *)
Theorem pool_alloc_safe s used (i : nat) l mem h' l' p :
  reach pool_init_state pool_step (s, used) ->
  locals s !! i = Some l ->
  (forall G, pool_ok_with G s used ->
     fresh_mem (head s) (all_nodes G (locals s) used) mem (fill_free_size (head s))) ->
  alloc_node_from_pool (heap s) (head s) l mem = (h', l', p) ->
  (p <> 0 -> p ∉ used /\ pool_ok (mk_pool (heap s) h' (<[i := l']> (locals s))) (p :: used)) /\
  (p = 0 -> h' = head s /\ l' = l /\ current_stack_len l = 0 /\ freelist (head s) = 0 /\
     (mem = 0 \/ pool_mem_inc_time (head s) = pool_mem_inc_max (head s))).
Proof.
  intros Hr Hi Hfr Ea. apply pool_reach_ok in Hr as [G Hp]. cbn [fst snd] in Hp.
  destruct s as [hp h ls]. cbn [heap head locals] in *.
  destruct (alloc_ok _ _ _ _ _ _ _ _ _ _ _ Hp Hi (Hfr G Hp) Ea)
    as [(-> & -> & -> & Hl & -> & Hw)|(Hnz & Hnu & G' & Hp')].
  - split; [done|]. intros _. split_and!; try done. apply (po_free _ _ _ Hp).
  - split; [|done]. intros _. split; [done|]. by exists G'.
Qed.

(** C35: the pool's counters account for every node ever made, in every
    reachable state: [total_cnt] is the number of nodes on the global list, in
    the workers' caches and in the program's hands, [free_cnt] is the length of
    the global list, and no stack is longer than its array. *)
Theorem pool_conservation s used :
  reach pool_init_state pool_step (s, used) ->
  total_cnt (head s) = free_cnt (head s)
    + fold_right Z.add 0 (map current_stack_len (locals s)) + Z.of_nat (length used) /\
  (freelist (head s) = 0 <-> free_cnt (head s) = 0) /\
  forall (i : nat) l, locals s !! i = Some l ->
    0 <= current_stack_len l < stack_max_len l + free_list_max_len l /\
    free_list_len l = Z.max 0 (current_stack_len l - stack_max_len l).
Proof.
  intros Hr%pool_reach_ok. destruct Hr as [G [Hh Hf Hc Hl Hnd Hu Ht Hb]]. cbn [fst snd] in *.
  split_and!.
  - rewrite Ht, Hc. unfold all_nodes. rewrite !length_app.
    assert (Hs : forall ls, (forall i l, ls !! i = Some l -> local_ok (head s) (heap s) l) ->
              Z.of_nat (length (concat (map stack_list ls)))
              = fold_right Z.add 0 (map current_stack_len ls)).
    { induction ls as [|l ls IH]; intros Hls; [done|]. cbn. rewrite length_app.
      rewrite <- IH by (intros i l0 Hi; apply (Hls (S i)); done).
      pose proof (stack_list_length l (proj1 (lo_len _ _ _ (Hls 0%nat l eq_refl)))). lia. }
    specialize (Hs _ Hl). lia.
  - rewrite Hc. rewrite (lseg_nil _ _ _ Hf). split; [by intros ->|]. destruct G; cbn; [done|lia].
  - intros i l Hi. destruct (Hl i l Hi) as [[-> ->] Hll Hfl _ _ _ _]. split; [lia|done].
Qed.

(** *** Witnesses: two workers, eight nodes *)

Definition demo_pool : pool_state :=
  default (mk_pool ∅ (mk_head 0 0 0 0 0 0 0 0 0) []) (sf_pool_init 100 4 3 2 1 1000 [0; 0]).

Lemma demo_args : init_args_ok 100 4 3 2 1 1000 [0; 0].
Proof.
  split; [lia|lia|cbn; lia| |].
  2:{ cbn [fresh_blocks]. split_and!; [by intros ?|by intros ?|done]. }
  intros x Hx. apply list_elem_of_fmap in Hx as (j & -> & Hj%elem_of_seqZ).
  change (align_data_len 100) with 128. lia.
Qed.

Lemma demo_pool_reach : reach pool_init_state pool_step (demo_pool, []).
Proof.
  apply reach_init. split; [done|]. exists 100, 4, 3, 2, 1, 1000, [0; 0].
  split; [apply demo_args|]. vm_compute. reflexivity.
Qed.

Theorem pool_alloc_safe_witness :
  exists h' l' p, p <> 0 /\ pool_ok (mk_pool (heap demo_pool) h' (<[0%nat := l']> (locals demo_pool))) [p].
Proof.
  destruct (locals demo_pool !! 0%nat) as [l|] eqn:El; [|vm_compute in El; discriminate].
  destruct (alloc_node_from_pool (heap demo_pool) (head demo_pool) l 0) as [[h' l'] p] eqn:Ea.
  assert (Hp : p <> 0).
  { change p with (snd (h', l', p)). rewrite <- Ea.
    assert (Some l = locals demo_pool !! 0%nat) as El' by done. vm_compute in El'.
    injection El' as ->. vm_compute. discriminate. }
  exists h', l', p. split; [exact Hp|].
  apply (pool_alloc_safe demo_pool [] 0 l 0 h' l' p); [apply demo_pool_reach|exact El| |exact Ea|exact Hp].
  intros G _ H0. by destruct H0.
Defined.

Theorem pool_conservation_witness :
  total_cnt (head demo_pool) = 8 /\ free_cnt (head demo_pool) = 2 /\
  total_cnt (head demo_pool) = free_cnt (head demo_pool)
    + fold_right Z.add 0 (map current_stack_len (locals demo_pool)) + Z.of_nat (length (@nil Z)).
Proof.
  split; [vm_compute; reflexivity|]. split; [vm_compute; reflexivity|].
  apply (pool_conservation demo_pool []). apply demo_pool_reach.
Defined.
