(* ===== verification/Shm.v ===== *)
(** * The shared memory of the settings

    Models [nshell-lib/shm-manage/shm_map.c] and [shm_utils.c], which lay the
    settings and the statistics of every module out in one shared memory and save
    the settings to a file and load them again, with [sf_shm_map.h],
    [sf_shm_main.h] and the calls of [sf_plugin_api/global_api.c] over it.
    Addresses are offsets in the shared memory; [sf_shm_main_t] is at 0, 88 bytes
    long, and the table of the regions, 40 bytes for each, behind it.  A file is
    the list of its bytes; reading it does not fail before its end, and how much of
    a block is written is a parameter. *)
From S2P Require Import Prelude Wdata.

Implicit Types (m : gmap Z Z) (f : list Z).

(** ** Layout *)

Definition SHM_MAIN_SIZE : Z := 88.
Definition SHM_MAP_SIZE : Z := 40.
Definition SF_SHM_MEM_VERSION_LEN : Z := 32.
Definition SF_SHM_MEM_VERSION_MIN_LEN : Z := 11.
Definition SF_SHM_MEM_DEVICE_TYPE_LEN : Z := 31.
Definition device_type_name : Z := 32.
Definition sync_lock : Z := 63.
Definition status : Z := 64.
Definition used_mem : Z := 68.
Definition free_mem : Z := 72.
Definition config_mem_start : Z := 76.
Definition config_mem_end : Z := 80.
Definition map_count : Z := 84.
Definition shm_maps (i : Z) : Z := SHM_MAIN_SIZE + SHM_MAP_SIZE * i.
Definition map_offset (i : Z) : Z := shm_maps i + 32.
Definition map_len (i : Z) : Z := shm_maps i + 36.
Definition PADDING_AFTER_SHM_MAPS : Z := SHM_MAP_SIZE.
Definition MAP_NOT_READY : Z := 0.
Definition MAP_MEM_FINISH : Z := 1.
Definition SF_SHM_MEM_TYPE_CONFIG : Z := 0.
Definition SF_SHM_MEM_TYPE_STAT : Z := 1.

Definition get32 m (a : Z) : Z := le_at m a 4.
Definition set32 (a v : Z) m : gmap Z Z := poke m a (le_bytes 4 v).

(** The text that starts at an address of an array of [n] bytes. *)
Definition text_at m (a n : Z) : list Z := cstr (bytes_at m a (Z.to_nat n)).

(** [callback_ptr] is the variable that holds the address of the region; an
    initialiser gets the memory, the region's address and whether it is a reset. *)
Record sf_shm_map_registration_t := mk_reg {
  reg_name : list Z;
  mem_type : Z;
  reg_len : Z;
  callback_ptr : Z;
  init_func : option (gmap Z Z -> Z -> bool -> gmap Z Z * Z)
}.
Implicit Types (r x : sf_shm_map_registration_t) (regs : list sf_shm_map_registration_t).

Fixpoint strcmp (a b : list Z) : Z :=
  match a, b with
  | [], [] => 0
  | [], y :: _ => - y
  | x :: _, [] => x
  | x :: a, y :: b => if decide (x = y) then strcmp a b else x - y
  end.

(** ** The order of the regions *)

Definition compare_shm_reg_name r x : Z := strcmp (reg_name r) (reg_name x).

(** The walk along the sorted list behind [prev]. *)
Fixpoint sort_walk x prev regs : list sf_shm_map_registration_t :=
  match regs with
  | [] => [prev; x]
  | next :: rest =>
      if decide (compare_shm_reg_name prev x < 0 /\ compare_shm_reg_name next x > 0) then prev :: x :: regs
      else prev :: sort_walk x next rest
  end.
Definition sort_insert regs x : list sf_shm_map_registration_t :=
  match regs with
  | [] => [x]
  | head :: rest => if decide (compare_shm_reg_name x head < 0) then x :: regs else sort_walk x head rest
  end.
Definition sort_shm_config_reg_by_name regs : list sf_shm_map_registration_t := foldl sort_insert [] regs.

Definition of_type (t : Z) regs : list sf_shm_map_registration_t := filter (fun r => mem_type r = t) regs.
Definition sort_shm_map_reg_outside regs : list sf_shm_map_registration_t :=
  sort_shm_config_reg_by_name (of_type SF_SHM_MEM_TYPE_CONFIG regs) ++ of_type SF_SHM_MEM_TYPE_STAT regs.

(** The answer and the new value of the cached count. *)
Definition get_shm_map_count_outside (re_count : bool) (mudole_count : Z) regs : Z * Z :=
  if negb (re_count || (mudole_count =? 0)) then (mudole_count, mudole_count)
  else let count := u32 (Z.of_nat (length regs)) in (count, count).
Definition get_shm_map_total_len_outside (re_count : bool) (module_shm_total_len : Z) regs : Z * Z :=
  if negb (re_count || (module_shm_total_len =? 0)) then (module_shm_total_len, module_shm_total_len)
  else let count := foldl (fun count r => u32 (count + reg_len r)) 0 regs in (count, count).

(** The registrations are made before the program starts, so the caches never
    change what is counted. *)
Definition MAIN_SHM_LEN regs : Z :=
  SHM_MAIN_SIZE + SHM_MAP_SIZE * fst (get_shm_map_count_outside false 0 regs) + PADDING_AFTER_SHM_MAPS +
  fst (get_shm_map_total_len_outside false 0 regs).

(** ** Laying the regions out *)

(** [sf_memset_zero]: eight bytes at a time, then one. *)
Fixpoint zero_words (n : nat) (p : Z) m : gmap Z Z :=
  match n with O => m | S n => zero_words n (p + 8) (poke m p (le_bytes 8 0)) end.
Fixpoint zero_bytes (n : nat) (p : Z) m : gmap Z Z :=
  match n with O => m | S n => zero_bytes n (p + 1) m.[p <- 0] end.
Definition sf_memset_zero (p count : Z) m : gmap Z Z :=
  zero_bytes (Z.to_nat (count mod 8)) (p + 8 * (count / 8)) (zero_words (Z.to_nat (count / 8)) p m).

Definition get_shm_map_status (shm : option (gmap Z Z)) : Z :=
  match shm with None => -1 | Some m => get32 m status end.

Definition init_shm_main regs (shm : option (gmap Z Z)) : option (gmap Z Z) * Z :=
  match shm with
  | None => (None, -1)
  | Some m =>
      let m := set32 status MAP_NOT_READY m in
      let m := set32 used_mem SHM_MAIN_SIZE m in
      let m := set32 free_mem (MAIN_SHM_LEN regs - SHM_MAIN_SIZE) m in
      (Some (set32 map_count 0 m), 0)
  end.

Definition s32 (z : Z) : Z := (z + 2 ^ 31) mod 2 ^ 32 - 2 ^ 31.
Definition check_shm_main regs m : Z :=
  let old := s32 (get32 m used_mem) + s32 (get32 m free_mem) in
  if decide (MAIN_SHM_LEN regs <> old) then MAIN_SHM_LEN regs - old else 0.

Fixpoint table_loop regs m : gmap Z Z :=
  match regs with
  | [] => m
  | r :: regs =>
      let m := set32 map_count (get32 m map_count + 1) m in
      let shm_map := get32 m map_count - 1 in
      let m := poke m (shm_maps shm_map) (reg_name r ++ [0]) in
      table_loop regs (set32 (map_len shm_map) (reg_len r) m)
  end.

(** The loop over the table from entry [i]; [None] where it would follow a null
    pointer. *)
Fixpoint offset_loop regs (i pre_offset shm_len start_ptr : Z) m (ptrs : gmap Z Z) : option (gmap Z Z * gmap Z Z * Z * Z) :=
  if decide (i < get32 m map_count) then
    match regs with
    | [] => None
    | r :: regs =>
        if decide (strcmp (reg_name r) (text_at m (shm_maps i) 32) <> 0) then Some (m, ptrs, pre_offset, -1)
        else if decide (reg_len r <> get32 m (map_len i)) then Some (m, ptrs, pre_offset, -1)
        else if decide (u32 (pre_offset + get32 m (map_len i)) > shm_len) then Some (m, ptrs, pre_offset, -2)
        else
          let m := if decide (mem_type r <> SF_SHM_MEM_TYPE_CONFIG /\ get32 m config_mem_end = get32 m config_mem_start)
                   then set32 config_mem_end (pre_offset - 1) m else m in
          let m := set32 (map_offset i) pre_offset m in
          let ptrs := ptrs.[callback_ptr r <- start_ptr + pre_offset] in
          let m := match init_func r with
                   | Some init => fst (init m pre_offset false)
                   | None => sf_memset_zero pre_offset (reg_len r) m
                   end in
          offset_loop regs (i + 1) (u32 (pre_offset + reg_len r)) shm_len start_ptr m ptrs
    end
  else Some (m, ptrs, pre_offset, 0).

(** The offset of the first region of a name, from entry [i]. *)
Fixpoint find_map (n : nat) (i : Z) (name : list Z) m : option Z :=
  match n with
  | O => None
  | S n => if decide (strcmp name (text_at m (shm_maps i) 32) = 0) then Some (get32 m (map_offset i)) else find_map n (i + 1) name m
  end.
Fixpoint update_loop regs (start_ptr : Z) m (ptrs : gmap Z Z) : gmap Z Z :=
  match regs with
  | [] => ptrs
  | r :: regs =>
      let ptrs := ptrs.[callback_ptr r <- 0] in
      let ptrs := match find_map (Z.to_nat (get32 m map_count)) 0 (reg_name r) m with
                  | Some offset => if decide (offset <> 0) then ptrs.[callback_ptr r <- start_ptr + offset] else ptrs
                  | None => ptrs
                  end in
      update_loop regs start_ptr m ptrs
  end.
Definition update_shm_map_map regs (start_ptr : Z) (shm : option (gmap Z Z)) (ptrs : gmap Z Z) : gmap Z Z * Z :=
  match shm with
  | None => (ptrs, -1)
  | Some m => if decide (get32 m status = MAP_NOT_READY) then (ptrs, -1) else (update_loop regs start_ptr m ptrs, 0)
  end.

(** [regs] are the regions, [in_lib] the variables of the configuration library. *)
Definition start_shm_map_malloc (version device : list Z) regs in_lib (update_map_in_lib : bool) (start_ptr : Z)
    (shm : option (gmap Z Z)) (ptrs : gmap Z Z) : option (option (gmap Z Z) * gmap Z Z * Z) :=
  match shm with
  | None => Some (None, ptrs, -1)
  | Some m =>
      let m := poke m 0 (strncpy (Z.to_nat SF_SHM_MEM_VERSION_LEN) version []) in
      let m := poke m device_type_name (strncpy (Z.to_nat SF_SHM_MEM_DEVICE_TYPE_LEN) device []) in
      if decide (Z.of_nat (length (text_at m 0 SF_SHM_MEM_VERSION_LEN)) < SF_SHM_MEM_VERSION_MIN_LEN) then Some (Some m, ptrs, -3)
      else
        let m := m.[sync_lock <- 0] in
        let sorted := sort_shm_map_reg_outside regs in
        let m := table_loop sorted m in
        let pre_offset := u32 (SHM_MAIN_SIZE + get32 m map_count * SHM_MAP_SIZE + PADDING_AFTER_SHM_MAPS) in
        let m := set32 config_mem_start pre_offset m in
        let m := set32 config_mem_end (get32 m config_mem_start) m in
        let? (m, ptrs, pre_offset, ret) := offset_loop sorted 0 pre_offset (MAIN_SHM_LEN sorted) start_ptr m ptrs in
        if decide (ret <> 0) then Some (Some m, ptrs, ret)
        else
          let m := set32 used_mem pre_offset m in
          let m := set32 free_mem (MAIN_SHM_LEN sorted - get32 m used_mem) m in
          let m := set32 status MAP_MEM_FINISH m in
          let ptrs := if update_map_in_lib then fst (update_shm_map_map in_lib start_ptr (Some m) ptrs) else ptrs in
          Some (Some m, ptrs, 0)
  end.

(** ** Saving and loading the settings *)

Definition SHM_COPY_BYTES_EACH_TIME : Z := 2048.

(** [written k]: how many bytes the write of the block at [k] takes. *)
Fixpoint save_loop (n : nat) (pre_offset : Z) (written : Z -> Z) m f : list Z * Z * bool :=
  match n with
  | O => (f, pre_offset, true)
  | S n =>
      let ret := written pre_offset in
      let f := f ++ take (Z.to_nat ret) (bytes_at m pre_offset (Z.to_nat SHM_COPY_BYTES_EACH_TIME)) in
      if decide (ret <= 0) then (f, pre_offset, false)
      else save_loop n (u32 (pre_offset + SHM_COPY_BYTES_EACH_TIME)) written m f
  end.

(** The file, if one is left, and the answer; [opened]: whether it could be created. *)
Definition save_shm_config_to_file (shm : option (gmap Z Z)) (named opened : bool) (written : Z -> Z) (old : option (list Z)) :
    option (list Z) * Z :=
  match shm with
  | None => (old, -1)
  | Some m =>
      if negb named then (old, -1)
      else if negb opened then (None, -1)
      else
        let total_len := u32 (get32 m config_mem_end + 1) in
        let '(f, pre_offset, ok) := save_loop (Z.to_nat (total_len / SHM_COPY_BYTES_EACH_TIME)) 0 written m [] in
        if negb ok then (Some f, -1)
        else
          let total_len := total_len mod SHM_COPY_BYTES_EACH_TIME in
          if decide (total_len > 0) then
            let ret := written pre_offset in
            let f := f ++ take (Z.to_nat ret) (bytes_at m pre_offset (Z.to_nat total_len)) in
            if decide (ret <= 0) then (Some f, -1) else (Some f, 0)
          else (Some f, 0)
  end.

(** A 32-bit field of a structure that was read into a buffer. *)
Definition field32 (buf : list Z) (a : Z) : Z := foldr (fun b acc => b + 256 * acc) 0 (take 4 (drop (Z.to_nat a) buf)).

Definition check_sf_shm_main m (b : list Z) : Z :=
  if decide (cstr (bytes_at m 0 (Z.to_nat SF_SHM_MEM_VERSION_LEN)) <> cstr (take (Z.to_nat SF_SHM_MEM_VERSION_LEN) b)) then -1
  else if decide (get32 m config_mem_start <> field32 b config_mem_start \/ get32 m config_mem_end <> field32 b config_mem_end \/
                  get32 m map_count <> field32 b map_count) then -1
  else 0.

(** The entries of the table from entry [i] against the file. *)
Fixpoint check_maps (n : nat) (i end_offset : Z) m f : Z :=
  match n with
  | O => 0
  | S n =>
      if decide (get32 m (map_offset i) > end_offset) then 0
      else
        let shm_map_buffer := take (Z.to_nat SHM_MAP_SIZE) (drop (Z.to_nat (shm_maps i)) f) in
        if decide (Z.of_nat (length shm_map_buffer) < SHM_MAP_SIZE) then -1
        else if decide (memcmp shm_map_buffer (bytes_at m (shm_maps i) (Z.to_nat SHM_MAP_SIZE)) <> 0) then -2
        else check_maps n (i + 1) end_offset m f
  end.

(** The memory and the answer; [None]: not finished. *)
Fixpoint load_loop (fuel : nat) (pre_offset end_offset : Z) f m : option (gmap Z Z * Z) :=
  if decide (pre_offset <= end_offset) then
    match fuel with
    | O => None
    | S fuel =>
        let block := take (Z.to_nat SHM_COPY_BYTES_EACH_TIME) (drop (Z.to_nat pre_offset) f) in
        let m := poke m pre_offset block in
        if decide (Z.of_nat (length block) <= 0) then Some (m, -1)
        else load_loop fuel (u32 (pre_offset + SHM_COPY_BYTES_EACH_TIME)) end_offset f m
    end
  else Some (m, 0).

Definition load_shm_config_from_file (fuel : nat) (named : bool) (file : option (list Z)) (shm : option (gmap Z Z)) :
    option (option (gmap Z Z) * Z) :=
  match shm with
  | None => Some (None, -1)
  | Some m =>
      if negb named then Some (shm, -1)
      else
        let start_offset := get32 m config_mem_start in
        let end_offset := get32 m config_mem_end in
        match file with
        | None => Some (shm, -1)
        | Some f =>
            if decide (Z.of_nat (length f) < u32 (end_offset + 1)) then Some (shm, -2)
            else
              let shm_main_buffer := take (Z.to_nat SHM_MAIN_SIZE) f in
              if decide (Z.of_nat (length shm_main_buffer) <= 0) then Some (shm, -1)
              else if decide (Z.of_nat (length shm_main_buffer) < SHM_MAIN_SIZE) then Some (shm, -2)
              else if decide (check_sf_shm_main m shm_main_buffer <> 0) then Some (shm, -2)
              else
                let ret := check_maps (Z.to_nat (get32 m map_count)) 0 end_offset m f in
                if decide (ret <> 0) then Some (shm, ret)
                else let? (m, ret) := load_loop fuel start_offset end_offset f m in Some (Some m, ret)
        end
  end.

(** ** The start of the data plane *)

Definition update_all_callback_ptr regs in_lib (start_ptr : Z) (shm : option (gmap Z Z)) (ptrs : gmap Z Z) : gmap Z Z * Z :=
  let '(ptrs, ret0) := update_shm_map_map regs start_ptr shm ptrs in
  let '(ptrs, ret1) := update_shm_map_map in_lib start_ptr shm ptrs in
  (ptrs, if decide (ret0 = 0 /\ ret1 = 0) then 0 else -1).

(** [sf_main_stat->sf_vpp_status++]: [sf_main_stat] is the variable that holds the address of
    the module's statistics, whose first byte counts the starts. *)
Definition count_start (sf_main_stat start_ptr : Z) (shm : option (gmap Z Z)) (ptrs : gmap Z Z) : option (option (gmap Z Z) * gmap Z Z) :=
  match shm with
  | None => None
  | Some m =>
      if decide (ptrs.[sf_main_stat] = 0) then None
      else let p := ptrs.[sf_main_stat] - start_ptr in Some (Some m.[p <- u8 (m.[p] + 1)], ptrs)
  end.

(** [segment] is the shared memory if it exists, [created] what the system gives
    otherwise, [file] the settings saved before; errors are only reported, so what
    comes after them runs all the same.  [None] where a null pointer is followed or
    [fuel] runs out. *)
Definition sf_shm_init (fuel : nat) (version device : list Z) regs in_lib (sf_main_stat start_ptr : Z)
    (segment created : option (gmap Z Z)) (file : option (list Z)) (ptrs : gmap Z Z) : option (option (gmap Z Z) * gmap Z Z) :=
  match segment with
  | None =>
      let '(shm, _) := init_shm_main regs created in
      let? (shm, ptrs, _) := start_shm_map_malloc version device regs in_lib true start_ptr shm ptrs in
      let? (shm, _) := load_shm_config_from_file fuel true file shm in
      count_start sf_main_stat start_ptr shm ptrs
  | Some m => count_start sf_main_stat start_ptr (Some m) (fst (update_all_callback_ptr regs in_lib start_ptr (Some m) ptrs))
  end.

(** ** The calls over the whole of the shared memory *)

(** A callback that is still null, or a region without an initialiser, is left out;
    the first failure ends the reset. *)
Fixpoint reset_all_global_config in_lib (start_ptr : Z) (ptrs : gmap Z Z) m : gmap Z Z * Z :=
  match in_lib with
  | [] => (m, 0)
  | r :: regs =>
      if decide (ptrs.[callback_ptr r] = 0) then reset_all_global_config regs start_ptr ptrs m
      else match init_func r with
           | None => reset_all_global_config regs start_ptr ptrs m
           | Some init =>
               let '(m, ret) := init m (ptrs.[callback_ptr r] - start_ptr) true in
               if decide (ret <> 0) then (m, ret) else reset_all_global_config regs start_ptr ptrs m
           end
  end.

Definition try_lock_shm_mem (shm : option (gmap Z Z)) : option (gmap Z Z) * Z :=
  match shm with
  | None => (None, -1)
  | Some m => if decide (m.[sync_lock] <> 0) then (shm, -2) else (Some m.[sync_lock <- 1], 0)
  end.
Definition unlock_shm_mem (shm : option (gmap Z Z)) : option (gmap Z Z) * Z :=
  match shm with
  | None => (None, -1)
  | Some m => (Some m.[sync_lock <- 0], 0)
  end.

(** [buffer] is the caller's, [max_len] the length given with it. *)
Definition shm_main_get_system_version (shm : option (gmap Z Z)) (max_len : nat) (buffer : list Z) : list Z * Z :=
  match shm with
  | None => (buffer, -1)
  | Some m => (strncpy max_len (text_at m 0 SF_SHM_MEM_VERSION_LEN) buffer, 0)
  end.
Definition shm_main_get_device_type_name (device : list Z) (shm : option (gmap Z Z)) (max_len : nat) (buffer : list Z) : list Z * Z :=
  match shm with
  | None => (buffer, -1)
  | Some m => (strncpy max_len device (0 :: tail buffer), 0)
  end.
