(* ===== verification/ShmFile.v ===== *)
(** * Settings saved are the settings loaded

    A file written from one shared memory and loaded into another of the same
    layout brings the settings and nothing else; a file that is rejected changes
    nothing; a file with more bytes than were saved overwrites what lies behind the
    settings. *)
From S2P Require Import Prelude Wdata Shm.

Implicit Types (m : gmap Z Z) (f : list Z).

(** ** Bytes *)

Definition file_byte f (a : Z) : Z := default 0 (f !! Z.to_nat a).

Lemma file_byte_at m n a : 0 <= a < Z.of_nat n -> file_byte (bytes_at m 0 n) a = m.[a].
Proof. intros Ha. unfold file_byte. rewrite bytes_at_lookup by lia. cbn. f_equal. lia. Qed.

Lemma poke_block m p k f a : 0 <= p -> let block := take k (drop (Z.to_nat p) f) in
  (poke m p block).[a] = if decide (p <= a < p + Z.of_nat (length block)) then file_byte f a else m.[a].
Proof.
  intros Hp block. destruct (decide (p <= a < p + Z.of_nat (length block))) as [Ha|Ha]; [|by rewrite poke_frame by lia].
  destruct (block !! Z.to_nat (a - p)) as [x|] eqn:E; [|apply lookup_ge_None in E; lia].
  pose proof (poke_at block m p _ _ E) as Hx. rewrite Z2Nat.id in Hx by lia. replace (p + (a - p)) with a in Hx by lia. rewrite Hx.
  unfold block in E. apply lookup_take_Some in E as [E _]. rewrite lookup_drop in E. unfold file_byte.
  replace (Z.to_nat a) with (Z.to_nat p + Z.to_nat (a - p))%nat by lia. by rewrite E.
Qed.

(** ** Saving *)

Definition writes_all (total : Z) (written : Z -> Z) : Prop :=
  forall k, 0 <= k < total -> written k = Z.min SHM_COPY_BYTES_EACH_TIME (total - k).

Lemma save_loop_spec n : forall pre written m f total, writes_all total written -> 0 <= pre ->
  pre + SHM_COPY_BYTES_EACH_TIME * Z.of_nat n <= total -> total < 2 ^ 32 ->
  save_loop n pre written m f =
    (f ++ bytes_at m pre (Z.to_nat (SHM_COPY_BYTES_EACH_TIME * Z.of_nat n)), pre + SHM_COPY_BYTES_EACH_TIME * Z.of_nat n, true).
Proof.
  unfold SHM_COPY_BYTES_EACH_TIME. induction n as [|n IH]; intros pre written m f total Hw Hp Ht Hb; cbn [save_loop].
  - rewrite app_nil_r. by rewrite Z.add_0_r.
  - rewrite (Hw pre) by lia. unfold SHM_COPY_BYTES_EACH_TIME. rewrite decide_False, take_ge by (rewrite ?bytes_at_length; lia).
    rewrite wrap_small by lia. rewrite (IH _ _ _ _ total) by (done || lia). f_equal. f_equal; [|lia].
    rewrite <- app_assoc. f_equal. rewrite (bytes_at_split _ _ (Z.to_nat (2048 * Z.of_nat (S n))) (Z.to_nat 2048)) by lia. f_equal.
    f_equal; lia.
Qed.

Lemma save_all m written old : writes_all (u32 (get32 m config_mem_end + 1)) written ->
  save_shm_config_to_file (Some m) true true written old = (Some (bytes_at m 0 (Z.to_nat (u32 (get32 m config_mem_end + 1)))), 0).
Proof.
  intros Hw. unfold save_shm_config_to_file. cbn [negb]. set (total := u32 _) in *.
  assert (Ht : 0 <= total < 2 ^ 32) by (apply wrap_range; lia).
  pose proof (Z.div_mod total 2048 ltac:(done)) as Hd. pose proof (Z.mod_pos_bound total 2048 ltac:(done)) as Hm.
  assert (Hq : 0 <= total / 2048) by (apply Z.div_pos; lia).
  rewrite (save_loop_spec _ _ _ _ _ total) by (done || (unfold SHM_COPY_BYTES_EACH_TIME; lia)). unfold SHM_COPY_BYTES_EACH_TIME in *.
  rewrite Z2Nat.id, Z.add_0_l by lia. cbn [negb app]. case_decide as Hl.
  - rewrite (Hw (2048 * (total / 2048))) by lia. unfold SHM_COPY_BYTES_EACH_TIME. rewrite decide_False by lia.
    rewrite take_ge by (rewrite bytes_at_length; lia). do 2 f_equal.
    rewrite (bytes_at_split _ _ (Z.to_nat total) (Z.to_nat (2048 * (total / 2048)))) by lia. f_equal. f_equal; lia.
  - do 3 f_equal. lia.
Qed.

(** ** Loading *)

(** The end of what is copied from [pre] on: whole blocks, as far as the file goes. *)
Definition copied_to (pre end_offset len : Z) : Z :=
  Z.min len (pre + SHM_COPY_BYTES_EACH_TIME * ((end_offset - pre) / SHM_COPY_BYTES_EACH_TIME + 1)).

Lemma load_loop_spec fuel : forall pre end_offset f m, 0 <= pre -> end_offset < Z.of_nat (length f) -> end_offset + SHM_COPY_BYTES_EACH_TIME < 2 ^ 32 ->
  (end_offset - pre) / SHM_COPY_BYTES_EACH_TIME < Z.of_nat fuel ->
  exists m', load_loop fuel pre end_offset f m = Some (m', 0) /\
    forall a, m'.[a] = if decide (pre <= a < copied_to pre end_offset (Z.of_nat (length f))) then file_byte f a else m.[a].
Proof.
  unfold copied_to, SHM_COPY_BYTES_EACH_TIME.
  induction fuel as [|fuel IH]; intros pre e f m Hp Hlen Hb Hf; cbn [load_loop];
    pose proof (Z.div_mod (e - pre) 2048 ltac:(done)) as Hd; pose proof (Z.mod_pos_bound (e - pre) 2048 ltac:(done)) as Hm.
  - rewrite decide_False by lia. exists m. split; [done|]. intros a. by rewrite decide_False by lia.
  - destruct (decide (pre <= e)) as [Hpe|Hpe].
    2: { exists m. split; [done|]. intros a. by rewrite decide_False by lia. }
    set (block := take _ _). assert (Hbl : Z.of_nat (length block) = Z.min 2048 (Z.of_nat (length f) - pre)).
    { unfold block, SHM_COPY_BYTES_EACH_TIME. rewrite length_take, length_drop. lia. }
    rewrite decide_False by lia. unfold SHM_COPY_BYTES_EACH_TIME. rewrite wrap_small by lia.
    assert (Hq : (e - (pre + 2048)) / 2048 = (e - pre) / 2048 - 1).
    { replace (e - (pre + 2048)) with (e - pre + (-1) * 2048) by lia. rewrite Z.div_add by done. lia. }
    destruct (IH (pre + 2048) e f (poke m pre block)) as (m' & E & Hm'); [lia..|]. exists m'. split; [exact E|].
    intros a. rewrite Hm', Hq. unfold block. rewrite poke_block by done. fold block. rewrite Hbl.
    destruct (decide (pre + 2048 <= a < Z.min (Z.of_nat (length f)) (pre + 2048 + 2048 * ((e - pre) / 2048 - 1 + 1)))) as [H1|H1].
    + by rewrite decide_True by lia.
    + destruct (decide (pre <= a < pre + Z.min 2048 (Z.of_nat (length f) - pre))) as [H2|H2].
      * by rewrite decide_True by lia.
      * by rewrite decide_False by lia.
Qed.

(** A file that has what the head of the memory says. *)
Record file_fits m f : Prop := {
  ff_length : get32 m config_mem_end < Z.of_nat (length f);
  ff_bound : get32 m config_mem_end + SHM_COPY_BYTES_EACH_TIME < 2 ^ 32;
  ff_start : 0 <= get32 m config_mem_start;
  ff_main : SHM_MAIN_SIZE <= Z.of_nat (length f);
  ff_head : check_sf_shm_main m (take (Z.to_nat SHM_MAIN_SIZE) f) = 0;
  ff_maps : check_maps (Z.to_nat (get32 m map_count)) 0 (get32 m config_mem_end) m f = 0
}.

Definition blocks m : Z := (get32 m config_mem_end - get32 m config_mem_start) / SHM_COPY_BYTES_EACH_TIME.


Lemma load_fits fuel m f : file_fits m f -> 0 <= get32 m config_mem_end -> blocks m < Z.of_nat fuel ->
  exists m', load_shm_config_from_file fuel true (Some f) (Some m) = Some (Some m', 0) /\
    forall a, m'.[a] = if decide (get32 m config_mem_start <= a <
                                    copied_to (get32 m config_mem_start) (get32 m config_mem_end) (Z.of_nat (length f)))
                       then file_byte f a else m.[a].
Proof.
  intros [H1 H2 H3 H4 H5 H6] He Hf. unfold load_shm_config_from_file. cbn [negb]. unfold SHM_COPY_BYTES_EACH_TIME in H2.
  rewrite (wrap_small 32) by lia. rewrite decide_False by lia. unfold SHM_MAIN_SIZE in *.
  assert (Hl : length (take (Z.to_nat 88) f) = 88%nat) by (rewrite length_take; lia).
  rewrite !(decide_False (P := Z.of_nat (length (take _ _)) <= _)), !(decide_False (P := Z.of_nat (length (take _ _)) < _)) by (rewrite Hl; lia).
  rewrite H5, H6. rewrite !(decide_False (P := 0 <> 0)) by lia.
  destruct (load_loop_spec fuel (get32 m config_mem_start) (get32 m config_mem_end) f m) as (m' & E & Hm'); [done|lia|unfold SHM_COPY_BYTES_EACH_TIME; lia|done|].
  rewrite E. cbn [obind]. by exists m'.
Qed.

(** ** The head of the file *)

Record same_layout m1 m2 : Prop := {
  sl_version : cstr (bytes_at m1 0 (Z.to_nat SF_SHM_MEM_VERSION_LEN)) = cstr (bytes_at m2 0 (Z.to_nat SF_SHM_MEM_VERSION_LEN));
  sl_start : get32 m1 config_mem_start = get32 m2 config_mem_start;
  sl_end : get32 m1 config_mem_end = get32 m2 config_mem_end;
  sl_count : get32 m1 map_count = get32 m2 map_count;
  sl_maps : forall i, 0 <= i < get32 m2 map_count -> get32 m2 (map_offset i) <= get32 m2 config_mem_end ->
    bytes_at m1 (shm_maps i) (Z.to_nat SHM_MAP_SIZE) = bytes_at m2 (shm_maps i) (Z.to_nat SHM_MAP_SIZE)
}.

(** The table lies before the settings, and the addresses do not wrap. *)
Record layout_ok m : Prop := {
  lo_table : 0 <= get32 m map_count /\ shm_maps (get32 m map_count) <= get32 m config_mem_start;
  lo_config : get32 m config_mem_start <= get32 m config_mem_end;
  lo_bound : get32 m config_mem_end + SHM_COPY_BYTES_EACH_TIME < 2 ^ 32
}.

Lemma field32_bytes m n a : 0 <= a -> a + 4 <= SHM_MAIN_SIZE -> SHM_MAIN_SIZE <= Z.of_nat n ->
  field32 (take (Z.to_nat SHM_MAIN_SIZE) (bytes_at m 0 n)) a = get32 m a.
Proof.
  unfold SHM_MAIN_SIZE. intros Ha Hb Hn. unfold field32, get32, le_at. rewrite take_bytes_at by lia. rewrite drop_bytes_at, take_bytes_at by lia.
  do 2 f_equal. lia.
Qed.

Lemma check_head m1 m2 n : same_layout m1 m2 -> SHM_MAIN_SIZE <= Z.of_nat n ->
  check_sf_shm_main m2 (take (Z.to_nat SHM_MAIN_SIZE) (bytes_at m1 0 n)) = 0.
Proof.
  intros [H1 H2 H3 H4 _] Hn. unfold check_sf_shm_main. rewrite !field32_bytes by (done || (unfold SHM_MAIN_SIZE in *; lia)).
  rewrite take_bytes_at, take_bytes_at by (unfold SF_SHM_MEM_VERSION_LEN, SHM_MAIN_SIZE in *; lia).
  rewrite decide_False by (intros Hne; apply Hne; by rewrite H1). rewrite decide_False; [done|]. intros [E|[E|E]]; lia.
Qed.

Lemma check_maps_same m1 m2 n k : same_layout m1 m2 -> forall i, 0 <= i -> i + Z.of_nat k <= get32 m2 map_count ->
  shm_maps (i + Z.of_nat k) <= Z.of_nat n -> check_maps k i (get32 m2 config_mem_end) m2 (bytes_at m1 0 n) = 0.
Proof.
  intros Hs. induction k as [|k IH]; intros i Hi Hk Hn; cbn [check_maps]; [done|]. unfold shm_maps, SHM_MAIN_SIZE, SHM_MAP_SIZE in Hn.
  destruct (decide (get32 m2 (map_offset i) > get32 m2 config_mem_end)) as [|Hle]; [done|].
  assert (Hbuf : take (Z.to_nat SHM_MAP_SIZE) (drop (Z.to_nat (shm_maps i)) (bytes_at m1 0 n)) = bytes_at m2 (shm_maps i) (Z.to_nat SHM_MAP_SIZE)).
  { rewrite <- (sl_maps _ _ Hs i) by lia. unfold shm_maps, SHM_MAIN_SIZE, SHM_MAP_SIZE in *.
    rewrite drop_bytes_at, take_bytes_at by lia. f_equal. lia. }
  rewrite Hbuf, bytes_at_length. rewrite decide_False by (unfold SHM_MAP_SIZE; lia).
  rewrite decide_False by (intros Hne; apply Hne; by apply memcmp_0). apply IH; [lia|lia|].
  unfold shm_maps, SHM_MAIN_SIZE, SHM_MAP_SIZE. lia.
Qed.

Lemma saved_fits m1 m2 extra : same_layout m1 m2 -> layout_ok m2 ->
  file_fits m2 (bytes_at m1 0 (Z.to_nat (get32 m2 config_mem_end + 1)) ++ extra).
Proof.
  intros Hs [[L0 L1] L2 L3]. unfold shm_maps, SHM_MAIN_SIZE, SHM_MAP_SIZE in L1.
  assert (Hhead : take (Z.to_nat SHM_MAIN_SIZE) (bytes_at m1 0 (Z.to_nat (get32 m2 config_mem_end + 1)) ++ extra) =
    take (Z.to_nat SHM_MAIN_SIZE) (bytes_at m1 0 (Z.to_nat (get32 m2 config_mem_end + 1)))).
  { apply take_app_le. rewrite bytes_at_length. unfold SHM_MAIN_SIZE. lia. }
  split; rewrite ?length_app, ?bytes_at_length; [lia|done|lia|unfold SHM_MAIN_SIZE; lia| |].
  - rewrite Hhead. apply check_head; [done|unfold SHM_MAIN_SIZE; lia].
  - assert (Hgen : forall k i, 0 <= i -> shm_maps (i + Z.of_nat k) <= get32 m2 config_mem_end + 1 ->
      forall f, length f = Z.to_nat (get32 m2 config_mem_end + 1) ->
      check_maps k i (get32 m2 config_mem_end) m2 (f ++ extra) = check_maps k i (get32 m2 config_mem_end) m2 f).
    { unfold shm_maps, SHM_MAIN_SIZE, SHM_MAP_SIZE. intros k. induction k as [|k IH]; intros i Hi Hk f Hf; cbn [check_maps]; [done|].
      unfold shm_maps, SHM_MAIN_SIZE, SHM_MAP_SIZE. rewrite drop_app_le, take_app_le by (rewrite ?length_drop; lia). rewrite (IH (i + 1)) by lia. done. }
    rewrite Hgen; [|done|unfold shm_maps, SHM_MAIN_SIZE, SHM_MAP_SIZE; lia|by rewrite bytes_at_length].
    apply check_maps_same; [done..|lia|]. unfold shm_maps, SHM_MAIN_SIZE, SHM_MAP_SIZE. lia.
Qed.

Lemma roundtrip m1 m2 written old fuel : same_layout m1 m2 -> layout_ok m2 ->
  writes_all (get32 m2 config_mem_end + 1) written -> blocks m2 < Z.of_nat fuel ->
  exists f m3, save_shm_config_to_file (Some m1) true true written old = (Some f, 0) /\
    load_shm_config_from_file fuel true (Some f) (Some m2) = Some (Some m3, 0) /\
    forall a, m3.[a] = if decide (get32 m2 config_mem_start <= a <= get32 m2 config_mem_end) then m1.[a] else m2.[a].
Proof.
  intros Hs Hl Hw Hf. pose proof Hl as [[L0 L1] L2 L3]. unfold shm_maps, SHM_MAIN_SIZE, SHM_MAP_SIZE in L1.
  unfold SHM_COPY_BYTES_EACH_TIME in L3. pose proof (saved_fits m1 m2 [] Hs Hl) as Hfit. rewrite app_nil_r in Hfit.
  rewrite <- (sl_end _ _ Hs) in Hw. rewrite (save_all m1 written old) by (rewrite wrap_small by (rewrite (sl_end _ _ Hs); lia); done).
  rewrite (sl_end _ _ Hs), wrap_small by lia. destruct (load_fits fuel m2 _ Hfit ltac:(lia) Hf) as (m3 & E & Hm3).
  eexists _, m3. split; [reflexivity|]. split; [exact E|]. intros a. rewrite Hm3, bytes_at_length.
  unfold copied_to, SHM_COPY_BYTES_EACH_TIME.
  pose proof (Z.div_mod (get32 m2 config_mem_end - get32 m2 config_mem_start) 2048 ltac:(done)).
  pose proof (Z.mod_pos_bound (get32 m2 config_mem_end - get32 m2 config_mem_start) 2048 ltac:(done)).
  case_decide as H1; case_decide as H2; try lia; try done. apply file_byte_at. lia.
Qed.

(** Settings saved from one shared memory and loaded into another of the same
    layout: exactly the bytes of the settings become those saved, and everything
    else stays. *)
Theorem save_load_roundtrip m1 m2 written old fuel : same_layout m1 m2 -> layout_ok m2 ->
  writes_all (get32 m2 config_mem_end + 1) written -> blocks m2 < Z.of_nat fuel ->
  exists f m3, save_shm_config_to_file (Some m1) true true written old = (Some f, 0) /\
    load_shm_config_from_file fuel true (Some f) (Some m2) = Some (Some m3, 0) /\
    forall a, m3.[a] = if decide (get32 m2 config_mem_start <= a <= get32 m2 config_mem_end) then m1.[a] else m2.[a].
Proof. apply roundtrip. Qed.

(** A load that does not succeed leaves the memory as it was, whatever the file
    holds. *)
Theorem rejected_load_keeps fuel named file m shm' ret : layout_ok m ->
  load_shm_config_from_file fuel named file (Some m) = Some (shm', ret) -> ret <> 0 -> shm' = Some m.
Proof.
  intros [[L0 L1] L2 L3] E Hret. unfold shm_maps, SHM_MAIN_SIZE, SHM_MAP_SIZE in L1. unfold SHM_COPY_BYTES_EACH_TIME in L3.
  unfold load_shm_config_from_file in E. destruct named; cbn [negb] in E; [|by injection E as <- _].
  destruct file as [f|]; [|by injection E as <- _]. rewrite (wrap_small 32) in E by lia.
  case_decide as Hlen; [by injection E as <- _|]. case_decide; [by injection E as <- _|]. case_decide; [by injection E as <- _|].
  case_decide; [by injection E as <- _|]. case_decide; [by injection E as <- _|].
  apply obind_Some in E as ([m' r] & E & [= <- <-]). exfalso. apply Hret.
  assert (Hgen : forall fuel pre m0, 0 <= pre -> load_loop fuel pre (get32 m config_mem_end) f m0 = Some (m', r) -> r = 0).
  { clear E. intros k. induction k as [|k IH]; intros pre m0 Hp E; cbn [load_loop] in E; case_decide as Hpe; try done; try by injection E as _ <-.
    rewrite decide_False in E by (rewrite length_take, length_drop; unfold SHM_COPY_BYTES_EACH_TIME; lia).
    unfold SHM_COPY_BYTES_EACH_TIME in E. rewrite wrap_small in E by lia. eapply IH; [|exact E]. lia. }
  eapply Hgen; [|exact E]. lia.
Qed.

(** A file longer than what was saved is accepted, and its bytes are copied over
    what lies behind the settings, to the end of a whole block. *)
Theorem long_file_overruns m1 m2 extra fuel : same_layout m1 m2 -> layout_ok m2 -> blocks m2 < Z.of_nat fuel ->
  exists m3, load_shm_config_from_file fuel true (Some (bytes_at m1 0 (Z.to_nat (get32 m2 config_mem_end + 1)) ++ extra)) (Some m2) = Some (Some m3, 0) /\
    forall i x, extra !! i = Some x ->
      get32 m2 config_mem_end + 1 + Z.of_nat i < get32 m2 config_mem_start + SHM_COPY_BYTES_EACH_TIME * (blocks m2 + 1) ->
      m3.[get32 m2 config_mem_end + 1 + Z.of_nat i] = x.
Proof.
  intros Hs Hl Hf. pose proof Hl as [[L0 L1] L2 L3]. unfold shm_maps, SHM_MAIN_SIZE, SHM_MAP_SIZE in L1.
  destruct (load_fits fuel m2 _ (saved_fits m1 m2 extra Hs Hl) ltac:(lia) Hf) as (m3 & E & Hm3). exists m3. split; [exact E|].
  intros i x Hx Hb. rewrite Hm3. unfold copied_to. rewrite length_app, bytes_at_length. pose proof (lookup_lt_Some _ _ _ Hx).
  unfold blocks in Hb. rewrite decide_True by lia. unfold file_byte.
  replace (Z.to_nat (get32 m2 config_mem_end + 1 + Z.of_nat i)) with (Z.to_nat (get32 m2 config_mem_end + 1) + i)%nat by lia.
  rewrite lookup_app_r by (rewrite bytes_at_length; lia). rewrite bytes_at_length. by replace (_ + i - _)%nat with i by lia; rewrite Hx.
Qed.
