(* ===== verification/ShmLayout.v ===== *)
(** * Where the regions lie

    The settings are sorted by name and laid out one behind the other, the
    statistics behind them; every region has its own bytes inside the shared
    memory, and the table says where. *)
From Stdlib Require Import Sorted.
From S2P Require Import Prelude Wdata Shm ShmFile.

Implicit Types (m : gmap Z Z) (r x : sf_shm_map_registration_t) (regs l : list sf_shm_map_registration_t).

(** ** The order of names *)

Definition name_ok (s : list Z) : Prop := Forall (fun ch => 0 < ch < 256) s.

Lemma strcmp_refl s : strcmp s s = 0.
Proof. induction s as [|c s IH]; cbn; [done|]. by rewrite decide_True. Qed.

Lemma strcmp_0 a : forall b, name_ok a -> name_ok b -> strcmp a b = 0 -> a = b.
Proof.
  induction a as [|c a IH]; intros [|d b] Ha Hb; cbn; try done.
  - apply Forall_cons in Hb as [Hd _]. lia.
  - apply Forall_cons in Ha as [Hc _]. lia.
  - apply Forall_cons in Ha as [Hc Ha]. apply Forall_cons in Hb as [Hd Hb]. case_decide as E; [|lia].
    intros H0. by rewrite E, (IH b).
Qed.

Lemma strcmp_opp a : forall b, strcmp b a = - strcmp a b.
Proof.
  induction a as [|c a IH]; intros [|d b]; cbn; try lia. repeat case_decide; try congruence; try apply IH; lia.
Qed.

Lemma strcmp_trans a : forall b c, name_ok b -> name_ok c -> strcmp a b < 0 -> strcmp b c < 0 -> strcmp a c < 0.
Proof.
  induction a as [|x a IH]; intros [|y b] [|z c] Hb Hc; cbn; try lia;
    try (apply Forall_cons in Hc as [Hz Hc]); try (apply Forall_cons in Hb as [Hy Hb]); repeat case_decide; try lia. by apply IH.
Qed.

Definition before r x : Prop := compare_shm_reg_name r x < 0.
Definition reg_named r : Prop := name_ok (reg_name r).

(** ** The sort *)

Lemma before_total r x : reg_named r -> reg_named x -> reg_name r <> reg_name x -> ~ before r x -> before x r.
Proof.
  unfold before, compare_shm_reg_name. intros Hr Hx Hne Hn. rewrite strcmp_opp.
  destruct (decide (strcmp (reg_name r) (reg_name x) = 0)) as [E|E]; [|lia]. by apply strcmp_0 in E.
Qed.

Lemma sort_walk_perm x regs : forall prev, sort_walk x prev regs ≡ₚ x :: prev :: regs.
Proof.
  induction regs as [|next rest IH]; intros prev; cbn [sort_walk]; [constructor|]. case_decide; [constructor|].
  rewrite IH. rewrite Permutation_swap. constructor. by rewrite Permutation_swap.
Qed.

Lemma sort_insert_perm x regs : sort_insert regs x ≡ₚ x :: regs.
Proof. destruct regs as [|head rest]; [done|]. cbn [sort_insert]. case_decide; [done|apply sort_walk_perm]. Qed.

Lemma sort_walk_sorted x regs : forall prev, reg_named x -> Forall reg_named regs -> Forall (fun r => reg_name r <> reg_name x) regs ->
  Sorted before (prev :: regs) -> before prev x -> Sorted before (sort_walk x prev regs).
Proof.
  induction regs as [|next rest IH]; intros prev Hx Hn Hd Hs Hp; cbn [sort_walk]; [by repeat constructor|].
  apply Forall_cons in Hn as [Hn1 Hn]. apply Forall_cons in Hd as [Hd1 Hd].
  apply Sorted_inv in Hs as [Hs Hh]. apply HdRel_inv in Hh.
  case_decide as Hc.
  - destruct Hc as [_ Hc]. constructor; [|by constructor]. constructor; [done|]. constructor. unfold before, compare_shm_reg_name in *.
    rewrite strcmp_opp. lia.
  - assert (Hnx : before next x).
    { apply before_total; [done|done|by intros E|]. intros Hxn. apply Hc. split; [exact Hp|]. unfold before, compare_shm_reg_name in *.
      rewrite strcmp_opp. lia. }
    constructor; [by apply IH|]. destruct rest as [|y rest]; cbn [sort_walk]; [|case_decide]; constructor; exact Hh.
Qed.

Lemma sort_insert_sorted x regs : reg_named x -> Forall reg_named regs -> Forall (fun r => reg_name r <> reg_name x) regs ->
  Sorted before regs -> Sorted before (sort_insert regs x).
Proof.
  intros Hx Hn Hd Hs. destruct regs as [|head rest]; cbn [sort_insert]; [by repeat constructor|].
  apply Forall_cons in Hn as [Hn1 Hn]. apply Forall_cons in Hd as [Hd1 Hd].
  case_decide as Hc.
  - constructor; [exact Hs|]. constructor. exact Hc.
  - apply sort_walk_sorted; try done. apply before_total; [done|done|by intros E|exact Hc].
Qed.

(** The settings come out sorted by name, none lost or repeated. *)
Lemma sort_correct regs : Forall reg_named regs -> NoDup (map reg_name regs) ->
  sort_shm_config_reg_by_name regs ≡ₚ regs /\ Sorted before (sort_shm_config_reg_by_name regs).
Proof.
  intros Hn Hd. unfold sort_shm_config_reg_by_name.
  assert (Hgen : forall acc, Sorted before acc -> Forall reg_named acc -> NoDup (map reg_name (acc ++ regs)) ->
    foldl sort_insert acc regs ≡ₚ acc ++ regs /\ Sorted before (foldl sort_insert acc regs)).
  { clear Hd. induction Hn as [|x regs Hx Hn IH]; intros acc Hs Ha Hd; cbn [foldl]; [by rewrite app_nil_r|].
    rewrite map_app in Hd. cbn [map] in Hd. assert (Hnx : Forall (fun r => reg_name r <> reg_name x) acc).
    { apply NoDup_app in Hd as (_ & Hd & _). apply Forall_forall. intros r Hr E. apply (Hd (reg_name r)).
      - by apply list_elem_of_In, in_map, list_elem_of_In.
      - rewrite E. by left. }
    destruct (IH (sort_insert acc x)) as [IH1 IH2].
    - by apply sort_insert_sorted.
    - rewrite sort_insert_perm. by constructor.
    - eapply NoDup_Permutation_proper; [|exact Hd]. rewrite <- (map_cons reg_name x regs), <- map_app.
      rewrite sort_insert_perm. cbn [app map]. rewrite !map_app. cbn [map]. by rewrite Permutation_middle.
    - split; [|done]. rewrite IH1, sort_insert_perm. cbn [app]. by rewrite Permutation_middle. }
  apply (Hgen []); [constructor|constructor|done].
Qed.

Lemma of_type_split regs : Forall (fun r => mem_type r = SF_SHM_MEM_TYPE_CONFIG \/ mem_type r = SF_SHM_MEM_TYPE_STAT) regs ->
  of_type SF_SHM_MEM_TYPE_CONFIG regs ++ of_type SF_SHM_MEM_TYPE_STAT regs ≡ₚ regs.
Proof.
  unfold of_type, SF_SHM_MEM_TYPE_CONFIG, SF_SHM_MEM_TYPE_STAT. induction 1 as [|r regs Hr _ IH]; [done|]. rewrite !filter_cons.
  destruct Hr as [E|E]; rewrite !E.
  - rewrite decide_True, decide_False by done. cbn [app]. by rewrite IH.
  - rewrite decide_False, decide_True by done. rewrite <- Permutation_middle. by rewrite IH.
Qed.

Lemma of_type_all t regs : Forall (fun r => mem_type r = t) (of_type t regs).
Proof. apply Forall_forall. by intros r [Hr _]%list_elem_of_filter. Qed.

(** ** Fields of 32 bits *)

Lemma get32_set32_eq a v m : 0 <= v < 2 ^ 32 -> get32 (set32 a v m) a = v.
Proof. intros Hv. unfold get32, set32. rewrite le_at_poke_eq. by apply Z.mod_small. Qed.

Lemma get32_poke_ne p (l : list Z) m a : a + 4 <= p \/ p + Z.of_nat (length l) <= a -> get32 (poke m p l) a = get32 m a.
Proof. intros Ha. unfold get32. apply le_at_poke_ne. lia. Qed.

Lemma get32_set32_ne p v m a : a + 4 <= p \/ p + 4 <= a -> get32 (set32 p v m) a = get32 m a.
Proof. intros Ha. apply get32_poke_ne. exact Ha. Qed.

Lemma set32_frame p v m a : a < p \/ p + 4 <= a -> (set32 p v m).[a] = m.[a].
Proof. intros Ha. apply poke_frame. exact Ha. Qed.

Lemma get32_ext m m' a : (forall i, a <= i < a + 4 -> m'.[i] = m.[i]) -> get32 m' a = get32 m a.
Proof. intros E. apply le_at_ext. exact E. Qed.

Lemma repeat_lookup (v : Z) n i : (i < n)%nat -> repeat v n !! i = Some v.
Proof. revert i. induction n as [|n IH]; intros [|i] Hi; try lia; [done|]. apply IH. lia. Qed.

(** ** The table *)

(** What an initialiser writes is its own region. *)
Definition init_frames r : Prop :=
  match init_func r with
  | Some init => forall m off a, a < off \/ off + reg_len r <= a -> (fst (init m off false)).[a] = m.[a]
  | None => True
  end.
Record reg_ok r : Prop := {
  ro_named : reg_named r;
  ro_short : (length (reg_name r) < 32)%nat;
  ro_len : 0 <= reg_len r;
  ro_frames : init_frames r
}.

Fixpoint total_len regs : Z := match regs with [] => 0 | r :: regs => reg_len r + total_len regs end.

Lemma total_len_pos regs : Forall reg_ok regs -> 0 <= total_len regs.
Proof. induction 1 as [|r regs [_ _ Hr _] _ IH]; cbn; lia. Qed.

Lemma total_len_in regs j r : Forall reg_ok regs -> regs !! j = Some r ->
  0 <= total_len (take j regs) /\ total_len (take j regs) + reg_len r <= total_len regs.
Proof.
  intros Hr. revert j. induction Hr as [|x regs Hx Hr IH]; intros [|j] E; try done; cbn [take total_len]; pose proof (ro_len _ Hx).
  - injection E as <-. pose proof (total_len_pos _ Hr). lia.
  - destruct (IH _ E). lia.
Qed.

Lemma total_len_app l1 l2 : total_len (l1 ++ l2) = total_len l1 + total_len l2.
Proof. induction l1 as [|r l1 IH]; cbn [app total_len]; lia. Qed.

#[export] Instance total_len_proper : Proper ((≡ₚ) ==> eq) total_len.
Proof. intros l1 l2 H. induction H; cbn [total_len]; lia. Qed.

(** An entry of the table: its name and zeros behind it, and its length. *)
Definition padded (s : list Z) : list Z := s ++ repeat 0 (32 - length s).
Definition entry_ok m (i : Z) r : Prop := holds m (shm_maps i) (padded (reg_name r)) /\ holds m (map_len i) (le_bytes 4 (reg_len r)).

Lemma padded_length s : (length s < 32)%nat -> length (padded s) = 32%nat.
Proof. intros Hs. unfold padded. rewrite length_app, repeat_length. lia. Qed.

Lemma entry_text m i r : reg_ok r -> entry_ok m i r -> text_at m (shm_maps i) 32 = reg_name r.
Proof.
  intros Hr [H _]. pose proof (ro_short _ Hr). unfold text_at. apply cstr_holds; [by apply ro_named| |lia].
  unfold padded in H. replace (32 - length (reg_name r))%nat with (S (31 - length (reg_name r))) in H by lia. cbn [repeat] in H.
  change (0 :: ?k) with ([0] ++ k) in H. rewrite app_assoc in H. by apply holds_app in H as [H _].
Qed.

Lemma entry_len m i r : 0 <= reg_len r < 2 ^ 32 -> entry_ok m i r -> get32 m (map_len i) = reg_len r.
Proof. intros Hl [_ H]. by apply le_at_small. Qed.

Ltac map_lia := unfold PADDING_AFTER_SHM_MAPS, map_offset, map_len, shm_maps, SHM_MAIN_SIZE, SHM_MAP_SIZE, map_count, config_mem_end, config_mem_start, used_mem, free_mem, status, sync_lock in *; lia.

Lemma entry_ok_ext m m' i r : reg_ok r ->
  (forall a, shm_maps i <= a < shm_maps i + 32 \/ map_len i <= a < map_len i + 4 -> m'.[a] = m.[a]) -> entry_ok m i r -> entry_ok m' i r.
Proof.
  intros Hr E [H1 H2]. split; (eapply holds_same; [|done]); intros a Ha; apply E; [left|right; exact Ha].
  by rewrite padded_length in Ha by apply ro_short, Hr.
Qed.

Lemma entry_written m i r : reg_ok r -> (forall a, shm_maps i <= a < shm_maps i + 40 -> m.[a] = 0) ->
  entry_ok (set32 (map_len i) (reg_len r) (poke m (shm_maps i) (reg_name r ++ [0]))) i r.
Proof.
  intros Hr Hz. pose proof (ro_short _ Hr) as Hs. split; [|apply poke_holds]. apply (holds_same (poke m (shm_maps i) (reg_name r ++ [0]))).
  - intros a Ha. apply set32_frame. rewrite padded_length in Ha by done. map_lia.
  - unfold padded. apply holds_app. pose proof (poke_holds m (shm_maps i) (reg_name r ++ [0])) as Hh. apply holds_app in Hh as [H1 H2].
    split; [done|]. intros j x Hj. pose proof (lookup_lt_Some _ _ _ Hj) as Hlt. rewrite repeat_length in Hlt.
    rewrite repeat_lookup in Hj by done. injection Hj as <-. destruct j as [|j]; [by apply H2|].
    rewrite poke_frame by (rewrite length_app; cbn [length]; lia). apply Hz. lia.
Qed.

Lemma table_loop_spec regs : forall m, Forall reg_ok regs -> total_len regs < 2 ^ 32 -> 0 <= get32 m map_count ->
  get32 m map_count + Z.of_nat (length regs) < 2 ^ 32 ->
  (forall a, shm_maps (get32 m map_count) <= a < shm_maps (get32 m map_count + Z.of_nat (length regs)) -> m.[a] = 0) ->
  let n := get32 m map_count in let m' := table_loop regs m in
  get32 m' map_count = n + Z.of_nat (length regs) /\
  (forall j r, regs !! j = Some r -> entry_ok m' (n + Z.of_nat j) r) /\
  (forall a, a < map_count \/ map_count + 4 <= a -> a < shm_maps n \/ shm_maps (n + Z.of_nat (length regs)) <= a -> m'.[a] = m.[a]).
Proof.
  induction regs as [|r regs IH]; intros m Hr Ht H0 Hb Hz n; cbn [table_loop length] in *.
  { cbv zeta. split; [lia|]. split; [done|]. done. }
  apply Forall_cons in Hr as [Hr1 Hr]. pose proof (total_len_pos _ Hr) as Hp. cbn [total_len] in Ht.
  pose proof (ro_short _ Hr1) as Hshort. pose proof (ro_len _ Hr1) as Hlen.
  fold n. set (m1 := set32 map_count (n + 1) m).
  assert (E1 : get32 m1 map_count = n + 1) by (apply get32_set32_eq; lia). rewrite E1. replace (n + 1 - 1) with n by lia.
  set (m2 := set32 (map_len n) _ _).
  assert (Hc2 : get32 m2 map_count = n + 1).
  { unfold m2. rewrite get32_set32_ne by map_lia. rewrite get32_poke_ne by map_lia. exact E1. }
  assert (Hfr : forall a, a < map_count \/ map_count + 4 <= a -> a < shm_maps n \/ shm_maps n + 40 <= a -> m2.[a] = m.[a]).
  { intros a H1 H2. unfold m2, m1. rewrite set32_frame by map_lia. rewrite poke_frame by (rewrite length_app; cbn [length]; lia).
    apply set32_frame. lia. }
  destruct (IH m2 Hr ltac:(lia) ltac:(lia) ltac:(lia)) as (I1 & I2 & I3).
  { rewrite Hc2. intros a Ha. rewrite Hfr by map_lia. apply Hz. fold n. map_lia. }
  rewrite Hc2 in I1, I2, I3. cbv zeta. split; [lia|]. split.
  - intros [|j] x Hx; cbn [lookup list_lookup] in Hx.
    + injection Hx as <-. rewrite Z.add_0_r. eapply entry_ok_ext; [done| |apply (entry_written m1); [done|]].
      * intros a Ha. unfold m2 in I3. apply I3; map_lia.
      * intros a Ha. unfold m1. rewrite set32_frame by map_lia. apply Hz. fold n. map_lia.
    + replace (n + Z.of_nat (S j)) with (n + 1 + Z.of_nat j) by lia. by apply I2.
  - intros a H1 H2. rewrite I3 by map_lia. apply Hfr; map_lia.
Qed.

(** ** The regions *)

(** What a region holds when its initialiser is done: zeros where there is none. *)
Definition region_made m (off : Z) r : Prop :=
  exists m0, forall a, off <= a < off + reg_len r ->
    m.[a] = match init_func r with Some init => (fst (init m0 off false)).[a] | None => 0 end.

(** The end of the settings after the regions from [pre] on. *)
Fixpoint ends regs (pre config_end start : Z) : Z :=
  match regs with
  | [] => config_end
  | r :: regs =>
      ends regs (pre + reg_len r)
        (if decide (mem_type r <> SF_SHM_MEM_TYPE_CONFIG /\ config_end = start) then pre - 1 else config_end) start
  end.

Definition run_init r (off : Z) m : gmap Z Z :=
  match init_func r with
  | Some init => fst (init m off false)
  | None => sf_memset_zero off (reg_len r) m
  end.

Lemma zero_words_spec n : forall p m, zero_words n p m = poke m p (repeat 0 (8 * n)).
Proof.
  induction n as [|n IH]; intros p m; cbn [zero_words]; [done|]. rewrite IH.
  replace (8 * S n)%nat with (8 + 8 * n)%nat by lia. rewrite repeat_app. rewrite (poke_app m p (le_bytes 8 0)); [done|]. reflexivity.
Qed.

Lemma zero_bytes_spec n : forall p m, zero_bytes n p m = poke m p (repeat 0 n).
Proof. induction n as [|n IH]; intros p m; cbn [zero_bytes repeat poke]; [done|]. apply IH. Qed.

(** Both loops together clear exactly the bytes asked for. *)
Lemma sf_memset_zero_spec p count m : 0 <= count -> sf_memset_zero p count m = poke m p (repeat 0 (Z.to_nat count)).
Proof.
  intros Hc. unfold sf_memset_zero. rewrite zero_bytes_spec, zero_words_spec.
  pose proof (Z.div_mod count 8 ltac:(done)). pose proof (Z.mod_pos_bound count 8 ltac:(done)). assert (0 <= count / 8) by (apply Z.div_pos; lia).
  rewrite poke_app by (rewrite repeat_length; lia). rewrite <- repeat_app. do 2 f_equal. lia.
Qed.

Lemma run_init_frame r off m a : reg_ok r -> a < off \/ off + reg_len r <= a -> (run_init r off m).[a] = m.[a].
Proof.
  intros Hr Ha. unfold run_init. pose proof (ro_frames _ Hr) as Hf. unfold init_frames in Hf. pose proof (ro_len _ Hr).
  destruct (init_func r); [by apply Hf|]. rewrite sf_memset_zero_spec by done. apply poke_frame. rewrite repeat_length. lia.
Qed.

Lemma run_init_made r off m m' : reg_ok r -> (forall a, off <= a < off + reg_len r -> m'.[a] = (run_init r off m).[a]) -> region_made m' off r.
Proof.
  intros Hr E. exists m. intros a Ha. rewrite E by done. unfold run_init. destruct (init_func r); [done|]. rewrite sf_memset_zero_spec by apply (ro_len _ Hr).
  pose proof (poke_at (repeat 0 (Z.to_nat (reg_len r))) m off (Z.to_nat (a - off)) 0) as Hp.
  rewrite Z2Nat.id in Hp by lia. replace (off + (a - off)) with a in Hp by lia. apply Hp. apply repeat_lookup. lia.
Qed.

Lemma region_made_ext m m' off r : (forall a, off <= a < off + reg_len r -> m'.[a] = m.[a]) -> region_made m off r -> region_made m' off r.
Proof. intros E [m0 H]. exists m0. intros a Ha. rewrite E by done. by apply H. Qed.

Lemma get32_run_init r off m a : reg_ok r -> a + 4 <= off \/ off + reg_len r <= a -> get32 (run_init r off m) a = get32 m a.
Proof. intros Hr Ha. apply get32_ext. intros k Hk. apply run_init_frame; [done|lia]. Qed.

(** One turn of the loop. *)
Definition place_step r (i pre : Z) m : gmap Z Z :=
  run_init r pre (set32 (map_offset i) pre
    (if decide (mem_type r <> SF_SHM_MEM_TYPE_CONFIG /\ get32 m config_mem_end = get32 m config_mem_start)
     then set32 config_mem_end (pre - 1) m else m)).

Lemma place_step_frame r i pre m a : reg_ok r -> a < pre \/ pre + reg_len r <= a -> a < config_mem_end \/ config_mem_end + 4 <= a ->
  a < map_offset i \/ map_offset i + 4 <= a -> (place_step r i pre m).[a] = m.[a].
Proof.
  intros Hr H1 H2 H3. unfold place_step. rewrite run_init_frame by done. rewrite set32_frame by done. case_decide; [|done]. by apply set32_frame.
Qed.

Lemma place_step_end r i pre m : reg_ok r -> 0 <= i -> shm_maps (i + 1) <= pre < 2 ^ 32 ->
  get32 (place_step r i pre m) config_mem_end =
    if decide (mem_type r <> SF_SHM_MEM_TYPE_CONFIG /\ get32 m config_mem_end = get32 m config_mem_start) then pre - 1 else get32 m config_mem_end.
Proof.
  intros Hr Hi Hp. unfold place_step. rewrite get32_run_init by (done || map_lia).
  rewrite get32_set32_ne by map_lia. case_decide; [|done]. apply get32_set32_eq. map_lia.
Qed.

Lemma place_step_offset r i pre m : reg_ok r -> shm_maps (i + 1) <= pre -> holds (place_step r i pre m) (map_offset i) (le_bytes 4 pre).
Proof.
  intros Hr Hp. unfold place_step, set32. eapply holds_same; [|apply poke_holds]. intros a Ha. apply run_init_frame; [done|].
  change (length (le_bytes 4 pre)) with 4%nat in Ha. map_lia.
Qed.

Lemma offset_loop_cons r regs i pre shm_len start_ptr m ptrs : i < get32 m map_count -> reg_ok r -> entry_ok m i r ->
  pre + reg_len r <= shm_len -> 0 <= pre -> shm_len < 2 ^ 32 ->
  offset_loop (r :: regs) i pre shm_len start_ptr m ptrs =
    offset_loop regs (i + 1) (pre + reg_len r) shm_len start_ptr (place_step r i pre m) ptrs.[callback_ptr r <- start_ptr + pre].
Proof.
  intros Hi Hok He Hl H0 Hs. pose proof (ro_len _ Hok) as Hr. assert (Hlen : 0 <= reg_len r < 2 ^ 32) by lia.
  cbn [offset_loop]. rewrite decide_True by done.
  rewrite (entry_text _ _ _ Hok He), strcmp_refl, (entry_len _ _ _ Hlen He).
  rewrite (decide_False (P := 0 <> 0)) by lia. rewrite (decide_False (P := reg_len r <> _)) by lia.
  rewrite (wrap_small 32) by lia. by rewrite decide_False by lia.
Qed.

Record placed regs (i pre start_ptr : Z) m (ptrs : gmap Z Z) m' (ptrs' : gmap Z Z) : Prop := {
  pl_frame : forall a, a < pre -> a < config_mem_end \/ config_mem_end + 4 <= a ->
    (forall j, i <= j < i + Z.of_nat (length regs) -> a < map_offset j \/ map_offset j + 4 <= a) -> m'.[a] = m.[a];
  pl_end : get32 m' config_mem_end = ends regs pre (get32 m config_mem_end) (get32 m config_mem_start);
  pl_offset : forall j r, regs !! j = Some r -> holds m' (map_offset (i + Z.of_nat j)) (le_bytes 4 (pre + total_len (take j regs)));
  pl_made : forall j r, regs !! j = Some r -> region_made m' (pre + total_len (take j regs)) r;
  pl_other : forall q, q ∉ map callback_ptr regs -> ptrs'.[q] = ptrs.[q];
  pl_ptrs : NoDup (map callback_ptr regs) ->
    forall j r, regs !! j = Some r -> ptrs'.[callback_ptr r] = start_ptr + pre + total_len (take j regs)
}.

Lemma offset_loop_spec regs : forall i pre shm_len start_ptr m ptrs, Forall reg_ok regs -> 0 <= i ->
  get32 m map_count = i + Z.of_nat (length regs) ->
  (forall j r, regs !! j = Some r -> entry_ok m (i + Z.of_nat j) r) ->
  shm_maps (i + Z.of_nat (length regs)) <= pre -> pre + total_len regs <= shm_len -> shm_len < 2 ^ 32 ->
  exists m' ptrs', offset_loop regs i pre shm_len start_ptr m ptrs = Some (m', ptrs', pre + total_len regs, 0) /\
    placed regs i pre start_ptr m ptrs m' ptrs'.
Proof.
  induction regs as [|r regs IH]; intros i pre shm_len start_ptr m ptrs Hr Hi Hc He Hp Hl Hb; cbn [length total_len] in *.
  { cbn [offset_loop]. rewrite decide_False by lia. exists m, ptrs. rewrite Z.add_0_r. split; [done|]. by split. }
  apply Forall_cons in Hr as [Hr1 Hr]. pose proof (total_len_pos _ Hr) as Htp. pose proof (ro_len _ Hr1) as Hlen.
  assert (Hpos : 0 <= pre) by map_lia. assert (Hp1 : shm_maps (i + 1) <= pre < 2 ^ 32) by map_lia.
  rewrite offset_loop_cons; [|lia|done|rewrite <- (Z.add_0_r i); by apply (He 0%nat)|lia..].
  set (m1 := place_step r i pre m). set (ptrs1 := ptrs.[_ <- _]).
  assert (Hfr : forall a, a < pre -> a < config_mem_end \/ config_mem_end + 4 <= a -> a < map_offset i \/ map_offset i + 4 <= a -> m1.[a] = m.[a]).
  { intros a H1 H2 H3. apply place_step_frame; [done|lia|done|done]. }
  destruct (IH (i + 1) (pre + reg_len r) shm_len start_ptr m1 ptrs1) as (m' & ptrs' & E & [P1 P2 P3 P4 P5 P6]); clear IH.
  - done.
  - lia.
  - rewrite (get32_ext m); [lia|]. intros a Ha. apply Hfr; map_lia.
  - intros j x Hx. replace (i + 1 + Z.of_nat j) with (i + Z.of_nat (S j)) by lia. pose proof (lookup_lt_Some _ _ _ Hx).
    eapply entry_ok_ext; [by eapply Forall_lookup_1|intros a Ha; apply Hfr; map_lia|by apply (He (S j))].
  - map_lia.
  - lia.
  - done.
  - exists m', ptrs'. split; [rewrite E; do 3 f_equal; lia|].
    assert (Hkeep : forall a, a < pre + reg_len r -> a < config_mem_end \/ config_mem_end + 4 <= a ->
      a < shm_maps (i + 1) \/ shm_maps (i + Z.of_nat (S (length regs))) <= a -> m'.[a] = m1.[a]).
    { intros a H1 H2 H3. apply P1; [done|done|]. intros j Hj. map_lia. }
    split; cbn [length map ends].
    + intros a H1 H2 H3. rewrite P1 by (lia || (intros; apply H3; lia)). apply Hfr; [done|done|]. apply H3. lia.
    + rewrite P2. unfold m1. rewrite place_step_end by done. rewrite (get32_ext m (place_step r i pre m) config_mem_start); [done|].
      intros a Ha. apply Hfr; map_lia.
    + intros [|j] x Hx; cbn [take total_len].
      * rewrite !Z.add_0_r. eapply (holds_same m1); [|by apply place_step_offset, Hp1]. intros a Ha.
        change (length (le_bytes 4 pre)) with 4%nat in Ha. apply Hkeep; map_lia.
      * replace (i + Z.of_nat (S j)) with (i + 1 + Z.of_nat j) by lia. rewrite Z.add_assoc. exact (P3 _ _ Hx).
    + intros [|j] x Hx; cbn [take total_len].
      * injection Hx as <-. rewrite Z.add_0_r. eapply run_init_made; [done|]. intros a Ha. rewrite Hkeep by map_lia. reflexivity.
      * rewrite Z.add_assoc. by apply P4.
    + intros q [Hq1 Hq2]%not_elem_of_cons. rewrite P5 by done. unfold ptrs1. by rewrite aget_aset_ne.
    + intros [Hn1 Hn2]%NoDup_cons [|j] x Hx; cbn [take total_len].
      * injection Hx as <-. rewrite P5 by done. unfold ptrs1. rewrite aget_aset_eq. lia.
      * rewrite (P6 Hn2 _ _ Hx). lia.
Qed.

(** ** The whole layout *)

Definition is_config r : Prop := mem_type r = SF_SHM_MEM_TYPE_CONFIG.

Lemma ends_config l l' : forall pre e start, Forall is_config l -> ends (l ++ l') pre e start = ends l' (pre + total_len l) e start.
Proof.
  induction l as [|r l IH]; intros pre e start Hl; cbn [app ends total_len]; [by rewrite Z.add_0_r|].
  apply Forall_cons in Hl as [Hr Hl]. rewrite decide_False by (by intros [? _]). rewrite IH by done. by rewrite Z.add_assoc.
Qed.

Lemma ends_stay l : forall pre e start, e <> start -> ends l pre e start = e.
Proof. induction l as [|r l IH]; intros pre e start He; cbn [ends]; [done|]. rewrite decide_False by (by intros [_ ?]). by apply IH. Qed.

Lemma MAIN_SHM_LEN_spec regs : Forall reg_ok regs ->
  SHM_MAIN_SIZE + SHM_MAP_SIZE * Z.of_nat (length regs) + PADDING_AFTER_SHM_MAPS + total_len regs < 2 ^ 32 ->
  MAIN_SHM_LEN regs = SHM_MAIN_SIZE + SHM_MAP_SIZE * Z.of_nat (length regs) + PADDING_AFTER_SHM_MAPS + total_len regs.
Proof.
  intros Hr Hb. unfold MAIN_SHM_LEN, get_shm_map_count_outside, get_shm_map_total_len_outside. cbn [orb negb Z.eqb fst].
  unfold SHM_MAIN_SIZE, SHM_MAP_SIZE, PADDING_AFTER_SHM_MAPS in *. unfold SHM_MAP_SIZE in *. pose proof (total_len_pos _ Hr).
  rewrite (wrap_small 32 (Z.of_nat _)) by lia. f_equal.
  assert (Hgen : forall acc, 0 <= acc -> acc + total_len regs < 2 ^ 32 -> foldl (fun count r => u32 (count + reg_len r)) acc regs = acc + total_len regs).
  { clear Hb. induction Hr as [|r l Hr1 Hr IH]; intros acc H0 Hb; cbn [foldl total_len] in *; [lia|].
    pose proof (ro_len _ Hr1). pose proof (total_len_pos _ Hr). rewrite (wrap_small 32) by lia. rewrite IH by lia. lia. }
  rewrite Hgen; lia.
Qed.

(** What is asked of the registrations of a program. *)
Record program_ok regs : Prop := {
  po_regs : Forall reg_ok regs;
  po_names : NoDup (map reg_name regs);
  po_types : Forall (fun r => mem_type r = SF_SHM_MEM_TYPE_CONFIG \/ mem_type r = SF_SHM_MEM_TYPE_STAT) regs;
  po_config : 1 < total_len (of_type SF_SHM_MEM_TYPE_CONFIG regs);
  po_stat : of_type SF_SHM_MEM_TYPE_STAT regs <> [];
  po_size : SHM_MAIN_SIZE + SHM_MAP_SIZE * Z.of_nat (length regs) + PADDING_AFTER_SHM_MAPS + total_len regs < 2 ^ 32
}.

(** Where the [j]-th of the sorted regions starts. *)
Definition region_start regs (j : nat) : Z :=
  SHM_MAIN_SIZE + SHM_MAP_SIZE * Z.of_nat (length regs) + PADDING_AFTER_SHM_MAPS + total_len (take j (sort_shm_map_reg_outside regs)).

Record laid_out regs m : Prop := {
  la_count : get32 m map_count = Z.of_nat (length regs);
  la_entry : forall j r, sort_shm_map_reg_outside regs !! j = Some r -> entry_ok m (Z.of_nat j) r;
  la_offset : forall j r, sort_shm_map_reg_outside regs !! j = Some r -> holds m (map_offset (Z.of_nat j)) (le_bytes 4 (region_start regs j));
  la_made : forall j r, sort_shm_map_reg_outside regs !! j = Some r -> region_made m (region_start regs j) r;
  la_start : get32 m config_mem_start = region_start regs 0;
  la_end : get32 m config_mem_end = region_start regs 0 + total_len (of_type SF_SHM_MEM_TYPE_CONFIG regs) - 1;
  la_used : get32 m used_mem = MAIN_SHM_LEN regs;
  la_status : get32 m status = MAP_MEM_FINISH
}.

Lemma config_sorted regs : program_ok regs ->
  sort_shm_config_reg_by_name (of_type SF_SHM_MEM_TYPE_CONFIG regs) ≡ₚ of_type SF_SHM_MEM_TYPE_CONFIG regs /\
  Sorted before (sort_shm_config_reg_by_name (of_type SF_SHM_MEM_TYPE_CONFIG regs)).
Proof.
  intros [Hr Hn Ht _ _ _]. apply sort_correct.
  - apply Forall_forall. intros r [_ Hin]%list_elem_of_filter. rewrite Forall_forall in Hr. by apply ro_named, Hr.
  - rewrite <- (of_type_split regs Ht), map_app in Hn. by apply NoDup_app in Hn as [Hn _].
Qed.

Lemma sorted_perm regs : program_ok regs -> sort_shm_map_reg_outside regs ≡ₚ regs.
Proof.
  intros Hp. unfold sort_shm_map_reg_outside. rewrite <- (of_type_split regs (po_types _ Hp)) at 3.
  by rewrite (proj1 (config_sorted _ Hp)).
Qed.

Lemma sorted_ok regs : program_ok regs -> Forall reg_ok (sort_shm_map_reg_outside regs).
Proof. intros Hp. rewrite sorted_perm by done. apply po_regs, Hp. Qed.

Lemma sorted_length regs : program_ok regs -> length (sort_shm_map_reg_outside regs) = length regs.
Proof. intros Hp. by rewrite sorted_perm. Qed.

Lemma sorted_total regs : program_ok regs -> total_len (sort_shm_map_reg_outside regs) = total_len regs.
Proof. intros Hp. by rewrite sorted_perm. Qed.

Definition version_ok (version : list Z) : Prop := name_ok version /\ SF_SHM_MEM_VERSION_MIN_LEN <= Z.of_nat (length version) < SF_SHM_MEM_VERSION_LEN.

Lemma strncpy_length n src : length (strncpy n src []) = n.
Proof. unfold strncpy. rewrite length_app, length_take, length_app, repeat_length, drop_nil. cbn. lia. Qed.

Lemma strncpy_short n src : (length src < n)%nat -> exists pad, strncpy n src [] = (src ++ [0]) ++ pad.
Proof.
  intros Hn. destruct n as [|n]; [lia|]. unfold strncpy. cbn [repeat]. rewrite drop_nil, app_nil_r.
  replace (src ++ 0 :: repeat 0 n) with ((src ++ [0]) ++ repeat 0 n) by by rewrite <- app_assoc.
  rewrite take_app_ge by (rewrite length_app; cbn [length]; lia). by eexists.
Qed.

(** The head of the memory when the table is made. *)
Definition headed (version device : list Z) m : gmap Z Z :=
  (poke (poke m 0 (strncpy (Z.to_nat SF_SHM_MEM_VERSION_LEN) version [])) device_type_name
     (strncpy (Z.to_nat SF_SHM_MEM_DEVICE_TYPE_LEN) device [])).[sync_lock <- 0].

Lemma headed_version version device m : version_ok version ->
  text_at (poke (poke m 0 (strncpy (Z.to_nat SF_SHM_MEM_VERSION_LEN) version [])) device_type_name
     (strncpy (Z.to_nat SF_SHM_MEM_DEVICE_TYPE_LEN) device [])) 0 SF_SHM_MEM_VERSION_LEN = version.
Proof.
  unfold version_ok, SF_SHM_MEM_VERSION_LEN, SF_SHM_MEM_VERSION_MIN_LEN, device_type_name. intros [Hn Hl]. unfold text_at.
  apply cstr_holds; [done| |lia]. destruct (strncpy_short (Z.to_nat 32) version) as [pad ->]; [lia|].
  intros i x Hi. pose proof (lookup_lt_Some _ _ _ Hi) as Hlt. rewrite length_app in Hlt. cbn [length] in Hlt.
  rewrite poke_frame by lia. apply poke_at. by apply lookup_app_l_Some.
Qed.

Lemma headed_frame version device m a : 64 <= a -> (headed version device m).[a] = m.[a].
Proof.
  intros Ha. unfold headed. rewrite aget_aset_ne by (unfold sync_lock; lia).
  rewrite !poke_frame; [done|rewrite strncpy_length|rewrite strncpy_length];
    unfold SF_SHM_MEM_VERSION_LEN, device_type_name, SF_SHM_MEM_DEVICE_TYPE_LEN; lia.
Qed.

Lemma take_sorted_config regs : program_ok regs ->
  exists configs stats, sort_shm_map_reg_outside regs = configs ++ stats /\ Forall is_config configs /\
    Forall (fun r => mem_type r = SF_SHM_MEM_TYPE_STAT) stats /\ stats <> [] /\
    total_len configs = total_len (of_type SF_SHM_MEM_TYPE_CONFIG regs).
Proof.
  intros Hp. pose proof (proj1 (config_sorted _ Hp)) as Hc. eexists _, _. split; [reflexivity|].
  split; [rewrite Hc; apply of_type_all|]. split; [apply of_type_all|]. split; [apply (po_stat _ Hp)|by rewrite Hc].
Qed.

Lemma ends_sorted regs base : program_ok regs ->
  ends (sort_shm_map_reg_outside regs) base base base = base + total_len (of_type SF_SHM_MEM_TYPE_CONFIG regs) - 1.
Proof.
  intros Hp. destruct (take_sorted_config regs Hp) as (configs & stats & -> & Hc & Hs & Hne & Ht).
  pose proof (po_config _ Hp). rewrite ends_config by done. rewrite Ht. destruct stats as [|r stats]; [done|]. cbn [ends].
  apply Forall_cons in Hs as [Hr _]. rewrite decide_True by (rewrite Hr; done). apply ends_stay. lia.
Qed.

Lemma region_start_0 regs : region_start regs 0 = 128 + 40 * Z.of_nat (length regs).
Proof. unfold region_start. rewrite take_0. cbn [total_len]. map_lia. Qed.

Lemma region_start_add regs j : region_start regs j = region_start regs 0 + total_len (take j (sort_shm_map_reg_outside regs)).
Proof. unfold region_start. rewrite take_0. cbn [total_len]. lia. Qed.

Lemma program_size regs : program_ok regs ->
  MAIN_SHM_LEN regs = region_start regs 0 + total_len regs /\
  MAIN_SHM_LEN (sort_shm_map_reg_outside regs) = region_start regs 0 + total_len regs /\
  0 <= total_len regs /\ region_start regs 0 + total_len regs < 2 ^ 32.
Proof.
  intros Hp. pose proof (po_size _ Hp). pose proof (total_len_pos _ (po_regs _ Hp)). rewrite region_start_0.
  rewrite (MAIN_SHM_LEN_spec regs) by (done || apply (po_regs _ Hp)).
  rewrite MAIN_SHM_LEN_spec; rewrite ?sorted_length, ?sorted_total by done; [map_lia|by apply sorted_ok|done].
Qed.

(** The memory as the system gives it: zeros behind the fields [init_shm_main] writes. *)
Definition fresh m : Prop := forall a, map_count <= a -> m.[a] = 0.

Lemma fresh_count m : fresh m -> get32 m map_count = 0.
Proof. intros H. rewrite (get32_ext ∅); [done|]. intros a Ha. rewrite H by lia. done. Qed.

(** The memory when the table is written and the settings are said to start behind it. *)
Lemma table_ready version device regs m (m1 := table_loop (sort_shm_map_reg_outside regs) (headed version device m)) :
  program_ok regs -> fresh m ->
  get32 m1 map_count = Z.of_nat (length regs) /\
  let m2 := set32 config_mem_end (region_start regs 0) (set32 config_mem_start (region_start regs 0) m1) in
  get32 m2 map_count = Z.of_nat (length regs) /\ get32 m2 config_mem_end = region_start regs 0 /\
  get32 m2 config_mem_start = region_start regs 0 /\
  (forall j r, sort_shm_map_reg_outside regs !! j = Some r -> entry_ok m2 (Z.of_nat j) r) /\
  (forall a, a < status -> m2.[a] = (headed version device m).[a]).
Proof.
  intros Hp H0. assert (Hc0 : get32 (headed version device m) map_count = 0).
  { rewrite <- (fresh_count m H0). apply get32_ext. intros a Ha. apply headed_frame. map_lia. }
  pose proof (program_size _ Hp) as (_ & _ & Hpos & Hsize). pose proof (region_start_0 regs) as Hb.
  destruct (table_loop_spec (sort_shm_map_reg_outside regs) (headed version device m)) as (T1 & T2 & T3);
    rewrite ?Hc0, ?sorted_length, ?sorted_total in * by done; [by apply sorted_ok|lia|lia|lia| |].
  { intros a Ha. rewrite headed_frame by map_lia. apply H0. map_lia. }
  fold m1 in T1, T2, T3. split; [lia|]. cbv zeta. set (m2 := set32 _ _ _).
  assert (H2 : forall a, a < config_mem_start \/ config_mem_start + 8 <= a -> m2.[a] = m1.[a]).
  { intros a Ha. unfold m2. rewrite !set32_frame by map_lia. done. }
  split; [|split; [apply get32_set32_eq; lia|split; [|split]]].
  - rewrite (get32_ext m1); [lia|]. intros a Ha. apply H2. map_lia.
  - unfold m2. rewrite get32_set32_ne by map_lia. apply get32_set32_eq. lia.
  - intros j r Hj. eapply entry_ok_ext; [by eapply Forall_lookup_1; [apply sorted_ok|]|intros a Ha; apply H2; map_lia|by apply (T2 j)].
  - intros a Ha. rewrite H2 by map_lia. apply T3; map_lia.
Qed.

(** The pointers of the program that laid the regions out. *)
Definition points_at regs (start_ptr : Z) (ptrs : gmap Z Z) : Prop :=
  NoDup (map callback_ptr regs) ->
  forall j r, sort_shm_map_reg_outside regs !! j = Some r -> ptrs.[callback_ptr r] = start_ptr + region_start regs j.

(** The fields written last leave the layout alone. *)
Lemma finish_laid_out regs start_ptr m2 ptrs m3 ptrs' : program_ok regs ->
  get32 m2 map_count = Z.of_nat (length regs) -> get32 m2 config_mem_end = region_start regs 0 ->
  get32 m2 config_mem_start = region_start regs 0 -> (forall j r, sort_shm_map_reg_outside regs !! j = Some r -> entry_ok m2 (Z.of_nat j) r) ->
  placed (sort_shm_map_reg_outside regs) 0 (region_start regs 0) start_ptr m2 ptrs m3 ptrs' ->
  forall free, let m4 := set32 status MAP_MEM_FINISH (set32 free_mem free (set32 used_mem (region_start regs 0 + total_len regs) m3)) in
  laid_out regs m4 /\ points_at regs start_ptr ptrs' /\ forall a, a < status -> m4.[a] = m2.[a].
Proof.
  intros Hp Hc He Hs Hent [P1 P2 P3 P4 P5 P6] free m4. rewrite sorted_length in P1 by done.
  pose proof (program_size _ Hp) as (HL & _ & Hpos & Hsize). pose proof (region_start_0 regs) as Hb.
  assert (H4 : forall a, a < status \/ status + 12 <= a -> m4.[a] = m3.[a]).
  { intros a Ha. unfold m4. rewrite !set32_frame by map_lia. done. }
  assert (Hkeep : forall a, config_mem_start + 8 <= a < region_start regs 0 ->
    (forall j, 0 <= j < Z.of_nat (length regs) -> a < map_offset j \/ map_offset j + 4 <= a) -> m4.[a] = m2.[a]).
  { intros a Ha Hj. rewrite H4 by map_lia. apply P1; [lia|map_lia|]. intros j Hlt. apply Hj. lia. }
  split; [split|split].
  - rewrite <- Hc. apply get32_ext. intros a Ha. apply Hkeep; [map_lia|]. intros j Hj. map_lia.
  - intros j r Hj. eapply entry_ok_ext; [by eapply Forall_lookup_1; [apply sorted_ok|]| |exact (Hent _ _ Hj)]. pose proof (lookup_lt_Some _ _ _ Hj) as Hlt. rewrite sorted_length in Hlt by done.
    intros a Ha. apply Hkeep; [map_lia|]. intros k Hk. map_lia.
  - intros j r Hj. rewrite region_start_add. eapply holds_same; [|exact (P3 _ _ Hj)]. pose proof (lookup_lt_Some _ _ _ Hj). intros a Ha. apply H4. map_lia.
  - intros j r Hj. rewrite region_start_add. destruct (total_len_in _ _ _ (sorted_ok _ Hp) Hj).
    eapply region_made_ext; [|exact (P4 _ _ Hj)]. intros a Ha. apply H4. map_lia.
  - rewrite <- Hs. apply get32_ext. intros a Ha. rewrite H4 by map_lia. apply P1; [map_lia|map_lia|]. intros j Hj. map_lia.
  - rewrite (get32_ext m3) by (intros; apply H4; map_lia). rewrite P2, He, Hs. by apply ends_sorted.
  - rewrite HL. unfold m4. rewrite !get32_set32_ne by map_lia. apply get32_set32_eq. lia.
  - apply get32_set32_eq. done.
  - intros Hn j r Hj. rewrite region_start_add, Z.add_assoc. apply P6; [|done]. by rewrite (sorted_perm _ Hp).
  - intros a Ha. rewrite H4 by lia. apply P1; [map_lia|map_lia|]. intros j Hj. map_lia.
Qed.

Lemma start_laid_out version device regs in_lib b start_ptr m ptrs : version_ok version -> program_ok regs -> fresh m ->
  exists m' ptrs', start_shm_map_malloc version device regs in_lib b start_ptr (Some m) ptrs =
      Some (Some m', if b then fst (update_shm_map_map in_lib start_ptr (Some m') ptrs') else ptrs', 0) /\
    laid_out regs m' /\ points_at regs start_ptr ptrs' /\ text_at m' 0 SF_SHM_MEM_VERSION_LEN = version.
Proof.
  intros Hv Hp H0. unfold start_shm_map_malloc. rewrite headed_version by done.
  rewrite decide_False by (destruct Hv; unfold SF_SHM_MEM_VERSION_MIN_LEN in *; lia). fold (headed version device m).
  destruct (table_ready version device regs m Hp H0) as (T1 & T2 & T3 & T4 & T5 & T6).
  pose proof (program_size _ Hp) as (HL & HL' & Hpos & Hsize). pose proof (region_start_0 regs) as Hb.
  rewrite T1. assert (Hbase : u32 (SHM_MAIN_SIZE + Z.of_nat (length regs) * SHM_MAP_SIZE + PADDING_AFTER_SHM_MAPS) = region_start regs 0).
  { rewrite wrap_small by map_lia. map_lia. }
  rewrite Hbase, (get32_set32_eq config_mem_start) by lia. set (m2 := set32 config_mem_end _ _) in *.
  destruct (offset_loop_spec (sort_shm_map_reg_outside regs) 0 (region_start regs 0) (MAIN_SHM_LEN (sort_shm_map_reg_outside regs)) start_ptr m2 ptrs)
    as (m3 & ptrs' & E & HP); rewrite ?sorted_length, ?sorted_total, ?HL' in * by done; [by apply sorted_ok|lia|lia| |map_lia|lia|lia|].
  { intros j r Hj. rewrite Z.add_0_l. by apply T5. }
  rewrite E. cbn [obind]. rewrite decide_False by lia. eexists _, ptrs'. split; [reflexivity|].
  destruct (finish_laid_out regs start_ptr m2 ptrs m3 ptrs' Hp T2 T3 T4 T5 HP (MAIN_SHM_LEN (sort_shm_map_reg_outside regs) - get32 (set32 used_mem (region_start regs 0 + total_len regs) m3) used_mem)) as (F1 & F2 & F3).
  rewrite HL' in *. split; [exact F1|]. split; [exact F2|]. etransitivity; [|exact (headed_version version device m Hv)]. unfold text_at. f_equal.
  apply bytes_at_ext. intros i Hi. change SF_SHM_MEM_VERSION_LEN with 32 in Hi. rewrite F3 by map_lia. rewrite T6 by map_lia.
  unfold headed. rewrite aget_aset_ne by map_lia. done.
Qed.

(** ** What the layout gives *)

Lemma total_take_le regs j k : Forall reg_ok regs -> (j <= k)%nat -> total_len (take j regs) <= total_len (take k regs).
Proof.
  intros Hr Hjk. replace k with (j + (k - j))%nat by lia. rewrite <- take_take_drop, total_len_app.
  pose proof (total_len_pos (take (k - j) (drop j regs)) ltac:(by apply Forall_take, Forall_drop)). lia.
Qed.

Lemma region_order regs j k r : program_ok regs -> sort_shm_map_reg_outside regs !! j = Some r -> (j < k)%nat ->
  region_start regs j + reg_len r <= region_start regs k.
Proof.
  intros Hp Hj Hk. pose proof (total_take_le _ (S j) k (sorted_ok _ Hp) ltac:(lia)) as H. rewrite !(region_start_add regs j), (region_start_add regs k).
  rewrite (take_S_r _ _ _ Hj), total_len_app in H. cbn [total_len] in H. lia.
Qed.

Lemma region_inside regs j r : program_ok regs -> sort_shm_map_reg_outside regs !! j = Some r ->
  region_start regs 0 <= region_start regs j /\ region_start regs j + reg_len r <= MAIN_SHM_LEN regs.
Proof.
  intros Hp Hj. destruct (program_size _ Hp) as (-> & _). rewrite (region_start_add regs j).
  destruct (total_len_in _ _ _ (sorted_ok _ Hp) Hj). rewrite sorted_total in * by done. lia.
Qed.

Lemma region_side regs m j r : program_ok regs -> laid_out regs m -> sort_shm_map_reg_outside regs !! j = Some r ->
  if decide (is_config r) then region_start regs j + reg_len r <= get32 m config_mem_end + 1
  else get32 m config_mem_end < region_start regs j.
Proof.
  intros Hp Hl Hj. rewrite (la_end _ _ Hl), (region_start_add regs j).
  destruct (take_sorted_config regs Hp) as (configs & stats & Es & Hc & Hs & _ & Ht). rewrite <- Ht. rewrite Es in Hj |- *.
  pose proof (sorted_ok _ Hp) as Hok. rewrite Es in Hok. apply Forall_app in Hok as [Hok1 Hok2].
  apply lookup_app_Some in Hj as [Hj|[Hlt Hj]].
  - pose proof (lookup_lt_Some _ _ _ Hj). rewrite decide_True by (rewrite Forall_forall in Hc; by eapply Hc, list_elem_of_lookup_2).
    rewrite take_app_le by lia. destruct (total_len_in _ _ _ Hok1 Hj). lia.
  - rewrite decide_False.
    + rewrite take_app_ge, total_len_app by lia. destruct (total_len_in _ _ _ Hok2 Hj). lia.
    + unfold is_config. rewrite Forall_forall in Hs. rewrite (Hs r) by (by eapply list_elem_of_lookup_2). done.
Qed.

Lemma laid_offset regs m j r : program_ok regs -> laid_out regs m -> sort_shm_map_reg_outside regs !! j = Some r ->
  get32 m (map_offset (Z.of_nat j)) = region_start regs j.
Proof.
  intros Hp Hl Hj. apply le_at_small; [by eapply la_offset|]. pose proof (region_inside _ _ _ Hp Hj). pose proof (region_start_0 regs).
  pose proof (program_size _ Hp). pose proof (ro_len _ (Forall_lookup_1 _ _ _ _ (sorted_ok _ Hp) Hj)). change (256 ^ Z.of_nat 4) with (2 ^ 32). lia.
Qed.

(** C19: The data plane lays out the shared memory: every registered region has its
    entry in the table, its own bytes, made by its initialiser, and its pointer;
    regions do not overlap and stay inside the memory; and the bytes between the
    start and the end of the settings are those of the settings and no others. *)
Theorem start_lays_out version device regs in_lib start_ptr m ptrs : version_ok version -> program_ok regs -> fresh m ->
  exists m' ptrs', start_shm_map_malloc version device regs in_lib false start_ptr (Some m) ptrs = Some (Some m', ptrs', 0) /\
    laid_out regs m' /\ points_at regs start_ptr ptrs' /\ sort_shm_map_reg_outside regs ≡ₚ regs /\
    forall j r, sort_shm_map_reg_outside regs !! j = Some r ->
      (forall k, (j < k)%nat -> region_start regs j + reg_len r <= region_start regs k) /\
      get32 m' config_mem_start <= region_start regs j /\ region_start regs j + reg_len r <= MAIN_SHM_LEN regs /\
      if decide (is_config r) then region_start regs j + reg_len r <= get32 m' config_mem_end + 1
      else get32 m' config_mem_end < region_start regs j.
Proof.
  intros Hv Hp H0. destruct (start_laid_out version device regs in_lib false start_ptr m ptrs Hv Hp H0) as (m' & ptrs' & E & Hl & Hpt & _).
  exists m', ptrs'. split; [exact E|]. split; [done|]. split; [done|]. split; [by apply sorted_perm|]. intros j r Hj.
  split; [intros k Hk; by apply region_order|]. rewrite (la_start _ _ Hl). destruct (region_inside _ _ _ Hp Hj).
  split; [done|]. split; [done|]. by apply region_side.
Qed.

