(* ===== verification/ShmBoot.v ===== *)
(** * Start and restart

    Every program that attaches the shared memory finds the regions by name; what
    was saved before a restart is back after it. *)
From S2P Require Import Prelude Wdata Shm ShmFile ShmLayout.

Implicit Types (m : gmap Z Z) (r x : sf_shm_map_registration_t) (regs l in_lib : list sf_shm_map_registration_t).

(** ** The other program *)

Lemma find_map_spec m regs : forall i, Forall reg_ok regs -> NoDup (map reg_name regs) ->
  (forall j r, regs !! j = Some r -> entry_ok m (i + Z.of_nat j) r) ->
  forall name, name_ok name ->
  (forall j r, regs !! j = Some r -> reg_name r = name -> find_map (length regs) i name m = Some (get32 m (map_offset (i + Z.of_nat j)))) /\
  (name ∉ map reg_name regs -> find_map (length regs) i name m = None).
Proof.
  induction regs as [|x regs IH]; intros i Hn Hd He name Hname; cbn [length find_map map]; [done|].
  apply Forall_cons in Hn as [Hx Hn]. apply NoDup_cons in Hd as [Hdx Hd].
  pose proof (entry_text _ _ _ Hx (He 0%nat x eq_refl)) as Ht. rewrite Z.add_0_r in Ht. rewrite Ht. apply ro_named in Hx.
  destruct (IH (i + 1) Hn Hd) with (name := name) as [I1 I2]; [|done|].
  { intros j r Hj. replace (i + 1 + Z.of_nat j) with (i + Z.of_nat (S j)) by lia. by apply He. }
  split.
  - intros [|j] r Hj Hr; cbn in Hj.
    + injection Hj as <-. rewrite Hr, strcmp_refl, Z.add_0_r. by rewrite decide_True.
    + rewrite decide_False.
      * rewrite (I1 _ _ Hj Hr). do 3 f_equal. lia.
      * intros E%strcmp_0; [|done|done]. apply Hdx. rewrite <- E, <- Hr.
        apply list_elem_of_In, in_map, list_elem_of_In. by eapply list_elem_of_lookup_2.
  - intros [Hne Hnin]%not_elem_of_cons. rewrite decide_False; [by apply I2|]. by intros E%strcmp_0.
Qed.

Lemma update_loop_other in_lib start_ptr m : forall ptrs q, q ∉ map callback_ptr in_lib -> (update_loop in_lib start_ptr m ptrs).[q] = ptrs.[q].
Proof.
  induction in_lib as [|r l IH]; intros ptrs q Hq; cbn [update_loop]; [done|]. cbn [map] in Hq. apply not_elem_of_cons in Hq as [Hne Hq].
  rewrite IH by done. repeat case_match; try case_decide; rewrite !aget_aset_ne by done; done.
Qed.

Lemma update_loop_spec in_lib start_ptr m : forall ptrs, NoDup (map callback_ptr in_lib) -> forall r, r ∈ in_lib ->
  (update_loop in_lib start_ptr m ptrs).[callback_ptr r] =
    match find_map (Z.to_nat (get32 m map_count)) 0 (reg_name r) m with
    | Some offset => if decide (offset <> 0) then start_ptr + offset else 0
    | None => 0
    end.
Proof.
  induction in_lib as [|x l IH]; intros ptrs Hn r Hr; [by apply not_elem_of_nil in Hr|]. cbn [map] in Hn. apply NoDup_cons in Hn as [Hx Hn].
  cbn [update_loop]. apply elem_of_cons in Hr as [->|Hr]; [|by apply IH]. rewrite update_loop_other by done.
  repeat case_match; try case_decide; rewrite aget_aset_eq; done.
Qed.

(** Each pointer of a library is on the region of its name, or null if there is none. *)
Definition library_on regs in_lib (there : Z) (ptrs : gmap Z Z) : Prop :=
  forall x, x ∈ in_lib ->
    (forall j r, sort_shm_map_reg_outside regs !! j = Some r -> reg_name r = reg_name x -> ptrs.[callback_ptr x] = there + region_start regs j) /\
    (reg_name x ∉ map reg_name regs -> ptrs.[callback_ptr x] = 0).

Record library_ok in_lib : Prop := { lk_apart : NoDup (map callback_ptr in_lib); lk_named : Forall reg_named in_lib }.

Lemma attach regs in_lib there m ptrs : program_ok regs -> laid_out regs m -> library_ok in_lib ->
  snd (update_shm_map_map in_lib there (Some m) ptrs) = 0 /\ library_on regs in_lib there (fst (update_shm_map_map in_lib there (Some m) ptrs)).
Proof.
  intros Hp Hl [Hn Hnamed]. unfold update_shm_map_map. rewrite (la_status _ _ Hl). rewrite decide_False by done. split; [done|]. cbn [fst].
  intros x Hx. rewrite Forall_forall in Hnamed. rewrite update_loop_spec, (la_count _ _ Hl), Nat2Z.id by done. rewrite <- sorted_length by done.
  destruct (find_map_spec m (sort_shm_map_reg_outside regs) 0) with (name := reg_name x) as [F1 F2].
  - by apply sorted_ok.
  - rewrite (sorted_perm _ Hp). apply (po_names _ Hp).
  - intros j r Hj. rewrite Z.add_0_l. by apply (la_entry _ _ Hl).
  - by apply Hnamed.
  - split.
    + intros j r Hj Hr. rewrite (F1 _ _ Hj Hr), Z.add_0_l, (laid_offset _ _ _ _ Hp Hl Hj). rewrite decide_True; [done|].
      pose proof (region_inside _ _ _ Hp Hj). pose proof (region_start_0 regs). lia.
    + intros Hnin. rewrite F2; [done|]. by rewrite (sorted_perm _ Hp).
Qed.

(** *** The count of the starts *)

(** The statistics that [sf_main_stat] stands for: the [jm]-th region, and a variable no other
    registration has. *)
Record counts_starts regs in_lib (main : Z) (jm : nat) (rm : sf_shm_map_registration_t) : Prop := {
  cs_region : sort_shm_map_reg_outside regs !! jm = Some rm;
  cs_stat : ~ is_config rm;
  cs_len : 0 < reg_len rm;
  cs_var : callback_ptr rm = main;
  cs_apart : NoDup (map callback_ptr (regs ++ in_lib))
}.

Lemma cs_regs regs in_lib main jm rm : counts_starts regs in_lib main jm rm -> NoDup (map callback_ptr regs).
Proof. intros [_ _ _ _ H]. rewrite map_app in H. by apply NoDup_app in H as [? _]. Qed.

Lemma cs_not_lib regs in_lib main jm rm : program_ok regs -> counts_starts regs in_lib main jm rm -> main ∉ map callback_ptr in_lib.
Proof.
  intros Hp [Hj _ _ <- H]. rewrite map_app in H. apply NoDup_app in H as (_ & H & _). apply H.
  apply list_elem_of_In, in_map, list_elem_of_In. rewrite <- (sorted_perm _ Hp). by eapply list_elem_of_lookup_2.
Qed.

Lemma cs_unique regs in_lib main jm rm j r : program_ok regs -> counts_starts regs in_lib main jm rm ->
  sort_shm_map_reg_outside regs !! j = Some r -> callback_ptr r = main -> j = jm /\ r = rm.
Proof.
  intros Hp H Hj Hr. pose proof (cs_regs _ _ _ _ _ H) as Hn. pose proof (sorted_perm _ Hp) as Hperm.
  rewrite <- Hperm in Hn. assert (j = jm) as ->.
  { apply (NoDup_lookup (map callback_ptr (sort_shm_map_reg_outside regs)) _ _ main Hn).
    - change (map callback_ptr ?l) with (callback_ptr <$> l). rewrite list_lookup_fmap, Hj. cbn. by rewrite Hr.
    - change (map callback_ptr ?l) with (callback_ptr <$> l). rewrite list_lookup_fmap, (cs_region _ _ _ _ _ H). cbn.
      by rewrite (cs_var _ _ _ _ _ H). }
  split; [done|]. rewrite (cs_region _ _ _ _ _ H) in Hj. congruence.
Qed.

Lemma library_other in_lib there m ptrs q : q ∉ map callback_ptr in_lib ->
  (fst (update_shm_map_map in_lib there (Some m) ptrs)).[q] = ptrs.[q].
Proof. intros Hq. unfold update_shm_map_map. case_decide; [done|]. by apply update_loop_other. Qed.

(** What is left after the start is counted. *)
Definition one_more (p : Z) m : gmap Z Z := m.[p <- u8 (m.[p] + 1)].

Lemma count_start_on main start_ptr m ptrs p : ptrs.[main] = start_ptr + p -> start_ptr + p <> 0 ->
  count_start main start_ptr (Some m) ptrs = Some (Some (one_more p m), ptrs).
Proof. intros E Hne. unfold count_start. rewrite E, decide_False by done. by replace (start_ptr + p - start_ptr) with p by lia. Qed.

(** A region with its initialiser's bytes, the first counted once. *)
Definition counted_once m (off : Z) r : Prop :=
  exists m0, region_made m0 off r /\ forall a, off <= a < off + reg_len r -> m.[a] = (one_more off m0).[a].

(** After the data plane has laid the memory out, a program that finds it and
    attaches it, wherever it lies there, changes nothing in it but the count of the starts,
    and has each of its pointers on the region of that name, and null where none was
    registered. *)
Theorem attach_finds_regions version device regs in_lib start_ptr m ptrs there in_lib' ptrs2 m' ptrs' fuel file main jm rm :
  version_ok version -> program_ok regs -> fresh m -> 0 <= there -> counts_starts regs in_lib' main jm rm ->
  start_shm_map_malloc version device regs in_lib false start_ptr (Some m) ptrs = Some (Some m', ptrs', 0) -> library_ok in_lib' ->
  exists ptrs3, sf_shm_init fuel version device regs in_lib' main there (Some m') None file ptrs2 =
      Some (Some (one_more (region_start regs jm) m'), ptrs3) /\
    library_on regs in_lib' there ptrs3.
Proof.
  intros Hv Hp H0 Ht Hcs E Hlib. destruct (start_laid_out version device regs in_lib false start_ptr m ptrs Hv Hp H0) as (m1 & ptrs1 & E1 & Hl & _).
  rewrite E in E1. injection E1 as <- _. cbn [sf_shm_init]. unfold update_all_callback_ptr.
  assert (Hregs : library_ok regs).
  { split; [by eapply cs_regs|]. eapply Forall_impl; [apply (po_regs _ Hp)|]. intros r Hr. by apply ro_named. }
  destruct (attach regs regs there m' ptrs2 Hp Hl Hregs) as [_ Hon]. pose proof (cs_region _ _ _ _ _ Hcs) as Hjm.
  destruct (update_shm_map_map regs there (Some m') ptrs2) as [p0 r0]. cbn [fst] in Hon.
  destruct (attach regs in_lib' there m' p0 Hp Hl Hlib) as [_ H].
  assert (Hmain : (fst (update_shm_map_map in_lib' there (Some m') p0)).[main] = there + region_start regs jm).
  { rewrite library_other by (by eapply cs_not_lib). rewrite <- (cs_var _ _ _ _ _ Hcs).
    refine (proj1 (Hon rm _) jm rm Hjm eq_refl). rewrite <- (sorted_perm _ Hp). by eapply list_elem_of_lookup_2. }
  destruct (update_shm_map_map in_lib' there (Some m') p0) as [p1 r1]. cbn [fst] in Hmain, H |- *. exists p1. split; [|done].
  apply count_start_on; [done|]. pose proof (region_inside _ _ _ Hp Hjm). pose proof (region_start_0 regs). lia.
Qed.

(** ** Restart *)

(** The entry of a laid-out table, byte by byte. *)
Lemma entry_bytes regs m j r : program_ok regs -> laid_out regs m -> sort_shm_map_reg_outside regs !! j = Some r ->
  bytes_at m (shm_maps (Z.of_nat j)) (Z.to_nat SHM_MAP_SIZE) = padded (reg_name r) ++ le_bytes 4 (region_start regs j) ++ le_bytes 4 (reg_len r).
Proof.
  intros Hp Hl Hj. destruct (la_entry _ _ Hl _ _ Hj) as [H1 H2]. pose proof (la_offset _ _ Hl _ _ Hj) as H3.
  pose proof (padded_length (reg_name r) (ro_short _ (Forall_lookup_1 _ _ _ _ (sorted_ok _ Hp) Hj))) as Hlen.
  set (l := padded _ ++ _). assert (El : Z.to_nat SHM_MAP_SIZE = length l) by (unfold l; rewrite length_app, Hlen; reflexivity).
  rewrite El. apply holds_bytes. unfold l. rewrite !holds_app, Hlen. split; [done|]. split; [exact H3|].
  replace (_ + Z.of_nat 32 + _) with (map_len (Z.of_nat j)); [done|]. change (length (le_bytes 4 _)) with 4%nat. map_lia.
Qed.

(** Programs change the settings and the statistics, and the lock, but nothing else
    of the head and the table. *)
Definition runs_from regs m m' : Prop := forall a, a < region_start regs 0 -> a <> sync_lock -> m'.[a] = m.[a].

Lemma runs_layout version regs m1 m1' m2 : program_ok regs -> laid_out regs m1 -> laid_out regs m2 ->
  text_at m1 0 SF_SHM_MEM_VERSION_LEN = version -> text_at m2 0 SF_SHM_MEM_VERSION_LEN = version -> runs_from regs m1 m1' ->
  same_layout m1' m2.
Proof.
  intros Hp L1 L2 V1 V2 Hr. pose proof (region_start_0 regs) as Hb.
  assert (Hg : forall a, sync_lock < a -> a + 4 <= region_start regs 0 -> get32 m1' a = get32 m1 a).
  { intros a Ha Ha'. apply get32_ext. intros k Hk. apply Hr; lia. }
  split.
  - unfold text_at in V1, V2. rewrite V2, <- V1. f_equal. apply bytes_at_ext. intros i Hi.
    change (Z.of_nat (Z.to_nat SF_SHM_MEM_VERSION_LEN)) with 32 in Hi. apply Hr; map_lia.
  - rewrite Hg by map_lia. by rewrite (la_start _ _ L1), (la_start _ _ L2).
  - rewrite Hg by map_lia. by rewrite (la_end _ _ L1), (la_end _ _ L2).
  - rewrite Hg by map_lia. by rewrite (la_count _ _ L1), (la_count _ _ L2).
  - intros i Hi _. rewrite (la_count _ _ L2) in Hi. destruct (lookup_lt_is_Some_2 (sort_shm_map_reg_outside regs) (Z.to_nat i)) as [r Hj].
    { rewrite sorted_length by done. lia. }
    pose proof (entry_bytes _ _ _ _ Hp L1 Hj) as E1. pose proof (entry_bytes _ _ _ _ Hp L2 Hj) as E2. rewrite Z2Nat.id in E1, E2 by lia.
    rewrite E2, <- E1. apply bytes_at_ext. intros k Hk. change (Z.of_nat (Z.to_nat SHM_MAP_SIZE)) with 40 in Hk. apply Hr; map_lia.
Qed.

(** ** What is on disk *)

Definition settings_len regs : Z := total_len (of_type SF_SHM_MEM_TYPE_CONFIG regs).

Lemma laid_out_ok regs m : program_ok regs -> laid_out regs m -> MAIN_SHM_LEN regs + SHM_COPY_BYTES_EACH_TIME < 2 ^ 32 ->
  layout_ok m /\ get32 m config_mem_end = region_start regs 0 + settings_len regs - 1 /\ get32 m config_mem_start = region_start regs 0.
Proof.
  intros Hp L Hsz. pose proof (region_start_0 regs) as Hb. pose proof (po_config _ Hp) as Hc. fold (settings_len regs) in Hc.
  pose proof (la_end _ _ L) as He. fold (settings_len regs) in He. pose proof (la_start _ _ L) as Hs. pose proof (program_size _ Hp) as (HL & _ & Hpos & _).
  assert (Hend : settings_len regs <= total_len regs).
  { destruct (take_sorted_config regs Hp) as (cs & ss & Es & _ & _ & _ & Ht). unfold settings_len. rewrite <- Ht.
    pose proof (sorted_ok _ Hp) as Hok. rewrite Es in Hok. apply Forall_app in Hok as [_ Hok].
    rewrite <- (sorted_total _ Hp), Es, total_len_app. pose proof (total_len_pos _ Hok). lia. }
  split; [|done]. split; [rewrite (la_count _ _ L), Hs; map_lia|lia|lia].
Qed.

Lemma created_fresh regs m : fresh m -> exists m0, init_shm_main regs (Some m) = (Some m0, 0) /\ fresh m0.
Proof.
  intros H. eexists. split; [reflexivity|]. intros a Ha. unfold set32 at 1. destruct (decide (a < map_count + 4)) as [Hlt|Hge].
  - assert (Hz : le_bytes 4 0 !! Z.to_nat (a - map_count) = Some 0).
    { change (le_bytes 4 0) with (repeat 0 4). apply repeat_lookup. lia. }
    pose proof (poke_at (le_bytes 4 0) (set32 free_mem (MAIN_SHM_LEN regs - SHM_MAIN_SIZE) (set32 used_mem SHM_MAIN_SIZE (set32 status MAP_NOT_READY m))) map_count _ _ Hz) as Hp.
    rewrite Z2Nat.id in Hp by lia. by replace (map_count + (a - map_count)) with a in Hp by lia.
  - rewrite poke_frame by (change (length (le_bytes 4 0)) with 4%nat; lia). rewrite !set32_frame by map_lia. by apply H.
Qed.

(** A start without shared memory, up to the loading of the file. *)
Lemma boot fuel version device regs in_lib start_ptr m ptrs main jm rm : version_ok version -> program_ok regs -> fresh m -> library_ok in_lib ->
  0 <= start_ptr -> counts_starts regs in_lib main jm rm ->
  exists m1 ptrs1, laid_out regs m1 /\ text_at m1 0 SF_SHM_MEM_VERSION_LEN = version /\ library_on regs in_lib start_ptr ptrs1 /\
    forall file, sf_shm_init fuel version device regs in_lib main start_ptr None (Some m) file ptrs =
      let? (shm, _) := load_shm_config_from_file fuel true file (Some m1) in
      match shm with Some m => Some (Some (one_more (region_start regs jm) m), ptrs1) | None => None end.
Proof.
  intros Hv Hp Hm Hlib Hst Hcs. unfold sf_shm_init. destruct (created_fresh regs m Hm) as (m0 & -> & H0).
  destruct (start_laid_out version device regs in_lib true start_ptr m0 ptrs Hv Hp H0) as (m1 & ptrs1 & E & L & Hpt & V). rewrite E. cbn [obind].
  eexists m1, _. split; [exact L|]. split; [exact V|]. split; [apply (attach regs in_lib start_ptr m1 ptrs1 Hp L Hlib)|intros file].
  destruct (load_shm_config_from_file fuel true file (Some m1)) as [[[m2|] ret]|]; [|done..]. cbn [obind].
  pose proof (cs_region _ _ _ _ _ Hcs) as Hjm. apply count_start_on.
  - rewrite library_other by (by eapply cs_not_lib). rewrite <- (cs_var _ _ _ _ _ Hcs). apply Hpt; [by eapply cs_regs|done].
  - pose proof (region_inside _ _ _ Hp Hjm). pose proof (region_start_0 regs). lia.
Qed.

Lemma one_more_frame p m a : a <> p -> (one_more p m).[a] = m.[a].
Proof. intros Ha. unfold one_more. by rewrite aget_aset_ne by lia. Qed.

(** C18: Settings survive a restart.  The first start, with no file, lays the memory
    out.  What is saved after the programs ran, the next start of the same program
    loads: each region of the settings has the bytes it had when it was saved, each
    region of the statistics starts anew, the first byte of those of [sf_main] counting
    that start, and the library's pointers are right. *)
Theorem restart_restores_settings version device regs in_lib main jm rm start1 start2 fresh1 fresh2 ptrs fuel :
  version_ok version -> program_ok regs -> library_ok in_lib -> counts_starts regs in_lib main jm rm ->
  fresh fresh1 -> fresh fresh2 -> 0 <= start1 -> 0 <= start2 ->
  MAIN_SHM_LEN regs + SHM_COPY_BYTES_EACH_TIME < 2 ^ 32 -> (settings_len regs - 1) / SHM_COPY_BYTES_EACH_TIME < Z.of_nat fuel ->
  exists m1 ptrs1, sf_shm_init fuel version device regs in_lib main start1 None (Some fresh1) None ptrs = Some (Some m1, ptrs1) /\
    library_on regs in_lib start1 ptrs1 /\
    forall m1' written old, runs_from regs m1 m1' -> writes_all (region_start regs 0 + settings_len regs) written ->
      exists f m3 ptrs3, save_shm_config_to_file (Some m1') true true written old = (Some f, 0) /\
        sf_shm_init fuel version device regs in_lib main start2 None (Some fresh2) (Some f) ptrs = Some (Some m3, ptrs3) /\
        library_on regs in_lib start2 ptrs3 /\
        forall j r, sort_shm_map_reg_outside regs !! j = Some r ->
          if decide (is_config r) then forall a, region_start regs j <= a < region_start regs j + reg_len r -> m3.[a] = m1'.[a]
          else if decide (j = jm) then counted_once m3 (region_start regs j) r
          else region_made m3 (region_start regs j) r.
Proof.
  intros Hv Hp Hlib Hcs H1 H2 Hs1 Hs2' Hsz Hf. set (p := region_start regs jm).
  assert (Hp0 : region_start regs 0 <= p) by (apply (region_inside _ _ _ Hp (cs_region _ _ _ _ _ Hcs))).
  destruct (boot fuel version device regs in_lib start1 fresh1 ptrs main jm rm Hv Hp H1 Hlib Hs1 Hcs) as (m1 & ptrs1 & L1 & V1 & On1 & E1).
  exists (one_more p m1), ptrs1. split; [exact (E1 None)|]. split; [exact On1|]. intros m1' written old Hrun Hw.
  assert (Hrun' : runs_from regs m1 m1') by (intros a Ha Hne; rewrite Hrun by done; apply one_more_frame; lia).
  destruct (laid_out_ok _ _ Hp L1 Hsz) as (_ & He1 & _).
  destruct (boot fuel version device regs in_lib start2 fresh2 ptrs main jm rm Hv Hp H2 Hlib Hs2' Hcs) as (m2 & ptrs2 & L2 & V2 & On2 & E2).
  destruct (laid_out_ok _ _ Hp L2 Hsz) as (Lok & He2 & Hs2).
  destruct (roundtrip m1' m2 written old fuel) as (f & m3 & S & L & Hm3); [exact (runs_layout version regs m1 m1' m2 Hp L1 L2 V1 V2 Hrun')|done| | |].
  - by rewrite He2, Z.sub_add.
  - unfold blocks. rewrite He2, Hs2. by replace (region_start regs 0 + settings_len regs - 1 - region_start regs 0) with (settings_len regs - 1) by lia.
  - exists f, (one_more p m3), ptrs2. split; [exact S|]. split; [rewrite (E2 (Some f)), L; reflexivity|]. split; [exact On2|].
    intros j r Hj. pose proof (region_side _ _ _ _ Hp L2 Hj) as Hside. pose proof (region_inside _ _ _ Hp Hj) as [Hin _]. rewrite Hs2 in Hm3.
    pose proof (region_side _ _ _ _ Hp L2 (cs_region _ _ _ _ _ Hcs)) as Hside'. rewrite decide_False in Hside' by (apply (cs_stat _ _ _ _ _ Hcs)). fold p in Hside'.
    destruct (decide (is_config r)).
    + intros a Ha. rewrite one_more_frame by lia. rewrite Hm3. by rewrite decide_True by lia.
    + assert (Hmade : region_made m3 (region_start regs j) r).
      { eapply region_made_ext; [|exact (la_made _ _ L2 _ _ Hj)]. intros a Ha. rewrite Hm3. by rewrite decide_False by lia. }
      destruct (decide (j = jm)) as [->|Hne]; [by exists m3|].
      eapply region_made_ext; [|exact Hmade]. intros a Ha. apply one_more_frame. intros ->.
      pose proof (cs_region _ _ _ _ _ Hcs) as Hjm. pose proof (cs_len _ _ _ _ _ Hcs).
      destruct (decide (j < jm)%nat); [pose proof (region_order _ _ jm _ Hp Hj ltac:(lia)); unfold p in *; lia|].
      pose proof (region_order _ _ j _ Hp Hjm ltac:(lia)). unfold p in *. lia.
Qed.
