(* ===== verification/ShmLock.v ===== *)
(** * The lock over the settings

    [try_lock_shm_mem] and [unlock_shm_mem] of [sf_plugin_api/global_api.c], called
    by several processes.  The test and the write are two accesses, and unlocking does
    not ask who holds the lock: two processes that both test before either writes both
    get it. *)
From S2P Require Import Prelude Wdata Shm.

Implicit Types (m : gmap Z Z) (p q : Z).

(** The two accesses of [try_lock_shm_mem]. *)
Definition try_lock_test m : bool := bool_decide (m.[sync_lock] <> 0).
Definition try_lock_set m : gmap Z Z := m.[sync_lock <- 1].

Lemma try_lock_accesses m : try_lock_shm_mem (Some m) = if try_lock_test m then (Some m, -2) else (Some (try_lock_set m), 0).
Proof. unfold try_lock_shm_mem, try_lock_test, try_lock_set.
  case_decide as H; [by rewrite bool_decide_eq_true_2 by exact H|by rewrite bool_decide_eq_false_2 by lia]. Qed.

(** The processes that hold the lock, and those that have tested it and are about to
    write. *)
Record lock_state := mk_lock { lock_mem : gmap Z Z; tested : gset Z; holding : gset Z }.

(** Calls whose accesses interleave; whoever likes unlocks. *)
Inductive access_step : lock_state -> lock_state -> Prop :=
  | access_test m t h p : p ∉ t -> p ∉ h -> try_lock_test m = false -> access_step (mk_lock m t h) (mk_lock m ({[p]} ∪ t) h)
  | access_busy m t h p : try_lock_test m = true -> access_step (mk_lock m t h) (mk_lock m t h)
  | access_set m t h p : p ∈ t -> access_step (mk_lock m t h) (mk_lock (try_lock_set m) (t ∖ {[p]}) ({[p]} ∪ h))
  | access_unlock m t h p m' : unlock_shm_mem (Some m) = (Some m', 0) -> access_step (mk_lock m t h) (mk_lock m' t (h ∖ {[p]})).

(** Two processes can hold the lock: both test the byte before either writes it. *)
Theorem lock_not_exclusive m p q : m.[sync_lock] = 0 -> p <> q ->
  exists s', rtc access_step (mk_lock m ∅ ∅) s' /\ {[p; q]} ⊆ holding s'.
Proof.
  intros H0 Hne. assert (Ht : try_lock_test m = false) by (apply bool_decide_eq_false_2; lia).
  eexists. split; [|shelve]. eapply rtc_l; [apply (access_test _ _ _ p); set_solver|].
  eapply rtc_l; [apply (access_test _ _ _ q); [set_solver|set_solver|done]|].
  eapply rtc_l; [apply (access_set _ _ _ p); set_solver|]. eapply rtc_l; [apply (access_set _ _ _ q); set_solver|]. apply rtc_refl.
  Unshelve. cbn [holding]. set_solver.
Qed.
