(* ===== verification/ShmDemo.v ===== *)
(** * The shared memory of a small program

    Two regions of settings and one of statistics, registered out of order, laid out,
    saved and loaded; and the lock. *)
From S2P Require Import Prelude Wdata Shm ShmFile ShmLayout ShmBoot ShmLock.

(** "acl", "interfaces" and "acl_stat". *)
Definition demo_acl : sf_shm_map_registration_t := mk_reg [97; 99; 108] SF_SHM_MEM_TYPE_CONFIG 24 2 None.
Definition demo_intf : sf_shm_map_registration_t :=
  mk_reg [105; 110; 116; 101; 114; 102; 97; 99; 101; 115] SF_SHM_MEM_TYPE_CONFIG 16 1 (Some (fun m p _ => (m.[p + 3 <- 1], 0))).
Definition demo_stat : sf_shm_map_registration_t := mk_reg [97; 99; 108; 95; 115; 116; 97; 116] SF_SHM_MEM_TYPE_STAT 8 3 None.
Definition demo_regs : list sf_shm_map_registration_t := [demo_stat; demo_intf; demo_acl].

Example demo_sorted : sort_shm_map_reg_outside demo_regs = [demo_acl; demo_intf; demo_stat].
Proof. reflexivity. Qed.

Definition demo_version : list Z := [118; 49; 46; 48; 46; 48; 45; 97; 98; 99; 100; 101].
Lemma demo_version_ok : version_ok demo_version.
Proof. split; [repeat constructor; lia|unfold SF_SHM_MEM_VERSION_MIN_LEN, SF_SHM_MEM_VERSION_LEN; cbn; lia]. Qed.

Lemma demo_acl_ok : reg_ok demo_acl.
Proof. split; [repeat constructor; cbn; lia|cbn; lia|cbn; lia|exact I]. Qed.
Lemma demo_stat_ok : reg_ok demo_stat.
Proof. split; [repeat constructor; cbn; lia|cbn; lia|cbn; lia|exact I]. Qed.
Lemma demo_intf_reg_ok : reg_ok demo_intf.
Proof.
  split; [repeat constructor; cbn; lia|cbn; lia|cbn; lia|]. intros m off a Ha. cbn in Ha |- *. apply aget_aset_ne. lia.
Qed.

Lemma demo_program_ok : program_ok demo_regs.
Proof.
  split.
  - exact (Forall_cons_2 _ _ _ demo_stat_ok (Forall_cons_2 _ _ _ demo_intf_reg_ok (Forall_cons_2 _ _ _ demo_acl_ok (Forall_nil_2 _)))).
  - apply (bool_decide_unpack _). vm_compute. exact I.
  - apply (bool_decide_unpack _). vm_compute. exact I.
  - reflexivity.
  - done.
  - reflexivity.
Qed.

Lemma empty_fresh : fresh ∅.
Proof. intros a _. done. Qed.

Definition demo_run (start_ptr : Z) : gmap Z Z * gmap Z Z :=
  match start_shm_map_malloc demo_version [83; 70] demo_regs [] false start_ptr (Some ∅) ∅ with
  | Some (Some m, ptrs, _) => (m, ptrs)
  | _ => (∅, ∅)
  end.
Definition demo_mem : gmap Z Z := fst (demo_run 4096).
Definition demo_ptrs : gmap Z Z := snd (demo_run 4096).

Lemma demo_start : start_shm_map_malloc demo_version [83; 70] demo_regs [] false 4096 (Some ∅) ∅ = Some (Some demo_mem, demo_ptrs, 0).
Proof. vm_compute. reflexivity. Qed.

#[local] Opaque demo_run demo_mem demo_ptrs.

Example demo_places : map (region_start demo_regs) [0%nat; 1%nat; 2%nat] = [248; 272; 288].
Proof. reflexivity. Qed.

Lemma start_lays_out_witness : exists m' ptrs',
  start_shm_map_malloc demo_version [83; 70] demo_regs [] false 4096 (Some ∅) ∅ = Some (Some m', ptrs', 0) /\ laid_out demo_regs m'.
Proof.
  destruct (start_lays_out demo_version [83; 70] demo_regs [] 4096 ∅ ∅ demo_version_ok demo_program_ok empty_fresh) as (m' & ptrs' & E & Hl & _).
  exists m', ptrs'. split; [exact E|exact Hl].
Defined.

(** A program that knows the interfaces and something that is not registered. *)
Definition demo_lib : list sf_shm_map_registration_t :=
  [mk_reg (reg_name demo_intf) SF_SHM_MEM_TYPE_CONFIG 16 7 None; mk_reg [120] SF_SHM_MEM_TYPE_CONFIG 16 8 None].

Lemma demo_lib_ok : library_ok demo_lib.
Proof. split; [apply (bool_decide_unpack _); vm_compute; exact I|repeat constructor; cbn; lia]. Qed.

(** The statistics count the starts. *)
Lemma demo_counts : counts_starts demo_regs demo_lib 3 2 demo_stat.
Proof. split; [reflexivity|done|cbn; lia|reflexivity|]. apply (bool_decide_unpack _). vm_compute. exact I. Qed.

Lemma attach_finds_regions_witness : exists ptrs3,
  sf_shm_init 1 demo_version [83; 70] demo_regs demo_lib 3 65536 (Some demo_mem) None None ∅ = Some (Some (one_more 288 demo_mem), ptrs3) /\
  ptrs3.[7] = 65536 + 272 /\ ptrs3.[8] = 0.
Proof.
  destruct (attach_finds_regions demo_version [83; 70] demo_regs [] 4096 ∅ ∅ 65536 demo_lib ∅ demo_mem demo_ptrs 1 None 3 2 demo_stat
    demo_version_ok demo_program_ok empty_fresh ltac:(lia) demo_counts demo_start demo_lib_ok) as (ptrs3 & E & H).
  exists ptrs3. split; [exact E|]. split.
  - pose proof (proj1 (H _ (list_elem_of_here _ _)) 1%nat demo_intf eq_refl eq_refl) as H1. exact H1.
  - assert (Hx : reg_name (mk_reg [120] SF_SHM_MEM_TYPE_CONFIG 16 8 None) ∉ map reg_name demo_regs).
    { apply (bool_decide_unpack _). vm_compute. exact I. }
    exact (proj2 (H _ (list_elem_of_further _ _ _ (list_elem_of_here _ _))) Hx).
Defined.

(** The program runs: an interface is switched off, a counter counts, the lock is held. *)
Definition demo_ran : gmap Z Z := demo_mem.[275 <- 0].[250 <- 9].[290 <- 77].[sync_lock <- 1].

Lemma demo_runs_from : runs_from demo_regs demo_mem demo_ran.
Proof.
  intros a Ha Hl. change (region_start demo_regs 0) with 248 in Ha. unfold demo_ran. rewrite !aget_aset_ne by lia. done.
Qed.

Lemma demo_layout_ok : layout_ok demo_mem.
Proof. split; vm_compute; repeat split; done. Qed.

Lemma run_unique (o : option (option (gmap Z Z) * gmap Z Z * Z)) m p m' p' :
  o = Some (Some m, p, 0) -> o = Some (Some m', p', 0) -> m = m'.
Proof. congruence. Qed.

Lemma demo_laid_out : laid_out demo_regs demo_mem /\ text_at demo_mem 0 SF_SHM_MEM_VERSION_LEN = demo_version.
Proof.
  destruct (start_laid_out demo_version [83; 70] demo_regs [] false 4096 ∅ ∅ demo_version_ok demo_program_ok empty_fresh) as (m' & ptrs' & E & Hl & _ & Hv).
  rewrite (run_unique _ _ _ _ _ demo_start E). split; [exact Hl|exact Hv].
Qed.

Lemma demo_same_layout : same_layout demo_ran demo_mem.
Proof.
  destruct demo_laid_out as [Hl Hv].
  exact (runs_layout demo_version demo_regs demo_mem demo_ran demo_mem demo_program_ok Hl Hl Hv Hv demo_runs_from).
Qed.

Definition demo_written (k : Z) : Z := Z.min SHM_COPY_BYTES_EACH_TIME (288 - k).
Lemma demo_writes : writes_all (get32 demo_mem config_mem_end + 1) demo_written.
Proof. intros k Hk. replace (get32 demo_mem config_mem_end + 1) with 288 by (vm_compute; reflexivity). done. Qed.

Lemma save_load_roundtrip_witness : exists f m3, save_shm_config_to_file (Some demo_ran) true true demo_written None = (Some f, 0) /\
  load_shm_config_from_file 1 true (Some f) (Some demo_mem) = Some (Some m3, 0) /\ m3.[250] = 9 /\ m3.[290] = 0.
Proof.
  destruct (save_load_roundtrip demo_ran demo_mem demo_written None 1 demo_same_layout demo_layout_ok demo_writes) as (f & m3 & S & L & H); [vm_compute; reflexivity|].
  exists f, m3. split; [exact S|]. split; [exact L|]. rewrite !H. split; vm_compute; reflexivity.
Defined.

(** A file of another version. *)
Lemma rejected_load_keeps_witness : exists ret, load_shm_config_from_file 1 true (Some (repeat 1 4096)) (Some demo_mem) = Some (Some demo_mem, ret) /\ ret <> 0.
Proof.
  destruct (load_shm_config_from_file 1 true (Some (repeat 1 4096)) (Some demo_mem)) as [[shm ret]|] eqn:E; [|vm_compute in E; discriminate].
  exists ret. assert (Hr : ret <> 0) by (vm_compute in E; injection E as _ <-; done). split; [|exact Hr].
  rewrite (rejected_load_keeps 1 true (Some (repeat 1 4096)) demo_mem shm ret demo_layout_ok E Hr). reflexivity.
Defined.

(** The third byte too many lands in the statistics. *)
Lemma long_file_overruns_witness : exists m3,
  load_shm_config_from_file 1 true (Some (bytes_at demo_ran 0 (Z.to_nat (get32 demo_mem config_mem_end + 1)) ++ [1; 2; 3])) (Some demo_mem) = Some (Some m3, 0) /\
  m3.[290] = 3.
Proof.
  destruct (long_file_overruns demo_ran demo_mem [1; 2; 3] 1 demo_same_layout demo_layout_ok) as (m3 & L & H); [vm_compute; reflexivity|].
  exists m3. split; [exact L|]. apply (H 2%nat 3 eq_refl). vm_compute. reflexivity.
Defined.

(** Started, then an interface is switched off, saved, and started again. *)
Lemma restart_restores_settings_witness : exists m1 ptrs1 f m3 ptrs3,
  sf_shm_init 1 demo_version [83; 70] demo_regs demo_lib 3 4096 None (Some ∅) None ∅ = Some (Some m1, ptrs1) /\
  save_shm_config_to_file (Some m1.[275 <- 0]) true true demo_written None = (Some f, 0) /\
  sf_shm_init 1 demo_version [83; 70] demo_regs demo_lib 3 8192 None (Some ∅) (Some f) ∅ = Some (Some m3, ptrs3) /\
  m3.[275] = 0 /\ counted_once m3 288 demo_stat.
Proof.
  destruct (restart_restores_settings demo_version [83; 70] demo_regs demo_lib 3 2 demo_stat 4096 8192 ∅ ∅ ∅ 1
    demo_version_ok demo_program_ok demo_lib_ok demo_counts empty_fresh empty_fresh ltac:(lia) ltac:(lia) ltac:(reflexivity) ltac:(reflexivity))
    as (m1 & ptrs1 & E1 & _ & H).
  destruct (H m1.[275 <- 0] demo_written None) as (f & m3 & ptrs3 & S & E3 & _ & H3).
  - intros a Ha _. change (region_start demo_regs 0) with 248 in Ha. apply aget_aset_ne. lia.
  - intros k Hk. reflexivity.
  - exists m1, ptrs1, f, m3, ptrs3. split; [exact E1|]. split; [exact S|]. split; [exact E3|]. split.
    + specialize (H3 1%nat demo_intf eq_refl). rewrite decide_True in H3 by reflexivity. rewrite H3; [apply aget_aset_eq|].
      change (region_start demo_regs 1) with 272. cbn. lia.
    + specialize (H3 2%nat demo_stat eq_refl). rewrite decide_False in H3 by done. rewrite decide_True in H3 by done. exact H3.
Defined.

(** ** The lock *)

Lemma lock_not_exclusive_witness : exists s', rtc access_step (mk_lock ∅ ∅ ∅) s' /\ {[1; 2]} ⊆ holding s'.
Proof. exact (lock_not_exclusive ∅ 1 2 eq_refl ltac:(done)). Defined.
