(* ===== verification/CliUdp.v ===== *)
(** * Commands to the data plane

    The configuration side sends a command line to the data plane in one UDP
    datagram, behind a sequence number, and waits for the text of the answer behind
    the same number: [nshell-lib/vpp-udp-client/send2vpp_rest.c] is the client,
    [src/sf_main/other/cli_udp_server.c] the server.  The sockets are arguments: what
    succeeds, and which datagrams, from which addresses, arrive while the client waits.  What a command
    prints is the packet library's; it reaches the server in pieces. *)
From S2P Require Import Prelude Wdata.

(** An address is the 16 bytes of a [struct sockaddr_in]; what arrives has its sender's. *)
Implicit Types (d src : list Z) (incoming : list (list Z * list Z)).

Definition UDP_RECV_BUF_MAX_LEN : Z := 10240.
Definition UDP_SEND_BUF_MAX_LEN : Z := 256.
Definition CMD_TOO_LONG : Z := -3.
Definition INTERNAL_ERROR : Z := -2.
Definition RECVFROM_FAIL : Z := -1.
Definition RECV_RETRY_TIME : nat := 3.
Definition seq_len : Z := 4.
Definition SF_VPP_CLI_UDP_SERVER_PORT : Z := 18128.
(** [set_server_sockaddr]: the loop-back address, in network order. *)
Definition server_sockaddr : list Z := le_bytes 2 2 ++ rev (le_bytes 2 SF_VPP_CLI_UDP_SERVER_PORT) ++ [127; 0; 0; 1] ++ repeat 0 8.

(** ** The client *)

Record udp_client := mk_client {
  socket_open : bool;
  have_bufs : bool;
  send_seq_number : Z;
  send_cmd_buf : gmap Z Z;
  udp_recv_buf : gmap Z Z;
  ser_addr : list Z
}.
Implicit Types (c : udp_client).

(** Whether a socket can be made, memory allocated, and a datagram sent. *)
Record udp_env := mk_env { can_open : bool; can_alloc : bool; can_send : bool }.

Definition close_socket c : udp_client := mk_client false (have_bufs c) (send_seq_number c) (send_cmd_buf c) (udp_recv_buf c) (ser_addr c).
Definition create_udp_socket c : udp_client := mk_client true (have_bufs c) (send_seq_number c) (send_cmd_buf c) (udp_recv_buf c) server_sockaddr.
Definition check_udp_socket (e : udp_env) c : udp_client * Z :=
  if socket_open c then (c, 0) else if can_open e then (create_udp_socket c, 0) else (c, -1).
Definition check_recv_buf (e : udp_env) c : udp_client * Z :=
  if have_bufs c then (c, 0)
  else if can_alloc e then (mk_client (socket_open c) true (send_seq_number c) ∅ ∅ (ser_addr c), 0) else (c, -1).

(** From [i] down to 0, [n] places in all. *)
Fixpoint shift_loop (n : nat) (i : Z) (m : gmap Z Z) : gmap Z Z :=
  match n with O => m | S n => shift_loop n (i - 1) m.[i + seq_len <- m.[i]] end.

(** [buf]: the caller's text, or none when it is [send_cmd_buf] itself. *)
Definition put_request (buf : option (list Z)) (len seq : Z) (m : gmap Z Z) : gmap Z Z :=
  match buf with
  | Some s => poke (poke m 0 (le_bytes 4 seq)) seq_len (take (Z.to_nat len) s)
  | None => poke (shift_loop (Z.to_nat (len + 1)) len m) 0 (le_bytes 4 seq)
  end.

(** What a call leaves: the client, its answer, the caller's buffer, the datagram sent
    if one was, with the address it was sent to, and the datagrams that were not read. *)
Record call_result := mk_result {
  r_client : udp_client; r_ret : Z; r_retbuf : gmap Z Z; r_sent : option (list Z * list Z); r_rest : list (list Z * list Z)
}.

(** The address [recvfrom] writes over [ser_addr], of which it is told it has [len] bytes. *)
Definition put_sender (len : Z) src (addr : list Z) : list Z := take (Z.to_nat len) src ++ drop (length (take (Z.to_nat len) src)) addr.

(** [own]: the caller's buffer is [udp_recv_buf]; [len], the command's length, is also what
    [recvfrom] is given for the length of an address, and leaves as 16. *)
Fixpoint recv_loop (tries : nat) (own : bool) (retbuf : gmap Z Z) (retbuf_len len : Z) (sent : list Z * list Z) incoming c : call_result :=
  match tries with
  | O => mk_result c RECVFROM_FAIL retbuf (Some sent) incoming
  | S tries =>
      match incoming with
      | [] => mk_result (close_socket c) RECVFROM_FAIL retbuf (Some sent) []
      | (src, d) :: rest =>
          let got := take (Z.to_nat retbuf_len) d in
          let count := Z.of_nat (length got) in
          let m := poke (udp_recv_buf c) 0 got in
          let addr := put_sender len src (ser_addr c) in
          if decide (count >= seq_len) then
            let m := m.[count <- 0] in
            let c := mk_client (socket_open c) (have_bufs c) (send_seq_number c) (send_cmd_buf c) m addr in
            if decide (le_at m 0 4 = send_seq_number c) then
              let count := count + 1 - seq_len in
              mk_result c count (if own then retbuf else poke retbuf 0 (bytes_at m seq_len (Z.to_nat count))) (Some sent) rest
            else recv_loop tries own retbuf retbuf_len 16 sent rest c
          else
            mk_result (mk_client false (have_bufs c) (send_seq_number c) (send_cmd_buf c) m addr) RECVFROM_FAIL retbuf (Some sent) rest
      end
  end.

Definition sendmsgtoserver_rest (e : udp_env) (buf : option (list Z)) (len : Z) (own : bool) (retbuf : gmap Z Z) (retbuf_len : Z)
    incoming c : call_result :=
  let '(c, ret) := check_udp_socket e c in
  if decide (ret <> 0) then mk_result c INTERNAL_ERROR retbuf None incoming
  else
    let '(c, ret) := check_recv_buf e c in
    if decide (ret <> 0) then mk_result c INTERNAL_ERROR retbuf None incoming
    else if decide (len > UDP_SEND_BUF_MAX_LEN - seq_len - 1) then mk_result c CMD_TOO_LONG retbuf None incoming
    else
      let seq := u32 (send_seq_number c + 1) in
      let m := put_request buf len seq (send_cmd_buf c) in
      let c := mk_client (socket_open c) (have_bufs c) seq m (udp_recv_buf c) (ser_addr c) in
      if negb (can_send e) then mk_result (close_socket c) INTERNAL_ERROR retbuf None incoming
      else
        let retbuf_len := if decide (retbuf_len > UDP_RECV_BUF_MAX_LEN - 10) then UDP_RECV_BUF_MAX_LEN - 10 else retbuf_len in
        recv_loop RECV_RETRY_TIME own retbuf retbuf_len len (ser_addr c, bytes_at m 0 (Z.to_nat (len + seq_len))) incoming c.

(** The shell's call: its command is in [send_cmd_buf]; the answer is the offset of
    the text in [udp_recv_buf], or none. *)
Definition sendmsgtoserver_sfshell (e : udp_env) incoming c : call_result * option Z :=
  let len := Z.of_nat (length (cstr (bytes_at (send_cmd_buf c) 0 (Z.to_nat UDP_SEND_BUF_MAX_LEN)))) in
  let r := sendmsgtoserver_rest e None len true ∅ UDP_RECV_BUF_MAX_LEN incoming c in
  (r, if decide (r_ret r > 0) then Some seq_len else None).

(** ** The server *)

Definition SF_CLI_UDP_SERVER_SENDBUF_LEN : Z := 10240.
Definition SF_CLI_UDP_SERVER_RECVBUF_LEN : Z := 256.

Record sf_cli_serv_main_t := mk_serv { udp_server_sendbuf : gmap Z Z; send_buf_len : Z }.
Implicit Types (csm : sf_cli_serv_main_t).

Definition sf_udp_cli_output csm (buffer : list Z) : sf_cli_serv_main_t :=
  let buffer_bytes := Z.of_nat (length buffer) in
  let start_index := send_buf_len csm in
  if decide (start_index >= SF_CLI_UDP_SERVER_SENDBUF_LEN - 1) then csm
  else
    let copy_len := if decide (start_index + buffer_bytes > SF_CLI_UDP_SERVER_SENDBUF_LEN - 1)
                    then SF_CLI_UDP_SERVER_SENDBUF_LEN - 1 - start_index else buffer_bytes in
    let m := poke (udp_server_sendbuf csm) start_index (take (Z.to_nat copy_len) buffer) in
    mk_serv m.[start_index + copy_len <- 0] (start_index + copy_len).

Definition get_seq_from_buf d : Z := foldr (fun b acc => b + 256 * acc) 0 (take 4 d).
Definition set_seq_to_buf (seq_num : Z) csm : sf_cli_serv_main_t :=
  mk_serv (poke (udp_server_sendbuf csm) 0 (le_bytes 4 seq_num)) (send_buf_len csm + seq_len).

(** [None] for a datagram too short for a number: the vector's length would go below
    zero.  [cli]: the pieces a command prints. *)
Definition handle_udp_cli_request_inline (cli : list Z -> list (list Z)) d csm : option sf_cli_serv_main_t :=
  if decide (Z.of_nat (length d) < seq_len) then None
  else
    let csm := mk_serv (udp_server_sendbuf csm) 0 in
    let seq_num := get_seq_from_buf d in
    let csm := set_seq_to_buf seq_num csm in
    Some (foldl sf_udp_cli_output csm (cli (drop 4 d))).

(** The datagram that is sent back, if any. *)
Definition handle_cli_udp_request (cli : list Z -> list (list Z)) d csm : option (sf_cli_serv_main_t * option (list Z)) :=
  let d := take (Z.to_nat SF_CLI_UDP_SERVER_RECVBUF_LEN) d in
  if decide (Z.of_nat (length d) <= 0) then Some (csm, None)
  else let? csm := handle_udp_cli_request_inline cli d csm in
       Some (csm, Some (bytes_at (udp_server_sendbuf csm) 0 (Z.to_nat (send_buf_len csm)))).
