(* ===== verification/CliUdpSpec.v ===== *)
(** * Every answer belongs to its command

    What the server sends back, what the client hands on, and that whatever arrives,
    an answer handed on is one to the request it was asked for. *)
From S2P Require Import Prelude Wdata CliUdp.

Implicit Types (d src : list Z) (incoming : list (list Z * list Z)) (c : udp_client) (csm : sf_cli_serv_main_t).

(** ** The server's answer *)

Definition answer_room : nat := 10235.

(** The answer to a request: its number and as much of the text as fits. *)
Definition answer (seq : Z) (text : list Z) : list Z := le_bytes 4 seq ++ take answer_room text.

Lemma reply_grows csm head t buffer : length head = 4%nat -> (length t <= answer_room)%nat ->
  holds (udp_server_sendbuf csm) 0 (head ++ t) -> send_buf_len csm = 4 + Z.of_nat (length t) ->
  let csm' := sf_udp_cli_output csm buffer in let t' := take answer_room (t ++ buffer) in
  holds (udp_server_sendbuf csm') 0 (head ++ t') /\ send_buf_len csm' = 4 + Z.of_nat (length t') /\ (length t' <= answer_room)%nat.
Proof.
  intros Hh Ht Hm Hl. unfold sf_udp_cli_output, SF_CLI_UDP_SERVER_SENDBUF_LEN. rewrite Hl. assert (Hr : Z.of_nat answer_room = 10235) by done.
  set (t' := take answer_room (t ++ buffer)). assert (Ht' : (length t' <= answer_room)%nat) by (unfold t'; rewrite length_take; lia).
  destruct (decide (4 + Z.of_nat (length t) >= 10240 - 1)) as [Hfull|Hroom].
  - assert (E : t' = t) by (unfold t'; rewrite take_app_le, take_ge by lia; done). rewrite E. cbv zeta. by rewrite Hl.
  - cbv zeta. set (copy_len := if decide _ then _ else _). cbn [udp_server_sendbuf send_buf_len].
    assert (E : t' = t ++ take (Z.to_nat copy_len) buffer).
    { unfold t', copy_len. rewrite take_app_ge by lia. f_equal. case_decide; [f_equal; lia|]. rewrite !take_ge by lia. done. }
    assert (Hc : 0 <= copy_len <= Z.of_nat (length buffer)) by (unfold copy_len; case_decide; lia).
    split; [|split; [rewrite E, length_app, length_take; lia|done]].
    rewrite E, app_assoc. apply holds_app. rewrite length_app, Hh. split.
    + eapply holds_same; [|exact Hm]. intros a Ha. rewrite length_app, Hh in Ha. rewrite aget_aset_ne by lia. apply poke_frame. lia.
    + eapply holds_same; [|replace (0 + Z.of_nat (4 + length t)) with (4 + Z.of_nat (length t)) by lia; apply poke_holds].
      intros a Ha. rewrite length_take in Ha. apply aget_aset_ne. lia.
Qed.

Lemma output_fold chunks : forall csm head t, length head = 4%nat -> (length t <= answer_room)%nat ->
  holds (udp_server_sendbuf csm) 0 (head ++ t) -> send_buf_len csm = 4 + Z.of_nat (length t) ->
  let csm' := foldl sf_udp_cli_output csm chunks in let t' := take answer_room (t ++ concat chunks) in
  holds (udp_server_sendbuf csm') 0 (head ++ t') /\ send_buf_len csm' = 4 + Z.of_nat (length t').
Proof.
  induction chunks as [|b chunks IH]; intros csm head t Hh Ht Hm Hl; cbn [foldl concat].
  - rewrite app_nil_r, take_ge by done. done.
  - destruct (reply_grows csm head t b Hh Ht Hm Hl) as (H1 & H2 & H3).
    destruct (IH (sf_udp_cli_output csm b) head (take answer_room (t ++ b)) Hh H3 H1 H2) as [I1 I2]. cbv zeta in I1, I2.
    assert (E : take answer_room (take answer_room (t ++ b) ++ concat chunks) = take answer_room (t ++ b ++ concat chunks)).
    { rewrite app_assoc. destruct (decide (length (t ++ b) <= answer_room)%nat) as [Hs|Hs].
      - by rewrite (take_ge (t ++ b)) by done.
      - rewrite (take_app_le (take answer_room (t ++ b))) by (rewrite length_take; lia). rewrite (take_app_le (t ++ b)) by lia.
        by rewrite take_take, Nat.min_id. }
    rewrite E in I1, I2. by split.
Qed.

(** A request as the client builds it. *)
Definition request (seq : Z) (cmd : list Z) : list Z := le_bytes 4 seq ++ cmd.

Lemma seq_of_request seq cmd : 0 <= seq < 2 ^ 32 -> get_seq_from_buf (request seq cmd) = seq.
Proof.
  intros Hs. unfold get_seq_from_buf, request. rewrite take_app_le by (rewrite le_bytes_length; lia). rewrite take_ge by (rewrite le_bytes_length; lia).
  pose proof (le_at_small (poke ∅ 0 (le_bytes 4 seq)) 4 0 seq (poke_holds _ _ _) Hs) as E. unfold le_at in E.
  assert (Eb : bytes_at (poke ∅ 0 (le_bytes 4 seq)) 0 4 = le_bytes 4 seq).
  { pose proof (holds_bytes (poke ∅ 0 (le_bytes 4 seq)) 0 (le_bytes 4 seq) (poke_holds _ _ _)) as H. by rewrite le_bytes_length in H. }
  by rewrite Eb in E.
Qed.

Lemma server_answers cli seq cmd csm : 0 <= seq < 2 ^ 32 -> (length cmd <= 252)%nat ->
  exists csm', handle_cli_udp_request cli (request seq cmd) csm = Some (csm', Some (answer seq (concat (cli cmd)))).
Proof.
  intros Hs Hc. unfold handle_cli_udp_request, SF_CLI_UDP_SERVER_RECVBUF_LEN.
  assert (Hlen : length (request seq cmd) = (4 + length cmd)%nat) by (unfold request; by rewrite length_app, le_bytes_length).
  rewrite take_ge by lia. rewrite decide_False by lia. unfold handle_udp_cli_request_inline, seq_len. rewrite decide_False by lia.
  rewrite seq_of_request by done. unfold request at 1. rewrite drop_app_ge by (rewrite le_bytes_length; lia). rewrite le_bytes_length. cbn [Nat.sub drop obind].
  eexists. do 3 f_equal. set (csm0 := set_seq_to_buf _ _).
  destruct (output_fold (cli cmd) csm0 (le_bytes 4 seq) []) as [H1 H2]; [apply le_bytes_length|cbn; lia| |done|].
  { rewrite app_nil_r. apply poke_holds. }
  cbn [app] in H1, H2. unfold answer. pose proof (holds_bytes _ _ _ H1) as E. rewrite length_app, le_bytes_length in E.
  rewrite <- E. f_equal. unfold drop. rewrite H2. lia.
Qed.

(** ** What the client sends *)

Lemma shift_loop_spec n : forall m a, (shift_loop n (Z.of_nat n - 1) m).[a] = if decide (4 <= a < 4 + Z.of_nat n) then m.[a - 4] else m.[a].
Proof.
  induction n as [|n IH]; intros m a; cbn [shift_loop]; [by rewrite decide_False by lia|].
  replace (Z.of_nat (S n) - 1) with (Z.of_nat n) by lia. unfold seq_len. rewrite IH, !aget_aset.
  destruct (decide (a = 4 + Z.of_nat n)) as [->|Ha].
  - rewrite decide_False, decide_True, decide_True by lia. f_equal. lia.
  - destruct (decide (4 <= a < 4 + Z.of_nat n)).
    + by rewrite decide_False, decide_True by lia.
    + by rewrite decide_False, decide_False by lia.
Qed.

Definition cmd_of (buf : option (list Z)) (len : Z) c : list Z :=
  match buf with Some s => take (Z.to_nat len) s | None => bytes_at (send_cmd_buf c) 0 (Z.to_nat len) end.
Definition buf_ok (buf : option (list Z)) (len : Z) : Prop := 0 <= len /\ match buf with Some s => len <= Z.of_nat (length s) | None => True end.

Lemma cmd_of_length buf len c : buf_ok buf len -> length (cmd_of buf len c) = Z.to_nat len.
Proof. intros [H0 H]. destruct buf; cbn; [rewrite length_take; lia|apply bytes_at_length]. Qed.

Lemma put_request_bytes buf len seq c : buf_ok buf len ->
  bytes_at (put_request buf len seq (send_cmd_buf c)) 0 (Z.to_nat (len + 4)) = request seq (cmd_of buf len c).
Proof.
  intros Hb. pose proof (cmd_of_length buf len c Hb) as Hl. destruct Hb as [H0 Hb].
  assert (Hh : holds (put_request buf len seq (send_cmd_buf c)) 0 (request seq (cmd_of buf len c))).
  { unfold request. apply holds_app. rewrite le_bytes_length. destruct buf as [s|]; cbn [put_request cmd_of] in *.
    - unfold seq_len. split; [|apply poke_holds]. eapply holds_same; [|apply poke_holds]. intros a Ha. rewrite le_bytes_length in Ha. apply poke_frame. lia.
    - split; [apply poke_holds|]. intros i x Hi. rewrite poke_frame by (rewrite le_bytes_length; lia).
      pose proof (lookup_lt_Some _ _ _ Hi) as Hlt. rewrite bytes_at_length in Hlt. rewrite bytes_at_lookup in Hi by done. injection Hi as <-.
      replace len with (Z.of_nat (Z.to_nat (len + 1)) - 1) at 2 by lia. rewrite shift_loop_spec, decide_True by lia. f_equal. lia. }
  pose proof (holds_bytes _ _ _ Hh) as E. unfold request in E at 1. rewrite length_app, le_bytes_length, Hl in E. rewrite <- E. f_equal. lia.
Qed.

(** ** What the client hands on *)

(** What the caller can hold of a datagram. *)
Definition clamp (retbuf_len : Z) : Z := Z.min retbuf_len 10230.

Definition next_seq c : Z := u32 (send_seq_number c + 1).
Definition env_ok (e : udp_env) : Prop := can_open e = true /\ can_alloc e = true /\ can_send e = true.

Lemma le_at_prefix m d : 4 <= Z.of_nat (length d) -> le_at (poke m 0 d) 0 4 = get_seq_from_buf d.
Proof.
  intros Hl. unfold le_at, get_seq_from_buf. do 2 f_equal. pose proof (poke_holds m 0 d) as H. rewrite <- (take_drop 4 d) in H. apply holds_app in H as [H _].
  pose proof (holds_bytes _ _ _ H) as E. rewrite length_take, take_drop in E. by replace (Init.Nat.min 4 (length d)) with 4%nat in E by lia.
Qed.

Lemma seq_of_take n d : (4 <= n)%nat -> get_seq_from_buf (take n d) = get_seq_from_buf d.
Proof. intros Hn. unfold get_seq_from_buf. rewrite take_take. by replace (Init.Nat.min 4 n) with 4%nat by lia. Qed.

(** A datagram with another number is dropped; its sender becomes the address of the
    server. *)
Lemma recv_stale tries own retbuf rl len sent src d rest c : 4 <= rl -> 4 <= Z.of_nat (length d) -> get_seq_from_buf d <> send_seq_number c ->
  exists m, recv_loop (S tries) own retbuf rl len sent ((src, d) :: rest) c =
    recv_loop tries own retbuf rl 16 sent rest
      (mk_client (socket_open c) (have_bufs c) (send_seq_number c) (send_cmd_buf c) m (put_sender len src (ser_addr c))).
Proof.
  intros Hrl Hd Hne. cbn [recv_loop]. unfold seq_len. rewrite length_take. rewrite decide_True by lia. eexists.
  rewrite decide_False; [reflexivity|]. cbn [send_seq_number]. rewrite (le_at_ext _ (poke (udp_recv_buf c) 0 (take (Z.to_nat rl) d))).
  - rewrite le_at_prefix by (rewrite length_take; lia). by rewrite seq_of_take by lia.
  - intros i Hi. apply aget_aset_ne. lia.
Qed.

(** What a call that got its answer leaves: the length with the 0 byte, the text in the
    client's buffer behind the number, and in the caller's buffer if that is another. *)
Definition handed_on (r : call_result) (own : bool) (text : list Z) : Prop :=
  r_ret r = Z.of_nat (length text) + 1 /\ holds (udp_recv_buf (r_client r)) 4 (text ++ [0]) /\
  (own = false -> holds (r_retbuf r) 0 (text ++ [0])).

(** What a receive of at most [rl] bytes keeps of a datagram, without the number. *)
Definition text_of (rl : Z) d : list Z := drop 4 (take (Z.to_nat rl) d).

(** The datagram with the number asked for is handed on, its text ended by 0. *)
Lemma recv_mine tries own retbuf rl len sent src d rest c : 4 <= rl -> 4 <= Z.of_nat (length d) -> get_seq_from_buf d = send_seq_number c ->
  let r := recv_loop (S tries) own retbuf rl len sent ((src, d) :: rest) c in
  handed_on r own (text_of rl d) /\ r_sent r = Some sent /\ r_rest r = rest.
Proof.
  intros Hrl Hd He. cbv zeta. cbn [recv_loop]. unfold seq_len, text_of. set (got := take (Z.to_nat rl) d).
  assert (Hg : 4 <= Z.of_nat (length got)) by (unfold got; rewrite length_take; lia). rewrite decide_True by lia.
  set (m := (poke (udp_recv_buf c) 0 got).[Z.of_nat (length got) <- 0]). rewrite decide_True.
  2: { cbn [send_seq_number]. rewrite (le_at_ext _ (poke (udp_recv_buf c) 0 got)).
    - rewrite le_at_prefix by done. unfold got. by rewrite seq_of_take by lia.
    - intros i Hi. apply aget_aset_ne. lia. }
  unfold handed_on. cbn [r_ret r_retbuf r_sent r_rest r_client udp_recv_buf]. split; [|done]. split; [rewrite length_drop; lia|].
  assert (Hh : holds m 4 (drop 4 got ++ [0])).
  { apply holds_app. split.
    - intros i x Hi. pose proof (lookup_lt_Some _ _ _ Hi) as Hlt. rewrite length_drop in Hlt. unfold m. rewrite aget_aset_ne by lia.
      rewrite lookup_drop in Hi. pose proof (poke_at got (udp_recv_buf c) 0 _ _ Hi) as Hp. rewrite <- Hp. f_equal. lia.
    - apply holds_cons. split; [|apply holds_nil]. rewrite length_drop. unfold m. replace (4 + Z.of_nat (length got - 4)) with (Z.of_nat (length got)) by lia.
      apply aget_aset_eq. }
  split; [exact Hh|]. intros ->. pose proof (holds_bytes _ _ _ Hh) as E. rewrite length_app, length_drop in E. cbn [length] in E.
  replace (Z.to_nat (Z.of_nat (length got) + 1 - 4)) with (length got - 4 + 1)%nat by lia. rewrite E. apply poke_holds.
Qed.

(** Nothing is handed on but a datagram that arrived and carries the number. *)
Lemma recv_only_mine tries : forall own retbuf rl len sent incoming c,
  let r := recv_loop tries own retbuf rl len sent incoming c in
  0 < r_ret r -> exists d, d ∈ incoming.*2 /\ get_seq_from_buf d = send_seq_number c /\ handed_on r own (text_of rl d).
Proof.
  induction tries as [|tries IH]; intros own retbuf rl len sent incoming c; cbv zeta; [cbn; unfold RECVFROM_FAIL; lia|].
  destruct incoming as [|[src d] rest]; [cbn; unfold RECVFROM_FAIL; lia|]. intros Hr.
  destruct (decide (4 <= rl /\ 4 <= Z.of_nat (length d))) as [[Hrl Hd]|Hshort].
  2: { revert Hr. cbn [recv_loop]. unfold seq_len. rewrite length_take, decide_False by lia. cbn [r_ret]. unfold RECVFROM_FAIL. lia. }
  destruct (decide (get_seq_from_buf d = send_seq_number c)) as [He|Hne].
  - exists d. split; [apply list_elem_of_here|]. split; [done|]. by apply recv_mine.
  - destruct (recv_stale tries own retbuf rl len sent src d rest c Hrl Hd Hne) as [m E]. rewrite E in Hr |- *.
    destruct (IH _ _ _ _ _ _ _ Hr) as (d' & Hin & Hs & Hh). exists d'. split; [by apply list_elem_of_further|]. by split.
Qed.

(** Datagrams with other numbers use up one try each. *)
Definition stale_for (seq : Z) (x : list Z * list Z) : Prop := 4 <= Z.of_nat (length x.2) /\ get_seq_from_buf x.2 <> seq.

Lemma recv_stales stale : forall k own retbuf rl len sent rest c, 4 <= rl -> Forall (stale_for (send_seq_number c)) stale ->
  exists c' len', send_seq_number c' = send_seq_number c /\
    recv_loop (length stale + k) own retbuf rl len sent (stale ++ rest) c = recv_loop k own retbuf rl len' sent rest c'.
Proof.
  induction stale as [|[src d] stale IH]; intros k own retbuf rl len sent rest c Hrl Hall; [by exists c, len|].
  apply Forall_cons in Hall as [[Hd Hne] Hall]. change (length ((src, d) :: stale) + k)%nat with (S (length stale + k)).
  destruct (recv_stale (length stale + k) own retbuf rl len sent src d (stale ++ rest) c Hrl Hd Hne) as [m E].
  destruct (IH k own retbuf rl 16 sent rest (mk_client (socket_open c) (have_bufs c) (send_seq_number c) (send_cmd_buf c) m (put_sender len src (ser_addr c))) Hrl Hall)
    as (c' & len' & Hs & E').
  exists c', len'. split; [exact Hs|]. change (((src, d) :: stale) ++ rest) with ((src, d) :: stale ++ rest). by rewrite E, E'.
Qed.

(** ** A whole call *)

(** Where a command is sent: to the server if the socket is made for it, to the address of
    who sent last otherwise. *)
Definition destination c : list Z := if socket_open c then ser_addr c else server_sockaddr.

(** A call with a working socket sends the request with the next number, then waits. *)
Lemma call_waits e s own retbuf rl incoming c : env_ok e -> (length s <= 251)%nat ->
  exists c', send_seq_number c' = next_seq c /\ ser_addr c' = destination c /\ socket_open c' = true /\
    sendmsgtoserver_rest e (Some s) (Z.of_nat (length s)) own retbuf rl incoming c =
    recv_loop RECV_RETRY_TIME own retbuf (clamp rl) (Z.of_nat (length s)) (destination c, request (next_seq c) s) incoming c'.
Proof.
  intros (Ho & Ha & Hs) Hl. unfold sendmsgtoserver_rest.
  assert (E1 : exists c1, check_udp_socket e c = (c1, 0) /\ send_seq_number c1 = send_seq_number c /\ ser_addr c1 = destination c /\ socket_open c1 = true).
  { unfold check_udp_socket, destination. rewrite Ho. destruct (socket_open c) eqn:Eo; by eexists. }
  destruct E1 as (c1 & -> & Q1 & A1 & O1). rewrite decide_False by lia.
  assert (E2 : exists c2, check_recv_buf e c1 = (c2, 0) /\ send_seq_number c2 = send_seq_number c1 /\ ser_addr c2 = ser_addr c1 /\ socket_open c2 = socket_open c1).
  { unfold check_recv_buf. rewrite Ha. destruct (have_bufs c1); by eexists. }
  destruct E2 as (c2 & -> & Q2 & A2 & O2). rewrite decide_False by lia. unfold UDP_SEND_BUF_MAX_LEN, seq_len. rewrite decide_False by lia.
  cbv zeta. rewrite Hs. cbn [negb]. replace (u32 (send_seq_number c2 + 1)) with (next_seq c) by (unfold next_seq; congruence).
  eexists. split; [|split; [|split; [|rewrite put_request_bytes by (split; lia); f_equal; [unfold clamp, UDP_RECV_BUF_MAX_LEN; case_decide; lia|]]]].
  4: { cbn [cmd_of ser_addr]. rewrite Nat2Z.id, take_ge by lia. by rewrite A2, A1. }
  all: cbn; congruence.
Qed.

Lemma next_seq_range c : 0 <= next_seq c < 2 ^ 32.
Proof. unfold next_seq. by apply wrap_range. Qed.

Lemma seq_of_answer seq text : 0 <= seq < 2 ^ 32 -> get_seq_from_buf (answer seq text) = seq.
Proof. apply (seq_of_request seq (take answer_room text)). Qed.

(** What the client hands on of an answer's text. *)
Definition handed_text (rl : Z) (text : list Z) : list Z := take (Z.to_nat (clamp rl) - 4) (take answer_room text).

Lemma text_of_answer rl seq text : text_of (clamp rl) (answer seq text) = handed_text rl text.
Proof.
  unfold text_of, answer, handed_text. set (n := Z.to_nat (clamp rl)). rewrite skipn_firstn_comm, drop_app_ge by (rewrite le_bytes_length; lia).
  by rewrite le_bytes_length.
Qed.

(** C37: A command that is sent while at most two late datagrams with other numbers are
    queued goes, behind its number, to the address [destination] says; if the server there
    runs it, it does so on the text that was given, and the caller gets the text
    the command prints, cut to what server and caller have room for and ended by a zero
    byte; the datagrams behind the answer stay unread. *)
Theorem command_answered e cli s stale src rest retbuf retbuf_len c csm :
  env_ok e -> (length s <= 251)%nat -> 4 <= retbuf_len -> (length stale <= 2)%nat -> Forall (stale_for (next_seq c)) stale ->
  exists csm' reply, handle_cli_udp_request cli (request (next_seq c) s) csm = Some (csm', Some reply) /\
    let r := sendmsgtoserver_rest e (Some s) (Z.of_nat (length s)) false retbuf retbuf_len (stale ++ (src, reply) :: rest) c in
    let text := handed_text retbuf_len (concat (cli s)) in
    r_sent r = Some (destination c, request (next_seq c) s) /\ r_rest r = rest /\ r_ret r = Z.of_nat (length text) + 1 /\
    holds (r_retbuf r) 0 (text ++ [0]).
Proof.
  intros He Hl Hrl Hn Hst. pose proof (next_seq_range c) as Hsq. destruct (server_answers cli (next_seq c) s csm Hsq) as [csm' E]; [lia|].
  exists csm', (answer (next_seq c) (concat (cli s))). split; [exact E|]. set (reply := answer _ _). cbv zeta.
  destruct (call_waits e s false retbuf retbuf_len (stale ++ (src, reply) :: rest) c He Hl) as (c1 & Hc1 & _ & _ & ->).
  assert (Hcl : 4 <= clamp retbuf_len) by (unfold clamp; lia). rewrite <- Hc1 in Hst.
  replace RECV_RETRY_TIME with (length stale + S (2 - length stale))%nat by (unfold RECV_RETRY_TIME; lia). set (sent := (destination c, _)).
  destruct (recv_stales stale (S (2 - length stale)) false retbuf (clamp retbuf_len) (Z.of_nat (length s)) sent ((src, reply) :: rest) c1 Hcl Hst)
    as (c2 & len2 & Hc2 & ->).
  destruct (recv_mine (2 - length stale) false retbuf (clamp retbuf_len) len2 sent src reply rest c2 Hcl) as ((H1 & _ & H3) & Hsent & Hrest).
  { unfold reply, answer. rewrite length_app, le_bytes_length. lia. }
  { unfold reply. rewrite seq_of_answer by done. congruence. }
  unfold reply in H1, H3. rewrite text_of_answer in H1, H3. split; [exact Hsent|]. split; [exact Hrest|]. split; [exact H1|]. by apply H3.
Qed.

(** *** The address of the server *)

(** What a call does to the number, and what it sends. *)
Lemma recv_loop_keeps tries : forall own retbuf rl len sent incoming c,
  let r := recv_loop tries own retbuf rl len sent incoming c in send_seq_number (r_client r) = send_seq_number c /\ r_sent r = Some sent.
Proof.
  induction tries as [|tries IH]; intros own retbuf rl len sent incoming c; cbn [recv_loop]; [done|].
  destruct incoming as [|[src d] rest]; [done|]. cbv zeta. case_decide; [|done]. case_decide; [done|]. refine (IH _ _ _ _ _ _ (mk_client _ _ _ _ _ _)).
Qed.

(** Whoever answers is asked next: as many bytes of the address an answer came from as the
    command had go over the server's, and the next command is sent there. *)
Theorem answerer_asked_next e s own retbuf rl src d rest c e' s' own' retbuf' rl' incoming :
  env_ok e -> (length s <= 251)%nat -> 4 <= rl -> 4 <= Z.of_nat (length d) -> get_seq_from_buf d = next_seq c ->
  env_ok e' -> (length s' <= 251)%nat ->
  let r := sendmsgtoserver_rest e (Some s) (Z.of_nat (length s)) own retbuf rl ((src, d) :: rest) c in
  let r' := sendmsgtoserver_rest e' (Some s') (Z.of_nat (length s')) own' retbuf' rl' incoming (r_client r) in
  option_map fst (r_sent r') = Some (put_sender (Z.of_nat (length s)) src (destination c)).
Proof.
  intros He Hl Hrl Hd Hq He' Hl'. cbv zeta. set (r := sendmsgtoserver_rest e _ _ _ _ _ _ _).
  assert (Hr : socket_open (r_client r) = true /\ ser_addr (r_client r) = put_sender (Z.of_nat (length s)) src (destination c)).
  { unfold r. destruct (call_waits e s own retbuf rl ((src, d) :: rest) c He Hl) as (c1 & Hc1 & Ha & Ho & ->).
    assert (Hcl : 4 <= clamp rl) by (unfold clamp; lia). cbn [recv_loop RECV_RETRY_TIME]. unfold seq_len. rewrite length_take. rewrite decide_True by lia.
    rewrite decide_True; [cbn; by rewrite Ho, Ha|]. cbn [send_seq_number]. rewrite (le_at_ext _ (poke (udp_recv_buf c1) 0 (take (Z.to_nat (clamp rl)) d))).
    - rewrite le_at_prefix by (rewrite length_take; lia). rewrite seq_of_take by lia. congruence.
    - intros i Hi. apply aget_aset_ne. lia. }
  destruct Hr as [Ho Ha]. destruct (call_waits e' s' own' retbuf' rl' incoming (r_client r) He' Hl') as (c2 & _ & _ & _ & ->).
  match goal with |- context [recv_loop ?t ?o ?rb ?l ?n ?x ?i ?c'] => destruct (recv_loop_keeps t o rb l n x i c') as [_ ->] end.
  cbn [option_map fst]. unfold destination at 1. by rewrite Ho, Ha.
Qed.

(** ** Many calls *)

(** The calls made of a client that starts at number 0, at most [n] of them so far, with
    the requests that were sent; the shell writes its command into [send_cmd_buf]. *)
Inductive session : Z -> udp_client -> list (Z * list Z) -> Prop :=
| session_start c : send_seq_number c = 0 -> session 0 c []
| session_write n c log m :
    session n c log -> session n (mk_client (socket_open c) (have_bufs c) (send_seq_number c) m (udp_recv_buf c) (ser_addr c)) log
| session_call n c log e s own retbuf rl incoming r :
    session n c log -> r = sendmsgtoserver_rest e (Some s) (Z.of_nat (length s)) own retbuf rl incoming c ->
    session (n + 1) (r_client r) (if r_sent r is Some _ then (next_seq c, s) :: log else log).

(** Every number that was sent is above the ones before, and the client stands at the last. *)
Lemma session_numbers n c log : session n c log -> n < 2 ^ 32 ->
  0 <= send_seq_number c <= n /\ NoDup log.*1 /\ Forall (fun q => 0 <= q <= send_seq_number c) log.*1.
Proof.
  induction 1 as [c Hc|n c log m Hs IH|n c log e s own retbuf rl incoming r Hs IH Hr]; intros Hn.
  - rewrite Hc. split; [lia|]. split; constructor.
  - apply IH, Hn.
  - destruct IH as (Hq & Hnd & Hall); [lia|].
    assert (Hnext : next_seq c = send_seq_number c + 1) by (unfold next_seq; apply wrap_small; lia).
    assert (Hcase : (send_seq_number (r_client r) = send_seq_number c /\ r_sent r = None) \/ send_seq_number (r_client r) = next_seq c).
    { rewrite Hr. unfold sendmsgtoserver_rest.
      assert (Q1 : send_seq_number (check_udp_socket e c).1 = send_seq_number c) by (unfold check_udp_socket; repeat case_match; done).
      destruct (check_udp_socket e c) as [c1 ret1]. case_decide; [left; done|].
      assert (Q2 : send_seq_number (check_recv_buf e c1).1 = send_seq_number c1) by (unfold check_recv_buf; repeat case_match; done).
      destruct (check_recv_buf e c1) as [c2 ret2]. cbn in Q1, Q2. case_decide; [left; cbn; split; congruence|].
      case_decide; [left; cbn; split; congruence|]. right. unfold next_seq. cbv zeta.
      destruct (can_send e); cbn [negb]; [|cbn; congruence].
      match goal with |- context [recv_loop ?t ?o ?rb ?l ?n ?s ?i ?c'] => destruct (recv_loop_keeps t o rb l n s i c') as [-> _] end. cbn. congruence. }
    destruct Hcase as [[Hsame ->]|Hnew].
    + rewrite Hsame. split; [lia|]. by split.
    + rewrite Hnew, Hnext. split; [lia|]. destruct (r_sent r); cbn [fmap list_fmap fst].
      * split.
        -- constructor; [|done]. intros Hin. rewrite Forall_forall in Hall. specialize (Hall _ Hin). cbn in Hall. lia.
        -- constructor; [lia|]. eapply Forall_impl; [exact Hall|]. cbn. intros q Hq'. lia.
      * split; [done|]. eapply Forall_impl; [exact Hall|]. cbn. intros q Hq'. lia.
Qed.

(** [d] answers a request that was sent: [out cmd text] says that [text] is an output of [cmd]. *)
Definition answers_some (out : list Z -> list Z -> Prop) (log : list (Z * list Z)) d : Prop :=
  exists seq cmd text, (seq, cmd) ∈ log /\ out cmd text /\ d = answer seq text.

(** C29: In a session of less than 2^32 calls, with timeouts, failures and late answers in
    any order, if what arrives are answers to requests that were sent, the text that a
    successful call hands on is one its own command printed. *)
Theorem answers_belong out n c log e s own retbuf rl incoming :
  session n c log -> n + 1 < 2 ^ 32 -> env_ok e -> (length s <= 251)%nat ->
  Forall (answers_some out ((next_seq c, s) :: log)) incoming.*2 ->
  let r := sendmsgtoserver_rest e (Some s) (Z.of_nat (length s)) own retbuf rl incoming c in
  0 < r_ret r -> exists text, out s text /\ handed_on r own (handed_text rl text).
Proof.
  intros Hs Hn He Hl Hin. destruct (session_numbers n c log Hs) as (Hq & Hnd & Hall); [lia|].
  assert (Hnext : next_seq c = send_seq_number c + 1) by (unfold next_seq; apply wrap_small; lia).
  cbv zeta. destruct (call_waits e s own retbuf rl incoming c He Hl) as (c1 & Hc1 & _ & _ & ->). intros Hr.
  destruct (recv_only_mine _ _ _ _ _ _ _ _ Hr) as (d & Hd & Hseq & Hh). rewrite Forall_forall in Hin.
  destruct (Hin d Hd) as (seq & cmd & text & Hlog & Hout & ->). rewrite text_of_answer in Hh. exists text. split; [|exact Hh].
  apply elem_of_cons in Hlog as [[= -> ->]|Hold]; [done|]. exfalso.
  assert (Hold' : seq ∈ log.*1) by (apply list_elem_of_fmap; by exists (seq, cmd)).
  rewrite Forall_forall in Hall. specialize (Hall _ Hold'). cbn in Hall. rewrite seq_of_answer in Hseq by lia. lia.
Qed.

(** ** Concrete runs *)

Definition demo_env : udp_env := mk_env true true true.
Definition demo_client : udp_client := mk_client false false 0 ∅ ∅ (repeat 0 16).
(** From the server. *)
Definition here : list Z -> list Z * list Z := pair server_sockaddr.
Definition demo_csm : sf_cli_serv_main_t := mk_serv ∅ 0.
(** A command line that prints the command twice. *)
Definition demo_cli (cmd : list Z) : list (list Z) := [cmd; cmd].

(** A late answer to an earlier number comes first. *)
Lemma command_answered_witness :
  exists csm' reply, handle_cli_udp_request demo_cli (request 1 [115; 104]) demo_csm = Some (csm', Some reply) /\
    let r := sendmsgtoserver_rest demo_env (Some [115; 104]) 2 false ∅ 64 ([here (answer 9 [33])] ++ [here reply]) demo_client in
    r_sent r = Some (server_sockaddr, [1; 0; 0; 0; 115; 104]) /\ r_ret r = 5 /\ holds (r_retbuf r) 0 [115; 104; 115; 104; 0].
Proof.
  assert (Hst : Forall (stale_for (next_seq demo_client)) [here (answer 9 [33])]).
  { constructor; [|constructor]. by vm_compute. }
  destruct (command_answered demo_env demo_cli [115; 104] [here (answer 9 [33])] server_sockaddr [] ∅ 64 demo_client demo_csm (conj eq_refl (conj eq_refl eq_refl))
    ltac:(cbn; lia) ltac:(lia) ltac:(cbn; lia) Hst) as (csm' & reply & H1 & H2 & _ & H3 & H4).
  exists csm', reply. split; [exact H1|]. split; [exact H2|]. split; [exact H3|]. exact H4.
Defined.

Lemma demo_session : session 1 (r_client (sendmsgtoserver_rest demo_env (Some [97]) 1 false ∅ 64 [] demo_client)) [(1, [97])].
Proof. apply (session_call 0 demo_client [] demo_env [97] false ∅ 64 [] _ (session_start demo_client eq_refl) eq_refl). Qed.

(** The first command timed out; its answer arrives while the second one is waited for. *)
Lemma answers_belong_witness :
  let c := r_client (sendmsgtoserver_rest demo_env (Some [97]) 1 false ∅ 64 [] demo_client) in
  let r := sendmsgtoserver_rest demo_env (Some [98]) 1 false ∅ 64 [here (answer 1 [97; 97]); here (answer 2 [98; 98])] c in
  0 < r_ret r /\ exists text, text = [98; 98] /\ handed_on r false (handed_text 64 text).
Proof.
  cbv zeta. set (c := r_client _). assert (Hr : 0 < r_ret (sendmsgtoserver_rest demo_env (Some [98]) 1 false ∅ 64 [here (answer 1 [97; 97]); here (answer 2 [98; 98])] c)) by by vm_compute.
  split; [exact Hr|].
  assert (Hin : Forall (answers_some (fun cmd text => text = cmd ++ cmd) ((next_seq c, [98]) :: [(1, [97])])) [here (answer 1 [97; 97]); here (answer 2 [98; 98])].*2).
  { constructor; [|constructor; [|constructor]].
    - exists 1, [97], [97; 97]. split; [apply list_elem_of_further, list_elem_of_here|done].
    - exists 2, [98], [98; 98]. split; [apply list_elem_of_here|done]. }
  exact (answers_belong (fun cmd text => text = cmd ++ cmd) 1 c [(1, [97])] demo_env [98] false ∅ 64 _ demo_session eq_refl (conj eq_refl (conj eq_refl eq_refl)) ltac:(cbn; lia) Hin Hr).
Defined.

(** A long command answered by somebody else. *)
Lemma answerer_asked_next_witness :
  let c := r_client (sendmsgtoserver_rest demo_env (Some (repeat 97 20)) 20 false ∅ 64 [(repeat 66 16, answer 1 [98])] demo_client) in
  option_map fst (r_sent (sendmsgtoserver_rest demo_env (Some [98]) 1 false ∅ 64 [] c)) = Some (repeat 66 16).
Proof.
  exact (answerer_asked_next demo_env (repeat 97 20) false ∅ 64 (repeat 66 16) (answer 1 [98]) [] demo_client demo_env [98] false ∅ 64 []
    (conj eq_refl (conj eq_refl eq_refl)) ltac:(cbn; lia) ltac:(lia) ltac:(cbn; lia) eq_refl (conj eq_refl (conj eq_refl eq_refl)) ltac:(cbn; lia)).
Defined.
