(* ===== verification/IntfStat.v ===== *)
(** * Interface statistics

    Models the per-thread counters of [src/sf_main/include/sf_interface_tools.h],
    their collection in [src/sf_main/other/sf_interface_stat.c] with the phy
    counters of [sf_intf_phy_stat.c] and [sf_intf_phy_stat_vm.c], and the calls of
    [src/nshell-lib/sf_plugin_api/sf_intf_api.c] that read and clean the totals.
    The phy counters come from DPDK: a reading, or nothing when it fails.  A
    conversion of a count to a rate divides doubles and is a parameter. *)
From S2P Require Import Prelude Wdata.

(** ** The counters of a thread *)

(** The five members every structure repeats ([for_earch_in_out_drop]). *)
Record in_out_drop (A : Type) := mk_iod {
  in_packets : A; in_octets : A; out_packets : A; out_octets : A; drop_packets : A
}.
#[global] Arguments mk_iod {A}.
#[global] Arguments in_packets {A}.
#[global] Arguments in_octets {A}.
#[global] Arguments out_packets {A}.
#[global] Arguments out_octets {A}.
#[global] Arguments drop_packets {A}.

Inductive member := In_packets | In_octets | Out_packets | Out_octets | Drop_packets.
#[export] Instance member_eq_dec : EqDecision member.
Proof. solve_decision. Defined.

Definition get_member {A} (m : member) (s : in_out_drop A) : A :=
  match m with
  | In_packets => in_packets s | In_octets => in_octets s | Out_packets => out_packets s
  | Out_octets => out_octets s | Drop_packets => drop_packets s
  end.
Definition tabulate {A} (f : member -> A) : in_out_drop A :=
  mk_iod (f In_packets) (f In_octets) (f Out_packets) (f Out_octets) (f Drop_packets).
Definition set_member {A} (m : member) (v : A) (s : in_out_drop A) : in_out_drop A :=
  tabulate (fun m' => if decide (m' = m) then v else get_member m' s).

#[export] Instance zeroed_iod {A} `{Zeroed A} : Zeroed (in_out_drop A) := tabulate (fun _ => zeroed).
#[export] Instance zeroed_map {A} : Zeroed (gmap Z A) := (∅ : gmap Z A).

Definition PACKET_TYPE_CNT : Z := 9.

(** [packet_type_stat[k][i]] is [packets] and [octets] of the maps of type [k]. *)
Record sf_intf_stat_pre_thread_t := mk_pre {
  pre_members : in_out_drop (gmap Z Z);
  type_packets : gmap Z (gmap Z Z);
  type_octets : gmap Z (gmap Z Z)
}.
#[export] Instance zeroed_pre : Zeroed sf_intf_stat_pre_thread_t := mk_pre zeroed ∅ ∅.

Implicit Types (t : sf_intf_stat_pre_thread_t) (i k : Z).

(** [update_interface_stat_multi]; [update_interface_stat] adds 1 and
    [decrease_interface_stat] subtracts 1. *)
Definition update_interface_stat_multi (intf_id : Z) (m : member) (increment : Z) t : sf_intf_stat_pre_thread_t :=
  let c := get_member m (pre_members t) in
  mk_pre (set_member m c.[intf_id - 1 <- u64 (c.[intf_id - 1] + increment)] (pre_members t)) (type_packets t) (type_octets t).
Definition update_interface_stat (intf_id : Z) (m : member) t := update_interface_stat_multi intf_id m 1 t.
Definition decrease_interface_stat (intf_id : Z) (m : member) t := update_interface_stat_multi intf_id m (-1) t.

(** ** The phy counters *)

Record sf_port_statics_t := mk_port {
  rx_packets : Z; rx_octets : Z; rx_error : Z; rx_miss : Z;
  tx_packets : Z; tx_octets : Z; tx_error : Z; port_mask : Z
}.

Record intf_old_stat_t := mk_old {
  old_members : in_out_drop Z;
  phy : sf_port_statics_t;
  extra_byte_pre_pkt : Z;
  packet_type_packets : gmap Z Z;
  packet_type_octets : gmap Z Z
}.
Definition zero_port : sf_port_statics_t := mk_port 0 0 0 0 0 0 0 0.
#[export] Instance zeroed_old : Zeroed intf_old_stat_t := mk_old zeroed zero_port 0 ∅ ∅.

Definition trans_port_statics_to_old_stat (p : sf_port_statics_t) (n : intf_old_stat_t) : intf_old_stat_t :=
  mk_old (old_members n) p (extra_byte_pre_pkt n) (packet_type_packets n) (packet_type_octets n).

(** [reading] is DPDK's answer for the interface. *)
Definition update_single_intf_phy_statics (interface_id : Z) (reading : option sf_port_statics_t) (n : intf_old_stat_t) :
    intf_old_stat_t * Z :=
  if decide (interface_id <= 0 \/ interface_id > MAX_INTERFACE_CNT) then (n, -1)
  else match reading with
       | None => (n, -1)
       | Some p => (trans_port_statics_to_old_stat p n, 0)
       end.

(** ** Collection *)

Record single_interface_stat_t := mk_single {
  totals : in_out_drop Z;
  in_pps : Z; in_bps : Z; out_pps : Z; out_bps : Z;
  tx_error_packets : Z; tx_ok_packets : Z; rx_miss_packets : Z;
  packet_type_pps : gmap Z Z; packet_type_bps : gmap Z Z
}.
#[export] Instance zeroed_single : Zeroed single_interface_stat_t := mk_single zeroed 0 0 0 0 0 0 0 ∅ ∅.

Record stat_state := mk_stat {
  sf_intf_stat_main : gmap Z sf_intf_stat_pre_thread_t;
  sf_intf_old_stat_record : gmap Z sf_intf_stat_pre_thread_t;
  intf_old_stat_array : gmap Z intf_old_stat_t;
  interfaces : gmap Z single_interface_stat_t
}.
Implicit Types (st : stat_state).

Definition delta (new_v old_v mask : Z) : Z := Z.land (u64 (new_v - old_v)) mask.
Definition mask_all : Z := 2 ^ 64 - 1.

Section collection.
Context (per_time : Z -> Z) (threads : Z).

Definition EXTRA_OCTETS_PER_PKT : Z := 24.

(** The packets and the bits per second. *)
Definition calculate_pps_and_bps (old_packets new_packets old_octets new_octets mask extra_bytes : Z) : Z * Z :=
  let delta_packets := delta new_packets old_packets mask in
  let delta_octets := delta new_octets old_octets mask in
  let bps_tmp := u64 (delta_packets * EXTRA_OCTETS_PER_PKT + delta_octets) in
  let bps_tmp := if decide (extra_bytes <> 0) then u64 (bps_tmp - delta_packets * extra_bytes) else bps_tmp in
  (per_time delta_packets, per_time (u64 (bps_tmp * 8))).

(** The types of packets of one thread. *)
Fixpoint type_loop (n : nat) k i (new old : gmap Z (gmap Z Z)) (acc : gmap Z Z) : gmap Z (gmap Z Z) * gmap Z Z :=
  match n with
  | O => (old, acc)
  | S n =>
      let acc := acc.[k <- u64 (acc.[k] + (new.[k].[i] - old.[k].[i]))] in
      let old := old.[k <- old.[k].[i <- new.[k].[i]]] in
      type_loop n (k + 1) i new old acc
  end.

(** The counters of one thread: the differences are added to [new_stat] and the
    old record takes the new values. *)
Definition collect_thread i (new old : sf_intf_stat_pre_thread_t) (new_stat : intf_old_stat_t) :
    sf_intf_stat_pre_thread_t * intf_old_stat_t :=
  let sum := tabulate (fun m => u64 (get_member m (old_members new_stat) +
               (get_member m (pre_members new)).[i] - (get_member m (pre_members old)).[i])) in
  let keep := tabulate (fun m => (get_member m (pre_members old)).[i <- (get_member m (pre_members new)).[i]]) in
  let n := Z.to_nat PACKET_TYPE_CNT in
  let '(op, tp) := type_loop n 0 i (type_packets new) (type_packets old) (packet_type_packets new_stat) in
  let '(oo, to) := type_loop n 0 i (type_octets new) (type_octets old) (packet_type_octets new_stat) in
  (mk_pre keep op oo, mk_old sum (phy new_stat) (extra_byte_pre_pkt new_stat) tp to).

Fixpoint thread_loop (n : nat) (j : Z) i (main old : gmap Z sf_intf_stat_pre_thread_t) (new_stat : intf_old_stat_t) :
    gmap Z sf_intf_stat_pre_thread_t * intf_old_stat_t :=
  match n with
  | O => (old, new_stat)
  | S n =>
      let '(o, new_stat) := collect_thread i main.[j] old.[j] new_stat in
      thread_loop n (j + 1) i main old.[j <- o] new_stat
  end.

Fixpoint type_rates (n : nat) k (new_stat : intf_old_stat_t) (pps bps : gmap Z Z) : gmap Z Z * gmap Z Z :=
  match n with
  | O => (pps, bps)
  | S n =>
      let '(p, b) := calculate_pps_and_bps 0 (packet_type_packets new_stat).[k] 0 (packet_type_octets new_stat).[k] mask_all 0 in
      type_rates n (k + 1) new_stat pps.[k <- p] bps.[k <- b]
  end.

Definition update_target (last_stat new_stat : intf_old_stat_t) (s : single_interface_stat_t) : single_interface_stat_t :=
  let n := old_members new_stat in
  let mask := port_mask (phy new_stat) in
  let '(ipps, ibps) := calculate_pps_and_bps 0 (in_packets n) 0 (in_octets n) mask_all 0 in
  let '(opps, obps) := calculate_pps_and_bps (tx_packets (phy last_stat)) (tx_packets (phy new_stat))
                         (tx_octets (phy last_stat)) (tx_octets (phy new_stat)) mask (extra_byte_pre_pkt new_stat) in
  let '(tpps, tbps) := type_rates (Z.to_nat PACKET_TYPE_CNT) 0 new_stat (packet_type_pps s) (packet_type_bps s) in
  let sums := tabulate (fun m => u64 (get_member m (totals s) + get_member m n)) in
  let miss := u64 (rx_miss_packets s + delta (rx_miss (phy new_stat)) (rx_miss (phy last_stat)) mask) in
  let ok := u64 (tx_ok_packets s + delta (tx_packets (phy new_stat)) (tx_packets (phy last_stat)) mask) in
  let err := if decide (ok <= out_packets sums) then out_packets sums - ok else tx_error_packets s in
  mk_single sums ipps ibps opps obps err ok miss tpps tbps.

(** One interface; nothing changes when its phy counters cannot be read. *)
Definition calculate_single_interface i (reading : option sf_port_statics_t) st : stat_state :=
  let '(new_stat, k) := update_single_intf_phy_statics (i + 1) reading zeroed in
  if decide (k <> 0) then st
  else
    let '(old, new_stat) := thread_loop (Z.to_nat threads) 0 i (sf_intf_stat_main st) (sf_intf_old_stat_record st) new_stat in
    let target := update_target (intf_old_stat_array st).[i] new_stat (interfaces st).[i] in
    mk_stat (sf_intf_stat_main st) old (intf_old_stat_array st).[i <- new_stat] (interfaces st).[i <- target].

Fixpoint calculate_loop (n : nat) i (readings : Z -> option sf_port_statics_t) st : stat_state :=
  match n with
  | O => st
  | S n => calculate_loop n (i + 1) readings (calculate_single_interface i (readings i) st)
  end.
Definition calculate_all_intf_statics (intf_cnt : Z) (readings : Z -> option sf_port_statics_t) st : stat_state :=
  calculate_loop (Z.to_nat intf_cnt) 0 readings st.

(** The first round of the process only records the phy counters. *)
Definition init_intf_phy_record i (reading : option sf_port_statics_t) st : stat_state :=
  let '(last_stat, _) := update_single_intf_phy_statics (i + 1) reading (intf_old_stat_array st).[i] in
  mk_stat (sf_intf_stat_main st) (sf_intf_old_stat_record st) (intf_old_stat_array st).[i <- last_stat] (interfaces st).
End collection.

(** [sf_main_init] and [sf_statics_global_init]. *)
Definition stat_init : stat_state := mk_stat ∅ ∅ ∅ ∅.

(** A thread counts. *)
Definition count_in (j intf_id : Z) (m : member) (increment : Z) st : stat_state :=
  mk_stat (sf_intf_stat_main st).[j <- update_interface_stat_multi intf_id m increment (sf_intf_stat_main st).[j]]
    (sf_intf_old_stat_record st) (intf_old_stat_array st) (interfaces st).

(** ** The calls of the configuration library *)

Definition get_interface_stat_ptr (intf_id : Z) st : option single_interface_stat_t :=
  if decide (intf_id <= 0 \/ intf_id >= MAX_INTERFACE_CNT + 1) then None else Some (interfaces st).[intf_id - 1].

Definition clean_interface_stat (intf_id : Z) st : stat_state * Z :=
  if decide (intf_id <= 0 \/ intf_id >= MAX_INTERFACE_CNT + 1) then (st, -1)
  else (mk_stat (sf_intf_stat_main st) (sf_intf_old_stat_record st) (intf_old_stat_array st)
          (interfaces st).[intf_id - 1 <- zeroed], 0).
