(* ===== verification/IntfStatSpec.v ===== *)
(** * Interface statistics: the totals are the packets counted

    The specification is a ledger of one counter of one interface: what the
    threads counted, what has been collected and what had been collected when the
    totals were last cleaned.  Whatever the order of counting, collecting (also
    when the phy counters cannot be read) and cleaning, the total shown is the
    difference of the last two. *)
From S2P Require Import Prelude Wdata IntfStat.

Implicit Types (t : sf_intf_stat_pre_thread_t) (st : stat_state) (i j : Z) (m : member).

(** ** The events and the ledger *)

Inductive event :=
| Count (j intf_id : Z) (m : member) (increment : Z)
| First_round (i : Z) (reading : option sf_port_statics_t)
| Collect (i : Z) (reading : option sf_port_statics_t)
| Clean (intf_id : Z).

Record ledger := mk_ledger { counted : Z; collected : Z; cleaned : Z }.

Section events.
Context (per_time : Z -> Z) (threads : Z).

Definition run_event st (e : event) : stat_state :=
  match e with
  | Count j id m d => count_in j id m d st
  | First_round i r => init_intf_phy_record i r st
  | Collect i r => calculate_single_interface per_time threads i r st
  | Clean id => fst (clean_interface_stat id st)
  end.
Definition run_events (evs : list event) : stat_state := foldl run_event stat_init evs.

Definition on_port i : Prop := 0 <= i < MAX_INTERFACE_CNT.

Definition ledger_event m i (l : ledger) (e : event) : ledger :=
  match e with
  | Count j id m' d =>
      if decide (0 <= j < threads /\ id - 1 = i /\ m' = m) then mk_ledger (counted l + d) (collected l) (cleaned l) else l
  | Collect i' (Some _) => if decide (i' = i) then mk_ledger (counted l) (counted l) (cleaned l) else l
  | Clean id => if decide (id - 1 = i) then mk_ledger (counted l) (collected l) (collected l) else l
  | _ => l
  end.
Definition ledger_of m i (evs : list event) : ledger := foldl (ledger_event m i) (mk_ledger 0 0 0) evs.

(** ** Sums over the threads *)

(** One thread counts [d] more, modulo the width. *)
Lemma sum_from_bump n : forall j f g k d,
  (forall x, x <> k -> g x = f x) -> g k = u64 (f k + d) ->
  u64 (sum_from n j g) = u64 (sum_from n j f + (if decide (j <= k < j + Z.of_nat n) then d else 0)).
Proof.
  induction n as [|n IH]; intros j f g k d Hne Hk.
  - rewrite decide_False by lia. done.
  - cbn [sum_from]. rewrite <- wrap_add_r, (IH (j + 1) f g k d Hne Hk), wrap_add_r.
    destruct (decide (j = k)) as [->|Hj].
    + rewrite Hk, (decide_False (P := k + 1 <= k < _)), (decide_True (P := k <= k < _)) by lia.
      rewrite wrap_add_l. f_equal. lia.
    + rewrite Hne by done. destruct (decide (j + 1 <= k < j + 1 + Z.of_nat n)) as [Hin|Hout].
      * rewrite decide_True by lia. f_equal. lia.
      * rewrite decide_False by lia. f_equal. lia.
Qed.

(** ** Reading the structures *)

Lemma get_tabulate {A} (f : member -> A) m : get_member m (tabulate f) = f m.
Proof. by destruct m. Qed.

Lemma get_set {A} m m' (v : A) s : get_member m' (set_member m v s) = if decide (m' = m) then v else get_member m' s.
Proof. unfold set_member. by rewrite get_tabulate. Qed.

Definition counter m i t : Z := (get_member m (pre_members t)).[i].
Definition main_sum m i st : Z := sum_from (Z.to_nat threads) 0 (fun j => counter m i (sf_intf_stat_main st).[j]).
Definition old_sum m i st : Z := sum_from (Z.to_nat threads) 0 (fun j => counter m i (sf_intf_old_stat_record st).[j]).
Definition total m i st : Z := get_member m (totals (interfaces st).[i]).

Lemma counter_zero m i : counter m i zeroed = 0.
Proof. by destruct m. Qed.

Lemma counter_update m i m' id d t :
  counter m i (update_interface_stat_multi id m' d t) =
  if decide (id - 1 = i /\ m' = m) then u64 (counter m i t + d) else counter m i t.
Proof.
  unfold counter, update_interface_stat_multi. cbn [pre_members]. rewrite get_set.
  destruct (decide (m = m')) as [->|Hm].
  - rewrite aget_aset. destruct (decide (id - 1 = i)) as [->|Hi].
    + by rewrite decide_True.
    + rewrite decide_False; [done|]. by intros [??].
  - rewrite decide_False; [done|]. intros [_ ->]. done.
Qed.

Lemma collect_thread_counter i new old ns m i' :
  counter m i' (fst (collect_thread i new old ns)) = if decide (i' = i) then counter m i new else counter m i' old.
Proof.
  unfold collect_thread. destruct (type_loop _ _ _ _ _ _) as [op tp], (type_loop _ _ _ (type_octets _) _ _) as [oo to].
  cbn [fst]. unfold counter. cbn [pre_members]. rewrite get_tabulate, aget_aset.
  destruct (decide (i = i')) as [->|]; [by rewrite decide_True|by rewrite decide_False].
Qed.

Lemma collect_thread_sum i new old ns m :
  get_member m (old_members (snd (collect_thread i new old ns))) =
  u64 (get_member m (old_members ns) + counter m i new - counter m i old).
Proof.
  unfold collect_thread. destruct (type_loop _ _ _ _ _ _) as [op tp], (type_loop _ _ _ (type_octets _) _ _) as [oo to].
  cbn [snd old_members]. by rewrite get_tabulate.
Qed.

Lemma thread_loop_spec n : forall j i main old ns m,
  let '(old', ns') := thread_loop n j i main old ns in
  (forall x i', counter m i' old'.[x] =
     if decide (j <= x < j + Z.of_nat n /\ i' = i) then counter m i main.[x] else counter m i' old.[x]) /\
  u64 (get_member m (old_members ns')) =
  u64 (get_member m (old_members ns) + sum_from n j (fun x => counter m i main.[x]) - sum_from n j (fun x => counter m i old.[x])).
Proof.
  induction n as [|n IH]; intros j i main old ns m; cbn [thread_loop].
  - split; [|cbn [sum_from]; f_equal; lia]. intros x i'. rewrite decide_False by lia. done.
  - destruct (collect_thread i main.[j] old.[j] ns) as [o ns1] eqn:Ec.
    pose proof (collect_thread_counter i main.[j] old.[j] ns m) as Hc.
    pose proof (collect_thread_sum i main.[j] old.[j] ns m) as Hs. rewrite Ec in Hc, Hs. cbn [fst snd] in Hc, Hs.
    specialize (IH (j + 1) i main old.[j <- o] ns1 m).
    destruct (thread_loop n (j + 1) i main old.[j <- o] ns1) as [old' ns'] eqn:El.
    destruct IH as [IH1 IH2]. split.
    + intros x i'. rewrite IH1, aget_aset. destruct (decide (j = x)) as [<-|Hx].
      * rewrite (decide_False (P := j + 1 <= j < _ /\ _)) by lia. rewrite Hc.
        destruct (decide (i' = i)) as [->|Hi]; [rewrite decide_True by lia; done|by rewrite decide_False by lia].
      * destruct (decide (j + 1 <= x < j + 1 + Z.of_nat n /\ i' = i)); [rewrite decide_True by lia; done|].
        by rewrite decide_False by lia.
    + rewrite IH2. cbn [sum_from].
      rewrite (sum_from_ext n (j + 1) (fun x => counter m i old.[j <- o].[x]) (fun x => counter m i old.[x]))
        by (intros x Hx; rewrite aget_aset_ne by lia; done).
      rewrite Hs. rewrite <- wrap_sub_l, <- wrap_add_l, wrap_idemp, wrap_add_l, wrap_sub_l. f_equal. lia.
Qed.

Lemma update_target_total last ns s m :
  get_member m (totals (update_target per_time last ns s)) = u64 (get_member m (totals s) + get_member m (old_members ns)).
Proof.
  unfold update_target. destruct (calculate_pps_and_bps _ 0 _ 0 _ _ _), (calculate_pps_and_bps _ _ _ _ _ _ _), (type_rates _ _ _ _ _ _).
  cbn [totals]. by rewrite get_tabulate.
Qed.

(** ** Each event keeps the ledger *)

Definition agrees m i st (l : ledger) : Prop :=
  u64 (main_sum m i st) = u64 (counted l) /\ u64 (old_sum m i st) = u64 (collected l) /\
  total m i st = u64 (collected l - cleaned l).

Lemma count_agrees m i st l j id m' d : agrees m i st l -> agrees m i (count_in j id m' d st) (ledger_event m i l (Count j id m' d)).
Proof.
  intros (H1 & H2 & H3). unfold agrees.
  assert (Hs : u64 (main_sum m i (count_in j id m' d st)) =
    u64 (main_sum m i st + (if decide (0 <= j < threads /\ id - 1 = i /\ m' = m) then d else 0))).
  { unfold main_sum, count_in. cbn [sf_intf_stat_main].
    destruct (decide (id - 1 = i /\ m' = m)) as [[Hi Hm]|Hno].
    - rewrite (sum_from_bump _ 0 (fun x => counter m i (sf_intf_stat_main st).[x]) _ j d).
      + do 2 f_equal. destruct (decide (0 <= j < 0 + Z.of_nat (Z.to_nat threads))).
        * rewrite decide_True; [done|]. split; [lia|done].
        * rewrite decide_False; [done|]. intros [? _]. lia.
      + intros x Hx. by rewrite aget_aset_ne by lia.
      + rewrite aget_aset_eq, counter_update. by rewrite decide_True.
    - rewrite (decide_False (P := 0 <= j < threads /\ _)) by (intros (_ & ? & ?); by apply Hno). f_equal. rewrite Z.add_0_r.
      apply sum_from_ext. intros x _. rewrite aget_aset. destruct (decide (j = x)) as [<-|]; [|done].
      rewrite counter_update. by rewrite decide_False. }
  cbn [ledger_event]. destruct (decide (0 <= j < threads /\ _)) as [Hc|Hc].
  - cbn [counted collected cleaned]. split_and!; [|exact H2|exact H3]. rewrite Hs, <- wrap_add_l, H1. by rewrite wrap_add_l.
  - split_and!; [|exact H2|exact H3]. by rewrite Hs, Z.add_0_r.
Qed.

Lemma collect_agrees m i st l i' r : on_port i -> agrees m i st l ->
  agrees m i (calculate_single_interface per_time threads i' r st) (ledger_event m i l (Collect i' r)).
Proof.
  intros Hi (H1 & H2 & H3). unfold calculate_single_interface, update_single_intf_phy_statics.
  destruct (decide (i' + 1 <= 0 \/ i' + 1 > MAX_INTERFACE_CNT)) as [Hb|Hb].
  { rewrite decide_True by done. cbn [ledger_event]. destruct r; [|done]. unfold on_port in Hi.
    by rewrite decide_False by lia. }
  destruct r as [p|]; [|by rewrite decide_True]. rewrite decide_False by lia. cbn [ledger_event].
  set (ns0 := trans_port_statics_to_old_stat p zeroed).
  pose proof (thread_loop_spec (Z.to_nat threads) 0 i' (sf_intf_stat_main st) (sf_intf_old_stat_record st) ns0 m) as Ht.
  destruct (thread_loop _ _ _ _ _ _) as [old' ns']. destruct Ht as [Hc Hs].
  replace (get_member m (old_members ns0)) with 0 in Hs by (by destruct m).
  unfold agrees, main_sum, old_sum, total. cbn [sf_intf_stat_main sf_intf_old_stat_record interfaces].
  destruct (decide (i' = i)) as [->|Hne].
  - cbn [counted collected cleaned]. split_and!; [exact H1| |].
    + rewrite <- H1. unfold main_sum. f_equal. apply sum_from_ext. intros x Hx. rewrite Hc. by rewrite decide_True by lia.
    + rewrite aget_aset_eq, update_target_total, <- wrap_add_r, Hs, wrap_add_r. fold (total m i st). rewrite H3.
      fold (main_sum m i st) (old_sum m i st). rewrite wrap_add_l.
      replace (collected l - cleaned l + (0 + main_sum m i st - old_sum m i st))
        with (main_sum m i st - old_sum m i st + (collected l - cleaned l)) by lia.
      rewrite <- wrap_add_l, <- wrap_sub_r, H2, wrap_sub_r, <- wrap_sub_l, H1, wrap_sub_l, wrap_add_l. f_equal. lia.
  - split_and!; [exact H1| |by rewrite aget_aset_ne by done]. rewrite <- H2. unfold old_sum. f_equal.
    apply sum_from_ext. intros x Hx. rewrite Hc. by rewrite decide_False by (intros [_ E]; by apply Hne).
Qed.

Lemma event_agrees m i st l e : on_port i -> agrees m i st l -> agrees m i (run_event st e) (ledger_event m i l e).
Proof.
  intros Hi Ha. destruct e as [j id m' d|i' r|i' r|id]; cbn [run_event].
  - by apply count_agrees.
  - unfold init_intf_phy_record. by destruct (update_single_intf_phy_statics _ _ _).
  - by apply collect_agrees.
  - unfold clean_interface_stat. unfold on_port in Hi. destruct Ha as (H1 & H2 & H3). cbn [ledger_event].
    destruct (decide (id <= 0 \/ _)) as [Hb|Hb]; [rewrite decide_False by lia; done|]. cbn [fst].
    unfold agrees, total. cbn [interfaces]. destruct (decide (id - 1 = i)) as [->|Hne].
    + split_and!; [exact H1|exact H2|]. rewrite aget_aset_eq. cbn [collected cleaned]. rewrite Z.sub_diag. by destruct m.
    + split_and!; [exact H1|exact H2|]. by rewrite aget_aset_ne by done.
Qed.

Lemma run_agrees m i evs : on_port i -> agrees m i (run_events evs) (ledger_of m i evs).
Proof.
  intros Hi. unfold run_events, ledger_of. assert (H0 : agrees m i stat_init (mk_ledger 0 0 0)).
  { unfold agrees, main_sum, old_sum, total. cbn [sf_intf_stat_main sf_intf_old_stat_record interfaces stat_init].
    rewrite !sum_from_zero by (intros x; rewrite aget_empty; apply counter_zero). rewrite aget_empty. by destruct m. }
  revert H0. generalize stat_init (mk_ledger 0 0 0). induction evs as [|e evs IH]; intros st l H0; [done|].
  cbn [foldl]. apply IH. by apply event_agrees.
Qed.
End events.

(** C26: whatever the threads count, in whatever order the counters are collected
    (also when the phy counters of the interface cannot be read) and the totals
    cleaned, a total shown is what the threads counted up to the last collection
    less what had been collected at the last cleaning, modulo 2^64: nothing is
    counted twice or lost. *)
Theorem totals_follow_ledger (per_time : Z -> Z) (threads : Z) (m : member) (intf_id : Z) (evs : list event) :
  1 <= intf_id <= MAX_INTERFACE_CNT ->
  exists s, get_interface_stat_ptr intf_id (run_events per_time threads evs) = Some s /\
    get_member m (totals s) =
    u64 (collected (ledger_of threads m (intf_id - 1) evs) - cleaned (ledger_of threads m (intf_id - 1) evs)).
Proof.
  intros Hi. destruct (run_agrees per_time threads m (intf_id - 1) evs) as (_ & _ & Ht); [unfold on_port; lia|].
  unfold get_interface_stat_ptr. rewrite decide_False by lia. eexists. split; [done|exact Ht].
Qed.

(** Two threads count, one collection fails, the totals are cleaned in between. *)
Definition sample_events : list event :=
  [Count 0 3 In_packets 5; Collect 2 (Some zero_port); Count 1 3 In_packets 7; Clean 3; Count 0 3 Out_packets 1;
   Collect 2 None; Count 0 3 In_packets 2; Collect 2 (Some zero_port); Count 1 3 In_packets 100].

Lemma totals_follow_ledger_witness :
  exists s, get_interface_stat_ptr 3 (run_events (fun z => z) 2 sample_events) = Some s /\ get_member In_packets (totals s) = 9.
Proof. exact (totals_follow_ledger (fun z => z) 2 In_packets 3 sample_events ltac:(split; discriminate)). Defined.
