(* ===== verification/HugePkt.v ===== *)
(** * Packets of several buffers

    Models [src/sf_main/nodes/transport/sf_huge_pkt_intput.c], which copies a packet
    that arrived in several buffers into one of 16 KB, and
    [sf_huge_pkt_output.c], which splits it again, with [sf_huge_pkt_tools.h], the
    list of buffers in front of the packet's data ([pkt_wdata.h]) and
    [sf_vlib_alloc_no_fail] of [sf_lib/sf_tools/sf_pkt_tools.h].  The 16 KB buffers
    come from a packet-object pool.  Where VPP keeps the data of a buffer and how
    it fills its list of free buffers are parameters. *)
From S2P Require Import Prelude FrameLoop Wdata IntfStat SfPool.

Implicit Types (w : sf_wdata_t) (mem : gmap Z Z).

(** ** Data *)

Record sf_hugepkt_sub_t := mk_sub { sub_index : Z; sub_data : Z; sub_length : Z }.
#[export] Instance zeroed_sub : Zeroed sf_hugepkt_sub_t := mk_sub 0 0 0.
Record sf_hugepkt_helper_t := mk_helper {
  sub_total_len_no_first : Z;
  sub_buffer_cnt : Z;
  sub_buffer : gmap Z sf_hugepkt_sub_t
}.
#[export] Instance zeroed_helper : Zeroed sf_hugepkt_helper_t := mk_helper 0 0 ∅.
Implicit Types (h : sf_hugepkt_helper_t).

Definition SF_HUFEPKT_MAX_SUB_BUFFER_CNT : Z := 10.
Definition VLIB_BUFFER_DATA_SIZE : Z := 2048.
Definition SF_VLIB_BUFFER_DATA_SIZE_SHIT : Z := 11.
Definition SF_VLIB_BUFFER_DATA_SIZE_MASK : Z := 2 ^ 11 - 1.
Definition OUTPUT_TAG_PRE_SIZE : Z := 8.

Class VlibBuffers := {
  buffer_data : Z -> Z;
  vlib_buffer_fill_free_list : list Z -> Z -> list Z
}.

(** What a worker sees of the pool: the [next] words, the head, its own cache. *)
Record pool_view := mk_pv { pv_heap : gmap Z Z; pv_head : sf_pool_head_t; pv_local : sf_pool_per_thread_t }.

(** The packets' bytes, records and lists of buffers, the pool, VPP's free buffers
    and the counters of the thread. *)
Record pkt_state := mk_ps {
  ps_mem : gmap Z Z;
  ps_wdata : gmap Z sf_wdata_t;
  ps_helper : gmap Z sf_hugepkt_helper_t;
  ps_pool : pool_view;
  ps_free : list Z;
  ps_stat : sf_intf_stat_pre_thread_t
}.
Implicit Types (st : pkt_state).

Definition upd_mem mem st := mk_ps mem (ps_wdata st) (ps_helper st) (ps_pool st) (ps_free st) (ps_stat st).
Definition upd_w (b : Z) w st := mk_ps (ps_mem st) (ps_wdata st).[b <- w] (ps_helper st) (ps_pool st) (ps_free st) (ps_stat st).
Definition upd_helper (b : Z) h st := mk_ps (ps_mem st) (ps_wdata st) (ps_helper st).[b <- h] (ps_pool st) (ps_free st) (ps_stat st).
Definition upd_pool (v : pool_view) st := mk_ps (ps_mem st) (ps_wdata st) (ps_helper st) v (ps_free st) (ps_stat st).
Definition upd_free (fl : list Z) st := mk_ps (ps_mem st) (ps_wdata st) (ps_helper st) (ps_pool st) fl (ps_stat st).
Definition upd_stat (f : sf_intf_stat_pre_thread_t -> sf_intf_stat_pre_thread_t) st :=
  mk_ps (ps_mem st) (ps_wdata st) (ps_helper st) (ps_pool st) (ps_free st) (f (ps_stat st)).

Definition is_huge w : bool := negb (Z.land (unused8 w) UNUSED8_FLAG_HUGE_PKT =? 0).
Definition set_flag (f : Z) w : sf_wdata_t := with_buffer (Z.lor (unused8 w) f) (data_ptr w) w.
Definition unset_huge w : sf_wdata_t := with_buffer (Z.land (unused8 w) (255 - UNUSED8_FLAG_HUGE_PKT)) (data_ptr w) w.

Section huge.
Context {VL : Vlib} {VB : VlibBuffers}.

(** [new_mem] is the memory allocator's answer should the pool have to grow. *)
Definition alloc_huge_pkt_16k (new_mem : Z) (v : pool_view) : pool_view * Z :=
  let '(hd, l, data_ptr) := alloc_node_from_pool (pv_heap v) (pv_head v) (pv_local v) new_mem in
  (mk_pv (pv_heap v) hd l, data_ptr + SF_HUGE_PKT_PRE_DATA_SIZE).

Definition free_huge_pkt_16k (data_ptr : Z) (v : pool_view) : pool_view :=
  let '(hp, hd, l) := free_node_to_pool (pv_heap v) (pv_head v) (pv_local v) (data_ptr - SF_HUGE_PKT_PRE_DATA_SIZE) in
  mk_pv hp hd l.
Definition free_pkt (b : Z) st : pkt_state := upd_pool (free_huge_pkt_16k (data_ptr (ps_wdata st).[b]) (ps_pool st)) st.

(** ** Into one buffer *)

Definition copy_sub (s : sf_hugepkt_sub_t) (data_ptr : Z) mem : gmap Z Z :=
  memcpy mem data_ptr (buffer_data (sub_index s) + sub_data s) (Z.to_nat (sub_length s)).

(** The [for] loop from index [i]; [base] is where this packet's part of the drop
    array starts. *)
Fixpoint contents_loop (n : nat) (i : Z) h (data_ptr copyed_bytes base : Z) (drop_buffer_index : gmap Z Z) mem :
    gmap Z Z * gmap Z Z * Z :=
  match n with
  | O => (mem, drop_buffer_index, copyed_bytes)
  | S n =>
      let s := (sub_buffer h).[i] in
      let drop_buffer_index := drop_buffer_index.[base + (i - 1) <- sub_index s] in
      let mem := copy_sub s data_ptr mem in
      contents_loop n (i + 1) h (data_ptr + sub_length s) (u32 (copyed_bytes + sub_length s)) base drop_buffer_index mem
  end.

Definition sf_vlib_buffer_contents h (data_ptr base : Z) (drop_buffer_index : gmap Z Z) mem : gmap Z Z * gmap Z Z * Z :=
  let s := (sub_buffer h).[0] in
  let mem := copy_sub s data_ptr mem in
  contents_loop (Z.to_nat (sub_buffer_cnt h - 1)) 1 h (data_ptr + sub_length s) (u32 (0 + sub_length s)) base drop_buffer_index mem.

Definition HUGEPKT_REASS_FAIL_TOO_LONG : Z := -1.
Definition HUGEPKT_REASS_FAIL_NO_MEMORY : Z := -2.

Fixpoint drop_all (n : nat) (i : Z) h (base : Z) (drop_buffer_index : gmap Z Z) : gmap Z Z :=
  match n with
  | O => drop_buffer_index
  | S n => drop_all n (i + 1) h base drop_buffer_index.[base + i <- sub_index (sub_buffer h).[i]]
  end.

(** The state, the drop array with its count, and the result. *)
Definition handle_huge_packet (b new_mem : Z) st (drop_buffer_index : gmap Z Z) (drop_buffer_cnt : Z) :
    pkt_state * gmap Z Z * Z * Z :=
  let w := (ps_wdata st).[b] in
  let h := (ps_helper st).[b] in
  let total_len := u32 (sub_total_len_no_first h + current_length w) in
  if decide (total_len >= SF_HUGE_PKT_MAX_DATA_SIZE)
  then (st, drop_buffer_index, drop_buffer_cnt, HUGEPKT_REASS_FAIL_TOO_LONG)
  else
    let '(v, dptr) := alloc_huge_pkt_16k new_mem (ps_pool st) in
    let st := upd_pool v st in
    if decide (dptr <> 0) then
      let '(mem, drop_buffer_index, total_len) := sf_vlib_buffer_contents h dptr drop_buffer_cnt drop_buffer_index (ps_mem st) in
      let drop_buffer_cnt := u32 (drop_buffer_cnt + (sub_buffer_cnt h - 1)) in
      let w := with_current 0 (u16 total_len) w in
      let w := mk_wdata (current_data w) (current_length w) (interface_id w) (interface_out w) 0 (unused8 w) dptr
                 (packet_type w) (outer_vlan_id w) (outer_ether_type w) (ip_wdata_cnt w) (l4_wdata_cnt w)
                 (vlan_wdata_cnt w) (vlan_wdatas w) (arg_to_next w) (ip_wdata w) (l4_wdata w) in
      (upd_w b w (upd_mem mem st), drop_buffer_index, drop_buffer_cnt, 0)
    else
      let drop_buffer_index := drop_all (Z.to_nat (sub_buffer_cnt h)) 0 h drop_buffer_cnt drop_buffer_index in
      (st, drop_buffer_index, u32 (drop_buffer_cnt + sub_buffer_cnt h), HUGEPKT_REASS_FAIL_NO_MEMORY).

(** The arrays of the node: the packets that go on, the buffers to give back with
    their count, the packets dropped per interface, and what was given back. *)
Record input_state := mk_in {
  in_pkts : pkt_state;
  buffer_index : list Z;
  drop_buffer_index : gmap Z Z;
  drop_buffer_cnt : Z;
  drop_pkt_cnt_per_intf : gmap Z Z;
  need_update_drop_flag : bool;
  freed : list Z
}.
Implicit Types (s : input_state).

Definition drop_list s : list Z := (fun i => (drop_buffer_index s).[i]) <$> seqZ 0 (drop_buffer_cnt s).

(** [sf_vlib_buffer_free_no_next] when [n] more buffers might not fit. *)
Definition make_room (n : Z) s : input_state :=
  if decide (u32 (drop_buffer_cnt s + n) > VLIB_FRAME_SIZE)
  then mk_in (in_pkts s) (buffer_index s) (drop_buffer_index s) 0 (drop_pkt_cnt_per_intf s) (need_update_drop_flag s)
         (freed s ++ drop_list s)
  else s.

Definition handle_one (b new_mem : Z) s : input_state * Z :=
  let '(st, d, n, ret) := handle_huge_packet b new_mem (in_pkts s) (drop_buffer_index s) (drop_buffer_cnt s) in
  (mk_in st (buffer_index s) d n (drop_pkt_cnt_per_intf s) (need_update_drop_flag s) (freed s), ret).

Definition go_on (bs : list Z) s : input_state :=
  mk_in (in_pkts s) (buffer_index s ++ bs) (drop_buffer_index s) (drop_buffer_cnt s) (drop_pkt_cnt_per_intf s)
    (need_update_drop_flag s) (freed s).
Definition count_drop (b : Z) s : input_state :=
  let i := interface_id (ps_wdata (in_pkts s)).[b] - 1 in
  let c := drop_pkt_cnt_per_intf s in
  mk_in (in_pkts s) (buffer_index s) (drop_buffer_index s) (drop_buffer_cnt s) c.[i <- u16 (c.[i] + 1)] true (freed s).
Definition settle (b ret : Z) s : input_state := if decide (ret = 0) then go_on [b] s else count_drop b s.

Definition sub_cnt_of (b : Z) s : Z := sub_buffer_cnt (ps_helper (in_pkts s)).[b].

Section input.
(** The allocator's answer for the packet of a buffer. *)
Context (mems : Z -> Z).

Definition input_two s (b0 b1 : Z) : input_state :=
  let s := make_room (sub_cnt_of b0 s + sub_cnt_of b1 s) s in
  let '(s, ret0) := handle_one b0 (mems b0) s in
  let '(s, ret1) := handle_one b1 (mems b1) s in
  if decide (ret0 = 0 /\ ret1 = 0) then go_on [b0; b1] s
  else settle b1 ret1 (settle b0 ret0 s).
Definition input_one s (b : Z) : input_state :=
  let s := make_room (sub_cnt_of b s) s in
  let '(s, ret) := handle_one b (mems b) s in
  settle b ret s.

(** Two packets at a time while four are left, then one at a time. *)
Definition gather_loop : input_state -> list Z -> input_state := pair_loop input_one input_two.

Fixpoint add_drops (n : nat) (i : Z) (cnt : gmap Z Z) (t : sf_intf_stat_pre_thread_t) : sf_intf_stat_pre_thread_t :=
  match n with
  | O => t
  | S n => add_drops n (i + 1) cnt
             (if decide (cnt.[i] <> 0) then update_interface_stat_multi (i + 1) Drop_packets cnt.[i] t else t)
  end.

(** The state, the packets sent on to [sf_eth_input] and the buffers given back. *)
Definition sf_hugepkt_input_node (drop0 : gmap Z Z) st (from : list Z) : pkt_state * list Z * list Z :=
  let s := gather_loop (mk_in st [] drop0 0 ∅ false []) from in
  let freed := if decide (drop_buffer_cnt s > 0) then freed s ++ drop_list s else freed s in
  let st := if need_update_drop_flag s
            then upd_stat (add_drops (Z.to_nat MAX_INTERFACE_CNT) 0 (drop_pkt_cnt_per_intf s)) (in_pkts s) else in_pkts s in
  (st, buffer_index s, freed).
End input.

(** ** Into several buffers *)

Definition sf_vlib_alloc_no_fail (fl : list Z) (n_buffers : Z) : list Z * list Z * Z :=
  let fl := if decide (Z.of_nat (length fl) < n_buffers) then vlib_buffer_fill_free_list fl n_buffers else fl in
  let len := Z.of_nat (length fl) in
  if decide (len < n_buffers) then (fl, [], 0)
  else (take (Z.to_nat (len - n_buffers)) fl, drop (Z.to_nat (len - n_buffers)) fl, n_buffers).

(** The [for] loop over the buffers just taken. *)
Fixpoint split_bufs (bufs : list Z) (slot src_data_ptr total_len copyed_len : Z) h mem : sf_hugepkt_helper_t * gmap Z Z * Z :=
  match bufs with
  | [] => (h, mem, copyed_len)
  | b :: bufs =>
      let n := u16 (Z.min total_len VLIB_BUFFER_DATA_SIZE) in
      let h := mk_helper (sub_total_len_no_first h) (sub_buffer_cnt h) (sub_buffer h).[slot <- mk_sub b 0 n] in
      let mem := memcpy mem (buffer_data b) src_data_ptr (Z.to_nat n) in
      split_bufs bufs (slot + 1) (src_data_ptr + n) (u32 (total_len - n)) (u32 (copyed_len + n)) h mem
  end.

Definition split_count (total_len : Z) : Z :=
  u32 (Z.shiftr (u32 (total_len + OUTPUT_TAG_PRE_SIZE)) SF_VLIB_BUFFER_DATA_SIZE_SHIT +
       (if decide (Z.land (u32 (total_len + OUTPUT_TAG_PRE_SIZE)) SF_VLIB_BUFFER_DATA_SIZE_MASK <> 0) then 1 else 0)).

(** The state and the number of bytes copied, 0 on failure. *)
Definition sf_vlib_buffer_split (b : Z) st : pkt_state * Z :=
  let w := (ps_wdata st).[b] in
  let total_len := current_length w in
  let src_data_ptr := sf_wqe_get_current w in
  let cnt := split_count total_len in
  let h := mk_helper (sub_total_len_no_first (ps_helper st).[b]) cnt (sub_buffer (ps_helper st).[b]) in
  let st := upd_helper b h st in
  if decide (cnt > SF_HUFEPKT_MAX_SUB_BUFFER_CNT) then (st, 0)
  else
    let left := u32 (cnt - 1) in
    let '(st, bufs, ok) :=
      if decide (left > 0) then
        let '(fl, bufs, n) := sf_vlib_alloc_no_fail (ps_free st) left in
        let st := upd_free fl st in
        if decide (n = 0) then (st, [], false) else (upd_w b (set_flag UNUSED8_FLAG_HUGE_PKT w) st, bufs, true)
      else (st, [], true) in
    if (ok : bool) then
      let w := (ps_wdata st).[b] in
      let st := upd_w b (with_current OUTPUT_TAG_PRE_SIZE (current_length w) w) st in
      let n := u16 (Z.min total_len (VLIB_BUFFER_DATA_SIZE - OUTPUT_TAG_PRE_SIZE)) in
      let h := mk_helper (sub_total_len_no_first h) (sub_buffer_cnt h) (sub_buffer h).[0 <- mk_sub b OUTPUT_TAG_PRE_SIZE n] in
      let mem := memcpy (ps_mem st) (buffer_data b + OUTPUT_TAG_PRE_SIZE) src_data_ptr (Z.to_nat n) in
      let '(h, mem, copyed_len) := split_bufs bufs 1 (src_data_ptr + n) (u32 (total_len - n)) (u32 (0 + n)) h mem in
      (upd_mem mem (upd_helper b h st), copyed_len)
    else (st, 0).

Definition HO_NEXT_DROP : Z := 0.

Section output.
Context (hugepkt_output_next_index : gmap Z Z).

Definition output_next (b : Z) st : Z := hugepkt_output_next_index.[interface_out (ps_wdata st).[b]].

(** A packet that could not be split: the drop node must not see it as huge, and
    the counters of the output node are taken back. *)
Definition split_failed (b : Z) st : pkt_state :=
  let w := (ps_wdata st).[b] in
  upd_stat (fun t => update_interface_stat_multi (interface_out w) Out_octets (- current_length w)
                       (decrease_interface_stat (interface_out w) Out_packets t))
    (upd_w b (unset_huge w) st).
Definition finish_output (b ret next : Z) st : pkt_state * Z :=
  if decide (ret = 0) then (split_failed b st, HO_NEXT_DROP) else (st, next).

Definition huge_output_one st (b : Z) : option (pkt_state * Z) :=
  let st := upd_w b (unset_huge (ps_wdata st).[b]) st in
  let '(st, ret) := sf_vlib_buffer_split b st in
  let next := output_next b st in
  let st := free_pkt b st in
  Some (finish_output b ret next st).

(** Here the flag is not cleared first. *)
Definition huge_output_two st (b0 b1 : Z) : option (pkt_state * Z * Z) :=
  let '(st, ret0) := sf_vlib_buffer_split b0 st in
  let '(st, ret1) := sf_vlib_buffer_split b1 st in
  let st := free_pkt b0 st in
  let st := free_pkt b1 st in
  let next0 := output_next b0 st in
  let next1 := output_next b1 st in
  let '(st, next0) := finish_output b0 ret0 next0 st in
  let '(st, next1) := finish_output b1 ret1 next1 st in
  Some (st, next0, next1).

Definition sf_huge_pkt_output_node : pkt_state -> list Z -> pkt_state -> list (Z * Z) -> Prop :=
  frame_run huge_output_one huge_output_two.
End output.
End huge.
