(* ===== verification/HugePktSpec.v ===== *)
(** * Packets of several buffers: the bytes are those of the packet

    A list of buffers stands for the bytes of its parts, one after the other.
    Gathering copies them into the 16 KB buffer and puts every further buffer on
    the list to give back; splitting lays a packet out over buffers that stand for
    its bytes, at most [VLIB_BUFFER_DATA_SIZE] in each. *)
From S2P Require Import Prelude FrameLoop Wdata IntfStat SfPool HugePkt.

Implicit Types (w : sf_wdata_t) (mem : gmap Z Z) (h : sf_hugepkt_helper_t) (s : sf_hugepkt_sub_t) (st : pkt_state).

(** ** The flag of a packet of several buffers *)

Lemma is_huge_bit w : is_huge w = Z.testbit (unused8 w) 2.
Proof.
  unfold is_huge, UNUSED8_FLAG_HUGE_PKT. change 4 with (Z.shiftl 1 2). rewrite land_one_bit by lia. by destruct (Z.testbit _ 2).
Qed.

Lemma unset_huge_clear w : is_huge (unset_huge w) = false.
Proof. rewrite is_huge_bit. unfold unset_huge. cbn [unused8 with_buffer]. rewrite Z.land_spec. apply andb_false_r. Qed.

Lemma lor_huge f : Z.testbit (Z.lor f UNUSED8_FLAG_HUGE_PKT) 2 = true.
Proof. rewrite Z.lor_spec. apply orb_true_r. Qed.

(** ** Bytes of a region *)

Definition region mem (p n : Z) : list Z := bytes_at mem p (Z.to_nat n).
Definition apart (p n q k : Z) : Prop := p + n <= q \/ q + k <= p.

Lemma region_app mem p n k : 0 <= n -> 0 <= k -> region mem p (n + k) = region mem p n ++ region mem (p + n) k.
Proof. intros Hn Hk. unfold region. by rewrite Z2Nat.inj_add, bytes_at_app, Z2Nat.id. Qed.

Lemma region_memcpy mem dst src n : apart dst n src n -> region (memcpy mem dst src (Z.to_nat n)) dst n = region mem src n.
Proof. intros Ha. apply bytes_at_ext. intros i Hi. apply memcpy_copy; unfold apart in Ha; lia. Qed.

Lemma region_frame mem mem' p n : (forall a, p <= a < p + n -> mem'.[a] = mem.[a]) -> region mem' p n = region mem p n.
Proof. intros E. apply bytes_at_ext. intros i Hi. apply E. lia. Qed.

Section spec.
Context {VL : Vlib} {VB : VlibBuffers}.

(** ** What a list of buffers stands for *)

Definition sub_at s : Z := buffer_data (sub_index s) + sub_data s.
Definition sub_bytes mem s : list Z := region mem (sub_at s) (sub_length s).
Definition subs_from h (i n : Z) : list sf_hugepkt_sub_t := (fun k => (sub_buffer h).[k]) <$> seqZ i n.
Definition chain h : list sf_hugepkt_sub_t := subs_from h 0 (sub_buffer_cnt h).
Definition lens (l : list sf_hugepkt_sub_t) : Z := foldr Z.add 0 (map sub_length l).
Definition chain_bytes mem h : list Z := concat (sub_bytes mem <$> chain h).

Lemma subs_from_cons h i n : 0 < n -> subs_from h i n = (sub_buffer h).[i] :: subs_from h (i + 1) (n - 1).
Proof. intros Hn. unfold subs_from. rewrite seqZ_cons by done. cbn [fmap list_fmap]. do 3 f_equal; lia. Qed.

Lemma lens_nonneg l : Forall (fun s => 0 <= sub_length s) l -> 0 <= lens l.
Proof. induction 1 as [|s l Hs _ IH]; [done|]. unfold lens in *. cbn [map foldr]. lia. Qed.

Lemma lens_cons s l : lens (s :: l) = sub_length s + lens l.
Proof. done. Qed.

(** A part does not overlap the region. *)
Definition clear_of (p n : Z) s : Prop := 0 <= sub_length s /\ apart p n (sub_at s) (sub_length s).

Lemma clear_of_len p n l : Forall (clear_of p n) l -> 0 <= lens l.
Proof. intros Hl. apply lens_nonneg. eapply Forall_impl; [exact Hl|]. by intros s []. Qed.

Lemma sub_bytes_frame mem mem' p n s : clear_of p n s ->
  (forall a, a < p \/ p + n <= a -> mem'.[a] = mem.[a]) -> sub_bytes mem' s = sub_bytes mem s.
Proof. intros [_ Ha] E. apply region_frame. intros a Hin. apply E. unfold apart in Ha. lia. Qed.

(** One part copied, then the others. *)
Lemma copy_step s l dptr mem mem' :
  Forall (clear_of dptr (lens (s :: l))) (s :: l) ->
  region mem' (dptr + sub_length s) (lens l) = concat (sub_bytes (copy_sub s dptr mem) <$> l) ->
  (forall a, a < dptr + sub_length s \/ dptr + sub_length s + lens l <= a -> mem'.[a] = (copy_sub s dptr mem).[a]) ->
  region mem' dptr (lens (s :: l)) = concat (sub_bytes mem <$> (s :: l)) /\
  (forall a, a < dptr \/ dptr + lens (s :: l) <= a -> mem'.[a] = mem.[a]).
Proof.
  intros Hcl E Hf'. apply Forall_cons in Hcl as [[Hs0 Hsa] Hl].
  assert (Hln : 0 <= lens l) by (eapply clear_of_len; exact Hl). rewrite lens_cons in *.
  assert (Hf : forall a, a < dptr \/ dptr + sub_length s <= a -> (copy_sub s dptr mem).[a] = mem.[a]).
  { intros a Ha. apply memcpy_frame. lia. }
  split.
  - rewrite region_app by done. cbn [fmap list_fmap concat]. f_equal.
    + rewrite (region_frame (copy_sub s dptr mem)) by (intros a Ha; apply Hf'; lia).
      apply region_memcpy. unfold sub_at, apart in *. lia.
    + rewrite E. f_equal. apply list_fmap_ext. intros k s' Hk. rewrite Forall_lookup in Hl.
      destruct (Hl k s' Hk) as [Hp Hap]. apply (sub_bytes_frame mem _ dptr (sub_length s)); [|exact Hf].
      split; [done|]. unfold apart in *. lia.
  - intros a Ha. rewrite Hf' by lia. apply Hf. lia.
Qed.

Lemma clear_of_shrink p n k l : 0 <= k -> Forall (clear_of p (k + n)) l -> Forall (clear_of (p + k) n) l.
Proof. intros Hk Hl. eapply Forall_impl; [exact Hl|]. intros s [? Ha]. split; [done|]. unfold apart in *. lia. Qed.

Lemma contents_loop_spec h base n : forall i dptr copyed drop mem,
  let l := subs_from h i (Z.of_nat n) in
  Forall (clear_of dptr (lens l)) l -> 0 <= copyed -> copyed + lens l < 2 ^ 32 ->
  let '(mem', _, copyed') := contents_loop n i h dptr copyed base drop mem in
  (region mem' dptr (lens l) = concat (sub_bytes mem <$> l) /\
   (forall a, a < dptr \/ dptr + lens l <= a -> mem'.[a] = mem.[a])) /\
  copyed' = copyed + lens l.
Proof.
  induction n as [|n IH]; intros i dptr copyed drop mem l Hcl H0 Hmax; cbn [contents_loop].
  - change l with (@nil sf_hugepkt_sub_t) in *. unfold lens. cbn [map foldr]. split_and!; [done|done|lia].
  - subst l. rewrite subs_from_cons in * by lia. replace (Z.of_nat (S n) - 1) with (Z.of_nat n) in * by lia.
    set (s := (sub_buffer h).[i]) in *. specialize (IH (i + 1) (dptr + sub_length s) (u32 (copyed + sub_length s))
      drop.[base + (i - 1) <- sub_index s] (copy_sub s dptr mem)). cbv zeta in IH.
    set (l := subs_from h (i + 1) (Z.of_nat n)) in *. pose proof Hcl as Hcl0. rewrite lens_cons in Hcl0, Hmax.
    apply Forall_cons in Hcl0 as [[Hs0 _] Hl]. assert (Hln : 0 <= lens l) by (eapply clear_of_len; exact Hl).
    rewrite wrap_small in * by lia.
    destruct (contents_loop n (i + 1) h _ _ _ _ _) as [[mem' drop'] copyed'].
    destruct IH as ((I1 & I2) & I3); [by apply clear_of_shrink|lia..|].
    split; [by apply copy_step|]. rewrite lens_cons; lia.
Qed.

(** The part of the drop array written for a list of buffers. *)
Definition dropped_at (base n : Z) (d : Z -> Z) (drop drop' : gmap Z Z) : Prop :=
  forall x, drop'.[x] = if decide (base <= x < base + n) then d (x - base) else drop.[x].

Lemma contents_loop_drop h base n : forall i dptr copyed drop mem,
  let '(_, drop', _) := contents_loop n i h dptr copyed base drop mem in
  dropped_at (base + i - 1) (Z.of_nat n) (fun k => sub_index (sub_buffer h).[i + k]) drop drop'.
Proof.
  induction n as [|n IH]; intros i dptr copyed drop mem; cbn [contents_loop].
  - intros x. by rewrite decide_False by lia.
  - set (s := (sub_buffer h).[i]). specialize (IH (i + 1) (dptr + sub_length s) (u32 (copyed + sub_length s))
      drop.[base + (i - 1) <- sub_index s] (copy_sub s dptr mem)).
    destruct (contents_loop n (i + 1) h _ _ _ _ _) as [[mem' drop'] copyed']. intros x. rewrite IH, aget_aset.
    destruct (decide (base + (i - 1) = x)) as [<-|Hx].
    + rewrite decide_False, decide_True by lia. unfold s. do 2 f_equal. lia.
    + destruct (decide (base + (i + 1) - 1 <= x < base + (i + 1) - 1 + Z.of_nat n)).
      * rewrite decide_True by lia. do 2 f_equal. lia.
      * by rewrite decide_False by lia.
Qed.

(** ** Gathering *)

(** The list of buffers of a received packet. *)
Definition chain_ok h (w : sf_wdata_t) : Prop :=
  1 <= sub_buffer_cnt h /\ sub_total_len_no_first h + current_length w = lens (chain h) /\
  lens (chain h) < SF_HUGE_PKT_MAX_DATA_SIZE.

Lemma contents_spec h dptr base drop mem :
  1 <= sub_buffer_cnt h -> Forall (clear_of dptr (lens (chain h))) (chain h) -> lens (chain h) < 2 ^ 32 ->
  let '(mem', _, copyed) := sf_vlib_buffer_contents h dptr base drop mem in
  (region mem' dptr (lens (chain h)) = chain_bytes mem h /\
   (forall a, a < dptr \/ dptr + lens (chain h) <= a -> mem'.[a] = mem.[a])) /\
  copyed = lens (chain h).
Proof.
  intros Hc Hcl Hmax. unfold sf_vlib_buffer_contents, chain_bytes, chain in *. rewrite subs_from_cons in * by lia.
  set (s := (sub_buffer h).[0]) in *. change (0 + 1) with 1 in *.
  pose proof (contents_loop_spec h base (Z.to_nat (sub_buffer_cnt h - 1)) 1 (dptr + sub_length s) (u32 (0 + sub_length s)) drop
    (copy_sub s dptr mem)) as IH. cbv zeta in IH. rewrite Z2Nat.id in IH by lia.
  set (l := subs_from h 1 (sub_buffer_cnt h - 1)) in *. pose proof Hcl as Hcl0. rewrite lens_cons in Hcl0, Hmax.
  apply Forall_cons in Hcl0 as [[Hs0 _] Hl]. assert (Hln : 0 <= lens l) by (eapply clear_of_len; exact Hl).
  rewrite (wrap_small 32) in * by lia.
  destruct (contents_loop _ _ _ _ _ _ _ _) as [[mem' drop'] copyed']. destruct IH as ((I1 & I2) & I3);
    [by apply clear_of_shrink|lia..|].
  split; [by apply copy_step|]. rewrite lens_cons; lia.
Qed.

Lemma contents_drop h dptr base drop mem : 1 <= sub_buffer_cnt h ->
  let '(_, drop', _) := sf_vlib_buffer_contents h dptr base drop mem in
  dropped_at base (sub_buffer_cnt h - 1) (fun k => sub_index (sub_buffer h).[k + 1]) drop drop'.
Proof.
  intros Hc. unfold sf_vlib_buffer_contents.
  pose proof (contents_loop_drop h base (Z.to_nat (sub_buffer_cnt h - 1)) 1 (dptr + sub_length (sub_buffer h).[0])
    (u32 (0 + sub_length (sub_buffer h).[0])) drop (copy_sub (sub_buffer h).[0] dptr mem)) as HD.
  destruct (contents_loop _ _ _ _ _ _ _ _) as [[mem' drop'] copyed']. rewrite Z2Nat.id in HD by lia.
  intros x. rewrite HD. replace (base + 1 - 1) with base by lia. by rewrite (Z.add_comm 1).
Qed.

(** What a packet that has been gathered looks like; [dptr] is the buffer taken
    from the pool. *)
Record gathered (b dptr : Z) st st' : Prop := {
  ga_bytes : region (ps_mem st') (sf_wqe_get_current (ps_wdata st').[b]) (current_length (ps_wdata st').[b]) =
             chain_bytes (ps_mem st) (ps_helper st).[b];
  ga_length : current_length (ps_wdata st').[b] = lens (chain (ps_helper st).[b]);
  ga_place : data_ptr (ps_wdata st').[b] = dptr /\ current_data (ps_wdata st').[b] = 0 /\ l2_hdr_offset (ps_wdata st').[b] = 0;
  ga_flags : unused8 (ps_wdata st').[b] = unused8 (ps_wdata st).[b] /\ interface_id (ps_wdata st').[b] = interface_id (ps_wdata st).[b];
  ga_mem : forall a, a < dptr \/ dptr + lens (chain (ps_helper st).[b]) <= a -> (ps_mem st').[a] = (ps_mem st).[a];
  ga_others : (forall b', b' <> b -> (ps_wdata st').[b'] = (ps_wdata st).[b']) /\ ps_helper st' = ps_helper st /\
              ps_free st' = ps_free st /\ ps_stat st' = ps_stat st
}.

Lemma handle_gathers b new_mem st drop cnt :
  let h := (ps_helper st).[b] in
  let dptr := snd (alloc_huge_pkt_16k new_mem (ps_pool st)) in
  chain_ok h (ps_wdata st).[b] -> 0 <= VLIB_BUFFER_PRE_DATA_SIZE -> dptr <> 0 -> Forall (clear_of dptr (lens (chain h))) (chain h) ->
  0 <= cnt -> cnt + sub_buffer_cnt h < 2 ^ 32 ->
  exists st' drop', handle_huge_packet b new_mem st drop cnt = (st', drop', cnt + (sub_buffer_cnt h - 1), 0) /\
    gathered b dptr st st' /\ dropped_at cnt (sub_buffer_cnt h - 1) (fun k => sub_index (sub_buffer h).[k + 1]) drop drop' /\
    ps_pool st' = fst (alloc_huge_pkt_16k new_mem (ps_pool st)).
Proof.
  intros h dptr (Hc & Ht & Hm) Hpre Hd Hcl Hcnt Hbig. pose proof (clear_of_len _ _ _ Hcl) as Hl0.
  assert (Hl : lens (chain h) < 2 ^ 14) by (unfold SF_HUGE_PKT_MAX_DATA_SIZE, SF_HUGE_PKT_PRE_DATA_SIZE, SF_HUGE_PKT_16KB_MAX_SIZE in Hm; lia).
  unfold handle_huge_packet. fold h. rewrite Ht, (wrap_small 32), decide_False by lia.
  destruct (alloc_huge_pkt_16k new_mem (ps_pool st)) as [v p] eqn:Ea. cbn [snd fst] in *. subst dptr.
  rewrite decide_True by done. cbn [ps_mem upd_pool].
  pose proof (contents_spec h p cnt drop (ps_mem st) Hc Hcl ltac:(lia)) as Hs.
  pose proof (contents_drop h p cnt drop (ps_mem st) Hc) as Hdr.
  destruct (sf_vlib_buffer_contents h p cnt drop (ps_mem st)) as [[mem' drop'] copyed].
  destruct Hs as ((S1 & S2) & ->). eexists _, drop'. rewrite (wrap_small 32) by lia. split; [reflexivity|].
  split_and!; [|exact Hdr|done].
  split; cbn [ps_mem ps_wdata upd_mem upd_w upd_pool ps_helper ps_free ps_stat]; fold h; rewrite ?aget_aset_eq;
    unfold sf_wqe_get_current; cbn; rewrite ?(wrap_small 16) by lia; rewrite ?Z.add_0_r; try done.
  split_and!; [|done..]. intros b' Hb. by rewrite aget_aset_ne.
Qed.

(** ** Splitting *)

Class VlibBuffersLaws := buffers_apart b b' : b <> b' -> apart (buffer_data b) VLIB_BUFFER_DATA_SIZE (buffer_data b') VLIB_BUFFER_DATA_SIZE.
Context {VBL : VlibBuffersLaws}.

Definition data_area (b a : Z) : Prop := buffer_data b <= a < buffer_data b + VLIB_BUFFER_DATA_SIZE.
Definition fits_buffer s : Prop := 0 <= sub_data s /\ 0 <= sub_length s /\ sub_data s + sub_length s <= VLIB_BUFFER_DATA_SIZE.

Lemma fits_clear s b p n : fits_buffer s -> sub_index s <> b -> buffer_data b <= p -> p + n <= buffer_data b + VLIB_BUFFER_DATA_SIZE ->
  clear_of p n s.
Proof.
  intros (H1 & H2 & H3) Hb Hp Hn. split; [done|]. pose proof (buffers_apart _ _ Hb) as Ha. unfold apart, sub_at in *. lia.
Qed.

Lemma split_bufs_spec bufs : forall slot src total copyed h mem,
  NoDup bufs -> 0 <= total <= VLIB_BUFFER_DATA_SIZE * Z.of_nat (length bufs) -> total < 2 ^ 16 ->
  Forall (fun b => apart src total (buffer_data b) VLIB_BUFFER_DATA_SIZE) bufs -> 0 <= copyed -> copyed + total < 2 ^ 32 ->
  let '(h', mem', copyed') := split_bufs bufs slot src total copyed h mem in
  let l := subs_from h' slot (Z.of_nat (length bufs)) in
  map sub_index l = bufs /\ Forall fits_buffer l /\ Forall (fun s => sub_data s = 0) l /\ lens l = total /\
  concat (sub_bytes mem' <$> l) = region mem src total /\
  (forall i, i < slot -> (sub_buffer h').[i] = (sub_buffer h).[i]) /\
  sub_total_len_no_first h' = sub_total_len_no_first h /\ sub_buffer_cnt h' = sub_buffer_cnt h /\
  (forall a, Forall (fun b => ~ data_area b a) bufs -> mem'.[a] = mem.[a]) /\ copyed' = copyed + total.
Proof.
  induction bufs as [|b bufs IH]; intros slot src total copyed h mem Hnd Htot H16 Hsrc H0 Hbig; cbn [split_bufs length].
  - assert (total = 0) as -> by (cbn [length] in Htot; lia). change (subs_from h slot (Z.of_nat 0)) with (@nil sf_hugepkt_sub_t).
    split_and!; try done. lia.
  - apply NoDup_cons in Hnd as [Hnb Hnd]. apply Forall_cons in Hsrc as [Hs Hsrc]. unfold VLIB_BUFFER_DATA_SIZE in Htot, Hs.
    cbn [length] in Htot. set (n := u16 (Z.min total VLIB_BUFFER_DATA_SIZE)).
    assert (En : n = Z.min total 2048) by (unfold n, VLIB_BUFFER_DATA_SIZE; rewrite wrap_small; lia).
    set (h1 := mk_helper _ _ _). set (mem1 := memcpy _ _ _ _).
    rewrite !(wrap_small 32) by lia.
    specialize (IH (slot + 1) (src + n) (total - n) (copyed + n) h1 mem1 Hnd ltac:(unfold VLIB_BUFFER_DATA_SIZE; lia) ltac:(lia)).
    destruct (split_bufs bufs (slot + 1) _ _ _ h1 mem1) as [[h' mem'] copyed'].
    destruct IH as (I1 & I2 & I3 & I4 & I5 & I6 & I7 & I8 & I9 & I10).
    { eapply Forall_impl; [exact Hsrc|]. intros b' Hb'. unfold apart in *. lia. }
    { lia. } { lia. }
    rewrite subs_from_cons by lia. replace (Z.of_nat (S (length bufs)) - 1) with (Z.of_nat (length bufs)) by lia.
    set (l := subs_from h' (slot + 1) (Z.of_nat (length bufs))) in *.
    assert (Eslot : (sub_buffer h').[slot] = mk_sub b 0 n) by (rewrite I6 by lia; unfold h1; cbn; apply aget_aset_eq).
    rewrite Eslot. assert (Hfit : fits_buffer (mk_sub b 0 n)) by (unfold fits_buffer, VLIB_BUFFER_DATA_SIZE; cbn; lia).
    assert (Hframe : forall a, ~ data_area b a -> mem1.[a] = mem.[a]).
    { intros a Ha. apply memcpy_frame. unfold data_area, VLIB_BUFFER_DATA_SIZE in Ha. lia. }
    split_and!.
    + cbn [map sub_index]. by rewrite I1.
    + by apply Forall_cons.
    + by apply Forall_cons.
    + rewrite lens_cons, I4. cbn [sub_length]. lia.
    + cbn [fmap list_fmap concat]. replace (region mem src total) with (region mem src (n + (total - n))) by (f_equal; lia).
      rewrite region_app by lia. f_equal.
      * unfold sub_bytes, sub_at. cbn [sub_index sub_data sub_length]. rewrite Z.add_0_r.
        rewrite (region_frame mem1).
        -- apply region_memcpy. unfold apart in *. lia.
        -- intros a Ha. apply I9, Forall_forall. intros b' Hb' Hin. assert (Hne : b <> b') by (by intros ->).
           pose proof (buffers_apart b b' Hne) as Hap. unfold apart, data_area, VLIB_BUFFER_DATA_SIZE in *. lia.
      * fold (fmap (sub_bytes mem') l). change (list_fmap _ _ (sub_bytes mem') l) with (sub_bytes mem' <$> l). rewrite I5.
        apply region_frame. intros a Ha. apply Hframe. unfold data_area, apart, VLIB_BUFFER_DATA_SIZE in *. lia.
    + intros i Hi. rewrite I6 by lia. unfold h1. cbn. apply aget_aset_ne. lia.
    + by rewrite I7.
    + by rewrite I8.
    + intros a Ha. apply Forall_cons in Ha as [Ha Ha']. rewrite I9 by done. by apply Hframe.
    + lia.
Qed.

Lemma split_count_spec len : 0 <= len < 2 ^ 16 -> split_count len = (len + OUTPUT_TAG_PRE_SIZE + 2047) / 2048.
Proof.
  intros Hl. unfold split_count, OUTPUT_TAG_PRE_SIZE, SF_VLIB_BUFFER_DATA_SIZE_SHIT, SF_VLIB_BUFFER_DATA_SIZE_MASK.
  rewrite (wrap_small 32 (len + 8)), wrap_land, Z.shiftr_div_pow2 by lia. unfold wrap. change (2 ^ 11) with 2048.
  pose proof (Z.div_mod (len + 8) 2048). pose proof (Z.mod_pos_bound (len + 8) 2048).
  pose proof (Z.div_mod (len + 8 + 2047) 2048). pose proof (Z.mod_pos_bound (len + 8 + 2047) 2048).
  case_decide; rewrite Z.mod_small; nia.
Qed.

Lemma alloc_spec fl n fl' bufs m : 0 <= n -> sf_vlib_alloc_no_fail fl n = (fl', bufs, m) ->
  (m = 0 /\ bufs = []) \/ (m = n /\ Z.of_nat (length bufs) = n).
Proof.
  intros Hn. unfold sf_vlib_alloc_no_fail. cbv zeta.
  generalize (if decide (Z.of_nat (length fl) < n) then vlib_buffer_fill_free_list fl n else fl). intros fl0.
  case_decide; intros [= <- <- <-]; [by left|right]. split; [done|]. rewrite length_drop. lia.
Qed.

(** The buffers a packet of [len] bytes needs besides its own, and what is left of
    the free list. *)
Definition buffers_taken (len : Z) (fl : list Z) : list Z * list Z :=
  if decide (1 < split_count len) then let '(fl, bufs, _) := sf_vlib_alloc_no_fail fl (split_count len - 1) in (fl, bufs) else (fl, []).

(** A packet that has been split over [b] and [bufs]. *)
Record split_over (b : Z) (bufs : list Z) st st' : Prop := {
  sp_index : map sub_index (chain (ps_helper st').[b]) = b :: bufs;
  sp_fits : Forall fits_buffer (chain (ps_helper st').[b]);
  sp_bytes : chain_bytes (ps_mem st') (ps_helper st').[b] =
             region (ps_mem st) (sf_wqe_get_current (ps_wdata st).[b]) (current_length (ps_wdata st).[b]);
  sp_lens : lens (chain (ps_helper st').[b]) = current_length (ps_wdata st).[b];
  sp_count : sub_buffer_cnt (ps_helper st').[b] = Z.of_nat (length (b :: bufs));
  sp_first : sub_data (sub_buffer (ps_helper st').[b]).[0] = OUTPUT_TAG_PRE_SIZE;
  sp_current : current_data (ps_wdata st').[b] = OUTPUT_TAG_PRE_SIZE /\
               current_length (ps_wdata st').[b] = current_length (ps_wdata st).[b];
  sp_flag : unused8 (ps_wdata st').[b] =
            if bufs is [] then unused8 (ps_wdata st).[b] else Z.lor (unused8 (ps_wdata st).[b]) UNUSED8_FLAG_HUGE_PKT;
  sp_keeps : data_ptr (ps_wdata st').[b] = data_ptr (ps_wdata st).[b] /\
             interface_out (ps_wdata st').[b] = interface_out (ps_wdata st).[b];
  sp_mem : forall a, Forall (fun b => ~ data_area b a) (b :: bufs) -> (ps_mem st').[a] = (ps_mem st).[a];
  sp_others : (forall b', b' <> b -> (ps_wdata st').[b'] = (ps_wdata st).[b'] /\ (ps_helper st').[b'] = (ps_helper st).[b']) /\
              ps_pool st' = ps_pool st /\ ps_stat st' = ps_stat st
}.

Lemma split_pieces b bufs src len mem h0 :
  let n := u16 (Z.min len (VLIB_BUFFER_DATA_SIZE - OUTPUT_TAG_PRE_SIZE)) in
  0 <= len < 2 ^ 16 -> len + OUTPUT_TAG_PRE_SIZE <= VLIB_BUFFER_DATA_SIZE * Z.of_nat (length (b :: bufs)) ->
  sub_buffer_cnt h0 = Z.of_nat (length (b :: bufs)) ->
  NoDup (b :: bufs) -> Forall (fun b => apart src len (buffer_data b) VLIB_BUFFER_DATA_SIZE) (b :: bufs) ->
  let '(h', mem', copyed) := split_bufs bufs 1 (src + n) (u32 (len - n)) (u32 (0 + n))
    (mk_helper (sub_total_len_no_first h0) (sub_buffer_cnt h0) (sub_buffer h0).[0 <- mk_sub b OUTPUT_TAG_PRE_SIZE n])
    (memcpy mem (buffer_data b + OUTPUT_TAG_PRE_SIZE) src (Z.to_nat n)) in
  map sub_index (chain h') = b :: bufs /\ Forall fits_buffer (chain h') /\ chain_bytes mem' h' = region mem src len /\
  lens (chain h') = len /\ sub_buffer_cnt h' = Z.of_nat (length (b :: bufs)) /\
  (sub_buffer h').[0] = mk_sub b OUTPUT_TAG_PRE_SIZE n /\
  (forall a, Forall (fun b => ~ data_area b a) (b :: bufs) -> mem'.[a] = mem.[a]) /\ copyed = len.
Proof.
  intros n Hlen Hroom Hcnt Hnd Hsrc. unfold OUTPUT_TAG_PRE_SIZE, VLIB_BUFFER_DATA_SIZE in *.
  assert (En : n = Z.min len 2040) by (unfold n; rewrite wrap_small; lia). cbn [length] in Hroom, Hcnt.
  apply NoDup_cons in Hnd as [Hnb Hnd]. apply Forall_cons in Hsrc as [Hs Hsrc]. rewrite !(wrap_small 32) by lia.
  set (h1 := mk_helper _ _ _). set (mem1 := memcpy _ _ _ _).
  pose proof (split_bufs_spec bufs 1 (src + n) (len - n) (0 + n) h1 mem1 Hnd ltac:(unfold VLIB_BUFFER_DATA_SIZE; lia) ltac:(lia)) as HS.
  destruct (split_bufs bufs 1 _ _ _ h1 mem1) as [[h' mem'] copyed].
  destruct HS as (I1 & I2 & I3 & I4 & I5 & I6 & I7 & I8 & I9 & I10).
  { eapply Forall_impl; [exact Hsrc|]. intros b' Hb'. unfold apart, VLIB_BUFFER_DATA_SIZE in *. lia. }
  { lia. } { lia. }
  assert (Ecnt : sub_buffer_cnt h' = Z.of_nat (S (length bufs))) by (rewrite I8; exact Hcnt).
  assert (E0 : (sub_buffer h').[0] = mk_sub b 8 n) by (rewrite I6 by lia; unfold h1; cbn; apply aget_aset_eq).
  assert (Ec : chain h' = mk_sub b 8 n :: subs_from h' 1 (Z.of_nat (length bufs))).
  { unfold chain. rewrite Ecnt, subs_from_cons, E0 by lia. do 2 f_equal. lia. }
  set (l := subs_from h' 1 (Z.of_nat (length bufs))) in *.
  assert (Hframe : forall a, ~ data_area b a -> mem1.[a] = mem.[a]).
  { intros a Ha. apply memcpy_frame. unfold data_area, VLIB_BUFFER_DATA_SIZE in Ha. lia. }
  rewrite Ec. split_and!.
  - cbn [map sub_index]. by rewrite I1.
  - apply Forall_cons; split; [|done]. unfold fits_buffer, VLIB_BUFFER_DATA_SIZE. cbn. lia.
  - unfold chain_bytes. rewrite Ec. cbn [fmap list_fmap concat].
    replace (region mem src len) with (region mem src (n + (len - n))) by (f_equal; lia).
    rewrite region_app by lia. f_equal.
    + unfold sub_bytes, sub_at. cbn [sub_index sub_data sub_length]. rewrite (region_frame mem1).
      * apply region_memcpy. unfold apart in *. lia.
      * intros a Ha. apply I9, Forall_forall. intros b' Hb' Hin. assert (Hne : b <> b') by (by intros ->).
        pose proof (buffers_apart b b' Hne) as Hap. unfold apart, data_area, VLIB_BUFFER_DATA_SIZE in *. lia.
    + change (list_fmap _ _ (sub_bytes mem') l) with (sub_bytes mem' <$> l). rewrite I5.
      apply region_frame. intros a Ha. apply Hframe. unfold data_area, apart, VLIB_BUFFER_DATA_SIZE in *. lia.
  - rewrite lens_cons, I4. cbn [sub_length]. lia.
  - exact Ecnt.
  - exact E0.
  - intros a Ha. apply Forall_cons in Ha as [Ha Ha']. rewrite I9 by done. by apply Hframe.
  - lia.
Qed.

Lemma split_splits b st :
  let len := current_length (ps_wdata st).[b] in
  let bufs := snd (buffers_taken len (ps_free st)) in
  0 <= len -> len + OUTPUT_TAG_PRE_SIZE <= VLIB_BUFFER_DATA_SIZE * SF_HUFEPKT_MAX_SUB_BUFFER_CNT ->
  Z.of_nat (length bufs) = split_count len - 1 -> NoDup (b :: bufs) ->
  Forall (fun b' => apart (sf_wqe_get_current (ps_wdata st).[b]) len (buffer_data b') VLIB_BUFFER_DATA_SIZE) (b :: bufs) ->
  exists st', sf_vlib_buffer_split b st = (st', len) /\ split_over b bufs st st' /\
    ps_free st' = fst (buffers_taken len (ps_free st)).
Proof.
  intros len bufs H0 Hmax Hb Hnd Hsrc. unfold OUTPUT_TAG_PRE_SIZE, VLIB_BUFFER_DATA_SIZE, SF_HUFEPKT_MAX_SUB_BUFFER_CNT in Hmax.
  assert (Hcs : split_count len = (len + 8 + 2047) / 2048) by (apply split_count_spec; lia).
  pose proof (Z.div_mod (len + 8 + 2047) 2048) as Hdm. pose proof (Z.mod_pos_bound (len + 8 + 2047) 2048) as Hmb.
  unfold sf_vlib_buffer_split. fold len. rewrite decide_False by (unfold SF_HUFEPKT_MAX_SUB_BUFFER_CNT; nia).
  rewrite (wrap_small 32 (split_count len - 1)) by nia.
  set (h0 := mk_helper _ (split_count len) _).
  pose proof (split_pieces b bufs (sf_wqe_get_current (ps_wdata st).[b]) len (ps_mem st) h0 ltac:(lia)
    ltac:(unfold OUTPUT_TAG_PRE_SIZE, VLIB_BUFFER_DATA_SIZE; cbn [length]; nia)
    ltac:(unfold h0; cbn [sub_buffer_cnt length]; lia) Hnd Hsrc) as HP. cbv zeta in HP.
  unfold bufs, buffers_taken in *. destruct (decide (split_count len - 1 > 0)) as [Hp|Hp].
  - rewrite (decide_True (P := 1 < split_count len)) in * by lia. cbn [ps_free upd_helper].
    destruct (sf_vlib_alloc_no_fail (ps_free st) (split_count len - 1)) as [[fl bs] m] eqn:Ea. cbn [snd fst] in *.
    destruct (alloc_spec (ps_free st) (split_count len - 1) fl bs m ltac:(lia) Ea) as [[-> ->]|[-> _]]; [cbn [length] in Hb; lia|]. rewrite decide_False by lia.
    cbn [ps_mem upd_w upd_free upd_helper].
    destruct (split_bufs bs 1 _ _ _ _ _) as [[h' mem'] copyed]. destruct HP as (P1 & P2 & P3 & P4 & P5 & P6 & P7 & ->).
    eexists. split; [reflexivity|]. split; [|reflexivity].
    split; cbn [ps_wdata ps_helper ps_mem ps_pool ps_stat upd_w upd_helper upd_mem upd_free]; rewrite ?aget_aset_eq; try done.
    + by rewrite P6.
    + destruct bs; [cbn [length] in Hb; lia|done].
    + split_and!; [|done..]. intros b' Hne. rewrite !aget_aset_ne by done. done.
  - rewrite (decide_False (P := 1 < split_count len)) in * by lia. cbn [snd fst] in *.
    cbn [ps_mem upd_w upd_helper].
    destruct (split_bufs [] 1 _ _ _ _ _) as [[h' mem'] copyed]. destruct HP as (P1 & P2 & P3 & P4 & P5 & P6 & P7 & ->).
    eexists. split; [reflexivity|]. split; [|reflexivity].
    split; cbn [ps_wdata ps_helper ps_mem ps_pool ps_stat upd_w upd_helper upd_mem]; rewrite ?aget_aset_eq; try done.
    + by rewrite P6.
    + split_and!; [|done..]. intros b' Hne. rewrite !aget_aset_ne by done. done.
Qed.
End spec.
