(* ===== verification/HugeFrame.v ===== *)
(** * Packets of several buffers: a frame

    The input node sends on the packets that fit a 16 KB buffer and gives back
    their further buffers, never more at once than its array holds.  A packet that
    does not fit is neither sent on nor given back. *)
From S2P Require Import Prelude FrameLoop Wdata IntfStat SfPool HugePkt HugePktSpec.

Implicit Types (h : sf_hugepkt_helper_t) (st : pkt_state) (s : input_state) (v : pool_view).

Section frame.
Context {VL : Vlib} {VB : VlibBuffers}.

(** ** Pointers from the pool are not null *)

Record positive v : Prop := {
  po_heap : forall a, 0 <= (pv_heap v).[a];
  po_list : 0 <= freelist (pv_head v);
  po_align : 0 <= data_align_len (pv_head v);
  po_stack : forall i, 0 <= (local_pool_stack (pv_local v)).[i]
}.

Lemma split_nodes_pos n : forall m align i t, 0 <= m -> 0 <= align -> 0 <= i -> (forall j, 0 <= t.[j]) ->
  forall j, 0 <= (split_nodes n m align i t).[j].
Proof.
  induction n as [|n IH]; intros m align i t Hm Ha Hi Ht j; cbn [split_nodes]; [done|].
  apply IH; try lia. intros k. rewrite aget_aset. case_decide; [nia|done].
Qed.

Lemma take_loop_pos n hp : (forall a, 0 <= hp.[a]) -> forall fl t i, 0 <= fl -> (forall j, 0 <= t.[j]) ->
  0 <= fst (fst (take_loop n hp fl t i)) /\ forall j, 0 <= (snd (fst (take_loop n hp fl t i))).[j].
Proof.
  intros Hp. induction n as [|n IH]; intros fl t i Hf Ht; cbn [take_loop]; [done|].
  destruct (decide (fl <> 0)); [|done]. apply IH; [done|]. intros j. rewrite aget_aset. by case_decide.
Qed.

Lemma fill_pos hp hd t new_mem : (forall a, 0 <= hp.[a]) -> 0 <= freelist hd -> 0 <= data_align_len hd ->
  (forall j, 0 <= t.[j]) -> 0 <= new_mem ->
  let '(hd', t', _) := sf_pool_fill_cache hp hd t true new_mem in
  0 <= freelist hd' /\ 0 <= data_align_len hd' /\ forall j, 0 <= t'.[j].
Proof.
  intros Hp Hf Ha Ht Hm. unfold sf_pool_fill_cache. destruct (decide (free_cnt hd = 0)).
  - unfold sf_pool_increase_nodes. repeat case_decide; cbn [freelist data_align_len set_counts]; split_and!; try done.
    by apply split_nodes_pos.
  - pose proof (take_loop_pos (Z.to_nat (fill_free_size hd)) hp Hp (freelist hd) t 0 Hf Ht) as [H1 H2].
    destruct (take_loop _ _ _ _ _) as [[fl t'] ret]. cbn in *. done.
Qed.

Lemma alloc_positive v new_mem : positive v -> 0 <= new_mem ->
  positive (fst (alloc_huge_pkt_16k new_mem v)) /\ SF_HUGE_PKT_PRE_DATA_SIZE <= snd (alloc_huge_pkt_16k new_mem v).
Proof.
  intros [Hp Hf Ha Hs] Hm. unfold alloc_huge_pkt_16k, alloc_node_from_pool.
  pose proof (fill_pos (pv_heap v) (pv_head v) (local_pool_stack (pv_local v)) new_mem Hp Hf Ha Hs Hm) as HF.
  destruct (decide (current_stack_len (pv_local v) = 0)).
  - destruct (sf_pool_fill_cache _ _ _ _ _) as [[hd t] ret]. destruct HF as (F1 & F2 & F3).
    destruct (decide (ret = 0)); cbn [local_pool_stack current_stack_len].
    + cbn [fst snd]. split; [split; done|lia].
    + destruct (if decide (_ > _) then _ else _) as [[fl last] n']. cbn [fst snd]. split; [split; done|]. specialize (F3 (ret - 1)). lia.
  - destruct (if decide (_ > _) then _ else _) as [[fl last] n']. cbn [fst snd]. split; [split; done|].
    specialize (Hs (current_stack_len (pv_local v) - 1)). lia.
Qed.

(** ** One packet *)

Definition total_of st (b : Z) : Z := u32 (sub_total_len_no_first (ps_helper st).[b] + current_length (ps_wdata st).[b]).
Definition fits st (b : Z) : Prop := total_of st b < SF_HUGE_PKT_MAX_DATA_SIZE.
#[export] Instance fits_dec st b : Decision (fits st b).
Proof. unfold fits. apply _. Defined.

(** The buffers of a packet after the first. *)
Definition further st (b : Z) : list Z := tail (map sub_index (chain (ps_helper st).[b])).

Definition count_small st (b : Z) : Prop := 1 <= sub_buffer_cnt (ps_helper st).[b] <= SF_HUFEPKT_MAX_SUB_BUFFER_CNT.

Lemma further_length st b : count_small st b -> Z.of_nat (length (further st b)) = sub_buffer_cnt (ps_helper st).[b] - 1.
Proof.
  intros [Hc _]. unfold further, chain. rewrite subs_from_cons by lia. cbn [map tail].
  rewrite length_map. unfold subs_from. rewrite length_fmap, length_seqZ. lia.
Qed.

(** What handling a packet may change: its own record, and nothing a later packet needs. *)
Definition others_kept (b : Z) st st' : Prop :=
  ps_helper st' = ps_helper st /\ forall b', b' <> b -> (ps_wdata st').[b'] = (ps_wdata st).[b'].

Lemma handle_kept b m st d n : others_kept b st (fst (fst (fst (handle_huge_packet b m st d n)))).
Proof.
  unfold handle_huge_packet, others_kept. case_decide; [done|]. destruct (alloc_huge_pkt_16k _ _) as [v p].
  destruct (decide (p <> 0)); [|done]. destruct (sf_vlib_buffer_contents _ _ _ _ _) as [[mem d'] t]. cbn.
  split; [done|]. intros b' Hb. by rewrite aget_aset_ne.
Qed.

Lemma drop_list_append (d d' : gmap Z Z) n k f : 0 <= n -> 0 <= k -> dropped_at n k f d d' ->
  (fun i => d'.[i]) <$> seqZ 0 (n + k) = ((fun i => d.[i]) <$> seqZ 0 n) ++ (f <$> seqZ 0 k).
Proof.
  intros Hn Hk Hd. rewrite seqZ_app, fmap_app by done. f_equal.
  - apply list_fmap_ext. intros _ i Hi%list_elem_of_lookup_2. apply elem_of_seqZ in Hi. by rewrite Hd, decide_False by lia.
  - rewrite Z.add_0_l. replace (seqZ n k) with (Z.add n <$> seqZ 0 k) by (by rewrite fmap_add_seqZ, Z.add_0_r).
    rewrite <- list_fmap_compose. apply list_fmap_ext.
    intros _ i Hi%list_elem_of_lookup_2. apply elem_of_seqZ in Hi. cbn. rewrite Hd, decide_True by lia. f_equal. lia.
Qed.

Lemma further_alt st b : 1 <= sub_buffer_cnt (ps_helper st).[b] ->
  (fun k => sub_index (sub_buffer (ps_helper st).[b]).[k + 1]) <$> seqZ 0 (sub_buffer_cnt (ps_helper st).[b] - 1) = further st b.
Proof.
  intros Hc. unfold further, chain. rewrite subs_from_cons by lia. cbn [map tail]. unfold subs_from.
  change (map sub_index ?x) with (sub_index <$> x). rewrite <- (fmap_add_seqZ 1 0), <- !list_fmap_compose.
  apply list_fmap_ext. intros _ k _. cbn. by rewrite Z.add_comm.
Qed.

Hypothesis pre_pos : 0 < VLIB_BUFFER_PRE_DATA_SIZE.

Lemma handle_one_spec b m s : positive (ps_pool (in_pkts s)) -> 0 <= m -> count_small (in_pkts s) b ->
  0 <= drop_buffer_cnt s -> drop_buffer_cnt s + sub_buffer_cnt (ps_helper (in_pkts s)).[b] < 2 ^ 32 ->
  let '(s', ret) := handle_one b m s in
  others_kept b (in_pkts s) (in_pkts s') /\ positive (ps_pool (in_pkts s')) /\ freed s' = freed s /\ buffer_index s' = buffer_index s /\
  if decide (fits (in_pkts s) b)
  then ret = 0 /\ drop_list s' = drop_list s ++ further (in_pkts s) b /\
       drop_buffer_cnt s' = drop_buffer_cnt s + (sub_buffer_cnt (ps_helper (in_pkts s)).[b] - 1)
  else ret <> 0 /\ drop_list s' = drop_list s /\ drop_buffer_cnt s' = drop_buffer_cnt s.
Proof.
  intros Hpos Hm [Hc Hc'] Hn Hbig. unfold handle_one.
  pose proof (handle_kept b m (in_pkts s) (drop_buffer_index s) (drop_buffer_cnt s)) as Hk.
  unfold handle_huge_packet in *. fold (total_of (in_pkts s) b) in *.
  destruct (decide (total_of (in_pkts s) b >= SF_HUGE_PKT_MAX_DATA_SIZE)) as [Hbg|Hok].
  { rewrite decide_False by (unfold fits; lia). done. }
  assert (Hfit : fits (in_pkts s) b) by (unfold fits; lia).
  destruct (alloc_positive (ps_pool (in_pkts s)) m Hpos Hm) as [Hp Hd].
  destruct (alloc_huge_pkt_16k m (ps_pool (in_pkts s))) as [v p]. cbn [fst snd] in Hp, Hd.
  unfold SF_HUGE_PKT_PRE_DATA_SIZE in Hd. destruct (decide (p <> 0)) as [_|Hz]; [|lia].
  pose proof (contents_drop (ps_helper (in_pkts s)).[b] p (drop_buffer_cnt s) (drop_buffer_index s)
    (ps_mem (upd_pool v (in_pkts s))) Hc) as HD.
  destruct (sf_vlib_buffer_contents _ _ _ _ _) as [[mem d'] t]. cbn [fst] in Hk. rewrite decide_True by done.
  rewrite (wrap_small 32 (drop_buffer_cnt s + _)) by lia. split_and!; try done. unfold drop_list. cbn [drop_buffer_index drop_buffer_cnt].
  assert (Hn1 : 0 <= sub_buffer_cnt (ps_helper (in_pkts s)).[b] - 1) by lia.
  rewrite (drop_list_append _ _ _ _ _ Hn Hn1 HD). by rewrite further_alt.
Qed.

(** ** The frame *)

Context (mems : Z -> Z).
Hypothesis mems_pos : forall b, 0 <= mems b.
Hypothesis frame_room : 2 * SF_HUFEPKT_MAX_SUB_BUFFER_CNT <= VLIB_FRAME_SIZE < 2 ^ 31.

Lemma two_fit st b : count_small st b -> 0 <= 2 * sub_buffer_cnt (ps_helper st).[b] <= VLIB_FRAME_SIZE.
Proof. unfold count_small, SF_HUFEPKT_MAX_SUB_BUFFER_CNT in *. lia. Qed.

(** [handled]: copied or refused; [settled]: also sent on or counted; [rest]: to
    come. *)
Record frame_inv (st0 : pkt_state) (handled settled rest : list Z) s : Prop := {
  fi_pool : positive (ps_pool (in_pkts s));
  fi_helper : ps_helper (in_pkts s) = ps_helper st0;
  fi_rest : Forall (fun b => (ps_wdata (in_pkts s)).[b] = (ps_wdata st0).[b]) rest;
  fi_taken : buffer_index s = filter (fits st0) settled;
  fi_freed : freed s ++ drop_list s = concat (further st0 <$> filter (fits st0) handled);
  fi_room : 0 <= drop_buffer_cnt s <= VLIB_FRAME_SIZE
}.

Lemma make_room_inv st0 hd sd rest s n : frame_inv st0 hd sd rest s -> 0 <= n <= VLIB_FRAME_SIZE ->
  frame_inv st0 hd sd rest (make_room n s) /\ drop_buffer_cnt (make_room n s) + n <= VLIB_FRAME_SIZE.
Proof.
  intros [F1 F2 F3 F4 F5 F6] Hn. unfold make_room. rewrite (wrap_small 32) by lia. case_decide; [|split; [done|lia]].
  split; [|cbn [drop_buffer_cnt]; lia]. split; cbn [in_pkts buffer_index freed drop_buffer_cnt]; try done; [|lia].
  unfold drop_list at 2. cbn. by rewrite app_nil_r.
Qed.

Lemma fits_same st st0 b : ps_helper st = ps_helper st0 -> (ps_wdata st).[b] = (ps_wdata st0).[b] -> fits st b <-> fits st0 b.
Proof. intros E1 E2. unfold fits, total_of. by rewrite E1, E2. Qed.

Lemma handle_inv st0 hd sd b rest s : frame_inv st0 hd sd (b :: rest) s -> b ∉ rest -> count_small st0 b ->
  drop_buffer_cnt s + sub_buffer_cnt (ps_helper st0).[b] <= VLIB_FRAME_SIZE ->
  let '(s', ret) := handle_one b (mems b) s in
  frame_inv st0 (hd ++ [b]) sd rest s' /\ (ret = 0 <-> fits st0 b) /\
  drop_buffer_cnt s' <= drop_buffer_cnt s + sub_buffer_cnt (ps_helper st0).[b].
Proof.
  intros [F1 F2 F3 F4 F5 F6] Hb Hc Hroom. apply Forall_cons in F3 as [Fb F3].
  assert (Hc' : count_small (in_pkts s) b) by (unfold count_small; by rewrite F2).
  pose proof (handle_one_spec b (mems b) s F1 (mems_pos b) Hc' ltac:(lia) ltac:(rewrite F2; lia)) as HS.
  destruct (handle_one b (mems b) s) as [s' ret]. destruct HS as ([K1 K2] & P & E1 & E2 & HS).
  pose proof (fits_same (in_pkts s) st0 b F2 Fb) as Hf. unfold further in HS. rewrite F2 in HS. destruct Hc as [Hc _].
  assert (Hrest : Forall (fun b => (ps_wdata (in_pkts s')).[b] = (ps_wdata st0).[b]) rest).
  { apply Forall_forall. intros b' Hb'. rewrite K2 by (by intros ->). rewrite Forall_forall in F3. by apply F3. }
  destruct (decide (fits (in_pkts s) b)) as [Hfit|Hfit]; destruct HS as (-> & ED & EC) || destruct HS as (Hret & ED & EC).
  - split_and!; [|tauto|lia]. split; rewrite ?K1, ?E1, ?E2, ?ED, ?EC; try done; [|lia].
    rewrite app_assoc, F5, filter_app, filter_cons_True, filter_nil by tauto. rewrite fmap_app, concat_app. cbn [fmap list_fmap concat]. by rewrite app_nil_r.
  - split_and!; [|tauto|lia]. split; rewrite ?K1, ?E1, ?E2, ?ED, ?EC; try done.
    by rewrite F5, filter_app, filter_cons_False, filter_nil, app_nil_r by tauto.
Qed.

Lemma settle_inv st0 hd sd rest s b ret : frame_inv st0 hd sd rest s -> (ret = 0 <-> fits st0 b) ->
  frame_inv st0 hd (sd ++ [b]) rest (settle b ret s).
Proof.
  intros [F1 F2 F3 F4 F5 F6] Hr. unfold settle. case_decide; split; cbn [go_on count_drop in_pkts buffer_index drop_buffer_cnt]; try done;
    rewrite F4, filter_app.
  - rewrite filter_cons_True by tauto. done.
  - rewrite filter_cons_False by tauto. by rewrite filter_nil, app_nil_r.
Qed.

Lemma input_one_inv st0 l b rest s : frame_inv st0 l l (b :: rest) s -> b ∉ rest -> count_small st0 b ->
  frame_inv st0 (l ++ [b]) (l ++ [b]) rest (input_one mems s b).
Proof.
  intros Hi Hb Hc. unfold input_one, sub_cnt_of. rewrite (fi_helper _ _ _ _ _ Hi). pose proof (two_fit _ _ Hc).
  assert (Hsum : 0 <= sub_buffer_cnt (ps_helper st0).[b] <= VLIB_FRAME_SIZE) by lia.
  destruct (make_room_inv _ _ _ _ _ _ Hi Hsum) as [Hi' Hroom].
  pose proof (handle_inv _ _ _ _ _ _ Hi' Hb Hc Hroom) as HS. destruct (handle_one _ _ _) as [s' ret].
  destruct HS as (Hi2 & Hr & _). by apply settle_inv.
Qed.

(** Both packets sent on at once, or each by itself. *)
Lemma go_on_two b0 b1 s : go_on [b0; b1] s = go_on [b1] (go_on [b0] s).
Proof. unfold go_on. cbn. by rewrite <- app_assoc. Qed.

Lemma input_two_inv st0 l b0 b1 rest s : frame_inv st0 l l (b0 :: b1 :: rest) s -> NoDup (b0 :: b1 :: rest) ->
  count_small st0 b0 -> count_small st0 b1 -> frame_inv st0 ((l ++ [b0]) ++ [b1]) ((l ++ [b0]) ++ [b1]) rest (input_two mems s b0 b1).
Proof.
  intros Hi [Hn0 [Hn1 _]%NoDup_cons]%NoDup_cons Hc0 Hc1. unfold input_two, sub_cnt_of. rewrite (fi_helper _ _ _ _ _ Hi).
  pose proof (two_fit _ _ Hc0). pose proof (two_fit _ _ Hc1).
  assert (Hsum : 0 <= sub_buffer_cnt (ps_helper st0).[b0] + sub_buffer_cnt (ps_helper st0).[b1] <= VLIB_FRAME_SIZE) by lia.
  destruct (make_room_inv _ _ _ _ _ _ Hi Hsum) as [Hi' Hroom].
  pose proof (handle_inv _ _ _ _ _ _ Hi' Hn0 Hc0) as HS. destruct (handle_one b0 _ _) as [s1 ret0].
  destruct HS as (Hi1 & Hr0 & Hd0); [lia|]. pose proof (handle_inv _ _ _ _ _ _ Hi1 Hn1 Hc1) as HS.
  destruct (handle_one b1 _ _) as [s2 ret1]. destruct HS as (Hi2 & Hr1 & _); [lia|].
  assert (Hset : frame_inv st0 ((l ++ [b0]) ++ [b1]) ((l ++ [b0]) ++ [b1]) rest (settle b1 ret1 (settle b0 ret0 s2)))
    by (apply settle_inv; [by apply settle_inv|done]).
  destruct (decide (ret0 = 0 /\ ret1 = 0)) as [[-> ->]|]; [|done]. rewrite go_on_two. exact Hset.
Qed.

Lemma gather_loop_inv st0 from s : frame_inv st0 [] [] from s -> NoDup from -> Forall (count_small st0) from ->
  frame_inv st0 from from [] (gather_loop mems s from).
Proof.
  intros Hi Hnd Hc.
  pose proof (pair_loop_inv (input_one mems) (input_two mems)
    (fun hd rest s' => frame_inv st0 hd hd rest s' /\ NoDup rest /\ Forall (count_small st0) rest)) as HL.
  apply HL; [| |done]; clear HL Hi Hnd Hc s.
  - intros hd b rest s (Hi & Hnd & Hc). pose proof Hnd as [Hb Hnd']%NoDup_cons. pose proof Hc as [Hc0 Hc']%Forall_cons.
    split_and!; [by apply input_one_inv|done..].
  - intros hd b0 b1 rest s (Hi & Hnd & Hc). pose proof Hnd as [_ [_ Hnd']%NoDup_cons]%NoDup_cons.
    pose proof Hc as [Hc0 [Hc1 Hc']%Forall_cons]%Forall_cons. split_and!; [by apply input_two_inv|done..].
Qed.

(** C25: of a frame of packets in several buffers, those that fit a 16 KB buffer are
    sent on, in order, and exactly their further buffers are given back; the list
    of buffers to give back never outgrows its array.  A packet that does not fit
    is neither sent on nor given back. *)
Theorem hugepkt_input_conserves st drop0 from : positive (ps_pool st) -> NoDup from -> Forall (count_small st) from ->
  drop_buffer_cnt (gather_loop mems (mk_in st [] drop0 0 ∅ false []) from) <= VLIB_FRAME_SIZE /\
  exists st', sf_hugepkt_input_node mems drop0 st from =
    (st', filter (fits st) from, concat (further st <$> filter (fits st) from)).
Proof.
  intros Hp Hnd Hc. pose proof (gather_loop_inv st from (mk_in st [] drop0 0 ∅ false [])) as Hi.
  destruct Hi as [F1 F2 F3 F4 F5 F6]; [|done|done|].
  { split; cbn [in_pkts buffer_index freed drop_buffer_cnt]; [done|done|by apply Forall_forall|done|reflexivity|unfold SF_HUFEPKT_MAX_SUB_BUFFER_CNT in frame_room; lia]. }
  split; [lia|]. unfold sf_hugepkt_input_node. eexists. rewrite F4. f_equal. case_decide; [exact F5|].
  unfold drop_list in F5. replace (drop_buffer_cnt _) with 0 in F5 by lia. cbn in F5. by rewrite app_nil_r in F5.
Qed.
End frame.
