(* ===== verification/Transport.v ===== *)
(** * Sending and dropping packets

    Models [src/sf_main/nodes/transport/sf_pkt_output.c], which sends a packet to the
    node of its output interface, and [sf_pkt_drop.c], where packets end.  Both
    give back the 16 KB buffer of a packet that does not go on. *)
From S2P Require Import Prelude FrameLoop Wdata IntfStat SfPool HugePkt.

Implicit Types (w : sf_wdata_t) (st : pkt_state).

Section transport.
Context `{Vlib}.

(** ** The output node *)

Definition PO_NEXT_HUGE_PKT_OUTPUT : Z := 0.
Definition PO_NEXT_PKT_DROP : Z := 1.

Section output.
Context (admin_status intf_output_next_index : gmap Z Z).

Definition can_send (out : Z) : bool :=
  bool_decide (out <= MAX_INTERFACE_CNT) && bool_decide (out > 0) && negb (admin_status.[out - 1] =? 0).

(** A packet whose output interface was read as [out]. *)
Definition output_place st (b out : Z) : pkt_state * Z :=
  let w := (ps_wdata st).[b] in
  if can_send out then
    let next := intf_output_next_index.[out] in
    let next := if is_huge w then PO_NEXT_HUGE_PKT_OUTPUT else next in
    (upd_stat (fun t => update_interface_stat_multi out Out_octets (current_length w) (update_interface_stat out Out_packets t)) st,
     next)
  else (if is_huge w then free_pkt b st else st, PO_NEXT_PKT_DROP).

Definition output_one st (b : Z) : option (pkt_state * Z) :=
  let out := interface_out (ps_wdata st).[b] in
  Some (output_place st b out).
Definition output_two st (b0 b1 : Z) : option (pkt_state * Z * Z) :=
  let out0 := interface_out (ps_wdata st).[b0] in
  let out1 := interface_out (ps_wdata st).[b1] in
  let '(st, next0) := output_place st b0 out0 in
  let '(st, next1) := output_place st b1 out1 in
  Some (st, next0, next1).

Definition sf_pkt_output_node : pkt_state -> list Z -> pkt_state -> list (Z * Z) -> Prop := frame_run output_one output_two.
End output.

(** ** The drop node *)

Definition drop_free st (b : Z) : pkt_state := if is_huge (ps_wdata st).[b] then free_pkt b st else st.
Definition drop_count st (b : Z) : pkt_state :=
  let w := (ps_wdata st).[b] in
  if negb (Z.land (unused8 w) UNUSED8_FLAG_PKT_RECORD_DROP =? 0) && bool_decide (interface_id w > 0) &&
     bool_decide (interface_id w <= MAX_INTERFACE_CNT)
  then upd_stat (update_interface_stat (interface_id w) Drop_packets) st else st.

Definition drop_two st (b0 b1 : Z) : pkt_state :=
  let st := drop_free st b0 in
  let st := drop_free st b1 in
  let st := drop_count st b0 in
  drop_count st b1.
Definition drop_one st (b : Z) : pkt_state := drop_count (drop_free st b) b.

Definition drop_loop : pkt_state -> list Z -> pkt_state := pair_loop drop_one drop_two.

(** The state and the buffers given back to VPP. *)
Definition sf_pkt_drop_node st (from : list Z) : pkt_state * list Z := (drop_loop st from, from).
End transport.
