(* ===== verification/TransportSpec.v ===== *)
(** * Sending and dropping packets: every packet counted once

    The output node sends each packet where its output interface says and counts
    it and its bytes there once; the drop node counts each packet marked for it
    once.  Both loops do what one packet at a time would.  A packet of several
    buffers whose interface is down is given back by both, and two later packets
    share its buffer. *)
From S2P Require Import Prelude FrameLoop Wdata IntfStat IntfStatSpec SfPool HugePkt HugePktSpec Transport.

Implicit Types (w : sf_wdata_t) (st : pkt_state).

Section spec.
Context {VL : Vlib}.

Definition free_all st : pool_view -> list Z -> pool_view :=
  foldl (fun v b => free_huge_pkt_16k (data_ptr (ps_wdata st).[b]) v).

(** [c'] is [c] and [d] more, at 64 bits. *)
Definition counts_more (c d c' : Z) : Prop := c' = u64 (c + d).

Lemma counts_more_trans a d1 b d2 c : counts_more a d1 b -> counts_more b d2 c -> counts_more a (d1 + d2) c.
Proof. unfold counts_more. intros -> ->. rewrite wrap_add_l. f_equal. lia. Qed.

Definition counters_ok st : Prop := forall m i, 0 <= counter m i (ps_stat st) < 2 ^ 64.

Lemma counter_bump m i id d st : counters_ok st ->
  counts_more (counter m (i - 1) (ps_stat st)) (if decide (i = id) then d else 0)
    (counter m (i - 1) (update_interface_stat_multi id m d (ps_stat st))).
Proof.
  intros Hc. unfold counts_more. rewrite counter_update. destruct (decide (i = id)) as [->|Hi].
  - by rewrite decide_True.
  - rewrite decide_False by (intros [? _]; lia). by rewrite Z.add_0_r, wrap_small by apply Hc.
Qed.

(** ** The output node *)

Section output.
Context (admin_status intf_output_next_index : gmap Z Z).

Definition out_of st (b : Z) : Z := interface_out (ps_wdata st).[b].
Definition sent_on st (i b : Z) : Prop := out_of st b = i /\ can_send admin_status i = true.
#[export] Instance sent_on_dec st i b : Decision (sent_on st i b).
Proof. unfold sent_on. apply _. Defined.
Definition refused_huge st (b : Z) : Prop := can_send admin_status (out_of st b) = false /\ is_huge (ps_wdata st).[b] = true.
#[export] Instance refused_huge_dec st b : Decision (refused_huge st b).
Proof. unfold refused_huge. apply _. Defined.
Definition next_of st (b : Z) : Z :=
  if can_send admin_status (out_of st b) then
    if is_huge (ps_wdata st).[b] then PO_NEXT_HUGE_PKT_OUTPUT else intf_output_next_index.[out_of st b]
  else PO_NEXT_PKT_DROP.

Definition len_of st (b : Z) : Z := current_length (ps_wdata st).[b].

(** What the packets of a list add to the state. *)
Record output_effect st (from : list Z) st' : Prop := {
  oe_wdata : ps_wdata st' = ps_wdata st;
  oe_counters : counters_ok st';
  oe_packets : forall i, counts_more (counter Out_packets (i - 1) (ps_stat st)) (Z.of_nat (length (filter (sent_on st i) from)))
                           (counter Out_packets (i - 1) (ps_stat st'));
  oe_octets : forall i, counts_more (counter Out_octets (i - 1) (ps_stat st)) (zsum (len_of st) (filter (sent_on st i) from))
                          (counter Out_octets (i - 1) (ps_stat st'));
  oe_pool : ps_pool st' = free_all st (ps_pool st) (filter (refused_huge st) from)
}.

Lemma counters_update id m d st : counters_ok st -> counters_ok (upd_stat (update_interface_stat_multi id m d) st).
Proof. intros Hc m' i. cbn [upd_stat ps_stat]. rewrite counter_update. case_decide; [by apply wrap_range|apply Hc]. Qed.

Lemma sent_filter_cons st i b : (filter (sent_on st i) [b]) =
  if decide (i = out_of st b) then (if can_send admin_status i then [b] else []) else [].
Proof.
  destruct (decide (sent_on st i b)) as [Hs|Hs].
  - rewrite filter_cons_True, filter_nil by done. destruct Hs as [<- ->]. by rewrite decide_True.
  - rewrite filter_cons_False, filter_nil by done. case_decide; [|done]. destruct (can_send _ _) eqn:E; [|done].
    exfalso. by apply Hs; split.
Qed.

Lemma output_step st b : counters_ok st ->
  exists st', output_one admin_status intf_output_next_index st b = Some (st', next_of st b) /\ output_effect st [b] st'.
Proof.
  intros Hc. unfold output_one, output_place, next_of. fold (out_of st b).
  destruct (can_send admin_status (out_of st b)) eqn:E; (eexists; split; [reflexivity|]).
  - set (t1 := update_interface_stat (out_of st b) Out_packets (ps_stat st)). assert (Hc1 : counters_ok (upd_stat (fun _ => t1) st)) by (by apply counters_update).
    split; try done.
    + intros m i. exact (counters_update (out_of st b) Out_octets (len_of st b) _ Hc1 m i).
    + intros i. cbn [upd_stat ps_stat]. rewrite counter_update, decide_False by (by intros []).
      pose proof (counter_bump Out_packets i (out_of st b) 1 st Hc) as HB. rewrite sent_filter_cons.
      destruct (decide (i = out_of st b)) as [->|]; [rewrite E|]; exact HB.
    + intros i. pose proof (counter_bump Out_octets i (out_of st b) (len_of st b) _ Hc1) as HB.
      cbn [upd_stat ps_stat] in HB |- *. unfold t1 in HB at 1. unfold update_interface_stat in HB.
      rewrite counter_update, (decide_False (P := _ /\ Out_packets = Out_octets)) in HB by (by intros []).
      rewrite sent_filter_cons. destruct (decide (i = out_of st b)) as [->|]; [rewrite E; cbn [zsum]; rewrite Z.add_0_r|]; exact HB.
    + rewrite filter_cons_False, filter_nil; [done|]. intros [Hf _]. congruence.
  - assert (Hn : forall i, filter (sent_on st i) [b] = []).
    { intros i. rewrite sent_filter_cons. case_decide; [|done]. subst. by rewrite E. }
    destruct (is_huge (ps_wdata st).[b]) eqn:Eh; (split; [done|done|intros i; rewrite Hn..|]);
      try (unfold counts_more; cbn; rewrite Z.add_0_r, wrap_small by apply Hc; done).
    + rewrite filter_cons_True, filter_nil by done. done.
    + rewrite filter_cons_False, filter_nil; [done|]. intros [_ Hf]. congruence.
Qed.

Lemma effect_app st l1 st1 l2 st2 : output_effect st l1 st1 -> output_effect st1 l2 st2 -> output_effect st (l1 ++ l2) st2.
Proof.
  intros [W1 C1 P1 O1 F1] [W2 C2 P2 O2 F2].
  assert (Es : forall i, filter (sent_on st1 i) l2 = filter (sent_on st i) l2)
    by (intros i; apply filter_ext_in; intros b _; unfold sent_on, out_of; by rewrite W1).
  split.
  - congruence.
  - done.
  - intros i. rewrite filter_app, length_app, Nat2Z.inj_add. eapply counts_more_trans; [apply P1|]. rewrite <- Es. apply P2.
  - intros i. rewrite filter_app, zsum_app. eapply counts_more_trans; [apply O1|]. rewrite <- Es.
    rewrite (zsum_ext (len_of st) (len_of st1)); [apply O2|]. intros b _. unfold len_of. by rewrite W1.
  - rewrite filter_app. unfold free_all in *. rewrite foldl_app, <- F1, F2.
    rewrite (filter_ext_in (refused_huge st1) (refused_huge st)) by (intros b _; unfold refused_huge, out_of; by rewrite W1).
    by rewrite W1.
Qed.

Lemma output_all from : forall st, counters_ok st ->
  exists st', one_by_one (output_one admin_status intf_output_next_index) st from =
    Some (st', (fun b => (b, next_of st b)) <$> from) /\ output_effect st from st'.
Proof.
  induction from as [|b from IH]; intros st Hc; cbn [one_by_one].
  - exists st. split; [done|]. split; try done; intros i; unfold counts_more; cbn; by rewrite Z.add_0_r, wrap_small by apply Hc.
  - destruct (output_step st b Hc) as (st1 & E1 & H1). rewrite E1. cbn [obind].
    destruct (IH st1 (oe_counters _ _ _ H1)) as (st2 & E2 & H2). rewrite E2. cbn [obind]. exists st2.
    split; [|by apply (effect_app st [b] st1 from st2)]. f_equal. f_equal. cbn [fmap list_fmap]. f_equal.
    apply list_fmap_ext. intros _ b' _. unfold next_of, out_of. by rewrite (oe_wdata _ _ _ H1).
Qed.

(** A run of the output node always exists, and every run sends each packet of
    the frame to the node of its output interface (to the huge-packet node when it
    is in a 16 KB buffer, to the drop node when the interface cannot send), adds 1
    and the packet's length to that interface's counters once for each packet sent
    on it, and gives back the 16 KB buffer of each huge packet it refuses. *)
Theorem output_counts_sent st from : counters_ok st -> NoDup from ->
  exists st', output_effect st from st' /\
    forall st'' out, sf_pkt_output_node admin_status intf_output_next_index st from st'' out <->
      st'' = st' /\ out = (fun b => (b, next_of st b)) <$> from.
Proof.
  intros Hc Hnd. destruct (output_all from st Hc) as (st' & E & He). exists st'. split; [done|]. intros st'' out.
  unfold sf_pkt_output_node. rewrite (frame_run_iff _ _ (fun _ _ => True)).
  - rewrite E. split; [by intros [= <- <-]|by intros [-> ->]].
  - intros s b0 b1 _ _ _. unfold output_two, two_steps, output_one. cbn [obind].
    destruct (output_place _ _ s b0 _) as [s1 n0] eqn:E0. cbn [obind].
    assert (Ew : ps_wdata s1 = ps_wdata s).
    { unfold output_place in E0. destruct (can_send _ _), (is_huge _); by injection E0 as <- _. }
    rewrite Ew. by destruct (output_place _ _ s1 b1 _).
  - done.
  - done.
  - by apply Forall_forall.
Qed.
End output.

(** ** The drop node *)

Definition recorded st (i b : Z) : Prop :=
  Z.land (unused8 (ps_wdata st).[b]) UNUSED8_FLAG_PKT_RECORD_DROP <> 0 /\ interface_id (ps_wdata st).[b] = i /\ 0 < i <= MAX_INTERFACE_CNT.
#[export] Instance recorded_dec st i b : Decision (recorded st i b).
Proof. unfold recorded. apply _. Defined.
Definition huge st (b : Z) : Prop := is_huge (ps_wdata st).[b] = true.
#[export] Instance huge_dec st b : Decision (huge st b).
Proof. unfold huge. apply _. Defined.

Record drop_effect st (from : list Z) st' : Prop := {
  de_wdata : ps_wdata st' = ps_wdata st;
  de_counters : counters_ok st';
  de_packets : forall i, counts_more (counter Drop_packets (i - 1) (ps_stat st)) (Z.of_nat (length (filter (recorded st i) from)))
                           (counter Drop_packets (i - 1) (ps_stat st'));
  de_pool : ps_pool st' = free_all st (ps_pool st) (filter (huge st) from)
}.

Lemma drop_two_ones st b0 b1 : drop_two st b0 b1 = drop_one (drop_one st b0) b1.
Proof.
  unfold drop_two, drop_one. f_equal. unfold drop_free, drop_count.
  destruct (is_huge (ps_wdata st).[b0]) eqn:E0; cbn [free_pkt upd_pool ps_wdata];
    destruct (is_huge (ps_wdata st).[b1]) eqn:E1; cbn [free_pkt upd_pool ps_wdata];
    destruct (_ && _); cbn [free_pkt upd_pool upd_stat ps_wdata]; by rewrite E1.
Qed.

Lemma drop_step st b : counters_ok st -> drop_effect st [b] (drop_one st b).
Proof.
  intros Hc. unfold drop_one. set (st1 := drop_free st b).
  assert (Ew : ps_wdata st1 = ps_wdata st) by (unfold st1, drop_free; by destruct (is_huge _)).
  assert (Es : ps_stat st1 = ps_stat st) by (unfold st1, drop_free; by destruct (is_huge _)).
  assert (Ep : ps_pool st1 = free_all st (ps_pool st) (filter (huge st) [b])).
  { unfold st1, drop_free. destruct (is_huge (ps_wdata st).[b]) eqn:E.
    - by rewrite filter_cons_True, filter_nil.
    - rewrite filter_cons_False, filter_nil; [done|]. unfold huge. congruence. }
  unfold drop_count. rewrite Ew. destruct (_ && _) eqn:E.
  - apply andb_true_iff in E as [[E1 E2]%andb_true_iff E3]. apply negb_true_iff, Z.eqb_neq in E1.
    apply bool_decide_eq_true in E2, E3. split; cbn [upd_stat ps_wdata ps_pool ps_stat]; rewrite ?Es; try done.
    + intros m i. cbn [upd_stat ps_stat]. rewrite Es. unfold update_interface_stat.
      exact (counters_update (interface_id (ps_wdata st).[b]) Drop_packets 1 st Hc m i).
    + intros i. pose proof (counter_bump Drop_packets i (interface_id (ps_wdata st).[b]) 1 st Hc) as HB.
      destruct (decide (recorded st i b)) as [Hr|Hr].
      * rewrite filter_cons_True, filter_nil by done. destruct Hr as (_ & <- & _). by rewrite decide_True in HB.
      * rewrite filter_cons_False, filter_nil by done. rewrite decide_False in HB; [done|].
        intros ->. apply Hr. split; [done|]. lia.
  - split; rewrite ?Es; try done; [intros m i; rewrite Es; apply Hc|]. intros i. rewrite filter_cons_False, filter_nil.
    + unfold counts_more. cbn. by rewrite Z.add_0_r, wrap_small by apply Hc.
    + intros (R1 & R2 & R3). rewrite R2, !bool_decide_true in E by lia. apply Z.eqb_neq in R1. by rewrite R1 in E.
Qed.

Lemma drop_effect_app st l1 st1 l2 st2 : drop_effect st l1 st1 -> drop_effect st1 l2 st2 -> drop_effect st (l1 ++ l2) st2.
Proof.
  intros [W1 C1 P1 F1] [W2 C2 P2 F2]. split.
  - congruence.
  - done.
  - intros i. rewrite filter_app, length_app, Nat2Z.inj_add. eapply counts_more_trans; [apply P1|].
    rewrite <- (filter_ext_in (recorded st1 i) (recorded st i)) by (intros b _; unfold recorded; by rewrite W1). apply P2.
  - rewrite filter_app. unfold free_all in *. rewrite foldl_app, <- F1, F2.
    rewrite (filter_ext_in (huge st1) (huge st)) by (intros b _; unfold huge; by rewrite W1). by rewrite W1.
Qed.

(** The drop node gives back every buffer of the frame and the 16 KB buffer of
    every huge packet, once each, and adds to an interface's dropped packets the
    number of packets of the frame received on it that are marked to be counted. *)
Theorem drop_counts_recorded st from : counters_ok st ->
  let '(st', given_back) := sf_pkt_drop_node st from in drop_effect st from st' /\ given_back = from.
Proof.
  intros Hc. unfold sf_pkt_drop_node, drop_loop. split; [|done]. rewrite pair_loop_foldl by apply drop_two_ones.
  revert st Hc. induction from as [|b from IH]; intros st Hc; cbn [foldl].
  - split; try done. intros i. unfold counts_more. cbn. by rewrite Z.add_0_r, wrap_small by apply Hc.
  - pose proof (drop_step st b Hc) as H1. apply (drop_effect_app st [b] (drop_one st b)); [done|]. by apply IH, H1.
Qed.

(** ** An interface that is down *)

(** A cache with room keeps what it is given on top. *)
Lemma free_on_top v p : let l := pv_local v in
  0 <= current_stack_len l -> current_stack_len l + 1 <= stack_max_len l < 2 ^ 32 ->
  free_huge_pkt_16k p v = mk_pv (pv_heap v) (pv_head v)
    (mk_local (current_stack_len l + 1) (stack_max_len l) (free_list_len l) (free_list_max_len l)
       (local_pool_stack l).[current_stack_len l <- p - SF_HUGE_PKT_PRE_DATA_SIZE] (local_free_list l) (local_last_node l)).
Proof.
  intros l H0 H1. unfold free_huge_pkt_16k, free_node_to_pool. fold l. rewrite (wrap_small 32) by lia.
  by rewrite decide_False by lia.
Qed.

Lemma alloc_from_top new_mem v : let l := pv_local v in 0 < current_stack_len l <= stack_max_len l ->
  exists l', alloc_huge_pkt_16k new_mem v = (mk_pv (pv_heap v) (pv_head v) l',
      (local_pool_stack l).[current_stack_len l - 1] + SF_HUGE_PKT_PRE_DATA_SIZE) /\
    current_stack_len l' = current_stack_len l - 1 /\ local_pool_stack l' = local_pool_stack l /\ stack_max_len l' = stack_max_len l.
Proof.
  intros l [H0 H1]. unfold alloc_huge_pkt_16k, alloc_node_from_pool. fold l. rewrite decide_False by lia.
  rewrite !(decide_False (P := _ > _)), !(decide_False (P := _ = stack_max_len l)) by lia. by eexists.
Qed.

(** C36: a packet in a 16 KB buffer whose output interface cannot send is given
    back by the output node, which leaves its flag set, and again by the drop node
    it is sent to; when the worker's cache has room for both, the next two packets
    that take a 16 KB buffer get the same one. *)
Theorem down_interface_shares_buffer admin next st b new_mem1 new_mem2 :
  let w := (ps_wdata st).[b] in
  let l := pv_local (ps_pool st) in
  is_huge w = true -> can_send admin (interface_out w) = false ->
  0 <= current_stack_len l -> current_stack_len l + 2 <= stack_max_len l < 2 ^ 32 ->
  exists st1, output_one admin next st b = Some (st1, PO_NEXT_PKT_DROP) /\
    let st2 := fst (sf_pkt_drop_node st1 [b]) in
    let '(v, first) := alloc_huge_pkt_16k new_mem1 (ps_pool st2) in
    let '(_, second) := alloc_huge_pkt_16k new_mem2 v in
    first = data_ptr w /\ second = data_ptr w.
Proof.
  intros w l Hh Hc H0 H1. unfold output_one, output_place. fold w. rewrite Hc, Hh. eexists. split; [reflexivity|].
  cbv zeta. change (fst (sf_pkt_drop_node ?s [b])) with (drop_one s b).
  assert (Ep : ps_pool (drop_one (free_pkt b st) b) = free_huge_pkt_16k (data_ptr w) (free_huge_pkt_16k (data_ptr w) (ps_pool st))).
  { unfold drop_one, drop_count, drop_free. cbn [free_pkt upd_pool ps_wdata]. fold w. rewrite Hh.
    by destruct (_ && _). }
  rewrite Ep, (free_on_top (ps_pool st)), free_on_top by (cbn [pv_local current_stack_len stack_max_len]; fold l; lia).
  set (v2 := mk_pv _ _ _). cbn [pv_heap pv_head pv_local current_stack_len stack_max_len local_pool_stack] in v2.
  fold l in v2. destruct (alloc_from_top new_mem1 v2) as (l1 & -> & L1 & L2 & L3); [cbn; lia|].
  destruct (alloc_from_top new_mem2 (mk_pv (pv_heap v2) (pv_head v2) l1)) as (l2 & -> & _).
  { cbn [pv_local]. rewrite L1, L3. cbn. lia. }
  cbn [pv_local]. rewrite L1, L2. cbn [v2 pv_local local_pool_stack current_stack_len].
  replace (current_stack_len l + 1 + 1 - 1) with (current_stack_len l + 1) by lia.
  rewrite aget_aset_eq, aget_aset_ne by lia. replace (current_stack_len l + 1 - 1) with (current_stack_len l) by lia.
  rewrite aget_aset_eq. lia.
Qed.
End spec.
