(* ===== verification/PktIo.v ===== *)
(** * Packets from and to the network card

    Models what [src/dpdk/device/node.c] and [src/dpdk/device/device.c] do with the
    packets themselves: the record of a received packet, the list of buffers of a
    packet that arrived in several, the counters, and the chain of DPDK buffers
    built for sending.  The mbuf of a VPP buffer is found from the buffer's index
    and the other way round.  Receiving and sending a burst is DPDK's. *)
From S2P Require Import Prelude Wdata IntfStat HugePkt.

Implicit Types (w : sf_wdata_t) (st : pkt_state) (h : sf_hugepkt_helper_t) (s : sf_hugepkt_sub_t).

(** [buf_addr] is the address [data_off] counts from. *)
Record rte_mbuf := mk_mbuf {
  buf_addr : Z; data_off : Z; data_len : Z; pkt_len : Z; nb_segs : Z; mb_next : option Z
}.
#[export] Instance zeroed_mbuf : Zeroed rte_mbuf := mk_mbuf 0 0 0 0 0 None.
Implicit Types (mbufs : gmap Z rte_mbuf).

Definition RTE_PKTMBUF_HEADROOM : Z := 128.

Section pktio.
Context {VL : Vlib} {VB : VlibBuffers}.

(** ** Receiving *)

(** The [while] loop over the segments after the first; [None] where it follows a
    null pointer or does not end. *)
Fixpoint segs_loop (fuel : nat) mbufs (nb_seg nb_segs : Z) (mb_seg : option Z) (slot : Z) h : option sf_hugepkt_helper_t :=
  match fuel with
  | O => None
  | S fuel =>
      if decide (nb_seg < nb_segs) then
        let? bs := mb_seg in
        let m := mbufs.[bs] in
        let s := mk_sub bs (i16 (buf_addr m + data_off m - buffer_data bs)) (u16 (data_len m)) in
        let h := mk_helper (u32 (sub_total_len_no_first h + data_len m)) (u32 (sub_buffer_cnt h + 1)) (sub_buffer h).[slot <- s] in
        segs_loop fuel mbufs (u8 (nb_seg + 1)) nb_segs (mb_next m) (slot + 1) h
      else Some h
  end.

(** The state, the next node and the bytes of the further segments. *)
Definition sf_dpdk_process_subseq_segs mbufs (b next hugepkt_next_index : Z) st : option (pkt_state * Z * Z) :=
  let mb := mbufs.[b] in
  if decide (nb_segs mb < 2) then Some (st, next, 0)
  else
    let w := set_flag UNUSED8_FLAG_HUGE_PKT (ps_wdata st).[b] in
    let st := upd_w b w st in
    let s := mk_sub b (current_data w) (current_length w) in
    let h := mk_helper 0 1 (sub_buffer (ps_helper st).[b]).[0 <- s] in
    let? h := segs_loop (Z.to_nat (nb_segs mb)) mbufs 1 (nb_segs mb) (mb_next mb) 1 h in
    Some (upd_helper b h st, hugepkt_next_index, sub_total_len_no_first h).

Section burst.
Context (mbufs : gmap Z rte_mbuf) (intf_id : Z) (maybe_multiseg : bool) (hugepkt_next global_next_index : Z).

(** The record of a packet: everything else is cleared. *)
Definition rx_record (b : Z) : sf_wdata_t :=
  let mb := mbufs.[b] in
  let off := i16 (i16 (data_off mb) - RTE_PKTMBUF_HEADROOM) in
  let z := zeroed in
  mk_wdata off (u16 (data_len mb)) (u8 intf_id) (interface_out z) (u8 off) UNUSED8_FLAG_PKT_RECORD_DROP (buffer_data b)
    (packet_type z) (outer_vlan_id z) (outer_ether_type z) (ip_wdata_cnt z) (l4_wdata_cnt z) (vlan_wdata_cnt z)
    (vlan_wdatas z) (arg_to_next z) (ip_wdata z) (l4_wdata z).

Definition rx_segs (b : Z) st : option (pkt_state * Z * Z) :=
  if maybe_multiseg then sf_dpdk_process_subseq_segs mbufs b global_next_index hugepkt_next st
  else Some (st, global_next_index, 0).

(** The state, the bytes so far and the next nodes. *)
Definition rx_one st (n_bytes : Z) (b : Z) : option (pkt_state * Z * Z) :=
  let st := upd_w b (rx_record b) st in
  let n_bytes := n_bytes + data_len mbufs.[b] in
  let? (st, next, n) := rx_segs b st in
  Some (st, n_bytes + n, next).

Definition rx_four st (n_bytes b0 b1 b2 b3 : Z) : option (pkt_state * Z * list Z) :=
  let st := upd_w b3 (rx_record b3) (upd_w b2 (rx_record b2) (upd_w b1 (rx_record b1) (upd_w b0 (rx_record b0) st))) in
  let n_bytes := n_bytes + data_len mbufs.[b0] + data_len mbufs.[b1] + data_len mbufs.[b2] + data_len mbufs.[b3] in
  let? (st, next0, n0) := rx_segs b0 st in
  let? (st, next1, n1) := rx_segs b1 st in
  let? (st, next2, n2) := rx_segs b2 st in
  let? (st, next3, n3) := rx_segs b3 st in
  Some (st, n_bytes + n0 + n1 + n2 + n3, [next0; next1; next2; next3]).

(** Four packets at a time while eight are left, then one at a time. *)
Fixpoint dpdk_process_rx_burst st (n_bytes : Z) (from : list Z) : option (pkt_state * Z * list Z) :=
  match from with
  | b0 :: ((b1 :: b2 :: b3 :: ((_ :: _ :: _ :: _ :: _) as from4)) as from1) =>
      let? (st, n_bytes, nexts) := rx_four st n_bytes b0 b1 b2 b3 in
      let? (st, n_bytes, out) := dpdk_process_rx_burst st n_bytes from4 in
      Some (st, n_bytes, nexts ++ out)
  | b0 :: from1 =>
      let? (st, n_bytes, next) := rx_one st n_bytes b0 in
      let? (st, n_bytes, out) := dpdk_process_rx_burst st n_bytes from1 in
      Some (st, n_bytes, next :: out)
  | [] => Some (st, n_bytes, [])
  end.
End burst.

(** The packets of one poll: bursts until one is short or the array is full. *)
Fixpoint rx_bursts (bursts : list (list Z)) (got : list Z) : list Z :=
  match bursts with
  | [] => got
  | r :: bursts =>
      if decide (Z.of_nat (length got) < VLIB_FRAME_SIZE) then
        if decide (Z.of_nat (length r) < 32) then got ++ r else rx_bursts bursts (got ++ r)
      else got
  end.

(** The state and the packets with the next node of each. *)
Definition dpdk_device_input mbufs (device_up : bool) (admin : Z) (intf_id : Z) (maybe_multiseg : bool)
    (hugepkt_next global_next_index : Z) (bursts : list (list Z)) st : option (pkt_state * list (Z * Z)) :=
  if (device_up : bool) then
    if decide (intf_id > 0 /\ admin = 0) then Some (st, [])
    else
      let got := rx_bursts bursts [] in
      if decide (Z.of_nat (length got) = 0) then Some (st, [])
      else
        let? (st, n_bytes, nexts) := dpdk_process_rx_burst mbufs intf_id maybe_multiseg hugepkt_next global_next_index st 0 got in
        let st := if decide (intf_id <> 0)
                  then upd_stat (fun t => update_interface_stat_multi intf_id In_octets n_bytes
                         (update_interface_stat_multi intf_id In_packets (Z.of_nat (length got)) t)) st
                  else st in
        Some (st, zip got nexts)
  else Some (st, []).

(** ** Sending *)

(** [data_len], [pkt_len] and [data_off] of a segment; [next] is cleared. *)
Definition set_segment (len pkt off : Z) (next : option Z) (n : Z) (m : rte_mbuf) : rte_mbuf :=
  mk_mbuf (buf_addr m) (u16 off) (u16 len) pkt n next.
Definition set_next (next : option Z) (m : rte_mbuf) : rte_mbuf :=
  mk_mbuf (buf_addr m) (data_off m) (data_len m) (pkt_len m) (nb_segs m) next.
Definition one_more_seg (m : rte_mbuf) : rte_mbuf :=
  mk_mbuf (buf_addr m) (data_off m) (data_len m) (pkt_len m) (u16 (nb_segs m + 1)) (mb_next m).

(** One more segment [s] behind [last_mb]. *)
Definition add_segment s (first_mb last_mb : Z) mbufs : gmap Z rte_mbuf :=
  let mb := sub_index s in
  let mbufs := mbufs.[last_mb <- set_next (Some mb) mbufs.[last_mb]] in
  let mbufs := mbufs.[mb <- set_next None mbufs.[mb]] in
  let mbufs := mbufs.[mb <- set_segment (sub_length s) (sub_length s) (VLIB_BUFFER_PRE_DATA_SIZE + sub_data s)
                              (mb_next mbufs.[mb]) (nb_segs mbufs.[mb]) mbufs.[mb]] in
  mbufs.[first_mb <- one_more_seg mbufs.[first_mb]].

Fixpoint chain_loop (n : nat) (i : Z) h (first_mb last_mb : Z) mbufs : gmap Z rte_mbuf :=
  match n with
  | O => mbufs
  | S n =>
      let s := (sub_buffer h).[i] in
      chain_loop n (i + 1) h first_mb (sub_index s) (add_segment s first_mb last_mb mbufs)
  end.

Definition sf_dpdk_validate_rte_mbuf (b : Z) (maybe_multiseg : bool) st mbufs (total_bytes : Z) : gmap Z rte_mbuf * Z :=
  let w := (ps_wdata st).[b] in
  let total_bytes := u32 (total_bytes + current_length w) in
  let m := mbufs.[b] in
  let mbufs := mbufs.[b <- set_segment (current_length w) (current_length w) (VLIB_BUFFER_PRE_DATA_SIZE + current_data w) (mb_next m) 1 m] in
  if maybe_multiseg && is_huge w then
    let h := (ps_helper st).[b] in
    let m := set_next None mbufs.[b] in
    let mbufs := mbufs.[b <- mk_mbuf (buf_addr m) (data_off m) (sub_length (sub_buffer h).[0]) (pkt_len m) (nb_segs m) (mb_next m)] in
    (chain_loop (Z.to_nat (sub_buffer_cnt h - 1)) 1 h b b mbufs, total_bytes)
  else (mbufs, total_bytes).

Definition tx_four st (b0 b1 b2 b3 : Z) mbufs (total : Z) : gmap Z rte_mbuf * Z :=
  let flags b := unused8 (ps_wdata st).[b] in
  let or_flags := Z.lor (Z.lor (Z.lor (flags b0) (flags b1)) (flags b2)) (flags b3) in
  let multi := negb (Z.land or_flags UNUSED8_FLAG_HUGE_PKT =? 0) in
  let '(mbufs, total) := sf_dpdk_validate_rte_mbuf b0 multi st mbufs total in
  let '(mbufs, total) := sf_dpdk_validate_rte_mbuf b1 multi st mbufs total in
  let '(mbufs, total) := sf_dpdk_validate_rte_mbuf b2 multi st mbufs total in
  sf_dpdk_validate_rte_mbuf b3 multi st mbufs total.

(** The loop of the transmit function; the frame itself is what is handed to DPDK. *)
Fixpoint tx_loop st (from : list Z) mbufs (total : Z) : gmap Z rte_mbuf * Z :=
  match from with
  | b0 :: ((b1 :: b2 :: b3 :: ((_ :: _ :: _ :: _ :: _) as from4)) as from1) =>
      let '(mbufs, total) := tx_four st b0 b1 b2 b3 mbufs total in tx_loop st from4 mbufs total
  | b0 :: from1 =>
      let '(mbufs, total) := sf_dpdk_validate_rte_mbuf b0 true st mbufs total in tx_loop st from1 mbufs total
  | [] => (mbufs, total)
  end.
Definition dpdk_device_tx st (from : list Z) mbufs : gmap Z rte_mbuf * Z := tx_loop st from mbufs 0.
End pktio.
