(* ===== verification/PktIoSpec.v ===== *)
(** * Packets from and to the network card: what is sent is what is received

    The chain of DPDK buffers built for a packet of several buffers describes its
    parts, and the list of buffers made from such a chain is the packet's.  Put
    together: a packet split, sent, received and gathered again has its bytes. *)
From S2P Require Import Prelude FrameLoop Wdata SfPool IntfStat IntfStatSpec HugePkt HugePktSpec HugeFrame Transport TransportSpec PktIo.

Implicit Types (w : sf_wdata_t) (mem : gmap Z Z) (h : sf_hugepkt_helper_t) (s : sf_hugepkt_sub_t) (st : pkt_state)
  (mbufs : gmap Z rte_mbuf).

Section spec.
Context {VL : Vlib} {VB : VlibBuffers}.

(** ** Chains of mbufs *)

(** The data area of the mbufs starts [VLIB_BUFFER_PRE_DATA_SIZE] before the buffers' data. *)
Definition at_home mbufs (bs : list Z) : Prop := forall b, b ∈ bs -> buf_addr mbufs.[b] = buffer_data b - VLIB_BUFFER_PRE_DATA_SIZE.

Fixpoint linked mbufs (l : list Z) : Prop :=
  match l with
  | [] => True
  | b :: l => mb_next mbufs.[b] = hd_error l /\ linked mbufs l
  end.

(** The mbuf says where the part is and how long. *)
Definition segment_is mbufs s : Prop :=
  data_off mbufs.[sub_index s] = VLIB_BUFFER_PRE_DATA_SIZE + sub_data s /\ data_len mbufs.[sub_index s] = sub_length s.

Lemma linked_ext mbufs mbufs' l : (forall x, x ∈ l -> mb_next mbufs'.[x] = mb_next mbufs.[x]) -> linked mbufs l -> linked mbufs' l.
Proof.
  induction l as [|b l IH]; intros E; [done|]. intros [H1 H2]. split.
  - by rewrite E by (left).
  - apply IH; [|done]. intros x Hx. apply E. by right.
Qed.

(** ** Sending *)

Lemma add_segment_at s first last mbufs x :
  let m := mbufs.[x] in
  let nx := if decide (x = sub_index s) then None else if decide (x = last) then Some (sub_index s) else mb_next m in
  let nb := if decide (x = first) then u16 (nb_segs m + 1) else nb_segs m in
  (add_segment s first last mbufs).[x] =
  if decide (x = sub_index s)
  then mk_mbuf (buf_addr m) (u16 (VLIB_BUFFER_PRE_DATA_SIZE + sub_data s)) (u16 (sub_length s)) (sub_length s) nb nx
  else mk_mbuf (buf_addr m) (data_off m) (data_len m) (pkt_len m) nb nx.
Proof.
  cbv zeta. unfold add_segment. rewrite !aget_aset.
  repeat match goal with |- context [decide (?a = ?b)] => destruct (decide (a = b)); subst; try done end;
    unfold one_more_seg, set_segment, set_next; cbn; rewrite ?aget_aset_eq; try done; by destruct (mbufs.[_]).
Qed.

Lemma chain_loop_spec h first n : forall i last mbufs,
  let l := subs_from h i (Z.of_nat n) in
  NoDup (map sub_index l) -> last ∉ map sub_index l -> first ∉ map sub_index l -> mb_next mbufs.[last] = None ->
  Forall fits_buffer l -> 0 <= VLIB_BUFFER_PRE_DATA_SIZE < 2 ^ 15 ->
  0 <= nb_segs mbufs.[first] -> nb_segs mbufs.[first] + Z.of_nat n < 2 ^ 16 ->
  let mbufs' := chain_loop n i h first last mbufs in
  linked mbufs' (last :: map sub_index l) /\ Forall (segment_is mbufs') l /\
  nb_segs mbufs'.[first] = nb_segs mbufs.[first] + Z.of_nat n /\
  (forall x, x ∉ map sub_index l -> data_off mbufs'.[x] = data_off mbufs.[x] /\ data_len mbufs'.[x] = data_len mbufs.[x]) /\
  (forall x, x ∉ map sub_index l -> x <> last -> mb_next mbufs'.[x] = mb_next mbufs.[x]) /\
  (forall x, buf_addr mbufs'.[x] = buf_addr mbufs.[x]).
Proof.
  induction n as [|n IH]; intros i last mbufs l Hnd Hlast Hfirst Hnext Hfit Hpre Hn0 Hn; cbn [chain_loop].
  - change l with (@nil sf_hugepkt_sub_t). cbn [map linked hd_error]. split_and!; try done. lia.
  - subst l. rewrite subs_from_cons in * by lia. replace (Z.of_nat (S n) - 1) with (Z.of_nat n) in * by lia.
    set (s := (sub_buffer h).[i]) in *. set (l := subs_from h (i + 1) (Z.of_nat n)) in *. cbn [map] in *.
    apply NoDup_cons in Hnd as [Hs Hnd]. apply not_elem_of_cons in Hlast as [Hls Hlast].
    apply not_elem_of_cons in Hfirst as [Hfs Hfirst]. apply Forall_cons in Hfit as [Hf Hfit].
    pose proof (add_segment_at s first last mbufs) as A. cbv zeta in A. set (m4 := add_segment s first last mbufs) in *.
    assert (Ef4 : nb_segs m4.[first] = nb_segs mbufs.[first] + 1).
    { rewrite A, !(decide_False (P := first = sub_index s)), !(decide_True (P := first = first)) by done. cbn. rewrite wrap_small; lia. }
    assert (Eoff : forall x, x <> sub_index s -> data_off m4.[x] = data_off mbufs.[x] /\ data_len m4.[x] = data_len mbufs.[x]).
    { intros x Hx. by rewrite A, !(decide_False (P := x = sub_index s)) by done. }
    specialize (IH (i + 1) (sub_index s) m4). cbv zeta in IH. fold l in IH.
    destruct IH as (I1 & I2 & I3 & I4 & I5 & I6); try done; [by rewrite A, !(decide_True (P := sub_index s = sub_index s))|lia..|].
    set (m' := chain_loop n (i + 1) h first (sub_index s) m4) in *. split_and!.
    + split; [|exact I1]. by rewrite I5, A, !(decide_False (P := last = sub_index s)), !(decide_True (P := last = last)) by done.
    + apply Forall_cons; split; [|exact I2]. destruct (I4 (sub_index s) Hs) as [D1 D2]. unfold segment_is.
      rewrite D1, D2, A, !(decide_True (P := sub_index s = sub_index s)) by done. cbn. destruct Hf as (F1 & F2 & F3). unfold VLIB_BUFFER_DATA_SIZE in F3.
      by rewrite !wrap_small by lia.
    + rewrite I3, Ef4. lia.
    + intros x Hx. apply not_elem_of_cons in Hx as [Hx1 Hx2]. destruct (I4 x Hx2) as [-> ->]. by apply Eoff.
    + intros x Hx Hxl. apply not_elem_of_cons in Hx as [Hx1 Hx2].
      by rewrite I5, A, !(decide_False (P := x = sub_index s)), !(decide_False (P := x = last)) by done.
    + intros x. rewrite I6, A. by destruct (decide (x = sub_index s)).
Qed.

(** The chain of a packet of several buffers. *)
Lemma validate_huge b st mbufs total :
  let w := (ps_wdata st).[b] in
  let h := (ps_helper st).[b] in
  is_huge w = true -> 1 <= sub_buffer_cnt h < 2 ^ 15 -> sub_index (sub_buffer h).[0] = b -> sub_data (sub_buffer h).[0] = current_data w ->
  NoDup (map sub_index (chain h)) -> Forall fits_buffer (chain h) -> 0 <= VLIB_BUFFER_PRE_DATA_SIZE < 2 ^ 15 -> at_home mbufs (map sub_index (chain h)) ->
  exists mbufs', sf_dpdk_validate_rte_mbuf b true st mbufs total = (mbufs', u32 (total + current_length w)) /\
    linked mbufs' (map sub_index (chain h)) /\ Forall (segment_is mbufs') (chain h) /\
    nb_segs mbufs'.[b] = sub_buffer_cnt h /\ at_home mbufs' (map sub_index (chain h)).
Proof.
  intros w h Hh Hc Hi Hd Hnd Hfit Hpre Hhome. unfold sf_dpdk_validate_rte_mbuf. fold w h. rewrite Hh. cbn [andb].
  eexists. split; [reflexivity|]. rewrite !aget_aset_eq. cbn [set_segment set_next buf_addr data_off data_len pkt_len nb_segs mb_next].
  set (m1 := _.[b <- mk_mbuf _ _ _ _ _ _]).
  assert (E1 : m1.[b] = mk_mbuf (buf_addr mbufs.[b]) (u16 (VLIB_BUFFER_PRE_DATA_SIZE + current_data w)) (sub_length (sub_buffer h).[0])
    (current_length w) 1 None) by (unfold m1; apply aget_aset_eq).
  assert (Ha : forall x, buf_addr m1.[x] = buf_addr mbufs.[x]).
  { intros x. unfold m1. rewrite !aget_aset. destruct (decide (b = x)) as [<-|]; done. }
  unfold chain in *. rewrite subs_from_cons in * by lia. cbn [map] in *. rewrite Hi in *.
  apply NoDup_cons in Hnd as [Hb Hnd]. apply Forall_cons in Hfit as [Hf Hfit].
  change (0 + 1) with 1 in *. replace (sub_buffer_cnt h - 1) with (Z.of_nat (Z.to_nat (sub_buffer_cnt h - 1))) in Hb, Hnd, Hfit, Hhome |- * by lia.
  set (n := Z.to_nat (sub_buffer_cnt h - 1)) in *.
  rewrite Nat2Z.id.
  destruct (chain_loop_spec h b n 1 b m1 Hnd Hb Hb) as (I1 & I2 & I3 & I4 & I5 & I6); [by rewrite E1|exact Hfit|exact Hpre| | |].
  { rewrite E1. cbn. lia. } { rewrite E1. cbn. lia. }
  split_and!; [exact I1| | |].
  - apply Forall_cons; split; [|exact I2]. destruct (I4 b Hb) as [D1 D2]. unfold segment_is. rewrite Hi, D1, D2, E1, Hd. cbn [data_off data_len].
    split; [|done]. destruct Hf as (F1 & F2 & F3). unfold VLIB_BUFFER_DATA_SIZE in F3. by rewrite wrap_small by lia.
  - rewrite I3, E1. cbn [nb_segs]. lia.
  - intros x Hx. rewrite I6, Ha. by apply Hhome.
Qed.

(** ** Receiving *)

Lemma rx_sub mbufs s : at_home mbufs [sub_index s] -> segment_is mbufs s -> fits_buffer s ->
  mk_sub (sub_index s) (i16 (buf_addr mbufs.[sub_index s] + data_off mbufs.[sub_index s] - buffer_data (sub_index s)))
    (u16 (data_len mbufs.[sub_index s])) = s.
Proof.
  intros Hh [-> ->] (F1 & F2 & F3). unfold VLIB_BUFFER_DATA_SIZE in F3. rewrite Hh by by left.
  replace (buffer_data (sub_index s) - _ + _ - buffer_data (sub_index s)) with (sub_data s) by lia.
  rewrite i16_small, wrap_small by lia. by destruct s.
Qed.

Lemma segs_loop_spec mbufs l : forall fuel nb slot h,
  at_home mbufs (map sub_index l) -> linked mbufs (map sub_index l) -> Forall (segment_is mbufs) l -> Forall fits_buffer l ->
  (length l < fuel)%nat -> 1 <= nb -> nb + Z.of_nat (length l) < 256 ->
  0 <= sub_total_len_no_first h -> sub_total_len_no_first h + lens l < 2 ^ 32 ->
  0 <= sub_buffer_cnt h -> sub_buffer_cnt h + Z.of_nat (length l) < 2 ^ 32 ->
  exists h', segs_loop fuel mbufs nb (nb + Z.of_nat (length l)) (hd_error (map sub_index l)) slot h = Some h' /\
    subs_from h' slot (Z.of_nat (length l)) = l /\ (forall i, i < slot -> (sub_buffer h').[i] = (sub_buffer h).[i]) /\
    sub_total_len_no_first h' = sub_total_len_no_first h + lens l /\ sub_buffer_cnt h' = sub_buffer_cnt h + Z.of_nat (length l).
Proof.
  induction l as [|s l IH]; intros [|fuel] nb slot h Hhome Hlink Hseg Hfit Hf Hnb Hn Ht0 Ht Hc0 Hc; cbn [length] in *; try lia;
    cbn [segs_loop].
  - rewrite decide_False by lia. exists h. split_and!; try done; unfold lens; cbn [map foldr]; lia.
  - rewrite decide_True by lia. cbn [map hd_error obind]. apply Forall_cons in Hseg as [Hs Hseg]. apply Forall_cons in Hfit as [Hfs Hfit].
    cbn [map linked] in Hlink. destruct Hlink as [Hnx Hlink]. rewrite lens_cons in Ht.
    assert (Hln : 0 <= lens l) by (apply lens_nonneg; eapply Forall_impl; [exact Hfit|]; by intros ? (_ & ? & _)).
    rewrite (rx_sub mbufs s) by (done || (intros x Hx%list_elem_of_singleton; subst; apply Hhome; by left)).
    assert (Hhome' : at_home mbufs (map sub_index l)) by (intros x Hx; apply Hhome; by right). destruct Hs as [_ Hlen]. destruct Hfs as (F1 & F2 & F3). rewrite Hlen, Hnx.
    rewrite !(wrap_small 32), (wrap_small 8) by lia.
    replace (nb + Z.of_nat (S (length l))) with (nb + 1 + Z.of_nat (length l)) by lia.
    destruct (IH fuel (nb + 1) (slot + 1) (mk_helper (sub_total_len_no_first h + sub_length s) (sub_buffer_cnt h + 1)
      (sub_buffer h).[slot <- s])) as (h' & E & I1 & I2 & I3 & I4); try done; cbn [sub_total_len_no_first sub_buffer_cnt]; try lia.
    exists h'. split_and!; [exact E| | | |].
    + rewrite subs_from_cons by lia. replace (Z.of_nat (S (length l)) - 1) with (Z.of_nat (length l)) by lia.
      rewrite I1, I2 by lia. f_equal. cbn. apply aget_aset_eq.
    + intros i Hi. rewrite I2 by lia. cbn. apply aget_aset_ne. lia.
    + rewrite I3. cbn [sub_total_len_no_first]. rewrite lens_cons. lia.
    + rewrite I4. cbn. lia.
Qed.

(** ** From one card to the other *)

Context {VBL : VlibBuffersLaws}.

(** A packet of one buffer: the mbuf, and the record the receiver makes of it. *)
Lemma wire_single b st1 mbufs intf hp gp :
  let w1 := (ps_wdata st1).[b] in
  VLIB_BUFFER_PRE_DATA_SIZE = RTE_PKTMBUF_HEADROOM -> is_huge w1 = false -> current_data w1 = OUTPUT_TAG_PRE_SIZE ->
  0 <= current_length w1 < 2 ^ 16 ->
  exists mbufs1 st2, sf_dpdk_validate_rte_mbuf b true st1 mbufs 0 = (mbufs1, current_length w1) /\
    rx_one mbufs1 intf true hp gp st1 0 b = Some (st2, current_length w1, gp) /\ ps_mem st2 = ps_mem st1 /\
    sf_wqe_get_current (ps_wdata st2).[b] = buffer_data b + OUTPUT_TAG_PRE_SIZE /\ current_length (ps_wdata st2).[b] = current_length w1.
Proof.
  intros w1 Hpre Hh Hd Hl. unfold sf_dpdk_validate_rte_mbuf. fold w1. rewrite Hh. cbn [andb].
  eexists _, _. split; [rewrite (wrap_small 32) by lia; reflexivity|].
  unfold rx_one, rx_segs, sf_dpdk_process_subseq_segs, rx_record. rewrite !aget_aset_eq. cbn [set_segment nb_segs data_off data_len].
  rewrite decide_True by lia. cbn [obind]. rewrite Hpre, Hd. rewrite !(wrap_small 16 (current_length w1)), (wrap_small 16 (_ + _)) by (done || lia).
  split; [by rewrite Z.add_0_r, Z.add_0_l|]. cbn [ps_mem ps_wdata upd_w]. rewrite aget_aset_eq. done.
Qed.

(** A packet of several buffers: the chain, and the list the receiver makes of it. *)
Lemma wire_chain b bufs st st1 mbufs intf hp gp :
  let h := (ps_helper st1).[b] in
  let len := current_length (ps_wdata st).[b] in
  VLIB_BUFFER_PRE_DATA_SIZE = RTE_PKTMBUF_HEADROOM -> at_home mbufs (b :: bufs) -> split_over b bufs st st1 -> bufs <> [] -> NoDup (b :: bufs) ->
  0 <= len < 2 ^ 16 -> Z.of_nat (length bufs) < 255 ->
  exists mbufs1 st2, sf_dpdk_validate_rte_mbuf b true st1 mbufs 0 = (mbufs1, len) /\
    rx_one mbufs1 intf true hp gp st1 0 b = Some (st2, len, hp) /\ ps_mem st2 = ps_mem st1 /\ ps_pool st2 = ps_pool st1 /\
    chain (ps_helper st2).[b] = chain h /\ sub_buffer_cnt (ps_helper st2).[b] = sub_buffer_cnt h /\
    sub_total_len_no_first (ps_helper st2).[b] + current_length (ps_wdata st2).[b] = len.
Proof.
  intros h len Hpre Hhome Hs Hne Hnd Hlen Hn.
  destruct Hs as [sp_index0 sp_fits0 sp_bytes0 sp_lens0 sp_count0 sp_first0 sp_current0 sp_flag0 _ _ _].
  fold h in sp_index0, sp_fits0, sp_bytes0, sp_lens0, sp_count0, sp_first0.
  destruct sp_current0 as [Ecd Ecl]. fold len in sp_lens0, Ecl.
  assert (Hflag : is_huge (ps_wdata st1).[b] = true).
  { rewrite is_huge_bit, sp_flag0. destruct bufs; [done|]. apply lor_huge. }
  assert (E0 : exists l, chain h = (sub_buffer h).[0] :: l /\ map sub_index l = bufs /\ sub_index (sub_buffer h).[0] = b).
  { unfold chain in *. rewrite subs_from_cons in * by (cbn [length] in sp_count0; lia). cbn [map] in sp_index0.
    injection sp_index0 as E1 E2. by eexists. }
  destruct E0 as (l & Ec & El & Ei). set (s0 := (sub_buffer h).[0]) in *.
  assert (Hll : length l = length bufs) by (by rewrite <- El, length_map).
  destruct (validate_huge b st1 mbufs 0) as (mbufs1 & Ev & V1 & V2 & V3 & V4); fold h; rewrite ?sp_index0; fold s0; try done.
  { rewrite sp_count0. cbn [length]. lia. } { by rewrite Ecd. } { by rewrite Hpre. }
  rewrite Ecl, (wrap_small 32) in Ev by lia. fold h in V1, V2, V3. exists mbufs1.
  pose proof V2 as V2'. rewrite Ec in V2', sp_fits0, sp_lens0. apply Forall_cons in V2' as [S0 Sl]. apply Forall_cons in sp_fits0 as [F0 Fl].
  destruct S0 as [So Sn]. rewrite Ei in So, Sn. rewrite lens_cons in sp_lens0.
  assert (Hln : 0 <= lens l) by (apply lens_nonneg; eapply Forall_impl; [exact Fl|]; by intros ? (_ & ? & _)).
  destruct F0 as (F1 & F2 & F3). unfold VLIB_BUFFER_DATA_SIZE in F3.
  rewrite sp_index0 in V1. cbn [linked] in V1. destruct V1 as [Vn Vl]. rewrite <- El in Vn, Vl.
  assert (Hnb : nb_segs mbufs1.[b] = 1 + Z.of_nat (length l)) by (rewrite V3, sp_count0, Hll; cbn [length]; lia).
  unfold rx_one, rx_segs, sf_dpdk_process_subseq_segs, rx_record.
  rewrite Hnb. rewrite decide_False by (destruct bufs; [done|cbn [length] in Hll; lia]). cbn [ps_wdata upd_w ps_helper]. rewrite aget_aset_eq.
  cbn [set_flag with_buffer current_data current_length]. rewrite So, Sn, Hpre, sp_first0.
  change (i16 (i16 (RTE_PKTMBUF_HEADROOM + OUTPUT_TAG_PRE_SIZE) - RTE_PKTMBUF_HEADROOM)) with OUTPUT_TAG_PRE_SIZE.
  rewrite (wrap_small 16 (sub_length s0)) by lia. rewrite Vn.
  destruct (segs_loop_spec mbufs1 l (Z.to_nat (1 + Z.of_nat (length l))) 1 1
    (mk_helper 0 1 (sub_buffer h).[0 <- mk_sub b OUTPUT_TAG_PRE_SIZE (sub_length s0)])) as (h' & E & I1 & I2 & I3 & I4); try done;
    cbn [sub_total_len_no_first sub_buffer_cnt]; try lia.
  { intros x Hx. apply V4. fold h. rewrite Ec. by right. }
  fold h. rewrite E. cbn [obind]. eexists. split; [exact Ev|]. split; [repeat f_equal; rewrite I3; cbn; lia|].
  cbn [ps_mem ps_pool ps_helper ps_wdata upd_w upd_helper]. rewrite !aget_aset_eq. cbn [set_flag with_buffer current_length].
  cbn [sub_total_len_no_first sub_buffer_cnt] in I3, I4.
  split_and!; [done|done| |rewrite I4, sp_count0, Hll; cbn [length]; lia|lia].
  unfold chain at 1. rewrite I4, Ec, subs_from_cons by lia. rewrite I2 by lia. f_equal.
  - cbn [sub_buffer]. rewrite aget_aset_eq. destruct s0 as [i0 d0 n0]. cbn in *. by rewrite Ei, sp_first0.
  - change (0 + 1) with 1. replace (1 + Z.of_nat (length l) - 1) with (Z.of_nat (length l)) by lia. exact I1.
Qed.

(** A packet that can be split: the buffers it needs are free and distinct, and
    its bytes are in none of them. *)
Record splittable (b : Z) st : Prop := {
  sa_length : 0 < current_length (ps_wdata st).[b] < SF_HUGE_PKT_MAX_DATA_SIZE;
  sa_taken : Z.of_nat (length (snd (buffers_taken (current_length (ps_wdata st).[b]) (ps_free st)))) =
             split_count (current_length (ps_wdata st).[b]) - 1;
  sa_distinct : NoDup (b :: snd (buffers_taken (current_length (ps_wdata st).[b]) (ps_free st)));
  sa_apart : Forall (fun b' => apart (sf_wqe_get_current (ps_wdata st).[b]) (current_length (ps_wdata st).[b]) (buffer_data b') VLIB_BUFFER_DATA_SIZE)
               (b :: snd (buffers_taken (current_length (ps_wdata st).[b]) (ps_free st)))
}.

Lemma splittable_splits b st : 0 <= VLIB_BUFFER_PRE_DATA_SIZE -> splittable b st ->
  let len := current_length (ps_wdata st).[b] in
  let bufs := snd (buffers_taken len (ps_free st)) in
  len < 2 ^ 14 /\ Z.of_nat (length bufs) < 255 /\
  exists st1, sf_vlib_buffer_split b st = (st1, len) /\ split_over b bufs st st1.
Proof.
  intros Hpre [Hl Ht Hd Ha] len bufs. fold len in Hl, Ht, Hd, Ha. fold bufs in Ht, Hd, Ha.
  unfold SF_HUGE_PKT_MAX_DATA_SIZE, SF_HUGE_PKT_16KB_MAX_SIZE, SF_HUGE_PKT_PRE_DATA_SIZE in Hl.
  pose proof (split_count_spec len ltac:(lia)) as Hc. unfold OUTPUT_TAG_PRE_SIZE in Hc.
  pose proof (Z.div_mod (len + 8 + 2047) 2048 ltac:(done)). pose proof (Z.mod_pos_bound (len + 8 + 2047) 2048 ltac:(done)).
  split; [lia|]. split; [lia|].
  destruct (split_splits b st) as (st1 & E & Hs & _); fold len; fold bufs; try done; try lia.
  { unfold OUTPUT_TAG_PRE_SIZE, VLIB_BUFFER_DATA_SIZE, SF_HUFEPKT_MAX_SUB_BUFFER_CNT. lia. }
  by exists st1.
Qed.

Lemma chain_clear l bufs p n : map sub_index l = bufs -> Forall fits_buffer l ->
  Forall (fun b => apart p n (buffer_data b) VLIB_BUFFER_DATA_SIZE) bufs -> Forall (clear_of p n) l.
Proof.
  intros <- Hf Ha. rewrite Forall_map in Ha. apply Forall_forall. intros s Hs. rewrite Forall_forall in Hf, Ha.
  destruct (Hf s Hs) as (F1 & F2 & F3). specialize (Ha s Hs). split; [done|]. unfold apart, sub_at in *. cbn in Ha. lia.
Qed.

(** The drop array holds the buffers after the first. *)
Lemma dropped_tail h drop n : sub_buffer_cnt h = n + 1 -> 0 <= n ->
  dropped_at 0 n (fun k => sub_index (sub_buffer h).[k + 1]) ∅ drop ->
  (fun k => drop.[k]) <$> seqZ 0 n = tail (map sub_index (chain h)).
Proof.
  intros Hc Hn Hd. unfold chain. rewrite Hc, subs_from_cons by lia. cbn [map tail].
  unfold subs_from. change (map sub_index ?x) with (sub_index <$> x). rewrite <- list_fmap_compose.
  rewrite <- (fmap_add_seqZ 1 0), <- list_fmap_compose. replace (n + 1 - 1) with n by lia.
  apply list_fmap_ext. intros _ k Hk%list_elem_of_lookup_2. apply elem_of_seqZ in Hk.
  rewrite Hd, decide_True by lia. cbn. by rewrite Z.sub_0_r, Z.add_comm.
Qed.

(** C20: a packet of any length that fits a 16 KB buffer, split over as many
    buffers as it needs, sent, received from the same chain and gathered again has
    the bytes it had; the buffers other than the first are on the list to give
    back, each once. *)
Theorem wire_roundtrip (b new_mem intf hp gp : Z) st mbufs :
  let len := current_length (ps_wdata st).[b] in
  let packet := region (ps_mem st) (sf_wqe_get_current (ps_wdata st).[b]) len in
  let bufs := snd (buffers_taken len (ps_free st)) in
  let dptr := snd (alloc_huge_pkt_16k new_mem (ps_pool st)) in
  VLIB_BUFFER_PRE_DATA_SIZE = RTE_PKTMBUF_HEADROOM -> at_home mbufs (b :: bufs) -> is_huge (ps_wdata st).[b] = false -> splittable b st ->
  dptr <> 0 -> Forall (fun b' => apart dptr len (buffer_data b') VLIB_BUFFER_DATA_SIZE) (b :: bufs) ->
  exists st1 mbufs1 st2 next,
    sf_vlib_buffer_split b st = (st1, len) /\
    sf_dpdk_validate_rte_mbuf b true st1 mbufs 0 = (mbufs1, len) /\
    rx_one mbufs1 intf true hp gp st1 0 b = Some (st2, len, next) /\
    if decide (bufs = [])
    then next = gp /\ region (ps_mem st2) (sf_wqe_get_current (ps_wdata st2).[b]) (current_length (ps_wdata st2).[b]) = packet
    else next = hp /\ exists st3 drop,
      handle_huge_packet b new_mem st2 ∅ 0 = (st3, drop, Z.of_nat (length bufs), 0) /\
      region (ps_mem st3) (sf_wqe_get_current (ps_wdata st3).[b]) (current_length (ps_wdata st3).[b]) = packet /\
      (fun k => drop.[k]) <$> seqZ 0 (Z.of_nat (length bufs)) = bufs.
Proof.
  intros len packet bufs dptr Hpre Hhome Hflag Hsa Hd Hapart. pose proof (sa_length _ _ Hsa) as Hl. fold len in Hl.
  destruct (splittable_splits b st ltac:(by rewrite Hpre) Hsa) as (Hl14 & Hb & st1 & E1 & Hs). fold len bufs in Hb, E1, Hs, Hl14.
  exists st1. destruct (decide (bufs = [])) as [Hnil|Hne].
  - pose proof Hs as [_ _ P3 P4 P5 P6 [P7 P7'] P8 _ _ _]. fold len packet in P3, P4, P7'. rewrite Hnil in P8, P5.
    destruct (wire_single b st1 mbufs intf hp gp Hpre) as (mbufs1 & st2 & W1 & W2 & W3 & W4 & W5).
    { by rewrite is_huge_bit, P8, <- is_huge_bit. } { exact P7. } { lia. }
    rewrite P7' in W1, W2, W5. exists mbufs1, st2, gp. split_and!; try done.
    rewrite W3, W4, W5, <- P3. unfold chain_bytes, chain in *. rewrite P5, subs_from_cons in * by done.
    change (subs_from _ (0 + 1) _) with (@nil sf_hugepkt_sub_t) in *. cbn [fmap list_fmap concat]. rewrite app_nil_r.
    unfold sub_bytes, sub_at. rewrite P6. rewrite lens_cons in P4. unfold lens in P4. cbn in P4.
    pose proof (sp_index _ _ _ _ Hs) as Pi. unfold chain in Pi. rewrite P5, subs_from_cons in Pi by done. cbn [map] in Pi.
    injection Pi as ->. f_equal. lia.
  - pose proof (sa_distinct _ _ Hsa) as Hnd. fold len in Hnd. fold bufs in Hnd.
    destruct (wire_chain b bufs st st1 mbufs intf hp gp Hpre Hhome Hs Hne Hnd) as (mbufs1 & st2 & W1 & W2 & W3 & W4 & W5 & W6 & W7);
      fold len; [lia|done|]. fold len in W1, W2, W7.
    exists mbufs1, st2, hp. split_and!; try done. pose proof Hs as [Pi Pf Pb Pl Pc _ _ _ _ _ Po]. fold len packet in Pb, Pl.
    destruct Po as (_ & Pp & _). assert (Hcc : chain_ok (ps_helper st2).[b] (ps_wdata st2).[b]).
    { unfold chain_ok. rewrite W5, W6, W7, Pl, Pc. split_and!; [cbn [length]; lia|done|lia]. }
    destruct (handle_gathers b new_mem st2 ∅ 0) as (st3 & drop & E & Hg & Hdrop & _); rewrite ?W4, ?Pp, ?W5, ?W6, ?Pl; try done.
    { by rewrite Hpre. } { by apply chain_clear with (b :: bufs). } { rewrite Pc. cbn [length]. lia. }
    rewrite W6, Pc in E. replace (0 + (Z.of_nat (length (b :: bufs)) - 1)) with (Z.of_nat (length bufs)) in E by (cbn [length]; lia).
    exists st3, drop. split_and!; [exact E| |].
    + rewrite (ga_bytes _ _ _ _ Hg), W3. unfold chain_bytes. rewrite W5. exact Pb.
    + assert (Hdr := dropped_tail (ps_helper st2).[b] drop (Z.of_nat (length bufs))). rewrite W5, Pi in Hdr. cbn [tail] in Hdr.
      rewrite W6, Pc in Hdr, Hdrop. cbn [length] in Hdr, Hdrop. apply Hdr; [lia|lia|].
      replace (Z.of_nat (S (length bufs)) - 1) with (Z.of_nat (length bufs)) in Hdrop by lia. exact Hdrop.
Qed.
End spec.

(** * Packets of several buffers: concrete runs

    A packet of 5000 bytes over three buffers, a frame in which one packet does not
    fit, and a huge packet for an interface that is down. *)

#[local] Instance pkt_vlib : Vlib := {| VLIB_BUFFER_PRE_DATA_SIZE := 128; VLIB_FRAME_SIZE := 256; ip4_header_checksum := fun _ _ => 0 |}.
#[local] Instance pkt_buffers : VlibBuffers := {| buffer_data := fun b => 1000000 + 4096 * b; vlib_buffer_fill_free_list := fun fl _ => fl |}.
#[local] Instance pkt_buffers_laws : VlibBuffersLaws.
Proof. intros b b' Hb. unfold apart. cbn. unfold VLIB_BUFFER_DATA_SIZE. lia. Qed.

Definition demo_pool (len : Z) (stack : gmap Z Z) : pool_view :=
  mk_pv ∅ (mk_head 8 4 2 32 16384 0 8 8 600000) (mk_local len 32 0 16 stack 0 0).

(** Length, flags, interface received on, interface to leave by, place of the bytes. *)
Definition demo_rec (len flags intf out dptr : Z) : sf_wdata_t :=
  let z : sf_wdata_t := zeroed in
  mk_wdata 0 len intf out 0 flags dptr 0 0 0 0 0 0 (vlan_wdatas z) 0 (ip_wdata z) (l4_wdata z).

(** ** From one card to the other *)

Definition wire_state : pkt_state :=
  mk_ps (poke (poke ∅ 20000 (seqZ 1 40)) 24990 (seqZ 60 10)) {[5 := demo_rec 5000 1 1 2 20000]} ∅ (demo_pool 1 {[0 := 500000]}) [7; 8; 9] zeroed.
Definition wire_mbufs : gmap Z rte_mbuf := list_to_map ((fun b => (b, mk_mbuf (buffer_data b - 128) 0 0 0 1 None)) <$> [5; 7; 8; 9]).

Ltac pick H := repeat (apply elem_of_cons in H as [->|H]; [vm_compute; congruence|]); by apply not_elem_of_nil in H.

Lemma wire_splittable : splittable 5 wire_state.
Proof.
  split.
  - vm_compute. by split.
  - reflexivity.
  - apply (bool_decide_unpack _). vm_compute. exact Logic.I.
  - repeat constructor; vm_compute; (by left) || (by right) || congruence || (left; congruence).
Qed.

Theorem wire_roundtrip_witness : splittable 5 wire_state /\
  exists st1 mbufs1 st2 st3 drop,
    sf_vlib_buffer_split 5 wire_state = (st1, 5000) /\ sf_dpdk_validate_rte_mbuf 5 true st1 wire_mbufs 0 = (mbufs1, 5000) /\
    rx_one mbufs1 3 true 11 22 st1 0 5 = Some (st2, 5000, 11) /\ handle_huge_packet 5 0 st2 ∅ 0 = (st3, drop, 2, 0) /\
    region (ps_mem st3) (sf_wqe_get_current (ps_wdata st3).[5]) (current_length (ps_wdata st3).[5]) = region (ps_mem wire_state) 20000 5000 /\
    (fun k => drop.[k]) <$> seqZ 0 2 = [8; 9].
Proof.
  split; [exact wire_splittable|].
  edestruct (wire_roundtrip 5 0 3 11 22 wire_state wire_mbufs) as (st1 & mbufs1 & st2 & next & E1 & E2 & E3 & H).
  - reflexivity.
  - intros b Hb. pick Hb.
  - reflexivity.
  - exact wire_splittable.
  - vm_compute. discriminate.
  - repeat constructor; vm_compute; (by left) || (by right) || congruence || (left; congruence).
  - change (snd (buffers_taken (current_length (ps_wdata wire_state).[5]) (ps_free wire_state))) with [8; 9] in H.
    rewrite decide_False in H by done. destruct H as (-> & st3 & drop & E4 & E5 & E6).
    exists st1, mbufs1, st2, st3, drop. exact (conj E1 (conj E2 (conj E3 (conj E4 (conj E5 E6))))).
Defined.

(** ** A frame *)

(** Three packets of two buffers each; the second is too long. *)
Definition frame_helper (b len : Z) : sf_hugepkt_helper_t :=
  mk_helper len 2 {[0 := mk_sub b 0 1500; 1 := mk_sub (b + 100) 0 len]}.
Definition frame_state : pkt_state :=
  mk_ps ∅ (list_to_map ((fun b => (b, demo_rec 1500 1 1 2 (1000000 + 4096 * b))) <$> [1; 2; 3]))
    (list_to_map [(1, frame_helper 1 700); (2, frame_helper 2 16000); (3, frame_helper 3 900)])
    (demo_pool 2 {[0 := 500000; 1 := 520000]}) [] zeroed.

Theorem hugepkt_input_conserves_witness :
  exists st', sf_hugepkt_input_node (fun _ => 600000) ∅ frame_state [1; 2; 3] = (st', [1; 3], [101; 103]).
Proof.
  destruct (hugepkt_input_conserves ltac:(done) (fun _ => 600000) ltac:(done) ltac:(vm_compute; split; congruence) frame_state ∅ [1; 2; 3])
    as [_ (st' & E)].
  - split; try (vm_compute; congruence).
    intros i. cbn [ps_pool frame_state demo_pool pv_local local_pool_stack]. unfold aget.
    destruct (decide (i = 0)) as [->|]; [vm_compute; congruence|]. destruct (decide (i = 1)) as [->|]; [vm_compute; congruence|].
    by rewrite lookup_insert_ne, lookup_singleton_ne by done.
  - apply (bool_decide_unpack _). vm_compute. exact Logic.I.
  - repeat constructor; vm_compute; congruence.
  - exists st'. rewrite E. reflexivity.
Defined.

(** ** Output and drop *)

(** Packet 1 leaves by interface 2; interface 4 of packet 2, a huge one, is down. *)
Definition out_state : pkt_state :=
  mk_ps ∅ (list_to_map [(1, demo_rec 64 1 1 2 0); (2, demo_rec 9000 5 1 4 500128)]) ∅ (demo_pool 3 ∅) [] zeroed.
Definition out_admin : gmap Z Z := {[1 := 1]}.

Lemma zero_counters st : ps_stat st = zeroed -> counters_ok st.
Proof. intros E m i. rewrite E, counter_zero. lia. Qed.

Theorem output_counts_sent_witness :
  exists st', output_effect out_admin out_state [1; 2] st' /\
    counts_more 0 64 (counter Out_octets 1 (ps_stat st')) /\
    sf_pkt_output_node out_admin {[2 := 7]} out_state [1; 2] st' [(1, 7); (2, PO_NEXT_PKT_DROP)].
Proof.
  destruct (output_counts_sent out_admin {[2 := 7]} out_state [1; 2] (zero_counters out_state eq_refl)) as (st' & He & Hr).
  - apply (bool_decide_unpack _). vm_compute. exact Logic.I.
  - exists st'. split; [exact He|]. split; [exact (oe_octets _ _ _ _ He 2)|]. apply Hr. split; reflexivity.
Defined.

Theorem drop_counts_recorded_witness :
  counts_more 0 2 (counter Drop_packets 0 (ps_stat (fst (sf_pkt_drop_node out_state [1; 2])))).
Proof.
  pose proof (drop_counts_recorded out_state [1; 2] (zero_counters out_state eq_refl)) as [He _].
  exact (de_packets _ _ _ He 1).
Defined.

Theorem down_interface_shares_buffer_witness :
  exists st1, output_one out_admin {[2 := 7]} out_state 2 = Some (st1, PO_NEXT_PKT_DROP) /\
    let '(v, first) := alloc_huge_pkt_16k 0 (ps_pool (fst (sf_pkt_drop_node st1 [2]))) in
    first = 500128 /\ snd (alloc_huge_pkt_16k 0 v) = 500128.
Proof.
  destruct (down_interface_shares_buffer out_admin {[2 := 7]} out_state 2 0 0) as (st1 & E & H).
  - reflexivity.
  - reflexivity.
  - vm_compute. congruence.
  - vm_compute. split; congruence.
  - exists st1. split; [exact E|]. cbv zeta in H. destruct (alloc_huge_pkt_16k 0 (ps_pool _)) as [v first].
    destruct (alloc_huge_pkt_16k 0 v) as [v' second]. exact H.
Defined.
