(* ===== verification/Hqos.v ===== *)
(** * Quality of service on the way out

    Models [src/dpdk/hqos/hqos.c] and the commands of [src/dpdk/device/cli.c] that set
    the packet fields and the table of traffic classes: a worker marks a packet with
    subport, pipe, traffic class and queue, read from its bytes, and puts it on a ring
    of its own; a thread takes packets from the rings of a device, hands them to DPDK's
    scheduler in bursts and sends what the scheduler lets out.  The rings, the scheduler
    and the card are DPDK's: what they give and accept are arguments, what is handed to
    them is recorded. *)
From S2P Require Import Prelude Wdata PktIo.

Implicit Types (from : list Z) (mem : gmap Z Z).

Section hqos.
(** What the compiler's counts of leading and trailing zeros answer for 0. *)
Context (zero_count : Z).

(** ** Masks of packet fields *)

Fixpoint pos_popcount (p : positive) : Z :=
  match p with xH => 1 | xO p => pos_popcount p | xI p => 1 + pos_popcount p end.
Definition popcount (z : Z) : Z := match z with Zpos p => pos_popcount p | _ => 0 end.
Fixpoint pos_ctz (p : positive) : Z := match p with xO p => 1 + pos_ctz p | _ => 0 end.
Definition count_trailing_zeros (z : Z) : Z := match z with Zpos p => pos_ctz p | _ => zero_count end.
Definition count_leading_zeros (z : Z) : Z := match z with Zpos _ => 63 - Z.log2 z | _ => zero_count end.

Definition dpdk_hqos_validate_mask (mask n : Z) : Z :=
  let count := popcount mask in
  let pos_lead := 64 - count_leading_zeros mask in
  let pos_trail := count_trailing_zeros mask in
  let count_expected := popcount (u32 (n - 1)) in
  if decide (n = 0) then -1
  else if decide (mask = 0 /\ n = 1) then 0
  else if decide ((mask = 0 /\ n <> 1) \/ (mask <> 0 /\ n = 1)) then -2
  else if decide (pos_lead - pos_trail <> count) then -3
  else if decide (count <> count_expected) then -4
  else 0.

(** ** What a worker knows of a device *)

(** [hqos_field<i>_slabpos], [_slabmask] and [_slabshr]. *)
Record slab := mk_slab { slabpos : Z; slabmask : Z; slabshr : Z }.
Record dpdk_device_hqos_per_worker_thread_t := mk_wt {
  hqos_field0 : slab; hqos_field1 : slab; hqos_field2 : slab; hqos_tc_table : gmap Z Z
}.
#[export] Instance zeroed_wt : Zeroed dpdk_device_hqos_per_worker_thread_t :=
  mk_wt (mk_slab 0 0 0) (mk_slab 0 0 0) (mk_slab 0 0 0) ∅.
Implicit Types (wt : dpdk_device_hqos_per_worker_thread_t) (wts : gmap Z dpdk_device_hqos_per_worker_thread_t) (s : slab).

Definition BITFIELD mem (byte_array : Z) s : Z :=
  Z.shiftr (Z.land (bswap64 (le_at mem (byte_array + slabpos s) 8)) (slabmask s)) (slabshr s).

Definition RTE_SCHED_PORT_HIERARCHY (subport pipe traffic_class queue color : Z) : Z :=
  Z.lor (Z.lor (Z.lor (Z.lor (Z.land queue 0x3) (Z.shiftl (Z.land traffic_class 0x3) 2)) (Z.shiftl (Z.land color 0x3) 4))
    (Z.shiftl (Z.land subport 0xFFFF) 16)) (Z.shiftl (Z.land pipe 0xFFFFFFFF) 32).

(** [hash.sched] of a packet. *)
Record sched_meta := mk_meta { sched_lo : Z; sched_hi : Z }.
#[export] Instance zeroed_meta : Zeroed sched_meta := mk_meta 0 0.

Section metadata.
Context (mem : gmap Z Z) (mbufs : gmap Z rte_mbuf) (wt : dpdk_device_hqos_per_worker_thread_t).

Definition rte_pktmbuf_mtod (pkt : Z) : Z := buf_addr mbufs.[pkt] + data_off mbufs.[pkt].

Definition pkt_sched (pkt : Z) : Z :=
  let pkt_data := rte_pktmbuf_mtod pkt in
  let pkt_subport := BITFIELD mem pkt_data (hqos_field0 wt) in
  let pkt_pipe := BITFIELD mem pkt_data (hqos_field1 wt) in
  let pkt_dscp := BITFIELD mem pkt_data (hqos_field2 wt) in
  let pkt_tc := Z.shiftr (hqos_tc_table wt).[Z.land pkt_dscp 0x3F] 2 in
  let pkt_tc_q := Z.land (hqos_tc_table wt).[Z.land pkt_dscp 0x3F] 0x3 in
  RTE_SCHED_PORT_HIERARCHY pkt_subport pkt_pipe pkt_tc pkt_tc_q 0.
Definition set_sched (pkt sched : Z) (meta : gmap Z sched_meta) : gmap Z sched_meta :=
  meta.[pkt <- mk_meta (Z.land sched 0xFFFFFFFF) (Z.shiftr sched 32)].

(** Four packets at a time, then one at a time. *)
Fixpoint dpdk_hqos_metadata_set from (meta : gmap Z sched_meta) : gmap Z sched_meta :=
  match from with
  | pkt0 :: ((pkt1 :: pkt2 :: pkt3 :: from4) as from1) =>
      let sched0 := pkt_sched pkt0 in
      let sched1 := pkt_sched pkt1 in
      let sched2 := pkt_sched pkt2 in
      let sched3 := pkt_sched pkt3 in
      dpdk_hqos_metadata_set from4 (set_sched pkt3 sched3 (set_sched pkt2 sched2 (set_sched pkt1 sched1 (set_sched pkt0 sched0 meta))))
  | pkt :: from1 => dpdk_hqos_metadata_set from1 (set_sched pkt (pkt_sched pkt) meta)
  | [] => meta
  end.
End metadata.

(** ** Configuration *)

Record dpdk_device_config_hqos_t := mk_hqos_conf {
  burst_enq : Z; burst_deq : Z;
  pktfield0 : Z * Z; pktfield1 : Z * Z; pktfield2 : Z * Z;
  tc_table : gmap Z Z;
  n_subports_per_port : Z; n_pipes_per_subport : Z
}.
Implicit Types (conf : dpdk_device_config_hqos_t).

(** [hqos_params_default]; a field is its position and its mask. *)
Definition hqos_params_default : dpdk_device_config_hqos_t :=
  mk_hqos_conf 256 220 (0, 0) (40, 0x0000000FFF000000) (8, 0x00000000000000FC)
    (list_to_map (imap (fun i (e : Z) => (Z.of_nat i, e)) (concat (repeat (seqZ 0 16) 4)))) 1 4096.

(** What [dpdk_port_setup_hqos] keeps of a device for its thread: [pkts_enq] are the
    first [pkts_enq_len] entries of the array, [pkts_enq_size] the length it is allocated
    with, [n_swq] the number of rings. *)
Record dpdk_device_hqos_per_hqos_thread_t := mk_ht {
  pkts_enq : list Z; swq_pos : Z; flush_count : Z;
  hqos_burst_enq : Z; hqos_burst_deq : Z; n_swq : Z; pkts_enq_size : Z
}.
Implicit Types (h : dpdk_device_hqos_per_hqos_thread_t).

Definition setup_slab (f : Z * Z) : slab := mk_slab f.1 f.2 (count_trailing_zeros f.2).
Definition setup_worker conf : dpdk_device_hqos_per_worker_thread_t :=
  mk_wt (setup_slab (pktfield0 conf)) (setup_slab (pktfield1 conf)) (setup_slab (pktfield2 conf)) (tc_table conf).
Definition worker_tid (worker_thread_first i : Z) : Z := if decide (i <> 0) then worker_thread_first + (i - 1) else i.

(** [granted]: DPDK makes the rings and takes the parameters of port, subports and
    pipes; [None] is the error. *)
Definition dpdk_port_setup_hqos (granted : bool) (worker_thread_first worker_thread_count : Z) conf :
    option (gmap Z dpdk_device_hqos_per_worker_thread_t * dpdk_device_hqos_per_hqos_thread_t) :=
  if (granted : bool) then
    let wts := foldl (fun wts i => wts.[worker_tid worker_thread_first i <- setup_worker conf]) ∅ (seqZ 0 (worker_thread_count + 1)) in
    Some (wts, mk_ht [] 0 0 (burst_enq conf) (burst_deq conf) (worker_thread_count + 1) (u32 (2 * burst_enq conf - 1) + 1))
  else None.

Definition RTE_SCHED_TRAFFIC_CLASSES_PER_PIPE : Z := 4.
Definition RTE_SCHED_QUEUES_PER_TRAFFIC_CLASS : Z := 4.

(** The command's numbers are [2 ^ 32 - 1] where they are not given; [named]: an
    interface was.  The answer is whether the command succeeded. *)
Definition set_dpdk_if_hqos_tctbl (workers : option (Z * Z)) (named : bool) (entry tc queue : Z) wts :
    gmap Z dpdk_device_hqos_per_worker_thread_t * bool :=
  if negb named then (wts, false)
  else if decide (entry >= 64) then (wts, false)
  else if decide (tc >= RTE_SCHED_TRAFFIC_CLASSES_PER_PIPE) then (wts, false)
  else if decide (queue >= RTE_SCHED_QUEUES_PER_TRAFFIC_CLASS) then (wts, false)
  else match workers with
       | None => (wts, false)
       | Some (worker_thread_first, worker_thread_count) =>
           let val := u32 (tc * RTE_SCHED_QUEUES_PER_TRAFFIC_CLASS + queue) in
           (foldl (fun wts i =>
              let wt := wts.[worker_thread_first + i] in
              wts.[worker_thread_first + i <- mk_wt (hqos_field0 wt) (hqos_field1 wt) (hqos_field2 wt) (hqos_tc_table wt).[entry <- val]])
              wts (seqZ 0 worker_thread_count), true)
       end.

(** The entry of the device in the configuration.  [pci]: the device has a PCI address,
    and what the table of addresses has for it; without an address the pointer still
    holds what was found for the workers before, and its word is taken as the index. *)
Definition find_devconf (workers_word : Z) (pci : option (option Z)) (dev_confs : gmap Z dpdk_device_config_hqos_t)
    (default_devconf : dpdk_device_config_hqos_t) : option dpdk_device_config_hqos_t :=
  let p := match pci with Some p => p | None => Some workers_word end in
  match p with Some i => dev_confs !! i | None => Some default_devconf end.

Definition field_size conf (id : Z) : Z :=
  if decide (id = 0) then n_subports_per_port conf else if decide (id = 1) then n_pipes_per_subport conf else 64.
Definition set_slab (id : Z) s wt : dpdk_device_hqos_per_worker_thread_t :=
  if decide (id = 0) then mk_wt s (hqos_field1 wt) (hqos_field2 wt) (hqos_tc_table wt)
  else if decide (id = 1) then mk_wt (hqos_field0 wt) s (hqos_field2 wt) (hqos_tc_table wt)
  else mk_wt (hqos_field0 wt) (hqos_field1 wt) s (hqos_tc_table wt).

(** [conf]: the device's entry, found by [find_devconf]; [enabled] its [hqos_enabled]. *)
Definition set_dpdk_if_hqos_pktfield (workers : option (Z * Z)) (named enabled : bool) conf (id offset mask : Z) wts :
    gmap Z dpdk_device_hqos_per_worker_thread_t * bool :=
  match workers with
  | None => (wts, false)
  | Some (worker_thread_first, worker_thread_count) =>
      if negb named then (wts, false)
      else if negb enabled then (wts, true)
      else if decide (id >= 3) then (wts, false)
      else if decide (dpdk_hqos_validate_mask mask (field_size conf id) <> 0) then (wts, false)
      else (foldl (fun wts i => wts.[worker_thread_first + i <- set_slab id (mk_slab offset mask (count_trailing_zeros mask)) wts.[worker_thread_first + i]])
              wts (seqZ 0 worker_thread_count), true)
  end.

(** ** The thread *)

Definition HQOS_FLUSH_COUNT_THRESHOLD : Z := 100000.

(** The calls of DPDK: a burst taken from a ring, one handed to the scheduler, one
    taken from it, one offered to the card with the number it accepted, a packet freed. *)
Inductive rte_call :=
| rte_ring_sc_dequeue_burst (swq : Z) (pkts : list Z)
| rte_sched_port_enqueue (pkts : list Z)
| rte_sched_port_dequeue (pkts : list Z)
| rte_eth_tx_burst (pkts : list Z) (n : Z)
| rte_pktmbuf_free (pkt : Z).

Section visit.
(** What each ring has for the thread. *)
Context (ring : Z -> list Z).

(** The [for] loop over the rings; [out] is done with a full burst. *)
Fixpoint swq_loop (out : list Z -> list rte_call) (n : nat) h : dpdk_device_hqos_per_hqos_thread_t * list rte_call :=
  match n with
  | O => (h, [])
  | S n =>
      let swq := swq_pos h in
      let pkts := pkts_enq h ++ ring swq in
      let swq_pos := if decide (swq + 1 >= n_swq h) then 0 else swq + 1 in
      let took := rte_ring_sc_dequeue_burst swq (ring swq) in
      if decide (Z.of_nat (length pkts) >= hqos_burst_enq h)
      then (mk_ht [] swq_pos 0 (hqos_burst_enq h) (hqos_burst_deq h) (n_swq h) (pkts_enq_size h), took :: out pkts)
      else let '(h, calls) := swq_loop out n (mk_ht pkts swq_pos (flush_count h) (hqos_burst_enq h) (hqos_burst_deq h) (n_swq h) (pkts_enq_size h)) in
           (h, took :: calls)
  end.

Definition flush_step h : dpdk_device_hqos_per_hqos_thread_t * list rte_call :=
  if decide (pkts_enq h <> []) then
    let n := u32 (flush_count h + 1) in
    if decide (n = HQOS_FLUSH_COUNT_THRESHOLD)
    then (mk_ht [] (swq_pos h) 0 (hqos_burst_enq h) (hqos_burst_deq h) (n_swq h) (pkts_enq_size h), [rte_sched_port_enqueue (pkts_enq h)])
    else (mk_ht (pkts_enq h) (swq_pos h) n (hqos_burst_enq h) (hqos_burst_deq h) (n_swq h) (pkts_enq_size h), [])
  else (h, []).

(** The loop that sends what the scheduler let out; [None] while the card has not
    accepted all of it. *)
Fixpoint send_loop (pkts : list Z) (accepts : list Z) : option (list rte_call) :=
  match pkts, accepts with
  | [], _ => Some []
  | _, [] => None
  | _, n :: accepts => let? calls := send_loop (drop (Z.to_nat n) pkts) accepts in Some (rte_eth_tx_burst pkts n :: calls)
  end.

(** One device, once: [sched_out] is what the scheduler lets out. *)
Definition hqos_visit (sched_out accepts : list Z) h : option (dpdk_device_hqos_per_hqos_thread_t * list rte_call) :=
  let '(h, calls1) := swq_loop (fun pkts => [rte_sched_port_enqueue pkts]) (Z.to_nat (n_swq h)) h in
  let '(h, calls2) := flush_step h in
  let? calls3 := send_loop sched_out accepts in
  Some (h, calls1 ++ calls2 ++ rte_sched_port_dequeue sched_out :: calls3).

(** The same with [DPDK_HQOS_DBG_BYPASS]: a full burst goes to the card, which accepts
    [n] packets; the others are freed. *)
Definition bypass_out (n : Z) (pkts : list Z) : list rte_call :=
  rte_eth_tx_burst pkts n :: map rte_pktmbuf_free (drop (Z.to_nat n) pkts).
Definition bypass_visit (n : Z) h : dpdk_device_hqos_per_hqos_thread_t * list rte_call :=
  let '(h, calls1) := swq_loop (bypass_out n) (Z.to_nat (n_swq h)) h in
  let '(h, calls2) := flush_step h in
  (h, calls1 ++ calls2).
End visit.

(** The devices of a thread take turns. *)
Record hqos_thread := mk_thread { dev_pos : Z; device_state : gmap Z dpdk_device_hqos_per_hqos_thread_t }.
#[export] Instance zeroed_ht : Zeroed dpdk_device_hqos_per_hqos_thread_t := mk_ht [] 0 0 0 0 0 0.

Definition dpdk_hqos_thread_internal (ring : Z -> Z -> list Z) (sched_out accepts : list Z) (devices : list Z) (t : hqos_thread) :
    option (hqos_thread * list rte_call) :=
  let n_devs := Z.of_nat (length devices) in
  if decide (n_devs = 0) then Some (mk_thread 0 (device_state t), [])
  else
    let dev_pos := if decide (dev_pos t >= n_devs) then 0 else dev_pos t in
    let? dev := devices !! Z.to_nat dev_pos in
    let? (h, calls) := hqos_visit (ring dev) sched_out accepts (device_state t).[dev] in
    Some (mk_thread (dev_pos + 1) (device_state t).[dev <- h], calls).
End hqos.
