(* ===== verification/HqosSpec.v ===== *)
(** * Every packet gets a queue that exists, and leaves

    A mask the configuration accepts selects a number below the size it was checked
    against, so the marks of a packet name a subport, a pipe, a class and a queue of the
    scheduler; the thread neither loses nor repeats a packet, keeps within its array, and
    hands on what it holds after a bounded number of rounds. *)
From S2P Require Import Prelude Wdata PktIo Hqos.

Implicit Types (from : list Z) (mem : gmap Z Z) (wt : dpdk_device_hqos_per_worker_thread_t) (h : dpdk_device_hqos_per_hqos_thread_t).

(** ** Masks *)

Lemma pos_ctz_split p : exists q, Zpos p = Zpos q * 2 ^ pos_ctz p /\ 0 <= pos_ctz p /\ pos_popcount q = pos_popcount p /\
  Z.log2 (Zpos p) = Z.log2 (Zpos q) + pos_ctz p.
Proof.
  induction p as [p IH|p IH|]; cbn [pos_ctz]; [exists p~1%positive; rewrite Z.add_0_r; change (2 ^ 0) with 1; rewrite Z.mul_1_r; split_and!; done| |
    exists 1%positive; done].
  destruct IH as (q & E & H0 & Hp & Hl). exists q. split; [|split; [lia|split; [done|]]].
  - rewrite Z.pow_add_r by lia. rewrite Pos2Z.inj_xO. lia.
  - rewrite Pos2Z.inj_xO, Z.log2_double by lia. lia.
Qed.

(** As many one bits as there are bits: a number of the form [2 ^ c - 1]. *)
Lemma popcount_full p : pos_popcount p <= Z.log2 (Zpos p) + 1 /\ 1 <= pos_popcount p /\
  (pos_popcount p = Z.log2 (Zpos p) + 1 -> Zpos p = 2 ^ pos_popcount p - 1).
Proof.
  induction p as [p (IH1 & IH2 & IH3)|p (IH1 & IH2 & IH3)|]; cbn [pos_popcount].
  - rewrite Pos2Z.inj_xI, Z.log2_succ_double by lia. split; [lia|]. split; [lia|]. intros E. rewrite IH3 by lia.
    rewrite Z.pow_add_r by lia. lia.
  - rewrite Pos2Z.inj_xO, Z.log2_double by lia. lia.
  - done.
Qed.

Lemma popcount_bound k : 0 <= k -> 0 <= popcount k /\ 2 ^ popcount k <= k + 1.
Proof.
  destruct k as [|p|p]; cbn [popcount]; [done| |lia]. intros _. induction p as [p IH|p IH|]; cbn [pos_popcount]; [| |done].
  - destruct IH as [H0 IH]. split; [lia|]. rewrite Z.pow_add_r, Pos2Z.inj_xI by lia. lia.
  - destruct IH as [H0 IH]. split; [lia|]. rewrite Pos2Z.inj_xO. pose proof (Pos2Z.is_pos p). etransitivity; [exact IH|]. lia.
Qed.

Section hqos.
Context (zero_count : Z).

(** An accepted mask: [c] bits in a row from bit [k], few enough for [n]. *)
Lemma validated_mask mask n : 0 <= mask < 2 ^ 64 -> 0 <= n < 2 ^ 32 -> dpdk_hqos_validate_mask zero_count mask n = 0 ->
  exists c k, 0 <= c /\ 0 <= k /\ mask = (2 ^ c - 1) * 2 ^ k /\ 2 ^ c <= n /\ (mask <> 0 -> k = count_trailing_zeros zero_count mask).
Proof.
  intros Hm Hn. unfold dpdk_hqos_validate_mask. case_decide as H0; [done|]. case_decide as H1.
  { intros _. destruct H1 as [-> ->]. exists 0, 0. done. }
  case_decide as H2; [done|]. case_decide as H3; [done|]. case_decide as H4; [done|]. intros _.
  destruct mask as [|p|p]; [lia| |lia]. cbn [count_trailing_zeros count_leading_zeros popcount] in *.
  destruct (pos_ctz_split p) as (q & E & Hk & Hp & Hl). destruct (popcount_full q) as (_ & Hq1 & Hfull).
  exists (pos_popcount q), (pos_ctz p). split; [lia|]. split; [done|]. split; [rewrite <- Hfull by lia; exact E|].
  split; [|done]. destruct (popcount_bound (n - 1)) as [_ Hb]; [lia|]. replace (u32 (n - 1)) with (n - 1) in H4 by (symmetry; apply wrap_small; lia).
  rewrite Hp. replace (pos_popcount p) with (popcount (n - 1)) by lia. lia.
Qed.

(** The value of a field is the number those bits hold. *)
Lemma masked_value v c k : 0 <= v -> 0 <= c -> 0 <= k -> Z.shiftr (Z.land v ((2 ^ c - 1) * 2 ^ k)) k = Z.shiftr v k mod 2 ^ c.
Proof.
  intros Hv Hc Hk. rewrite <- Z.shiftl_mul_pow2, Z.shiftr_land, Z.shiftr_shiftl_l, Z.sub_diag, Z.shiftl_0_r by lia. by apply wrap_land.
Qed.

Definition field_ok (n : Z) (s : slab) : Prop :=
  0 <= slabmask s < 2 ^ 64 /\ slabshr s = count_trailing_zeros zero_count (slabmask s) /\ dpdk_hqos_validate_mask zero_count (slabmask s) n = 0.

Lemma bswap64_nonneg z : 0 <= bswap64 z.
Proof.
  unfold bswap64. pose proof (bswap32_range (Z.land z (2 ^ 32 - 1))). pose proof (bswap32_range (Z.land (Z.shiftr z 32) (2 ^ 32 - 1))).
  rewrite lor_shift by lia. lia.
Qed.

Lemma field_below mem data n s : 0 <= n < 2 ^ 32 -> field_ok n s -> 0 <= BITFIELD mem data s < n.
Proof.
  intros Hn (Hm & Hs & Hv). destruct (validated_mask _ _ Hm Hn Hv) as (c & k & Hc & Hk & E & Hle & Hctz). unfold BITFIELD.
  pose proof (bswap64_nonneg (le_at mem (data + slabpos s) 8)) as Hb. destruct (decide (slabmask s = 0)) as [E0|Hne].
  - rewrite E0, Z.land_0_r, Z.shiftr_0_l. pose proof (Z.pow_pos_nonneg 2 c). lia.
  - rewrite Hs, <- Hctz by done. rewrite E, masked_value by done. pose proof (Z.mod_pos_bound (Z.shiftr (bswap64 (le_at mem (data + slabpos s) 8)) k) (2 ^ c)). lia.
Qed.

(** ** The marks of a packet *)

(** What a reader of the marks finds in them. *)
Definition subport_of (m : sched_meta) : Z := Z.land (Z.shiftr (sched_lo m) 16) 0xFFFF.
Definition pipe_of (m : sched_meta) : Z := sched_hi m.
Definition class_of (m : sched_meta) : Z := Z.land (Z.shiftr (sched_lo m) 2) 0x3.
Definition queue_of (m : sched_meta) : Z := Z.land (sched_lo m) 0x3.

Lemma hierarchy_sum subport pipe tc queue : RTE_SCHED_PORT_HIERARCHY subport pipe tc queue 0 =
  queue mod 4 + 4 * (tc mod 4) + 2 ^ 16 * (subport mod 2 ^ 16) + 2 ^ 32 * (pipe mod 2 ^ 32).
Proof.
  unfold RTE_SCHED_PORT_HIERARCHY. change 0x3 with (2 ^ 2 - 1). change 0xFFFF with (2 ^ 16 - 1). change 0xFFFFFFFF with (2 ^ 32 - 1).
  rewrite !wrap_land by lia. unfold wrap. rewrite Z.mod_0_l, Z.shiftl_0_l, Z.lor_0_r by lia.
  pose proof (Z.mod_pos_bound queue (2 ^ 2)). pose proof (Z.mod_pos_bound tc (2 ^ 2)).
  pose proof (Z.mod_pos_bound subport (2 ^ 16)). pose proof (Z.mod_pos_bound pipe (2 ^ 32)).
  rewrite (Z.lor_comm (queue mod 2 ^ 2)), lor_shift by lia. rewrite (Z.lor_comm _ (Z.shiftl (subport mod 2 ^ 16) 16)), lor_shift by lia.
  rewrite (Z.lor_comm _ (Z.shiftl _ 32)), lor_shift by lia. change (2 ^ 2) with 4. lia.
Qed.

Lemma marks_read subport pipe tc queue lo hi :
  lo = Z.land (RTE_SCHED_PORT_HIERARCHY subport pipe tc queue 0) 0xFFFFFFFF -> hi = Z.shiftr (RTE_SCHED_PORT_HIERARCHY subport pipe tc queue 0) 32 ->
  let m := mk_meta lo hi in
  subport_of m = subport mod 2 ^ 16 /\ pipe_of m = pipe mod 2 ^ 32 /\ class_of m = tc mod 4 /\ queue_of m = queue mod 4.
Proof.
  intros -> ->. unfold subport_of, pipe_of, class_of, queue_of. cbn [sched_lo sched_hi]. rewrite hierarchy_sum.
  change 0x3 with (2 ^ 2 - 1). change 0xFFFF with (2 ^ 16 - 1). change 0xFFFFFFFF with (2 ^ 32 - 1). rewrite !wrap_land by lia. unfold wrap.
  pose proof (Z.mod_pos_bound queue 4). pose proof (Z.mod_pos_bound tc 4). pose proof (Z.mod_pos_bound subport (2 ^ 16)). pose proof (Z.mod_pos_bound pipe (2 ^ 32)).
  set (q := queue mod 4) in *. set (t := tc mod 4) in *. set (s := subport mod 2 ^ 16) in *. set (p := pipe mod 2 ^ 32) in *.
  rewrite !Z.shiftr_div_pow2 by lia.
  assert (El : (q + 4 * t + 2 ^ 16 * s + 2 ^ 32 * p) mod 2 ^ 32 = q + 4 * t + 2 ^ 16 * s).
  { rewrite Z.add_mod, (Z.mul_comm (2 ^ 32)), Z.mod_mul, Z.add_0_r, Z.mod_mod by lia. apply Z.mod_small. lia. }
  rewrite El. split_and!.
  - replace (q + 4 * t + 2 ^ 16 * s) with (q + 4 * t + s * 2 ^ 16) by lia. rewrite Z.div_add, Z.div_small by lia. apply Z.mod_small. lia.
  - replace (q + 4 * t + 2 ^ 16 * s + 2 ^ 32 * p) with (q + 4 * t + 2 ^ 16 * s + p * 2 ^ 32) by lia. rewrite Z.div_add, Z.div_small by lia. lia.
  - replace (q + 4 * t + 2 ^ 16 * s) with (q + (t + 2 ^ 14 * s) * 2 ^ 2) by lia. rewrite Z.div_add, Z.div_small by lia.
    replace (0 + (t + 2 ^ 14 * s)) with (t + (2 ^ 12 * s) * 2 ^ 2) by lia. rewrite Z.mod_add by lia. apply Z.mod_small. lia.
  - replace (q + 4 * t + 2 ^ 16 * s) with (q + (t + 2 ^ 14 * s) * 2 ^ 2) by lia. rewrite Z.mod_add by lia. apply Z.mod_small. lia.
Qed.

(** Marking four packets at a time is marking them one after the other. *)
Lemma metadata_one_by_one mem mbufs wt : forall from meta,
  dpdk_hqos_metadata_set mem mbufs wt from meta = foldl (fun meta pkt => set_sched pkt (pkt_sched mem mbufs wt pkt) meta) meta from.
Proof. fix IH 1. intros [|p0 [|p1 [|p2 [|p3 from]]]] meta; [reflexivity..|]. cbn [dpdk_hqos_metadata_set foldl]. apply IH. Qed.

Lemma marked_packet mem mbufs wt from meta pkt : pkt ∈ from ->
  (dpdk_hqos_metadata_set mem mbufs wt from meta).[pkt] = mk_meta (Z.land (pkt_sched mem mbufs wt pkt) 0xFFFFFFFF) (Z.shiftr (pkt_sched mem mbufs wt pkt) 32).
Proof.
  rewrite metadata_one_by_one. revert meta. induction from as [|p from IH] using rev_ind; intros meta Hin; [by apply elem_of_nil in Hin|].
  rewrite foldl_app. cbn [foldl]. unfold set_sched at 1. rewrite aget_aset. case_decide as E; [by subst|]. apply IH.
  apply elem_of_app in Hin as [Hin|Hin%list_elem_of_singleton]; [done|by subst].
Qed.

Lemma unmarked_packet mem mbufs wt from meta pkt : pkt ∉ from -> (dpdk_hqos_metadata_set mem mbufs wt from meta).[pkt] = meta.[pkt].
Proof.
  rewrite metadata_one_by_one. revert meta. induction from as [|p from IH]; intros meta Hin; [done|]. apply not_elem_of_cons in Hin as [Hne Hin].
  cbn [foldl]. rewrite IH by done. unfold set_sched. by apply aget_aset_ne.
Qed.

(** ** The configuration *)

Definition worker_ok (n_sub n_pipe : Z) wt : Prop :=
  field_ok n_sub (hqos_field0 wt) /\ field_ok n_pipe (hqos_field1 wt) /\ field_ok 64 (hqos_field2 wt) /\
  forall e, 0 <= (hqos_tc_table wt).[e] < 16.
Definition is_worker (worker_thread_first worker_thread_count tid : Z) : Prop :=
  tid = 0 \/ worker_thread_first <= tid < worker_thread_first + worker_thread_count.

(** A configuration whose masks were checked, as the default one's are. *)
Definition conf_ok (conf : dpdk_device_config_hqos_t) : Prop :=
  0 <= n_subports_per_port conf < 2 ^ 32 /\ 0 <= n_pipes_per_subport conf < 2 ^ 32 /\
  worker_ok (n_subports_per_port conf) (n_pipes_per_subport conf) (setup_worker zero_count conf).

(** What the workers know of a device: set up, then changed by commands. *)
Inductive hqos_reach (conf : dpdk_device_config_hqos_t) (first count : Z) : gmap Z dpdk_device_hqos_per_worker_thread_t -> Prop :=
| reach_setup wts h : dpdk_port_setup_hqos zero_count true first count conf = Some (wts, h) -> hqos_reach conf first count wts
| reach_tctbl wts workers named entry tc queue : hqos_reach conf first count wts ->
    0 <= tc < 2 ^ 32 -> 0 <= queue < 2 ^ 32 -> hqos_reach conf first count (set_dpdk_if_hqos_tctbl workers named entry tc queue wts).1
| reach_pktfield wts workers named enabled id offset mask : hqos_reach conf first count wts ->
    0 <= mask < 2 ^ 64 -> 0 <= id -> hqos_reach conf first count (set_dpdk_if_hqos_pktfield zero_count workers named enabled conf id offset mask wts).1.

Lemma foldl_sets (P : dpdk_device_hqos_per_worker_thread_t -> Prop) (key : Z -> Z) f l tid : (forall wt, P wt -> P (f wt)) ->
  forall wts : gmap Z dpdk_device_hqos_per_worker_thread_t, P wts.[tid] -> P (foldl (fun wts i => wts.[key i <- f wts.[key i]]) wts l).[tid].
Proof.
  intros Hf. induction l as [|i l IH]; intros wts Hp; [exact Hp|]. cbn [foldl]. apply IH. rewrite aget_aset. case_decide as E; [|done].
  subst. by apply Hf.
Qed.

Lemma setup_sets (v : dpdk_device_hqos_per_worker_thread_t) (key : Z -> Z) l i : i ∈ l ->
  forall wts : gmap Z dpdk_device_hqos_per_worker_thread_t, (foldl (fun wts i => wts.[key i <- v]) wts l).[key i] = v.
Proof.
  intros Hi. induction l as [|j l IH] using rev_ind; intros wts; [by apply elem_of_nil in Hi|]. rewrite foldl_app. cbn [foldl]. rewrite aget_aset.
  case_decide as E; [done|]. apply IH. apply elem_of_app in Hi as [Hi|Hi%list_elem_of_singleton]; [done|by subst].
Qed.

Lemma worker_is_set first count tid : 0 <= count -> 0 < first -> is_worker first count tid ->
  exists i, i ∈ seqZ 0 (count + 1) /\ worker_tid first i = tid.
Proof.
  intros Hc Hf [->|Ht]; [exists 0; rewrite elem_of_seqZ; split; [lia|done]|]. exists (tid - first + 1). rewrite elem_of_seqZ. split; [lia|].
  unfold worker_tid. rewrite decide_True by lia. lia.
Qed.

Lemma configured_ok conf first count wts : conf_ok conf -> 0 <= count -> 0 < first -> hqos_reach conf first count wts ->
  forall tid, is_worker first count tid -> worker_ok (n_subports_per_port conf) (n_pipes_per_subport conf) wts.[tid].
Proof.
  intros (Hs & Hp & Hok) Hc Hf. induction 1 as [wts h E|wts workers named entry tc queue _ IH Htc Hq|wts workers named enabled id offset mask _ IH Hm Hid];
    intros tid Ht.
  - destruct (worker_is_set first count tid Hc Hf Ht) as (i & Hi & <-). unfold dpdk_port_setup_hqos in E. injection E as <- <-.
    rewrite (setup_sets (setup_worker zero_count conf) (worker_tid first)) by done. exact Hok.
  - unfold set_dpdk_if_hqos_tctbl, RTE_SCHED_TRAFFIC_CLASSES_PER_PIPE, RTE_SCHED_QUEUES_PER_TRAFFIC_CLASS.
    destruct named; [|by apply IH]. repeat (case_decide; [by apply IH|]). destruct workers as [[f n]|]; [|by apply IH]. cbn [negb fst].
    apply (foldl_sets (worker_ok _ _) (fun i => f + i) (fun wt => mk_wt (hqos_field0 wt) (hqos_field1 wt) (hqos_field2 wt) (hqos_tc_table wt).[entry <- u32 (tc * 4 + queue)]));
      [|by apply IH].
    intros wt (F0 & F1 & F2 & F3). split_and!; [done..|]. intros e. cbn [hqos_tc_table]. rewrite aget_aset. case_decide; [|done].
    rewrite wrap_small by lia. lia.
  - unfold set_dpdk_if_hqos_pktfield. destruct workers as [[f n]|]; [|by apply IH]. destruct named; [|by apply IH]. destruct enabled; [|by apply IH].
    cbn [negb]. case_decide as Hi; [by apply IH|]. case_decide as Hv; [by apply IH|]. cbn [fst].
    apply (foldl_sets (worker_ok _ _) (fun i => f + i) (set_slab id (mk_slab offset mask (count_trailing_zeros zero_count mask)))); [|by apply IH].
    assert (Hfield : field_ok (field_size conf id) (mk_slab offset mask (count_trailing_zeros zero_count mask))).
    { split; [done|]. split; [done|]. cbn [slabmask]. lia. }
    intros wt (F0 & F1 & F2 & F3). unfold set_slab, field_size in *. repeat case_decide; split_and!; done.
Qed.

(** C21: Whatever commands were given, every packet a worker marks names a subport, a pipe,
    a class and a queue that the scheduler of the device has: the subport (its low 16 bits)
    and the pipe of the fields at the configured offsets from the packet's data, whether
    the packet reaches that far or not, and the class and queue the table has for the
    third field; and no other packet is marked. *)
Theorem packets_get_existing_queue conf first count wts tid mem mbufs from meta pkt :
  conf_ok conf -> 0 <= count -> 0 < first -> hqos_reach conf first count wts -> is_worker first count tid -> pkt ∈ from ->
  let wt := wts.[tid] in let data := rte_pktmbuf_mtod mbufs pkt in
  let meta' := dpdk_hqos_metadata_set mem mbufs wt from meta in let m := meta'.[pkt] in
  subport_of m < n_subports_per_port conf /\ pipe_of m < n_pipes_per_subport conf /\
  class_of m < RTE_SCHED_TRAFFIC_CLASSES_PER_PIPE /\ queue_of m < RTE_SCHED_QUEUES_PER_TRAFFIC_CLASS /\
  subport_of m = u16 (BITFIELD mem data (hqos_field0 wt)) /\ pipe_of m = BITFIELD mem data (hqos_field1 wt) /\
  0 <= BITFIELD mem data (hqos_field2 wt) < 64 /\
  RTE_SCHED_QUEUES_PER_TRAFFIC_CLASS * class_of m + queue_of m = (hqos_tc_table wt).[BITFIELD mem data (hqos_field2 wt)] /\
  forall pkt', pkt' ∉ from -> meta'.[pkt'] = meta.[pkt'].
Proof.
  intros Hconf Hc Hf Hr Ht Hin. cbv zeta. destruct (configured_ok conf first count wts Hconf Hc Hf Hr tid Ht) as (H0 & H1 & H2 & H3).
  destruct Hconf as (Hs & Hp & _). rewrite marked_packet by done. set (wt := wts.[tid]) in *. set (data := rte_pktmbuf_mtod mbufs pkt).
  pose proof (field_below mem data _ _ Hs H0) as B0. pose proof (field_below mem data _ _ Hp H1) as B1. pose proof (field_below mem data 64 _ ltac:(lia) H2) as B2.
  destruct (marks_read (BITFIELD mem data (hqos_field0 wt)) (BITFIELD mem data (hqos_field1 wt))
    (Z.shiftr (hqos_tc_table wt).[Z.land (BITFIELD mem data (hqos_field2 wt)) 0x3F] 2)
    (Z.land (hqos_tc_table wt).[Z.land (BITFIELD mem data (hqos_field2 wt)) 0x3F] 0x3) _ _ eq_refl eq_refl) as (E1 & E2 & E3 & E4).
  unfold pkt_sched. fold data. rewrite E1, E2, E3, E4. unfold RTE_SCHED_TRAFFIC_CLASSES_PER_PIPE, RTE_SCHED_QUEUES_PER_TRAFFIC_CLASS.
  change 0x3F with (2 ^ 6 - 1). change 0x3 with (2 ^ 2 - 1). rewrite !wrap_land by lia. rewrite (wrap_small 6) by lia. unfold wrap.
  set (d := BITFIELD mem data (hqos_field2 wt)) in *. pose proof (H3 d) as Hd. set (e := (hqos_tc_table wt).[d]) in *.
  rewrite (Z.mod_small (BITFIELD mem data (hqos_field1 wt))) by lia. rewrite Z.shiftr_div_pow2 by lia. change (2 ^ 2) with 4.
  pose proof (Z.mod_le (BITFIELD mem data (hqos_field0 wt)) (2 ^ 16)). pose proof (Z.mod_pos_bound (e / 4) 4). pose proof (Z.mod_pos_bound (e mod 4) 4).
  rewrite Z.mod_mod by lia. rewrite (Z.mod_small (e / 4)) by (split; [apply Z.div_pos|apply Z.div_lt_upper_bound]; lia).
  pose proof (Z.div_mod e 4). pose proof (Z.mod_pos_bound e 4). split_and!; first [done|lia|intros; by apply unmarked_packet].
Qed.
End hqos.

(** ** The default configuration *)

Lemma default_conf_ok zero_count : conf_ok zero_count hqos_params_default.
Proof.
  split; [done|]. split; [done|]. split; [done|]. split; [done|]. split; [done|]. intros e.
  change (hqos_tc_table (setup_worker zero_count hqos_params_default)) with (tc_table hqos_params_default). unfold aget.
  destruct (tc_table hqos_params_default !! e) as [v|] eqn:E; [|done]. apply elem_of_list_to_map_2 in E.
  assert (Hall : forallb (fun p : Z * Z => (0 <=? p.2) && (p.2 <? 16)) (imap (fun i (e : Z) => (Z.of_nat i, e)) (concat (repeat (seqZ 0 16) 4))) = true) by (vm_compute; reflexivity).
  rewrite forallb_forall in Hall. apply list_elem_of_In in E. specialize (Hall _ E). cbn in Hall. cbn. lia.
Qed.

(** A worker after two commands marks a packet whose bytes say pipe 5 and DSCP 9. *)
Definition demo_wts : gmap Z dpdk_device_hqos_per_worker_thread_t :=
  (set_dpdk_if_hqos_pktfield 64 (Some (1, 2)) true true hqos_params_default 1 2 0xFFF
    (set_dpdk_if_hqos_tctbl (Some (1, 2)) true 9 3 2
      (default ((∅ : gmap Z dpdk_device_hqos_per_worker_thread_t), mk_ht [] 0 0 0 0 0 0) (dpdk_port_setup_hqos 64 true 1 2 hqos_params_default)).1).1).1.
Definition demo_bytes : gmap Z Z := poke ∅ 1000 [0; 0; 0; 0; 0; 0; 0; 0; 0; 5; 0; 0; 0; 0; 0; 36].
Definition demo_mbufs : gmap Z rte_mbuf := ∅.[7 <- mk_mbuf 872 128 60 60 1 None].

Lemma demo_wts_reach : hqos_reach 64 hqos_params_default 1 2 demo_wts.
Proof.
  unfold demo_wts. apply reach_pktfield; [|lia|lia]. apply reach_tctbl; [|lia|lia]. eapply reach_setup. reflexivity.
Qed.

Lemma packets_get_existing_queue_witness :
  let m := (dpdk_hqos_metadata_set demo_bytes demo_mbufs demo_wts.[2] [7] ∅).[7] in
  pipe_of m = 5 /\ class_of m = 3 /\ queue_of m = 2 /\ subport_of m < 1 /\ pipe_of m < 4096.
Proof.
  destruct (packets_get_existing_queue 64 hqos_params_default 1 2 demo_wts 2 demo_bytes demo_mbufs [7] ∅ 7 (default_conf_ok 64)
    ltac:(lia) ltac:(lia) demo_wts_reach ltac:(right; lia) (list_elem_of_here 7 [])) as (H1 & H2 & _).
  split; [vm_compute; reflexivity|]. split; [vm_compute; reflexivity|]. split; [vm_compute; reflexivity|]. split; [exact H1|exact H2].
Defined.
