(* ===== verification/HqosThread.v ===== *)
(** * The thread that schedules keeps every packet

    The calls a thread makes of DPDK, over any number of rounds: what it takes from the
    rings it hands to the scheduler, in order and once; its array is large enough; a
    packet it holds is handed on after at most [HQOS_FLUSH_COUNT_THRESHOLD] rounds, and
    every ring gets its turn. *)
From S2P Require Import Prelude Hqos.

Implicit Types (h : dpdk_device_hqos_per_hqos_thread_t) (calls : list rte_call) (ring : Z -> list Z).

(** What was taken from the rings, and what was handed to the scheduler. *)
Fixpoint taken calls : list Z :=
  match calls with [] => [] | rte_ring_sc_dequeue_burst _ p :: calls => p ++ taken calls | _ :: calls => taken calls end.
Fixpoint handed calls : list Z :=
  match calls with [] => [] | rte_sched_port_enqueue p :: calls => p ++ handed calls | _ :: calls => handed calls end.

(** The packets held after the calls, when [held] were before; [None] when a burst was
    written past the [size] entries of the array. *)
Fixpoint held_after (size held : Z) calls : option Z :=
  match calls with
  | [] => Some held
  | rte_ring_sc_dequeue_burst _ p :: calls =>
      if decide (held + Z.of_nat (length p) <= size) then held_after size (held + Z.of_nat (length p)) calls else None
  | rte_sched_port_enqueue _ :: calls => held_after size 0 calls
  | _ :: calls => held_after size held calls
  end.

Lemma taken_app c1 c2 : taken (c1 ++ c2) = taken c1 ++ taken c2.
Proof. induction c1 as [|[] c1 IH]; cbn; rewrite ?IH, ?app_assoc; done. Qed.
Lemma handed_app c1 c2 : handed (c1 ++ c2) = handed c1 ++ handed c2.
Proof. induction c1 as [|[] c1 IH]; cbn; rewrite ?IH, ?app_assoc; done. Qed.
Lemma held_after_app size c1 c2 : forall held, held_after size held (c1 ++ c2) = (let? held := held_after size held c1 in held_after size held c2).
Proof. induction c1 as [|[] c1 IH]; intros held; cbn [app held_after obind]; rewrite ?IH; try done. by case_decide. Qed.

(** The state of a device between two rounds. *)
Definition ht_ok h : Prop :=
  Z.of_nat (length (pkts_enq h)) < hqos_burst_enq h /\ 0 <= flush_count h < HQOS_FLUSH_COUNT_THRESHOLD /\ 0 <= swq_pos h < n_swq h.
Definition same_device h h' : Prop := hqos_burst_enq h' = hqos_burst_enq h /\ n_swq h' = n_swq h /\ pkts_enq_size h' = pkts_enq_size h.

(** From [h] by [calls] to [h']: nothing lost, nothing twice, and no write past an array of
    two bursts. *)
Definition accounts h h' calls : Prop :=
  ht_ok h' /\ same_device h h' /\ pkts_enq h ++ taken calls = handed calls ++ pkts_enq h' /\
  (2 * hqos_burst_enq h <= pkts_enq_size h ->
   held_after (pkts_enq_size h) (Z.of_nat (length (pkts_enq h))) calls = Some (Z.of_nat (length (pkts_enq h')))).

Lemma accounts_app h0 h1 h2 c1 c2 : accounts h0 h1 c1 -> accounts h1 h2 c2 -> accounts h0 h2 (c1 ++ c2).
Proof.
  intros (_ & (B1 & N1 & S1) & E1 & A1) (O2 & (B2 & N2 & S2) & E2 & A2). split; [done|]. split; [split_and!; congruence|]. split.
  - rewrite taken_app, handed_app, app_assoc, E1, <- !app_assoc, E2. done.
  - intros Hsz. rewrite held_after_app, A1 by done. cbn [obind]. rewrite <- S1. apply A2. by rewrite S1, B1.
Qed.
Lemma accounts_refl h : ht_ok h -> accounts h h [].
Proof. intros H. split; [done|]. split; [done|]. cbn. by rewrite app_nil_r. Qed.

Definition enqueue_out (pkts : list Z) : list rte_call := [rte_sched_port_enqueue pkts].

(** ** A round *)

Lemma swq_loop_accounts ring n : forall h, (forall q, Z.of_nat (length (ring q)) <= hqos_burst_enq h) -> ht_ok h ->
  accounts h (swq_loop ring enqueue_out n h).1 (swq_loop ring enqueue_out n h).2.
Proof.
  induction n as [|n IH]; intros h Hr Hok; cbn [swq_loop]; [by apply accounts_refl|].
  destruct Hok as (Hl & Hf & Hp). pose proof (Hr (swq_pos h)) as Hq. set (pos := if decide (swq_pos h + 1 >= n_swq h) then 0 else swq_pos h + 1).
  assert (Hpos : 0 <= pos < n_swq h) by (unfold pos; case_decide; lia). pose proof (length_app (pkts_enq h) (ring (swq_pos h))) as Hla.
  cbv zeta. case_decide as Hfull.
  - cbn [fst snd]. split; [|split; [done|split]].
    + unfold ht_ok, HQOS_FLUSH_COUNT_THRESHOLD. cbn. lia.
    + cbn. by rewrite !app_nil_r.
    + intros Hsz. cbn [held_after enqueue_out]. rewrite decide_True by lia. done.
  - set (h1 := mk_ht (pkts_enq h ++ ring (swq_pos h)) pos (flush_count h) (hqos_burst_enq h) (hqos_burst_deq h) (n_swq h) (pkts_enq_size h)).
    specialize (IH h1 Hr). destruct (swq_loop ring enqueue_out n h1) as [h2 calls]. cbn [fst snd] in *.
    apply (accounts_app h h1 h2 [rte_ring_sc_dequeue_burst (swq_pos h) (ring (swq_pos h))]); [|apply IH; unfold ht_ok; cbn; lia].
    split; [unfold ht_ok; cbn; lia|]. split; [done|]. split; [cbn; by rewrite app_nil_r|]. intros Hsz. cbn [held_after]. rewrite decide_True by lia.
    f_equal. unfold h1. cbn [pkts_enq]. lia.
Qed.

Lemma flush_accounts h : ht_ok h -> accounts h (flush_step h).1 (flush_step h).2.
Proof.
  intros (Hl & Hf & Hp). unfold flush_step. case_decide as Hne; [|by apply accounts_refl]. cbv zeta.
  assert (E : u32 (flush_count h + 1) = flush_count h + 1) by (apply wrap_small; unfold HQOS_FLUSH_COUNT_THRESHOLD in Hf; lia).
  rewrite E. case_decide as Hthr; (split; [unfold ht_ok, HQOS_FLUSH_COUNT_THRESHOLD in *; cbn; lia|]); (split; [done|]); cbn; by rewrite ?app_nil_r.
Qed.

Lemma send_loop_quiet pkts accepts calls : send_loop pkts accepts = Some calls ->
  taken calls = [] /\ handed calls = [] /\ forall size held, held_after size held calls = Some held.
Proof.
  revert pkts calls. induction accepts as [|n accepts IH]; intros [|p pkts] calls E; cbn [send_loop] in E; try (injection E as <-; done); [done|].
  apply obind_Some in E as (cs & E & [= <-]). apply IH in E. done.
Qed.

(** A round of the thread at a device. *)
Record visit := mk_visit { v_ring : Z -> list Z; v_out : list Z; v_accepts : list Z }.
Definition do_visit (v : visit) h : option (dpdk_device_hqos_per_hqos_thread_t * list rte_call) := hqos_visit (v_ring v) (v_out v) (v_accepts v) h.
(** The rings give at most a burst, and the card has accepted what was sent. *)
Definition visit_ok (burst : Z) (v : visit) : Prop :=
  (forall q, Z.of_nat (length (v_ring v q)) <= burst) /\ exists calls, send_loop (v_out v) (v_accepts v) = Some calls.

(** What one round does: the bookkeeping, and the packets held before it are handed on
    or still held with one more round on the count. *)
Lemma visit_spec v h : ht_ok h -> visit_ok (hqos_burst_enq h) v -> exists h' calls, do_visit v h = Some (h', calls) /\ accounts h h' calls /\
  (pkts_enq h <> [] -> (exists more, rte_sched_port_enqueue (pkts_enq h ++ more) ∈ calls) \/
     (exists more, pkts_enq h' = pkts_enq h ++ more) /\ flush_count h' = flush_count h + 1).
Proof.
  intros Hok (Hr & calls3 & E3). unfold do_visit, hqos_visit. change (fun pkts => [rte_sched_port_enqueue pkts]) with enqueue_out.
  pose proof (swq_loop_accounts (v_ring v) (Z.to_nat (n_swq h)) h Hr Hok) as A1.
  assert (P1 : (exists more, rte_sched_port_enqueue (pkts_enq h ++ more) ∈ (swq_loop (v_ring v) enqueue_out (Z.to_nat (n_swq h)) h).2) \/
    (exists more, pkts_enq (swq_loop (v_ring v) enqueue_out (Z.to_nat (n_swq h)) h).1 = pkts_enq h ++ more) /\
    flush_count (swq_loop (v_ring v) enqueue_out (Z.to_nat (n_swq h)) h).1 = flush_count h).
  { clear. generalize (Z.to_nat (n_swq h)) as n. intros n. revert h. induction n as [|n IH]; intros h; cbn [swq_loop].
    - right. split; [|done]. exists []. by rewrite app_nil_r.
    - cbv zeta. case_decide.
      + left. exists (v_ring v (swq_pos h)). cbn. apply list_elem_of_further, list_elem_of_here.
      + match goal with |- context [swq_loop _ _ _ ?h1] => specialize (IH h1); destruct (swq_loop (v_ring v) enqueue_out n h1) as [h2 cs] end.
        cbn [fst snd pkts_enq flush_count] in *. destruct IH as [(more & Hin)|((more & E) & Ef)].
        * left. exists (v_ring v (swq_pos h) ++ more). apply list_elem_of_further. by rewrite app_assoc.
        * right. split; [|done]. exists (v_ring v (swq_pos h) ++ more). by rewrite app_assoc. }
  destruct (swq_loop (v_ring v) enqueue_out (Z.to_nat (n_swq h)) h) as [h1 calls1]. cbn [fst snd] in A1, P1.
  pose proof A1 as (Hok1 & _). pose proof (flush_accounts h1 Hok1) as A2.
  assert (P2 : pkts_enq h1 <> [] -> rte_sched_port_enqueue (pkts_enq h1) ∈ (flush_step h1).2 \/
    pkts_enq (flush_step h1).1 = pkts_enq h1 /\ flush_count (flush_step h1).1 = flush_count h1 + 1).
  { intros Hne. unfold flush_step. rewrite decide_True by done. cbv zeta. destruct Hok1 as (_ & Hf & _).
    assert (E : u32 (flush_count h1 + 1) = flush_count h1 + 1) by (apply wrap_small; unfold HQOS_FLUSH_COUNT_THRESHOLD in Hf; lia).
    case_decide; [left; apply list_elem_of_here|right; done]. }
  destruct (flush_step h1) as [h2 calls2]. cbn [fst snd] in A2, P2. rewrite E3. cbn [obind]. eexists h2, _. split; [reflexivity|].
  destruct (send_loop_quiet _ _ _ E3) as (Q1 & Q2 & Q3). pose proof A2 as (Hok2 & _). split.
  - apply (accounts_app h h1 h2 calls1); [done|]. apply (accounts_app h1 h2 h2 calls2); [done|]. split; [done|]. split; [done|]. cbn.
    by rewrite Q1, Q2, Q3, app_nil_r.
  - intros Hne. destruct P1 as [(more & Hin)|((more & E) & Ef)].
    + left. exists more. apply elem_of_app. by left.
    + destruct P2 as [Hin|(E2 & Ef2)].
      * rewrite E. by destruct (pkts_enq h).
      * left. exists more. rewrite E in Hin. apply elem_of_app. right. apply elem_of_app. by left.
      * right. split; [exists more; congruence|lia].
Qed.

(** ** Any number of rounds *)

Fixpoint hqos_run (visits : list visit) h : option (dpdk_device_hqos_per_hqos_thread_t * list rte_call) :=
  match visits with
  | [] => Some (h, [])
  | v :: visits => let? (h, calls1) := do_visit v h in let? (h, calls2) := hqos_run visits h in Some (h, calls1 ++ calls2)
  end.

Lemma run_spec visits : forall h, ht_ok h -> Forall (visit_ok (hqos_burst_enq h)) visits ->
  exists h' calls, hqos_run visits h = Some (h', calls) /\ accounts h h' calls /\
    (pkts_enq h <> [] -> HQOS_FLUSH_COUNT_THRESHOLD - flush_count h <= Z.of_nat (length visits) ->
     exists more, rte_sched_port_enqueue (pkts_enq h ++ more) ∈ calls).
Proof.
  induction visits as [|v visits IH]; intros h Hok Hall; cbn [hqos_run].
  - exists h, []. split; [done|]. split; [by apply accounts_refl|]. intros _ Hl. destruct Hok as (_ & Hf & _). cbn in Hl. lia.
  - apply Forall_cons in Hall as [Hv Hall]. destruct (visit_spec v h Hok Hv) as (h1 & c1 & -> & A1 & P1). cbn [obind].
    pose proof A1 as (Hok1 & (Hb & _) & _). rewrite <- Hb in Hall. destruct (IH h1 Hok1 Hall) as (h2 & c2 & -> & A2 & P2). cbn [obind].
    eexists h2, _. split; [reflexivity|]. split; [by eapply accounts_app|]. intros Hne Hl. cbn [length] in Hl.
    destruct (P1 Hne) as [(more & Hin)|((more & E) & Ef)].
    + exists more. apply elem_of_app. by left.
    + destruct P2 as (more2 & Hin); [rewrite E; by destruct (pkts_enq h)|lia|]. exists (more ++ more2). rewrite E, <- app_assoc in Hin.
      apply elem_of_app. by right.
Qed.

Lemma fresh_ok zero_count first count conf wts h : 0 < burst_enq conf -> 0 <= count ->
  dpdk_port_setup_hqos zero_count true first count conf = Some (wts, h) ->
  ht_ok h /\ hqos_burst_enq h = burst_enq conf /\ pkts_enq h = [] /\ (burst_enq conf <= 2 ^ 31 -> 2 * burst_enq conf <= pkts_enq_size h).
Proof.
  intros Hb Hc [= _ <-]. unfold ht_ok, HQOS_FLUSH_COUNT_THRESHOLD. cbn. split_and!; try lia; try done. intros H31. rewrite wrap_small; lia.
Qed.

(** C22: From the set-up on, over any number of rounds in which the rings give at most a
    burst and the card takes what it is offered: the thread goes on; the packets taken
    from the rings are, in order and each once, those handed to the scheduler and those
    still held; fewer than a burst are held; and no burst is written past the array the
    set-up allocates, as long as twice the burst fits 32 bits. *)
Theorem hqos_keeps_packets zero_count first count conf wts h visits :
  0 < burst_enq conf -> 0 <= count -> dpdk_port_setup_hqos zero_count true first count conf = Some (wts, h) ->
  Forall (visit_ok (burst_enq conf)) visits ->
  exists h' calls, hqos_run visits h = Some (h', calls) /\ taken calls = handed calls ++ pkts_enq h' /\
    Z.of_nat (length (pkts_enq h')) < burst_enq conf /\
    (burst_enq conf <= 2 ^ 31 -> held_after (pkts_enq_size h) 0 calls = Some (Z.of_nat (length (pkts_enq h')))).
Proof.
  intros Hb Hc Hset Hv. destruct (fresh_ok zero_count first count conf wts h Hb Hc Hset) as (Hok & Eb & Ee & Es). rewrite <- Eb in Hv.
  destruct (run_spec visits h Hok Hv) as (h' & calls & E & ((Hl & _) & (Hb' & _) & Ht & Ha) & _). exists h', calls.
  rewrite Ee in Ht, Ha. split; [done|]. split; [done|]. split; [congruence|]. intros H31. apply Ha. rewrite Eb. by apply Es.
Qed.

(** C23: After [HQOS_FLUSH_COUNT_THRESHOLD] more rounds, whatever the thread held has been
    handed to the scheduler, even when nothing arrives any more. *)
Theorem packets_leave zero_count first count conf wts h visits1 h1 calls1 visits2 :
  0 < burst_enq conf -> 0 <= count -> dpdk_port_setup_hqos zero_count true first count conf = Some (wts, h) ->
  Forall (visit_ok (burst_enq conf)) visits1 -> hqos_run visits1 h = Some (h1, calls1) -> pkts_enq h1 <> [] ->
  Forall (visit_ok (burst_enq conf)) visits2 -> HQOS_FLUSH_COUNT_THRESHOLD <= Z.of_nat (length visits2) ->
  exists h2 calls2 more, hqos_run visits2 h1 = Some (h2, calls2) /\ rte_sched_port_enqueue (pkts_enq h1 ++ more) ∈ calls2.
Proof.
  intros Hb Hc Hset Hv1 Hrun Hne Hv2 Hlen. destruct (fresh_ok zero_count first count conf wts h Hb Hc Hset) as (Hok & Eb & _). rewrite <- Eb in Hv1.
  destruct (run_spec visits1 h Hok Hv1) as (h1' & calls1' & E & (Hok1 & (Eb1 & _) & _) & _). rewrite Hrun in E. injection E as <- <-.
  rewrite <- Eb, <- Eb1 in Hv2. destruct (run_spec visits2 h1 Hok1 Hv2) as (h2 & calls2 & E2 & _ & P). destruct Hok1 as (_ & Hf & _).
  destruct P as (more & Hin); [done|lia|]. by exists h2, calls2, more.
Qed.

(** ** Every ring gets its turn *)

(** How many rings are polled before [q]. *)
Definition turns h (q : Z) : Z := if decide (swq_pos h <= q) then q - swq_pos h else q + n_swq h - swq_pos h.

Definition polled (q : Z) calls : Prop := exists p, rte_ring_sc_dequeue_burst q p ∈ calls.

Lemma swq_loop_polls ring q n : forall h, 0 <= swq_pos h < n_swq h -> 0 <= q < n_swq h ->
  let r := swq_loop ring enqueue_out n h in
  polled q r.2 \/ turns r.1 q <= turns h q /\ (n <> O -> turns r.1 q < turns h q).
Proof.
  induction n as [|n IH]; intros h Hp Hq; cbn [swq_loop]; [right; cbn; split; [lia|done]|].
  cbv zeta. destruct (decide (q = swq_pos h)) as [->|Hne].
  { left. exists (ring (swq_pos h)). case_decide; [apply list_elem_of_here|].
    match goal with |- context [swq_loop _ _ _ ?h1] => destruct (swq_loop ring enqueue_out n h1) as [h2 cs] end. apply list_elem_of_here. }
  case_decide as Hfull.
  - right. unfold turns. cbn. repeat case_decide; lia.
  - match goal with |- context [swq_loop _ _ _ ?h1] => set (h1' := h1) end.
    assert (Hp1 : 0 <= swq_pos h1' < n_swq h1') by (unfold h1'; cbn; case_decide; lia).
    assert (Ht : turns h1' q < turns h q) by (unfold turns, h1'; cbn; repeat case_decide; lia).
    specialize (IH h1' Hp1 Hq). destruct (swq_loop ring enqueue_out n h1') as [h2 cs]. cbv zeta in IH. cbn [fst snd] in IH |- *.
    destruct IH as [(p & Hin)|(Hle & _)]; [left; exists p; by apply list_elem_of_further|right]. lia.
Qed.

Lemma visit_polls v h h' calls q : 0 <= swq_pos h < n_swq h -> 0 <= q < n_swq h -> do_visit v h = Some (h', calls) ->
  polled q calls \/ turns h' q < turns h q.
Proof.
  intros Hp Hq E. unfold do_visit, hqos_visit in E. change (fun pkts => [rte_sched_port_enqueue pkts]) with enqueue_out in E.
  pose proof (swq_loop_polls (v_ring v) q (Z.to_nat (n_swq h)) h Hp Hq) as P.
  destruct (swq_loop (v_ring v) enqueue_out (Z.to_nat (n_swq h)) h) as [h1 calls1]. cbv zeta in P. cbn [fst snd] in P.
  assert (F : turns (flush_step h1).1 q = turns h1 q) by (unfold flush_step; repeat case_decide; done).
  destruct (flush_step h1) as [h2 calls2]. cbn [fst] in F. apply obind_Some in E as (calls3 & _ & [= <- <-]).
  destruct P as [(p & Hin)|(_ & Hlt)]; [left; exists p; apply elem_of_app; by left|right]. rewrite F. apply Hlt. lia.
Qed.

(** In any [n_swq] rounds every ring is asked for packets. *)
Lemma rings_polled visits : forall h h' calls q, ht_ok h -> Forall (visit_ok (hqos_burst_enq h)) visits -> 0 <= q < n_swq h ->
  hqos_run visits h = Some (h', calls) -> n_swq h <= Z.of_nat (length visits) -> polled q calls.
Proof.
  assert (G : forall h h' calls q, ht_ok h -> Forall (visit_ok (hqos_burst_enq h)) visits -> 0 <= q < n_swq h ->
    hqos_run visits h = Some (h', calls) -> turns h q < Z.of_nat (length visits) -> polled q calls).
  { induction visits as [|v visits IH]; intros h h' calls q Hok Hall Hq E Hl; cbn [hqos_run] in E; [unfold turns in Hl; cbn in Hl; destruct Hok as (_ & _ & Hp); case_decide; lia|].
    apply Forall_cons in Hall as [Hv Hall]. destruct (visit_spec v h Hok Hv) as (h1 & c1 & E1 & A1 & _). rewrite E1 in E. cbn [obind] in E.
    apply obind_Some in E as ([h2 c2] & E2 & [= <- <-]). pose proof A1 as (Hok1 & (Hb & Hn & _) & _). rewrite <- Hb in Hall.
    destruct Hok as (_ & _ & Hp). destruct (visit_polls v h h1 c1 q Hp Hq E1) as [(p & Hin)|Hlt]; [exists p; apply elem_of_app; by left|].
    destruct (IH h1 h2 c2 q Hok1 Hall) as (p & Hin); [by rewrite Hn|done|cbn [length] in Hl; lia|]. exists p. apply elem_of_app. by right. }
  intros h h' calls q Hok Hall Hq E Hl. apply (G h h' calls q); [done..|]. pose proof Hok as (_ & _ & Hp). unfold turns. case_decide; lia.
Qed.

(** ** Concrete runs *)

(** Two rings; the first gives a packet in the first round, the scheduler gives it back. *)
Definition demo_conf : dpdk_device_config_hqos_t := hqos_params_default.
Definition demo_visit : visit := mk_visit (fun q => if decide (q = 0) then [7; 8] else []) [7] [0; 1].
Definition idle_visit : visit := mk_visit (fun _ => []) [] [].

Lemma demo_visit_ok : visit_ok (burst_enq demo_conf) demo_visit.
Proof. split; [|by eexists]. intros q. cbn. case_decide; cbn; lia. Qed.
Lemma idle_visit_ok : visit_ok (burst_enq demo_conf) idle_visit.
Proof. split; [|by eexists]. intros q. cbn. lia. Qed.

Lemma hqos_keeps_packets_witness :
  exists h' calls, hqos_run [demo_visit; idle_visit] (mk_ht [] 0 0 256 220 2 512) = Some (h', calls) /\ taken calls = handed calls ++ pkts_enq h' /\
    held_after 512 0 calls = Some (Z.of_nat (length (pkts_enq h'))).
Proof.
  destruct (hqos_keeps_packets 0 1 1 demo_conf _ (mk_ht [] 0 0 256 220 2 512) [demo_visit; idle_visit] ltac:(reflexivity) ltac:(lia) eq_refl) as (h' & calls & E & Ht & _ & Ha).
  - constructor; [apply demo_visit_ok|]. constructor; [apply idle_visit_ok|constructor].
  - exists h', calls. split; [exact E|]. split; [exact Ht|]. apply Ha. cbn. lia.
Defined.

Lemma packets_leave_witness : exists h2 calls2 more,
  hqos_run (replicate (Z.to_nat 100000) idle_visit) (mk_ht [7; 8] 0 1 256 220 2 512) = Some (h2, calls2) /\ rte_sched_port_enqueue ([7; 8] ++ more) ∈ calls2.
Proof.
  assert (Hv1 : Forall (visit_ok (burst_enq demo_conf)) [demo_visit]) by (constructor; [apply demo_visit_ok|constructor]).
  assert (Hv2 : Forall (visit_ok (burst_enq demo_conf)) (replicate (Z.to_nat 100000) idle_visit)) by (apply Forall_replicate, idle_visit_ok).
  assert (Hl : HQOS_FLUSH_COUNT_THRESHOLD <= Z.of_nat (length (replicate (Z.to_nat 100000) idle_visit))) by (rewrite length_replicate; unfold HQOS_FLUSH_COUNT_THRESHOLD; lia).
  exact (packets_leave 0 1 1 demo_conf _ (mk_ht [] 0 0 256 220 2 512) [demo_visit] (mk_ht [7; 8] 0 1 256 220 2 512) _ (replicate (Z.to_nat 100000) idle_visit)
    ltac:(reflexivity) ltac:(lia) eq_refl Hv1 eq_refl ltac:(discriminate) Hv2 Hl).
Defined.
