(* ===== verification/TxBurst.v ===== *)
(** * Handing packets to the card

    Models [tx_burst_vector_internal] and the end of the transmit function of
    [src/dpdk/device/device.c]: the choice of a queue when several threads share
    them, the loop that offers what is left until the card, or the ring of the
    scheduling thread, has taken all of it, and what happens to the packets it does
    not take.  How many packets each offer takes is DPDK's answer. *)
From S2P Require Import Prelude Wdata IntfStat HugePkt PktIo Hqos.

Implicit Types (mb : list Z) (answers : list Z).

Record dpdk_device_t := mk_dev {
  lockp : option (gmap Z Z); tx_q_used : Z;
  flag_hqos : bool; flag_pmd : bool;
  hqos_wt : gmap Z dpdk_device_hqos_per_worker_thread_t
}.
Implicit Types (xd : dpdk_device_t).
Definition with_lockp (l : option (gmap Z Z)) xd : dpdk_device_t := mk_dev l (tx_q_used xd) (flag_hqos xd) (flag_pmd xd) (hqos_wt xd).

(** The loop of [__sync_lock_test_and_set]; no other thread releases its queue
    meanwhile. *)
Fixpoint find_queue (fuel : nat) (tx_q_used queue_id : Z) (locks : gmap Z Z) : option (Z * gmap Z Z) :=
  match fuel with
  | O => None
  | S fuel =>
      if decide (locks.[queue_id] <> 0) then find_queue fuel tx_q_used ((queue_id + 1) mod tx_q_used) locks.[queue_id <- 1]
      else Some (queue_id, locks.[queue_id <- 1])
  end.
Definition lock_queue (queue_id : Z) xd : option (Z * dpdk_device_t) :=
  match lockp xd with
  | None => Some (queue_id, xd)
  | Some locks =>
      let? (queue_id, locks) := find_queue (Z.to_nat (tx_q_used xd)) (tx_q_used xd) (queue_id mod tx_q_used xd) locks in
      Some (queue_id, with_lockp (Some locks) xd)
  end.
Definition unlock_queue (queue_id : Z) xd : dpdk_device_t :=
  match lockp xd with None => xd | Some locks => with_lockp (Some locks.[queue_id <- 0]) xd end.

(** An offer: the queue, the packets, and how many were taken. *)
Record tx_offer := mk_offer { offer_queue : Z; offer_pkts : list Z; offer_taken : Z }.

Record tx_result := mk_tx { tx_dev : dpdk_device_t; tx_meta : gmap Z sched_meta; tx_offers : list tx_offer; tx_left : Z }.
Definition tx_before (o : tx_offer) (r : tx_result) : tx_result := mk_tx (tx_dev r) (tx_meta r) (o :: tx_offers r) (tx_left r).

Section tx.
Context (mem : gmap Z Z) (mbufs : gmap Z rte_mbuf) (thread_index : Z).

(** [mb]: the [n_left] packets that are left; [None] while the loop goes on. *)
Fixpoint tx_burst_loop answers (queue_id : Z) mb xd (meta : gmap Z sched_meta) : option tx_result :=
  match answers with
  | [] => None
  | answer :: answers =>
      let? (queue_id, xd) := lock_queue queue_id xd in
      let meta := if flag_hqos xd then dpdk_hqos_metadata_set mem mbufs (hqos_wt xd).[thread_index] mb meta else meta in
      let n_sent := if flag_hqos xd || flag_pmd xd then answer else 0 in
      let xd := unlock_queue queue_id xd in
      let offer := mk_offer queue_id mb n_sent in
      if decide (n_sent < 0) then Some (mk_tx xd meta [offer] (Z.of_nat (length mb)))
      else
        let mb := drop (Z.to_nat n_sent) mb in
        if decide (mb = []) then Some (mk_tx xd meta [offer] 0)
        else let? r := tx_burst_loop answers queue_id mb xd meta in Some (tx_before offer r)
  end.
Definition tx_burst_vector_internal answers mb xd meta : option tx_result := tx_burst_loop answers thread_index mb xd meta.
End tx.

(** The [while (n_left--)] loop: the packets freed. *)
Fixpoint free_loop (n_left : nat) (n_packets : Z) (from : list Z) : list Z :=
  match n_left with
  | O => []
  | S n_left => match from !! Z.to_nat (n_packets - Z.of_nat n_left - 1) with Some b => [b] | None => [] end ++ free_loop n_left n_packets from
  end.

(** What a frame leaves: the mbufs, the result of the loop, the packets and bytes
    counted as sent, the errors counted, the packets freed, and the answer. *)
Record tx_frame := mk_frame {
  f_mbufs : gmap Z rte_mbuf; f_result : tx_result; f_counted : Z; f_bytes : Z;
  f_errors : Z; f_freed : list Z; f_tx_pkts : Z
}.

Definition dpdk_device_tx_fn {VL : Vlib} (mem : gmap Z Z) (thread_index : Z) answers (st : pkt_state) (from : list Z) mbufs xd (meta : gmap Z sched_meta) :
    option tx_frame :=
  let '(mbufs, total_bytes) := dpdk_device_tx st from mbufs in
  let n_packets := Z.of_nat (length from) in
  let? r := tx_burst_vector_internal mem mbufs thread_index answers from xd meta in
  if decide (tx_left r <> 0)
  then Some (mk_frame mbufs r n_packets total_bytes (tx_left r) (free_loop (Z.to_nat (tx_left r)) n_packets from) (n_packets - tx_left r))
  else Some (mk_frame mbufs r n_packets total_bytes 0 [] n_packets).
