(* ===== verification/TxBurstSpec.v ===== *)
(** * What is sent and what is dropped

    Every packet of a frame is offered to the card in order, and is sent once or freed
    once; the counters say which; the shared queues are left as they were found; and the
    loop ends only when the card has taken everything or reports an error. *)
From S2P Require Import Prelude Wdata IntfStat HugePkt PktIo PktIoSpec Hqos TxBurst.

Implicit Types (xd : dpdk_device_t) (mb : list Z) (answers : list Z).

(** ** Queues *)

Definition lock_of xd (q : Z) : Z := match lockp xd with None => 0 | Some locks => locks.[q] end.
Definition same_locks xd xd' : Prop :=
  tx_q_used xd' = tx_q_used xd /\ flag_hqos xd' = flag_hqos xd /\ flag_pmd xd' = flag_pmd xd /\ hqos_wt xd' = hqos_wt xd /\
  (lockp xd' = None <-> lockp xd = None) /\ forall q, lock_of xd' q = lock_of xd q.
(** The device sends, its locks are 0 or 1, and one queue is free. *)
Definition dev_ok xd : Prop :=
  flag_hqos xd || flag_pmd xd = true /\ (forall q, lock_of xd q = 0 \/ lock_of xd q = 1) /\
  (lockp xd <> None -> exists q, 0 <= q < tx_q_used xd /\ lock_of xd q = 0).

Lemma same_locks_ok xd xd' : same_locks xd xd' -> dev_ok xd -> dev_ok xd'.
Proof.
  intros (E1 & E2 & E3 & E4 & E5 & E6) (F1 & F2 & F3). split; [congruence|]. split; [intros q; by rewrite E6|]. intros Hn.
  destruct F3 as (q & Hq & E); [naive_solver|]. exists q. rewrite E1, E6. done.
Qed.
Lemma same_locks_trans xd1 xd2 xd3 : same_locks xd1 xd2 -> same_locks xd2 xd3 -> same_locks xd1 xd3.
Proof. unfold same_locks. intros (? & ? & ? & ? & E & F) (? & ? & ? & ? & E' & F'). split_and!; try congruence; tauto. Qed.

Definition queue_dist (n q j : Z) : Z := if decide (q <= j) then j - q else j + n - q.

Lemma find_queue_spec n fuel : forall q (locks : gmap Z Z), 0 <= q < n -> (forall i, locks.[i] = 0 \/ locks.[i] = 1) ->
  (exists j, 0 <= j < n /\ locks.[j] = 0 /\ queue_dist n q j < Z.of_nat fuel) ->
  exists q' locks', find_queue fuel n q locks = Some (q', locks') /\ 0 <= q' < n /\ locks.[q'] = 0 /\ forall i, locks'.[q' <- 0].[i] = locks.[i].
Proof.
  induction fuel as [|fuel IH]; intros q locks Hq Hb (j & Hj & Ej & Hd); [unfold queue_dist in Hd; case_decide; lia|]. cbn [find_queue].
  case_decide as Hl.
  - assert (E1 : locks.[q] = 1) by (destruct (Hb q); [done|done]). assert (Hne : q <> j) by (intros ->; done).
    assert (Hs : forall i, locks.[q <- 1].[i] = locks.[i]) by (intros i; rewrite aget_aset; case_decide; congruence).
    assert (Hq1 : 0 <= (q + 1) mod n < n) by (apply Z.mod_pos_bound; lia).
    assert (Eq1 : (q + 1) mod n = if decide (q + 1 = n) then 0 else q + 1) by (case_decide as E; [rewrite E; apply Z.mod_same; lia|apply Z.mod_small; lia]).
    destruct (IH ((q + 1) mod n) locks.[q <- 1] Hq1) as (q' & l' & E & Hr & E0 & Hl').
    + intros i. by rewrite Hs.
    + exists j. split; [done|]. rewrite Hs. split; [done|]. rewrite Eq1. unfold queue_dist in *. repeat case_decide; lia.
    + exists q', l'. split; [done|]. split; [done|]. rewrite Hs in E0. split; [done|]. intros i. by rewrite Hl', Hs.
  - assert (E0 : locks.[q] = 0) by lia. exists q, locks.[q <- 1]. split; [done|]. split; [done|]. split; [done|]. intros i. rewrite !aget_aset.
    repeat case_decide; congruence.
Qed.

Lemma lock_unlock q xd : dev_ok xd -> exists q' xd', lock_queue q xd = Some (q', xd') /\
  flag_hqos xd' = flag_hqos xd /\ flag_pmd xd' = flag_pmd xd /\ hqos_wt xd' = hqos_wt xd /\ same_locks xd (unlock_queue q' xd') /\
  lock_of xd q' = 0 /\ (lockp xd <> None -> 0 <= q' < tx_q_used xd).
Proof.
  intros (_ & Hb & Hfree). unfold lock_queue, unlock_queue, same_locks, lock_of in *. destruct (lockp xd) as [locks|] eqn:El.
  - destruct Hfree as (j & Hj & Ej); [done|]. set (n := tx_q_used xd) in *. assert (Hq0 : 0 <= q mod n < n) by (apply Z.mod_pos_bound; lia).
    destruct (find_queue_spec n (Z.to_nat n) (q mod n) locks Hq0 Hb) as (q' & l' & E & Hr & E0 & Hl').
    { exists j. split; [done|]. split; [done|]. unfold queue_dist. case_decide; lia. }
    rewrite E. cbn [obind]. eexists q', _. split; [reflexivity|]. cbn. split_and!; try done.
  - eexists q, xd. rewrite El. split_and!; try done. intros i. by rewrite El.
Qed.

(** ** The loop *)

(** The card's answers are honest, and they end the loop: it takes everything or
    reports an error. *)
Fixpoint answers_end (left : Z) answers : Prop :=
  match answers with
  | [] => False
  | n :: answers => n < 0 \/ n = left \/ (0 <= n < left /\ answers_end (left - n) answers)
  end.

(** The packets taken, in the order of the offers. *)
Definition sent (offers : list tx_offer) : list Z := concat (map (fun o => take (Z.to_nat (offer_taken o)) (offer_pkts o)) offers).

Lemma tx_loop_spec mem mbufs thread answers : forall q mb xd meta, dev_ok xd -> answers_end (Z.of_nat (length mb)) answers ->
  exists r, tx_burst_loop mem mbufs thread answers q mb xd meta = Some r /\ same_locks xd (tx_dev r) /\
    exists left, mb = sent (tx_offers r) ++ left /\ tx_left r = Z.of_nat (length left) /\
      Forall (fun o => lock_of xd (offer_queue o) = 0) (tx_offers r).
Proof.
  induction answers as [|n answers IH]; intros q mb xd meta Hok Hend; [done|]. cbn [tx_burst_loop].
  destruct (lock_unlock q xd Hok) as (q' & xd' & -> & Eh & Ep & _ & Hs & Hfree & _). cbn [obind]. rewrite Eh, Ep.
  destruct Hok as (Hsend & Hok'). rewrite Hsend. cbv zeta.
  set (meta' := if flag_hqos xd then _ else meta). set (xd2 := unlock_queue q' xd') in *.
  case_decide as Hneg.
  - eexists. split; [reflexivity|]. split; [exact Hs|]. exists mb. unfold sent. cbn. replace (Z.to_nat n) with O by lia. split; [done|]. split; [done|]. by constructor.
  - case_decide as Hnil.
    + eexists. split; [reflexivity|]. split; [exact Hs|]. exists []. unfold sent. cbn. rewrite !app_nil_r.
      pose proof (take_drop (Z.to_nat n) mb) as E. rewrite Hnil, app_nil_r in E. split; [done|]. split; [done|]. by constructor.
    + assert (Hlt : 0 <= n < Z.of_nat (length mb)).
      { split; [lia|]. apply Z.nle_gt. intros Hge. apply Hnil. rewrite drop_ge by lia. done. }
      destruct Hend as [?|[?|(_ & Hend)]]; [lia|lia|].
      destruct (IH q' (drop (Z.to_nat n) mb) xd2 meta') as (r & -> & Hs2 & left & E & El & Hq).
      * apply (same_locks_ok xd); [done|by split].
      * rewrite length_drop. replace (Z.of_nat (length mb - Z.to_nat n)) with (Z.of_nat (length mb) - n) by lia. exact Hend.
      * cbn [obind]. eexists. split; [reflexivity|]. split; [by eapply same_locks_trans|]. exists left. unfold sent in *. cbn [tx_offers tx_before tx_left map concat].
        split; [|split; [done|]].
        -- cbn [offer_taken offer_pkts]. rewrite <- app_assoc, <- E. by rewrite take_drop.
        -- constructor; [done|]. destruct Hs as (_ & _ & _ & _ & _ & El2). eapply Forall_impl; [exact Hq|]. cbn. intros o Ho. by rewrite <- El2.
Qed.

Lemma free_loop_spec k : forall (from : list Z), (k <= length from)%nat -> free_loop k (Z.of_nat (length from)) from = drop (length from - k) from.
Proof.
  induction k as [|k IH]; intros from Hk; cbn [free_loop]; [by rewrite drop_ge by lia|]. rewrite IH by lia.
  replace (Z.to_nat (Z.of_nat (length from) - Z.of_nat k - 1)) with (length from - S k)%nat by lia.
  destruct (lookup_lt_is_Some_2 from (length from - S k)) as [b Eb]; [lia|]. rewrite Eb. rewrite (drop_S _ b (length from - S k)) by done.
  by replace (S (length from - S k)) with (length from - k)%nat by lia.
Qed.

(** C24: When some queue is free and the card's answers end the loop, the packets of the
    frame are, in order, those the card has taken and those that are freed.  The answer is
    the number it has taken and the errors counted are the rest; the counter of sent
    packets is raised by both, before any is offered.  Every offer is made on a queue that
    no other thread holds, and the locks are left as they were. *)
Theorem tx_accounts {VL : Vlib} mem thread answers st from mbufs xd meta :
  dev_ok xd -> answers_end (Z.of_nat (length from)) answers ->
  exists f, dpdk_device_tx_fn mem thread answers st from mbufs xd meta = Some f /\
    from = sent (tx_offers (f_result f)) ++ f_freed f /\
    f_tx_pkts f = Z.of_nat (length (sent (tx_offers (f_result f)))) /\ f_errors f = Z.of_nat (length (f_freed f)) /\
    f_counted f = Z.of_nat (length from) /\
    Forall (fun o => lock_of xd (offer_queue o) = 0) (tx_offers (f_result f)) /\ same_locks xd (tx_dev (f_result f)).
Proof.
  intros Hok Hend. unfold dpdk_device_tx_fn. destruct (dpdk_device_tx st from mbufs) as [mbufs' bytes].
  destruct (tx_loop_spec mem mbufs' thread answers thread from xd meta Hok Hend) as (r & E & Hs & left & Ef & El & Hq).
  unfold tx_burst_vector_internal. rewrite E. cbn [obind]. assert (Hlen : length from = (length (sent (tx_offers r)) + length left)%nat) by (rewrite Ef at 1; apply length_app).
  rewrite El. case_decide as Hz.
  - eexists. split; [reflexivity|]. cbn [f_result f_freed f_tx_pkts f_errors f_counted]. rewrite Nat2Z.id, free_loop_spec by lia.
    assert (Ed : drop (length from - length left) from = left).
    { rewrite Ef at 2. rewrite drop_app_ge by lia. replace (length from - length left - length (sent (tx_offers r)))%nat with O by lia. done. }
    rewrite Ed. split; [done|]. split; [lia|]. done.
  - destruct left; [|cbn in Hz; lia]. eexists. split; [reflexivity|]. cbn [f_result f_freed f_tx_pkts f_errors f_counted length]. rewrite app_nil_r in Ef.
    split; [by rewrite app_nil_r|]. split; [cbn in Hlen; lia|]. done.
Qed.

(** A card that takes nothing keeps the thread in the loop, however often it is asked. *)
Lemma full_card_blocks {VL : Vlib} mem thread n st from mbufs xd meta : dev_ok xd -> from <> [] ->
  dpdk_device_tx_fn mem thread (replicate n 0) st from mbufs xd meta = None.
Proof.
  intros Hok Hne. unfold dpdk_device_tx_fn. destruct (dpdk_device_tx st from mbufs) as [mbufs' bytes]. unfold tx_burst_vector_internal.
  assert (G : forall q xd meta, dev_ok xd -> tx_burst_loop mem mbufs' thread (replicate n 0) q from xd meta = None); [|by rewrite G].
  clear xd meta Hok. induction n as [|n IH]; intros q xd meta Hok; [done|]. cbn [replicate tx_burst_loop].
  destruct (lock_unlock q xd Hok) as (q' & xd' & -> & _ & _ & _ & Hs & _). cbn [obind]. rewrite Tauto.if_same. rewrite decide_False by lia.
  cbn [Z.to_nat drop]. rewrite decide_False by done. rewrite IH; [done|]. by eapply same_locks_ok.
Qed.

(** ** A concrete frame *)

(** Two queues for all threads, the first one held; the card takes two packets of three
    and then reports an error. *)
Definition demo_dev : dpdk_device_t := mk_dev (Some ∅.[0 <- 1]) 2 false true ∅.

Lemma demo_dev_ok : dev_ok demo_dev.
Proof.
  split; [done|]. split.
  - intros q. unfold lock_of, demo_dev. cbn [lockp]. rewrite aget_aset. case_decide; [by right|by left].
  - intros _. exists 1. split; [cbn; lia|done].
Qed.

#[local] Instance tx_vlib : Vlib := {| VLIB_BUFFER_PRE_DATA_SIZE := 128; VLIB_FRAME_SIZE := 256; ip4_header_checksum := fun _ _ => 0 |}.
Definition demo_tx_state : pkt_state := mk_ps ∅ ∅ ∅ (demo_pool 1 ∅) [] zeroed.

Lemma tx_accounts_witness :
  exists f, dpdk_device_tx_fn ∅ 4 [2; -1] demo_tx_state [11; 12; 13] ∅ demo_dev ∅ = Some f /\
    sent (tx_offers (f_result f)) = [11; 12] /\ f_freed f = [13] /\ [11; 12; 13] = sent (tx_offers (f_result f)) ++ f_freed f.
Proof.
  assert (Hend : answers_end (Z.of_nat (length [11; 12; 13])) [2; -1]) by (right; right; split; [cbn; lia|left; lia]).
  destruct (tx_accounts ∅ 4 [2; -1] demo_tx_state [11; 12; 13] ∅ demo_dev ∅ demo_dev_ok Hend) as (f & E & Ef & _).
  exists f. split; [exact E|]. assert (Hv : option_map (fun f => (sent (tx_offers (f_result f)), f_freed f))
    (dpdk_device_tx_fn ∅ 4 [2; -1] demo_tx_state [11; 12; 13] ∅ demo_dev ∅) = Some ([11; 12], [13])) by (vm_compute; reflexivity).
  rewrite E in Hv. cbn [option_map] in Hv. injection Hv as Es Er. split; [exact Es|]. split; [exact Er|exact Ef].
Defined.
