(* ===== verification/Handoff.v ===== *)
(** * Handing packets to workers

    Models [src/sf_main/nodes/handoff/sf_pkt_handoff.c], which spreads the packets
    of an interface over the workers by a hash of their headers,
    [sf_handoff_input.c], which takes the packets of the others, and the switch of
    an interface in [src/sf_main/sf_feature/sf_feature.h].  The hash and the test
    for a power of two are VPP's. *)
From S2P Require Import Prelude FrameLoop Wdata Decode.

Implicit Types (w : sf_wdata_t) (mem : gmap Z Z).

Class Vppinfra := { clib_xxhash : Z -> Z; is_pow2 : Z -> bool }.

(** ** The worker of a packet *)

Section worker.
Context `{Vppinfra} (mem : gmap Z Z).

Definition flow_key4 (ip : Z) : Z := Z.lxor (Z.lxor (ip4_src_ip mem ip) (ip4_dst_ip mem ip)) (ip4_protocol mem ip).
Definition flow_key6 (ip : Z) : Z :=
  let s := ip6_addr_at mem (ip + 8) in
  let d := ip6_addr_at mem (ip + 24) in
  Z.lxor (Z.lxor (Z.lxor (Z.lxor (addr_v6_upper s) (addr_v6_lower s)) (addr_v6_upper d)) (addr_v6_lower d))
    (ip6_next_header mem ip).

Definition eth_type (en : Z) : Z := le_at mem (en + 12) 2.

(** The second header starts after a whole Ethernet header, as in the source. *)
Definition tagged_key (en : Z) : Z :=
  let eth := en + ETH_HEADER_LEN in
  let eth := if decide (eth_type eth = ETHER_VLAN_NET_ORDER) then eth + ETH_HEADER_LEN else eth in
  if decide (eth_type eth = ETHER_IPV4_NET_ORDER) then flow_key4 (eth + ETH_HEADER_LEN)
  else if decide (eth_type eth = ETHER_IPV6_NET_ORDER) then flow_key6 (eth + ETH_HEADER_LEN)
  else eth_type eth.

Definition hash_key (en : Z) : Z :=
  if decide (eth_type en = ETHER_IPV4_NET_ORDER) then flow_key4 (en + ETH_HEADER_LEN)
  else if decide (eth_type en = ETHER_IPV6_NET_ORDER) then flow_key6 (en + ETH_HEADER_LEN)
  else if decide (eth_type en = ETHER_VLAN_NET_ORDER \/ eth_type en = ETHER_QINQ_NET_ORDER) then tagged_key en
  else eth_type en.

Definition sf_pkt_get_worker_index (en num_workers : Z) : Z :=
  let h := clib_xxhash (hash_key en) in
  u16 (if is_pow2 num_workers then Z.land h (u32 (num_workers - 1)) else h mod num_workers).
End worker.

(** ** The node *)

Definition HF_NEXT_ETH_INPUT : Z := 0.
Definition HF_NEXT_HUGE_PKT_INPUT : Z := 1.

(** The two arrays filled by the loop and the counters of this worker. *)
Record handoff_state := mk_ho {
  self_list : list (Z * Z);
  handoff_list : list (Z * Z);
  handoff_cnt_array : gmap Z Z
}.
Implicit Types (st : handoff_state).

Definition count_handoff (intf_id : Z) (cnt : gmap Z Z) : gmap Z Z :=
  cnt.[intf_id - 1 <- u64 (cnt.[intf_id - 1] + 1)].
Definition huge_or_eth w : Z :=
  if decide (Z.land (unused8 w) UNUSED8_FLAG_HUGE_PKT <> 0) then HF_NEXT_HUGE_PKT_INPUT else HF_NEXT_ETH_INPUT.

Section node.
Context `{Vppinfra} (mem : gmap Z Z) (wdata : gmap Z sf_wdata_t) (num_workers worker_index : Z).

Definition next_worker (b : Z) : Z := sf_pkt_get_worker_index mem (sf_wqe_get_current wdata.[b]) num_workers.

(** A packet and the worker found for it. *)
Definition handoff_place st (b nw : Z) : handoff_state :=
  let w := wdata.[b] in
  if decide (nw = worker_index)
  then mk_ho (self_list st ++ [(b, huge_or_eth w)]) (handoff_list st) (count_handoff (interface_id w) (handoff_cnt_array st))
  else mk_ho (self_list st) (handoff_list st ++ [(b, u16 (nw + 1))]) (handoff_cnt_array st).

Definition handoff_two st (b0 b1 : Z) : handoff_state :=
  let nw0 := next_worker b0 in
  let nw1 := next_worker b1 in
  handoff_place (handoff_place st b0 nw0) b1 nw1.
Definition handoff_one st (b : Z) : handoff_state := handoff_place st b (next_worker b).

(** Two packets at a time while four are left, then one at a time. *)
Fixpoint handoff_loop st (from : list Z) : handoff_state :=
  match from with
  | b0 :: ((b1 :: ((_ :: _ :: _) as from2)) as from1) => handoff_loop (handoff_two st b0 b1) from2
  | b0 :: from1 => handoff_loop (handoff_one st b0) from1
  | [] => st
  end.

Definition sf_pkt_handoff_node (cnt : gmap Z Z) (from : list Z) : handoff_state := handoff_loop (mk_ho [] [] cnt) from.

(** ** The node on the other worker *)

Definition hf_input_one (cnt : gmap Z Z) (b : Z) : option (gmap Z Z * Z) :=
  let w := wdata.[b] in Some (count_handoff (interface_id w) cnt, huge_or_eth w).
Definition hf_input_two (cnt : gmap Z Z) (b0 b1 : Z) : option (gmap Z Z * Z * Z) :=
  let w0 := wdata.[b0] in
  let w1 := wdata.[b1] in
  let cnt := count_handoff (interface_id w0) cnt in
  let cnt := count_handoff (interface_id w1) cnt in
  Some (cnt, huge_or_eth w0, huge_or_eth w1).
Definition sf_pkt_hf_input_node : gmap Z Z -> list Z -> gmap Z Z -> list (Z * Z) -> Prop := frame_run hf_input_one hf_input_two.
End node.

(** ** The switch of an interface *)

(** The result is an [int]: the low 32 bits, signed. *)
Definition to_int (z : Z) : Z := (z + 2 ^ 31) mod 2 ^ 32 - 2 ^ 31.
Definition sf_intf_get_handoff_status (handoff_switch : gmap Z Z) (intf_id : Z) : Z :=
  to_int (Z.land handoff_switch.[bitmap_get_index intf_id] (bitmap_get_mask intf_id)).
Definition sf_intf_set_handoff_status (handoff_switch : gmap Z Z) (intf_id : Z) (on : bool) : gmap Z Z :=
  let i := bitmap_get_index intf_id in
  let mask := bitmap_get_mask intf_id in
  handoff_switch.[i <- if on then Z.lor handoff_switch.[i] mask else Z.ldiff handoff_switch.[i] mask].

(** The switches [sf_intf_handoff_main_init] leaves on a virtual machine: all on
    when there are several workers. *)
Definition handoff_switch_init (worker_num : Z) : gmap Z Z :=
  if decide (1 < worker_num)
  then foldl (fun s i => sf_intf_set_handoff_status s (i + 1) true) ∅ (seqZ 0 MAX_INTERFACE_CNT)
  else ∅.

(** ** The commands *)

(** What the command line holds: a number, the word "disable", or anything else. *)
Inductive handoff_token := Tok_number (n : Z) | Tok_disable | Tok_other.

(** Each turn takes a number if there is one, and goes on only after "disable". *)
Fixpoint parse_handoff (l : list handoff_token) (intf_id : Z) (is_enable : bool) : Z * bool :=
  match l with
  | [] => (intf_id, is_enable)
  | Tok_number n :: Tok_disable :: l => parse_handoff l n false
  | Tok_number n :: _ => (n, is_enable)
  | Tok_disable :: l => parse_handoff l intf_id false
  | Tok_other :: _ => (intf_id, is_enable)
  end.

(** The switches, and the interface that was set; [None] is the error. *)
Definition sf_set_intf_handoff_fn (intf_num : Z) (l : list handoff_token) (handoff_switch : gmap Z Z) : gmap Z Z * option (Z * bool) :=
  let '(intf_id, is_enable) := parse_handoff l (-1) true in
  if decide (intf_id <= 0 \/ intf_id > intf_num) then (handoff_switch, None)
  else (sf_intf_set_handoff_status handoff_switch intf_id is_enable, Some (intf_id, is_enable)).

(** The counters of every worker, for the interfaces there are. *)
Definition sf_clear_handoff_statics_fn (worker_num intf_num : Z) (handoff_pkt_cnt : gmap Z (gmap Z Z)) : gmap Z (gmap Z Z) :=
  foldl (fun cnt worker_index =>
      <[worker_index := foldl (fun c i => c.[i <- 0]) (default ∅ (cnt !! worker_index)) (seqZ 0 intf_num)]> cnt)
    handoff_pkt_cnt (seqZ 0 worker_num).
