(* ===== verification/HandoffSpec.v ===== *)
(** * Handing packets to workers: which worker, and who gets the packet

    Packets between two ends whose headers name the same protocol go to one worker when
    they carry no tag; a tag makes the hash read other bytes than the addresses.  The
    node hands every packet of the frame to one worker, itself or another, and the switch
    of an interface works for the interfaces below 32. *)
From S2P Require Import Prelude FrameLoop Wdata Decode DecodeSpec DecodeRound Handoff.

Implicit Types (w : sf_wdata_t) (mem : gmap Z Z).

(** ** The flow of a packet *)

(** The protocol the IP header names: that of the transport over IPv4, fragment or not;
    over IPv6 the first extension header's, which may be the fragment header. *)
Definition net_proto (p : packet) : Z :=
  match p_net p with
  | V4 _ => tr_proto (p_tr p)
  | V6 h => outer_proto (h6_exts h) (end_proto (h6_end h (tr_proto (p_tr p))))
  end.

(** The same two ends, in either direction. *)
Definition same_ends (p q : packet) : Prop :=
  match p_net p, p_net q with
  | V4 h, V4 k => h4_src h = h4_src k /\ h4_dst h = h4_dst k \/ h4_src h = h4_dst k /\ h4_dst h = h4_src k
  | V6 h, V6 k => h6_src h = h6_src k /\ h6_dst h = h6_dst k \/ h6_src h = h6_dst k /\ h6_dst h = h6_src k
  | _, _ => False
  end.

(** The bytes of a packet, at its Ethernet header. *)
Definition at_header (p : packet) mem (en : Z) : Prop := packet_ok p /\ holds mem en (encode p).

Lemma encode_ip p mem en : at_header p mem en ->
  holds mem (en + l2_len p) (net_bytes (p_net p) (tr_proto (p_tr p)) (p_plen p)) /\
  le_at mem (en + 12) 2 = outer_type (p_tags p) (net_type (p_net p)) /\
  holds mem (en + ETH_HEADER_LEN) (tags_bytes (p_tags p) (net_type (p_net p))).
Proof.
  intros [Hok Hh]. unfold encode in Hh. rewrite !holds_app, eth_bytes_length in Hh by apply Hok.
  destruct Hh as (He & Hn & _). split; [exact Hn|].
  unfold eth_bytes in He. rewrite !holds_app in He. destruct Hok as (Hm & _). rewrite Hm in He.
  destruct He as (_ & Ht & Hg). split.
  - apply le_at_small; [done|]. apply outer_type_range. by destruct (p_net p).
  - unfold ETH_HEADER_LEN. change (length (le_bytes 2 _)) with 2%nat in Hg.
    by replace (en + 14) with (en + Z.of_nat 12 + Z.of_nat 2) by lia.
Qed.

(** The words hashed for a packet without tags. *)
Definition flow_key (p : packet) : Z :=
  match p_net p with
  | V4 h => Z.lxor (Z.lxor (h4_src h) (h4_dst h)) (net_proto p)
  | V6 h => Z.lxor (Z.lxor (Z.lxor (Z.lxor (addr_v6_upper (h6_src h)) (addr_v6_lower (h6_src h)))
              (addr_v6_upper (h6_dst h))) (addr_v6_lower (h6_dst h))) (net_proto p)
  end.

Lemma flow_key4_encode mem ip h proto plen : h4_ok h -> holds mem ip (h4_bytes h proto plen) ->
  flow_key4 mem ip = Z.lxor (Z.lxor (h4_src h) (h4_dst h)) proto.
Proof. intros Hok Hh. unfold flow_key4. by destruct (h4_fields _ _ _ _ _ Hok Hh) as (_ & _ & -> & -> & -> & _). Qed.

Lemma hash_key_untagged p mem en : at_header p mem en -> p_tags p = [] -> hash_key mem en = flow_key p.
Proof.
  intros Hp Ht. destruct (encode_ip p mem en Hp) as (Hn & Ety & _). destruct Hp as [(_ & _ & _ & Hok & _) _].
  unfold hash_key, eth_type, flow_key, net_proto. rewrite Ety. unfold l2_len in Hn. rewrite Ht in *. cbn [outer_type taglen length] in *.
  change (ETH_HEADER_LEN + taglen []) with ETH_HEADER_LEN in Hn.
  destruct (p_net p) as [h|h]; cbn [net_type net_bytes net_ok] in *.
  - rewrite decide_True by done. by apply flow_key4_encode with (p_plen p).
  - rewrite decide_False, decide_True by done. unfold flow_key6.
    by destruct (h6_fields _ _ _ _ _ (proj1 Hok) Hn) as (_ & -> & -> & -> & _).
Qed.

Lemma lxor_swap a b c d : Z.lxor (Z.lxor (Z.lxor a b) c) d = Z.lxor (Z.lxor (Z.lxor c d) a) b.
Proof. apply Z.bits_inj'. intros i _. rewrite !Z.lxor_spec. by repeat destruct (Z.testbit _ _). Qed.

Lemma lxor_cancel a x y : Z.lxor a x = Z.lxor a y <-> x = y.
Proof.
  split; [|by intros ->]. intros E. apply (f_equal (Z.lxor a)) in E. by rewrite <- !Z.lxor_assoc, Z.lxor_nilpotent, !Z.lxor_0_l in E.
Qed.

(** Between the same two ends the key tells the protocols of the headers apart, and
    nothing else. *)
Lemma same_ends_key p q : same_ends p q -> flow_key p = flow_key q <-> net_proto p = net_proto q.
Proof.
  unfold same_ends, flow_key. destruct (p_net p) as [h|h], (p_net q) as [k|k]; try done.
  - intros [[-> ->]|[-> ->]]; [|rewrite (Z.lxor_comm (h4_dst k))]; apply lxor_cancel.
  - intros [[-> ->]|[-> ->]]; [|rewrite (lxor_swap (addr_v6_upper (h6_dst k)))]; apply lxor_cancel.
Qed.

(** The test for a power of two accepts no other positive number. *)
Class VppinfraLaws `{Vppinfra} := is_pow2_pow n : 0 < n -> is_pow2 n = true -> exists k, 0 <= k /\ n = 2 ^ k.

Lemma worker_range `{VppinfraLaws} mem en n : 0 < n <= 2 ^ 16 -> 0 <= sf_pkt_get_worker_index mem en n < n.
Proof.
  intros Hn. unfold sf_pkt_get_worker_index. cbv zeta.
  assert (Hr : forall z, 0 <= z < n -> 0 <= u16 z < n) by (intros z Hz; rewrite wrap_small; lia).
  apply Hr. destruct (is_pow2 n) eqn:Ep.
  - apply is_pow2_pow in Ep as (k & Hk & ->); [|lia]. rewrite (wrap_small 32), wrap_land by lia. apply wrap_range. lia.
  - apply Z.mod_pos_bound. lia.
Qed.

(** C28: two packets without tags between the same two ends, in either direction, whose IP
    headers name the same protocol are given the same worker, and the worker exists.  The
    ports are not looked at, so over IPv4 the fragments of a datagram go where the
    whole packets of their protocol go; over IPv6 the header names the first extension
    header, and where that is the fragment header another key is hashed than for the
    whole packets. *)
Theorem same_ends_same_worker `{VppinfraLaws} (p q : packet) (mem1 mem2 : gmap Z Z) (en1 en2 num_workers : Z) :
  at_header p mem1 en1 -> at_header q mem2 en2 -> p_tags p = [] -> p_tags q = [] -> same_ends p q ->
  0 < num_workers <= 2 ^ 16 ->
  (net_proto p = net_proto q -> sf_pkt_get_worker_index mem1 en1 num_workers = sf_pkt_get_worker_index mem2 en2 num_workers) /\
  (hash_key mem1 en1 = hash_key mem2 en2 <-> net_proto p = net_proto q) /\
  0 <= sf_pkt_get_worker_index mem1 en1 num_workers < num_workers.
Proof.
  intros Hp Hq Tp Tq He Hn. pose proof (same_ends_key p q He) as Hk. unfold sf_pkt_get_worker_index at 1 2.
  rewrite (hash_key_untagged p), (hash_key_untagged q) by done. split; [|split; [exact Hk|by apply worker_range]]. intros Hpr. by rewrite (proj2 Hk Hpr).
Qed.

(** ** One tag: the time to live is hashed, and not the addresses *)

Lemma h4_ttl_at mem p h proto plen : holds mem p (h4_bytes h proto plen) ->
  0 <= h4_ttl h < 256 -> 0 <= proto < 256 -> le_at mem (p + 8) 2 = h4_ttl h + 256 * proto.
Proof.
  intros Hh Ht Hp. unfold h4_bytes in Hh. rewrite !holds_app in Hh.
  destruct Hh as (_ & _ & _ & _ & Hb & _). cbn [length be16] in Hb. change (Z.of_nat 2) with 2 in Hb.
  apply holds_cons in Hb as [Ha Hb]. apply holds_cons in Hb as [Hb _].
  rewrite (le_at_S mem (p + 8) 1), (le_at_S mem (p + 8 + 1) 0). change (le_at mem _ 0) with 0.
  replace (p + 8) with (p + 2 + 2 + 2 + 2) by lia. rewrite Ha, Hb. lia.
Qed.

(** The worker of an IPv4 packet with one tag is found from its time to live
    and its protocol only, for every transport protocol in use: the second header
    is looked for a whole Ethernet header after the first. *)
Theorem tagged_worker_by_ttl `{Vppinfra} (p : packet) (h : v4_header) (t0 t1 : Z) (svc : bool) (mem : gmap Z Z) (en num_workers : Z) :
  at_header p mem en -> p_tags p = [(t0, t1, svc)] -> p_net p = V4 h -> 0 <= h4_ttl h < 256 ->
  0 < tr_proto (p_tr p) < 0x86 ->
  let key := clib_xxhash (h4_ttl h + 256 * tr_proto (p_tr p)) in
  sf_pkt_get_worker_index mem en num_workers =
  u16 (if is_pow2 num_workers then Z.land key (u32 (num_workers - 1)) else key mod num_workers).
Proof.
  intros Hp Ht Hn Hl Hpr. destruct (encode_ip p mem en Hp) as (Hb & Ety & _).
  rewrite Hn in *. unfold l2_len in Hb. rewrite Ht in *. change (taglen _) with 4 in Hb. cbn [net_bytes] in Hb.
  pose proof (h4_ttl_at _ _ _ _ _ Hb Hl ltac:(lia)) as Et.
  unfold sf_pkt_get_worker_index, hash_key, tagged_key, eth_type. rewrite Ety.
  unfold ETH_HEADER_LEN in *. replace (en + 14 + 12) with (en + (14 + 4) + 8) by lia. rewrite Et.
  assert (Hne : forall z, z / 256 = 0 \/ 0x86 <= z / 256 -> 0 <= z -> h4_ttl h + 256 * tr_proto (p_tr p) <> z).
  { intros z Hz H0 <-. rewrite Z.add_comm, Z.mul_comm, Z.div_add_l, Z.div_small in Hz by lia. lia. }
  unfold ETHER_VLAN_NET_ORDER, ETHER_IPV4_NET_ORDER, ETHER_IPV6_NET_ORDER.
  rewrite (decide_False (P := h4_ttl h + _ = 0x0081)) by (apply Hne; [by left|lia]).
  replace (en + 14 + 12) with (en + (14 + 4) + 8) by lia. rewrite Et.
  rewrite (decide_False (P := h4_ttl h + _ = 0x0008)) by (apply Hne; [by left|lia]).
  rewrite (decide_False (P := h4_ttl h + _ = 0xDD86)) by (apply Hne; [right; vm_compute; congruence|lia]).
  by destruct svc.
Qed.

(** ** The node: one list or the other *)

Section split.
Context `{Vppinfra} (mem : gmap Z Z) (wdata : gmap Z sf_wdata_t) (num_workers worker_index : Z).

Definition mine (b : Z) : Prop := next_worker mem wdata num_workers b = worker_index.
#[export] Instance mine_dec b : Decision (mine b).
Proof. unfold mine. apply _. Defined.

Definition kept_for (from : list Z) : list (Z * Z) := (fun b => (b, huge_or_eth wdata.[b])) <$> filter mine from.
Definition handed_over (from : list Z) : list (Z * Z) :=
  (fun b => (b, u16 (next_worker mem wdata num_workers b + 1))) <$> filter (fun b => ~ mine b) from.
Definition counted (from : list Z) (cnt : gmap Z Z) : gmap Z Z :=
  foldl (fun cnt b => count_handoff (interface_id wdata.[b]) cnt) cnt (filter mine from).

Definition handoff_split (st : handoff_state) (from : list Z) : handoff_state :=
  mk_ho (self_list st ++ kept_for from) (handoff_list st ++ handed_over from) (counted from (handoff_cnt_array st)).

Lemma handoff_split_cons st b from :
  handoff_split st (b :: from) = handoff_split (handoff_one mem wdata num_workers worker_index st b) from.
Proof.
  unfold handoff_split, handoff_one, handoff_place, kept_for, handed_over, counted.
  rewrite !filter_cons. destruct (decide (mine b)) as [Hm|Hm].
  - rewrite decide_False by (intros Hn; by apply Hn).
    unfold mine in Hm. rewrite decide_True by done. cbn. by rewrite <- !app_assoc.
  - rewrite decide_True by done. unfold mine in Hm. rewrite decide_False by done. cbn. by rewrite <- !app_assoc.
Qed.

Lemma handoff_loop_split from : forall st, handoff_loop mem wdata num_workers worker_index st from = handoff_split st from.
Proof.
  remember (length from) as n eqn:En. revert from En.
  induction (lt_wf n) as [n _ IH]; intros from -> st.
  destruct from as [|b0 [|b1 [|b2 [|b3 from]]]].
  1: { unfold handoff_split, kept_for, handed_over, counted. cbn. rewrite !app_nil_r. by destruct st. }
  4: { rewrite 2!handoff_split_cons.
       exact (IH (length (b2 :: b3 :: from)) ltac:(cbn; lia) (b2 :: b3 :: from) eq_refl
         (handoff_two mem wdata num_workers worker_index st b0 b1)). }
  all: rewrite handoff_split_cons;
    match goal with |- handoff_loop _ _ _ _ ?s (?b :: ?l) = _ =>
      exact (IH (length l) ltac:(cbn; lia) l eq_refl (handoff_one mem wdata num_workers worker_index s b)) end.
Qed.
End split.

(** The node keeps the packets whose worker it is, in the order of the frame
    and each with its next node, counts each of them for its interface, and hands
    every other packet to the thread after its worker's number: two at a time or
    one at a time, no packet is lost or sent twice. *)
Theorem handoff_node_splits `{Vppinfra} (mem : gmap Z Z) (wdata : gmap Z sf_wdata_t) (num_workers worker_index : Z)
    (cnt : gmap Z Z) (from : list Z) :
  let st := sf_pkt_handoff_node mem wdata num_workers worker_index cnt from in
  self_list st = kept_for mem wdata num_workers worker_index from /\
  handoff_list st = handed_over mem wdata num_workers worker_index from /\
  handoff_cnt_array st = counted mem wdata num_workers worker_index from cnt /\
  (self_list st).*1 ++ (handoff_list st).*1 ≡ₚ from.
Proof.
  unfold sf_pkt_handoff_node. rewrite handoff_loop_split. cbn. repeat split.
  unfold kept_for, handed_over. rewrite <- !list_fmap_compose. change (fst ∘ _) with (fun b : Z => b). rewrite !list_fmap_id.
  induction from as [|b from IH]; [done|]. rewrite !filter_cons.
  destruct (decide (mine mem wdata num_workers worker_index b)) as [Hm|Hm].
  - rewrite decide_False by (intros Hn; by apply Hn). cbn. by rewrite IH.
  - rewrite decide_True by done. by rewrite <- Permutation_middle, IH.
Qed.

(** ** The switch of an interface *)

Lemma to_int_pow2 k : 0 <= k < 64 -> to_int (2 ^ k) <> 0 <-> k < 32.
Proof.
  intros Hk. unfold to_int. destruct (decide (k < 31)).
  - assert (2 ^ k < 2 ^ 31) by (apply Z.pow_lt_mono_r; lia). assert (0 < 2 ^ k) by (apply Z.pow_pos_nonneg; lia).
    rewrite Z.mod_small by lia. lia.
  - destruct (decide (k = 31)) as [->|]; [done|]. split; [|lia]. intros Hne. exfalso. apply Hne.
    replace k with (32 + (k - 32)) by lia. rewrite Z.pow_add_r, Z.add_comm, Z.mul_comm, Z_mod_plus_full by lia. done.
Qed.

Definition handoff_bit (switch : gmap Z Z) (intf_id : Z) : bool :=
  Z.testbit switch.[bitmap_get_index intf_id] (intf_id mod 64).

Lemma handoff_bit_set switch i (on : bool) j : 0 <= i -> 0 <= j ->
  handoff_bit (sf_intf_set_handoff_status switch i on) j = if decide (i = j) then on else handoff_bit switch j.
Proof.
  intros Hi Hj. unfold handoff_bit, sf_intf_set_handoff_status, bitmap_get_index, bitmap_get_mask.
  pose proof (Z.mod_pos_bound i 64). pose proof (Z.mod_pos_bound j 64).
  rewrite aget_aset. case_decide as Ei.
  - rewrite Z.shiftl_1_l, Ei. destruct on; [rewrite Z.lor_spec|rewrite Z.ldiff_spec]; rewrite Z.pow2_bits_eqb by lia;
      case_decide as E; try subst j; rewrite ?Z.eqb_refl, ?orb_true_r, ?andb_false_r; try done;
      replace (_ =? _) with false; rewrite ?orb_false_r, ?andb_true_r; try done;
      symmetry; apply Z.eqb_neq; intros Em; apply E; rewrite (Z.div_mod i 64), (Z.div_mod j 64); lia.
  - rewrite decide_False by (by intros ->). done.
Qed.

(** After the switch of one interface is set, an interface reads as switched
    on exactly when its switch is and its place in the word is below 32: the
    result is an [int], and for the interfaces from 32 the switch is lost. *)
Theorem handoff_status_truncated (switch : gmap Z Z) (i j : Z) (on : bool) : 0 <= i -> 0 <= j ->
  sf_intf_get_handoff_status (sf_intf_set_handoff_status switch i on) j <> 0 <->
  j mod 64 < 32 /\ (if decide (i = j) then on else handoff_bit switch j) = true.
Proof.
  intros Hi Hj. rewrite <- handoff_bit_set by done. set (s := sf_intf_set_handoff_status _ _ _).
  unfold sf_intf_get_handoff_status, handoff_bit, bitmap_get_mask.
  pose proof (Z.mod_pos_bound j 64). rewrite land_one_bit by lia. destruct (Z.testbit _ _).
  - rewrite to_int_pow2 by lia. naive_solver.
  - split; [by intros []|by intros []].
Qed.

(** The command sets the switch of the interface it names and no other, and refuses
    what is no interface. *)
Lemma command_switches_one intf_num l (switch : gmap Z Z) :
  let '(switch', done_) := sf_set_intf_handoff_fn intf_num l switch in
  (forall i on, done_ = Some (i, on) -> 1 <= i <= intf_num /\
     forall j, 0 <= j -> handoff_bit switch' j = if decide (i = j) then on else handoff_bit switch j) /\
  (done_ = None -> switch' = switch).
Proof.
  unfold sf_set_intf_handoff_fn. destruct (parse_handoff l (-1) true) as [i on]. case_decide; [done|]. split; [|done].
  intros i' on' [= <- <-]. split; [lia|]. intros j Hj. by rewrite handoff_bit_set by lia.
Qed.

(** So the switches set at the start reach the interfaces below 32 only. *)
Lemma handoff_lost_from_32 worker_num j : 1 < worker_num -> 1 <= j <= MAX_INTERFACE_CNT ->
  sf_intf_get_handoff_status (handoff_switch_init worker_num) j <> 0 <-> j < 32.
Proof.
  intros Hn Hj. unfold handoff_switch_init. rewrite decide_True by done. generalize dependent j.
  set (s := foldl _ _ _).
  assert (Ha : forallb (fun j => Bool.eqb (negb (sf_intf_get_handoff_status s j =? 0)) (j <? 32)) (seqZ 1 MAX_INTERFACE_CNT) = true)
    by (vm_compute; reflexivity).
  intros j Hj. rewrite forallb_forall in Ha. specialize (Ha j). rewrite <- list_elem_of_In, elem_of_seqZ in Ha.
  apply Bool.eqb_prop in Ha; [|lia]. destruct (sf_intf_get_handoff_status s j =? 0) eqn:E; cbn in Ha; lia.
Qed.

(** ** Samples *)

Section samples.
#[local] Instance sample_vppinfra : Vppinfra := {
  clib_xxhash := fun z => z;
  is_pow2 := fun n => bool_decide (n = 1 \/ n = 2 \/ n = 4 \/ n = 8)
}.

Lemma sample_laws : VppinfraLaws.
Proof.
  intros n _ Hn. apply bool_decide_eq_true in Hn.
  destruct Hn as [->|[->|[->| ->]]]; [exists 0|exists 1|exists 2|exists 3]; split; done || lia.
Qed.

Definition sample_there : packet := mk_packet (repeat 2 12) []
  (V4 (mk_v4 0 7 0 0 64 0 (10 + 2 ^ 24) (10 + 2 ^ 25) [])) (Udp 53 4242 [0; 0; 0; 0]) [1; 2; 3].
(** The answer, of which this is the second fragment. *)
Definition sample_back : packet := mk_packet (repeat 2 12) []
  (V4 (mk_v4 0 9 0 2 60 0 (10 + 2 ^ 25) (10 + 2 ^ 24) [])) (Opaque IP_PRO_UDP) [4; 5].

Lemma sample_there_ok : packet_ok sample_there.
Proof. unfold packet_ok. split_and!; try done; [cbn; lia|repeat split; lia..]. Qed.
Lemma sample_back_ok : packet_ok sample_back.
Proof. unfold packet_ok. split_and!; try done; [cbn; lia|repeat split; lia..]. Qed.

Lemma same_ends_same_worker_witness : exists wk,
  sf_pkt_get_worker_index (poke ∅ 4096 (encode sample_there)) 4096 4 = wk /\
  sf_pkt_get_worker_index (poke ∅ 8192 (encode sample_back)) 8192 4 = wk.
Proof.
  pose (L := sample_laws).
  destruct (same_ends_same_worker (H0 := L) sample_there sample_back (poke ∅ 4096 (encode sample_there))
    (poke ∅ 8192 (encode sample_back)) 4096 8192 4) as [E _].
  - split; [apply sample_there_ok|apply (holds_poke _ ∅ 4096)].
  - split; [apply sample_back_ok|apply (holds_poke _ ∅ 8192)].
  - reflexivity.
  - reflexivity.
  - right. done.
  - lia.
  - eexists. split; [exact (E eq_refl)|reflexivity].
Defined.
End samples.

Lemma handoff_status_truncated_witness :
  sf_intf_get_handoff_status (sf_intf_set_handoff_status ∅ 31 true) 31 <> 0 /\
  ~ sf_intf_get_handoff_status (sf_intf_set_handoff_status ∅ 40 true) 40 <> 0.
Proof.
  split.
  - apply (handoff_status_truncated ∅ 31 31 true); [lia..|]. split; [|vm_compute; reflexivity]. vm_compute. reflexivity.
  - intros H. apply (handoff_status_truncated ∅ 40 40 true) in H; [|lia..]. destruct H as [H _]. revert H. vm_compute. discriminate.
Defined.
