(* ===== verification/Action.v ===== *)
(** * Actions

    Models [src/actions/include/] ([action.h], [action_path_defines.h],
    [action_path_tools.h], [action_tools.h]), the node [action_main.c], and the
    configuration calls of [nshell-lib/sf_plugin_api/action_api.c] with
    [nshell-lib/include/sf_gcd.h].  An action says where a packet goes: dropped,
    out of an interface, or out of one of several interfaces, after up to three
    encapsulations (Encap.v). *)
From S2P Require Import Prelude Wdata.

Implicit Types (w : sf_wdata_t).

(** ** Data *)

Definition MAX_ACTION_NUM : Z := 128.
Definition MAX_LOAD_BALANCE_NODE : Z := 64.
Definition INVALID_INTERFACE_ID : Z := 0.

Definition LOAD_BALANCE_MODE_NONE : Z := 0.
Definition LOAD_BALANCE_MODE_ROUND_ROBIN : Z := 1.
Definition LOAD_BALANCE_MODE_WRR : Z := 2.
Definition LOAD_BALANCE_MODE_OUTER_SRCDSTIP : Z := 3.
Definition LOAD_BALANCE_MODE_OUTER_SRCIP : Z := 4.
Definition LOAD_BALANCE_MODE_OUTER_DSTIP : Z := 5.

Record load_balance_weight_t := mk_weight { cw : Z; gcd : Z; mw : Z }.

(** The members of an encapsulation with the prefix [gre_], [vxlan_] or [erspan_]. *)
Record tunnel_t := mk_tunnel { tn_dmac : list Z; tn_dip_type : Z; tn_dip : ip_addr_t; tn_dscp : Z }.
Definition no_tunnel : tunnel_t := mk_tunnel (repeat 0 6) 0 (mk_addr 0 0) 0.

Record additional_action_t := mk_additional {
  switch_flags : Z;
  gre : tunnel_t;
  vxlan : tunnel_t;
  vxlan_dport : Z;
  vxlan_vni : Z;
  erspan : tunnel_t;
  erspan_type : Z;
  erspan_session_id : Z
}.
Definition no_additional : additional_action_t := mk_additional 0 no_tunnel no_tunnel 0 0 no_tunnel 0 0.

Record sf_action_t := mk_action {
  ref_counter : Z;
  action_type : Z;
  forward_interface_id : Z;
  load_balance_interfaces_num : Z;
  load_balance_interface_array : gmap Z Z;
  additional_actions : additional_action_t;
  load_balance_mode : Z;
  weight_data : load_balance_weight_t;
  load_balance_index : Z;
  load_balance_weight : gmap Z Z
}.

Definition action_zero : sf_action_t :=
  mk_action 0 0 0 0 empty no_additional 0 (mk_weight 0 0 0) 0 empty.
#[export] Instance zeroed_action : Zeroed sf_action_t := action_zero.

Definition with_ref (r : Z) (a : sf_action_t) : sf_action_t :=
  mk_action r (action_type a) (forward_interface_id a) (load_balance_interfaces_num a)
    (load_balance_interface_array a) (additional_actions a) (load_balance_mode a) (weight_data a)
    (load_balance_index a) (load_balance_weight a).
Definition with_balance (d : load_balance_weight_t) (idx : Z) (a : sf_action_t) : sf_action_t :=
  mk_action (ref_counter a) (action_type a) (forward_interface_id a) (load_balance_interfaces_num a)
    (load_balance_interface_array a) (additional_actions a) (load_balance_mode a) d idx (load_balance_weight a).
Definition with_additional (x : additional_action_t) (a : sf_action_t) : sf_action_t :=
  mk_action (ref_counter a) (action_type a) (forward_interface_id a) (load_balance_interfaces_num a)
    (load_balance_interface_array a) x (load_balance_mode a) (weight_data a)
    (load_balance_index a) (load_balance_weight a).

(** [SF_CONF_T] of the actions: the array, from index 0. *)
Abbreviation action_conf := (gmap Z sf_action_t).
Implicit Types (conf : action_conf) (a : sf_action_t).

Definition is_valid_action_id (id : Z) : bool := (1 <=? id) && (id <=? MAX_ACTION_NUM).

Definition get_action conf (action_id : Z) : option sf_action_t :=
  if is_valid_action_id action_id then
    let a := conf.[action_id - 1] in if decide (ref_counter a = 0) then None else Some a
  else None.

(** ** The path of a packet *)

Definition ACTION_TYPE_DROP : Z := 1.
Definition ACTION_TYPE_FORWARD_INTERFACE : Z := 2.
Definition ACTION_TYPE_LOAD_BALANCE_INTERFACES : Z := 3.
Definition ACTION_TYPE_COUNT : Z := 4.

Definition SF_NEXT_NODE_ACTION_GRE_ENCAPSULATION : Z := 0.
Definition SF_NEXT_NODE_ACTION_ERSPAN_ENCAPSULATION : Z := 1.
Definition SF_NEXT_NODE_ACTION_VXLAN_ENCAPSULATION : Z := 2.
Definition SF_NEXT_NODE_SF_PKT_DROP : Z := 3.
Definition SF_NEXT_NODE_ACTION_FORWARD_INTERFACE : Z := 4.
Definition SF_NEXT_NODE_ACTION_LOAD_BALANCE_INTERFACES : Z := 5.
Definition ADDITIONAL_TYPE_COUNT : Z := 3.

Definition action_type_to_next_index (type : Z) : Z := type + ADDITIONAL_TYPE_COUNT - 1.

(** The list of nodes still to visit, kept in the buffer. *)
Record sf_additional_list_t := mk_addi { delta : Z; pre_index : Z; addtional_list : gmap Z Z }.
Implicit Types (al : sf_additional_list_t).

Definition reset_addtional_list : sf_additional_list_t := mk_addi 0 0 empty.
#[export] Instance zeroed_addi : Zeroed sf_additional_list_t := reset_addtional_list.
Definition append_addtional_list (v : Z) al : sf_additional_list_t :=
  mk_addi (delta al) (u8 (pre_index al + 1)) (addtional_list al).[pre_index al <- u8 v].
Definition reset_addtional_list_index al : sf_additional_list_t := mk_addi (delta al) 0 (addtional_list al).
Definition pop_addtional_list al : Z * sf_additional_list_t :=
  ((addtional_list al).[pre_index al], mk_addi (delta al) (u8 (pre_index al + 1)) (addtional_list al)).

Definition flag_gre (x : additional_action_t) : bool := Z.testbit (switch_flags x) 0.
Definition flag_vxlan (x : additional_action_t) : bool := Z.testbit (switch_flags x) 1.
Definition flag_erspan (x : additional_action_t) : bool := Z.testbit (switch_flags x) 2.

Definition append_if (b : bool) (v : Z) al : sf_additional_list_t := if b then append_addtional_list v al else al.

(** The record, the list and the next node. *)
Definition get_action_forward_path conf w al : sf_wdata_t * sf_additional_list_t * Z :=
  let action := get_action conf (arg_to_next w) in
  let w := with_arg (Z.land (arg_to_next w) 0xFFFF) w in
  match action with
  | None => (w, al, SF_NEXT_NODE_SF_PKT_DROP)
  | Some a =>
      if decide (action_type a <= ACTION_TYPE_DROP \/ ACTION_TYPE_COUNT <= action_type a)
      then (w, al, SF_NEXT_NODE_SF_PKT_DROP)
      else
        let next := action_type_to_next_index (action_type a) in
        let w := with_out (forward_interface_id a) w in
        let x := additional_actions a in
        if decide (switch_flags x = 0) then (w, al, next)
        else
          let al := mk_addi (i16 (- current_data w)) (pre_index reset_addtional_list)
                      (addtional_list reset_addtional_list) in
          let al := append_if (flag_erspan x) SF_NEXT_NODE_ACTION_ERSPAN_ENCAPSULATION al in
          let al := append_if (flag_vxlan x) SF_NEXT_NODE_ACTION_VXLAN_ENCAPSULATION al in
          let al := append_if (flag_gre x) SF_NEXT_NODE_ACTION_GRE_ENCAPSULATION al in
          let al := append_addtional_list next al in
          let al := reset_addtional_list_index al in
          let '(next, al) := pop_addtional_list al in
          (w, al, next)
  end.

(** ** Configuration *)

Fixpoint gcd_loop (fuel : nat) (b c : Z) : option Z :=
  match fuel with
  | O => None
  | S fuel => if decide (c = 0) then Some b else gcd_loop fuel c (Z.rem b c)
  end.

(** [None] also when the processor traps on the division by zero. *)
Definition calc_gcd (fuel : nat) (a b : Z) : option Z :=
  if decide (b = 0) then None else gcd_loop fuel b (Z.rem a b).

Fixpoint weight_loop (fuel n : nat) (weight : gmap Z Z) (i g max_weight : Z) : option (Z * Z) :=
  match n with
  | O => Some (g, max_weight)
  | S n =>
      let? g := calc_gcd fuel weight.[i] g in
      weight_loop fuel n weight (i + 1) g (if decide (max_weight < weight.[i]) then weight.[i] else max_weight)
  end.

Definition weight_calc_max (fuel : nat) (weight : gmap Z Z) (num : Z) : option (Z * Z) :=
  weight_loop fuel (Z.to_nat (num - 1)) weight 1 weight.[0] weight.[0].

(** The configuration may be unmapped, and the caller's pointer null. *)
Definition put_action_config (fuel : nat) (conf : option action_conf) a (action_id : Z) :
    option (option action_conf * Z) :=
  match conf with
  | None => Some (None, -1)
  | Some c =>
      if is_valid_action_id action_id then
        let? stored :=
          if decide (load_balance_mode a = LOAD_BALANCE_MODE_WRR) then
            let? (g, m) := weight_calc_max fuel (load_balance_weight a) (load_balance_interfaces_num a) in
            Some (with_balance (mk_weight 0 g m) (load_balance_index a) a)
          else Some a in
        Some (Some c.[action_id - 1 <- with_ref (u32 (ref_counter stored + 1)) stored], 0)
      else Some (Some c, -1)
  end.

Definition get_action_config (conf : option action_conf) (action_id : Z) : option sf_action_t * Z :=
  match conf with
  | None => (None, -1)
  | Some c => if is_valid_action_id action_id then (Some c.[action_id - 1], 0) else (None, -1)
  end.

Definition delete_action_config (conf : option action_conf) (action_id : Z) : option action_conf * Z :=
  match conf with
  | None => (None, -1)
  | Some c => if is_valid_action_id action_id then (Some c.[action_id - 1 <- action_zero], 0) else (Some c, -1)
  end.

Definition check_action_if_exist (conf : option action_conf) (action_id : Z) : Z :=
  match conf with
  | None => -1
  | Some c =>
      if is_valid_action_id action_id
      then (if decide (0 < ref_counter c.[action_id - 1]) then 1 else 0) else -1
  end.

Definition set_additional_vxlan_vni (value : Z) a : sf_action_t :=
  let x := additional_actions a in
  with_additional (mk_additional (switch_flags x) (gre x) (vxlan x) (vxlan_dport x)
    (bswap32 (u32 (Z.shiftl (Z.land value 0xFFFFFF) 8))) (erspan x) (erspan_type x) (erspan_session_id x)) a.
Definition get_additional_vxlan_vni (conf : option action_conf) (action_id : Z) : Z :=
  match conf with
  | None => -1
  | Some c => if is_valid_action_id action_id
              then Z.shiftr (bswap32 (vxlan_vni (additional_actions c.[action_id - 1]))) 8 else -1
  end.
Definition set_additional_vxlan_dport (value : Z) a : sf_action_t :=
  let x := additional_actions a in
  with_additional (mk_additional (switch_flags x) (gre x) (vxlan x) (bswap16 (Z.land value 0xFFFF)) (vxlan_vni x)
    (erspan x) (erspan_type x) (erspan_session_id x)) a.
Definition get_additional_vxlan_dport (conf : option action_conf) (action_id : Z) : Z :=
  match conf with
  | None => -1
  | Some c => if is_valid_action_id action_id
              then bswap16 (vxlan_dport (additional_actions c.[action_id - 1])) else -1
  end.

(** ** Weighted round robin *)

(** One turn of the loop moves the index, and the threshold when the index wraps
    or was never set; the result is the index and the two variables. *)
Fixpoint load_balance_get_weight_index (fuel : nat) (d : load_balance_weight_t) (weight : gmap Z Z) (num index : Z) :
    option (Z * load_balance_weight_t * Z) :=
  match fuel with
  | O => None
  | S fuel =>
      let index := Z.rem (u32 (index + 1)) num in
      let d := if decide (index = 0 \/ cw d = 0) then
                 let c := i32 (cw d + gcd d) in mk_weight (if decide (mw d < c) then gcd d else c) (gcd d) (mw d)
               else d in
      if decide (cw d <= weight.[index]) then Some (index, d, index)
      else load_balance_get_weight_index fuel d weight num index
  end.
