(* ===== verification/Wrr.v ===== *)
(** * The weighted round robin is fair

    The loop of [load_balance_get_weight_index] scans positions: position [p]
    stands for the interface [p mod num] under the threshold of the round
    [p / num], and is taken when the weight reaches the threshold.  The positions
    taken are periodic, so any run of as many choices as there are weight units
    gives each interface its share. *)
From S2P Require Import Prelude Wdata Action.

Lemma seqZ_succ p n : 0 <= n -> seqZ p (n + 1) = p :: seqZ (p + 1) n.
Proof. intros Hn. rewrite seqZ_cons by lia. do 2 f_equal; lia. Qed.

Lemma seqZ_shift p n : seqZ (p + 1) n = map (Z.add 1) (seqZ p n).
Proof. rewrite Z.add_comm. symmetry. apply (fmap_add_seqZ 1 p n). Qed.

Lemma seqZ_snoc p n : 0 <= n -> seqZ p (n + 1) = seqZ p n ++ [p + n].
Proof. intros Hn. rewrite seqZ_app by lia. f_equal. Qed.

Definition count (f : Z -> bool) (l : list Z) : Z := Z.of_nat (length (List.filter f l)).

Lemma count_nil f : count f [] = 0.
Proof. done. Qed.

Lemma count_cons f x l : count f (x :: l) = (if f x then 1 else 0) + count f l.
Proof. unfold count. cbn. destruct (f x); cbn [length]; lia. Qed.

Lemma count_app f l1 l2 : count f (l1 ++ l2) = count f l1 + count f l2.
Proof. unfold count. rewrite List.filter_app, length_app. lia. Qed.

Lemma count_ext f g l : (forall x, x ∈ l -> f x = g x) -> count f l = count g l.
Proof.
  induction l as [|x l IH]; intros Hx; [done|]. rewrite !count_cons, (Hx x), IH; [done| |left].
  intros y Hy. apply Hx. by right.
Qed.

Lemma count_zero f l : (forall x, x ∈ l -> f x = false) -> count f l = 0.
Proof.
  induction l as [|x l IH]; intros Hx; [done|]. rewrite count_cons, (Hx x), IH; [done| |left].
  intros y Hy. apply Hx. by right.
Qed.

(** A count over one period does not depend on where the period starts. *)
Lemma count_period f T : 0 < T -> (forall p, f (p + T) = f p) -> forall p, 0 <= p ->
  count f (seqZ p T) = count f (seqZ 0 T).
Proof.
  intros HT Hf. apply natlike_ind; [done|]. intros p Hp IH. rewrite <- IH.
  pose proof (seqZ_succ p T ltac:(lia)) as E1. rewrite seqZ_snoc in E1 by lia.
  replace (p + 1) with (Z.succ p) in E1 by lia.
  assert (E2 : count f (seqZ p T ++ [p + T]) = count f (p :: seqZ (Z.succ p) T)) by by rewrite E1.
  rewrite count_app, !count_cons, count_nil, Hf in E2. lia.
Qed.

(** One position of each round belongs to an index. *)
Lemma count_column n i (P : Z -> bool) m : 0 < n -> 0 <= i < n -> 0 <= m ->
  count (fun q => P (q / n) && (q mod n =? i)) (seqZ 0 (n * m)) = count P (seqZ 0 m).
Proof.
  intros Hn Hi. revert m. apply natlike_ind; [by rewrite Z.mul_0_r|]. intros m Hm IH.
  rewrite Z.mul_succ_r, seqZ_app, count_app, IH by nia. unfold Z.succ. rewrite seqZ_snoc, count_app, !Z.add_0_l by lia.
  f_equal. rewrite count_cons, count_nil, Z.add_0_r.
  assert (Hrow : forall k, 0 <= k <= n ->
    count (fun q => P (q / n) && (q mod n =? i)) (seqZ (n * m) k) = if decide (i < k) then (if P m then 1 else 0) else 0).
  { intros k [Hk Hkn]. revert k Hk Hkn. refine (natlike_ind _ _ _); [intros _; by rewrite decide_False by lia|].
    intros k Hk IHk Hkn. unfold Z.succ. rewrite seqZ_snoc, count_app, IHk, count_cons, count_nil by lia.
    rewrite (Z.mul_comm n m), Z.div_add_l, Z.div_small, Z.add_0_r, (Z.add_comm (m * n)), Z_mod_plus_full, Z.mod_small by lia.
    destruct (Z.eqb_spec k i) as [->|Hne].
    - rewrite decide_False, decide_True by lia. rewrite andb_true_r, Z.add_0_r. by destruct (P m).
    - rewrite andb_false_r. destruct (decide (i < k)), (decide (i < k + 1)); lia. }
  rewrite (Hrow n) by lia. by rewrite decide_True by lia.
Qed.

(** The rounds whose threshold a weight reaches. *)
Lemma count_rounds g wt m : 0 < g -> 0 <= wt <= m * g -> 0 <= m ->
  count (fun k => (k + 1) * g <=? wt) (seqZ 0 m) = wt / g.
Proof.
  intros Hg Hw Hm.
  assert (Hmin : forall j, 0 <= j -> count (fun k => (k + 1) * g <=? wt) (seqZ 0 j) = Z.min j (wt / g)).
  { apply natlike_ind.
    - assert (0 <= wt / g) by (apply Z.div_pos; lia). change (0 = Z.min 0 (wt / g)). lia.
    - intros j Hj IH. unfold Z.succ. rewrite seqZ_snoc, count_app, IH, count_cons, count_nil, Z.add_0_l by lia.
      destruct (Z.leb_spec ((j + 1) * g) wt) as [Hle|Hgt].
      + assert (j + 1 <= wt / g) by (apply Z.div_le_lower_bound; lia). lia.
      + assert (wt / g < j + 1) by (apply Z.div_lt_upper_bound; lia). lia. }
  rewrite Hmin by done. apply Z.min_r. apply Z.div_le_upper_bound; lia.
Qed.

Section wrr.
Context (n g m : Z) (weight : gmap Z Z).
Hypothesis Hn : 0 < n < 2 ^ 31.
Hypothesis Hg : 0 < g.
Hypothesis Hm : 0 < m.
Hypothesis Hmax : (m + 1) * g < 2 ^ 31.
Hypothesis Hw : forall i, 0 <= i < n -> g <= weight.[i] <= m * g /\ (g | weight.[i]).

Let T := n * m.

(** ** Positions *)

Definition threshold (p : Z) : Z := (p mod T / n + 1) * g.
Definition taken (p : Z) : bool := threshold p <=? weight.[p mod n].

Lemma T_pos : 0 < T.
Proof. unfold T. nia. Qed.

Lemma mod_T_n p : p mod T mod n = p mod n.
Proof. apply Z.mod_mod_divide. unfold T. apply Z.divide_factor_l. Qed.

Lemma taken_periodic p : taken (p + T) = taken p.
Proof.
  assert (E : (p + T) mod T = p mod T) by (rewrite <- (Z_mod_plus_full p 1 T); f_equal; lia).
  unfold taken, threshold. by rewrite <- (mod_T_n (p + T)), <- (mod_T_n p), E.
Qed.

Lemma round_of p : 0 <= p mod T / n < m.
Proof.
  pose proof T_pos. pose proof (Z.mod_pos_bound p T ltac:(lia)).
  split; [apply Z.div_pos; lia|]. apply Z.div_lt_upper_bound; [lia|]. unfold T in *. lia.
Qed.

(** The position after [p]: the next index of the round, or the next round. *)
Lemma position_succ p :
  (p + 1) mod n = (p mod n + 1) mod n /\
  (p + 1) mod T / n = if decide ((p mod n + 1) mod n = 0) then (if decide (p mod T / n + 1 < m) then p mod T / n + 1 else 0)
                      else p mod T / n.
Proof.
  pose proof T_pos as HT. split; [by rewrite Zplus_mod_idemp_l|].
  pose proof (round_of p) as Hr. set (a := p mod T / n) in *.
  assert (Hb : 0 <= p mod n < n) by (apply Z.mod_pos_bound; lia). set (b := p mod n) in *.
  assert (E : p mod T = n * a + b) by (unfold a, b; rewrite <- mod_T_n; apply Z.div_mod; lia).
  rewrite <- Zplus_mod_idemp_l, E. destruct (decide (b + 1 < n)).
  - rewrite (Z.mod_small (b + 1) n), decide_False by lia.
    rewrite (Z.mod_small (n * a + b + 1) T) by (unfold T; nia).
    symmetry. apply (Z.div_unique _ _ _ (b + 1)); lia.
  - assert (b + 1 = n) as -> by lia. rewrite Z.mod_same, decide_True by lia.
    replace (n * a + b + 1) with (n * (a + 1)) by lia. destruct (decide (a + 1 < m)).
    + rewrite Z.mod_small by (unfold T; nia). rewrite Z.mul_comm. apply Z.div_mul. lia.
    + replace (a + 1) with m by lia. fold T. rewrite Z.mod_same by lia. apply Z.div_0_l. lia.
Qed.

Lemma threshold_succ p : threshold (p + 1) =
  if decide ((p + 1) mod n = 0) then (if decide (m * g < threshold p + g) then g else threshold p + g) else threshold p.
Proof.
  destruct (position_succ p) as [E1 E2]. unfold threshold. rewrite E2, E1. pose proof (round_of p).
  destruct (decide ((p mod n + 1) mod n = 0)); [|done].
  destruct (decide (p mod T / n + 1 < m)); [rewrite decide_False by nia; lia|rewrite decide_True by nia; lia].
Qed.

(** The loop's next turn looks at position [p]. *)
Definition moved (d : load_balance_weight_t) (i : Z) : Z :=
  if decide (i = 0 \/ cw d = 0) then (if decide (mw d < i32 (cw d + gcd d)) then gcd d else i32 (cw d + gcd d)) else cw d.

Definition at_position (d : load_balance_weight_t) (index p : Z) : Prop :=
  0 <= index < n /\ gcd d = g /\ mw d = m * g /\ (index + 1) mod n = p mod n /\ moved d (p mod n) = threshold p.

Lemma position_moves d p : gcd d = g -> mw d = m * g -> cw d = threshold p -> at_position d (p mod n) (p + 1).
Proof.
  intros Eg Em Ec. assert (0 <= p mod n < n) by (apply Z.mod_pos_bound; lia). destruct (position_succ p) as [E1 _].
  split_and!; try done; try lia. unfold moved. rewrite Ec, Eg, Em, threshold_succ.
  assert (threshold p <> 0) by (pose proof (round_of p); unfold threshold; nia).
  assert (- 2 ^ 31 <= threshold p + g < 2 ^ 31) by (pose proof (round_of p); unfold threshold; nia).
  destruct (decide ((p + 1) mod n = 0)); [by rewrite decide_True, i32_small by auto|].
  rewrite decide_False; [done|]. intros [?|?]; lia.
Qed.

(** ** One choice *)

Lemma weight_index_turn fuel d index p : at_position d index p ->
  load_balance_get_weight_index (S fuel) d weight n index =
  let d' := mk_weight (threshold p) g (m * g) in
  if taken p then Some (p mod n, d', p mod n) else load_balance_get_weight_index fuel d' weight n (p mod n).
Proof.
  intros (Hi & Eg & Em & Ei & Et). cbn [load_balance_get_weight_index].
  rewrite (wrap_small 32 (index + 1)), Z.rem_mod_nonneg, Ei by lia.
  assert (Ed : (if decide (p mod n = 0 \/ cw d = 0)
          then mk_weight (if decide (mw d < i32 (cw d + gcd d)) then gcd d else i32 (cw d + gcd d)) (gcd d) (mw d)
          else d) = mk_weight (threshold p) g (m * g)).
  { unfold moved in Et. destruct (decide (p mod n = 0 \/ cw d = 0)); [by rewrite Et, Eg, Em|].
    destruct d as [c gg mm]. cbn in *. by subst. }
  cbv zeta. rewrite Ed. cbn [cw]. unfold taken. destruct (Z.leb_spec (threshold p) weight.[p mod n]);
    [by rewrite decide_True|by rewrite decide_False by lia].
Qed.

Lemma weight_index_scan x fuel : taken x = true -> forall k d index p, at_position d index p ->
  x = p + Z.of_nat k -> (forall q, p <= q < x -> taken q = false) -> (k < fuel)%nat ->
  load_balance_get_weight_index fuel d weight n index = Some (x mod n, mk_weight (threshold x) g (m * g), x mod n).
Proof.
  intros Hx. induction fuel as [|fuel IH]; intros k d index p Hp Ek Hq Hf; [lia|].
  rewrite (weight_index_turn _ _ _ _ Hp). cbv zeta. destruct k as [|k].
  - rewrite Z.add_0_r in Ek. subst x. by rewrite Hx.
  - rewrite (Hq p) by lia. apply (IH k) with (p + 1); [|lia|intros q ?; apply Hq; lia|lia].
    by apply position_moves.
Qed.

(** ** A run of choices *)

Lemma first_taken L : 0 <= L -> forall p x rest, List.filter taken (seqZ p L) = x :: rest ->
  p <= x < p + L /\ taken x = true /\ (forall q, p <= q < x -> taken q = false) /\
  List.filter taken (seqZ (x + 1) (p + L - (x + 1))) = rest.
Proof.
  revert L. refine (natlike_ind _ _ _); [done|]. intros L HL IH p x rest. unfold Z.succ. rewrite seqZ_succ by done.
  cbn [List.filter]. destruct (taken p) eqn:Ep.
  - intros [= <- <-]. split_and!; [lia|lia|done|intros q ?; lia|]. do 2 f_equal. lia.
  - intros (H1 & H2 & H3 & H4)%IH. split_and!; [lia|lia|done| |].
    + intros q Hq. destruct (decide (q = p)) as [->|]; [done|]. apply H3. lia.
    + rewrite <- H4. do 2 f_equal. lia.
Qed.

Fixpoint wrr_choices (k fuel : nat) (d : load_balance_weight_t) (index : Z) : option (list Z * load_balance_weight_t * Z) :=
  match k with
  | O => Some ([], d, index)
  | S k =>
      let? (x, d, index) := load_balance_get_weight_index fuel d weight n index in
      let? (l, d, index) := wrr_choices k fuel d index in
      Some (x :: l, d, index)
  end.

Lemma choices_taken fuel l : forall p L d index, at_position d index p -> 0 <= p -> 0 <= L < Z.of_nat fuel ->
  List.filter taken (seqZ p L) = l ->
  exists d' index' p', wrr_choices (length l) fuel d index = Some (map (fun q => q mod n) l, d', index') /\
    at_position d' index' p' /\ 0 <= p'.
Proof.
  induction l as [|x l IH]; intros p L d index Hp Hp0 HL Hf; [by exists d, index, p|].
  destruct (first_taken L (proj1 HL) p x l Hf) as (Hx & Htx & Hq & Hrest).
  cbn [length wrr_choices].
  rewrite (weight_index_scan x fuel Htx (Z.to_nat (x - p)) d index p Hp) by (done || lia). cbn [obind].
  destruct (IH (x + 1) (p + L - (x + 1)) (mk_weight (threshold x) g (m * g)) (x mod n)) as (d' & i' & p' & E & Hp' & Hp0');
    [by apply position_moves|lia|lia|done|].
  exists d', i', p'. rewrite E. done.
Qed.

Lemma count_map h (f : Z -> Z) l : count h (map f l) = count (fun x => h (f x)) l.
Proof. induction l as [|x l IH]; [done|]. cbn [map]. rewrite !count_cons. by rewrite IH. Qed.

Lemma count_filter h f l : count h (List.filter f l) = count (fun x => f x && h x) l.
Proof.
  induction l as [|x l IH]; [done|]. cbn [List.filter]. rewrite count_cons, <- IH.
  destruct (f x); cbn [andb]; [by rewrite count_cons|lia].
Qed.

(** The share of an index in the positions of one period. *)
Lemma column_share i p : 0 <= i < n -> 0 <= p ->
  count (fun q => taken q && (q mod n =? i)) (seqZ p T) = weight.[i] / g.
Proof.
  intros Hi Hp. pose proof T_pos. rewrite (count_period _ T); [|done| |done].
  - rewrite (count_ext _ (fun q => ((q / n + 1) * g <=? weight.[i]) && (q mod n =? i))).
    + unfold T. rewrite (count_column n i (fun k => (k + 1) * g <=? weight.[i])) by lia.
      destruct (Hw i Hi). apply count_rounds; lia.
    + intros q Hq. apply elem_of_seqZ in Hq. unfold taken, threshold. rewrite Z.mod_small by lia.
      destruct (Z.eqb_spec (q mod n) i) as [->|]; [done|by rewrite !andb_false_r].
  - intros q. rewrite taken_periodic. f_equal. f_equal. unfold T. rewrite (Z.mul_comm n m). apply Z_mod_plus_full.
Qed.

Lemma count_columns f l : count f l = zsum (fun i => count (fun q => f q && (q mod n =? i)) l) (seqZ 0 n).
Proof.
  induction l as [|x l IH]; [by rewrite (zsum_const _ 0); [rewrite count_nil; lia|]|].
  rewrite count_cons, IH.
  rewrite (zsum_update (fun i => count (fun q => f q && (q mod n =? i)) l)
             (fun i => count (fun q => f q && (q mod n =? i)) (x :: l)) (seqZ 0 n) (x mod n)).
  - rewrite count_cons, Z.eqb_refl, andb_true_r. lia.
  - apply NoDup_seqZ.
  - apply elem_of_seqZ. apply Z.mod_pos_bound. lia.
  - intros i Hi. rewrite count_cons. rewrite (proj2 (Z.eqb_neq (x mod n) i)) by auto. by rewrite andb_false_r.
Qed.

(** One period of choices, from anywhere. *)
Definition period : Z := zsum (fun i => weight.[i] / g) (seqZ 0 n).

Lemma period_fair fuel d index p : at_position d index p -> 0 <= p -> T < Z.of_nat fuel ->
  exists l d' index' p', wrr_choices (Z.to_nat period) fuel d index = Some (l, d', index') /\
    at_position d' index' p' /\ 0 <= p' /\ forall i, 0 <= i < n -> count (fun x => x =? i) l = weight.[i] / g.
Proof.
  intros Hp Hp0 HT. pose proof T_pos.
  destruct (choices_taken fuel _ p T d index Hp Hp0 ltac:(lia) eq_refl) as (d' & i' & p' & E & Hp' & Hp0').
  assert (Ec : count taken (seqZ p T) = period).
  { rewrite count_columns. apply zsum_ext. intros i Hi. apply elem_of_seqZ in Hi. apply column_share; lia. }
  assert (El : Z.to_nat period = length (List.filter taken (seqZ p T))) by (rewrite <- Ec; unfold count; lia).
  eexists _, d', i', p'. rewrite El. split_and!; [done|done|done|]. intros i Hi.
  rewrite count_map, count_filter. by apply column_share.
Qed.

Lemma choices_run fuel j : forall d index p, at_position d index p -> 0 <= p -> T < Z.of_nat fuel ->
  exists l d' index' p', wrr_choices j fuel d index = Some (l, d', index') /\ at_position d' index' p' /\ 0 <= p'.
Proof.
  induction j as [|j IH]; intros d index p Hp Hp0 HT; [by exists [], d, index, p|]. pose proof T_pos.
  assert (Hne : exists x rest, List.filter taken (seqZ p T) = x :: rest).
  { destruct (List.filter taken (seqZ p T)) eqn:Ef; [|by eauto]. exfalso.
    assert (Hc : count (fun q => taken q && (q mod n =? 0)) (seqZ p T) = weight.[0] / g) by (apply column_share; lia).
    rewrite <- count_filter, Ef, count_nil in Hc. destruct (Hw 0); [lia|].
    assert (1 <= weight.[0] / g) by (apply Z.div_le_lower_bound; lia). lia. }
  destruct Hne as (x & rest & Hf). destruct (first_taken T ltac:(lia) p x rest Hf) as (Hx & Htx & Hq & _).
  cbn [wrr_choices]. rewrite (weight_index_scan x fuel Htx (Z.to_nat (x - p)) d index p Hp) by (done || lia). cbn [obind].
  destruct (IH (mk_weight (threshold x) g (m * g)) (x mod n) (x + 1)) as (l & d' & i' & p' & E & Hp' & Hp0');
    [by apply position_moves|lia|done|].
  rewrite E. eexists _, d', i', p'. done.
Qed.
End wrr.

(** ** The greatest common divisor of the weights *)

Lemma gcd_loop_spec fuel : forall b c, 0 < b -> 0 <= c < Z.of_nat fuel -> gcd_loop fuel b c = Some (Z.gcd b c).
Proof.
  induction fuel as [|fuel IH]; intros b c Hb Hc; [lia|]. cbn [gcd_loop]. destruct (decide (c = 0)) as [->|Hne].
  - rewrite Z.gcd_0_r. f_equal. lia.
  - rewrite Z.rem_mod_nonneg by lia. pose proof (Z.mod_pos_bound b c ltac:(lia)).
    rewrite IH by lia. by rewrite Z.gcd_comm, Z.gcd_mod, Z.gcd_comm by lia.
Qed.

Lemma calc_gcd_spec fuel a b : 0 <= a -> 0 < b <= Z.of_nat fuel -> calc_gcd fuel a b = Some (Z.gcd a b).
Proof.
  intros Ha Hb. unfold calc_gcd. rewrite decide_False by lia. rewrite Z.rem_mod_nonneg by lia.
  pose proof (Z.mod_pos_bound a b ltac:(lia)). rewrite gcd_loop_spec by lia. by rewrite Z.gcd_comm, Z.gcd_mod, Z.gcd_comm by lia.
Qed.

(** The divisor and the maximum of the first [n] weights. *)
Record weights_of (weight : gmap Z Z) (n g m : Z) : Prop := {
  wo_pos : 0 < g;
  wo_divides : forall i, 0 <= i < n -> (g | weight.[i]);
  wo_greatest : forall c, (forall i, 0 <= i < n -> (c | weight.[i])) -> (c | g);
  wo_max : forall i, 0 <= i < n -> weight.[i] <= m;
  wo_reached : exists i, 0 <= i < n /\ weight.[i] = m
}.

Lemma weight_loop_spec fuel weight W k : forall i g m, 0 < i ->
  (forall j, 0 <= j < i + Z.of_nat k -> 0 < weight.[j] <= W) -> W <= Z.of_nat fuel ->
  weights_of weight i g m ->
  exists g' m', weight_loop fuel k weight i g m = Some (g', m') /\ weights_of weight (i + Z.of_nat k) g' m'.
Proof.
  induction k as [|k IH]; intros i g m Hi HW Hf Ho; [exists g, m; by rewrite Z.add_0_r|].
  destruct Ho as [Hg Hd Hgr Hm (j & Hj & Em)]. cbn [weight_loop].
  assert (Hgw : g <= weight.[j]) by (apply Z.divide_pos_le; [apply HW; lia|by apply Hd]).
  pose proof (HW j ltac:(lia)). pose proof (HW i ltac:(lia)) as Hwi.
  rewrite calc_gcd_spec by lia. cbn [obind].
  replace (i + Z.of_nat (S k)) with (i + 1 + Z.of_nat k) in * by lia.
  apply IH; [lia|intros q ?; apply HW; lia|done|].
  pose proof (Z.gcd_divide_l weight.[i] g) as Dl. pose proof (Z.gcd_divide_r weight.[i] g) as Dr.
  split.
  - pose proof (Z.gcd_nonneg weight.[i] g). assert (Z.gcd weight.[i] g <> 0); [|lia].
    intros E0%Z.gcd_eq_0_r. lia.
  - intros q Hq. destruct (decide (q = i)) as [->|]; [done|]. etransitivity; [exact Dr|]. apply Hd. lia.
  - intros c Hc. apply Z.gcd_greatest; [apply Hc; lia|]. apply Hgr. intros q ?. apply Hc. lia.
  - intros q Hq. destruct (decide (q = i)) as [->|]; [destruct (decide _); lia|].
    assert (weight.[q] <= m) by (apply Hm; lia). destruct (decide _); lia.
  - destruct (decide (m < weight.[i])); [exists i|exists j]; (split; [lia|done]).
Qed.

Lemma weight_calc_max_spec fuel weight W n : 0 < n -> (forall j, 0 <= j < n -> 0 < weight.[j] <= W) ->
  W <= Z.of_nat fuel -> exists g m, weight_calc_max fuel weight n = Some (g, m) /\ weights_of weight n g m.
Proof.
  intros Hn HW Hf. pose proof (HW 0 ltac:(lia)). unfold weight_calc_max.
  destruct (weight_loop_spec fuel weight W (Z.to_nat (n - 1)) 1 weight.[0] weight.[0]) as (g & m & E & Ho).
  - lia.
  - intros j Hj. apply HW. lia.
  - done.
  - split; [lia| | | |exists 0; split; [lia|done]]; intros i; try (intros Hi; by assert (i = 0) as -> by lia).
    intros Hc. apply Hc. lia.
  - exists g, m. split; [done|]. by replace (1 + Z.of_nat (Z.to_nat (n - 1))) with n in Ho by lia.
Qed.

(** The maximum is a multiple of the divisor, and every weight is in between. *)
Lemma weights_factor weight n g mx : weights_of weight n g mx -> (forall i, 0 <= i < n -> 0 < weight.[i]) ->
  exists m, mx = m * g /\ 0 < m /\ forall i, 0 <= i < n -> g <= weight.[i] <= m * g /\ (g | weight.[i]).
Proof.
  intros [Hg Hd Hgr Hm (jm & Hjm & Em)] Hpos. destruct (Hd jm Hjm) as [m Ef]. rewrite Em in Ef.
  pose proof (Hpos jm Hjm). exists m. split_and!; [done|nia|]. intros i Hi. split; [|by apply Hd].
  split; [apply Z.divide_pos_le; [by apply Hpos|by apply Hd]|]. rewrite <- Ef. by apply Hm.
Qed.

(** Where the configuration starts the scheme. *)
Lemma configured_position n g m index : 0 < n -> 0 < g -> 0 < m -> (m + 1) * g < 2 ^ 31 -> 0 <= index < n ->
  at_position n g m (mk_weight 0 g (m * g)) index ((index + 1) mod n).
Proof.
  intros Hn Hg Hm Hx Hi. pose proof (Z.mod_pos_bound (index + 1) n ltac:(lia)).
  split_and!; try done; try lia; [by rewrite Z.mod_mod by lia|]. unfold moved, threshold. cbn [cw gcd mw].
  rewrite decide_True by by right. rewrite Z.add_0_l, i32_small by nia. rewrite decide_False by nia.
  rewrite (Z.mod_small _ (n * m)) by nia. rewrite Z.div_small by lia. lia.
Qed.

(** C6: the weighted round robin is fair from the moment it is configured.  After
    [put_action_config] stores an action in that mode whose 1 to 64 interfaces have
    positive weights below 2^30 and whose index is one of them, every choice ends, and among any run of as many choices as
    the sum of the weights divided by their greatest common divisor, after any
    number of choices before it, each interface is chosen its weight divided by
    that divisor times. *)
Theorem wrr_fair fuel conf a id W (j : nat) :
  is_valid_action_id id = true -> load_balance_mode a = LOAD_BALANCE_MODE_WRR ->
  0 <= load_balance_index a < load_balance_interfaces_num a -> load_balance_interfaces_num a <= MAX_LOAD_BALANCE_NODE ->
  (forall i, 0 <= i < load_balance_interfaces_num a -> 0 < (load_balance_weight a).[i] <= W) -> W < 2 ^ 30 ->
  load_balance_interfaces_num a * W < Z.of_nat fuel ->
  exists conf' g m, put_action_config fuel (Some conf) a id = Some (Some conf', 0) /\
    weights_of (load_balance_weight a) (load_balance_interfaces_num a) g m /\
    let s := conf'.[id - 1] in
    let choices := wrr_choices (load_balance_interfaces_num s) (load_balance_weight s) in
    exists before d1 i1 l d2 i2,
      choices j fuel (weight_data s) (load_balance_index s) = Some (before, d1, i1) /\
      choices (Z.to_nat (period (load_balance_interfaces_num s) g (load_balance_weight s))) fuel d1 i1 = Some (l, d2, i2) /\
      forall i, 0 <= i < load_balance_interfaces_num s -> count (fun x => x =? i) l = (load_balance_weight s).[i] / g.
Proof.
  intros Hid Hmode Hidx Hnum HW HW30 Hf. set (n := load_balance_interfaces_num a) in *. set (wt := load_balance_weight a) in *.
  unfold MAX_LOAD_BALANCE_NODE in Hnum. pose proof (HW 0 ltac:(lia)) as HW0.
  destruct (weight_calc_max_spec fuel wt W n) as (g & mx & Ec & Ho); [lia|done|nia|].
  destruct (weights_factor wt n g mx Ho) as (m & -> & Hm0 & Hw); [intros i Hi; by apply HW|].
  pose proof Ho as [Hg _ _ _ (jm & Hjm & Em)].
  assert (HT : n * m < Z.of_nat fuel) by (pose proof (HW jm Hjm); nia).
  assert (Hx : (m + 1) * g < 2 ^ 31) by (pose proof (HW jm Hjm); nia).
  unfold put_action_config. rewrite Hid, decide_True by done. fold wt n. rewrite Ec. cbn [obind].
  eexists _, g, (m * g). split; [reflexivity|]. split; [done|]. rewrite aget_aset_eq. cbv zeta.
  cbn [load_balance_interfaces_num load_balance_weight weight_data load_balance_index with_ref with_balance]. fold n wt.
  pose proof (configured_position n g m (load_balance_index a) ltac:(lia) Hg Hm0 Hx Hidx) as Hp.
  destruct (choices_run n g m wt ltac:(lia) Hg Hm0 Hx Hw fuel j _ _ _ Hp) as (l1 & d1 & i1 & p1 & E1 & Hp1 & Hp10);
    [apply Z.mod_pos_bound; lia|done|].
  destruct (period_fair n g m wt ltac:(lia) Hg Hm0 Hx Hw fuel d1 i1 p1 Hp1 Hp10 HT) as (l2 & d2 & i2 & p2 & E2 & _ & _ & Hc).
  exists l1, d1, i1, l2, d2, i2. done.
Qed.
