(* ===== verification/LoadBalance.v ===== *)
(** * Choosing an interface of a load-balancing action

    Models [fill_load_balance_data] and [action_get_load_balance_index] of
    [src/actions/include/action_tools.h], the interface status readers of
    [src/sf_main/include/sf_interface_tools.h] and [load_balance_interfaces] of
    [src/actions/nodes/load_balance/load_balance_interface.c].  The threads that
    share an action are taken to run one after the other. *)
From S2P Require Import Prelude Wdata Action Wrr.

Implicit Types (w : sf_wdata_t) (a : sf_action_t).

(** ** Status of the interfaces *)

(** [interfaces_config->admin_status] and [interfaces_stat->intf_link]. *)
Record intf_status := mk_status { admin_status : gmap Z Z; intf_link : gmap Z Z }.
Implicit Types (ss : intf_status).

Definition get_interface_admin_status ss (intf_id : Z) : Z := (admin_status ss).[intf_id - 1].
Definition get_interface_link ss (intf_id : Z) : Z :=
  if decide (MAX_INTERFACE_CNT < intf_id) then 0 else (intf_link ss).[intf_id - 1].

Definition intf_up ss (intf_id : Z) : bool :=
  negb (get_interface_admin_status ss intf_id =? 0) && negb (get_interface_link ss intf_id =? 0).

(** ** What the hashes look at *)

Record load_balance_data_t := mk_lb_data {
  lb_src_ip : Z * Z; lb_dst_ip : Z * Z; lb_inner_exist : Z; lb_inner_sip : Z * Z; lb_inner_dip : Z * Z;
  lb_packet_type : Z
}.

Definition host_addr (v4 : bool) (x : ip_addr_t) : Z * Z :=
  if v4 then (bswap64 (u64 (Z.shiftl (addr_v6_upper x) 32)), bswap64 (u64 (Z.shiftl (addr_v6_lower x) 32)))
  else (bswap64 (addr_v6_upper x), bswap64 (addr_v6_lower x)).

(** Both indices of [get_l3_src_ip] name the only IP layer. *)
Definition fill_load_balance_data w : load_balance_data_t :=
  let v4 := bool_decide (version (ip_wdata w) = IP_VERSION_4) in
  let s := host_addr v4 (ip_sip (ip_wdata w)) in
  let d := host_addr v4 (ip_dip (ip_wdata w)) in
  mk_lb_data s d (if decide (1 < ip_wdata_cnt w) then 1 else 0) s d (packet_type w).

Definition round_robin a (num : Z) : Z * sf_action_t :=
  let i := u32 (load_balance_index a + 1) mod num in (i, with_balance (weight_data a) i a).

Definition action_get_load_balance_index (fuel : nat) a (data : load_balance_data_t) (num : Z) : option (Z * sf_action_t) :=
  let mode := load_balance_mode a in
  let '(s0, s1) := lb_src_ip data in
  let '(d0, d1) := lb_dst_ip data in
  if decide (num = 0) then Some (0, a)
  else if decide (mode = LOAD_BALANCE_MODE_NONE \/ mode = LOAD_BALANCE_MODE_ROUND_ROBIN) then Some (round_robin a num)
  else if decide (mode = LOAD_BALANCE_MODE_WRR) then
    let? (i, d, idx) := load_balance_get_weight_index fuel (weight_data a) (load_balance_weight a) num (load_balance_index a) in
    Some (i, with_balance d idx a)
  else if decide (mode = LOAD_BALANCE_MODE_OUTER_SRCDSTIP) then Some (u64 (s0 + s1 + d0 + d1) mod num, a)
  else if decide (mode = LOAD_BALANCE_MODE_OUTER_SRCIP) then Some (u64 (s0 + s1) mod num, a)
  else if decide (mode = LOAD_BALANCE_MODE_OUTER_DSTIP) then Some (u64 (d0 + d1) mod num, a)
  else Some (round_robin a num).

(** ** The choice, with the fallback when the chosen interface is down *)

(** [interface_array_real_load_balance], [interface_num_real_load_balance] and
    [interface_update_load_balance], by action id. *)
Record lb_statics := mk_statics { real_array : gmap Z (gmap Z Z); real_num : gmap Z Z; update_flag : gmap Z Z }.
Implicit Types (rs : lb_statics).
#[export] Instance zeroed_array : Zeroed (gmap Z Z) := (∅ : gmap Z Z).

(** The round-robin modes go on choosing; the counter and the interface. *)
Fixpoint retry_loop (fuel n : nat) ss a (data : load_balance_data_t) (num : Z) : option (bool * Z * sf_action_t) :=
  match n with
  | O => Some (false, INVALID_INTERFACE_ID, a)
  | S n =>
      let? (i, a) := action_get_load_balance_index fuel a data num in
      let id := (load_balance_interface_array a).[i] in
      if intf_up ss id then Some (true, id, a) else retry_loop fuel n ss a data num
  end.

Fixpoint collect_loop (n : nat) ss a (i num : Z) (arr : gmap Z Z) : gmap Z Z * Z :=
  match n with
  | O => (arr, num)
  | S n =>
      let id := (load_balance_interface_array a).[i] in
      if intf_up ss id then collect_loop n ss a (i + 1) (u16 (num + 1)) arr.[num <- id]
      else collect_loop n ss a (i + 1) num arr
  end.

(** The interface, the action and the arrays. *)
Definition load_balance_interfaces (fuel : nat) ss w a (action_id : Z) rs : option (Z * sf_action_t * lb_statics) :=
  let data := fill_load_balance_data w in
  let interface_num := load_balance_interfaces_num a in
  let? (index, a) := action_get_load_balance_index fuel a data interface_num in
  let id := (load_balance_interface_array a).[index] in
  if intf_up ss id then Some (id, a, rs)
  else if decide (load_balance_mode a = LOAD_BALANCE_MODE_ROUND_ROBIN \/ load_balance_mode a = LOAD_BALANCE_MODE_WRR) then
    let? (_, id, a) := retry_loop fuel (Z.to_nat MAX_LOAD_BALANCE_NODE) ss a data interface_num in
    Some (id, a, rs)
  else
    let k := action_id - 1 in
    let rs :=
      if decide ((update_flag rs).[k] <> 0xFF) then
        let '(arr, num) := collect_loop (Z.to_nat interface_num) ss a 0 0 (real_array rs).[k] in
        mk_statics (real_array rs).[k <- arr] (real_num rs).[k <- num] (update_flag rs).[k <- 1]
      else rs in
    if decide ((real_num rs).[k] = 0) then Some (INVALID_INTERFACE_ID, a, rs)
    else
      let? (index, a) := action_get_load_balance_index fuel a data (real_num rs).[k] in
      Some ((real_array rs).[k].[index], a, rs).

(** ** What a choice changes *)

(** The index and the weight variables only. *)
Definition same_action a a' : Prop :=
  a' = with_balance (weight_data a') (load_balance_index a') a.

Lemma same_action_refl a : same_action a a.
Proof. by destruct a. Qed.

Lemma same_action_trans a b c : same_action a b -> same_action b c -> same_action a c.
Proof. unfold same_action. intros E1 E2. rewrite E2 at 1. rewrite E1. by destruct a, c. Qed.

Lemma same_action_array a a' : same_action a a' ->
  load_balance_interface_array a' = load_balance_interface_array a /\
  load_balance_interfaces_num a' = load_balance_interfaces_num a /\ load_balance_mode a' = load_balance_mode a /\
  load_balance_weight a' = load_balance_weight a.
Proof. unfold same_action. by intros ->. Qed.

Lemma weight_index_range fuel weight num : 0 < num -> forall d index i d' index',
  load_balance_get_weight_index fuel d weight num index = Some (i, d', index') -> 0 <= i < num.
Proof.
  intros Hn. induction fuel as [|fuel IH]; intros d index i d' index'; [done|]. cbn [load_balance_get_weight_index].
  pose proof (wrap_range 32 (index + 1) ltac:(lia)). set (j := Z.rem (u32 (index + 1)) num).
  assert (0 <= j < num) by (unfold j; rewrite Z.rem_mod_nonneg by lia; apply Z.mod_pos_bound; lia).
  cbv zeta. destruct (decide (cw _ <= _)); [by intros [= <- <- <-]|]. apply IH.
Qed.

Lemma get_index_spec fuel a data num i a' : 0 < num ->
  action_get_load_balance_index fuel a data num = Some (i, a') -> 0 <= i < num /\ same_action a a'.
Proof.
  intros Hn. unfold action_get_load_balance_index. destruct (lb_src_ip data) as [s0 s1], (lb_dst_ip data) as [d0 d1].
  assert (Hmod : forall z, 0 <= z mod num < num) by (intros z; apply Z.mod_pos_bound; lia).
  rewrite decide_False by lia.
  destruct (decide (_ \/ _)); [intros [= <- <-]; split; [apply Hmod|done]|].
  destruct (decide _).
  { intros E. apply obind_Some in E as ([[j d] idx] & E & [= <- <-]). split; [by apply weight_index_range in E|done]. }
  destruct (decide _); [intros [= <- <-]; split; [apply Hmod|apply same_action_refl]|].
  destruct (decide _); [intros [= <- <-]; split; [apply Hmod|apply same_action_refl]|].
  destruct (decide _); [intros [= <- <-]; split; [apply Hmod|apply same_action_refl]|].
  intros [= <- <-]. split; [apply Hmod|done].
Qed.

(** ** The retries *)

(** The indices of [k] choices in a row. *)
Fixpoint index_seq (k fuel : nat) a (data : load_balance_data_t) (num : Z) : option (list Z * sf_action_t) :=
  match k with
  | O => Some ([], a)
  | S k =>
      let? (i, a) := action_get_load_balance_index fuel a data num in
      let? (l, a) := index_seq k fuel a data num in
      Some (i :: l, a)
  end.

(** An interface of the action that is up. *)
Definition up_member ss a (x : Z) : Prop :=
  intf_up ss x = true /\ exists i, 0 <= i < load_balance_interfaces_num a /\ (load_balance_interface_array a).[i] = x.

Lemma up_member_same ss a a' x : same_action a a' -> up_member ss a' x -> up_member ss a x.
Proof. intros Hs [Hu Hi]. destruct (same_action_array a a' Hs) as (E1 & E2 & _). split; [done|]. by rewrite E1, E2 in Hi. Qed.

Lemma retry_finds fuel ss data k : forall n a l a',
  0 < load_balance_interfaces_num a -> index_seq k fuel a data (load_balance_interfaces_num a) = Some (l, a') ->
  (exists i, i ∈ l /\ intf_up ss (load_balance_interface_array a).[i] = true) -> (k <= n)%nat ->
  exists x a'', retry_loop fuel n ss a data (load_balance_interfaces_num a) = Some (true, x, a'') /\
    up_member ss a x /\ same_action a a''.
Proof.
  induction k as [|k IH]; intros n a l a' Hn Hs (i & Hi & Hu) Hk; cbn [index_seq] in Hs.
  - injection Hs as <- <-. by apply not_elem_of_nil in Hi.
  - destruct n as [|n]; [lia|]. apply obind_Some in Hs as ([j a1] & E1 & Hs).
    apply obind_Some in Hs as ([l1 a2] & E2 & [= <- <-]). destruct (get_index_spec _ _ _ _ _ _ Hn E1) as [Hj Ha1].
    destruct (same_action_array a a1 Ha1) as (Ea & En & _).
    cbn [retry_loop]. rewrite E1. cbn [obind]. rewrite Ea.
    destruct (intf_up ss (load_balance_interface_array a).[j]) eqn:Ej.
    + eexists _, a1. split_and!; [done|split; [done|by exists j]|done].
    + rewrite <- En in E2 |- *. destruct (IH n a1 l1 a2) as (x & a3 & E & Hx & Hs3); [by rewrite En|done| |lia|].
      * exists i. rewrite Ea. split; [|done]. apply elem_of_cons in Hi as [->|Hi]; [congruence|done].
      * exists x, a3. split_and!; [done|by apply (up_member_same ss a a1)|by apply (same_action_trans a a1)].
Qed.

Lemma retry_loop_total fuel ss data num n : 0 < num -> forall a,
  (forall k, exists l a', index_seq k fuel a data num = Some (l, a')) ->
  exists b x a', retry_loop fuel n ss a data num = Some (b, x, a') /\ same_action a a' /\ (b = false -> x = INVALID_INTERFACE_ID).
Proof.
  intros Hn. induction n as [|n IH]; intros a Hseq; [eexists _, _, _; split_and!; [done|apply same_action_refl|done]|].
  destruct (Hseq 1%nat) as (l & a1 & E). cbn [index_seq] in E. apply obind_Some in E as ([j a2] & E1 & _).
  destruct (get_index_spec _ _ _ _ _ _ Hn E1) as [_ Ha2]. cbn [retry_loop]. rewrite E1. cbn [obind].
  destruct (intf_up ss _); [by eexists _, _, _|].
  destruct (IH a2) as (b & x & a3 & E3 & Hs & Hb).
  - intros k. destruct (Hseq (S k)) as (l2 & a4 & E4). cbn [index_seq] in E4. rewrite E1 in E4. cbn [obind] in E4.
    apply obind_Some in E4 as ([l3 a5] & E5 & _). by exists l3, a5.
  - exists b, x, a3. split_and!; [done|by apply (same_action_trans a a2)|done].
Qed.

Lemma retry_up fuel ss data num n : 0 < num -> forall a x a',
  retry_loop fuel n ss a data num = Some (true, x, a') ->
  intf_up ss x = true /\ exists i, 0 <= i < num /\ (load_balance_interface_array a).[i] = x.
Proof.
  intros Hn. induction n as [|n IH]; intros a x a'; cbn [retry_loop]; [done|].
  intros E. apply obind_Some in E as ([j a1] & E1 & E). destruct (get_index_spec _ _ _ _ _ _ Hn E1) as [Hj Ha1].
  destruct (same_action_array a a1 Ha1) as (Ea & _). rewrite Ea in E.
  destruct (intf_up ss (load_balance_interface_array a).[j]) eqn:Ej.
  - injection E as <- <-. split; [done|by exists j].
  - apply IH in E. by rewrite Ea in E.
Qed.

(** *** Plain round robin visits every index *)

Definition rotates a : Prop :=
  load_balance_mode a = LOAD_BALANCE_MODE_NONE \/ load_balance_mode a = LOAD_BALANCE_MODE_ROUND_ROBIN.

Lemma rotates_index fuel a data num : rotates a -> 0 < num ->
  action_get_load_balance_index fuel a data num = Some (round_robin a num).
Proof.
  intros Hr Hn. unfold action_get_load_balance_index. destruct (lb_src_ip data), (lb_dst_ip data).
  by rewrite decide_False, decide_True by (done || lia).
Qed.

Lemma rotation_seq fuel data num k : 0 < num < 2 ^ 31 -> forall a, rotates a -> 0 <= load_balance_index a < num ->
  exists a', index_seq k fuel a data num =
    Some (map (fun j => (load_balance_index a + 1 + j) mod num) (seqZ 0 (Z.of_nat k)), a').
Proof.
  intros Hn. induction k as [|k IH]; intros a Hr Hi; [by exists a|].
  cbn [index_seq]. rewrite rotates_index by (done || lia). unfold round_robin.
  rewrite wrap_small by lia. cbn [obind].
  set (a1 := with_balance (weight_data a) ((load_balance_index a + 1) mod num) a).
  destruct (IH a1) as (a' & E); [done|apply Z.mod_pos_bound; lia|]. rewrite E. cbn [obind]. exists a'. do 2 f_equal.
  rewrite Nat2Z.inj_succ. unfold Z.succ. rewrite seqZ_succ by lia. cbn [map]. rewrite Z.add_0_r. f_equal.
  rewrite seqZ_shift, map_map. apply map_ext.
  intros j. cbn [load_balance_index with_balance a1]. rewrite <- Z.add_assoc, Zplus_mod_idemp_l. f_equal.
Qed.

Lemma rotation_covers idx num i : 0 < num -> 0 <= i < num ->
  i ∈ map (fun j => (idx + 1 + j) mod num) (seqZ 0 num).
Proof.
  intros Hn Hi. apply list_elem_of_In, in_map_iff. exists ((i - (idx + 1)) mod num).
  split; [|apply list_elem_of_In, elem_of_seqZ; pose proof (Z.mod_pos_bound (i - (idx + 1)) num Hn); lia].
  rewrite Zplus_mod_idemp_r. replace (idx + 1 + (i - (idx + 1))) with i by lia. by apply Z.mod_small.
Qed.

(** *** The weighted one visits every index within its period *)

(** An action as the configuration leaves it and the choices keep it, whose
    period is at most [K]. *)
Definition wrr_ready (fuel : nat) (K : Z) a : Prop :=
  load_balance_mode a = LOAD_BALANCE_MODE_WRR /\ exists g m p,
    0 < g /\ 0 < m /\ (m + 1) * g < 2 ^ 31 /\ 0 <= p /\ load_balance_interfaces_num a * m < Z.of_nat fuel /\
    (forall i, 0 <= i < load_balance_interfaces_num a -> g <= (load_balance_weight a).[i] <= m * g /\ (g | (load_balance_weight a).[i])) /\
    at_position (load_balance_interfaces_num a) g m (weight_data a) (load_balance_index a) p /\
    period (load_balance_interfaces_num a) g (load_balance_weight a) <= K.

Lemma wrr_index fuel a data num : load_balance_mode a = LOAD_BALANCE_MODE_WRR -> 0 < num ->
  action_get_load_balance_index fuel a data num =
  let? (i, d, idx) := load_balance_get_weight_index fuel (weight_data a) (load_balance_weight a) num (load_balance_index a) in
  Some (i, with_balance d idx a).
Proof.
  intros Hm Hn. unfold action_get_load_balance_index. destruct (lb_src_ip data), (lb_dst_ip data).
  rewrite decide_False by lia. rewrite decide_False by (rewrite Hm; intros [?|?]; done).
  by rewrite (decide_True (P := load_balance_mode a = LOAD_BALANCE_MODE_WRR)).
Qed.

Lemma wrr_seq fuel data num k : 0 < num -> forall a l d idx, load_balance_mode a = LOAD_BALANCE_MODE_WRR ->
  wrr_choices num (load_balance_weight a) k fuel (weight_data a) (load_balance_index a) = Some (l, d, idx) ->
  index_seq k fuel a data num = Some (l, with_balance d idx a).
Proof.
  intros Hn. induction k as [|k IH]; intros a l d idx Hm; cbn [wrr_choices index_seq].
  - intros [= <- <- <-]. by destruct a.
  - intros E. apply obind_Some in E as ([[i d1] i1] & E1 & E). apply obind_Some in E as ([[l2 d2] i2] & E2 & [= <- <- <-]).
    rewrite wrr_index by done. rewrite E1. cbn [obind].
    by rewrite (IH (with_balance d1 i1 a) l2 d2 i2 Hm E2).
Qed.

Lemma count_in f l i : count f l <> 0 -> (forall x, f x = true -> x = i) -> i ∈ l.
Proof.
  induction l as [|x l IH]; [by rewrite count_nil|]. rewrite count_cons. intros Hc Hf.
  destruct (f x) eqn:Ex; [rewrite (Hf x Ex); left|right]. apply IH; [lia|done].
Qed.

(** Within [K] choices every interface has its turn. *)
Lemma wrr_covers fuel K a data : 0 < load_balance_interfaces_num a <= MAX_INTERFACE_CNT -> wrr_ready fuel K a ->
  exists l a', index_seq (Z.to_nat (period (load_balance_interfaces_num a)
    (gcd (weight_data a)) (load_balance_weight a))) fuel a data (load_balance_interfaces_num a) = Some (l, a') /\
    (forall i, 0 <= i < load_balance_interfaces_num a -> i ∈ l) /\
    period (load_balance_interfaces_num a) (gcd (weight_data a)) (load_balance_weight a) <= K.
Proof.
  unfold MAX_INTERFACE_CNT. intros Hn (Hmode & g & m & p & Hg & Hm & Hov & Hp0 & Hf & Hw & Hp & HK).
  pose proof Hp as (_ & Eg & _). rewrite Eg. set (n := load_balance_interfaces_num a) in *.
  destruct (period_fair n g m (load_balance_weight a) ltac:(lia) Hg Hm Hov Hw fuel _ _ p Hp Hp0 Hf)
    as (l & d & idx & p' & E & _ & _ & Hc).
  eexists l, _. split; [by apply wrr_seq; [lia|done|]|]. split; [|done]. intros i Hi.
  apply (count_in (fun x => x =? i)); [|intros x Hx; lia]. rewrite Hc by done. destruct (Hw i Hi) as [Hw1 _].
  assert (1 <= (load_balance_weight a).[i] / g) by (apply Z.div_le_lower_bound; lia). lia.
Qed.

Lemma wrr_total fuel K a data k : 0 < load_balance_interfaces_num a <= MAX_INTERFACE_CNT -> wrr_ready fuel K a ->
  exists l a', index_seq k fuel a data (load_balance_interfaces_num a) = Some (l, a').
Proof.
  unfold MAX_INTERFACE_CNT. intros Hn (Hmode & g & m & p & Hg & Hm & Hov & Hp0 & Hf & Hw & Hp & HK).
  destruct (choices_run (load_balance_interfaces_num a) g m (load_balance_weight a) ltac:(lia) Hg Hm Hov Hw fuel k _ _ p Hp Hp0 Hf)
    as (l & d & idx & p' & E & _).
  eexists l, _. by apply wrr_seq; [lia|done|].
Qed.

(** A choice keeps it ready. *)
Lemma wrr_step fuel K a data : 0 < load_balance_interfaces_num a <= MAX_INTERFACE_CNT -> wrr_ready fuel K a ->
  exists i a', action_get_load_balance_index fuel a data (load_balance_interfaces_num a) = Some (i, a') /\ wrr_ready fuel K a'.
Proof.
  unfold MAX_INTERFACE_CNT. intros Hn (Hmode & g & m & p & Hg & Hm & Hov & Hp0 & Hf & Hw & Hp & HK).
  destruct (choices_run (load_balance_interfaces_num a) g m (load_balance_weight a) ltac:(lia) Hg Hm Hov Hw fuel 1 _ _ p Hp Hp0 Hf)
    as (l & d & idx & p' & E & Hp' & Hp0').
  cbn [wrr_choices] in E. apply obind_Some in E as ([[i d1] i1] & E1 & [= <- <- <-]).
  rewrite wrr_index by (done || lia). rewrite E1. cbn [obind]. eexists _, _. split; [done|].
  split; [done|]. by exists g, m, p'.
Qed.

(** *** The list of interfaces that are up *)

Lemma collect_spec ss a n : forall i num arr, 0 <= i -> 0 <= num -> num + Z.of_nat n < 2 ^ 16 ->
  exists arr' num', collect_loop n ss a i num arr = (arr', num') /\ num <= num' < 2 ^ 16 /\
    (forall j, j < num -> arr'.[j] = arr.[j]) /\
    (forall j, num <= j < num' -> intf_up ss arr'.[j] = true /\
       exists q, i <= q < i + Z.of_nat n /\ (load_balance_interface_array a).[q] = arr'.[j]) /\
    ((exists q, i <= q < i + Z.of_nat n /\ intf_up ss (load_balance_interface_array a).[q] = true) <-> num < num').
Proof.
  induction n as [|n IH]; intros i num arr Hi Hn Hs; cbn [collect_loop].
  - exists arr, num. split_and!; [done|lia..|done| |]; [intros j; lia|]. split; [intros (q & ? & _); lia|lia].
  - destruct (intf_up ss (load_balance_interface_array a).[i]) eqn:Eu.
    + rewrite wrap_small by lia.
      destruct (IH (i + 1) (num + 1) arr.[num <- (load_balance_interface_array a).[i]]) as (arr' & num' & E & Hr & Hk & Hin & _);
        [lia..|]. exists arr', num'. split_and!; [done|lia|lia| | |].
      * intros j Hj. rewrite Hk, aget_aset_ne by lia. done.
      * intros j Hj. destruct (decide (j = num)) as [->|].
        { rewrite Hk, aget_aset_eq by lia. split; [done|]. exists i. split; [lia|done]. }
        destruct (Hin j) as (Hup & q & Hq & Eq); [lia|]. split; [done|]. exists q. split; [lia|done].
      * split; [lia|]. intros _. exists i. split; [lia|done].
    + destruct (IH (i + 1) num arr) as (arr' & num' & E & Hr & Hk & Hin & Hiff); [lia..|].
      exists arr', num'. split_and!; [done|lia|lia|done| |].
      * intros j Hj. destruct (Hin j Hj) as (Hup & q & Hq & Eq). split; [done|]. exists q. split; [lia|done].
      * rewrite <- Hiff. split; intros (q & Hq & Hup); exists q; (split; [|done]); [|lia].
        destruct (decide (q = i)) as [->|]; [congruence|lia].
Qed.

(** ** The choice finds an interface that is up *)

(** The index is in range, or the weighted scheme is where its choices leave it. *)
Definition balance_ready (fuel : nat) a : Prop :=
  0 < load_balance_interfaces_num a <= MAX_INTERFACE_CNT /\
  (load_balance_mode a = LOAD_BALANCE_MODE_ROUND_ROBIN -> 0 <= load_balance_index a < load_balance_interfaces_num a) /\
  (load_balance_mode a = LOAD_BALANCE_MODE_WRR -> wrr_ready fuel MAX_LOAD_BALANCE_NODE a).

Lemma index_total fuel a data num : 0 < num -> load_balance_mode a <> LOAD_BALANCE_MODE_WRR ->
  exists i a', action_get_load_balance_index fuel a data num = Some (i, a').
Proof.
  intros Hn Hm. unfold action_get_load_balance_index. destruct (lb_src_ip data), (lb_dst_ip data).
  rewrite decide_False by lia. destruct (decide (_ \/ _)); [by eexists _, _|].
  rewrite decide_False by done. repeat (destruct (decide _); [by eexists _, _|]). by eexists _, _.
Qed.

Lemma ready_step fuel a data : balance_ready fuel a ->
  exists i a', action_get_load_balance_index fuel a data (load_balance_interfaces_num a) = Some (i, a') /\
    0 <= i < load_balance_interfaces_num a /\ same_action a a' /\ balance_ready fuel a'.
Proof.
  intros (Hn & Hrr & Hw). destruct (decide (load_balance_mode a = LOAD_BALANCE_MODE_WRR)) as [Hm|Hm].
  - destruct (wrr_step fuel _ a data Hn (Hw Hm)) as (i & a' & E & Hr).
    destruct (get_index_spec _ _ _ _ _ _ (proj1 Hn) E) as [Hi Hs]. destruct (same_action_array a a' Hs) as (_ & En & Em & _).
    exists i, a'. split_and!; try done; try lia. unfold balance_ready. rewrite En, Em. split_and!; try lia; [|done].
    intros Hc. by rewrite Hm in Hc.
  - destruct (index_total fuel a data (load_balance_interfaces_num a) (proj1 Hn) Hm) as (i & a' & E).
    destruct (get_index_spec _ _ _ _ _ _ (proj1 Hn) E) as [Hi Hs]. destruct (same_action_array a a' Hs) as (_ & En & Em & _).
    exists i, a'. split_and!; try done; try lia. unfold balance_ready. rewrite En, Em. split_and!; try lia.
    intros Hr. rewrite rotates_index in E by (lia || by right). injection E as _ <-. cbn. apply Z.mod_pos_bound. lia.
Qed.

(** The retries, for the two modes that retry. *)
Lemma ready_retry fuel ss a data : balance_ready fuel a ->
  load_balance_mode a = LOAD_BALANCE_MODE_ROUND_ROBIN \/ load_balance_mode a = LOAD_BALANCE_MODE_WRR ->
  exists b x a', retry_loop fuel (Z.to_nat MAX_LOAD_BALANCE_NODE) ss a data (load_balance_interfaces_num a) = Some (b, x, a') /\
    same_action a a' /\ ((exists y, up_member ss a y) -> up_member ss a x) /\
    ((~ exists y, up_member ss a y) -> x = INVALID_INTERFACE_ID).
Proof.
  intros (Hn & Hrr & Hw) Hm. unfold MAX_INTERFACE_CNT in Hn. set (n := load_balance_interfaces_num a) in *.
  assert (Hseq : exists k l a', index_seq k fuel a data n = Some (l, a') /\ (forall i, 0 <= i < n -> i ∈ l) /\
    (k <= Z.to_nat MAX_LOAD_BALANCE_NODE)%nat).
  { destruct Hm as [Hm|Hm].
    - destruct (rotation_seq fuel data n (Z.to_nat n) ltac:(lia) a (or_intror Hm) (Hrr Hm)) as (a' & E).
      rewrite Z2Nat.id in E by lia. eexists _, _, _. split_and!; [done|intros i Hi; apply rotation_covers; lia|].
      unfold MAX_LOAD_BALANCE_NODE. lia.
    - destruct (wrr_covers fuel _ a data Hn (Hw Hm)) as (l & a' & E & Hc & HK).
      eexists _, l, a'. split_and!; [done|done|]. unfold MAX_LOAD_BALANCE_NODE in *. lia. }
  destruct Hseq as (k & l & a1 & E1 & Hall & Hk).
  assert (Htot : forall j, exists l a', index_seq j fuel a data n = Some (l, a')).
  { intros j. destruct Hm as [Hm|Hm]; [|by apply (wrr_total fuel MAX_LOAD_BALANCE_NODE); [|apply Hw]].
    destruct (rotation_seq fuel data n j ltac:(lia) a (or_intror Hm) (Hrr Hm)) as (a' & E). by eexists _, a'. }
  destruct (retry_loop_total fuel ss data n (Z.to_nat MAX_LOAD_BALANCE_NODE) ltac:(lia) a Htot) as (b & x & a' & E & Hs & Hb).
  exists b, x, a'. split_and!; [done|done| |].
  - intros (y & Hy & i & Hi & Ei).
    destruct (retry_finds fuel ss data k (Z.to_nat MAX_LOAD_BALANCE_NODE) a l a1) as (x2 & a2 & E2 & Hx2 & _);
      [fold n; lia|done| |done|].
    + exists i. split; [by apply Hall|]. by rewrite Ei.
    + fold n in E2. rewrite E in E2. injection E2 as -> -> ->. done.
  - intros Hno. destruct b; [|by apply Hb]. destruct Hno. destruct (retry_up fuel ss data n _ ltac:(lia) _ _ _ E) as [Hu Hi].
    exists x. split; done.
Qed.

Lemma load_balance_finds_up_aux fuel ss w a id rs :
  balance_ready fuel a -> (update_flag rs).[id - 1] <> 0xFF ->
  exists x a' rs', load_balance_interfaces fuel ss w a id rs = Some (x, a', rs') /\ same_action a a' /\
    ((exists y, up_member ss a y) -> up_member ss a x) /\
    ((~ exists y, up_member ss a y) -> x = INVALID_INTERFACE_ID).
Proof.
  intros Hr Hflag. pose proof Hr as (Hn & _ & _). unfold MAX_INTERFACE_CNT in Hn. unfold load_balance_interfaces.
  set (data := fill_load_balance_data w).
  destruct (ready_step fuel a data Hr) as (i & a1 & E1 & Hi & Hs1 & Hr1). rewrite E1. cbn [obind].
  destruct (same_action_array a a1 Hs1) as (Ea & En & Em & _). rewrite Ea, Em.
  destruct (intf_up ss (load_balance_interface_array a).[i]) eqn:Eu.
  { eexists _, a1, rs. split_and!; [done|done| |]; [intros _; split; [done|by exists i]|].
    intros Hno. destruct Hno. eexists. split; [done|by exists i]. }
  destruct (decide (_ \/ _)) as [Hm|Hm].
  - rewrite <- Em in Hm. destruct (ready_retry fuel ss a1 data Hr1 Hm) as (b & x & a2 & E2 & Hs2 & Hup & Hno).
    rewrite <- En, E2. cbn [obind]. eexists x, a2, rs. split_and!; [done|by apply (same_action_trans a a1)| |].
    + intros (y & Hy). apply (up_member_same ss a a1); [done|]. apply Hup. exists y.
      destruct Hy as [Hy Hmem]. split; [done|]. by rewrite Ea, En.
    + intros Hne. apply Hno. intros (y & Hy). destruct Hne. exists y. by apply (up_member_same ss a a1).
  - cbv zeta. rewrite (decide_True (P := (update_flag rs).[id - 1] <> 0xFF)) by done.
    destruct (collect_spec ss a1 (Z.to_nat (load_balance_interfaces_num a)) 0 0 (real_array rs).[id - 1])
      as (arr & num & Ec & Hnum & _ & Hin & Hiff); [lia..|].
    rewrite Ec. cbn [real_num real_array]. rewrite !aget_aset_eq. rewrite Ea in Hin, Hiff.
    rewrite Z2Nat.id, Z.add_0_l in Hin, Hiff by lia. destruct (decide (num = 0)) as [->|Hnz].
    + eexists _, a1, _. split_and!; [done|done| |done]. intros (y & Hy & q & Hq & Eq).
      assert (0 < 0); [|lia]. apply Hiff. exists q. split; [done|by rewrite Eq].
    + assert (Hmw : load_balance_mode a1 <> LOAD_BALANCE_MODE_WRR) by (rewrite Em; intros Hc; apply Hm; by right).
      destruct (index_total fuel a1 data num ltac:(lia) Hmw) as (j & a2 & E2).
      destruct (get_index_spec fuel a1 data num j a2 ltac:(lia) E2) as [Hj Hs2]. rewrite E2. cbn [obind].
      destruct (Hin j ltac:(lia)) as (Hup & q & Hq & Eq).
      eexists _, a2, _. split_and!; [done|by apply (same_action_trans a a1)| |].
      * intros _. split; [done|]. exists q. split; [lia|done].
      * intros Hno. destruct Hno. eexists. split; [exact Hup|]. exists q. split; [lia|done].
Qed.

(** The load balancer uses an interface that is up whenever there is one.  For
    every mode, with an action of 1 to 63 interfaces, in the state the
    configuration and its own choices leave it in, and (in the weighted mode) a
    sum of weights of at most 64 units, the choice returns: an interface of the
    action whose administrative and link status are up if the action has one, the
    invalid interface, for which the packet is dropped, if it has none; of the
    action only the index and the weight variables change. *)
Theorem load_balance_finds_up fuel ss w a id rs :
  balance_ready fuel a -> (update_flag rs).[id - 1] <> 0xFF ->
  exists x a' rs', load_balance_interfaces fuel ss w a id rs = Some (x, a', rs') /\ same_action a a' /\
    ((exists y, up_member ss a y) -> up_member ss a x) /\
    ((~ exists y, up_member ss a y) -> x = INVALID_INTERFACE_ID).
Proof. apply load_balance_finds_up_aux. Qed.
