(* ===== verification/Encap.v ===== *)
(** * Encapsulation

    Models the nodes of [src/actions/nodes/additional/]: [node_action_encap_gre.c],
    [node_action_encap_vxlan.c] and [node_action_encap_erspan.c] write an outer
    Ethernet, IP and tunnel header in front of a packet, from a template filled
    when the program starts and from the packet's action and interface.  The
    IPv4 header checksum is VPP's; the time stamp of an ERSPAN III header, read
    from two clocks, is an argument. *)
From S2P Require Import Prelude FrameLoop Wdata Decode Action.

Implicit Types (w : sf_wdata_t) (mem : gmap Z Z) (t : tunnel_t) (x : additional_action_t).

(** [ip4_header_checksum] of the 20 bytes of a header, as stored. *)
Class Ip4Checksum := ip4_header_checksum : list Z -> Z.

(** The addresses of an interface ([sf_inferface_t]). *)
Record intf_addr := mk_intf_addr { mac : list Z; ipv4_addr : list Z; ipv6_addr : ip_addr_t }.
#[export] Instance zeroed_intf_addr : Zeroed intf_addr := mk_intf_addr (repeat 0 6) (repeat 0 4) (mk_addr 0 0).
Implicit Types (c : intf_addr).

Definition IP_PRO_GRE : Z := 47.
Definition GRE_HEADER_LEN : Z := 4.
Definition VXLAN_HEADER_LEN : Z := 8.
Definition IPV4_HEADER_LEN : Z := 20.
Definition VXLAN_FLAGS : Z := 0x08.
Definition DEFAULT_VXLAN_UDP_PORT : Z := 0xb512.

(** ** Templates *)

Definition eth_template (eth_type : Z) : list Z :=
  repeat 0 6 ++ [0x11; 0x22; 0x33; 0x44; 0x55; 0x66] ++ le_bytes 2 eth_type.
Definition ip4_template (proto : Z) : list Z :=
  [0x45; 0] ++ [0; 0] ++ [0; 0] ++ [0; 0] ++ [0x40; proto] ++ [0; 0] ++ le_bytes 4 (bswap32 0xc0a8fffe) ++ repeat 0 4.
Definition template_sip6 : ip_addr_t := mk_addr (bswap64 0xabcdabcdabcdabcd) (bswap64 0x1234123412341234).
Definition ip6_template (proto : Z) : list Z :=
  [0x60; 0; 0; 0] ++ [0; 0] ++ [proto; 0x40] ++ addr_bytes template_sip6 ++ repeat 0 16.
Definition gre_template (proto : Z) : list Z := le_bytes 2 0 ++ le_bytes 2 (bswap16 proto).
Definition udp_template : list Z := le_bytes 2 DEFAULT_VXLAN_UDP_PORT ++ [0; 0] ++ [0; 0] ++ [0; 0].
Definition vxlan_template : list Z := le_bytes 4 VXLAN_FLAGS ++ repeat 0 4.

Definition outer_template (dip_type proto : Z) : list Z :=
  if decide (dip_type = 4) then eth_template ETHER_IPV4_NET_ORDER ++ ip4_template proto
  else eth_template ETHER_IPV6_NET_ORDER ++ ip6_template proto.

Definition gre_encap_hdr_template : list Z := outer_template 4 IP_PRO_GRE ++ gre_template 0x6558.
Definition gre_encap_hdr_template_ipv6 : list Z := outer_template 6 IP_PRO_GRE ++ gre_template 0x6558.
Definition vxlan_encap_hdr_template : list Z := outer_template 4 IP_PRO_UDP ++ udp_template ++ vxlan_template.
Definition vxlan_encap_hdr_template_ipv6 : list Z := outer_template 6 IP_PRO_UDP ++ udp_template ++ vxlan_template.
Definition erspan_encap_common_hdr_template : list Z := outer_template 4 IP_PRO_GRE ++ gre_template 0x88BE.
Definition erspan_encap_common_hdr_template_ipv6 : list Z := outer_template 6 IP_PRO_GRE ++ gre_template 0x88BE.

Definition gre_encap_hdr_len : Z := 38.
Definition gre_encap_hdr_v6_len : Z := 58.
Definition vxlan_encap_hdr_len : Z := 50.
Definition vxlan_encap_hdr_v6_len : Z := 70.

(** ** Assignments to a header at [p] *)

Definition le_set (n : nat) (a v : Z) mem : gmap Z Z := poke mem a (le_bytes n v).

Definition set_macs c t (p : Z) mem : gmap Z Z := poke (poke mem (p + 6) (mac c)) p (tn_dmac t).

Definition has_ipv4 c : bool := existsb (fun b => negb (b =? 0)) (ipv4_addr c).
Definition has_ipv6 c : bool := negb (addr_v6_upper (ipv6_addr c) =? 0) || negb (addr_v6_lower (ipv6_addr c) =? 0).

Definition set_ip4 c t (p : Z) mem : gmap Z Z :=
  let mem := mem.[p + 15 <- tn_dscp t] in
  let mem := if has_ipv4 c then poke mem (p + 26) (ipv4_addr c) else mem in
  le_set 4 (p + 30) (addr_v4 (tn_dip t)) mem.
Definition set_totalLen (n p : Z) mem : gmap Z Z := le_set 2 (p + 16) (bswap16 (u16 n)) mem.
Definition set_checksum `{Ip4Checksum} (p : Z) mem : gmap Z Z :=
  le_set 2 (p + 24) (ip4_header_checksum (bytes_at mem (p + 14) 20)) mem.

(** The two halves of a byte. *)
Definition set_low4 (a v : Z) mem : gmap Z Z := mem.[a <- mem.[a] / 16 * 16 + v mod 16].
Definition set_high4 (a v : Z) mem : gmap Z Z := mem.[a <- v mod 16 * 16 + mem.[a] mod 16].
Definition ip6_hdr_set_traffic_class (a v : Z) mem : gmap Z Z :=
  set_high4 (a + 1) (Z.land v 0xF) (set_low4 a (Z.shiftr v 4) mem).

Definition set_ip6 c t (p : Z) mem : gmap Z Z :=
  let mem := ip6_hdr_set_traffic_class (p + 14) (tn_dscp t) mem in
  let mem := if has_ipv6 c then poke mem (p + 22) (addr_bytes (ipv6_addr c)) else mem in
  poke mem (p + 38) (addr_bytes (tn_dip t)).
Definition set_payload_len6 (n p : Z) mem : gmap Z Z := le_set 2 (p + 18) (bswap16 (u16 n)) mem.

(** ** GRE *)

Section nodes.
Context `{Ip4Checksum}.

Definition encap_gre c t mem w : gmap Z Z * sf_wdata_t :=
  if decide (tn_dip_type t = 4) then
    let p := sf_wqe_get_current w - gre_encap_hdr_len in
    let mem := poke mem p gre_encap_hdr_template in
    let mem := set_ip4 c t p (set_macs c t p mem) in
    let mem := set_totalLen (IPV4_HEADER_LEN + GRE_HEADER_LEN + current_length w) p mem in
    (set_checksum p mem, sf_wqe_advance (- gre_encap_hdr_len) w)
  else if decide (tn_dip_type t = 6) then
    let p := sf_wqe_get_current w - gre_encap_hdr_v6_len in
    let mem := poke mem p gre_encap_hdr_template_ipv6 in
    let mem := set_ip6 c t p (set_macs c t p mem) in
    (set_payload_len6 (GRE_HEADER_LEN + current_length w) p mem, sf_wqe_advance (- gre_encap_hdr_v6_len) w)
  else (mem, w).

(** ** VXLAN *)

Definition encap_vxlan c x mem w : gmap Z Z * sf_wdata_t :=
  let t := vxlan x in
  if decide (tn_dip_type t = 4) then
    let p := sf_wqe_get_current w - vxlan_encap_hdr_len in
    let mem := poke mem p vxlan_encap_hdr_template in
    let mem := set_ip4 c t p (set_macs c t p mem) in
    let mem := le_set 2 (p + 36) (vxlan_dport x) mem in
    let mem := le_set 4 (p + 46) (vxlan_vni x) mem in
    let mem := set_totalLen (IPV4_HEADER_LEN + UDP_HEADER_LEN + VXLAN_HEADER_LEN + current_length w) p mem in
    let mem := le_set 2 (p + 38) (bswap16 (u16 (UDP_HEADER_LEN + VXLAN_HEADER_LEN + current_length w))) mem in
    (set_checksum p mem, sf_wqe_advance (- vxlan_encap_hdr_len) w)
  else if decide (tn_dip_type t = 6) then
    let p := sf_wqe_get_current w - vxlan_encap_hdr_v6_len in
    let mem := poke mem p vxlan_encap_hdr_template_ipv6 in
    let mem := set_ip6 c t p (set_macs c t p mem) in
    let mem := le_set 2 (p + 56) (vxlan_dport x) mem in
    let mem := le_set 4 (p + 66) (vxlan_vni x) mem in
    let mem := set_payload_len6 (UDP_HEADER_LEN + VXLAN_HEADER_LEN + current_length w) p mem in
    let mem := le_set 2 (p + 58) (bswap16 (u16 (UDP_HEADER_LEN + VXLAN_HEADER_LEN + current_length w))) mem in
    (mem, sf_wqe_advance (- vxlan_encap_hdr_v6_len) w)
  else (mem, w).

(** ** ERSPAN *)

(** A bit-field of [n] bits from bit [lo]. *)
Definition set_field (lo n v z : Z) : Z :=
  z mod 2 ^ lo + v mod 2 ^ n * 2 ^ lo + z / 2 ^ (lo + n) * 2 ^ (lo + n).
Definition put_field (a lo n v : Z) mem : gmap Z Z := le_set 2 a (set_field lo n v (le_at mem a 2)) mem.
Definition swap16_at (a : Z) mem : gmap Z Z := le_set 2 a (bswap16 (le_at mem a 2)) mem.
Definition swap32_at (a : Z) mem : gmap Z Z := le_set 4 a (bswap32 (le_at mem a 4)) mem.

(** [Ver], [En] and [P] of the templates of the two headers. *)
Definition sf_erspan_ii_header_template : list Z := le_bytes 2 0x1000 ++ le_bytes 2 0x1800 ++ le_bytes 4 0.
Definition sf_erspan_iii_header_template : list Z :=
  le_bytes 2 0x2000 ++ le_bytes 2 0 ++ le_bytes 4 0 ++ le_bytes 2 0 ++ le_bytes 2 0x8000.

Definition is_tagged mem w : bool :=
  let packet := data_ptr w + l2_hdr_offset w in bswap16 (le_at mem (packet + 12) 2) =? 0x8100.
Definition tag_byte mem w : Z := mem.[data_ptr w + l2_hdr_offset w + 14].
Definition tag_vlan mem w : Z := Z.land (bswap16 (le_at mem (data_ptr w + l2_hdr_offset w + 14) 2)) 0x0FFF.

Definition erspan_common_template t : list Z :=
  if decide (tn_dip_type t = 4) then erspan_encap_common_hdr_template else erspan_encap_common_hdr_template_ipv6.

(** The fields of the outer headers of both versions, with [n] bytes after the GRE
    header. *)
Definition erspan_outer c t (n : Z) (p : Z) mem : gmap Z Z :=
  if decide (tn_dip_type t = 4) then
    let mem := set_ip4 c t p (set_macs c t p mem) in
    set_checksum p (set_totalLen (IPV4_HEADER_LEN + GRE_HEADER_LEN + n) p mem)
  else
    let mem := set_ip6 c t p (set_macs c t p mem) in
    set_payload_len6 (GRE_HEADER_LEN + n) p mem.
Definition erspan_common_len t : Z := if decide (tn_dip_type t = 4) then gre_encap_hdr_len else gre_encap_hdr_v6_len.

Definition erspan_ii_header x (a : Z) w mem : gmap Z Z :=
  let mem := if is_tagged mem w then put_field (a + 2) 13 3 (Z.shiftr (tag_byte mem w) 5) mem else mem in
  let mem := put_field (a + 2) 0 10 (erspan_session_id x) mem in
  swap32_at (a + 4) (swap16_at (a + 2) (swap16_at a mem)).

Definition erspan_iii_header x (ts : Z) (a : Z) w mem : gmap Z Z :=
  let mem := if is_tagged mem w then
      let mem := put_field (a + 2) 13 3 (Z.shiftr (tag_byte mem w) 5) mem in put_field a 0 12 (tag_vlan mem w) mem
    else mem in
  let mem := put_field (a + 2) 0 10 (erspan_session_id x) mem in
  let mem := le_set 4 (a + 4) (bswap32 (u32 ts)) mem in
  swap16_at (a + 10) (swap16_at (a + 2) (swap16_at a mem)).

(** The memory, the record, the shared sequence number and the packet's [delta]. *)
Definition encap_erspan_proc c x (ts seq : Z) mem w (delta : Z) : gmap Z Z * sf_wdata_t * Z * Z :=
  let t := erspan x in
  let common := erspan_common_len t in
  let cur := sf_wqe_get_current w in
  if decide (erspan_type x = 1) then
    let p := cur - common in
    let mem := poke mem p (erspan_common_template t) in
    (erspan_outer c t (current_length w) p mem, sf_wqe_advance (- common) w, seq, i16 (delta + common))
  else if decide (erspan_type x = 2) then
    let p := cur - common - 4 - 8 in
    let mem := poke mem p (erspan_common_template t) in
    let mem := poke (poke mem (cur - 4 - 8) (le_bytes 4 seq)) (cur - 8) sf_erspan_ii_header_template in
    let mem := erspan_outer c t (4 + 8 + current_length w) p mem in
    let g := p + common - GRE_HEADER_LEN in
    let mem := mem.[g <- Z.lor mem.[g] 16] in
    let mem := le_set 4 (g + 4) (bswap32 seq) mem in
    (erspan_ii_header x (cur - 8) w mem, sf_wqe_advance (- common - 4 - 8) w, u32 (seq + 1), i16 (delta + (common + 4 + 8)))
  else if decide (erspan_type x = 3) then
    let p := cur - common - 4 - 12 in
    let mem := poke mem p (erspan_common_template t) in
    let mem := poke (poke mem (cur - 4 - 12) (le_bytes 4 seq)) (cur - 12) sf_erspan_iii_header_template in
    let mem := erspan_outer c t (4 + 12 + current_length w) p mem in
    let g := p + common - GRE_HEADER_LEN in
    let mem := mem.[g <- Z.lor mem.[g] 16] in
    let mem := le_set 2 (g + 2) (bswap16 0x22EB) mem in
    let mem := le_set 4 (g + 4) (bswap32 seq) mem in
    (erspan_iii_header x ts (cur - 12) w mem, sf_wqe_advance (- common - 4 - 12) w, u32 (seq + 1), i16 (delta + (common + 4 + 12)))
  else (mem, w, seq, delta).
Definition encap_erspan c x (ts seq : Z) mem w (delta : Z) : gmap Z Z * sf_wdata_t * Z * Z :=
  if decide (tn_dip_type (erspan x) = 4 \/ tn_dip_type (erspan x) = 6) then encap_erspan_proc c x ts seq mem w delta
  else (mem, w, seq, delta).

(** ** The nodes *)

(** The records and lists of the buffers, the memory, the sequence number. *)
Record encap_state := mk_en {
  en_wdata : gmap Z sf_wdata_t;
  en_list : gmap Z sf_additional_list_t;
  en_mem : gmap Z Z;
  sf_gre_option_template : Z
}.
Implicit Types (st : encap_state).

Context (conf : gmap Z sf_action_t) (interfaces : gmap Z intf_addr) (clock : Z -> Z).

Definition get_action_ptr_nocheck w : sf_action_t := conf.[arg1_to_next w - 1].

Definition pop_next st (b : Z) : encap_state * Z :=
  let '(next, al) := pop_addtional_list (en_list st).[b] in
  (mk_en (en_wdata st) (en_list st).[b <- al] (en_mem st) (sf_gre_option_template st), next).

Definition gre_packet st (b : Z) : encap_state :=
  let w := (en_wdata st).[b] in
  let '(mem, w) := encap_gre interfaces.[interface_id w - 1] (gre (additional_actions (get_action_ptr_nocheck w))) (en_mem st) w in
  mk_en (en_wdata st).[b <- w] (en_list st) mem (sf_gre_option_template st).
Definition vxlan_packet st (b : Z) : encap_state :=
  let w := (en_wdata st).[b] in
  let '(mem, w) := encap_vxlan interfaces.[interface_id w - 1] (additional_actions (get_action_ptr_nocheck w)) (en_mem st) w in
  mk_en (en_wdata st).[b <- w] (en_list st) mem (sf_gre_option_template st).
Definition erspan_packet st (b : Z) : encap_state :=
  let w := (en_wdata st).[b] in
  let al := (en_list st).[b] in
  let '(mem, w, seq, d) := encap_erspan interfaces.[interface_id w - 1] (additional_actions (get_action_ptr_nocheck w))
                             (clock b) (sf_gre_option_template st) (en_mem st) w (delta al) in
  mk_en (en_wdata st).[b <- w] (en_list st).[b <- mk_addi d (pre_index al) (addtional_list al)] mem seq.

(** One packet, and two: both headers are written before the next nodes are read. *)
Definition encap_one (packet : encap_state -> Z -> encap_state) st (b : Z) : option (encap_state * Z) :=
  Some (pop_next (packet st b) b).
Definition encap_two (packet : encap_state -> Z -> encap_state) st (b0 b1 : Z) : option (encap_state * Z * Z) :=
  let st := packet st b0 in
  let st := packet st b1 in
  let '(st, next0) := pop_next st b0 in
  let '(st, next1) := pop_next st b1 in
  Some (st, next0, next1).

Definition encap_node (packet : encap_state -> Z -> encap_state) : encap_state -> list Z -> encap_state -> list (Z * Z) -> Prop :=
  frame_run (encap_one packet) (encap_two packet).
Definition sf_encap_gre_node := encap_node gre_packet.
Definition sf_encap_vxlan_node := encap_node vxlan_packet.
Definition sf_encap_erspan_node := encap_node erspan_packet.
End nodes.
