(* ===== verification/EncapSpec.v ===== *)
(** * Encapsulated packets

    What the encapsulations leave in front of a packet: first the assignments to a
    header in memory as replacements in a list of bytes, then the header of each
    tunnel as the encoding of an outer packet, which the decoders read back. *)
From S2P Require Import Prelude FrameLoop Wdata Decode DecodeSpec DecodeRound Action Encap.

Implicit Types (w : sf_wdata_t) (mem : gmap Z Z) (t : tunnel_t) (c : intf_addr) (l s : list Z).

(** ** Replacing bytes *)

Definition patch (off : nat) (bs l : list Z) : list Z := take off l ++ bs ++ drop (off + length bs) l.

Lemma poke_lookup l : forall mem p a,
  poke mem p l !! a = if decide (p <= a < p + Z.of_nat (length l)) then l !! Z.to_nat (a - p) else mem !! a.
Proof.
  induction l as [|x l IH]; intros mem p a; cbn [poke length].
  - rewrite decide_False by lia. done.
  - rewrite IH. destruct (decide (p <= a < p + Z.of_nat (S (length l)))) as [Ha|Ha].
    + destruct (decide (a = p)) as [->|Hne].
      * rewrite decide_False by lia. rewrite Z.sub_diag. unfold aset. by rewrite lookup_insert_eq.
      * rewrite decide_True by lia. replace (Z.to_nat (a - p)) with (S (Z.to_nat (a - (p + 1)))) by lia. done.
    + rewrite decide_False by lia. unfold aset. rewrite lookup_insert_ne by lia. done.
Qed.

Lemma patch_length off bs l : (off + length bs <= length l)%nat -> length (patch off bs l) = length l.
Proof. intros Hl. unfold patch. rewrite !length_app, length_take, length_drop. lia. Qed.

Lemma patch_lookup off bs l i : (off + length bs <= length l)%nat ->
  patch off bs l !! i = if decide (off <= i < off + length bs)%nat then bs !! (i - off)%nat else l !! i.
Proof.
  intros Hl. unfold patch. destruct (decide (off <= i < off + length bs)%nat) as [Hi|Hi].
  - rewrite lookup_app_r, length_take_le by (rewrite ?length_take; lia). rewrite lookup_app_l by lia. done.
  - destruct (decide (i < off)%nat).
    + rewrite lookup_app_l by (rewrite length_take; lia). by rewrite lookup_take_lt by lia.
    + rewrite lookup_app_r, length_take_le by (rewrite ?length_take; lia). rewrite lookup_app_r by lia.
      rewrite lookup_drop. f_equal. lia.
Qed.

(** An assignment inside stored bytes stores the bytes replaced. *)
Lemma poke_patch mem p l a off bs : a = p + Z.of_nat off -> (off + length bs <= length l)%nat ->
  poke (poke mem p l) a bs = poke mem p (patch off bs l).
Proof.
  intros -> Hl. apply map_eq. intros k. rewrite !poke_lookup, patch_length by done.
  destruct (decide (p <= k < p + Z.of_nat (length l))) as [Hk|Hk].
  - rewrite (patch_lookup off bs l) by done. destruct (decide (p + Z.of_nat off <= k < p + Z.of_nat off + Z.of_nat (length bs))).
    + rewrite decide_True by lia. f_equal. lia.
    + rewrite decide_False by lia. done.
  - rewrite decide_False by lia. done.
Qed.

Lemma aset_patch mem p l a off v : a = p + Z.of_nat off -> (off < length l)%nat ->
  (poke mem p l).[a <- v] = poke mem p (patch off [v] l).
Proof. intros Ha Hl. change ((poke mem p l).[a <- v]) with (poke (poke mem p l) a [v]). apply poke_patch; [done|cbn; lia]. Qed.

Lemma patch_app h s k bs : patch (length h + k) bs (h ++ s) = h ++ patch k bs s.
Proof.
  unfold patch. rewrite take_app_ge by lia. rewrite drop_app_ge by lia.
  replace (length h + k - length h)%nat with k by lia. by replace (length h + k + length bs - length h)%nat with (k + length bs)%nat by lia; rewrite <- app_assoc.
Qed.

Lemma patch_app_l h s k bs : (k + length bs <= length h)%nat -> patch k bs (h ++ s) = patch k bs h ++ s.
Proof. intros Hk. unfold patch. rewrite take_app_le, drop_app_le by lia. by rewrite <- !app_assoc. Qed.

(** A field of what follows a header. *)
Lemma poke_behind mem p h s a k bs : a = p + Z.of_nat (length h) + Z.of_nat k -> (k + length bs <= length s)%nat ->
  poke (poke mem p (h ++ s)) a bs = poke mem p (h ++ patch k bs s).
Proof. intros -> Hk. rewrite <- patch_app. apply poke_patch; [lia|]. rewrite length_app. lia. Qed.

(** A field of the header. *)
Lemma poke_inside mem p h s a k bs : a = p + Z.of_nat k -> (k + length bs <= length h)%nat ->
  poke (poke mem p (h ++ s)) a bs = poke mem p (patch k bs h ++ s).
Proof. intros -> Hk. rewrite <- patch_app_l by done. apply poke_patch; [lia|]. rewrite length_app. lia. Qed.

Lemma aset_inside mem p h s a k v : a = p + Z.of_nat k -> (k + 1 <= length h)%nat ->
  (poke mem p (h ++ s)).[a <- v] = poke mem p (patch k [v] h ++ s).
Proof. apply (poke_inside mem p h s a k [v]). Qed.

(** Reading stored bytes. *)
Lemma bytes_at_poke mem p l a off n : a = p + Z.of_nat off -> (off + n <= length l)%nat ->
  bytes_at (poke mem p l) a n = take n (drop off l).
Proof.
  intros -> Hl. apply list_eq. intros i. unfold bytes_at. change (map ?f ?k) with (f <$> k). rewrite list_lookup_fmap.
  destruct (decide (i < n)%nat) as [Hi|Hi].
  - rewrite lookup_seqZ_lt by lia. cbn [fmap option_fmap option_map]. rewrite lookup_take_lt by lia. rewrite lookup_drop.
    destruct (l !! (off + i)%nat) as [x|] eqn:E; [|apply lookup_ge_None in E; lia].
    f_equal. rewrite <- (poke_at l mem p _ _ E). f_equal. lia.
  - rewrite lookup_seqZ_ge by lia. rewrite lookup_take_ge by lia. done.
Qed.

Definition le_val (l : list Z) : Z := foldr (fun b acc => b + 256 * acc) 0 l.

Lemma le_at_poke mem p l a off n : a = p + Z.of_nat off -> (off + n <= length l)%nat ->
  le_at (poke mem p l) a n = le_val (take n (drop off l)).
Proof. intros Ha Hl. unfold le_at. by rewrite (bytes_at_poke _ _ _ _ off). Qed.

Lemma le_bytes_val l : Forall is_byte l -> le_bytes (length l) (le_val l) = l.
Proof.
  induction l as [|b l IH]; intros Hl; [done|]. apply Forall_cons in Hl as [Hb Hl]. unfold is_byte in Hb.
  cbn [length le_bytes le_val foldr]. fold (le_val l). rewrite (Z.mul_comm 256), Z_mod_plus_full, Z_div_plus_full by lia.
  rewrite Z.mod_small, Z.div_small by done. by rewrite Z.add_0_l, IH.
Qed.

Lemma le_val_range l : Forall is_byte l -> 0 <= le_val l < 256 ^ Z.of_nat (length l).
Proof.
  induction l as [|b l IH]; intros Hl; [done|]. apply Forall_cons in Hl as [Hb Hl]. unfold is_byte in Hb.
  specialize (IH Hl). cbn [length le_val foldr]. fold (le_val l). rewrite Nat2Z.inj_succ, Z.pow_succ_r by lia. lia.
Qed.

(** A 16-bit store in network order. *)
Lemma le_bytes_bswap16 v : le_bytes 2 (bswap16 v) = be16 v.
Proof.
  unfold be16. cbn [le_bytes]. rewrite bswap16_spec. set (a := v mod 256). set (b := v / 256 mod 256).
  assert (0 <= a < 256) by (apply Z.mod_pos_bound; lia). assert (0 <= b < 256) by (apply Z.mod_pos_bound; lia).
  rewrite (Z.add_comm (a * 256)), Z_mod_plus_full, Z_div_plus_full, (Z.div_small b), Z.add_0_l by lia.
  by rewrite !(Z.mod_small a), !(Z.mod_small b) by lia.
Qed.

(** A value computed in network order. *)
Lemma be16_bswap16 v : be16 (bswap16 v) = le_bytes 2 v.
Proof.
  unfold be16. cbn [le_bytes]. rewrite bswap16_spec. set (a := v mod 256). set (b := v / 256 mod 256).
  assert (0 <= a < 256) by (apply Z.mod_pos_bound; lia). assert (0 <= b < 256) by (apply Z.mod_pos_bound; lia).
  rewrite (Z.add_comm (a * 256)), Z_mod_plus_full, Z_div_plus_full, (Z.div_small b), Z.add_0_l by lia.
  by rewrite (Z.mod_small a), (Z.mod_small b) by lia.
Qed.

Lemma be16_wrap v : be16 (u16 v) = be16 v.
Proof.
  unfold be16, wrap. change (2 ^ 16) with (256 * 256). rewrite Z.rem_mul_r by lia.
  rewrite (Z.mul_comm 256), Z_mod_plus_full, Z_div_plus_full, !Zmod_mod by lia.
  rewrite (Z.div_small (v mod 256)), Z.add_0_l, Zmod_mod; [done|]. apply Z.mod_pos_bound. lia.
Qed.

(** ** Bit-fields *)

Lemma le_val_bytes n v : le_val (le_bytes n v) = v mod 256 ^ Z.of_nat n.
Proof.
  revert v. induction n as [|n IH]; intros v; [by rewrite Z.mod_1_r|]. cbn [le_bytes le_val foldr]. fold (le_val (le_bytes n (v / 256))).
  rewrite IH, Nat2Z.inj_succ, Z.pow_succ_r by lia. rewrite Z.rem_mul_r by lia. done.
Qed.

(** Reading and replacing a word between others. *)
Lemma le_at_word mem p a l1 n z l2 : a = p + Z.of_nat (length l1) ->
  le_at (poke mem p (l1 ++ le_bytes n z ++ l2)) a n = z mod 256 ^ Z.of_nat n.
Proof.
  assert (Hn : forall z, length (le_bytes n z) = n).
  { clear. induction n as [|n IH]; intros z; [done|]. cbn. by rewrite IH. }
  intros ->. rewrite (le_at_poke _ _ _ _ (length l1)) by (try rewrite !length_app, Hn; lia).
  rewrite drop_app_length, take_app_length' by done. apply le_val_bytes.
Qed.

Lemma poke_word mem p a l1 bs bs' l2 : a = p + Z.of_nat (length l1) -> length bs' = length bs ->
  poke (poke mem p (l1 ++ bs ++ l2)) a bs' = poke mem p (l1 ++ bs' ++ l2).
Proof.
  intros -> Hl. rewrite (poke_patch _ _ _ _ (length l1)) by (try rewrite !length_app; lia). f_equal.
  unfold patch. rewrite take_app_length, Hl. do 2 f_equal. rewrite app_assoc, <- length_app. apply drop_app_length.
Qed.

Lemma put_field_word mem p a l1 lo n v z l2 : a = p + Z.of_nat (length l1) ->
  put_field a lo n v (poke mem p (l1 ++ le_bytes 2 z ++ l2)) =
  poke mem p (l1 ++ le_bytes 2 (set_field lo n v (u16 z)) ++ l2).
Proof. intros Ha. unfold put_field, le_set. rewrite (le_at_word _ _ _ _ _ _ _ Ha). by apply poke_word. Qed.

Lemma swap16_word mem p a l1 z l2 : a = p + Z.of_nat (length l1) ->
  swap16_at a (poke mem p (l1 ++ le_bytes 2 z ++ l2)) = poke mem p (l1 ++ be16 z ++ l2).
Proof.
  intros Ha. unfold swap16_at, le_set. rewrite (le_at_word _ _ _ _ _ _ _ Ha), le_bytes_bswap16.
  change (z mod 256 ^ Z.of_nat 2) with (u16 z). rewrite be16_wrap. by apply poke_word.
Qed.

Lemma swap32_word mem p a l1 z l2 : a = p + Z.of_nat (length l1) ->
  swap32_at a (poke mem p (l1 ++ le_bytes 4 z ++ l2)) = poke mem p (l1 ++ le_bytes 4 (bswap32 (u32 z)) ++ l2).
Proof. intros Ha. unfold swap32_at, le_set. rewrite (le_at_word _ _ _ _ _ _ _ Ha). by apply poke_word. Qed.

(** The low ten bits of a word set, the high three set before or not. *)
Lemma set_low_field n v z : 0 <= n -> 0 <= z -> z mod 2 ^ n = 0 -> set_field 0 n v z = z + v mod 2 ^ n.
Proof.
  intros Hn Hz Hm. unfold set_field. rewrite Z.pow_0_r, Z.mod_1_r, !Z.add_0_l. pose proof (Z.pow_pos_nonneg 2 n).
  pose proof (Z.div_mod z (2 ^ n)). lia.
Qed.

Lemma set_high_field v z : 0 <= z < 2 ^ 13 -> set_field 13 3 v z = z + v mod 8 * 2 ^ 13.
Proof.
  intros Hz. unfold set_field. change (2 ^ 3) with 8. rewrite (Z.mod_small z), (Z.div_small z) by lia. lia.
Qed.
