(* ===== verification/EncapHeader.v ===== *)
(** * The outer headers

    The assignments of the encapsulation nodes turn the templates into the bytes of
    an Ethernet header and an IPv4 or IPv6 header with the addresses of the
    interface and of the tunnel. *)
From S2P Require Import Prelude FrameLoop Wdata Decode DecodeSpec DecodeRound Action Encap EncapSpec.

Implicit Types (w : sf_wdata_t) (mem : gmap Z Z) (t : tunnel_t) (c : intf_addr) (l s : list Z).

(** The widths of the members in C. *)
Record tunnel_ok t : Prop := {
  tn_dmac_ok : length (tn_dmac t) = 6%nat;
  tn_dscp_ok : 0 <= tn_dscp t < 256;
  tn_dip_ok : addr_ok (tn_dip t)
}.
Record intf_ok c : Prop := {
  mac_ok : length (mac c) = 6%nat;
  ipv4_len_ok : length (ipv4_addr c) = 4%nat;
  ipv4_ok : Forall is_byte (ipv4_addr c);
  ipv6_ok : addr_ok (ipv6_addr c)
}.

(** The source address: the interface's, or the template's if it has none. *)
Definition src4 c : Z := if has_ipv4 c then le_val (ipv4_addr c) else bswap32 0xc0a8fffe.
Definition src6 c : ip_addr_t := if has_ipv6 c then ipv6_addr c else template_sip6.

(** The headers in front of [plen] bytes of protocol [proto]. *)
Definition v4_of `{Ip4Checksum} c t (proto plen : Z) : v4_header :=
  let h sum := mk_v4 (tn_dscp t) 0 0 0 0x40 sum (src4 c) (addr_v4 (tn_dip t)) [] in
  h (bswap16 (ip4_header_checksum (h4_bytes (h 0) proto plen))).
Definition v6_of c t : v6_header :=
  mk_v6 [96 + tn_dscp t / 16; tn_dscp t mod 16 * 16; 0; 0] 0x40 (src6 c) (tn_dip t) [] None.

Definition macs_of c t : list Z := tn_dmac t ++ mac c.

(** The first 34 bytes with a total length and a checksum, and the first 54. *)
Definition head4 c t (proto plen sum : Z) : list Z :=
  eth_bytes (macs_of c t) [] ETHER_IPV4_NET_ORDER ++
  h4_bytes (mk_v4 (tn_dscp t) 0 0 0 0x40 sum (src4 c) (addr_v4 (tn_dip t)) []) proto plen.
Definition head6 c t (proto plen : Z) : list Z :=
  eth_bytes (macs_of c t) [] ETHER_IPV6_NET_ORDER ++ h6_bytes (v6_of c t) proto plen.

Lemma length_6 {A} (l : list A) : length l = 6%nat -> exists a b d e f g, l = [a; b; d; e; f; g].
Proof. intros Hl. do 6 (destruct l as [|? l]; [done|]). destruct l; [|done]. by do 6 eexists. Qed.
Lemma length_4 {A} (l : list A) : length l = 4%nat -> exists a b d e, l = [a; b; d; e].
Proof. intros Hl. do 4 (destruct l as [|? l]; [done|]). destruct l; [|done]. by do 4 eexists. Qed.

(** The address fields as the code writes them. *)
Lemma src4_bytes c : intf_ok c -> le_bytes 4 (src4 c) = if has_ipv4 c then ipv4_addr c else le_bytes 4 (bswap32 0xc0a8fffe).
Proof.
  intros [_ Hl Hb _]. unfold src4. destruct (has_ipv4 c); [|done]. rewrite <- Hl at 1. by apply le_bytes_val.
Qed.

Lemma src4_range c : intf_ok c -> 0 <= src4 c < 2 ^ 32.
Proof.
  intros [_ Hl Hb _]. unfold src4. destruct (has_ipv4 c); [|apply bswap32_range].
  pose proof (le_val_range _ Hb) as Hr. rewrite Hl in Hr. done.
Qed.

(** Move an assignment into the stored header, at a constant offset. *)
Ltac inside k := rewrite (poke_inside _ _ _ _ _ k); [|lia|apply Nat.leb_le; vm_compute; reflexivity].
Ltac set_inside k := rewrite (aset_inside _ _ _ _ _ k); [|lia|apply Nat.leb_le; vm_compute; reflexivity].

Lemma traffic_class_template mem a v : 0 <= v < 256 -> mem.[a] = 96 -> mem.[a + 1] = 0 ->
  ip6_hdr_set_traffic_class a v mem = mem.[a <- 96 + v / 16].[a + 1 <- v mod 16 * 16].
Proof.
  intros Hv E0 E1. unfold ip6_hdr_set_traffic_class, set_high4, set_low4. rewrite aget_aset_ne, E0, E1 by lia.
  change 15 with (2 ^ 4 - 1). rewrite wrap_land, Z.shiftr_div_pow2 by lia. unfold wrap. change (2 ^ 4) with 16.
  assert (0 <= v / 16 < 16) by (split; [apply Z.div_pos|apply Z.div_lt_upper_bound]; lia).
  rewrite Zmod_mod, (Z.mod_small (v / 16)), Z.add_0_r by lia. reflexivity.
Qed.

Section assignments.
Context (c : intf_addr) (t : tunnel_t) (mem : gmap Z Z) (p : Z) (s : list Z).
Hypothesis Hc : intf_ok c.
Hypothesis Ht : tunnel_ok t.

(** The addresses, with a total length and a checksum of zero as in the template. *)
Lemma write_ip4 proto :
  set_ip4 c t p (set_macs c t p (poke mem p (outer_template 4 proto ++ s))) = poke mem p (head4 c t proto (- 20) 0 ++ s).
Proof.
  unfold head4, macs_of, eth_bytes, h4_bytes, h4_len. cbn [h4_opts h4_src h4_dst h4_tos h4_id h4_flags h4_off h4_ttl h4_sum].
  rewrite (src4_bytes c Hc). destruct Hc as [Hm H4 _ _], Ht as [Hd _ _].
  destruct (length_6 _ Hm) as (m0 & m1 & m2 & m3 & m4 & m5 & Em).
  destruct (length_6 _ Hd) as (d0 & d1 & d2 & d3 & d4 & d5 & Ed).
  destruct (length_4 _ H4) as (a0 & a1 & a2 & a3 & Ea).
  unfold set_ip4, set_macs, le_set. rewrite Em, Ed, Ea. inside 6%nat. inside 0%nat. set_inside 15%nat.
  destruct (has_ipv4 c); [inside 26%nat|]; inside 30%nat; reflexivity.
Qed.

Lemma write_totalLen proto n : set_totalLen n p (poke mem p (head4 c t proto (- 20) 0 ++ s)) =
  poke mem p (head4 c t proto (n - 20) 0 ++ s).
Proof.
  unfold head4, macs_of, eth_bytes, h4_bytes, h4_len. cbn [h4_opts h4_src h4_dst h4_tos h4_id h4_flags h4_off h4_ttl h4_sum].
  destruct Hc as [Hm _ _ _], Ht as [Hd _ _].
  destruct (length_6 _ Hm) as (m0 & m1 & m2 & m3 & m4 & m5 & Em).
  destruct (length_6 _ Hd) as (d0 & d1 & d2 & d3 & d4 & d5 & Ed).
  unfold set_totalLen, le_set. rewrite Em, Ed, le_bytes_bswap16, be16_wrap. inside 16%nat.
  replace (20 + Z.of_nat (length (@nil Z)) + (n - 20)) with n by (cbn; lia). reflexivity.
Qed.

Lemma head4_length proto n sum : length (head4 c t proto n sum) = 34%nat.
Proof.
  destruct Hc as [Hm _ _ _], Ht as [Hd _ _]. unfold head4, eth_bytes, macs_of, h4_bytes. rewrite !length_app, Hm, Hd. done.
Qed.

Lemma head6_length proto n : length (head6 c t proto n) = 54%nat.
Proof.
  destruct Hc as [Hm _ _ _], Ht as [Hd _ _]. unfold head6, eth_bytes, macs_of, h6_bytes, h6_fixed, addr_bytes.
  rewrite !length_app, Hm, Hd. done.
Qed.

(** The sum is taken over the header with a checksum field of zero. *)
Lemma write_checksum `{Ip4Checksum} proto n : set_checksum p (poke mem p (head4 c t proto n 0 ++ s)) =
  poke mem p (head4 c t proto n (h4_sum (v4_of c t proto n)) ++ s).
Proof.
  pose proof (head4_length proto n 0) as Hl. unfold set_checksum.
  rewrite (bytes_at_poke _ _ _ _ 14) by (try rewrite length_app, Hl; lia).
  replace (take 20 (drop 14 (head4 c t proto n 0 ++ s)))
    with (h4_bytes (mk_v4 (tn_dscp t) 0 0 0 0x40 0 (src4 c) (addr_v4 (tn_dip t)) []) proto n).
  2: { unfold head4. rewrite <- app_assoc, drop_app_length', take_app_length'; [done..|].
       destruct Hc as [Hm _ _ _], Ht as [Hd _ _]. unfold eth_bytes, macs_of. rewrite !length_app, Hm, Hd. done. }
  unfold v4_of. cbn [h4_sum]. set (k := ip4_header_checksum _). destruct Hc as [Hm _ _ _], Ht as [Hd _ _].
  destruct (length_6 _ Hm) as (m0 & m1 & m2 & m3 & m4 & m5 & Em).
  destruct (length_6 _ Hd) as (d0 & d1 & d2 & d3 & d4 & d5 & Ed).
  unfold head4, macs_of, eth_bytes, h4_bytes, le_set. cbn [h4_opts h4_src h4_dst h4_tos h4_id h4_flags h4_off h4_ttl h4_sum].
  rewrite Em, Ed, be16_bswap16. inside 24%nat. reflexivity.
Qed.

(** The IPv6 header. *)
Lemma write_ip6 proto :
  set_ip6 c t p (set_macs c t p (poke mem p (outer_template 6 proto ++ s))) = poke mem p (head6 c t proto 0 ++ s).
Proof.
  destruct Hc as [Hm _ _ _], Ht as [Hd Hs _].
  destruct (length_6 _ Hm) as (m0 & m1 & m2 & m3 & m4 & m5 & Em).
  destruct (length_6 _ Hd) as (d0 & d1 & d2 & d3 & d4 & d5 & Ed).
  unfold head6, macs_of, eth_bytes, h6_bytes, h6_fixed, v6_of. cbn [h6_flow h6_hops h6_src h6_dst h6_exts h6_fragment].
  unfold set_ip6, set_macs. rewrite Em, Ed. inside 6%nat. inside 0%nat.
  rewrite traffic_class_template;
    [|done|by replace (p + 14) with (p + Z.of_nat 14) by lia; rewrite (poke_at _ _ _ _ 96)
          |by replace (p + 14 + 1) with (p + Z.of_nat 15) by lia; rewrite (poke_at _ _ _ _ 0)].
  set_inside 14%nat. set_inside 15%nat. unfold src6.
  destruct (has_ipv6 c); [inside 22%nat|]; inside 38%nat; reflexivity.
Qed.

Lemma write_payload_len proto n : set_payload_len6 n p (poke mem p (head6 c t proto 0 ++ s)) =
  poke mem p (head6 c t proto n ++ s).
Proof.
  destruct Hc as [Hm _ _ _], Ht as [Hd Hs _].
  destruct (length_6 _ Hm) as (m0 & m1 & m2 & m3 & m4 & m5 & Em).
  destruct (length_6 _ Hd) as (d0 & d1 & d2 & d3 & d4 & d5 & Ed).
  unfold head6, macs_of, eth_bytes, h6_bytes, h6_fixed, v6_of. cbn [h6_flow h6_hops h6_src h6_dst h6_exts h6_fragment].
  unfold set_payload_len6, le_set. rewrite Em, Ed, le_bytes_bswap16, be16_wrap. inside 18%nat.
  replace (h6_len _ - IPV6_HEADER_LEN + n) with n by (unfold h6_len; cbn; lia). reflexivity.
Qed.
End assignments.
