(* ===== verification/EncapRound.v ===== *)
(** * Reading a tunnel back

    The bytes in front of an encapsulated packet are the encoding of an outer packet
    whose data are the tunnel's header and the packet. *)
From S2P Require Import Prelude FrameLoop Wdata Decode DecodeSpec DecodeRound Action Encap EncapSpec EncapHeader.

Implicit Types (w : sf_wdata_t) (mem : gmap Z Z) (t : tunnel_t) (c : intf_addr) (x : additional_action_t) (l s : list Z).

(** ** The outer packet *)

(** Move an assignment into what follows a stored header of known length. *)
Ltac behind Hl k := rewrite (poke_behind _ _ _ _ _ k); [|rewrite Hl; lia|apply Nat.leb_le; vm_compute; reflexivity].

Section outer.
Context `{Ip4Checksum}.

Definition outer_net c t (proto plen : Z) : network :=
  if decide (tn_dip_type t = 4) then V4 (v4_of c t proto plen) else V6 (v6_of c t).
Definition outer c t (tr : transport) (data : list Z) : packet :=
  mk_packet (macs_of c t) [] (outer_net c t (tr_proto tr) (Z.of_nat (length (tr_bytes tr ++ data)))) tr data.

(** The bytes up to the end of its IP header. *)
Definition head c t (proto plen : Z) : list Z :=
  if decide (tn_dip_type t = 4) then head4 c t proto plen (h4_sum (v4_of c t proto plen)) else head6 c t proto plen.
Definition head_len t : Z := if decide (tn_dip_type t = 4) then 34 else 54.

Definition valid_dip_type t : Prop := tn_dip_type t = 4 \/ tn_dip_type t = 6.

Lemma head_length c t proto plen : intf_ok c -> tunnel_ok t -> Z.of_nat (length (head c t proto plen)) = head_len t.
Proof. intros Hc Ht. unfold head, head_len. case_decide; [by rewrite head4_length|by rewrite head6_length]. Qed.

Lemma encode_outer c t tr data :
  encode (outer c t tr data) =
  head c t (tr_proto tr) (Z.of_nat (length (tr_bytes tr ++ data))) ++ tr_bytes tr ++ data.
Proof.
  unfold encode, outer, head, p_plen, p_rest, outer_net. cbn [p_macs p_tags p_net p_tr p_data].
  case_decide; cbn [net_type net_bytes]; unfold head4, head6; by rewrite <- app_assoc.
Qed.

(** It is a well-formed packet for the decoders. *)
Lemma outer_ok c t tr data : intf_ok c -> tunnel_ok t -> tr_ok tr -> ends_chain (tr_proto tr) ->
  tr_proto tr <> IP_PRO_INVALID -> (tr = Opaque (tr_proto tr) -> tr_proto tr <> IP_PRO_UDP /\ tr_proto tr <> IP_PRO_TCP) ->
  0 < Z.of_nat (length (tr_bytes tr ++ data)) -> packet_ok (outer c t tr data).
Proof.
  intros Hc Ht Htr He Hi Ho Hl. destruct Ht as [Hd Hs Hdip]. pose proof (src4_range c Hc) as Hsrc. destruct Hc as [Hm _ _ H6].
  split; [unfold outer, macs_of; cbn [p_macs]; rewrite length_app, Hd, Hm; done|]. split; [cbn; lia|]. split; [done|]. split.
  - unfold outer, outer_net, p_plen, p_rest. cbn [p_net p_tr p_data]. case_decide; cbn [net_ok].
    + split; [done|]. split; [|done]. unfold v4_of. cbn [h4_dst]. unfold addr_v4. apply (wrap_range 32). lia.
    + split; [|done]. split; [done|]. split; [|split; [exact Hdip|split; [apply Forall_nil_2|split; [exact He|exact Hi]]]].
      unfold v6_of, src6. cbn [h6_src]. destruct (has_ipv6 c); [done|]. by split; vm_compute.
  - intros _. change (p_tr (outer c t tr data)) with tr. destruct tr; [done..|]. exact (Ho eq_refl).
Qed.

Lemma outer_not_frag c t tr data : net_frag (p_net (outer c t tr data)) = false.
Proof. unfold outer, outer_net. cbn [p_net]. by case_decide. Qed.

(** ** What an encapsulation does *)

(** [hdr] is written in front of the window, which grows over it. *)
Definition wrapped (hdr : list Z) mem w mem' w' : Prop :=
  mem' = poke mem (sf_wqe_get_current w - Z.of_nat (length hdr)) hdr /\ w' = sf_wqe_advance (- Z.of_nat (length hdr)) w.

Lemma written4 c t proto n p s mem : intf_ok c -> tunnel_ok t -> tn_dip_type t = 4 ->
  set_checksum p (set_totalLen (IPV4_HEADER_LEN + n) p
    (set_ip4 c t p (set_macs c t p (poke mem p (outer_template 4 proto ++ s))))) = poke mem p (head c t proto n ++ s).
Proof.
  intros Hc Ht E4. rewrite write_ip4, write_totalLen, write_checksum by done. unfold head. rewrite decide_True by done.
  unfold IPV4_HEADER_LEN. by replace (20 + n - 20) with n by lia.
Qed.

Lemma written6 c t proto n p s mem : intf_ok c -> tunnel_ok t -> tn_dip_type t = 6 ->
  set_payload_len6 n p (set_ip6 c t p (set_macs c t p (poke mem p (outer_template 6 proto ++ s)))) =
  poke mem p (head c t proto n ++ s).
Proof.
  intros Hc Ht E6. rewrite write_ip6, write_payload_len by done. unfold head. rewrite decide_False by lia. done.
Qed.

(** ** GRE *)

Definition gre_hdr c t (n : Z) : list Z := head c t IP_PRO_GRE (GRE_HEADER_LEN + n) ++ gre_template 0x6558.

Lemma encap_gre_wraps c t mem w : intf_ok c -> tunnel_ok t -> valid_dip_type t ->
  let '(mem', w') := encap_gre c t mem w in wrapped (gre_hdr c t (current_length w)) mem w mem' w'.
Proof.
  intros Hc Ht Hv. unfold encap_gre, wrapped, gre_hdr. rewrite length_app, Nat2Z.inj_add, head_length by done.
  unfold head_len. destruct Hv as [E|E].
  - rewrite !(decide_True (P := tn_dip_type t = 4)) by done. split; [|done]. cbv zeta.
    unfold gre_encap_hdr_template. rewrite <- Z.add_assoc. rewrite (written4 c t) by done. f_equal.
  - rewrite !(decide_False (P := tn_dip_type t = 4)), !decide_True by lia. split; [|done]. cbv zeta.
    unfold gre_encap_hdr_template_ipv6. rewrite (written6 c t) by done. f_equal.
Qed.

(** ** VXLAN *)

Definition vxlan_tr x (n : Z) : transport :=
  Udp DEFAULT_VXLAN_UDP_PORT (vxlan_dport x) (be16 (UDP_HEADER_LEN + VXLAN_HEADER_LEN + n) ++ [0; 0]).
Definition vxlan_shim x : list Z := le_bytes 4 VXLAN_FLAGS ++ le_bytes 4 (vxlan_vni x).
Definition vxlan_hdr c x (n : Z) : list Z :=
  head c (vxlan x) IP_PRO_UDP (UDP_HEADER_LEN + VXLAN_HEADER_LEN + n) ++ tr_bytes (vxlan_tr x n) ++ vxlan_shim x.

Lemma encap_vxlan_wraps c x mem w : intf_ok c -> tunnel_ok (vxlan x) -> valid_dip_type (vxlan x) ->
  let '(mem', w') := encap_vxlan c x mem w in wrapped (vxlan_hdr c x (current_length w)) mem w mem' w'.
Proof.
  intros Hc Ht Hv. unfold encap_vxlan, wrapped, vxlan_hdr. rewrite !length_app, !Nat2Z.inj_add, head_length by done.
  unfold head_len. destruct Hv as [E|E].
  - rewrite !(decide_True (P := tn_dip_type (vxlan x) = 4)) by done. split; [|done]. cbv zeta.
    set (p := _ - _). set (n := UDP_HEADER_LEN + VXLAN_HEADER_LEN + current_length w).
    replace (IPV4_HEADER_LEN + UDP_HEADER_LEN + VXLAN_HEADER_LEN + current_length w) with (IPV4_HEADER_LEN + n) by (subst n; lia).
    pose proof (fun n sum => head4_length c (vxlan x) Hc Ht IP_PRO_UDP n sum) as Hl.
    unfold vxlan_encap_hdr_template. rewrite write_ip4 by done. unfold le_set.
    behind Hl 2%nat. behind Hl 12%nat. rewrite write_totalLen by done. behind Hl 4%nat.
    rewrite write_checksum, le_bytes_bswap16, be16_wrap by done. unfold head. rewrite decide_True by done.
    replace (IPV4_HEADER_LEN + n - 20) with n by (unfold IPV4_HEADER_LEN; lia). reflexivity.
  - rewrite !(decide_False (P := tn_dip_type (vxlan x) = 4)), !decide_True by lia. split; [|done]. cbv zeta.
    set (p := _ - _). set (n := UDP_HEADER_LEN + VXLAN_HEADER_LEN + current_length w).
    pose proof (fun n => head6_length c (vxlan x) Hc Ht IP_PRO_UDP n) as Hl.
    unfold vxlan_encap_hdr_template_ipv6. rewrite write_ip6 by done. unfold le_set.
    behind Hl 2%nat. behind Hl 12%nat. rewrite write_payload_len by done. behind Hl 4%nat.
    rewrite le_bytes_bswap16, be16_wrap by done. unfold head. rewrite decide_False by lia. reflexivity.
Qed.

End outer.
