(* ===== verification/EncapErspan.v ===== *)
(** * ERSPAN headers

    The three types of ERSPAN header: the fields of the packet's first VLAN tag, the
    session, the sequence number and the time stamp, in network order behind GRE's
    header. *)
From S2P Require Import Prelude FrameLoop Wdata Decode DecodeSpec DecodeRound Action Encap EncapSpec EncapHeader EncapRound.

Implicit Types (w : sf_wdata_t) (mem : gmap Z Z) (t : tunnel_t) (c : intf_addr) (x : additional_action_t) (l s : list Z).

Section erspan.
Context `{Ip4Checksum}.

(** The headers after GRE's, with the bits the code takes from the first VLAN tag
    of the packet, if it has one. *)
Definition tag_cos mem w : Z := if is_tagged mem w then Z.shiftr (tag_byte mem w) 5 mod 8 else 0.
Definition tag_vid mem w : Z := if is_tagged mem w then tag_vlan mem w mod 4096 else 0.
Definition session_of x : Z := erspan_session_id x mod 1024.

Definition erspan_shim x (ts seq cos vid : Z) : list Z :=
  if decide (erspan_type x = 1) then gre_template 0x88BE
  else if decide (erspan_type x = 2) then
    [16; 0] ++ be16 0x88BE ++ le_bytes 4 (bswap32 seq) ++
    be16 0x1000 ++ be16 (cos * 2 ^ 13 + 3 * 2 ^ 11 + session_of x) ++ repeat 0 4
  else
    [16; 0] ++ be16 0x22EB ++ le_bytes 4 (bswap32 seq) ++
    be16 (0x2000 + vid) ++ be16 (cos * 2 ^ 13 + session_of x) ++ le_bytes 4 (bswap32 (u32 ts)) ++ [0; 0] ++ be16 0x8000.

Definition erspan_hdr c x (ts seq cos vid n : Z) : list Z :=
  let shim := erspan_shim x ts seq cos vid in
  head c (erspan x) IP_PRO_GRE (Z.of_nat (length shim) + n) ++ shim.

(** What the code reads of the packet lies behind the bytes it writes. *)
Lemma is_tagged_frame mem p l w : p + Z.of_nat (length l) <= data_ptr w + l2_hdr_offset w ->
  is_tagged (poke mem p l) w = is_tagged mem w /\ tag_byte (poke mem p l) w = tag_byte mem w /\
  tag_vlan (poke mem p l) w = tag_vlan mem w.
Proof.
  intros Hp. unfold is_tagged, tag_byte, tag_vlan.
  rewrite !(le_at_ext (poke mem p l) mem) by (intros i Hi; apply poke_frame; lia). by rewrite poke_frame by lia.
Qed.

(** The word of the class, the flags [z] and the session. *)
Definition class_word (tagged : bool) (cos z : Z) : Z := if tagged then set_field 13 3 cos (u16 z) else z.

Lemma session_word (tagged : bool) cos sid z : 0 <= z < 2 ^ 13 -> z mod 2 ^ 10 = 0 ->
  set_field 0 10 sid (u16 (class_word tagged cos z)) = (if tagged then cos mod 8 else 0) * 2 ^ 13 + z + sid mod 1024.
Proof.
  intros Hz Hm. pose proof (Z.mod_pos_bound cos 8 ltac:(lia)).
  assert (Hw : class_word tagged cos z = (if tagged then cos mod 8 else 0) * 2 ^ 13 + z).
  { destruct tagged; [|done]. cbn [class_word]. rewrite wrap_small, set_high_field by lia. lia. }
  rewrite Hw. set (k := if tagged then _ else _). assert (0 <= k < 8) by (subst k; destruct tagged; lia).
  rewrite wrap_small by lia. rewrite set_low_field; [done|lia|lia|].
  replace (k * 2 ^ 13 + z) with (z + k * 8 * 2 ^ 10) by lia. by rewrite Z_mod_plus_full.
Qed.

(** Setting the class in a stored word. *)
Lemma class_written (tagged : bool) cos z mem p a l1 l2 : a = p + Z.of_nat (length l1) ->
  (if tagged then put_field a 13 3 cos (poke mem p (l1 ++ le_bytes 2 z ++ l2)) else poke mem p (l1 ++ le_bytes 2 z ++ l2)) =
  poke mem p (l1 ++ le_bytes 2 (class_word tagged cos z) ++ l2).
Proof. intros Ha. destruct tagged; [|done]. by rewrite put_field_word. Qed.

Ltac after_words := rewrite !length_app; cbn [length le_bytes be16]; lia.

Lemma erspan_ii_written x w h mem p a : a = p + Z.of_nat (length h) -> a + 8 <= data_ptr w + l2_hdr_offset w ->
  erspan_ii_header x a w (poke mem p (h ++ sf_erspan_ii_header_template)) =
  poke mem p (h ++ be16 0x1000 ++ be16 (tag_cos mem w * 2 ^ 13 + 3 * 2 ^ 11 + session_of x) ++ repeat 0 4).
Proof.
  intros Ha Hf. unfold erspan_ii_header, sf_erspan_ii_header_template, tag_cos.
  destruct (is_tagged_frame mem p (h ++ sf_erspan_ii_header_template) w) as (Et & Eb & _);
    [rewrite length_app; change (length sf_erspan_ii_header_template) with 8%nat; lia|].
  unfold sf_erspan_ii_header_template in Et, Eb. rewrite Et, Eb, (app_assoc h).
  rewrite class_written, put_field_word, session_word by (done || after_words).
  rewrite <- app_assoc, swap16_word by done. rewrite app_assoc, swap16_word by after_words.
  rewrite app_assoc, <- (app_nil_r (le_bytes 4 0)), swap32_word by after_words. by rewrite <- !app_assoc.
Qed.

Lemma erspan_iii_written x ts w h mem p a : a = p + Z.of_nat (length h) -> a + 12 <= data_ptr w + l2_hdr_offset w ->
  erspan_iii_header x ts a w (poke mem p (h ++ sf_erspan_iii_header_template)) =
  poke mem p (h ++ be16 (0x2000 + tag_vid mem w) ++ be16 (tag_cos mem w * 2 ^ 13 + session_of x) ++
    le_bytes 4 (bswap32 (u32 ts)) ++ [0; 0] ++ be16 0x8000).
Proof.
  intros Ha Hf. unfold erspan_iii_header, sf_erspan_iii_header_template, tag_cos, tag_vid.
  destruct (is_tagged_frame mem p (h ++ sf_erspan_iii_header_template) w) as (Et & Eb & _);
    [rewrite length_app; change (length sf_erspan_iii_header_template) with 12%nat; lia|].
  unfold sf_erspan_iii_header_template in Et, Eb. rewrite Et, Eb.
  set (tagged := is_tagged mem w). set (rest := le_bytes 4 0 ++ le_bytes 2 0 ++ le_bytes 2 0x8000).
  set (v := if tagged then set_field 0 12 (tag_vlan mem w) (u16 0x2000) else 0x2000).
  assert (Ev : v = 0x2000 + (if tagged then tag_vlan mem w mod 4096 else 0)).
  { subst v. destruct tagged; [|done]. by rewrite wrap_small, set_low_field by done. }
  replace (if tagged then _ else _)
    with (poke mem p (h ++ le_bytes 2 v ++ le_bytes 2 (class_word tagged (Z.shiftr (tag_byte mem w) 5) 0) ++ rest)).
  2: { subst v. destruct tagged; [|done]. rewrite (app_assoc h (le_bytes 2 0x2000)), put_field_word by after_words.
       destruct (is_tagged_frame mem p ((h ++ le_bytes 2 0x2000) ++ le_bytes 2 (set_field 13 3 (Z.shiftr (tag_byte mem w) 5) (u16 0)) ++ rest) w)
         as (_ & _ & ->); [subst rest; after_words|]. rewrite <- app_assoc, put_field_word by done. done. }
  rewrite (app_assoc h), put_field_word, session_word by (done || after_words). subst rest.
  rewrite app_assoc. unfold le_set. rewrite poke_word by (done || after_words).
  rewrite <- !app_assoc, swap16_word by done. rewrite (app_assoc h), swap16_word by after_words.
  rewrite Ev, Z.add_0_r, (app_assoc _ (be16 _)), (app_assoc _ (le_bytes 4 _)), (app_assoc _ (le_bytes 2 0)).
  rewrite <- (app_nil_r (le_bytes 2 0x8000)), swap16_word by after_words. by rewrite <- !app_assoc, app_nil_r.
Qed.

(** The outer headers with [s] behind GRE's. *)
Lemma erspan_outer_written c t n p s mem : intf_ok c -> tunnel_ok t -> valid_dip_type t ->
  erspan_outer c t n p (poke mem p (erspan_common_template t ++ s)) =
  poke mem p (head c t IP_PRO_GRE (GRE_HEADER_LEN + n) ++ gre_template 0x88BE ++ s).
Proof.
  intros Hc Ht Hv. unfold erspan_outer, erspan_common_template. destruct Hv as [E|E].
  - rewrite !(decide_True (P := tn_dip_type t = 4)) by done. cbv zeta. unfold erspan_encap_common_hdr_template.
    rewrite <- (app_assoc (outer_template _ _)), <- Z.add_assoc. by rewrite (written4 c t).
  - rewrite !(decide_False (P := tn_dip_type t = 4)) by lia. cbv zeta. unfold erspan_encap_common_hdr_template_ipv6.
    rewrite <- (app_assoc (outer_template _ _)). by rewrite (written6 c t).
Qed.

Lemma common_template_length t : valid_dip_type t ->
  Z.of_nat (length (erspan_common_template t)) = erspan_common_len t /\ erspan_common_len t = head_len t + 4.
Proof. unfold erspan_common_template, erspan_common_len, head_len. intros [E|E]; rewrite E; done. Qed.

(** GRE's header with the sequence flag, and the number behind it. *)
Lemma flag_S_written h q s mem p g : g = p + Z.of_nat (length h) ->
  (poke mem p (h ++ gre_template q ++ s)).[g <- Z.lor (poke mem p (h ++ gre_template q ++ s)).[g] 16] =
  poke mem p (h ++ [16; 0] ++ be16 q ++ s).
Proof.
  intros ->. rewrite (poke_at _ mem p _ 0); [|by rewrite lookup_app_r, Nat.sub_diag by lia].
  unfold gre_template. rewrite le_bytes_bswap16. rewrite (aset_patch _ _ _ _ (length h)) by (try rewrite !length_app; cbn; lia).
  f_equal. rewrite <- (Nat.add_0_r (length h)), patch_app. reflexivity.
Qed.

Lemma protocol_written h g0 g1 q q' s mem p a : a = p + Z.of_nat (length h) + 2 ->
  le_set 2 a (bswap16 q') (poke mem p (h ++ [g0; g1] ++ be16 q ++ s)) = poke mem p (h ++ [g0; g1] ++ be16 q' ++ s).
Proof.
  intros ->. unfold le_set. rewrite le_bytes_bswap16, (app_assoc h), poke_word; [by rewrite <- app_assoc| |done].
  rewrite length_app. cbn [length]. lia.
Qed.

Lemma sequence_written h g0 g1 q v z s mem p a : a = p + Z.of_nat (length h) + 4 ->
  le_set 4 a v (poke mem p (h ++ [g0; g1] ++ be16 q ++ le_bytes 4 z ++ s)) =
  poke mem p ((h ++ [g0; g1] ++ be16 q ++ le_bytes 4 v) ++ s).
Proof.
  intros ->. unfold le_set. rewrite (app_assoc h), (app_assoc _ (be16 q)), poke_word; [by rewrite <- !app_assoc| |done].
  rewrite !length_app. cbn [length be16]. lia.
Qed.

Section proc.
Context (c : intf_addr) (x : additional_action_t) (w : sf_wdata_t) (mem : gmap Z Z).
Hypothesis Hc : intf_ok c.
Hypothesis Ht : tunnel_ok (erspan x).
Hypothesis Hv : valid_dip_type (erspan x).
Hypothesis Hcur : current_data w <= l2_hdr_offset w.

Let cur := sf_wqe_get_current w.
Let common := erspan_common_len (erspan x).

(** The template, the number and the third header, then the outer fields. *)
Lemma templates_written n seq tpl k : Z.of_nat (length tpl) = k ->
  let p := cur - common - 4 - k in
  erspan_outer c (erspan x) n p
    (poke (poke (poke mem p (erspan_common_template (erspan x))) (cur - 4 - k) (le_bytes 4 seq)) (cur - k) tpl) =
  poke mem p (head c (erspan x) IP_PRO_GRE (GRE_HEADER_LEN + n) ++ gre_template 0x88BE ++ le_bytes 4 seq ++ tpl).
Proof.
  intros Hk p. destruct (common_template_length _ Hv) as [Hl _]. fold common in Hl.
  rewrite poke_app by (cbn [length le_bytes]; lia). rewrite poke_app by (subst p; lia). by apply erspan_outer_written.
Qed.

Lemma proc_ii seq n :
  let p := cur - common - 4 - 8 in
  let h := head c (erspan x) IP_PRO_GRE (GRE_HEADER_LEN + n) in
  let mem1 := poke mem p (h ++ gre_template 0x88BE ++ le_bytes 4 seq ++ sf_erspan_ii_header_template) in
  let g := p + common - GRE_HEADER_LEN in
  let mem2 := mem1.[g <- Z.lor mem1.[g] 16] in
  erspan_ii_header x (cur - 8) w (le_set 4 (g + 4) (bswap32 seq) mem2) =
  poke mem p (h ++ [16; 0] ++ be16 0x88BE ++ le_bytes 4 (bswap32 seq) ++
    be16 0x1000 ++ be16 (tag_cos mem w * 2 ^ 13 + 3 * 2 ^ 11 + session_of x) ++ repeat 0 4).
Proof.
  intros p h mem1 g mem2. destruct (common_template_length _ Hv) as [_ El]. fold common in El.
  pose proof (head_length c _ IP_PRO_GRE (GRE_HEADER_LEN + n) Hc Ht) as Hh. fold h in Hh.
  assert (Hg : g = p + Z.of_nat (length h)) by (subst g; unfold GRE_HEADER_LEN; lia).
  unfold mem2, mem1. rewrite flag_S_written, sequence_written by lia.
  rewrite erspan_ii_written; [by rewrite <- !app_assoc| |unfold cur, sf_wqe_get_current; lia].
  rewrite !length_app. cbn [length be16 le_bytes]. subst p. lia.
Qed.

Lemma proc_iii seq ts n :
  let p := cur - common - 4 - 12 in
  let h := head c (erspan x) IP_PRO_GRE (GRE_HEADER_LEN + n) in
  let mem1 := poke mem p (h ++ gre_template 0x88BE ++ le_bytes 4 seq ++ sf_erspan_iii_header_template) in
  let g := p + common - GRE_HEADER_LEN in
  let mem2 := mem1.[g <- Z.lor mem1.[g] 16] in
  erspan_iii_header x ts (cur - 12) w (le_set 4 (g + 4) (bswap32 seq) (le_set 2 (g + 2) (bswap16 0x22EB) mem2)) =
  poke mem p (h ++ [16; 0] ++ be16 0x22EB ++ le_bytes 4 (bswap32 seq) ++
    be16 (0x2000 + tag_vid mem w) ++ be16 (tag_cos mem w * 2 ^ 13 + session_of x) ++
    le_bytes 4 (bswap32 (u32 ts)) ++ [0; 0] ++ be16 0x8000).
Proof.
  intros p h mem1 g mem2. destruct (common_template_length _ Hv) as [_ El]. fold common in El.
  pose proof (head_length c _ IP_PRO_GRE (GRE_HEADER_LEN + n) Hc Ht) as Hh. fold h in Hh.
  assert (Hg : g = p + Z.of_nat (length h)) by (subst g; unfold GRE_HEADER_LEN; lia).
  unfold mem2, mem1. rewrite flag_S_written, protocol_written, sequence_written by lia.
  rewrite erspan_iii_written; [by rewrite <- !app_assoc| |unfold cur, sf_wqe_get_current; lia].
  rewrite !length_app. cbn [length be16 le_bytes]. subst p. lia.
Qed.
End proc.

Lemma encap_erspan_wraps c x ts seq mem w d :
  intf_ok c -> tunnel_ok (erspan x) -> valid_dip_type (erspan x) -> 1 <= erspan_type x <= 3 ->
  current_data w <= l2_hdr_offset w ->
  let hdr := erspan_hdr c x ts seq (tag_cos mem w) (tag_vid mem w) (current_length w) in
  let '(mem', w', seq', d') := encap_erspan c x ts seq mem w d in
  wrapped hdr mem w mem' w' /\ seq' = (if decide (erspan_type x = 1) then seq else u32 (seq + 1)) /\
  d' = i16 (d + Z.of_nat (length hdr)).
Proof.
  intros Hc Ht Hv Hty Hcur hdr. unfold encap_erspan. rewrite decide_True by done. unfold encap_erspan_proc.
  destruct (common_template_length _ Hv) as [Hl El].
  assert (Hhl : Z.of_nat (length hdr) = head_len (erspan x) + Z.of_nat (length (erspan_shim x ts seq (tag_cos mem w) (tag_vid mem w)))).
  { subst hdr. unfold erspan_hdr. by rewrite length_app, Nat2Z.inj_add, head_length. }
  unfold wrapped. rewrite Hhl. unfold hdr, erspan_hdr.
  assert (Hs : erspan_type x = 1 \/ erspan_type x = 2 \/ erspan_type x = 3) by lia.
  destruct Hs as [E|[E|E]]; unfold erspan_shim; rewrite E.
  - rewrite !(decide_True (P := 1 = 1)) by done. change (Z.of_nat (length (gre_template 0x88BE))) with 4.
    rewrite <- El. split; [|done]. split; [|done]. rewrite <- (app_nil_r (erspan_common_template _)).
    rewrite erspan_outer_written by done. by rewrite app_nil_r.
  - rewrite !(decide_False (P := 2 = 1)), !(decide_True (P := 2 = 2)) by done. cbv zeta.
    rewrite templates_written, proc_ii by done. set (s := [16; 0] ++ _). change (Z.of_nat (length s)) with 16.
    rewrite El. split; [|split; [done|f_equal; lia]]. split; f_equal; try lia.
    f_equal. f_equal. unfold GRE_HEADER_LEN. lia.
  - rewrite !(decide_False (P := 3 = 1)), !(decide_False (P := 3 = 2)), !(decide_True (P := 3 = 3)) by done. cbv zeta.
    rewrite templates_written, proc_iii by done. set (s := [16; 0] ++ _). change (Z.of_nat (length s)) with 20.
    rewrite El. split; [|split; [done|f_equal; lia]]. split; f_equal; try lia.
    f_equal. f_equal. unfold GRE_HEADER_LEN. lia.
Qed.
End erspan.
