(* ===== verification/EncapTunnel.v ===== *)
(** * Tunnels, one and nested

    The three encapsulations under one interface: each turns the bytes of the window
    into the encoding of an outer packet around them, which a receiver's decoders
    read back.  The list of nodes an action leaves in the buffer nests them. *)
From S2P Require Import Prelude FrameLoop Wdata Decode DecodeSpec DecodeRound Action Encap EncapSpec EncapHeader EncapRound EncapErspan.

Implicit Types (w : sf_wdata_t) (mem : gmap Z Z) (t : tunnel_t) (c : intf_addr) (x : additional_action_t) (l s inner : list Z).

Inductive tunnel_kind := Gre | Vxlan | Erspan.
Implicit Types (k : tunnel_kind).

Definition tunnel_of k x : tunnel_t := match k with Gre => gre x | Vxlan => vxlan x | Erspan => erspan x end.

(** The members an encapsulation reads are of their C types, and set. *)
Record kind_ok k x : Prop := {
  ko_tunnel : tunnel_ok (tunnel_of k x);
  ko_dip : valid_dip_type (tunnel_of k x);
  ko_more : match k with Gre => True | Vxlan => 0 <= vxlan_dport x < 2 ^ 16 | Erspan => 1 <= erspan_type x <= 3 end
}.

Section tunnels.
Context `{Ip4Checksum}.

Definition encap k c x (ts seq : Z) mem w (d : Z) : gmap Z Z * sf_wdata_t * Z * Z :=
  match k with
  | Gre => let '(mem, w) := encap_gre c (gre x) mem w in (mem, w, seq, d)
  | Vxlan => let '(mem, w) := encap_vxlan c x mem w in (mem, w, seq, d)
  | Erspan => encap_erspan c x ts seq mem w d
  end.

Definition tunnel_tr k x (n : Z) : transport := match k with Vxlan => vxlan_tr x n | _ => Opaque IP_PRO_GRE end.
Definition tunnel_shim k x (ts seq cos vid : Z) : list Z :=
  match k with
  | Gre => gre_template 0x6558
  | Vxlan => vxlan_shim x
  | Erspan => erspan_shim x ts seq cos vid
  end.

(** The outer packet around [inner], whose first tag has the class [cos] and the
    number [vid], and the bytes in front of [n] bytes. *)
Definition carried k c x (ts seq cos vid : Z) inner : packet :=
  outer c (tunnel_of k x) (tunnel_tr k x (Z.of_nat (length inner))) (tunnel_shim k x ts seq cos vid ++ inner).
Definition tunnel_hdr k c x (ts seq cos vid n : Z) : list Z :=
  match k with
  | Gre => gre_hdr c (gre x) n
  | Vxlan => vxlan_hdr c x n
  | Erspan => erspan_hdr c x ts seq cos vid n
  end.

(** The sequence number after the tunnel. *)
Definition next_seq k x (seq : Z) : Z :=
  match k with Erspan => if decide (erspan_type x = 1) then seq else u32 (seq + 1) | _ => seq end.

Lemma encap_wraps k c x ts seq mem w d : intf_ok c -> kind_ok k x -> current_data w <= l2_hdr_offset w ->
  let '(mem', w', seq', d') := encap k c x ts seq mem w d in
  wrapped (tunnel_hdr k c x ts seq (tag_cos mem w) (tag_vid mem w) (current_length w)) mem w mem' w' /\
  seq' = next_seq k x seq.
Proof.
  intros Hc [Ht Hv Hm] Hcur. destruct k; cbn [encap tunnel_hdr tunnel_of] in *.
  - pose proof (encap_gre_wraps c _ mem w Hc Ht Hv) as Hw. by destruct (encap_gre _ _ _ _).
  - pose proof (encap_vxlan_wraps c _ mem w Hc Ht Hv) as Hw. by destruct (encap_vxlan _ _ _ _).
  - pose proof (encap_erspan_wraps c x ts seq mem w d Hc Ht Hv Hm Hcur) as Hw.
    destruct (encap_erspan _ _ _ _ _ _ _) as [[[? ?] ?] ?]. by destruct Hw as (? & ? & _).
Qed.

Lemma encode_carried k c x ts seq cos vid inner :
  encode (carried k c x ts seq cos vid inner) = tunnel_hdr k c x ts seq cos vid (Z.of_nat (length inner)) ++ inner.
Proof.
  unfold carried. rewrite encode_outer. set (n := Z.of_nat (length inner)).
  destruct k; cbn [tunnel_tr tunnel_shim tunnel_hdr tunnel_of tr_proto].
  - unfold gre_hdr. cbn [tr_bytes app]. rewrite length_app, Nat2Z.inj_add. by rewrite <- app_assoc.
  - unfold vxlan_hdr. rewrite (length_app (tr_bytes _)), (length_app (vxlan_shim x)), !Nat2Z.inj_add. fold n.
    change (Z.of_nat (length (tr_bytes (vxlan_tr x n)))) with UDP_HEADER_LEN.
    change (Z.of_nat (length (vxlan_shim x))) with VXLAN_HEADER_LEN. by rewrite Z.add_assoc, <- !app_assoc.
  - unfold erspan_hdr. cbn [tr_bytes app]. rewrite length_app, Nat2Z.inj_add. by rewrite <- app_assoc.
Qed.

(** The bytes a tunnel adds: between 38 and 74. *)
Definition tunnel_len k x : Z :=
  head_len (tunnel_of k x) +
  match k with
  | Gre => 4
  | Vxlan => 16
  | Erspan => if decide (erspan_type x = 1) then 4 else if decide (erspan_type x = 2) then 16 else 20
  end.

Lemma tunnel_hdr_length k c x ts seq cos vid n : intf_ok c -> kind_ok k x ->
  Z.of_nat (length (tunnel_hdr k c x ts seq cos vid n)) = tunnel_len k x.
Proof.
  intros Hc [Ht _ _]. unfold tunnel_len. destruct k; cbn [tunnel_hdr tunnel_of] in *.
  - unfold gre_hdr. by rewrite length_app, Nat2Z.inj_add, head_length.
  - unfold vxlan_hdr. rewrite length_app, Nat2Z.inj_add, head_length by done. by rewrite length_app.
  - unfold erspan_hdr. rewrite length_app, Nat2Z.inj_add, head_length by done. f_equal.
    unfold erspan_shim. by repeat case_decide.
Qed.

Lemma tunnel_len_range k x : 38 <= tunnel_len k x <= 74.
Proof. unfold tunnel_len, head_len. case_decide; destruct k; repeat case_decide; lia. Qed.

Lemma carried_ok k c x ts seq cos vid inner : intf_ok c -> kind_ok k x -> packet_ok (carried k c x ts seq cos vid inner).
Proof.
  intros Hc [Ht Hv Hm].
  assert (Hpos : 0 < Z.of_nat (length (tr_bytes (tunnel_tr k x (Z.of_nat (length inner))) ++ tunnel_shim k x ts seq cos vid ++ inner))).
  { destruct k; cbn [tunnel_tr tunnel_shim tr_bytes]; rewrite !length_app; [cbn; lia..|].
    unfold erspan_shim. repeat case_decide; cbn; lia. }
  assert (He : forall q, q = IP_PRO_GRE \/ q = IP_PRO_UDP -> ends_chain q /\ q <> IP_PRO_INVALID).
  { intros q [->| ->]; by repeat split. }
  destruct k; apply outer_ok; try done; try (apply He; by (left || right)).
Qed.

(** ** The window over a tunnel *)

(** The bytes of the window. *)
Definition window_holds mem w l : Prop :=
  holds mem (sf_wqe_get_current w) l /\ Z.of_nat (length l) = current_length w.

Lemma holds_ext mem1 mem2 p1 p2 l : (forall i, 0 <= i < Z.of_nat (length l) -> mem2.[p2 + i] = mem1.[p1 + i]) ->
  holds mem1 p1 l -> holds mem2 p2 l.
Proof. intros E Hh i y Hi. pose proof (lookup_lt_Some _ _ _ Hi). rewrite E by lia. by apply Hh. Qed.

Lemma wrapped_window hdr mem w mem' w' inner : wrapped hdr mem w mem' w' -> window_holds mem w inner ->
  - 2 ^ 15 <= current_data w - Z.of_nat (length hdr) -> current_data w < 2 ^ 15 ->
  current_length w + Z.of_nat (length hdr) < 2 ^ 16 ->
  window_holds mem' w' (hdr ++ inner) /\ current_data w' = current_data w - Z.of_nat (length hdr) /\
  l2_hdr_offset w' = l2_hdr_offset w /\ interface_id w' = interface_id w /\ arg_to_next w' = arg_to_next w /\
  data_ptr w' = data_ptr w.
Proof.
  intros [-> ->] [Hh Hl] Hd Hd2 Hn. assert (Ed : current_data (sf_wqe_advance (- Z.of_nat (length hdr)) w) = current_data w - Z.of_nat (length hdr)).
  { cbn. rewrite i16_small by lia. lia. }
  assert (El : current_length (sf_wqe_advance (- Z.of_nat (length hdr)) w) = current_length w + Z.of_nat (length hdr)).
  { cbn. rewrite wrap_small by lia. lia. }
  assert (Ec : sf_wqe_get_current (sf_wqe_advance (- Z.of_nat (length hdr)) w) = sf_wqe_get_current w - Z.of_nat (length hdr)).
  { unfold sf_wqe_get_current. rewrite Ed. cbn. lia. }
  split; [|done]. split; [|rewrite length_app, El; lia].
  rewrite holds_app, Ec. split; [apply holds_poke|]. apply (holds_ext mem _ (sf_wqe_get_current w)); [|done].
  intros i Hi. rewrite poke_frame by lia. f_equal. lia.
Qed.

(** The first tag of the packet inside stays where the record says. *)
Lemma wrapped_tags hdr mem w mem' w' : wrapped hdr mem w mem' w' -> current_data w <= l2_hdr_offset w ->
  tag_cos mem' w' = tag_cos mem w /\ tag_vid mem' w' = tag_vid mem w.
Proof.
  intros [-> ->] Hcd. set (p := _ - _).
  destruct (is_tagged_frame mem p hdr w) as (E1 & E2 & E3); [subst p; unfold sf_wqe_get_current; lia|].
  unfold tag_cos, tag_vid.
  change (is_tagged ?m (sf_wqe_advance ?n w)) with (is_tagged m w).
  change (tag_byte ?m (sf_wqe_advance ?n w)) with (tag_byte m w).
  change (tag_vlan ?m (sf_wqe_advance ?n w)) with (tag_vlan m w). by rewrite E1, E2, E3.
Qed.

(** C9: a tunnel can be read back.  GRE, VXLAN and ERSPAN of the three types, over
    IPv4 and IPv6: when the window holds the bytes [inner] and the headers fit, the
    node leaves a window that holds exactly the encoding of a well-formed outer packet:
    the tunnel's and the interface's MAC and IP addresses, the checksum, lengths that
    count what follows them, the transport, then the tunnel's own header and [inner];
    only ERSPAN of types 2 and 3 counts its sequence number on.  In any memory that a
    receiver finds these bytes in, the decoders return the record that describes the
    outer packet and send it to the rules, with [inner] unchanged behind the headers. *)
Theorem tunnel_read_back k c x ts seq mem w d inner mem' w' seq' d' fuel memr hl wr :
  intf_ok c -> kind_ok k x -> window_holds mem w inner -> current_data w <= l2_hdr_offset w < 2 ^ 15 ->
  let cos := tag_cos mem w in let vid := tag_vid mem w in
  let n := Z.of_nat (length (tunnel_hdr k c x ts seq cos vid (current_length w))) in
  - 2 ^ 15 <= current_data w - n -> current_length w + n < 2 ^ 16 ->
  encap k c x ts seq mem w d = (mem', w', seq', d') ->
  (forall i, 0 <= i < current_length w' -> memr.[sf_wqe_get_current wr + i] = mem'.[sf_wqe_get_current w' + i]) ->
  room wr (current_length w') -> ip_wdata_cnt wr = 0 -> (0 < fuel)%nat ->
  let o := carried k c x ts seq cos vid inner in
  packet_ok o /\ window_holds mem' w' (encode o) /\ seq' = next_seq k x seq /\
  exists wr', decode fuel memr hl wr = Some (wr', To_acl_entry) /\
    describes o wr wr' /\ current_length w' = n + current_length w /\
    holds memr (sf_wqe_get_current wr + n) inner.
Proof.
  intros Hc Hk Hw Hcd cos vid n Hd Hn E Hm Hr Hi Hf. destruct Hcd as [Hcd Hcd2].
  pose proof (encap_wraps k c x ts seq mem w d Hc Hk Hcd) as Hwr. rewrite E in Hwr. destruct Hwr as [Hwr Hs].
  fold cos vid in Hwr. destruct (wrapped_window _ _ _ _ _ _ Hwr Hw Hd) as ([Hh Hl] & _); [lia|done|].
  pose proof (encode_carried k c x ts seq cos vid inner) as Ee. rewrite (proj2 Hw) in Ee. rewrite <- Ee in Hh, Hl.
  pose proof (carried_ok k c x ts seq cos vid inner Hc Hk) as Hok. set (o := carried k c x ts seq cos vid inner) in *.
  assert (Hhr : holds memr (sf_wqe_get_current wr) (encode o))
    by (apply (holds_ext mem' _ (sf_wqe_get_current w')); [intros i Hi'; apply Hm; lia|done]).
  split; [done|]. split; [by split|]. split; [done|].
  rewrite <- Hl in Hr. exists (decoded o wr). split; [|split; [|split]].
  - rewrite (decode_encode_aux fuel memr hl wr _ Hok Hhr Hr Hi).
    + unfold p_dest, o, carried. by rewrite outer_not_frag.
    + unfold o, carried, outer, outer_net. cbn [p_tags p_net]. by case_decide.
  - by apply decoded_describes.
  - by rewrite <- Hl, Ee, length_app, Nat2Z.inj_add, (proj2 Hw).
  - rewrite Ee, holds_app in Hhr. apply Hhr.
Qed.
End tunnels.
