(* ===== verification/EncapPath.v ===== *)
(** * The path through the encapsulation nodes

    An action leaves in the buffer the list of the nodes to visit; each node takes the
    next entry.  A frame's pairs do what its packets do one after the other, and a
    packet that leaves the last node carries one tunnel inside another, in the order
    ERSPAN, VXLAN, GRE. *)
From S2P Require Import Prelude FrameLoop Wdata Decode DecodeSpec DecodeRound Action Encap EncapSpec EncapHeader EncapRound EncapErspan EncapTunnel.

Implicit Types (w : sf_wdata_t) (mem : gmap Z Z) (c : intf_addr) (x : additional_action_t) (l inner : list Z).
Implicit Types (k : tunnel_kind) (st : encap_state) (al : sf_additional_list_t).

Section path.
Context `{Ip4Checksum} (conf : gmap Z sf_action_t) (interfaces : gmap Z intf_addr) (clock : Z -> Z).

Definition packet_of k : encap_state -> Z -> encap_state :=
  match k with
  | Gre => gre_packet conf interfaces
  | Vxlan => vxlan_packet conf interfaces
  | Erspan => erspan_packet conf interfaces clock
  end.
Definition next_of k : Z :=
  match k with
  | Gre => SF_NEXT_NODE_ACTION_GRE_ENCAPSULATION
  | Vxlan => SF_NEXT_NODE_ACTION_VXLAN_ENCAPSULATION
  | Erspan => SF_NEXT_NODE_ACTION_ERSPAN_ENCAPSULATION
  end.

(** What the encapsulation of a buffer reads. *)
Definition addr_at st (b : Z) : intf_addr := interfaces.[interface_id (en_wdata st).[b] - 1].
Definition additional_at st (b : Z) : additional_action_t :=
  additional_actions (get_action_ptr_nocheck conf (en_wdata st).[b]).

(** One node on one packet, in terms of the three encapsulations. *)
Lemma packet_of_encap k st b mem w seq d :
  encap k (addr_at st b) (additional_at st b) (clock b) (sf_gre_option_template st) (en_mem st) (en_wdata st).[b]
    (delta (en_list st).[b]) = (mem, w, seq, d) ->
  exists ls, packet_of k st b = mk_en (en_wdata st).[b <- w] ls mem seq /\
    pre_index ls.[b] = pre_index (en_list st).[b] /\ addtional_list ls.[b] = addtional_list (en_list st).[b] /\
    (forall b', b' <> b -> ls.[b'] = (en_list st).[b']).
Proof.
  unfold addr_at, additional_at. destruct k; cbn [encap packet_of].
  - unfold gre_packet. destruct (encap_gre _ _ _ _) as [m v] eqn:E. intros [= -> -> <- _]. by eexists.
  - unfold vxlan_packet. destruct (encap_vxlan _ _ _ _) as [m v] eqn:E. intros [= -> -> <- _]. by eexists.
  - unfold erspan_packet. intros ->. eexists. split; [done|]. rewrite aget_aset_eq. split; [done|]. split; [done|].
    intros b' Hb. by apply aget_aset_ne.
Qed.

(** ** Frames *)

(** A node's work on a packet and taking another packet's next node commute. *)
Lemma packet_pop k st b0 b1 : b0 <> b1 ->
  pop_next (packet_of k st b1) b0 = (packet_of k (fst (pop_next st b0)) b1, snd (pop_next st b0)).
Proof.
  intros Hb. unfold pop_next, pop_addtional_list. destruct k; cbn.
  - unfold gre_packet. cbn. by destruct (encap_gre _ _ _ _).
  - unfold vxlan_packet. cbn. by destruct (encap_vxlan _ _ _ _).
  - unfold erspan_packet. cbn. rewrite aget_aset_ne by done. destruct (encap_erspan _ _ _ _ _ _ _) as [[[m v] sq] d].
    cbn. rewrite !aget_aset_ne by done. unfold aset. by rewrite insert_insert_ne.
Qed.

Lemma encap_two_steps k st b0 b1 : b0 <> b1 ->
  encap_two (packet_of k) st b0 b1 = two_steps (encap_one (packet_of k)) st b0 b1.
Proof.
  intros Hb. unfold encap_two, two_steps, encap_one. rewrite packet_pop by done.
  destruct (pop_next (packet_of k st b0) b0) as [st1 n0]. cbn [obind fst snd].
  by destruct (pop_next (packet_of k st1 b1) b1).
Qed.

(** The nodes for GRE, VXLAN and ERSPAN handle a frame of distinct buffers two
    packets at a time (both headers, then both next nodes) exactly as the packets
    one after the other: same records, lists, memory, sequence number and next
    nodes, however VPP splits the frame. *)
Theorem encap_one_by_one k st from st' out : NoDup from ->
  encap_node (packet_of k) st from st' out <-> one_by_one (encap_one (packet_of k)) st from = Some (st', out).
Proof.
  intros Hnd. apply (frame_run_iff _ _ (fun _ _ => True)); [|done|done|].
  - intros. by apply encap_two_steps.
  - by apply Forall_forall.
Qed.

(** ** The list in the buffer *)

(** The entries still to take. *)
Definition pending al (l : list Z) : Prop :=
  (l <> [] -> 0 <= pre_index al /\ pre_index al + Z.of_nat (length l) <= 60) /\
  forall i v, l !! i = Some v -> (addtional_list al).[pre_index al + Z.of_nat i] = v.

Lemma pop_pending al v l : pending al (v :: l) ->
  fst (pop_addtional_list al) = v /\ pending (snd (pop_addtional_list al)) l.
Proof.
  intros (Hb & Hl). destruct Hb as [H0 H1]; [done|]. cbn [length] in H1. unfold pop_addtional_list. cbn. split.
  - specialize (Hl 0%nat v eq_refl). by rewrite Z.add_0_r in Hl.
  - unfold pending. cbn. rewrite wrap_small by lia. split; [lia|]. intros i u Hi.
    rewrite <- (Hl (S i) u Hi). f_equal. lia.
Qed.

Lemma pending_ext al al' l : pre_index al' = pre_index al -> addtional_list al' = addtional_list al ->
  pending al l -> pending al' l.
Proof. unfold pending. by intros -> ->. Qed.

(** ** Visiting the nodes *)

Definition kind_of (next : Z) : option tunnel_kind :=
  if decide (next = SF_NEXT_NODE_ACTION_GRE_ENCAPSULATION) then Some Gre
  else if decide (next = SF_NEXT_NODE_ACTION_VXLAN_ENCAPSULATION) then Some Vxlan
  else if decide (next = SF_NEXT_NODE_ACTION_ERSPAN_ENCAPSULATION) then Some Erspan
  else None.

(** The nodes a packet goes through until one that is no encapsulation. *)
Fixpoint encap_path (fuel : nat) st (b next : Z) : option (encap_state * Z) :=
  match kind_of next with
  | None => Some (st, next)
  | Some k =>
      match fuel with
      | O => None
      | S fuel => let? (st, next) := encap_one (packet_of k) st b in encap_path fuel st b next
      end
  end.

(** The specification: one tunnel inside another, the first of [ks] innermost. *)
Fixpoint nest (ks : list tunnel_kind) c x (ts seq cos vid : Z) inner : list Z :=
  match ks with
  | [] => inner
  | k :: ks => nest ks c x ts (next_seq k x seq) cos vid (encode (carried k c x ts seq cos vid inner))
  end.
Definition nest_len (ks : list tunnel_kind) x : Z := foldr Z.add 0 (map (fun k => tunnel_len k x) ks).

(** ** One node of the path *)

(** What stays true of a packet on its way: the bytes [l] in its window, its
    interface, its action, and the first tag of the packet inside. *)
Record on_path st (b : Z) c x (cos vid : Z) (l : list Z) : Prop := {
  op_window : window_holds (en_mem st) (en_wdata st).[b] l;
  op_addr : addr_at st b = c;
  op_additional : additional_at st b = x;
  op_inside : current_data (en_wdata st).[b] <= l2_hdr_offset (en_wdata st).[b] < 2 ^ 15;
  op_cos : tag_cos (en_mem st) (en_wdata st).[b] = cos;
  op_vid : tag_vid (en_mem st) (en_wdata st).[b] = vid
}.

Lemma on_path_step k st b c x cos vid l rest : intf_ok c -> kind_ok k x ->
  on_path st b c x cos vid l -> pending (en_list st).[b] rest ->
  - 2 ^ 15 <= current_data (en_wdata st).[b] - tunnel_len k x -> Z.of_nat (length l) + tunnel_len k x < 2 ^ 16 ->
  let seq := sf_gre_option_template st in
  let st' := packet_of k st b in
  on_path st' b c x cos vid (encode (carried k c x (clock b) seq cos vid l)) /\ pending (en_list st').[b] rest /\
  sf_gre_option_template st' = next_seq k x seq /\
  current_data (en_wdata st').[b] = current_data (en_wdata st).[b] - tunnel_len k x.
Proof.
  intros Hc Hk [Hw Ha Hx [Hin Hin2] Hcos Hvid] Hp Hd Hl seq st'.
  pose proof (encap_wraps k c x (clock b) seq (en_mem st) (en_wdata st).[b] (delta (en_list st).[b]) Hc Hk Hin) as Hwr.
  pose proof (packet_of_encap k st b) as Hpk. rewrite Ha, Hx in Hpk.
  destruct (encap k c x (clock b) seq (en_mem st) (en_wdata st).[b] (delta (en_list st).[b])) as [[[m' w'] sq'] d'] eqn:E.
  destruct (Hpk _ _ _ _ E) as (ls & Est & Hpi & Hal & _). destruct Hwr as [Hwr Hsq]. rewrite Hcos, Hvid in Hwr.
  pose proof (tunnel_hdr_length k c x (clock b) seq cos vid (current_length (en_wdata st).[b]) Hc Hk) as Hlen.
  destruct (wrapped_window _ _ _ _ _ _ Hwr Hw) as (Hw' & Ed & El2 & Ei & Earg & Edp);
    [rewrite Hlen; lia|lia|rewrite Hlen, <- (proj2 Hw); lia|].
  destruct (wrapped_tags _ _ _ _ _ Hwr Hin) as [Ec Ev].
  unfold st'. rewrite Est. cbn [en_list sf_gre_option_template en_wdata]. rewrite aget_aset_eq.
  split; [|split; [by apply (pending_ext (en_list st).[b])|split; [done|by rewrite Ed, Hlen]]].
  pose proof (tunnel_len_range k x).
  split; unfold addr_at, additional_at, get_action_ptr_nocheck, arg1_to_next; cbn [en_mem en_wdata]; rewrite aget_aset_eq.
  - by rewrite encode_carried, (proj2 Hw).
  - by rewrite Ei.
  - by rewrite Earg.
  - rewrite Ed, El2, Hlen. lia.
  - by rewrite Ec.
  - by rewrite Ev.
Qed.

(** ** The whole path *)

Lemma kind_of_next k : kind_of (next_of k) = Some k.
Proof. by destruct k. Qed.

Lemma kind_of_final next : ADDITIONAL_TYPE_COUNT <= next -> kind_of next = None.
Proof.
  intros Hn. unfold kind_of, ADDITIONAL_TYPE_COUNT, SF_NEXT_NODE_ACTION_GRE_ENCAPSULATION, SF_NEXT_NODE_ACTION_VXLAN_ENCAPSULATION,
    SF_NEXT_NODE_ACTION_ERSPAN_ENCAPSULATION in *. by rewrite !decide_False by lia.
Qed.

Lemma nest_len_cons k ks x : nest_len (k :: ks) x = tunnel_len k x + nest_len ks x.
Proof. done. Qed.

Lemma nest_len_nonneg ks x : 0 <= nest_len ks x.
Proof. induction ks as [|k ks IH]; [done|]. rewrite nest_len_cons. pose proof (tunnel_len_range k x). lia. Qed.

Lemma carried_length k c x ts seq cos vid l : intf_ok c -> kind_ok k x ->
  Z.of_nat (length (encode (carried k c x ts seq cos vid l))) = tunnel_len k x + Z.of_nat (length l).
Proof. intros Hc Hk. by rewrite encode_carried, length_app, Nat2Z.inj_add, tunnel_hdr_length. Qed.

(** The nodes of [ks], the first of them given as the next node. *)
Lemma encap_path_nests ks : forall fuel st b c x cos vid l final next rest,
  intf_ok c -> Forall (fun k => kind_ok k x) ks -> ADDITIONAL_TYPE_COUNT <= final -> (length ks <= fuel)%nat ->
  on_path st b c x cos vid l -> map next_of ks ++ [final] = next :: rest -> pending (en_list st).[b] rest ->
  - 2 ^ 15 <= current_data (en_wdata st).[b] - nest_len ks x -> Z.of_nat (length l) + nest_len ks x < 2 ^ 16 ->
  exists st', encap_path fuel st b next = Some (st', final) /\
    on_path st' b c x cos vid (nest ks c x (clock b) (sf_gre_option_template st) cos vid l) /\
    current_data (en_wdata st').[b] = current_data (en_wdata st).[b] - nest_len ks x.
Proof.
  induction ks as [|k ks IH]; intros fuel st b c x cos vid l final next rest Hc Hks Hfin Hf Ho Hm Hp Hd Hl.
  - injection Hm as <- <-. exists st. change (nest_len [] x) with 0. rewrite Z.sub_0_r. split; [|done].
    destruct fuel; cbn [encap_path]; by rewrite kind_of_final.
  - apply Forall_cons in Hks as [Hk Hks]. rewrite nest_len_cons in *. pose proof (nest_len_nonneg ks x).
    destruct fuel as [|fuel]; cbn [length] in Hf; [lia|]. injection Hm as <- Hm.
    destruct (on_path_step k st b c x cos vid l _ Hc Hk Ho Hp) as (Ho' & Hp' & Es & Ed); [lia|lia|].
    set (st1 := packet_of k st b) in *. destruct rest as [|n rest]; [by destruct ks|].
    destruct (pop_pending _ _ _ Hp') as [En Hp2]. cbn [encap_path]. rewrite kind_of_next. unfold encap_one. fold st1.
    unfold pop_next. destruct (pop_addtional_list (en_list st1).[b]) as [n' al'] eqn:Epop. cbn [fst snd] in En, Hp2. subst n'.
    cbn [obind].
    set (st2 := mk_en (en_wdata st1) (en_list st1).[b <- al'] (en_mem st1) (sf_gre_option_template st1)).
    destruct (IH fuel st2 b c x cos vid (encode (carried k c x (clock b) (sf_gre_option_template st) cos vid l)) final n rest)
      as (st' & Erun & Ho2 & Ed2); try done; try lia.
    + by destruct Ho'.
    + unfold st2. cbn [en_list]. by rewrite aget_aset_eq.
    + unfold st2. cbn [en_wdata]. rewrite Ed. lia.
    + rewrite carried_length by done. lia.
    + exists st'. split; [done|]. unfold st2 in Ho2, Ed2. cbn [sf_gre_option_template en_wdata] in Ho2, Ed2.
      rewrite Es in Ho2. split; [done|]. rewrite Ed2, Ed. lia.
Qed.
End path.

(** ** From the action to the output *)

Definition kinds_of x : list tunnel_kind :=
  (if flag_erspan x then [Erspan] else []) ++ (if flag_vxlan x then [Vxlan] else []) ++ (if flag_gre x then [Gre] else []).

Lemma flags_zero x : switch_flags x = 0 -> kinds_of x = [].
Proof. intros E. unfold kinds_of, flag_gre, flag_vxlan, flag_erspan. by rewrite E. Qed.

(** The list [get_action_forward_path] leaves. *)
Lemma forward_path_list conf w al a :
  get_action conf (arg_to_next w) = Some a -> ACTION_TYPE_DROP < action_type a < ACTION_TYPE_COUNT ->
  let '(w', al', next) := get_action_forward_path conf w al in
  let final := action_type_to_next_index (action_type a) in
  w' = with_out (forward_interface_id a) (with_arg (Z.land (arg_to_next w) 0xFFFF) w) /\
  exists rest, map next_of (kinds_of (additional_actions a)) ++ [final] = next :: rest /\ pending al' rest.
Proof.
  intros Hg Ht. unfold get_action_forward_path. rewrite Hg. cbv zeta. rewrite decide_False by lia.
  destruct (decide _) as [E0|_].
  - split; [done|]. exists []. by rewrite flags_zero.
  - unfold ACTION_TYPE_DROP, ACTION_TYPE_COUNT in Ht. assert (Ha : action_type a = 2 \/ action_type a = 3) by lia.
    unfold kinds_of. destruct (flag_erspan _), (flag_vxlan _), (flag_gre _), Ha as [-> | ->];
      (split; [done|]; eexists; split; [done|]; split; [intros _; split; vm_compute; congruence|]);
      intros i v Hi; do 4 (destruct i as [|i]; [first [discriminate Hi|by injection Hi as <-]|]); discriminate Hi.
Qed.

Lemma get_action_Some conf id a : get_action conf id = Some a -> 1 <= id <= MAX_ACTION_NUM /\ conf.[id - 1] = a.
Proof.
  unfold get_action, is_valid_action_id. destruct (1 <=? id) eqn:E1; [|done]. destruct (id <=? MAX_ACTION_NUM) eqn:E2; [|done].
  apply Z.leb_le in E1, E2. cbn [andb]. case_decide; [done|]. intros [= <-]. done.
Qed.

Lemma nest_len_kinds x : nest_len (kinds_of x) x <= 202.
Proof.
  unfold kinds_of. pose proof (tunnel_len_range Gre x) as H1. pose proof (tunnel_len_range Vxlan x) as H2. pose proof (tunnel_len_range Erspan x) as H3.
  assert (tunnel_len Gre x <= 58) by (unfold tunnel_len, head_len; case_decide; lia).
  assert (tunnel_len Vxlan x <= 70) by (unfold tunnel_len, head_len; case_decide; lia).
  destruct (flag_erspan x), (flag_vxlan x), (flag_gre x); cbn [app]; rewrite ?nest_len_cons; change (nest_len [] x) with 0; lia.
Qed.

(** C10: an action's encapsulations nest, ERSPAN innermost, then VXLAN, then GRE.  The
    list the action node leaves takes the packet through exactly the nodes of its
    flags and then to the node of its type; the window then holds the encoding of
    the outermost packet, whose data hold the next one, down to the packet as it
    arrived, each with the lengths, addresses and tag fields of what it carries;
    the headers take at most 202 bytes in front of the packet. *)
Theorem tunnels_nest `{Ip4Checksum} conf interfaces clock st b a inner w' al' next :
  let w := (en_wdata st).[b] in
  let c := interfaces.[interface_id w - 1] in
  let x := additional_actions a in
  let ks := kinds_of x in
  get_action conf (arg_to_next w) = Some a -> ACTION_TYPE_DROP < action_type a < ACTION_TYPE_COUNT ->
  get_action_forward_path conf w (en_list st).[b] = (w', al', next) ->
  intf_ok c -> Forall (fun k => kind_ok k x) ks -> window_holds (en_mem st) w inner ->
  current_data w <= l2_hdr_offset w < 2 ^ 15 ->
  - 2 ^ 15 <= current_data w - nest_len ks x -> Z.of_nat (length inner) + nest_len ks x < 2 ^ 16 ->
  let st1 := mk_en (en_wdata st).[b <- w'] (en_list st).[b <- al'] (en_mem st) (sf_gre_option_template st) in
  exists st', encap_path conf interfaces clock 3 st1 b next = Some (st', action_type_to_next_index (action_type a)) /\
    window_holds (en_mem st') (en_wdata st').[b]
      (nest ks c x (clock b) (sf_gre_option_template st) (tag_cos (en_mem st) w) (tag_vid (en_mem st) w) inner) /\
    current_data (en_wdata st').[b] = current_data w - nest_len ks x /\ 0 <= nest_len ks x <= 202.
Proof.
  intros w c x ks Hg Ht E Hc Hks Hw Hcd Hd Hl st1.
  pose proof (forward_path_list conf w (en_list st).[b] a Hg Ht) as Hf. rewrite E in Hf.
  destruct Hf as (Ew & rest & Hm & Hp). apply get_action_Some in Hg as [Hid Ha].
  assert (Hland : Z.land (arg_to_next w) 0xFFFF = arg_to_next w).
  { unfold MAX_ACTION_NUM in Hid. change 0xFFFF with (2 ^ 16 - 1). rewrite wrap_land, wrap_small by lia. done. }
  rewrite Hland in Ew.
  destruct (encap_path_nests conf interfaces clock ks 3 st1 b c x (tag_cos (en_mem st) w) (tag_vid (en_mem st) w) inner
    (action_type_to_next_index (action_type a)) next rest) as (st' & Er & Ho & Ed); try done.
  - unfold action_type_to_next_index, ACTION_TYPE_DROP, ADDITIONAL_TYPE_COUNT in *. lia.
  - unfold ks, kinds_of. by destruct (flag_erspan x), (flag_vxlan x), (flag_gre x); cbn; lia.
  - split; unfold addr_at, additional_at, get_action_ptr_nocheck, arg1_to_next, st1; cbn [en_mem en_wdata];
      rewrite aget_aset_eq, Ew; try done.
    cbn [arg_to_next with_out with_arg]. unfold MAX_ACTION_NUM in Hid. rewrite wrap_small by lia. by rewrite Ha.
  - unfold st1. cbn [en_list]. by rewrite aget_aset_eq.
  - unfold st1. cbn [en_wdata]. by rewrite aget_aset_eq, Ew.
  - exists st'. split; [done|]. split; [apply Ho|]. unfold st1 in Ed. cbn [en_wdata] in Ed. rewrite aget_aset_eq, Ew in Ed.
    split; [done|]. split; [apply nest_len_nonneg|apply nest_len_kinds].
Qed.

(** * Tunnels on concrete packets

    Instances of the theorems on the encapsulations, and the depth of the deepest
    nesting. *)

(** The sum of the bytes stands for VPP's checksum. *)
#[local] Instance demo_checksum : Ip4Checksum := fun l => foldr Z.add 0 l.

Definition demo_tunnel (v : Z) : tunnel_t := mk_tunnel [2; 0; 0; 0; 0; 9] v (mk_addr 0x0100000a 7) 32.
Definition demo_additional (g v e ty : Z) : additional_action_t :=
  mk_additional 7 (demo_tunnel g) (demo_tunnel v) (bswap16 4789) (bswap32 (100 * 256)) (demo_tunnel e) ty 700.
Definition demo_intf : intf_addr := mk_intf_addr [2; 0; 0; 0; 0; 1] [10; 0; 0; 254] (mk_addr 0 0).

Lemma demo_tunnel_ok v : tunnel_ok (demo_tunnel v).
Proof. split; [done|cbn; lia|]. split; cbn; lia. Qed.

Lemma demo_intf_ok : intf_ok demo_intf.
Proof. split; [done|done| |split; cbn; lia]. repeat constructor; cbn; unfold is_byte; lia. Qed.

Lemma demo_kind_ok k g v e ty : (g = 4 \/ g = 6) -> (v = 4 \/ v = 6) -> (e = 4 \/ e = 6) -> 1 <= ty <= 3 ->
  kind_ok k (demo_additional g v e ty).
Proof.
  intros Hg Hv He Hty. split; [destruct k; apply demo_tunnel_ok|by destruct k|].
  destruct k; cbn; [done|apply bswap16_range|lia].
Qed.

(** A packet of [repeat 7], tagged with class 5 and number 9. *)
Definition demo_inner : list Z := repeat 2 12 ++ [129; 0; 160; 9] ++ repeat 7 20.
Definition demo_mem : gmap Z Z := poke ∅ 4096 demo_inner.
Definition demo_w : sf_wdata_t := with_arg 1 (demo_record 36).

Lemma demo_window : window_holds demo_mem demo_w demo_inner.
Proof. split; [exact (holds_poke demo_inner ∅ 4096)|done]. Qed.

(** ERSPAN II over IPv6, read back by a receiver whose data start at the outer
    header. *)
Definition demo_er : gmap Z Z * sf_wdata_t * Z * Z :=
  encap Erspan demo_intf (demo_additional 4 4 6 2) 0 77 demo_mem demo_w 0.
Definition demo_sent : gmap Z Z := demo_er.1.1.1.
Definition demo_outer : packet := carried Erspan demo_intf (demo_additional 4 4 6 2) 0 77 5 9 demo_inner.

Definition receiver : sf_wdata_t := mk_wdata 0 106 1 0 0 0 4026 0 0 0 0 0 0 (mk_vlanw 0 0) 0 no_ip (mk_l4w 0 0 0 0).

Lemma tunnel_read_back_witness : window_holds demo_sent (sf_wqe_advance (- 70) demo_w) (encode demo_outer) /\ exists wr',
  decode 1 demo_sent 0 receiver = Some (wr', To_acl_entry) /\ describes demo_outer receiver wr' /\
  holds demo_sent (4026 + 70) demo_inner.
Proof.
  destruct (tunnel_read_back Erspan demo_intf (demo_additional 4 4 6 2) 0 77 demo_mem demo_w 0 demo_inner
    demo_sent (sf_wqe_advance (- 70) demo_w) 78 70 1 demo_sent 0 receiver) as (_ & Hw & _ & wr' & Hd & Hs & _ & Hh).
  - exact demo_intf_ok.
  - apply demo_kind_ok; lia.
  - exact demo_window.
  - cbn. lia.
  - vm_compute. congruence.
  - vm_compute. congruence.
  - vm_compute. reflexivity.
  - intros i Hi. f_equal.
  - split; [cbn; lia|]. vm_compute. intuition congruence.
  - reflexivity.
  - lia.
  - split; [exact Hw|]. exists wr'. split; [exact Hd|]. split; [exact Hs|exact Hh].
Defined.

(** An action with the three tunnels, and two packets at the same node. *)
Definition demo_action (g v e ty : Z) : sf_action_t :=
  mk_action 1 ACTION_TYPE_FORWARD_INTERFACE 3 0 ∅ (demo_additional g v e ty) 0 (mk_weight 0 0 0) 0 ∅.
Definition demo_conf (g v e ty : Z) : gmap Z sf_action_t := {[ 0 := demo_action g v e ty ]}.
Definition demo_intfs : gmap Z intf_addr := {[ 0 := demo_intf ]}.
Definition demo_state : encap_state := mk_en {[ 5 := demo_w; 6 := demo_w ]} ∅ demo_mem 77.

Definition demo_run := one_by_one (encap_one (packet_of (demo_conf 4 6 4 3) demo_intfs (fun _ => 0) Vxlan)) demo_state [5; 6].

Lemma encap_one_by_one_witness : exists st' out,
  NoDup [5; 6] /\ encap_node (packet_of (demo_conf 4 6 4 3) demo_intfs (fun _ => 0) Vxlan) demo_state [5; 6] st' out.
Proof.
  assert (Hnd : NoDup [5; 6]) by (apply NoDup_cons; split; [set_solver|apply NoDup_singleton]).
  destruct demo_run as [[st' out]|] eqn:E; [|discriminate E]. exists st', out. split; [exact Hnd|].
  apply (encap_one_by_one (demo_conf 4 6 4 3) demo_intfs (fun _ => 0) Vxlan demo_state [5; 6] st' out Hnd). exact E.
Defined.

(** GRE over IPv4 around VXLAN over IPv6 around ERSPAN III over IPv4. *)
Definition demo_forward : sf_wdata_t * sf_additional_list_t * Z :=
  get_action_forward_path (demo_conf 4 6 4 3) demo_w (en_list demo_state).[5].

Lemma tunnels_nest_witness : exists st',
  encap_path (demo_conf 4 6 4 3) demo_intfs (fun _ => 0) 3
    (mk_en (en_wdata demo_state).[5 <- demo_forward.1.1] (en_list demo_state).[5 <- demo_forward.1.2] demo_mem 77) 5 demo_forward.2 =
    Some (st', SF_NEXT_NODE_ACTION_FORWARD_INTERFACE) /\
  window_holds (en_mem st') (en_wdata st').[5]
    (nest [Erspan; Vxlan; Gre] demo_intf (demo_additional 4 6 4 3) 0 77 5 9 demo_inner).
Proof.
  destruct (tunnels_nest (demo_conf 4 6 4 3) demo_intfs (fun _ => 0) demo_state 5 (demo_action 4 6 4 3) demo_inner
    demo_forward.1.1 demo_forward.1.2 demo_forward.2) as (st' & Hp & Hw & _).
  - vm_compute. reflexivity.
  - cbn. unfold ACTION_TYPE_FORWARD_INTERFACE, ACTION_TYPE_DROP, ACTION_TYPE_COUNT. lia.
  - vm_compute. reflexivity.
  - exact demo_intf_ok.
  - apply Forall_forall. intros k _. apply demo_kind_ok; lia.
  - exact demo_window.
  - change (0 <= 0 < 2 ^ 15). lia.
  - vm_compute. congruence.
  - vm_compute. reflexivity.
  - exists st'. split; [exact Hp|exact Hw].
Defined.

(** Three tunnels over IPv6, ERSPAN III innermost, take 202 bytes: more than the 128
    bytes VPP keeps in front of a packet by default, and no node looks at the room. *)
Example deepest_nesting : nest_len (kinds_of (demo_additional 6 6 6 3)) (demo_additional 6 6 6 3) = 202.
Proof. reflexivity. Qed.
