(* ===== verification/IntfConfig.v ===== *)
(** * The settings of interfaces

    Models the calls of [nshell-lib/sf_plugin_api/sf_intf_api.c] that read and write
    the settings of an interface in shared memory, with the record of
    [src/sf_main/include/sf_interface.h] and the set and reset functions of
    [nshell-lib/include/sf_api_macro.h].  A text is the list of its characters
    without the final 0; a null pointer is [None].  The shared memory may not be
    mapped. *)
From S2P Require Import Prelude Wdata AclTuple.

(** ** Data *)

Definition INTERFACE_ALIAS_MAX_LEN : Z := 20.
Definition MAX_ACL_RULE_COUNT : Z := MAX_RULE_PER_GROUP * 1.
Definition MAX_ACTION_COUNT : Z := 128.

Record sf_ingress_config_t := mk_ingress_config {
  acl_rule_group : Z;
  default_action_id : Z;
  rule_to_action : gmap Z Z
}.
Record sf_inferface_t := mk_interface {
  port_id : Z;
  interface_type : Z;
  mac : list Z;
  ipaddr_mask : Z;
  ipv4_addr : list Z;
  ipv6_addr : ip_addr_t;
  ipv4_gateway : list Z;
  ipv6_gateway : ip_addr_t;
  alias_name : list Z;
  ingress_config : sf_ingress_config_t
}.
#[export] Instance zeroed_interface : Zeroed sf_inferface_t :=
  mk_interface 0 0 (repeat 0 6) 0 (repeat 0 4) (mk_addr 0 0) (repeat 0 4) (mk_addr 0 0) (repeat 0 21) (mk_ingress_config 0 0 ∅).

Record interfaces_global_config_t := mk_conf {
  admin_status : gmap Z Z;
  interfaces : gmap Z sf_inferface_t
}.
Implicit Types (i : sf_inferface_t) (cf : interfaces_global_config_t) (c : option interfaces_global_config_t) (index : Z).

Definition with_numbers (pt ty mask : Z) i : sf_inferface_t :=
  mk_interface pt ty (mac i) mask (ipv4_addr i) (ipv6_addr i) (ipv4_gateway i) (ipv6_gateway i) (alias_name i) (ingress_config i).
Definition with_mac (m : list Z) i : sf_inferface_t :=
  mk_interface (port_id i) (interface_type i) m (ipaddr_mask i) (ipv4_addr i) (ipv6_addr i) (ipv4_gateway i) (ipv6_gateway i)
    (alias_name i) (ingress_config i).
Definition with_ipv4 (a g : list Z) i : sf_inferface_t :=
  mk_interface (port_id i) (interface_type i) (mac i) (ipaddr_mask i) a (ipv6_addr i) g (ipv6_gateway i)
    (alias_name i) (ingress_config i).
Definition with_ipv6 (a g : ip_addr_t) i : sf_inferface_t :=
  mk_interface (port_id i) (interface_type i) (mac i) (ipaddr_mask i) (ipv4_addr i) a (ipv4_gateway i) g
    (alias_name i) (ingress_config i).
Definition with_alias (s : list Z) i : sf_inferface_t :=
  mk_interface (port_id i) (interface_type i) (mac i) (ipaddr_mask i) (ipv4_addr i) (ipv6_addr i) (ipv4_gateway i) (ipv6_gateway i)
    s (ingress_config i).
Definition with_ingress (g : sf_ingress_config_t) i : sf_inferface_t :=
  mk_interface (port_id i) (interface_type i) (mac i) (ipaddr_mask i) (ipv4_addr i) (ipv6_addr i) (ipv4_gateway i) (ipv6_gateway i)
    (alias_name i) g.

(** ** The checks every call starts with *)

Definition bad_index index : Prop := index <= 0 \/ index >= MAX_INTERFACE_CNT + 1.
#[export] Instance bad_index_dec index : Decision (bad_index index).
Proof. unfold bad_index. apply _. Defined.

Definition set_on index (f : sf_inferface_t -> sf_inferface_t * Z) c : option interfaces_global_config_t * Z :=
  match c with
  | None => (c, -1)
  | Some cf =>
      if decide (bad_index index) then (c, -1)
      else let '(i, ret) := f (interfaces cf).[index - 1] in
           (Some (mk_conf (admin_status cf) (interfaces cf).[index - 1 <- i]), ret)
  end.
Definition get_on {A} index (fail : A) (f : sf_inferface_t -> A) c : A :=
  match c with
  | None => fail
  | Some cf => if decide (bad_index index) then fail else f (interfaces cf).[index - 1]
  end.

(** ** Numbers *)

Definition get_interface_interface_type index := get_on index (-1) interface_type.
Definition set_interface_interface_type index (value : Z) :=
  set_on index (fun i => (with_numbers (port_id i) (u8 value) (ipaddr_mask i) i, 0)).
Definition get_interface_ipaddr_mask index := get_on index (-1) ipaddr_mask.
Definition set_interface_ipaddr_mask index (value : Z) :=
  set_on index (fun i => (with_numbers (port_id i) (interface_type i) (u8 value) i, 0)).

Definition get_interface_admin_status index c : Z :=
  match c with
  | None => -1
  | Some cf => if decide (bad_index index) then -1 else (admin_status cf).[index - 1]
  end.
Definition set_interface_admin_status index (value : Z) c : option interfaces_global_config_t * Z :=
  match c with
  | None => (c, -1)
  | Some cf =>
      if decide (bad_index index) then (c, -1)
      else (Some (mk_conf (admin_status cf).[index - 1 <- u8 value] (interfaces cf)), 0)
  end.

Definition get_ingress_acl_rule_group index := get_on index (-1) (fun i => acl_rule_group (ingress_config i)).
Definition set_ingress_acl_rule_group index (value : Z) :=
  set_on index (fun i => let g := ingress_config i in
    (with_ingress (mk_ingress_config (u8 value) (default_action_id g) (rule_to_action g)) i, 0)).
Definition get_ingress_default_action_id index := get_on index (-1) (fun i => default_action_id (ingress_config i)).
Definition set_ingress_default_action_id index (value : Z) :=
  set_on index (fun i => let g := ingress_config i in
    (with_ingress (mk_ingress_config (acl_rule_group g) (u8 value) (rule_to_action g)) i, 0)).

Definition get_ingress_rule_to_action index (rule_id : Z) :=
  get_on index (-1) (fun i => if decide (rule_id <= 0 \/ rule_id > MAX_ACL_RULE_COUNT) then -1
                              else (rule_to_action (ingress_config i)).[rule_id - 1]).
Definition set_ingress_rule_to_action index (rule_id action_id : Z) :=
  let action_id := u8 action_id in
  set_on index (fun i =>
    if decide (rule_id <= 0 \/ rule_id > MAX_ACL_RULE_COUNT) then (i, -1)
    else if decide (action_id < 0 \/ action_id > MAX_ACTION_COUNT) then (i, -1)
    else let g := ingress_config i in
         (with_ingress (mk_ingress_config (acl_rule_group g) (default_action_id g) (rule_to_action g).[rule_id - 1 <- action_id]) i, 0)).

(** ** Texts *)

(** The answer and the characters written to the caller's buffer. *)
Definition get_interface_alias_name index (buffer : bool) (max_str_len : Z) : option interfaces_global_config_t -> Z * list Z :=
  get_on index (-1, []) (fun i =>
    if decide (buffer = false \/ max_str_len < INTERFACE_ALIAS_MAX_LEN) then (-1, [])
    else (0, strncpy (Z.to_nat INTERFACE_ALIAS_MAX_LEN) (cstr (alias_name i)) [])).
Definition set_interface_alias_name index (alias : option (list Z)) :=
  set_on index (fun i =>
    match alias with
    | None => (i, -1)
    | Some s => (with_alias (strncpy (Z.to_nat INTERFACE_ALIAS_MAX_LEN) s (alias_name i)) i, 0)
    end).

Definition hex_digit (n : Z) : Z := if decide (n < 10) then 48 + n else 87 + n.
(** [%02x] of a byte, and [%d]. *)
Definition fmt_02x (n : Z) : list Z := [hex_digit (n / 16); hex_digit (n mod 16)].
Definition fmt_d (n : Z) : list Z :=
  (if decide (n < 100) then [] else [48 + n / 100]) ++ (if decide (n < 10) then [] else [48 + n / 10 mod 10]) ++ [48 + n mod 10].
Fixpoint sprintf_sep (fmt : Z -> list Z) (sep : Z) (l : list Z) : list Z :=
  match l with
  | [] => []
  | [x] => fmt x
  | x :: l => fmt x ++ sep :: sprintf_sep fmt sep l
  end.

Definition get_interface_mac_addr index (buffer : bool) (max_str_len : Z) : option interfaces_global_config_t -> Z * list Z :=
  get_on index (-1, []) (fun i =>
    if decide (buffer = false \/ max_str_len < 20) then (-1, []) else (0, sprintf_sep fmt_02x 58 (mac i))).

Definition hex_value (ch : Z) : option Z :=
  if decide (48 <= ch <= 57) then Some (ch - 48)
  else if decide (97 <= ch <= 102) then Some (ch - 87)
  else if decide (65 <= ch <= 70) then Some (ch - 55) else None.
Fixpoint skip_space (s : list Z) : list Z :=
  match s with
  | [] => []
  | ch :: s' => if decide (ch = 32 \/ 9 <= ch <= 13) then skip_space s' else s
  end.

(** [%02x] of [sscanf]: spaces, then at most two characters, of which the first may
    be a sign; [0x] alone is no number. *)
Definition scan_02x (s : list Z) : option (Z * list Z) :=
  match skip_space s with
  | [] => None
  | ch :: s =>
      if decide (ch = 43 \/ ch = 45) then
        match s with
        | d :: s => let? v := hex_value d in Some (if decide (ch = 45) then u32 (- v) else v, s)
        | [] => None
        end
      else
        let? v := hex_value ch in
        match s with
        | d :: s' =>
            if decide (v = 0 /\ (d = 120 \/ d = 88)) then None
            else match hex_value d with Some v' => Some (16 * v + v', s') | None => Some (v, s) end
        | [] => Some (v, [])
        end
  end.

(** The fields assigned, from field [k], and how many they are in all. *)
Fixpoint sscanf_mac (n : nat) (k : Z) (s : list Z) (temp : gmap Z Z) : gmap Z Z * Z :=
  match n with
  | O => (temp, k)
  | S n =>
      match scan_02x s with
      | None => (temp, k)
      | Some (v, s) =>
          let temp := temp.[k <- v] in
          match n, s with
          | S _, ch :: s' => if decide (ch = 58) then sscanf_mac n (k + 1) s' temp else (temp, k + 1)
          | _, _ => (temp, k + 1)
          end
      end
  end.

(** [temp] is not initialised. *)
Definition set_interface_mac_addr (temp : gmap Z Z) index (mac_str : list Z) :=
  set_on index (fun i =>
    let '(temp, ret) := sscanf_mac 6 0 mac_str temp in
    let i := with_mac (map (fun k => Z.land temp.[k] 0xff) (seqZ 0 6)) i in
    if decide (ret <> 6) then (i, -1) else (i, 0)).

(** ** Addresses *)

Section addresses.
Context `{Inet}.

(** The bytes of an address in a [union ip_addr]. *)
Definition le_value (l : list Z) : Z := foldr (fun b acc => b + 256 * acc) 0 l.
Definition addr_of_bytes (l : list Z) : ip_addr_t := mk_addr (le_value (take 8 l)) (le_value (drop 8 l)).
Definition be_value (l : list Z) : Z := le_value (rev l).

Definition get_text4 (field : sf_inferface_t -> list Z) index (buffer : bool) (str_max_len : Z) :
    option interfaces_global_config_t -> Z * list Z :=
  get_on index (-1, []) (fun i =>
    if decide (buffer = false \/ str_max_len < 20) then (-1, []) else (0, sprintf_sep fmt_d 46 (field i))).
Definition set_text4 (store : list Z -> sf_inferface_t -> sf_inferface_t) index (ip_str : option (list Z)) :=
  set_on index (fun i =>
    match ip_str with
    | None => (i, -1)
    | Some s => match inet_pton false s with None => (i, -1) | Some a => (store (be_bytes 4 a) i, 0) end
    end).
Definition get_text6 (field : sf_inferface_t -> ip_addr_t) index (buffer : bool) (str_max_len : Z) :
    option interfaces_global_config_t -> Z * list Z :=
  get_on index (-1, []) (fun i =>
    if decide (buffer = false \/ str_max_len < 40) then (-1, []) else (0, inet_ntop true (be_value (addr_bytes (field i))))).
Definition set_text6 (store : ip_addr_t -> sf_inferface_t -> sf_inferface_t) index (ip_str : option (list Z)) :=
  set_on index (fun i =>
    match ip_str with
    | None => (i, -1)
    | Some s => match inet_pton true s with None => (i, -1) | Some a => (store (addr_of_bytes (be_bytes 16 a)) i, 0) end
    end).

Definition get_interface_ipv4 := get_text4 ipv4_addr.
Definition set_interface_ipv4 := set_text4 (fun a i => with_ipv4 a (ipv4_gateway i) i).
Definition get_interface_ipv6 := get_text6 ipv6_addr.
Definition set_interface_ipv6 := set_text6 (fun a i => with_ipv6 a (ipv6_gateway i) i).
Definition get_interface_ipv4_gateway := get_text4 ipv4_gateway.
Definition set_interface_ipv4_gateway := set_text4 (fun g i => with_ipv4 (ipv4_addr i) g i).
Definition get_interface_ipv6_gateway := get_text6 ipv6_gateway.
Definition set_interface_ipv6_gateway := set_text6 (fun g i => with_ipv6 (ipv6_addr i) g i).
End addresses.

(** ** Initialisation and reset *)

Definition init_single_interface_config i index (is_reset : bool) : sf_inferface_t :=
  let mac_old := mac i in
  let i := zeroed in
  let i := with_numbers (u8 (index + 1)) (interface_type i) (ipaddr_mask i) i in
  let g := ingress_config i in
  let i := with_ingress (mk_ingress_config 1 (default_action_id g) (rule_to_action g)) i in
  if is_reset then with_mac mac_old i else i.

Fixpoint init_loop (n : nat) (k : Z) (is_reset : bool) cf : interfaces_global_config_t :=
  match n with
  | O => cf
  | S n =>
      init_loop n (k + 1) is_reset
        (mk_conf (admin_status cf).[k <- 1] (interfaces cf).[k <- init_single_interface_config (interfaces cf).[k] k is_reset])
  end.

Definition init_interfaces_global_config c (is_reset : bool) : option interfaces_global_config_t * Z :=
  match c with
  | None => (c, -1)
  | Some cf => (Some (init_loop (Z.to_nat MAX_INTERFACE_CNT) 0 is_reset cf), 0)
  end.
Definition reset_interfaces_global_config c := init_interfaces_global_config c true.

(** ** The state of the ports *)

Record intf_phy_status_t := mk_phy_status { link : Z; speed : Z; duplex : Z; mtu : Z }.
#[export] Instance zeroed_phy_status : Zeroed intf_phy_status_t := mk_phy_status 0 0 0 0.
Record phy_stat := mk_phy_stat { interfaces_cnt : Z; intf_phy_status : gmap Z intf_phy_status_t }.

Definition get_interfaces_real_cnt (s : option phy_stat) : Z := match s with None => -1 | Some s => interfaces_cnt s end.
Definition get_interfaces_max_cnt : Z := MAX_INTERFACE_CNT.
(** [get_interfaces_phy_info_link], [_speed], [_duplex] and [_mtu]. *)
Definition get_interfaces_phy_info (member : intf_phy_status_t -> Z) (intf_id : Z) (s : option phy_stat) : Z :=
  match s with
  | None => -1
  | Some s => if decide (bad_index intf_id) then -1 else member (intf_phy_status s).[intf_id - 1]
  end.
