(* ===== verification/Datapath.v ===== *)
(** * From the rules to the output

    The nodes after the decoders: [src/acl/nodes/acl_entry.c] classifies a frame
    and gives each packet the action of the rule it matches,
    [src/actions/nodes/action_main.c] starts the path of that action, and
    [load_balance_interface.c] picks the interface.  The nodes share the packet
    records, the lists in the buffers, the actions, the hit counters and the load
    balancer's arrays; the configuration of the interfaces is read. *)
From S2P Require Import Prelude FrameLoop Wdata AclTuple AclStore AclRte AclLookup Action Wrr LoadBalance.

Implicit Types (w : sf_wdata_t).

(** ** The state the nodes share *)

Record dp_state := mk_dp {
  dp_wdata : gmap Z sf_wdata_t;
  dp_list : gmap Z sf_additional_list_t;
  dp_actions : gmap Z sf_action_t;
  dp_statics : lb_statics;
  acl_rule_hit : gmap Z Z
}.
Implicit Types (st : dp_state).

Definition upd_wdata (b : Z) (w : sf_wdata_t) st : dp_state :=
  mk_dp (dp_wdata st).[b <- w] (dp_list st) (dp_actions st) (dp_statics st) (acl_rule_hit st).
Definition upd_list (b : Z) (al : sf_additional_list_t) st : dp_state :=
  mk_dp (dp_wdata st) (dp_list st).[b <- al] (dp_actions st) (dp_statics st) (acl_rule_hit st).
Definition upd_actions (conf : gmap Z sf_action_t) (rs : lb_statics) st : dp_state :=
  mk_dp (dp_wdata st) (dp_list st) conf rs (acl_rule_hit st).
Definition upd_hits (h : gmap Z Z) st : dp_state :=
  mk_dp (dp_wdata st) (dp_list st) (dp_actions st) (dp_statics st) h.

(** [interfaces_config->interfaces[i].ingress_config] *)
Record ingress_config := mk_ingress { default_action_id : Z; rule_to_action : gmap Z Z }.
#[export] Instance zeroed_ingress : Zeroed ingress_config := mk_ingress 0 (∅ : gmap Z Z).
Implicit Types (cfg : gmap Z ingress_config).

Definition get_interface_rule_to_action cfg (intf_id rule_id : Z) : Z :=
  (rule_to_action cfg.[intf_id - 1]).[rule_id - 1].
Definition get_interface_default_action cfg (intf_id : Z) : Z := default_action_id cfg.[intf_id - 1].

(** ** The ACL entry node *)

Definition ACL_NEXT_ACTION_MAIN : Z := 0.
Definition ACL_NEXT_IP_REASS_FORWARD : Z := 1.

(** What the classifier's fields point at in a record. *)
Definition addr_word32 (x : ip_addr_t) (i : Z) : Z :=
  let v := if decide (i < 2) then addr_v6_upper x else addr_v6_lower x in
  bswap32 (u32 (Z.shiftr v (32 * (i mod 2)))).
Definition acl_packet w : AclRte.packet := fun m =>
  match m with
  | WD_protocol => protocol (ip_wdata w)
  | WD_sip i => addr_word32 (ip_sip (ip_wdata w)) i
  | WD_dip i => addr_word32 (ip_dip (ip_wdata w)) i
  | WD_sport => bswap16 (l4_sport (l4_wdata w))
  | WD_dport => bswap16 (l4_dport (l4_wdata w))
  end.

Definition hit_index (worker_index group_index rule_id : Z) : Z :=
  worker_index * 1 * MAX_RULE_PER_GROUP + group_index * MAX_RULE_PER_GROUP + rule_id - 1.
Definition update_acl_rule_hit (worker_index group_index rule_id : Z) (h : gmap Z Z) : gmap Z Z :=
  let k := hit_index worker_index group_index rule_id in h.[k <- u32 (h.[k] + 1)].

Definition acl_next w : Z := if is_reass_pkt w then ACL_NEXT_IP_REASS_FORWARD else ACL_NEXT_ACTION_MAIN.

(** The action of the rule, then the default one. *)
Definition acl_apply_rule cfg (worker result b : Z) st : dp_state :=
  if decide (result <> 0) then
    let st := upd_hits (update_acl_rule_hit worker 0 result (acl_rule_hit st)) st in
    let w := (dp_wdata st).[b] in
    upd_wdata b (with_arg (get_interface_rule_to_action cfg (interface_id w) result) w) st
  else st.
Definition acl_apply_default cfg (b : Z) st : dp_state :=
  let w := (dp_wdata st).[b] in
  if decide (arg_to_next w = 0) then upd_wdata b (with_arg (get_interface_default_action cfg (interface_id w)) w) st
  else st.

(** [results]: the classification of the frame's packets, made before the loop. *)
Definition acl_entry_one cfg (worker : Z) (results : Z -> Z) st (b : Z) : option (dp_state * Z) :=
  let st := upd_wdata b (sf_wqe_reset (dp_wdata st).[b]) st in
  let next := acl_next (dp_wdata st).[b] in
  let st := upd_wdata b (with_arg 0 (dp_wdata st).[b]) st in
  let st := acl_apply_rule cfg worker (results b) b st in
  Some (acl_apply_default cfg b st, next).

Definition acl_entry_two cfg (worker : Z) (results : Z -> Z) st (b0 b1 : Z) : option (dp_state * Z * Z) :=
  let st := upd_wdata b0 (sf_wqe_reset (dp_wdata st).[b0]) st in
  let st := upd_wdata b1 (sf_wqe_reset (dp_wdata st).[b1]) st in
  let next0 := acl_next (dp_wdata st).[b0] in
  let next1 := acl_next (dp_wdata st).[b1] in
  let st := upd_wdata b0 (with_arg 0 (dp_wdata st).[b0]) st in
  let st := upd_wdata b1 (with_arg 0 (dp_wdata st).[b1]) st in
  let st := acl_apply_rule cfg worker (results b0) b0 st in
  let st := acl_apply_rule cfg worker (results b1) b1 st in
  let st := acl_apply_default cfg b0 st in
  Some (acl_apply_default cfg b1 st, next0, next1).

Definition sf_acl_entry_node `{RteAcl} (m : acl_main) cfg (worker : Z) st : list Z -> dp_state -> list (Z * Z) -> Prop :=
  let results := fun b => acl_classify m (acl_packet (dp_wdata st).[b]) in
  frame_run (acl_entry_one cfg worker results) (acl_entry_two cfg worker results) st.

(** ** The action node *)

Definition action_main_one st (b : Z) : option (dp_state * Z) :=
  let '(w, al, next) := get_action_forward_path (dp_actions st) (dp_wdata st).[b] (dp_list st).[b] in
  Some (upd_list b al (upd_wdata b w st), next).
Definition action_main_two st (b0 b1 : Z) : option (dp_state * Z * Z) :=
  let '(w0, al0, next0) := get_action_forward_path (dp_actions st) (dp_wdata st).[b0] (dp_list st).[b0] in
  let st := upd_list b0 al0 (upd_wdata b0 w0 st) in
  let '(w1, al1, next1) := get_action_forward_path (dp_actions st) (dp_wdata st).[b1] (dp_list st).[b1] in
  Some (upd_list b1 al1 (upd_wdata b1 w1 st), next0, next1).
Definition action_main_node : dp_state -> list Z -> dp_state -> list (Z * Z) -> Prop := frame_run action_main_one action_main_two.

(** ** The load-balancing node *)

Definition LB_NEXT_PKT_OUTPUT : Z := 0.
Definition LB_NEXT_PKT_DROP : Z := 1.

(** One packet's choice, on the shared actions and arrays. *)
Definition balance_packet (fuel : nat) (ss : intf_status) st (b : Z) : option (dp_state * Z) :=
  let w := (dp_wdata st).[b] in
  let id := arg1_to_next w in
  let? (x, a, rs) := load_balance_interfaces fuel ss w (dp_actions st).[id - 1] id (dp_statics st) in
  Some (upd_actions (dp_actions st).[id - 1 <- a] rs st, u8 x).
Definition set_tx_intf_index (b x : Z) st : dp_state := upd_wdata b (with_out x (dp_wdata st).[b]) st.
Definition balance_next (x : Z) : Z := if decide (x = INVALID_INTERFACE_ID) then LB_NEXT_PKT_DROP else LB_NEXT_PKT_OUTPUT.

Definition balance_one (fuel : nat) (ss : intf_status) st (b : Z) : option (dp_state * Z) :=
  let? (st, x) := balance_packet fuel ss st b in
  Some (set_tx_intf_index b x st, balance_next x).
Definition balance_two (fuel : nat) (ss : intf_status) st (b0 b1 : Z) : option (dp_state * Z * Z) :=
  let? (st, x0) := balance_packet fuel ss st b0 in
  let? (st, x1) := balance_packet fuel ss st b1 in
  let st := set_tx_intf_index b0 x0 st in
  Some (set_tx_intf_index b1 x1 st, balance_next x0, balance_next x1).
Definition balance_intf_node (fuel : nat) (ss : intf_status) : dp_state -> list Z -> dp_state -> list (Z * Z) -> Prop :=
  frame_run (balance_one fuel ss) (balance_two fuel ss).
