(* ===== verification/AclHit.v ===== *)
(** * How often each rule was hit

    The workers count the hits of a rule in counters of 32 bits of their own
    ([update_acl_rule_hit] of the entry node); [sf_acl_stat_sync_fn] and
    [sf_acl_stat_clear_fn] of [src/acl/cli/acl_cli.c] collect and clear them while the
    workers go on counting, and [acl_get_rule_hit] and its neighbours of
    [sf_acl_api.c] read and clear the totals in shared memory, from another process.
    What a command does is therefore the list of its accesses, in order; the accesses
    of the others fall in between. *)
From S2P Require Import Prelude Wdata AclTuple Datapath.

(** ** State and accesses *)

(** [hit_sum] is the sum a [+=] of the command has computed and not written yet. *)
Record hit_state := mk_hits {
  acl_rule_hit_stat_global : gmap Z Z;
  acl_rule_hit_stat_old : gmap Z Z;
  acl_stat : gmap Z Z;
  hit_sum : Z
}.
Implicit Types (st : hit_state).

(** The index of a rule in [acl_stat->acl_rule_hit]. *)
Definition stat_index (grp_index rule_id_index : Z) : Z := grp_index * MAX_RULE_PER_GROUP + rule_id_index.

Definition get_acl_rule_hit_minus (worker grp_index rule_id_index : Z) st : Z :=
  let k := hit_index worker grp_index (rule_id_index + 1) in
  u32 ((acl_rule_hit_stat_global st).[k] - (acl_rule_hit_stat_old st).[k]).
Definition update_acl_rule_hit_old (worker grp_index rule_id_index : Z) st : hit_state :=
  let k := hit_index worker grp_index (rule_id_index + 1) in
  mk_hits (acl_rule_hit_stat_global st) (acl_rule_hit_stat_old st).[k <- (acl_rule_hit_stat_global st).[k]] (acl_stat st) (hit_sum st).

(** A worker counts a hit; a command adds what a worker has counted to the total,
    writes the sum, and notes what it has taken, reading the worker's counter anew;
    a total, or all of them, is set to 0.  The reads of [Load] need not be told apart: a
    hit or a clearing between two of them might as well come before or after both. *)
Inductive access :=
| Hit (worker rule_id : Z)
| Load (worker grp_index rule_id_index : Z)
| Store (grp_index rule_id_index : Z)
| Forget (worker grp_index rule_id_index : Z)
| Zero (grp_index rule_id_index : Z)
| ZeroAll.

Definition with_stat (s : gmap Z Z) st : hit_state := mk_hits (acl_rule_hit_stat_global st) (acl_rule_hit_stat_old st) s (hit_sum st).
Definition run_access st (e : access) : hit_state :=
  match e with
  | Hit w rule_id =>
      mk_hits (update_acl_rule_hit w 0 rule_id (acl_rule_hit_stat_global st)) (acl_rule_hit_stat_old st) (acl_stat st) (hit_sum st)
  | Load w g r =>
      mk_hits (acl_rule_hit_stat_global st) (acl_rule_hit_stat_old st) (acl_stat st)
        (u64 ((acl_stat st).[stat_index g r] + get_acl_rule_hit_minus w g r st))
  | Store g r => with_stat (acl_stat st).[stat_index g r <- hit_sum st] st
  | Forget w g r => update_acl_rule_hit_old w g r st
  | Zero g r => with_stat (acl_stat st).[stat_index g r <- 0] st
  | ZeroAll => with_stat ∅ st
  end.
Definition run_accesses st (l : list access) : hit_state := foldl run_access st l.

(** ** The commands *)

Definition sync_cell (worker grp_index rule_id_index : Z) : list access :=
  [Load worker grp_index rule_id_index; Store grp_index rule_id_index; Forget worker grp_index rule_id_index].

(** What is done for every index from 0, in order. *)
Definition for_below {A} (n : Z) (body : Z -> list A) : list A := seqZ 0 n ≫= body.

Section commands.
Variable workers : nat.

Definition sf_acl_stat_sync_all : list access :=
  for_below (Z.of_nat workers) (fun worker_index =>
  for_below MAX_RULE_GROUP_CNT (fun grp_index =>
  for_below MAX_RULE_PER_GROUP (fun rule_id_index => sync_cell worker_index grp_index rule_id_index))).

(** The arguments of a command; -1 where one is not given. *)
Record stat_args := mk_args { arg_group : Z; arg_rule : Z; arg_all : bool }.
Definition args_missing (a : stat_args) : Prop := arg_all a = false /\ arg_rule a = -1 /\ arg_group a = -1.
Definition args_invalid (a : stat_args) : Prop :=
  (arg_group a <= 0 \/ arg_group a > MAX_RULE_GROUP_CNT) \/ (arg_rule a <= 0 \/ arg_rule a > MAX_RULE_PER_GROUP).
#[export] Instance args_missing_dec a : Decision (args_missing a).
Proof. unfold args_missing. apply _. Defined.
#[export] Instance args_invalid_dec a : Decision (args_invalid a).
Proof. unfold args_invalid. apply _. Defined.

(** The accesses, and whether the command answers without an error. *)
Definition sf_acl_stat_sync_fn (a : stat_args) : list access * bool :=
  if decide (args_missing a) then ([], false)
  else if arg_all a then (sf_acl_stat_sync_all, true)
  else if decide (args_invalid a) then ([], false)
  else (for_below (Z.of_nat workers) (fun worker_index => sync_cell worker_index (arg_group a - 1) (arg_rule a - 1)), true).

(** The [memcpy] copies counter after counter. *)
Definition sf_acl_stat_clear_fn (a : stat_args) : list access * bool :=
  if decide (args_missing a) then ([], false)
  else if arg_all a then
    (for_below (Z.of_nat workers) (fun worker_index =>
     for_below MAX_RULE_GROUP_CNT (fun grp_index =>
     for_below MAX_RULE_PER_GROUP (fun rule_id_index => [Forget worker_index grp_index rule_id_index]))) ++ [ZeroAll], true)
  else if decide (args_invalid a) then ([], false)
  else
    (Zero (arg_group a - 1) (arg_rule a - 1) ::
     for_below (Z.of_nat workers) (fun worker_index => [Forget worker_index (arg_group a - 1) (arg_rule a - 1)]), true).
End commands.

(** ** The library *)

(** Its answer for an error is -1 as a [uint64_t]. *)
Definition acl_get_rule_hit (group_id outer_rule_id : Z) (stat : option (gmap Z Z)) : Z :=
  match stat with
  | None => u64 (-1)
  | Some s =>
      if decide (group_id <= 0 \/ group_id > MAX_RULE_GROUP_CNT) then u64 (-1)
      else if decide (outer_rule_id <= 0 \/ outer_rule_id > MAX_RULE_PER_GROUP) then u64 (-1)
      else s.[stat_index (group_id - 1) (outer_rule_id - 1)]
  end.

(** [mapped] is whether [SF_STAT_PTR] points to the totals. *)
Definition acl_clear_rule_hit_single (group_id outer_rule_id : Z) (mapped : bool) : list access * Z :=
  if negb mapped then ([], -1)
  else if decide (group_id <= 0 \/ group_id > MAX_RULE_GROUP_CNT) then ([], -1)
  else if decide (outer_rule_id <= 0 \/ outer_rule_id > MAX_RULE_PER_GROUP) then ([], -1)
  else ([Zero (group_id - 1) (outer_rule_id - 1)], 0).
Definition acl_clear_rule_hit_all (mapped : bool) : list access * Z := if negb mapped then ([], -1) else ([ZeroAll], 0).

(** [sf show acl hit]: the rule's hits as the debug command adds them up. *)
Definition shown_hits (workers : nat) (grp_index rule_index : Z) st : Z :=
  foldl (fun result w => u64 (result + (acl_rule_hit_stat_global st).[hit_index w grp_index (rule_index + 1)])) 0 (seqZ 0 (Z.of_nat workers)).
