(* ===== verification/AclHitSpec.v ===== *)
(** * What the totals have to do with what was counted

    Against a ledger of unbounded numbers: however the accesses of the workers, of the
    commands and of the library follow each other, the totals are those of the ledger
    as long as no counter of it outgrows its width; and while totals are only collected,
    what is shown or still to be collected grows by the hits counted, but for those a
    worker counts between the two reads of its counter, which are lost. *)
From S2P Require Import Prelude Wdata AclTuple Datapath AclHit.

Implicit Types (st : hit_state) (l evs : list access).

(** ** The ledger *)

(** Hits of a rule (by its index) that a worker has counted but not handed over, the
    totals, and the sum that is about to be written. *)
Record hit_ledger := mk_hit_ledger { pend : Z -> Z -> Z; shown : Z -> Z; held : Z }.
Implicit Types (L : hit_ledger).

Definition set_pend (w r v : Z) L : hit_ledger :=
  mk_hit_ledger (fun w' r' => if decide (w' = w /\ r' = r) then v else pend L w' r') (shown L) (held L).
Definition set_shown (r v : Z) L : hit_ledger := mk_hit_ledger (pend L) (fun r' => if decide (r' = r) then v else shown L r') (held L).

Definition ledger_step L (e : access) : hit_ledger :=
  match e with
  | Hit w rule_id => set_pend w (rule_id - 1) (pend L w (rule_id - 1) + 1) L
  | Load w _ r => mk_hit_ledger (pend L) (shown L) (shown L r + pend L w r)
  | Store _ r => set_shown r (held L) L
  | Forget w _ r => set_pend w r 0 L
  | Zero _ r => set_shown r 0 L
  | ZeroAll => mk_hit_ledger (pend L) (fun _ => 0) (held L)
  end.
Definition ledger_run L evs : hit_ledger := foldl ledger_step L evs.

(** No counter has outgrown its width. *)
Definition fits L : Prop := (forall w r, 0 <= pend L w r < 2 ^ 32) /\ (forall r, 0 <= shown L r < 2 ^ 64) /\ 0 <= held L < 2 ^ 64.
Fixpoint all_fit L evs : Prop := fits L /\ match evs with [] => True | e :: evs => all_fit (ledger_step L e) evs end.

Definition is_rule (r : Z) : Prop := 0 <= r < MAX_RULE_PER_GROUP.
#[export] Instance is_rule_dec r : Decision (is_rule r).
Proof. unfold is_rule. apply _. Defined.

Section runs.
Variable workers : nat.

Definition is_worker (w : Z) : Prop := 0 <= w < Z.of_nat workers.
(** The accesses to counters there are. *)
Definition access_ok (e : access) : Prop :=
  match e with
  | Hit w rule_id => is_worker w /\ is_rule (rule_id - 1)
  | Load w g r | Forget w g r => is_worker w /\ g = 0 /\ is_rule r
  | Store g r | Zero g r => g = 0 /\ is_rule r
  | ZeroAll => True
  end.

(** What the hits of a rule have come to: shown, or still to be collected. *)
Definition outstanding L (r : Z) : Z := shown L r + sum_from workers 0 (fun w => pend L w r).
End runs.

(** The hits of a rule. *)
Fixpoint hits_of (r : Z) evs : Z :=
  match evs with
  | [] => 0
  | Hit _ rule_id :: evs => (if decide (rule_id - 1 = r) then 1 else 0) + hits_of r evs
  | _ :: evs => hits_of r evs
  end.

(** Those a worker counts after the command has read its counter for the sum and before
    it reads it again; [win] is the worker whose counter of the rule is between the two. *)
Fixpoint lost_hits (win : option Z) (r : Z) evs : Z :=
  match evs with
  | [] => 0
  | Hit w rule_id :: evs => (if decide (rule_id - 1 = r /\ win = Some w) then 1 else 0) + lost_hits win r evs
  | Load w _ r' :: evs => lost_hits (if decide (r' = r) then Some w else win) r evs
  | Forget _ _ r' :: evs => lost_hits (if decide (r' = r) then None else win) r evs
  | _ :: evs => lost_hits win r evs
  end.

(** ** The counters and the ledger *)

Definition minus w r st : Z := get_acl_rule_hit_minus w 0 r st.

Lemma hit_index_inj w r w' r' : is_rule r -> is_rule r' -> hit_index w 0 (r + 1) = hit_index w' 0 (r' + 1) -> w = w' /\ r = r'.
Proof. unfold hit_index, is_rule, MAX_RULE_PER_GROUP. lia. Qed.

Lemma minus_forget w r w' r' st : is_rule r -> is_rule r' ->
  minus w' r' (update_acl_rule_hit_old w 0 r st) = if decide (w' = w /\ r' = r) then 0 else minus w' r' st.
Proof.
  intros Hr Hr'. unfold minus, get_acl_rule_hit_minus, update_acl_rule_hit_old. cbn [acl_rule_hit_stat_global acl_rule_hit_stat_old].
  rewrite aget_aset. case_decide as E.
  - apply hit_index_inj in E as [-> ->]; [|done|done]. rewrite decide_True by done. rewrite Z.sub_diag. done.
  - rewrite decide_False; [done|]. by intros [-> ->].
Qed.

Lemma minus_hit w rule_id w' r st : is_rule (rule_id - 1) -> is_rule r ->
  minus w' r (run_access st (Hit w rule_id)) = if decide (w' = w /\ r = rule_id - 1) then u32 (minus w' r st + 1) else minus w' r st.
Proof.
  intros Hr Hr'. unfold minus, get_acl_rule_hit_minus, run_access, update_acl_rule_hit. cbn [acl_rule_hit_stat_global acl_rule_hit_stat_old].
  rewrite aget_aset. replace (hit_index w 0 rule_id) with (hit_index w 0 (rule_id - 1 + 1)) by (f_equal; lia). case_decide as E.
  - apply hit_index_inj in E as [-> <-]; [|done|done]. rewrite decide_True by done.
    rewrite wrap_sub_l, wrap_add_l. f_equal. lia.
  - rewrite decide_False; [done|]. intros [-> ->]. by apply E.
Qed.

(** The program is where the ledger is. *)
Definition shows st L : Prop := hit_sum st = held L /\ forall r, is_rule r ->
  (acl_stat st).[r] = shown L r /\ forall w, minus w r st = pend L w r.

Lemma shows_store v r st L : shows st L -> shows (with_stat (acl_stat st).[stat_index 0 r <- v] st) (set_shown r v L).
Proof.
  intros [Hh H]. split; [done|]. intros r' Hr'. destruct (H r' Hr') as [H1 H2]. split; [|exact H2]. cbn [acl_stat with_stat set_shown shown].
  unfold stat_index. rewrite Z.mul_0_l, Z.add_0_l, aget_aset, H1. by repeat case_decide; subst.
Qed.

Lemma access_shows workers st L e : access_ok workers e -> shows st L -> fits L -> fits (ledger_step L e) -> shows (run_access st e) (ledger_step L e).
Proof.
  intros Hok Hs _ Hf. destruct e as [w rule_id|w g r|g r|w g r|g r|]; cbn [access_ok] in Hok.
  - destruct Hok as [_ Hr], Hs as [Hh H]. split; [done|]. intros r' Hr'. destruct (H r' Hr') as [H1 H2]. split; [done|]. intros w'.
    rewrite minus_hit by done. cbn [ledger_step set_pend pend]. rewrite !H2. case_decide as E; [|done]. destruct E as [-> ->].
    destruct Hf as [Hf _]. specialize (Hf w (rule_id - 1)). cbn [ledger_step set_pend pend] in Hf. rewrite decide_True in Hf by done. by apply wrap_small.
  - destruct Hok as (_ & -> & Hr). split; [|apply Hs]. destruct Hs as [_ H]. destruct (H r Hr) as [H1 H2]. destruct Hf as (_ & _ & Hf).
    cbn [run_access hit_sum ledger_step held] in *. fold (minus w r st). unfold stat_index. rewrite Z.mul_0_l, Z.add_0_l, H1, H2. by apply wrap_small.
  - destruct Hok as [-> Hr]. cbn [run_access ledger_step]. rewrite (proj1 Hs). by apply shows_store.
  - destruct Hok as (_ & -> & Hr), Hs as [Hh H]. split; [done|]. intros r' Hr'. destruct (H r' Hr') as [H1 H2]. split; [done|]. intros w'.
    cbn [run_access]. rewrite minus_forget by done. cbn [ledger_step set_pend pend]. by rewrite H2.
  - destruct Hok as [-> Hr]. by apply shows_store.
  - destruct Hs as [Hh H]. split; [done|]. intros r Hr. by destruct (H r Hr).
Qed.

Lemma run_shows workers evs : forall st L, Forall (access_ok workers) evs -> shows st L -> all_fit L evs -> shows (run_accesses st evs) (ledger_run L evs).
Proof.
  induction evs as [|e evs IH]; intros st L Hok Hs Hf; [done|]. apply Forall_cons in Hok as [He Hok]. destruct Hf as [H0 Hf].
  apply (IH _ (ledger_step L e)); [done| |done]. eapply access_shows; [done..|]. by destruct evs, Hf.
Qed.

(** ** Collecting *)

(** Where the main thread is: between two counters, about to write the sum, or about to
    note what it took. *)
Inductive phase := Idle | Loaded (w r : Z) | Stored (w r : Z).

(** Whole collections of counters, and in between hits, and clearings of other rules. *)
Fixpoint collecting workers (rule : Z) (ph : phase) evs : Prop :=
  match evs with
  | [] => ph = Idle
  | Hit w rule_id :: evs => is_worker workers w /\ collecting workers rule ph evs
  | Load w g r :: evs => ph = Idle /\ is_worker workers w /\ collecting workers rule (Loaded w r) evs
  | Store g r :: evs => exists w, ph = Loaded w r /\ collecting workers rule (Stored w r) evs
  | Forget w g r :: evs => ph = Stored w r /\ is_worker workers w /\ collecting workers rule Idle evs
  | Zero g r :: evs => r <> rule /\ collecting workers rule ph evs
  | ZeroAll :: _ => False
  end.

(** What [outstanding] will be when the collection of the counter is over, if it is not hit
    again. *)
Definition settled workers (rule : Z) (ph : phase) L : Z :=
  match ph with
  | Idle => outstanding workers L rule
  | Loaded w r => if decide (r = rule) then held L + sum_from workers 0 (fun w => pend L w rule) - pend L w rule else outstanding workers L rule
  | Stored w r => if decide (r = rule) then outstanding workers L rule - pend L w rule else outstanding workers L rule
  end.
Definition window (rule : Z) (ph : phase) : option Z :=
  match ph with Idle => None | Loaded w r | Stored w r => if decide (r = rule) then Some w else None end.

Lemma sum_from_set (n : nat) : forall j k f v, j <= k < j + Z.of_nat n ->
  sum_from n j (fun x => if decide (x = k) then v else f x) = sum_from n j f - f k + v.
Proof.
  induction n as [|n IH]; intros j k f v Hk; cbn [sum_from]; [lia|]. case_decide as E.
  - subst k. rewrite (sum_from_ext n (j + 1) _ f); [lia|]. intros x Hx. by rewrite decide_False by lia.
  - rewrite IH by lia. lia.
Qed.

Lemma sum_pend workers w r v rule L : is_worker workers w ->
  sum_from workers 0 (fun x => pend (set_pend w r v L) x rule) =
    sum_from workers 0 (fun x => pend L x rule) + if decide (r = rule) then v - pend L w rule else 0.
Proof.
  intros Hw. cbn [set_pend pend]. case_decide as E.
  - subst r. rewrite (sum_from_ext _ _ _ (fun x => if decide (x = w) then v else pend L x rule)).
    + rewrite sum_from_set by (unfold is_worker in Hw; lia). lia.
    + intros x _. repeat case_decide; try done; tauto.
  - rewrite Z.add_0_r. apply sum_from_ext. intros x _. by rewrite decide_False by (intros [_ ?]; congruence).
Qed.

Lemma settled_hit workers rule ph w rule_id L : is_worker workers w ->
  settled workers rule ph (ledger_step L (Hit w rule_id)) + (if decide (rule_id - 1 = rule /\ window rule ph = Some w) then 1 else 0) =
    settled workers rule ph L + if decide (rule_id - 1 = rule) then 1 else 0.
Proof.
  intros Hw. cbn [ledger_step]. unfold settled, window, outstanding. set (v := pend L w (rule_id - 1) + 1).
  pose proof (sum_pend workers w (rule_id - 1) v rule L Hw) as Hs.
  destruct ph as [|w' r|w' r].
  - cbn [shown set_pend] in *. rewrite Hs. rewrite (decide_False (P := _ /\ _)) by (by intros []). case_decide; subst; lia.
  - destruct (decide (r = rule)) as [->|]; cbn [held shown set_pend pend] in *; rewrite Hs.
    + repeat case_decide; destruct_and?; simplify_eq; try lia; tauto.
    + rewrite (decide_False (P := _ /\ _)) by (by intros []). case_decide; subst; lia.
  - destruct (decide (r = rule)) as [->|]; cbn [held shown set_pend pend] in *; rewrite Hs.
    + repeat case_decide; destruct_and?; simplify_eq; try lia; tauto.
    + rewrite (decide_False (P := _ /\ _)) by (by intros []). case_decide; subst; lia.
Qed.

Lemma collecting_settled workers rule evs : forall ph L, collecting workers rule ph evs ->
  outstanding workers (ledger_run L evs) rule + lost_hits (window rule ph) rule evs = settled workers rule ph L + hits_of rule evs.
Proof.
  induction evs as [|e evs IH]; intros ph L Hc.
  { cbn [collecting] in Hc. subst ph. cbn. lia. }
  cbn [ledger_run foldl]. fold (ledger_run (ledger_step L e) evs).
  destruct e as [w rule_id|w g r|g r|w g r|g r|]; cbn [collecting lost_hits hits_of] in *; [| | | | |done].
  - destruct Hc as [Hw Hc]. pose proof (IH _ (ledger_step L (Hit w rule_id)) Hc). pose proof (settled_hit workers rule ph w rule_id L Hw). lia.
  - destruct Hc as (-> & Hw & Hc). specialize (IH _ (ledger_step L (Load w g r)) Hc). cbn [window settled ledger_step] in *. rewrite IH.
    unfold outstanding. cbn [pend shown held]. case_decide; subst; lia.
  - destruct Hc as (w & -> & Hc). specialize (IH _ (ledger_step L (Store g r)) Hc). cbn [window settled ledger_step] in *. rewrite IH.
    unfold outstanding. cbn [set_shown pend shown held]. destruct (decide (r = rule)) as [->|]; [by rewrite decide_True by done; lia|].
    by rewrite decide_False by congruence.
  - destruct Hc as (-> & Hw & Hc). specialize (IH _ (ledger_step L (Forget w g r)) Hc). cbn [window settled ledger_step] in *.
    destruct (decide (r = rule)) as [->|]; rewrite IH; unfold outstanding; rewrite sum_pend by done; cbn [set_pend shown]; case_decide; lia.
  - destruct Hc as [Hr Hc]. specialize (IH _ (ledger_step L (Zero g r)) Hc). rewrite IH.
    destruct ph; cbn [settled]; unfold outstanding; cbn [ledger_step set_shown pend shown held]; repeat case_decide; congruence.
Qed.

(** ** Several threads *)

(** The third list has the elements of the first two, each in its order. *)
Inductive interleave {A} : list A -> list A -> list A -> Prop :=
| interleave_nil : interleave [] [] []
| interleave_left x xs ys zs : interleave xs ys zs -> interleave (x :: xs) ys (x :: zs)
| interleave_right y xs ys zs : interleave xs ys zs -> interleave xs (y :: ys) (y :: zs).

Lemma interleave_Forall {A} (P : A -> Prop) xs ys zs : interleave xs ys zs -> Forall P xs -> Forall P ys -> Forall P zs.
Proof. induction 1; rewrite ?Forall_cons; naive_solver. Qed.

(** What the workers and the library may do while totals are collected: count, and clear
    other rules. *)
Definition spares (rule : Z) (e : access) : Prop := match e with Hit _ _ => True | Zero _ r => r <> rule | _ => False end.

Lemma interleave_collecting workers rule l1 l2 l3 : interleave l1 l2 l3 -> Forall (access_ok workers) l2 -> Forall (spares rule) l2 ->
  forall ph, collecting workers rule ph l1 -> collecting workers rule ph l3.
Proof.
  induction 1 as [|x l1 l2 l3 _ IH|x l1 l2 l3 _ IH]; intros Hok Hs ph Hc; [done| |].
  - destruct x; cbn [collecting] in *; naive_solver.
  - apply Forall_cons in Hok as [Hx Hok], Hs as [Hsx Hs]. destruct x; cbn [collecting access_ok spares] in *; naive_solver.
Qed.

Lemma collecting_app workers rule l1 l2 : forall ph, collecting workers rule ph l1 -> collecting workers rule Idle l2 -> collecting workers rule ph (l1 ++ l2).
Proof.
  induction l1 as [|e l1 IH]; intros ph H1 H2; [by cbn in H1; subst|]. destruct e; cbn [app collecting] in *; naive_solver.
Qed.

Lemma for_below_ind {A} (P : list A -> Prop) n (body : Z -> list A) : P [] -> (forall xs ys, P xs -> P ys -> P (xs ++ ys)) ->
  (forall i, 0 <= i < n -> P (body i)) -> P (for_below n body).
Proof.
  intros H0 Happ Hb. unfold for_below. assert (Hin : forall i, i ∈ seqZ 0 n -> P (body i)) by (intros i [? ?]%elem_of_seqZ; apply Hb; lia). clear Hb.
  induction (seqZ 0 n) as [|i js IH]; [done|]. apply Happ; [apply Hin; left|]. apply IH. intros j Hj. apply Hin. by right.
Qed.

(** The accesses of a command are whole collections of counters there are. *)
Definition collects workers rule l : Prop := collecting workers rule Idle l /\ Forall (access_ok workers) l.

Lemma collects_nil workers rule : collects workers rule [].
Proof. done. Qed.
Lemma collects_app workers rule l1 l2 : collects workers rule l1 -> collects workers rule l2 -> collects workers rule (l1 ++ l2).
Proof. intros [? ?] [? ?]. split; [by apply collecting_app|by apply Forall_app]. Qed.

Lemma sync_cell_collects workers rule w g r : is_worker workers w -> 0 <= g < MAX_RULE_GROUP_CNT -> is_rule r -> collects workers rule (sync_cell w g r).
Proof.
  intros Hw Hg Hr. assert (g = 0) as -> by (unfold MAX_RULE_GROUP_CNT in *; lia).
  split; [cbn; eauto 10|]. unfold sync_cell. by rewrite !Forall_cons.
Qed.

Lemma sync_collects workers rule a : collects workers rule (fst (sf_acl_stat_sync_fn workers a)).
Proof.
  unfold sf_acl_stat_sync_fn. case_decide; [apply collects_nil|]. destruct (arg_all a); [|case_decide as Hi; [apply collects_nil|]]; cbn [fst].
  - unfold sf_acl_stat_sync_all. repeat (apply for_below_ind; [apply collects_nil|apply collects_app|intros ? ?]). by apply sync_cell_collects.
  - apply for_below_ind; [apply collects_nil|apply collects_app|]. intros w Hw. apply sync_cell_collects; [done|..]; unfold args_invalid, is_rule in *; lia.
Qed.

Lemma syncs_collect workers rule cmds : collects workers rule (cmds ≫= fun a => fst (sf_acl_stat_sync_fn workers a)).
Proof. induction cmds as [|a cmds IH]; [apply collects_nil|]. apply collects_app; [apply sync_collects|exact IH]. Qed.

(** ** Clearing *)

(** The rules a command is about. *)
Definition args_on (a : stat_args) (rule : Z) : Prop :=
  ~ args_missing a /\ (arg_all a = true \/ (~ args_invalid a /\ arg_rule a - 1 = rule)).

Definition is_forget (e : access) : Prop := match e with Forget _ _ _ => True | _ => False end.

Lemma run_forgets l : forall L, Forall is_forget l ->
  shown (ledger_run L l) = shown L /\ forall w r, pend L w r = 0 \/ (exists g, Forget w g r ∈ l) -> pend (ledger_run L l) w r = 0.
Proof.
  induction l as [|e l IH]; intros L Hl.
  { split; [done|]. intros w r [H|[g []%not_elem_of_nil]]; done. }
  apply Forall_cons in Hl as [He Hl]. destruct e as [| | |w0 g0 r0| |]; try done. destruct (IH (set_pend w0 r0 0 L) Hl) as [I1 I2]. split; [exact I1|].
  intros w r H. apply I2. cbn [set_pend pend]. case_decide as E; [by left|]. destruct H as [H|[g [[= -> -> ->]|H]%elem_of_cons]]; [by left|tauto|]. right. by exists g.
Qed.

Lemma for_below_elem {A} n (body : Z -> list A) x i : 0 <= i < n -> x ∈ body i -> x ∈ for_below n body.
Proof. intros Hi Hx. apply list_elem_of_bind. exists i. split; [done|]. apply elem_of_seqZ. lia. Qed.

Lemma clear_leaves_none workers a rule L : is_rule rule -> args_on a rule -> outstanding workers (ledger_run L (fst (sf_acl_stat_clear_fn workers a))) rule = 0.
Proof.
  intros Hr [Hm Ha]. unfold sf_acl_stat_clear_fn. rewrite decide_False by done. unfold outstanding.
  assert (Hsum : forall L', (forall w, is_worker workers w -> pend L' w rule = 0) -> sum_from workers 0 (fun w => pend L' w rule) = 0).
  { intros L' H. rewrite (sum_from_ext _ _ _ (fun _ => 0)); [by apply sum_from_zero|]. intros w Hw. apply H. unfold is_worker. lia. }
  destruct (arg_all a); [|destruct Ha as [Ha|[Hi <-]]; [done|rewrite decide_False by done]]; cbn [fst].
  - unfold ledger_run. rewrite foldl_app. set (l := for_below _ _). fold (ledger_run L l). cbn [foldl ledger_step shown pend]. rewrite Z.add_0_l.
    assert (Hl : Forall is_forget l) by (repeat (apply for_below_ind; [done|by intros; apply Forall_app|intros ? ?]); by rewrite Forall_singleton).
    apply Hsum. intros w Hw. apply (run_forgets l L Hl). right. exists 0. apply (for_below_elem _ _ _ w); [done|].
    apply (for_below_elem _ _ _ 0); [done|]. apply (for_below_elem _ _ _ rule); [done|left].
  - cbn [ledger_run foldl ledger_step]. set (l := for_below _ _). fold (ledger_run (set_shown (arg_rule a - 1) 0 L) l).
    assert (Hl : Forall is_forget l) by (apply for_below_ind; [done|by intros; apply Forall_app|intros ? ?; by rewrite Forall_singleton]).
    destruct (run_forgets l (set_shown (arg_rule a - 1) 0 L) Hl) as [-> H]. cbn [set_shown shown]. rewrite decide_True, Z.add_0_l by done.
    apply Hsum. intros w Hw. apply H. right. exists (arg_group a - 1). apply (for_below_elem _ _ _ w); [done|left].
Qed.

(** ** What is shown and what is to be collected *)

Definition hits_init : hit_state := mk_hits ∅ ∅ ∅ 0.
Definition ledger_init : hit_ledger := mk_hit_ledger (fun _ _ => 0) (fun _ => 0) 0.

(** The total the library reads, and what the workers have counted on top of it. *)
Definition known_hits (workers : nat) (rule_id : Z) st : Z :=
  acl_get_rule_hit 1 rule_id (Some (acl_stat st)) + sum_from workers 0 (fun w => get_acl_rule_hit_minus w 0 (rule_id - 1) st).

Lemma shows_known workers rule_id st L : is_rule (rule_id - 1) -> shows st L -> known_hits workers rule_id st = outstanding workers L (rule_id - 1).
Proof.
  intros Hr [_ H]. destruct (H _ Hr) as [H1 H2]. unfold known_hits, acl_get_rule_hit, outstanding, is_rule in *.
  rewrite !decide_False by (unfold MAX_RULE_GROUP_CNT; lia). unfold stat_index. change (1 - 1) with 0. rewrite Z.mul_0_l, Z.add_0_l, H1.
  f_equal. apply sum_from_ext. intros w _. apply H2.
Qed.

Lemma all_fit_app L l1 l2 : all_fit L (l1 ++ l2) -> all_fit L l1 /\ all_fit (ledger_run L l1) l2.
Proof.
  revert L. induction l1 as [|e l1 IH]; intros L H; cbn [app] in H.
  - split; [|done]. by destruct l2, H.
  - destruct H as [H0 H]. destruct (IH _ H). by split.
Qed.

(** C27: Collecting loses no hit but those between its two reads.  After anything, and
    after a clearing with nothing left, let commands collect while the workers count and
    other rules are cleared, in any interleaving of their accesses: what a rule shows
    and what its workers have on top of it has grown by the hits counted, less those a
    worker counted while the command was between the two reads of that worker's counter.
    No counter may outgrow its width. *)
Theorem hits_accounted workers before cmds others stretch rule_id :
  is_rule (rule_id - 1) -> Forall (access_ok workers) before -> Forall (access_ok workers) others -> Forall (spares (rule_id - 1)) others ->
  interleave (cmds ≫= fun a => fst (sf_acl_stat_sync_fn workers a)) others stretch -> all_fit ledger_init (before ++ stretch) ->
  let st0 := run_accesses hits_init before in
  known_hits workers rule_id (run_accesses st0 stretch) + lost_hits None (rule_id - 1) stretch =
    known_hits workers rule_id st0 + hits_of (rule_id - 1) stretch /\
  (forall a pre, before = pre ++ fst (sf_acl_stat_clear_fn workers a) -> args_on a (rule_id - 1) -> known_hits workers rule_id st0 = 0).
Proof.
  intros Hr Hb Ho Hsp Hi [Hf0 Hf]%all_fit_app st0. destruct (syncs_collect workers (rule_id - 1) cmds) as [Hc Hok].
  assert (Hs0 : shows st0 (ledger_run ledger_init before)) by (apply (run_shows workers); done).
  split.
  - assert (Hs : shows (run_accesses st0 stretch) (ledger_run (ledger_run ledger_init before) stretch)).
    { apply (run_shows workers); [|done..]. by eapply interleave_Forall. }
    rewrite !(shows_known _ _ _ _ Hr Hs), !(shows_known _ _ _ _ Hr Hs0).
    exact (collecting_settled workers _ stretch Idle _ (interleave_collecting _ _ _ _ _ Hi Ho Hsp Idle Hc)).
  - intros a pre E Ha. rewrite (shows_known _ _ _ _ Hr Hs0), E. unfold ledger_run. rewrite foldl_app. by apply clear_leaves_none.
Qed.

(** ** Runs that fit *)

Definition at_most (k : Z) L : Prop := (forall w r, 0 <= pend L w r <= k) /\ (forall r, 0 <= shown L r <= k) /\ 0 <= held L <= k.

Lemma at_most_step k L e : at_most k L -> at_most (2 * k + 1) (ledger_step L e).
Proof.
  intros (H1 & H2 & H3). assert (Hp : forall w r, 0 <= pend L w r <= 2 * k + 1) by (intros w r; specialize (H1 w r); lia).
  assert (Hs : forall r, 0 <= shown L r <= 2 * k + 1) by (intros r; specialize (H2 r); lia).
  destruct e as [w rule_id|w g r|g r|w g r|g r|]; (split_and!; [intros w' r'|intros r'|..]); cbn [ledger_step set_pend set_shown pend shown held];
    try case_decide; try apply Hp; try apply Hs; try lia; try specialize (H1 w r); try specialize (H2 r); try specialize (H1 w (rule_id - 1)); lia.
Qed.

(** A short run fits in any case. *)
Lemma short_run_fits evs : forall k L, at_most k L -> (k + 1) * 2 ^ Z.of_nat (length evs) <= 2 ^ 32 -> all_fit L evs.
Proof.
  induction evs as [|e evs IH]; intros k L H Hk; assert (H0 : 0 <= k) by (destruct H as (_ & _ & ?); lia).
  - cbn [length Z.of_nat] in Hk. destruct H as (H1 & H2 & H3). split; [|done]. split_and!; intros;
      [pose proof (H1 w r)|pose proof (H2 r)|..]; lia.
  - cbn [length] in Hk. rewrite Nat2Z.inj_succ, Z.pow_succ_r in Hk by lia. split.
    + assert (Hpow : 1 <= 2 ^ Z.of_nat (length evs)) by (apply (Z.pow_le_mono_r 2 0); lia). destruct H as (H1 & H2 & H3).
      split_and!; intros; [pose proof (H1 w r)|pose proof (H2 r)|..]; nia.
    + apply (IH (2 * k + 1)); [by apply at_most_step|nia].
Qed.

Lemma init_at_most : at_most 0 ledger_init.
Proof. by split_and!; cbn. Qed.

(** Two workers; rule 7 is hit three times and cleared.  While it is collected, worker 0
    counts a hit between the two reads of its counter and worker 1 one before it is read. *)
Definition demo_before : list access := [Hit 0 7; Hit 1 7; Hit 0 7] ++ fst (sf_acl_stat_clear_fn 2 (mk_args 1 7 false)).
Definition demo_others : list access := [Hit 0 7; Hit 0 7; Hit 1 7; Zero 0 3; Hit 1 7].
Definition demo_stretch : list access :=
  [Hit 0 7; Load 0 0 6; Hit 0 7; Store 0 6; Hit 1 7; Forget 0 0 6; Load 1 0 6; Zero 0 3; Store 0 6; Forget 1 0 6; Hit 1 7].

Lemma demo_interleave : interleave ([mk_args 1 7 false] ≫= fun a => fst (sf_acl_stat_sync_fn 2 a)) demo_others demo_stretch.
Proof.
  change (interleave (sync_cell 0 0 6 ++ sync_cell 1 0 6) demo_others demo_stretch).
  apply interleave_right, interleave_left, interleave_right, interleave_left, interleave_right, interleave_left, interleave_left, interleave_right,
    interleave_left, interleave_left, interleave_right, interleave_nil.
Qed.

Lemma hits_accounted_witness : let st := run_accesses hits_init (demo_before ++ demo_stretch) in
  known_hits 2 7 st + 1 = 4 /\ acl_get_rule_hit 1 7 (Some (acl_stat st)) = 2.
Proof.
  assert (Hr : is_rule (7 - 1)) by (unfold is_rule, MAX_RULE_PER_GROUP; lia).
  assert (Hb : Forall (access_ok 2) demo_before).
  { vm_compute. repeat constructor; done. }
  assert (Ho : Forall (access_ok 2) demo_others).
  { vm_compute. repeat constructor; done. }
  assert (Hs : Forall (spares (7 - 1)) demo_others) by (repeat constructor; done).
  assert (Ha : args_on (mk_args 1 7 false) (7 - 1)).
  { split; [by intros (? & ? & ?)|]. right. unfold args_invalid, MAX_RULE_GROUP_CNT, MAX_RULE_PER_GROUP. cbn. lia. }
  assert (Hf : all_fit ledger_init (demo_before ++ demo_stretch)).
  { apply (short_run_fits _ 0); [exact init_at_most|]. vm_compute. discriminate. }
  destruct (hits_accounted 2 demo_before [mk_args 1 7 false] demo_others demo_stretch 7 Hr Hb Ho Hs demo_interleave Hf) as [H H0].
  rewrite (H0 (mk_args 1 7 false) [Hit 0 7; Hit 1 7; Hit 0 7] eq_refl Ha) in H. split; [|vm_compute; reflexivity].
  unfold run_accesses in *. rewrite foldl_app. exact H.
Defined.
