(* ===== verification/DatapathSpec.v ===== *)
(** * What the nodes after the decoders do to a frame

    The two-packet bodies equal two runs of the one-packet bodies; the ACL node
    gives every packet the action its configured rules say; the action node sends
    it through the encapsulations and to the output the action names. *)
From S2P Require Import Prelude FrameLoop Wdata AclTuple AclStore AclRte AclLookup Action Wrr LoadBalance Datapath.

Implicit Types (w : sf_wdata_t) (st : dp_state) (cfg : gmap Z ingress_config).

(** ** The ACL node *)

Definition acl_record cfg (result : Z) w : sf_wdata_t :=
  let w := with_arg 0 (sf_wqe_reset w) in
  let w := if decide (result <> 0) then with_arg (get_interface_rule_to_action cfg (interface_id w) result) w else w in
  if decide (arg_to_next w = 0) then with_arg (get_interface_default_action cfg (interface_id w)) w else w.

Definition hit_once (worker result : Z) (h : gmap Z Z) : gmap Z Z :=
  if decide (result <> 0) then update_acl_rule_hit worker 0 result h else h.

Definition acl_done cfg (worker result b : Z) st : dp_state :=
  upd_hits (hit_once worker result (acl_rule_hit st)) (upd_wdata b (acl_record cfg result (dp_wdata st).[b]) st).

Lemma upd_upd b w1 w2 st : upd_wdata b w2 (upd_wdata b w1 st) = upd_wdata b w2 st.
Proof. unfold upd_wdata. cbn. by rewrite aset_aset. Qed.

Lemma upd_get b w st : (dp_wdata (upd_wdata b w st)).[b] = w.
Proof. apply aget_aset_eq. Qed.

Lemma upd_get_ne b b' w st : b' <> b -> (dp_wdata (upd_wdata b w st)).[b'] = (dp_wdata st).[b'].
Proof. intros Hne. by apply aget_aset_ne. Qed.

Lemma upd_comm b0 b1 w0 w1 st : b0 <> b1 -> upd_wdata b0 w0 (upd_wdata b1 w1 st) = upd_wdata b1 w1 (upd_wdata b0 w0 st).
Proof. intros Hne. unfold upd_wdata, aset. cbn. by rewrite insert_insert_ne. Qed.

(** The two last steps work on the packet's own record. *)
Lemma apply_rule_eq cfg worker r b w st :
  acl_apply_rule cfg worker r b (upd_wdata b w st) =
  upd_hits (hit_once worker r (acl_rule_hit st))
    (upd_wdata b (if decide (r <> 0) then with_arg (get_interface_rule_to_action cfg (interface_id w) r) w else w) st).
Proof.
  unfold acl_apply_rule, hit_once. destruct (decide (r <> 0)); [|by destruct st].
  cbn [dp_wdata upd_hits upd_wdata acl_rule_hit]. rewrite aget_aset_eq. unfold upd_wdata, upd_hits. cbn. by rewrite aset_aset.
Qed.

Lemma apply_default_eq cfg b w st :
  acl_apply_default cfg b (upd_wdata b w st) =
  upd_wdata b (if decide (arg_to_next w = 0) then with_arg (get_interface_default_action cfg (interface_id w)) w else w) st.
Proof.
  unfold acl_apply_default. rewrite upd_get. destruct (decide (arg_to_next w = 0)); [|done]. by rewrite upd_upd.
Qed.

Lemma upd_hits_wdata h b w st : upd_hits h (upd_wdata b w st) = upd_wdata b w (upd_hits h st).
Proof. done. Qed.

Lemma acl_entry_one_eq cfg worker results st b :
  acl_entry_one cfg worker results st b =
  Some (acl_done cfg worker (results b) b st, acl_next (dp_wdata st).[b]).
Proof.
  unfold acl_entry_one, acl_done. rewrite !upd_get, upd_upd, apply_rule_eq.
  rewrite !upd_hits_wdata, apply_default_eq. done.
Qed.

Lemma acl_done_keeps cfg worker r b b' st : b' <> b -> (dp_wdata (acl_done cfg worker r b st)).[b'] = (dp_wdata st).[b'].
Proof. intros Hne. unfold acl_done. cbn. by rewrite aget_aset_ne. Qed.

Lemma acl_two_ok cfg worker results st b0 b1 : b0 <> b1 ->
  acl_entry_two cfg worker results st b0 b1 = two_steps (acl_entry_one cfg worker results) st b0 b1.
Proof.
  intros Hne. unfold two_steps. rewrite acl_entry_one_eq. cbn [obind]. rewrite acl_entry_one_eq. cbn [obind].
  rewrite acl_done_keeps by done. unfold acl_entry_two. cbv zeta.
  assert (Hne' : b1 <> b0) by auto.
  repeat first [rewrite upd_get | rewrite (upd_get_ne b0 b1) by done | rewrite (upd_get_ne b1 b0) by done].
  rewrite (upd_comm b0 b1), !upd_upd, (upd_comm b1 b0) by done.
  rewrite apply_rule_eq, !upd_hits_wdata, (upd_comm b0 b1) by done.
  rewrite apply_rule_eq, !upd_hits_wdata, (upd_comm b1 b0), apply_default_eq, (upd_comm b0 b1), apply_default_eq by done.
  unfold acl_done. rewrite !upd_hits_wdata. repeat first [rewrite upd_get | rewrite (upd_get_ne b0 b1) by done]. done.
Qed.

(** ** The other two nodes *)

Lemma action_two_ok st b0 b1 : action_main_two st b0 b1 = two_steps action_main_one st b0 b1.
Proof.
  unfold action_main_two, two_steps, action_main_one.
  destruct (get_action_forward_path (dp_actions st) _ _) as [[w0 al0] n0]. cbn [obind].
  by destruct (get_action_forward_path _ _ _) as [[w1 al1] n1].
Qed.

Lemma balance_packet_set fuel ss st b w b1 : b1 <> b ->
  balance_packet fuel ss (upd_wdata b w st) b1 =
  let? (st', x) := balance_packet fuel ss st b1 in Some (upd_wdata b w st', x).
Proof.
  intros Hne. unfold balance_packet. rewrite upd_get_ne by done. cbn [dp_actions dp_statics upd_wdata].
  destruct (load_balance_interfaces _ _ _ _ _ _) as [[[x a] rs]|]; done.
Qed.

Lemma balance_packet_keeps fuel ss st b st' x : balance_packet fuel ss st b = Some (st', x) -> dp_wdata st' = dp_wdata st.
Proof.
  unfold balance_packet. intros E. apply obind_Some in E as ([[y a] rs] & _ & [= <- _]). done.
Qed.

Lemma balance_two_ok fuel ss st b0 b1 : b0 <> b1 ->
  balance_two fuel ss st b0 b1 = two_steps (balance_one fuel ss) st b0 b1.
Proof.
  intros Hne. unfold balance_two, two_steps, balance_one.
  destruct (balance_packet fuel ss st b0) as [[s0 x0]|] eqn:E0; cbn [obind]; [|done].
  unfold set_tx_intf_index at 3. rewrite balance_packet_set by auto.
  destruct (balance_packet fuel ss s0 b1) as [[s1 x1]|] eqn:E1; cbn [obind]; [|done].
  do 3 f_equal. unfold set_tx_intf_index. by rewrite (balance_packet_keeps _ _ _ _ _ _ E1).
Qed.

(** The nodes after the decoders do not show the pairing either.  Over a frame
    of distinct buffers, every run of the ACL node, of the action node and of the
    load-balancing node, whichever packets it takes in pairs, is the run of its
    one-packet body over the frame in order; the shared state (hit counters,
    round-robin indices, weights) goes through the packets in that order. *)
Theorem datapath_one_by_one `{RteAcl} m cfg worker fuel ss st from st' out :
  NoDup from ->
  let results := fun b => acl_classify m (acl_packet (dp_wdata st).[b]) in
  (sf_acl_entry_node m cfg worker st from st' out <->
     one_by_one (acl_entry_one cfg worker results) st from = Some (st', out)) /\
  (action_main_node st from st' out <-> one_by_one action_main_one st from = Some (st', out)) /\
  (balance_intf_node fuel ss st from st' out <-> one_by_one (balance_one fuel ss) st from = Some (st', out)).
Proof.
  intros Hnd results. assert (HP : Forall ((fun (_ : dp_state) (_ : Z) => True) st) from) by by apply Forall_true.
  split_and!; apply (frame_run_iff _ _ (fun _ _ => True)); auto using acl_two_ok, action_two_ok, balance_two_ok.
Qed.

(** ** The action of a packet *)

(** The action of the smallest configured rule that matches, or the default one. *)
Definition verdict (c : SF_CONF_T) cfg w : Z :=
  let r := lookup c (acl_packet w) in
  let x := if decide (r <> 0) then get_interface_rule_to_action cfg (interface_id w) r else 0 in
  if decide (x = 0) then get_interface_default_action cfg (interface_id w) else x.

Lemma acl_packet_words w : words_ok_pkt (acl_packet w).
Proof. split; intros i; apply bswap32_range. Qed.

Lemma acl_record_verdict c cfg w :
  acl_record cfg (lookup c (acl_packet w)) w = with_arg (verdict c cfg w) (sf_wqe_reset w).
Proof.
  unfold acl_record, verdict. destruct (decide (lookup c (acl_packet w) <> 0)); cbn.
  - destruct (decide (get_interface_rule_to_action _ _ _ = 0)); done.
  - rewrite decide_True by done. done.
Qed.

Lemma hit_once_spec worker r h r' : 0 <= worker -> 0 <= r <= MAX_RULE_PER_GROUP -> 1 <= r' <= MAX_RULE_PER_GROUP ->
  let k := hit_index worker 0 r' in
  (hit_once worker r h).[k] = if decide (r = r') then u32 (h.[k] + 1) else h.[k].
Proof.
  intros Hw Hr Hr'. unfold hit_once. destruct (decide (r <> 0)); [|by rewrite decide_False by lia].
  unfold update_acl_rule_hit. destruct (decide (r = r')) as [->|Hne]; [by rewrite aget_aset_eq|].
  rewrite aget_aset_ne; [done|]. unfold hit_index. lia.
Qed.

Section acl_frame.
Context (cfg : gmap Z ingress_config) (worker : Z) (results : Z -> Z).

(** The run of the one-packet body over a frame. *)
Lemma acl_run from : forall st, NoDup from -> exists st',
  one_by_one (acl_entry_one cfg worker results) st from =
    Some (st', map (fun b => (b, acl_next (dp_wdata st).[b])) from) /\
  (forall b, (dp_wdata st').[b] =
     if decide (b ∈ from) then acl_record cfg (results b) (dp_wdata st).[b] else (dp_wdata st).[b]) /\
  acl_rule_hit st' = foldl (fun h b => hit_once worker (results b) h) (acl_rule_hit st) from /\
  dp_actions st' = dp_actions st /\ dp_list st' = dp_list st /\ dp_statics st' = dp_statics st.
Proof.
  induction from as [|b from IH]; intros st Hnd; [by exists st|].
  apply NoDup_cons in Hnd as [Hn Hnd]. cbn [one_by_one]. rewrite acl_entry_one_eq. cbn [obind].
  destruct (IH (acl_done cfg worker (results b) b st) Hnd) as (st' & E & Hw & Hh & Ha & Hl & Hs).
  rewrite E. cbn [obind]. exists st'. split_and!; try done.
  - cbn [map]. do 3 f_equal. apply map_ext_in. intros b' Hb%list_elem_of_In.
    rewrite acl_done_keeps; [done|]. by intros ->.
  - intros b'. rewrite Hw. destruct (decide (b' = b)) as [->|Hne].
    + rewrite decide_False, decide_True by (done || by left). unfold acl_done. cbn. by rewrite aget_aset_eq.
    + rewrite acl_done_keeps by done. destruct (decide (b' ∈ from)) as [Hi|Hi].
      * by rewrite decide_True by by right.
      * rewrite decide_False; [done|]. by intros [?|?]%elem_of_cons.
Qed.

Lemma hits_counted r' : 0 <= worker -> 1 <= r' <= MAX_RULE_PER_GROUP ->
  (forall b, 0 <= results b <= MAX_RULE_PER_GROUP) -> forall from h,
  let k := hit_index worker 0 r' in
  u32 (foldl (fun h b => hit_once worker (results b) h) h from).[k] = u32 (h.[k] + count (fun b => results b =? r') from).
Proof.
  intros Hw Hr' Hres from. induction from as [|b from IH]; intros h k; cbn [foldl].
  - by rewrite count_nil, Z.add_0_r.
  - unfold k in *. rewrite IH, (hit_once_spec worker (results b) h r' Hw (Hres b) Hr'), count_cons.
    destruct (decide (results b = r')) as [->|Hne].
    + rewrite Z.eqb_refl, wrap_add_l. f_equal. lia.
    + by rewrite (proj2 (Z.eqb_neq _ _) Hne).
Qed.
End acl_frame.

Lemma first_such_seqZ f n : 0 <= first_such f (seqZ 1 n) <= Z.max 0 n.
Proof.
  destruct (decide (first_such f (seqZ 1 n) = 0)) as [->|Hne]; [lia|].
  destruct (first_such_in f (seqZ 1 n) _ eq_refl Hne) as [Hin _]. apply elem_of_seqZ in Hin. lia.
Qed.

Lemma lookup_range c p : 0 <= lookup c p <= MAX_RULE_PER_GROUP.
Proof. apply (first_such_seqZ _ 4096). Qed.

Section verdicts.
Context `{RteAclLaws}.

(** C7: the ACL node applies the configured rules.  Once a rule store has been
    synchronised, the node runs on any frame of distinct buffers, in one way only,
    and afterwards every packet of the frame is back at its layer-2 header with
    the action its input interface gives the smallest matching rule, or the
    interface's default action when no rule matches or the rule has no action; a
    packet put together from fragments goes to the node that gives its fragments
    the verdict, any other to the action node; the worker's counter of each rule
    has grown by the number of packets that matched it, modulo 2^32; the buffers
    outside the frame are untouched. *)
Theorem acl_entry_applies_rules c m m' cfg worker st from :
  acl_inv c -> main_inv m -> sync_rte_tuple_rules c m = (m', 0) -> NoDup from -> 0 <= worker ->
  exists st', (forall st2 out, sf_acl_entry_node m' cfg worker st from st2 out <->
      st2 = st' /\ out = map (fun b => (b, if is_reass_pkt (dp_wdata st).[b] then ACL_NEXT_IP_REASS_FORWARD
                                          else ACL_NEXT_ACTION_MAIN)) from) /\
    (forall b, b ∈ from -> (dp_wdata st').[b] =
       with_arg (verdict c cfg (dp_wdata st).[b]) (sf_wqe_reset (dp_wdata st).[b])) /\
    (forall b, b ∉ from -> (dp_wdata st').[b] = (dp_wdata st).[b]) /\
    (forall r, 1 <= r <= MAX_RULE_PER_GROUP ->
       u32 (acl_rule_hit st').[hit_index worker 0 r] =
       u32 ((acl_rule_hit st).[hit_index worker 0 r] +
            count (fun b => lookup c (acl_packet (dp_wdata st).[b]) =? r) from)) /\
    dp_actions st' = dp_actions st.
Proof.
  intros Hc Hm Hsync Hnd Hw. destruct (sync_installs_lookup_aux c m m' 0 Hc Hm Hsync) as (_ & Hok & _).
  set (results := fun b => acl_classify m' (acl_packet (dp_wdata st).[b])).
  assert (Hres : forall b, results b = lookup c (acl_packet (dp_wdata st).[b])) by (intros b; apply Hok, acl_packet_words; done).
  destruct (acl_run cfg worker results from st Hnd) as (st' & E & Hwd & Hh & Ha & _).
  exists st'. split_and!; [| | | |done].
  - intros st2 out. unfold sf_acl_entry_node. fold results.
    rewrite (frame_run_iff _ _ (fun _ _ => True)); auto using acl_two_ok; [|by apply Forall_true].
    rewrite E. split; [by intros [= <- <-]|by intros [-> ->]].
  - intros b Hb. by rewrite Hwd, decide_True, Hres, acl_record_verdict.
  - intros b Hb. by rewrite Hwd, decide_False.
  - intros r Hr. rewrite Hh, (hits_counted worker results r Hw Hr).
    + f_equal. f_equal. apply count_ext. intros b _. by rewrite Hres.
    + intros b. rewrite Hres. apply lookup_range.
Qed.
End verdicts.

(** ** The route of an action *)

Definition route (a : sf_action_t) : list Z :=
  let x := additional_actions a in
  (if flag_erspan x then [SF_NEXT_NODE_ACTION_ERSPAN_ENCAPSULATION] else []) ++
  (if flag_vxlan x then [SF_NEXT_NODE_ACTION_VXLAN_ENCAPSULATION] else []) ++
  (if flag_gre x then [SF_NEXT_NODE_ACTION_GRE_ENCAPSULATION] else []) ++
  [action_type_to_next_index (action_type a)].

(** The nodes popped from the list, in order. *)
Fixpoint pops (n : nat) (al : sf_additional_list_t) : list Z :=
  match n with O => [] | S n => let '(x, al) := pop_addtional_list al in x :: pops n al end.

Definition forwards (a : sf_action_t) : Prop := ACTION_TYPE_DROP < action_type a < ACTION_TYPE_COUNT.

(** The action node starts the route of the packet's action.  Without an
    action in use under the packet's id, or with one of no forwarding type, the
    packet is dropped and only its arguments change.  Otherwise its output
    interface is the action's; with no encapsulation it goes straight to the node
    of the action's type, and with encapsulations the node it goes to and those
    the following nodes pop from its list are the ERSPAN, VXLAN and GRE nodes that
    are switched on, in that order, and then the node of the action's type. *)
Theorem action_route conf w al w' al' next :
  get_action_forward_path conf w al = (w', al', next) ->
  arg_to_next w' = Z.land (arg_to_next w) 0xFFFF /\ ip_wdata w' = ip_wdata w /\
  match get_action conf (arg_to_next w) with
  | Some a =>
      (forwards a -> interface_out w' = forward_interface_id a /\
         if decide (switch_flags (additional_actions a) = 0)
         then next = action_type_to_next_index (action_type a) /\ al' = al
         else next :: pops (length (route a) - 1) al' = route a /\ delta al' = i16 (- current_data w)) /\
      (~ forwards a -> next = SF_NEXT_NODE_SF_PKT_DROP /\ interface_out w' = interface_out w /\ al' = al)
  | None => next = SF_NEXT_NODE_SF_PKT_DROP /\ interface_out w' = interface_out w /\ al' = al
  end.
Proof.
  unfold get_action_forward_path. destruct (get_action conf (arg_to_next w)) as [a|]; [|by intros [= <- <- <-]].
  destruct (decide (action_type a <= ACTION_TYPE_DROP \/ ACTION_TYPE_COUNT <= action_type a)) as [Ht|Ht].
  { intros [= <- <- <-]. split_and!; try done. intros Hf. unfold forwards in Hf. lia. }
  assert (Hf : forwards a) by (unfold forwards; lia).
  assert (Hn : u8 (action_type_to_next_index (action_type a)) = action_type_to_next_index (action_type a)).
  { unfold forwards, ACTION_TYPE_DROP, ACTION_TYPE_COUNT in Hf. apply wrap_small. unfold action_type_to_next_index, ADDITIONAL_TYPE_COUNT. lia. }
  destruct (decide (switch_flags (additional_actions a) = 0)) as [Hz|Hz].
  - intros [= <- <- <-]. split_and!; try done.
  - unfold route. destruct (flag_erspan (additional_actions a)), (flag_vxlan (additional_actions a)), (flag_gre (additional_actions a));
      intros [= <- <- <-]; (split; [done|]; split; [done|]; split; [|done]; intros _; split; [done|]; split; [|done]);
      cbn [length app Nat.sub pops pop_addtional_list]; cbn -[u8 action_type_to_next_index aget aset];
      repeat first [rewrite aget_aset_eq | rewrite aget_aset_ne by done]; by rewrite ?Hn.
Qed.

(** ** Action and interface together *)

(** C31: a packet whose action balances over interfaces leaves through one that is
    up.  Let the action have 1 to 63 interfaces, an index of one of them (in round robin)
    or a period of at most 64 choices (in the weighted mode), no encapsulation switched
    on, and an update flag other than 0xFF.  The action node hands the packet to the load
    balancer, and that sends it to the output with an interface of the action that is up
    when there is one, and drops it when there is none. *)
Theorem action_to_interface fuel ss st b a :
  let id := arg_to_next (dp_wdata st).[b] in
  get_action (dp_actions st) id = Some a -> action_type a = ACTION_TYPE_LOAD_BALANCE_INTERFACES ->
  switch_flags (additional_actions a) = 0 -> balance_ready fuel a -> (update_flag (dp_statics st)).[id - 1] <> 0xFF ->
  (forall i, 0 <= i < load_balance_interfaces_num a -> 1 <= (load_balance_interface_array a).[i] <= MAX_INTERFACE_CNT) ->
  exists st1 st2 n,
    action_main_one st b = Some (st1, SF_NEXT_NODE_ACTION_LOAD_BALANCE_INTERFACES) /\
    balance_one fuel ss st1 b = Some (st2, n) /\
    ((exists y, up_member ss a y) -> n = LB_NEXT_PKT_OUTPUT /\ up_member ss a (interface_out (dp_wdata st2).[b])) /\
    ((~ exists y, up_member ss a y) -> n = LB_NEXT_PKT_DROP).
Proof.
  intros id Ha Hty Hsw Hr Hflag Hids.
  assert (Hid : 1 <= id <= 128 /\ a = (dp_actions st).[id - 1]).
  { unfold get_action, is_valid_action_id, MAX_ACTION_NUM in Ha.
    destruct (1 <=? id) eqn:E1, (id <=? 128) eqn:E2; cbn [andb] in Ha; try done.
    destruct (decide (ref_counter _ = 0)) in Ha; [done|]. injection Ha as <-. split; [lia|done]. }
  destruct Hid as [Hid Ea].
  set (w1 := with_out (forward_interface_id a) (with_arg (Z.land id 0xFFFF) (dp_wdata st).[b])).
  set (st1 := upd_list b (dp_list st).[b] (upd_wdata b w1 st)).
  assert (E1 : action_main_one st b = Some (st1, SF_NEXT_NODE_ACTION_LOAD_BALANCE_INTERFACES)).
  { unfold action_main_one, get_action_forward_path. fold id. rewrite Ha, Hty.
    rewrite decide_False by (intros [?|?]; done). rewrite decide_True by done. done. }
  assert (Earg : arg1_to_next (dp_wdata st1).[b] = id).
  { unfold st1, upd_list. cbn. rewrite aget_aset_eq. unfold arg1_to_next, w1. cbn.
    change 65535 with (2 ^ 16 - 1). rewrite (wrap_land 16) by lia. by rewrite wrap_idemp, wrap_small by lia. }
  destruct (load_balance_finds_up_aux fuel ss (dp_wdata st1).[b] a id (dp_statics st) Hr Hflag)
    as (x & a' & rs' & E2 & _ & Hup & Hno).
  eexists st1, _, _. split; [done|]. split.
  { unfold balance_one, balance_packet. rewrite Earg. change (dp_actions st1) with (dp_actions st).
    change (dp_statics st1) with (dp_statics st). rewrite <- Ea, E2. cbn [obind]. reflexivity. }
  split.
  - intros Hy. specialize (Hup Hy). destruct Hup as [Hu (i & Hi & Ei)]. pose proof (Hids i Hi) as Hx. rewrite Ei in Hx.
    unfold MAX_INTERFACE_CNT in Hx. rewrite wrap_small by lia. unfold balance_next, INVALID_INTERFACE_ID.
    rewrite decide_False by lia. split; [done|]. unfold set_tx_intf_index, upd_wdata. cbn. rewrite aget_aset_eq.
    split; [done|by exists i].
  - intros Hn. rewrite (Hno Hn). done.
Qed.
