(* ===== verification/DatapathDemo.v ===== *)
(** * Configured actions, witnesses

    What [put_action_config] stores is what the data path finds; concrete
    configurations; the limits of the load balancer. *)
From S2P Require Import Prelude FrameLoop Wdata AclTuple AclStore AclDemo AclRte AclLookup Action Wrr LoadBalance Datapath DatapathSpec.

Implicit Types (a : sf_action_t).

(** What is stored for an action. *)
Definition stored_action (g m : Z) a : sf_action_t :=
  with_ref (ref_counter a + 1)
    (if decide (load_balance_mode a = LOAD_BALANCE_MODE_WRR) then with_balance (mk_weight 0 g m) (load_balance_index a) a else a).

(** C33: a configured action is the one the data path uses.  Storing an action of any
    type under an id from 1 to 128 (in the weighted mode with at least one interface and
    positive weights below 2^30) succeeds; the data path and the configuration then read
    it back with its reference counted and, in the weighted mode, the divisor and the
    maximum of its weights; the other actions are as before; if it has 1 to 63 interfaces,
    an index of one of them and, in the weighted mode, needs at most 64 choices for its
    weights, it is ready for the load balancer; and deleting it makes the data path drop
    its packets. *)
Theorem put_action_serves fuel conf a id W :
  is_valid_action_id id = true -> 0 <= ref_counter a < 2 ^ 32 - 1 ->
  (load_balance_mode a = LOAD_BALANCE_MODE_WRR -> 0 < load_balance_interfaces_num a /\
    (forall i, 0 <= i < load_balance_interfaces_num a -> 0 < (load_balance_weight a).[i] <= W) /\
    W < 2 ^ 30 /\ load_balance_interfaces_num a * W < Z.of_nat fuel) ->
  exists conf' g m, put_action_config fuel (Some conf) a id = Some (Some conf', 0) /\
    (load_balance_mode a = LOAD_BALANCE_MODE_WRR -> weights_of (load_balance_weight a) (load_balance_interfaces_num a) g m) /\
    get_action conf' id = Some (stored_action g m a) /\
    get_action_config (Some conf') id = (Some (stored_action g m a), 0) /\
    check_action_if_exist (Some conf') id = 1 /\
    (forall id', id' <> id -> get_action conf' id' = get_action conf id') /\
    (0 < load_balance_interfaces_num a <= MAX_INTERFACE_CNT -> 0 <= load_balance_index a < load_balance_interfaces_num a ->
     (load_balance_mode a = LOAD_BALANCE_MODE_WRR ->
      period (load_balance_interfaces_num a) g (load_balance_weight a) <= MAX_LOAD_BALANCE_NODE) ->
     balance_ready fuel (stored_action g m a)) /\
    exists conf'', delete_action_config (Some conf') id = (Some conf'', 0) /\ get_action conf'' id = None.
Proof.
  intros Hid Href Hwrr. assert (Ew : exists g mx,
    (load_balance_mode a = LOAD_BALANCE_MODE_WRR ->
     weight_calc_max fuel (load_balance_weight a) (load_balance_interfaces_num a) = Some (g, mx) /\
     weights_of (load_balance_weight a) (load_balance_interfaces_num a) g mx)).
  { destruct (decide (load_balance_mode a = LOAD_BALANCE_MODE_WRR)) as [Hm|Hm]; [|by exists 0, 0].
    destruct (Hwrr Hm) as (Hn & HW & _ & Hf). pose proof (HW 0 ltac:(lia)).
    destruct (weight_calc_max_spec fuel (load_balance_weight a) W (load_balance_interfaces_num a)) as (g & mx & Ec & Ho);
      [lia|done|nia|]. by exists g, mx. }
  destruct Ew as (g & mx & Ew). exists (conf.[id - 1 <- stored_action g mx a]), g, mx.
  assert (Er : 0 < ref_counter (stored_action g mx a)) by (cbn; lia).
  split_and!; [|by apply Ew| | | | | |].
  - unfold put_action_config, stored_action. rewrite Hid.
    destruct (decide (load_balance_mode a = LOAD_BALANCE_MODE_WRR)) as [Hm|Hm];
      [rewrite (proj1 (Ew Hm))|]; cbn [obind]; cbn; by rewrite wrap_small by lia.
  - unfold get_action. rewrite Hid, aget_aset_eq. by rewrite decide_False by lia.
  - unfold get_action_config. by rewrite Hid, aget_aset_eq.
  - unfold check_action_if_exist. by rewrite Hid, aget_aset_eq, decide_True.
  - intros id' Hne. unfold get_action. destruct (is_valid_action_id id'); [|done]. by rewrite aget_aset_ne by lia.
  - intros Hn Hidx HK. unfold MAX_INTERFACE_CNT in *. unfold stored_action.
    destruct (decide (load_balance_mode a = LOAD_BALANCE_MODE_WRR)) as [Hm|Hm].
    + destruct (Ew Hm) as [_ Ho]. destruct (Hwrr Hm) as (_ & HW & HW30 & Hf).
      pose proof Ho as [Hg _ _ _ (jm & Hjm & Em)]. pose proof (HW jm Hjm) as Hwj.
      destruct (weights_factor _ _ _ _ Ho) as (m & Ex & Hm0 & Hw); [intros i Hi; by apply HW|].
      split_and!; cbn; unfold MAX_INTERFACE_CNT; try lia. intros _. split; [done|].
      exists g, m, ((load_balance_index a + 1) mod load_balance_interfaces_num a).
      cbn. split_and!; try done; [nia|apply Z.mod_pos_bound; lia|nia|rewrite Ex; apply configured_position; nia|by apply HK].
    + split_and!; cbn; unfold MAX_INTERFACE_CNT; try lia; intros Hc; by destruct Hm.
  - unfold delete_action_config. rewrite Hid. eexists. split; [done|]. unfold get_action. by rewrite Hid, aget_aset_eq.
Qed.

(** ** Two interfaces *)

Definition demo_action (mode w0 w1 : Z) : sf_action_t :=
  mk_action 0 ACTION_TYPE_LOAD_BALANCE_INTERFACES 0 2 (list_to_map [(0, 1); (1, 2)]) no_additional mode
    (mk_weight 0 0 0) 0 (list_to_map [(0, w0); (1, w1)]).

Lemma two_cases (P : Z -> Prop) : P 0 -> P 1 -> forall i, 0 <= i < 2 -> P i.
Proof. intros H0 H1 i Hi. assert (i = 0 \/ i = 1) as [-> | ->] by lia; done. Qed.

Lemma demo_weights i : 0 <= i < 2 -> 0 < (list_to_map [(0, 4); (1, 2)] : gmap Z Z).[i] <= 4.
Proof. revert i. apply two_cases; vm_compute; split; congruence. Qed.

Lemma wrr_fair_witness : exists conf' g m,
  put_action_config 20 (Some empty) (demo_action LOAD_BALANCE_MODE_WRR 4 2) 1 = Some (Some conf', 0) /\
  weights_of (list_to_map [(0, 4); (1, 2)]) 2 g m.
Proof.
  destruct (wrr_fair 20 empty (demo_action LOAD_BALANCE_MODE_WRR 4 2) 1 4 5 eq_refl eq_refl) as (conf' & g & m & E & Ho & _);
    [cbn; lia|cbn; unfold MAX_LOAD_BALANCE_NODE; lia|exact demo_weights|lia|cbn; lia|].
  exists conf', g, m. split; [exact E|exact Ho].
Defined.

Lemma put_action_serves_witness : exists conf' g m,
  put_action_config 20 (Some empty) (demo_action LOAD_BALANCE_MODE_WRR 4 2) 1 = Some (Some conf', 0) /\
  get_action conf' 1 = Some (stored_action g m (demo_action LOAD_BALANCE_MODE_WRR 4 2)).
Proof.
  destruct (put_action_serves 20 empty (demo_action LOAD_BALANCE_MODE_WRR 4 2) 1 4 eq_refl) as (conf' & g & m & E & _ & Hg & _);
    [cbn; lia|intros _; split; [cbn; lia|]; split; [exact demo_weights|cbn; lia]|].
  exists conf', g, m. split; [exact E|exact Hg].
Defined.

(** Interface 1 is up, interface 2 is not. *)
Definition demo_status : intf_status := mk_status (list_to_map [(0, 1); (1, 1)]) (list_to_map [(0, 1)]).
Definition demo_statics : lb_statics := mk_statics ∅ ∅ ∅.
Definition demo_w : sf_wdata_t :=
  mk_wdata 14 46 1 0 0 0 4096 0 0 0 0 0 0 (mk_vlanw 0 0) 0 (mk_ipw 0 0 0 0 0 (mk_addr 0 0) (mk_addr 0 0) 0 0) (mk_l4w 0 0 0 0).

Lemma demo_rr_ready : balance_ready 1 (demo_action LOAD_BALANCE_MODE_ROUND_ROBIN 1 1).
Proof.
  split_and!; cbn; try lia; [unfold MAX_INTERFACE_CNT; lia|]. intros Hc. discriminate Hc.
Qed.

Lemma demo_member : up_member demo_status (demo_action LOAD_BALANCE_MODE_ROUND_ROBIN 1 1) 1.
Proof. split; [reflexivity|]. exists 0. split; [cbn; lia|reflexivity]. Qed.

Lemma load_balance_finds_up_witness : exists x a' rs',
  load_balance_interfaces 1 demo_status demo_w (demo_action LOAD_BALANCE_MODE_ROUND_ROBIN 1 1) 1 demo_statics = Some (x, a', rs') /\
  up_member demo_status (demo_action LOAD_BALANCE_MODE_ROUND_ROBIN 1 1) x.
Proof.
  destruct (load_balance_finds_up 1 demo_status demo_w _ 1 demo_statics demo_rr_ready) as (x & a' & rs' & E & _ & Hup & _).
  - intros Hc. discriminate Hc.
  - exists x, a', rs'. split; [exact E|]. apply Hup. exists 1. exact demo_member.
Defined.

Definition demo_in_use (mode w0 w1 : Z) : sf_action_t := with_ref 1 (demo_action mode w0 w1).
Definition demo_dp : dp_state :=
  mk_dp {[ 7 := with_arg 1 demo_w ]} ∅ {[ 0 := demo_in_use LOAD_BALANCE_MODE_ROUND_ROBIN 1 1 ]} demo_statics ∅.

Lemma action_to_interface_witness : exists st1 st2 n,
  action_main_one demo_dp 7 = Some (st1, SF_NEXT_NODE_ACTION_LOAD_BALANCE_INTERFACES) /\
  balance_one 1 demo_status st1 7 = Some (st2, n) /\ n = LB_NEXT_PKT_OUTPUT.
Proof.
  destruct (action_to_interface 1 demo_status demo_dp 7 (demo_in_use LOAD_BALANCE_MODE_ROUND_ROBIN 1 1)
    eq_refl eq_refl eq_refl demo_rr_ready) as (st1 & st2 & n & E1 & E2 & Hup & _).
  - intros Hc. discriminate Hc.
  - apply two_cases; vm_compute; split; congruence.
  - exists st1, st2, n. split; [exact E1|]. split; [exact E2|]. apply Hup. exists 1. exact demo_member.
Defined.

(** The three encapsulations and an output interface. *)
Definition demo_encap : sf_action_t :=
  mk_action 1 ACTION_TYPE_FORWARD_INTERFACE 3 0 ∅ (mk_additional 7 no_tunnel no_tunnel 0 0 no_tunnel 0 0) 0 (mk_weight 0 0 0) 0 ∅.

Lemma action_route_witness :
  let '(w', al', next) := get_action_forward_path {[ 0 := demo_encap ]} (with_arg 1 demo_w) reset_addtional_list in
  interface_out w' = 3 /\ next :: pops 3 al' = [1; 2; 0; 4].
Proof.
  destruct (get_action_forward_path _ _ _) as [[w' al'] next] eqn:E.
  destruct (action_route _ _ _ _ _ _ E) as (_ & _ & Hf & _).
  destruct (Hf ltac:(split; reflexivity)) as [Ho [Hr _]]. split; [exact Ho|exact Hr].
Defined.

(** ** The limit of the weighted mode *)

(** The weighted mode can give up although an interface is up.  With the
    weights 1 and 100 and the second interface down, an action just configured
    chooses the first interface once in 101 choices, but the load balancer tries
    64 times: the packet gets the invalid interface and is dropped. *)
Theorem wrr_gives_up : exists conf' a',
  put_action_config 300 (Some empty) (demo_action LOAD_BALANCE_MODE_WRR 1 100) 1 = Some (Some conf', 0) /\
  up_member demo_status conf'.[0] 1 /\
  load_balance_interfaces 300 demo_status demo_w conf'.[0] 1 demo_statics = Some (INVALID_INTERFACE_ID, a', demo_statics).
Proof.
  destruct (put_action_config 300 (Some empty) (demo_action LOAD_BALANCE_MODE_WRR 1 100) 1) as [[[conf'|] r]|] eqn:E;
    [|vm_compute in E; discriminate E..].
  assert (Ec : conf' = {[ 0 := with_ref 1 (with_balance (mk_weight 0 1 100) 0 (demo_action LOAD_BALANCE_MODE_WRR 1 100)) ]}).
  { vm_compute in E. injection E as <- _. reflexivity. }
  assert (Er : r = 0) by (vm_compute in E; injection E as _ <-; reflexivity). subst conf' r.
  eexists _, _. split; [reflexivity|]. split; [split; [reflexivity|exists 0; split; [split; vm_compute; congruence|reflexivity]]|].
  vm_compute. reflexivity.
Qed.

(** Both directions of a conversation use the same interface.  In the mode
    that hashes both addresses, exchanging source and destination of a packet of
    one IP version does not change the interface chosen, and the choice changes
    neither the action nor the weights. *)
Theorem srcdst_symmetric fuel a w1 w2 num :
  load_balance_mode a = LOAD_BALANCE_MODE_OUTER_SRCDSTIP ->
  version (ip_wdata w1) = version (ip_wdata w2) ->
  ip_sip (ip_wdata w1) = ip_dip (ip_wdata w2) -> ip_dip (ip_wdata w1) = ip_sip (ip_wdata w2) ->
  exists i, action_get_load_balance_index fuel a (fill_load_balance_data w1) num = Some (i, a) /\
    action_get_load_balance_index fuel a (fill_load_balance_data w2) num = Some (i, a).
Proof.
  intros Hm Hv Hs Hd. unfold action_get_load_balance_index, fill_load_balance_data. cbn [lb_src_ip lb_dst_ip].
  rewrite Hv, Hs, Hd, Hm. set (v4 := bool_decide (version (ip_wdata w2) = IP_VERSION_4)).
  destruct (host_addr v4 (ip_sip (ip_wdata w2))) as [s0 s1], (host_addr v4 (ip_dip (ip_wdata w2))) as [d0 d1].
  destruct (decide (num = 0)); [by exists 0|]. rewrite !decide_False by (try (intros [?|?]); done).
  rewrite !decide_True by done. eexists. split; [done|]. do 4 f_equal. lia.
Qed.

Lemma srcdst_symmetric_witness : exists i,
  action_get_load_balance_index 0 (demo_action LOAD_BALANCE_MODE_OUTER_SRCDSTIP 1 1) (fill_load_balance_data demo_w) 2 =
    Some (i, demo_action LOAD_BALANCE_MODE_OUTER_SRCDSTIP 1 1).
Proof.
  destruct (srcdst_symmetric 0 (demo_action LOAD_BALANCE_MODE_OUTER_SRCDSTIP 1 1) demo_w demo_w 2
    eq_refl eq_refl eq_refl eq_refl) as (i & E & _). exists i. exact E.
Defined.

(** ** A frame through the ACL node *)

Lemma demo_frame_nodup : NoDup [7; 8].
Proof. apply (bool_decide_unpack _). vm_compute. exact I. Qed.

(** The rules of [demo_conf]; interface 1 defaults to action 9. *)
Definition demo_ingress : gmap Z ingress_config := {[ 0 := mk_ingress 9 ∅ ]}.

Lemma acl_entry_applies_rules_witness : exists st' out,
  sf_acl_entry_node (fst (sync_rte_tuple_rules demo_conf demo_main)) demo_ingress 0 demo_dp [7; 8] st' out /\
  (dp_wdata st').[7] = with_arg (verdict demo_conf demo_ingress (dp_wdata demo_dp).[7]) (sf_wqe_reset (dp_wdata demo_dp).[7]).
Proof.
  destruct (sync_rte_tuple_rules demo_conf demo_main) as [m' ret] eqn:E.
  assert (Hr : ret = 0) by (change ret with (snd (m', ret)); rewrite <- E; vm_compute; reflexivity). subst ret.
  destruct (acl_entry_applies_rules demo_conf demo_main m' demo_ingress 0 demo_dp [7; 8] demo_conf_inv demo_main_inv E
    demo_frame_nodup (Z.le_refl 0)) as (st' & Hrun & Hw & _).
  eexists st', _. split; [apply Hrun; split; reflexivity|]. apply Hw. left.
Defined.

Lemma datapath_one_by_one_witness : exists st' out, action_main_node demo_dp [7; 8] st' out.
Proof.
  destruct (one_by_one action_main_one demo_dp [7; 8]) as [[st' out]|] eqn:E; [|discriminate E].
  exists st', out.
  apply (datapath_one_by_one demo_main demo_ingress 0 1 demo_status demo_dp [7; 8] st' out demo_frame_nodup). exact E.
Defined.
