(* ===== verification/IntfConfigSpec.v ===== *)
(** * The settings of interfaces: types, texts and what the nodes read

    Whatever calls are made, every setting keeps the shape the nodes rely on; a
    call touches one interface; texts come back as they were set.  The action set
    for a rule is the one the ACL node gives the packets that match it. *)
From S2P Require Import Prelude Wdata AclTuple AclStore AclRte AclLookup AclDemo FrameLoop Action Wrr LoadBalance Datapath DatapathSpec DatapathDemo IntfConfig.

Implicit Types (i : sf_inferface_t) (cf : interfaces_global_config_t) (c : option interfaces_global_config_t) (index : Z).

Section spec.
Context `{IL : InetLaws}.

(** ** The calls *)

Inductive call :=
| SetType index (value : Z) | SetMask index (value : Z) | SetAdmin index (value : Z)
| SetGroup index (value : Z) | SetDefault index (value : Z) | SetRule index (rule_id action_id : Z)
| SetAlias index (s : option (list Z)) | SetMac (temp : gmap Z Z) index (s : list Z)
| SetIpv4 index (s : option (list Z)) | SetIpv6 index (s : option (list Z))
| SetGateway4 index (s : option (list Z)) | SetGateway6 index (s : option (list Z)).

Definition run_call (k : call) c : option interfaces_global_config_t * Z :=
  match k with
  | SetType index v => set_interface_interface_type index v c
  | SetMask index v => set_interface_ipaddr_mask index v c
  | SetAdmin index v => set_interface_admin_status index v c
  | SetGroup index v => set_ingress_acl_rule_group index v c
  | SetDefault index v => set_ingress_default_action_id index v c
  | SetRule index r a => set_ingress_rule_to_action index r a c
  | SetAlias index s => set_interface_alias_name index s c
  | SetMac temp index s => set_interface_mac_addr temp index s c
  | SetIpv4 index s => set_interface_ipv4 index s c
  | SetIpv6 index s => set_interface_ipv6 index s c
  | SetGateway4 index s => set_interface_ipv4_gateway index s c
  | SetGateway6 index s => set_interface_ipv6_gateway index s c
  end.

Definition index_of (k : call) : Z :=
  match k with
  | SetType n _ | SetMask n _ | SetAdmin n _ | SetGroup n _ | SetDefault n _ | SetRule n _ _ | SetAlias n _
  | SetMac _ n _ | SetIpv4 n _ | SetIpv6 n _ | SetGateway4 n _ | SetGateway6 n _ => n
  end.

(** ** The shape of the settings *)

Definition bytes_n (n : nat) (l : list Z) : Prop := length l = n /\ Forall is_byte l.
Definition word_pair (a : ip_addr_t) : Prop := 0 <= addr_v6_upper a < 2 ^ 64 /\ 0 <= addr_v6_lower a < 2 ^ 64.

Record intf_wf i : Prop := {
  wf_numbers : is_byte (interface_type i) /\ is_byte (ipaddr_mask i);
  wf_mac : bytes_n 6 (mac i);
  wf_ipv4 : bytes_n 4 (ipv4_addr i) /\ bytes_n 4 (ipv4_gateway i);
  wf_ipv6 : word_pair (ipv6_addr i) /\ word_pair (ipv6_gateway i);
  wf_alias : bytes_n 21 (alias_name i) /\ alias_name i !! 20%nat = Some 0;
  wf_ingress : is_byte (acl_rule_group (ingress_config i)) /\ is_byte (default_action_id (ingress_config i));
  wf_rules : forall r, 0 <= (rule_to_action (ingress_config i)).[r] <= MAX_ACTION_COUNT
}.

Definition conf_wf cf : Prop :=
  forall k, 0 <= k < MAX_INTERFACE_CNT ->
    intf_wf (interfaces cf).[k] /\ port_id (interfaces cf).[k] = k + 1 /\ is_byte (admin_status cf).[k].

Lemma u8_byte v : is_byte (u8 v).
Proof. apply (wrap_range 8). lia. Qed.

Lemma good_index index : ~ bad_index index -> 0 <= index - 1 < MAX_INTERFACE_CNT.
Proof. unfold bad_index. lia. Qed.

(** A call made through the common checks. *)
Lemma set_on_wf index f cf c' ret : conf_wf cf -> set_on index f (Some cf) = (c', ret) ->
  (forall i, intf_wf i -> intf_wf (fst (f i)) /\ port_id (fst (f i)) = port_id i) -> exists cf', c' = Some cf' /\ conf_wf cf'.
Proof.
  intros Hwf E Hf. unfold set_on in E. destruct (decide (bad_index index)) as [|Hi]; [injection E as <- _; by exists cf|].
  apply good_index in Hi. destruct (f _) as [i' r] eqn:Ef. injection E as <- _. eexists. split; [done|].
  intros k Hk. cbn [interfaces admin_status]. destruct (Hwf k Hk) as (H1 & H2 & H3). rewrite aget_aset. case_decide; [|done]. subst k.
  destruct (Hf _ H1) as [Hf1 Hf2]. rewrite Ef in Hf1, Hf2. split_and!; [done|cbn in Hf2; by rewrite Hf2|done].
Qed.

Lemma strncpy_shape n s dst m : (n <= m)%nat -> bytes_n m dst -> Forall is_byte s -> bytes_n m (strncpy n s dst).
Proof.
  intros Hn [Hl Hd] Hs. unfold strncpy. split.
  - rewrite length_app, length_take, length_app, repeat_length, length_drop. lia.
  - apply Forall_app. split; [|by apply Forall_drop]. apply Forall_take, Forall_app. split; [done|].
    apply Forall_forall. intros x Hx%list_elem_of_In%repeat_spec. subst. done.
Qed.

Lemma le_value_range l : Forall is_byte l -> 0 <= le_value l < 256 ^ Z.of_nat (length l).
Proof.
  induction 1 as [|x l Hx _ IH]; [done|]. cbn [le_value foldr length]. fold (le_value l).
  rewrite Nat2Z.inj_succ, Z.pow_succ_r by lia. unfold is_byte in Hx. lia.
Qed.

Lemma be_bytes_byte n : forall a, Forall is_byte (be_bytes n a).
Proof.
  induction n as [|n IH]; intros a; cbn [be_bytes]; [done|]. apply Forall_app. split; [done|].
  apply Forall_singleton, (Z.mod_pos_bound a 256). lia.
Qed.

Lemma be_bytes_n n a : bytes_n n (be_bytes n a).
Proof. split; [apply be_bytes_length|apply be_bytes_byte]. Qed.

Lemma addr_of_bytes_wf l : bytes_n 16 l -> word_pair (addr_of_bytes l).
Proof.
  intros [Hl Hb]. unfold addr_of_bytes, word_pair. cbn [addr_v6_upper addr_v6_lower].
  pose proof (le_value_range (take 8 l) (Forall_take _ _ _ Hb)) as H1. pose proof (le_value_range (drop 8 l) (Forall_drop _ _ _ Hb)) as H2.
  rewrite length_take, Hl in H1. rewrite length_drop, Hl in H2. done.
Qed.

(** The text of a call is made of characters. *)
Definition call_ok (k : call) : Prop :=
  match k with SetAlias _ (Some s) => Forall (fun ch => 0 < ch < 256) s | _ => True end.

Ltac wf_step := let i := fresh "i" in let H := fresh "H" in intros i H; destruct H; cbn;
  repeat (case_decide; cbn); (split; [|done]); split; cbn; try done; try (split; (apply u8_byte || tauto)).

Lemma call_keeps_wf k cf c' ret : conf_wf cf -> call_ok k -> run_call k (Some cf) = (c', ret) -> exists cf', c' = Some cf' /\ conf_wf cf'.
Proof.
  intros Hwf Hok E. destruct k as [index v|index v|index v|index v|index v|index r a|index s|temp index s|index s|index s|index s|index s];
    cbn [run_call] in E; try (eapply set_on_wf; [exact Hwf|exact E|]).
  - wf_step.
  - wf_step.
  - unfold set_interface_admin_status in E. case_decide; injection E as <- _; [by exists cf|]. eexists. split; [done|].
    intros k Hk. destruct (Hwf k Hk) as (H1 & H2 & H3). cbn [interfaces admin_status]. split_and!; [done|done|].
    rewrite aget_aset. case_decide; [apply u8_byte|done].
  - wf_step.
  - wf_step.
  - wf_step. intros q. rewrite aget_aset. case_decide; [|done]. unfold is_byte in *. lia.
  - destruct s as [s|]; wf_step. destruct wf_alias0 as [Ha Hz]. split.
    + apply strncpy_shape; [unfold INTERFACE_ALIAS_MAX_LEN; lia|done|]. cbn in Hok. eapply Forall_impl; [exact Hok|]. unfold is_byte. lia.
    + destruct Ha as [Hl _]. unfold strncpy. rewrite lookup_app_r; rewrite length_take, length_app, repeat_length; unfold INTERFACE_ALIAS_MAX_LEN; [|lia].
      rewrite lookup_drop. rewrite <- Hz. f_equal. lia.
  - intros i Hi. destruct (sscanf_mac _ _ _ _) as [t r]. destruct Hi. case_decide; cbn; (split; [|done]); split; cbn; try done.
    all: split; [done|]; repeat constructor; rewrite land_255; apply Z.mod_pos_bound; lia.
  - unfold set_text4. destruct s as [s|]; [|wf_step]. destruct (inet_pton false s) as [a|]; wf_step.
    split; [exact (be_bytes_n 4 a)|tauto].
  - unfold set_text6. destruct s as [s|]; [|wf_step]. destruct (inet_pton true s) as [a|]; wf_step.
    split; [exact (addr_of_bytes_wf _ (be_bytes_n 16 a))|tauto].
  - unfold set_text4. destruct s as [s|]; [|wf_step]. destruct (inet_pton false s) as [a|]; wf_step.
    split; [tauto|exact (be_bytes_n 4 a)].
  - unfold set_text6. destruct s as [s|]; [|wf_step]. destruct (inet_pton true s) as [a|]; wf_step.
    split; [tauto|exact (addr_of_bytes_wf _ (be_bytes_n 16 a))].
Qed.

(** Starting from memory of any contents, and after any calls. *)
Fixpoint run_calls (ks : list call) c : option interfaces_global_config_t :=
  match ks with [] => c | k :: ks => run_calls ks (fst (run_call k c)) end.

Lemma zeroed_wf g : is_byte (acl_rule_group g) -> is_byte (default_action_id g) -> rule_to_action g = ∅ ->
  intf_wf (with_ingress g zeroed).
Proof.
  intros H1 H2 H3. assert (Hz : forall n, bytes_n n (repeat 0 n)).
  { intros n. split; [apply repeat_length|]. apply Forall_forall. by intros x Hx%list_elem_of_In%repeat_spec; subst. }
  split; cbn [with_ingress ingress_config]; rewrite ?H3; done.
Qed.

Lemma init_single_wf i k is_reset : 0 <= k < MAX_INTERFACE_CNT -> (is_reset = true -> bytes_n 6 (mac i)) ->
  intf_wf (init_single_interface_config i k is_reset) /\ port_id (init_single_interface_config i k is_reset) = k + 1.
Proof.
  intros Hk Hm. unfold MAX_INTERFACE_CNT in Hk. pose proof (zeroed_wf (mk_ingress_config 1 0 ∅) ltac:(done) ltac:(done) eq_refl) as [].
  unfold init_single_interface_config. destruct is_reset; cbn in *; (split; [split; cbn; auto|rewrite wrap_small; lia]).
Qed.

Lemma init_loop_spec n : forall k is_reset cf j,
  (interfaces (init_loop n k is_reset cf)).[j] =
    (if decide (k <= j < k + Z.of_nat n) then init_single_interface_config (interfaces cf).[j] j is_reset else (interfaces cf).[j]) /\
  (admin_status (init_loop n k is_reset cf)).[j] = if decide (k <= j < k + Z.of_nat n) then 1 else (admin_status cf).[j].
Proof.
  induction n as [|n IH]; intros k is_reset cf j; cbn [init_loop]; [by rewrite !decide_False by lia|].
  destruct (IH (k + 1) is_reset (mk_conf (admin_status cf).[k <- 1] (interfaces cf).[k <- init_single_interface_config (interfaces cf).[k] k is_reset]) j)
    as [-> ->]. cbn [interfaces admin_status]. destruct (decide (j = k)) as [->|Hj].
  - by rewrite !(decide_False (P := k + 1 <= k < _)), !(decide_True (P := k <= k < _)), !aget_aset_eq by lia.
  - rewrite !aget_aset_ne by done. destruct (decide (k + 1 <= j < k + 1 + Z.of_nat n)).
    + by rewrite !decide_True by lia.
    + by rewrite !decide_False by lia.
Qed.

Lemma init_wf cf is_reset : (is_reset = true -> conf_wf cf) ->
  exists cf', init_interfaces_global_config (Some cf) is_reset = (Some cf', 0) /\ conf_wf cf'.
Proof.
  intros Hwf. eexists. split; [reflexivity|]. intros k Hk.
  destruct (init_loop_spec (Z.to_nat MAX_INTERFACE_CNT) 0 is_reset cf k) as [-> ->]. rewrite !decide_True by lia.
  destruct (init_single_wf (interfaces cf).[k] k is_reset Hk) as [H1 H2]; [|split_and!; done].
  intros Hr. destruct (Hwf Hr k Hk) as [[] _]. done.
Qed.

(** C17: From shared memory of any contents, after initialisation and any sequence of
    calls with any arguments, every setting has the shape the nodes rely on: bytes
    are bytes, addresses have their length, the alias ends inside its array, every
    rule's action is one of the 128 or none, and each interface has its port. *)
Theorem settings_typed cf ks : Forall call_ok ks ->
  exists cf', run_calls ks (fst (init_interfaces_global_config (Some cf) false)) = Some cf' /\ conf_wf cf'.
Proof.
  intros Hks. destruct (init_wf cf false) as (cf0 & -> & Hwf); [done|]. cbn [fst]. revert cf0 Hwf.
  induction Hks as [|k ks Hk _ IH]; intros cf0 Hwf; cbn [run_calls]; [by exists cf0|].
  destruct (run_call k (Some cf0)) as [c' ret] eqn:E. destruct (call_keeps_wf k cf0 c' ret Hwf Hk E) as (cf1 & -> & Hwf1). by apply IH.
Qed.

(** ** What a call leaves alone *)

Definition is_set_mac (k : call) : bool := match k with SetMac _ _ _ => true | _ => false end.

Lemma set_on_frame index f cf cf' ret : set_on index f (Some cf) = (Some cf', ret) ->
  (forall i, snd (f i) = 0 \/ snd (f i) = -1) ->
  (ret = 0 \/ ret = -1) /\ (forall j, j <> index - 1 -> (interfaces cf').[j] = (interfaces cf).[j]) /\ admin_status cf' = admin_status cf /\
  ((forall i, snd (f i) = -1 -> fst (f i) = i) -> ret = -1 -> interfaces cf' ≡ₐ interfaces cf).
Proof.
  intros E Hf. unfold set_on in E. case_decide; [by injection E as <- <-; split_and!; auto|].
  pose proof (Hf (interfaces cf).[index - 1]) as Hr. destruct (f _) as [i' r] eqn:Ef. injection E as <- <-. cbn [snd] in Hr.
  cbn [interfaces admin_status]. split_and!; [done|intros j Hj; by apply aget_aset_ne|done|]. intros Hk ->.
  specialize (Hk (interfaces cf).[index - 1]). rewrite Ef in Hk. cbn in Hk. rewrite Hk by done. apply aset_same.
Qed.

Ltac frame_step := let i := fresh "i" in intros i; cbn; repeat (case_decide; cbn); repeat case_match; cbn; auto; try (intros; done).

(** A call answers 0 or -1; it changes nothing of any other interface, and when
    it answers -1 it changes nothing at all, except that a rejected MAC address is
    stored. *)
Theorem call_touches_one k cf cf' ret : run_call k (Some cf) = (Some cf', ret) ->
  (ret = 0 \/ ret = -1) /\
  (forall j, j <> index_of k - 1 -> (interfaces cf').[j] = (interfaces cf).[j] /\ (admin_status cf').[j] = (admin_status cf).[j]) /\
  (ret = -1 -> is_set_mac k = false -> interfaces cf' ≡ₐ interfaces cf /\ admin_status cf' = admin_status cf).
Proof.
  intros E.
  assert (Hf : forall index f, index = index_of k -> set_on index f (Some cf) = (Some cf', ret) ->
    (forall i, snd (f i) = 0 \/ snd (f i) = -1) -> (is_set_mac k = false -> forall i, snd (f i) = -1 -> fst (f i) = i) ->
    (ret = 0 \/ ret = -1) /\
    (forall j, j <> index_of k - 1 -> (interfaces cf').[j] = (interfaces cf).[j] /\ (admin_status cf').[j] = (admin_status cf).[j]) /\
    (ret = -1 -> is_set_mac k = false -> interfaces cf' ≡ₐ interfaces cf /\ admin_status cf' = admin_status cf)).
  { intros index f -> Es Hr Hk. destruct (set_on_frame _ _ _ _ _ Es Hr) as (H1 & H2 & H3 & H4). split_and!; [done| |].
    - intros j Hj. by rewrite H2, H3.
    - intros Hret Hm. split; [by apply H4; [apply Hk|]|done]. }
  destruct k; cbn [run_call] in E; try (eapply Hf; [|exact E|frame_step|intros Hm; frame_step]; done).
  - unfold set_interface_admin_status in E. case_decide; injection E as <- <-; cbn [interfaces admin_status]; split_and!; auto; try done.
    intros j Hj. split; [done|]. by apply aget_aset_ne.
Qed.

(** ** MAC addresses as texts *)

Lemma hex_digit_facts d : 0 <= d < 16 ->
  hex_value (hex_digit d) = Some d /\ ~ (hex_digit d = 32 \/ 9 <= hex_digit d <= 13) /\ ~ (hex_digit d = 43 \/ hex_digit d = 45) /\
  ~ (hex_digit d = 120 \/ hex_digit d = 88).
Proof. intros Hd. unfold hex_value, hex_digit. repeat case_decide; split_and!; try lia; f_equal; lia. Qed.

Lemma scan_fmt n rest : is_byte n -> scan_02x (fmt_02x n ++ rest) = Some (n, rest).
Proof.
  unfold is_byte. intros Hn. pose proof (Z.div_mod n 16 ltac:(done)) as Hdm. pose proof (Z.mod_pos_bound n 16 ltac:(done)) as Hm.
  destruct (hex_digit_facts (n / 16)) as (A1 & A2 & A3 & A4); [lia|]. destruct (hex_digit_facts (n mod 16)) as (B1 & B2 & B3 & B4); [done|].
  unfold scan_02x, fmt_02x. cbn [app skip_space]. rewrite !decide_False by done. rewrite A1. cbn [obind].
  rewrite decide_False by tauto. rewrite B1. do 2 f_equal. lia.
Qed.

Lemma sscanf_field n k v rest temp : is_byte v ->
  sscanf_mac (S (S n)) k (fmt_02x v ++ 58 :: rest) temp = sscanf_mac (S n) (k + 1) rest temp.[k <- v].
Proof. intros Hv. cbn [sscanf_mac]. by rewrite scan_fmt. Qed.

Lemma sscanf_last k v temp : is_byte v -> sscanf_mac 1 k (fmt_02x v) temp = (temp.[k <- v], k + 1).
Proof. intros Hv. cbn [sscanf_mac]. rewrite <- (app_nil_r (fmt_02x v)). by rewrite scan_fmt. Qed.

Lemma scan_mac_text m temp : bytes_n 6 m -> exists temp', sscanf_mac 6 0 (sprintf_sep fmt_02x 58 m) temp = (temp', 6) /\
  map (fun k => Z.land temp'.[k] 0xff) (seqZ 0 6) = m.
Proof.
  intros [Hl Hb]. destruct m as [|a [|b [|c [|d [|e [|f [|]]]]]]]; try done. rewrite !Forall_cons in Hb.
  destruct Hb as (Ha & Hb & Hc & Hd & He & Hf & _). cbn [sprintf_sep].
  rewrite !sscanf_field, sscanf_last by done. eexists. split; [reflexivity|].
  change (seqZ 0 6) with [0; 1; 2; 3; 4; 5]. cbn [map].
  change (0 + 1) with 1. change (1 + 1) with 2. change (2 + 1) with 3. change (3 + 1) with 4. change (4 + 1) with 5.
  repeat (rewrite aget_aset_eq || rewrite aget_aset_ne by done). rewrite !land_255. unfold is_byte in *. by rewrite !Z.mod_small by lia.
Qed.

(** The text of an interface's MAC address, given to any interface, sets that
    interface's address to it. *)
Theorem mac_text_roundtrip temp index index' len cf : conf_wf cf -> ~ bad_index index -> ~ bad_index index' -> 20 <= len ->
  exists text cf', get_interface_mac_addr index true len (Some cf) = (0, text) /\ length text = 17%nat /\
    set_interface_mac_addr temp index' text (Some cf) = (Some cf', 0) /\
    mac (interfaces cf').[index' - 1] = mac (interfaces cf).[index - 1].
Proof.
  intros Hwf Hi Hi' Hlen. unfold get_interface_mac_addr, get_on. rewrite decide_False by done. rewrite decide_False by (intros [|]; [done|lia]).
  destruct (Hwf _ (good_index _ Hi)) as [Hw _]. pose proof (wf_mac _ Hw) as Hm.
  destruct (scan_mac_text _ temp Hm) as (temp' & Es & Em). eexists _, _. split; [reflexivity|]. split.
  { destruct Hm as [Hl _]. by destruct (mac _) as [|? [|? [|? [|? [|? [|? [|]]]]]]]. }
  unfold set_interface_mac_addr, set_on. rewrite decide_False by done. rewrite Es.
  rewrite (decide_False (P := 6 <> 6)) by lia. split; [reflexivity|]. cbn [interfaces]. rewrite aget_aset_eq. exact Em.
Qed.

(** A text that holds no MAC address is answered with -1, but by then the
    interface's address is what the uninitialised array held. *)
Theorem bad_mac_stored temp index cf : ~ bad_index index ->
  exists cf', set_interface_mac_addr temp index [] (Some cf) = (Some cf', -1) /\
    mac (interfaces cf').[index - 1] = map (fun k => u8 temp.[k]) (seqZ 0 6).
Proof.
  intros Hi. unfold set_interface_mac_addr, set_on. rewrite decide_False by done. eexists. split; [reflexivity|].
  cbn [interfaces]. rewrite aget_aset_eq. cbn [sscanf_mac scan_02x skip_space]. cbn [mac with_mac]. apply map_ext. intros k. apply land_255.
Qed.

(** ** The action of a rule *)

(** What the ACL node sees of the settings. *)
Definition ingress_view cf : gmap Z Datapath.ingress_config :=
  (fun i => mk_ingress (default_action_id (ingress_config i)) (rule_to_action (ingress_config i))) <$> interfaces cf.

Lemma ingress_view_at cf k :
  (ingress_view cf).[k] = mk_ingress (default_action_id (ingress_config (interfaces cf).[k])) (rule_to_action (ingress_config (interfaces cf).[k])).
Proof. unfold ingress_view, aget at 1. rewrite lookup_fmap. unfold aget. by destruct (interfaces cf !! k). Qed.

(** What a call leaves of what the node sees. *)
Lemma rule_action_view index rule_id action_id cf :
  ~ bad_index index -> 0 < rule_id <= MAX_ACL_RULE_COUNT -> 0 <= action_id <= MAX_ACTION_COUNT ->
  exists cf', set_ingress_rule_to_action index rule_id action_id (Some cf) = (Some cf', 0) /\
    (forall index' rule', get_interface_rule_to_action (ingress_view cf') index' rule' =
       if decide (index' = index /\ rule' = rule_id) then action_id else get_interface_rule_to_action (ingress_view cf) index' rule') /\
    (forall index', get_interface_default_action (ingress_view cf') index' = get_interface_default_action (ingress_view cf) index').
Proof.
  intros Hi Hr Ha. unfold set_ingress_rule_to_action, set_on. rewrite decide_False by done. rewrite decide_False by lia.
  unfold MAX_ACTION_COUNT in *. rewrite wrap_small by lia. rewrite decide_False by lia. eexists. split; [reflexivity|].
  unfold get_interface_rule_to_action, get_interface_default_action. split.
  - intros index' rule'. rewrite !ingress_view_at. cbn [interfaces Datapath.rule_to_action]. rewrite aget_aset.
    destruct (decide (index - 1 = index' - 1)) as [E|E].
    + assert (index' = index) as -> by lia. cbn [with_ingress ingress_config rule_to_action]. rewrite aget_aset.
      destruct (decide (rule_id - 1 = rule' - 1)); [by rewrite decide_True by lia|by rewrite decide_False by lia].
    + by rewrite decide_False by lia.
  - intros index'. rewrite !ingress_view_at. cbn [interfaces Datapath.default_action_id]. rewrite aget_aset. case_decide as E; [by rewrite E|done].
Qed.

(** ** Aliases *)

Lemma cstr_nz s rest : Forall (fun ch => 0 < ch < 256) s -> cstr (s ++ 0 :: rest) = s.
Proof. induction 1 as [|x s Hx _ IH]; cbn; [done|]. rewrite decide_False by lia. by rewrite IH. Qed.

Lemma cstr_all s : Forall (fun ch => 0 < ch < 256) s -> cstr s = s.
Proof. induction 1 as [|x s Hx _ IH]; cbn; [done|]. rewrite decide_False by lia. by rewrite IH. Qed.

(** An alias set is read back, cut after 20 characters. *)
Theorem alias_roundtrip index s len cf : conf_wf cf -> ~ bad_index index -> Forall (fun ch => 0 < ch < 256) s -> 20 <= len ->
  exists cf' buf, set_interface_alias_name index (Some s) (Some cf) = (Some cf', 0) /\
    get_interface_alias_name index true len (Some cf') = (0, buf) /\ cstr buf = take 20 s.
Proof.
  intros Hwf Hi Hs Hlen. unfold set_interface_alias_name, get_interface_alias_name, set_on, get_on, INTERFACE_ALIAS_MAX_LEN.
  rewrite !(decide_False (P := bad_index index)) by done.
  eexists _, _. split; [reflexivity|]. rewrite (decide_False (P := bad_index index)) by done.
  rewrite decide_False by (intros [|]; [done|lia]). split; [reflexivity|]. cbn [interfaces]. rewrite aget_aset_eq. cbn [alias_name with_alias].
  destruct (Hwf _ (good_index _ Hi)) as [Hw _]. destruct (wf_alias _ Hw) as [[Hl _] Hz]. set (old := alias_name _) in *.
  assert (Hc : cstr (strncpy 20 s old) = take 20 s).
  { unfold strncpy. assert (Hd : drop 20 old = [0]).
    { rewrite (drop_S _ _ _ Hz). by rewrite drop_ge by lia. }
    rewrite Hd. destruct (decide (20 <= length s)%nat) as [Hlong|Hshort].
    - rewrite take_app_le by lia. apply cstr_nz. by apply Forall_take.
    - rewrite take_app_ge by lia. rewrite (take_ge s) by lia. rewrite <- app_assoc.
      destruct (20 - length s)%nat as [|n] eqn:En; [lia|]. destruct (repeat 0 20) as [|z r] eqn:Er; [done|]. injection Er as <- _.
      cbn [take app]. by apply cstr_nz. }
  change (Z.to_nat 20) with 20%nat. rewrite Hc. unfold strncpy. cbn [drop]. rewrite app_nil_r.
  pose proof (Forall_take _ 20 _ Hs) as Ht. destruct (decide (20 <= length s)%nat).
  - rewrite take_app_le by (rewrite length_take; lia). rewrite take_take, Nat.min_id. by apply cstr_all.
  - rewrite take_app_ge by (rewrite length_take; lia). rewrite length_take.
    destruct (20 - (20 `min` length s))%nat as [|p] eqn:En; [lia|]. destruct (repeat 0 20) as [|z r] eqn:Er; [done|]. injection Er as <- _.
    cbn [take]. by apply cstr_nz.
Qed.
End spec.

(** C30: From the setting to the packet.  Set an action from 0 to 128 for a rule of an
    interface, and let the ACL node, with the synchronised rules, take any frame of distinct
    buffers: every packet of that interface whose smallest matching rule it is gets the
    action, or the interface's default action where the action set is 0; every other
    packet of the frame gets the action it would have got before. *)
Theorem rule_action_reaches_packets `{RteAclLaws} (rules : SF_CONF_T) m m' worker st from index rule_id action_id cf :
  acl_inv rules -> main_inv m -> sync_rte_tuple_rules rules m = (m', 0) -> NoDup from -> 0 <= worker ->
  ~ bad_index index -> 0 < rule_id <= MAX_ACL_RULE_COUNT -> 0 <= action_id <= MAX_ACTION_COUNT ->
  exists cf', set_ingress_rule_to_action index rule_id action_id (Some cf) = (Some cf', 0) /\
    (exists st' out, sf_acl_entry_node m' (ingress_view cf') worker st from st' out) /\
    forall st' out b, sf_acl_entry_node m' (ingress_view cf') worker st from st' out -> b ∈ from ->
      let w := (dp_wdata st).[b] in
      arg_to_next (dp_wdata st').[b] =
        if decide (interface_id w = index /\ lookup rules (acl_packet w) = rule_id)
        then if decide (action_id = 0) then default_action_id (ingress_config (interfaces cf).[index - 1]) else action_id
        else verdict rules (ingress_view cf) w.
Proof.
  intros Hc Hm Hsync Hnd Hw Hi Hr Ha. destruct (rule_action_view index rule_id action_id cf Hi Hr Ha) as (cf' & E & Hrule & Hdef).
  exists cf'. split; [exact E|].
  destruct (sync_installs_lookup_aux rules m m' 0 Hc Hm Hsync) as (_ & Hok & _).
  destruct (acl_run (ingress_view cf') worker (fun b => acl_classify m' (acl_packet (dp_wdata st).[b])) from st Hnd) as (st1 & E1 & Hwd & _).
  assert (Hrun : forall st2 out, sf_acl_entry_node m' (ingress_view cf') worker st from st2 out <-> 
    one_by_one (acl_entry_one (ingress_view cf') worker (fun b => acl_classify m' (acl_packet (dp_wdata st).[b]))) st from = Some (st2, out)).
  { intros st2 out. apply (frame_run_iff _ _ (fun _ _ => True)); auto using acl_two_ok. by apply Forall_true. }
  split; [by eexists _, _; apply Hrun|]. intros st' out b Hst Hb w. apply Hrun in Hst. rewrite E1 in Hst. injection Hst as <- _.
  rewrite Hwd, decide_True by done. fold w. rewrite Hok by first [done|apply acl_packet_words]. rewrite acl_record_verdict. cbn [with_arg arg_to_next].
  unfold verdict. rewrite Hrule, Hdef. destruct (decide (interface_id w = index /\ lookup rules (acl_packet w) = rule_id)) as [[-> El]|Hne]; [|done].
  rewrite El. rewrite (decide_True (P := rule_id <> 0)) by lia. case_decide; [|done]. unfold get_interface_default_action. by rewrite ingress_view_at.
Qed.

(** * The settings of interfaces on concrete calls

    The general theorems applied to settings fresh from the initialiser. *)

Definition demo_settings : interfaces_global_config_t := init_loop (Z.to_nat MAX_INTERFACE_CNT) 0 false (mk_conf ∅ ∅).

Lemma demo_settings_wf : conf_wf demo_settings.
Proof.
  destruct (init_wf (mk_conf ∅ ∅) false) as (cf & E & Hwf); [done|].
  assert (E1 : Some demo_settings = Some cf) by exact (f_equal fst E).  pose proof (inj Some _ _ E1) as E2. rewrite E2. exact Hwf.
Qed.

(** Good calls and bad ones: interface 64, rule 0, a MAC address cut short. *)
Definition demo_calls : list call :=
  [SetAlias 3 (Some [101; 116; 104]); SetRule 3 1 5; SetRule 3 0 5; SetType 64 1; SetMac ∅ 3 [48; 49; 58]; SetIpv4 3 (Some [167772161])].

Lemma demo_calls_ok : Forall call_ok demo_calls.
Proof. repeat constructor; cbn; lia. Qed.

Lemma settings_typed_witness : exists cf', run_calls demo_calls (fst (init_interfaces_global_config (Some (mk_conf ∅ ∅)) false)) = Some cf' /\ conf_wf cf'.
Proof. exact (settings_typed (mk_conf ∅ ∅) demo_calls demo_calls_ok). Defined.

(** A rejected rule number changes nothing. *)
Lemma call_touches_one_witness :
  exists cf', run_call (SetRule 3 0 5) (Some demo_settings) = (Some cf', -1) /\
    interfaces cf' ≡ₐ interfaces demo_settings.
Proof.
  eexists. split; [reflexivity|].
  refine (proj1 (proj2 (proj2 (call_touches_one (SetRule 3 0 5) demo_settings _ (-1) _)) _ _)); reflexivity.
Defined.

Lemma good_index_3 : ~ bad_index 3.
Proof. unfold bad_index, MAX_INTERFACE_CNT. lia. Qed.
Lemma good_index_7 : ~ bad_index 7.
Proof. unfold bad_index, MAX_INTERFACE_CNT. lia. Qed.

Lemma mac_text_roundtrip_witness :
  exists text cf', get_interface_mac_addr 3 true 20 (Some demo_settings) = (0, text) /\ length text = 17%nat /\
    set_interface_mac_addr ∅ 7 text (Some demo_settings) = (Some cf', 0) /\
    mac (interfaces cf').[7 - 1] = mac (interfaces demo_settings).[3 - 1].
Proof. apply (mac_text_roundtrip ∅ 3 7 20 demo_settings demo_settings_wf good_index_3 good_index_7). lia. Defined.

(** The array happened to hold 0xde in every place. *)
Lemma bad_mac_stored_witness :
  exists cf', set_interface_mac_addr ∅.[0 <- 0xde].[1 <- 0xde] 3 [] (Some demo_settings) = (Some cf', -1) /\
    mac (interfaces cf').[3 - 1] = map (fun k => u8 (∅.[0 <- 0xde].[1 <- 0xde] : gmap Z Z).[k]) (seqZ 0 6).
Proof. exact (bad_mac_stored ∅.[0 <- 0xde].[1 <- 0xde] 3 demo_settings good_index_3). Defined.

(** A TCP packet from 10.0.0.1 and port 299 on interface 3, whose action for the rule it
    matches is set to 5. *)
Definition demo_tcp : sf_wdata_t :=
  mk_wdata 14 46 3 0 0 0 4096 0 0 0 0 0 0 (mk_vlanw 0 0) 0 (mk_ipw 0 0 6 0 0 (mk_addr (10 + 2 ^ 24) 0) (mk_addr 0 0) 0 0) (mk_l4w 0 0x2B01 0 0).
Definition demo_tcp_dp : dp_state := mk_dp {[ 7 := demo_tcp ]} ∅ ∅ demo_statics ∅.

Lemma demo_tcp_rule : lookup demo_conf (acl_packet demo_tcp) = 2.
Proof. vm_compute. reflexivity. Qed.

Lemma rule_action_reaches_packets_witness : exists cf' st' out,
  set_ingress_rule_to_action 3 2 5 (Some demo_settings) = (Some cf', 0) /\
  sf_acl_entry_node (fst (sync_rte_tuple_rules demo_conf demo_main)) (ingress_view cf') 0 demo_tcp_dp [7; 8] st' out /\
  arg_to_next (dp_wdata st').[7] = 5.
Proof.
  destruct (sync_rte_tuple_rules demo_conf demo_main) as [m' ret] eqn:E.
  assert (Hr : ret = 0) by (change ret with (snd (m', ret)); rewrite <- E; vm_compute; reflexivity). subst ret.
  destruct (rule_action_reaches_packets demo_conf demo_main m' 0 demo_tcp_dp [7; 8] 3 2 5 demo_settings demo_conf_inv demo_main_inv E
    demo_frame_nodup (Z.le_refl 0) good_index_3) as (cf' & Es & (st' & out & Hrun) & H);
    [unfold MAX_ACL_RULE_COUNT, MAX_RULE_PER_GROUP; lia|unfold MAX_ACTION_COUNT; lia|].
  exists cf', st', out. split; [exact Es|]. split; [exact Hrun|]. rewrite (H st' out 7 Hrun (list_elem_of_here 7 [8])).
  change ((dp_wdata demo_tcp_dp).[7]) with demo_tcp. rewrite demo_tcp_rule. reflexivity.
Defined.

Definition demo_alias : list Z := [117; 112; 108; 105; 110; 107].

Lemma demo_alias_ok : Forall (fun ch => 0 < ch < 256) demo_alias.
Proof. repeat constructor; lia. Qed.

Lemma alias_roundtrip_witness :
  exists cf' buf, set_interface_alias_name 3 (Some demo_alias) (Some demo_settings) = (Some cf', 0) /\
    get_interface_alias_name 3 true 20 (Some cf') = (0, buf) /\ cstr buf = take 20 demo_alias.
Proof. apply (alias_roundtrip 3 demo_alias 20 demo_settings demo_settings_wf good_index_3 demo_alias_ok). lia. Defined.
