(* ===== verification/IntfPhy.v ===== *)
(** * Link status, and the start of reception

    Models [src/sf_main/other/sf_intf_phy_stat.c] and [sf_intf_phy_stat_vm.c], the
    readers of [src/dpdk/sf_dpdk_init.c] they call, the process that starts the ports
    and then follows their link status, the process that collects the counters (both
    in [sf_interface_stat.c]), and the input node, which receives nothing before the
    start.  What a port answers, the hardware interfaces and the queues are DPDK's. *)
From S2P Require Import Prelude Wdata Handoff IntfStat HugePkt PktIo IntfConfig.

(** ** What the ports answer *)

(** [rte_eth_link] with the largest packet, and [rte_eth_stats], of a port. *)
Record port_link := mk_plink { link_status : Z; link_speed : Z; link_duplex : Z; max_packet_bytes : Z }.
Record rte_eth_stats := mk_eth { ipackets : Z; opackets : Z; ibytes : Z; obytes : Z; imissed : Z; ierrors : Z; oerrors : Z; rx_nombuf : Z }.

Definition ETH_LINK_HALF_DUPLEX : Z := 0.
Definition ETH_LINK_FULL_DUPLEX : Z := 1.
Definition SF_INTF_LINK_HALF_DUPLEX : Z := 1.
Definition SF_INTF_LINK_FULL_DUPLEX : Z := 2.

Implicit Types (results : intf_phy_status_t).

(** [None]: there is no such interface. *)
Definition dpdk_get_sw_if_phy_stat (port : option port_link) results : intf_phy_status_t * Z :=
  match port with
  | None => (results, -1)
  | Some p =>
      let duplex := if decide (link_duplex p = ETH_LINK_HALF_DUPLEX) then SF_INTF_LINK_HALF_DUPLEX
                    else if decide (link_duplex p = ETH_LINK_FULL_DUPLEX) then SF_INTF_LINK_FULL_DUPLEX
                    else duplex results in
      (mk_phy_status (if decide (link_status p <> 0) then 1 else 0) (to_int (link_speed p)) duplex (to_int (max_packet_bytes p)), 0)
  end.

Definition dpdk_get_sw_if_statics_func (port : option rte_eth_stats) : option sf_port_statics_t :=
  let? s := port in
  Some (mk_port (ipackets s) (ibytes s) (ierrors s) (u64 (imissed s + rx_nombuf s)) (opackets s) (obytes s) (oerrors s) (2 ^ 64 - 1)).

(** [registered]: the plugin of the card has given its function. *)
Definition dpdk_get_intf_phy_stat (registered : bool) (port : option port_link) results : intf_phy_status_t * Z :=
  if negb registered then (results, -1) else dpdk_get_sw_if_phy_stat port results.
Definition dpdk_get_sw_if_statics (registered : bool) (port : option rte_eth_stats) : option sf_port_statics_t :=
  if negb registered then None else dpdk_get_sw_if_statics_func port.

(** ** The status of the interfaces *)

Record intf_state := mk_is {
  dpdk_init_status : Z;
  st_intf_link : gmap Z Z;
  dpdk_port_cnt : Z;
  st_interfaces_cnt : Z;
  dpdk_max_queue : gmap Z Z;
  st_phy_status : gmap Z intf_phy_status_t;
  intf_mac : gmap Z (list Z);
  port_admin_up : gmap Z bool;
  handoff_switch : gmap Z Z
}.
#[export] Instance zeroed_bytes : Zeroed (list Z) := [].
#[export] Instance zeroed_bool : Zeroed bool := false.
Implicit Types (st : intf_state).

Definition with_phy (l : gmap Z Z) (p : gmap Z intf_phy_status_t) st : intf_state :=
  mk_is (dpdk_init_status st) l (dpdk_port_cnt st) (st_interfaces_cnt st) (dpdk_max_queue st) p (intf_mac st) (port_admin_up st) (handoff_switch st).
Definition with_start (init cnt : Z) (sw : gmap Z Z) st : intf_state :=
  mk_is init (st_intf_link st) (dpdk_port_cnt st) cnt (dpdk_max_queue st) (st_phy_status st) (intf_mac st) (port_admin_up st) sw.
Definition with_intf_mac (m : gmap Z (list Z)) st : intf_state :=
  mk_is (dpdk_init_status st) (st_intf_link st) (dpdk_port_cnt st) (st_interfaces_cnt st) (dpdk_max_queue st) (st_phy_status st) m (port_admin_up st) (handoff_switch st).
Definition with_admin (a : gmap Z bool) st : intf_state :=
  mk_is (dpdk_init_status st) (st_intf_link st) (dpdk_port_cnt st) (st_interfaces_cnt st) (dpdk_max_queue st) (st_phy_status st) (intf_mac st) a (handoff_switch st).

Definition update_singel_intf_phy_info (registered : bool) (cnt interface_id : Z) (port : option port_link) (phy_stat : intf_phy_status_t) :
    intf_phy_status_t * Z :=
  if decide (interface_id <= 0 \/ interface_id > cnt) then (phy_stat, -1)
  else
    let '(phy_stat, ret) := dpdk_get_intf_phy_stat registered port phy_stat in
    if decide (ret <> 0) then (phy_stat, -1) else (phy_stat, 0).

(** One turn of the loop. *)
Definition update_one (registered : bool) (port : option port_link) (intf_id : Z) st : intf_state :=
  let p := (st_phy_status st).[intf_id - 1] in
  let p := if decide (intf_id <= st_interfaces_cnt st) then (update_singel_intf_phy_info registered (st_interfaces_cnt st) intf_id port p).1
           else zeroed in
  let l := if decide (link p <> 0) then 1 else 0 in
  let p := if decide (link p = 0) then mk_phy_status (link p) 0 0 (mtu p) else p in
  with_phy (st_intf_link st).[intf_id - 1 <- l] (st_phy_status st).[intf_id - 1 <- p] st.

Fixpoint update_from (n : nat) (registered : bool) (ports : Z -> option port_link) (intf_id : Z) st : intf_state :=
  match n with O => st | S n => update_from n registered ports (intf_id + 1) (update_one registered (ports intf_id) intf_id st) end.

(** [mapped]: the shared memory is there. *)
Definition update_all_intf_phy_stat (mapped registered : bool) (ports : Z -> option port_link) st : intf_state * Z :=
  if negb mapped then (st, -1) else (update_from (Z.to_nat MAX_INTERFACE_CNT) registered ports 1 st, 0).

(** ** The start of the ports *)

Record hw_interface := mk_hw { hw_sw_if_index : Z; hw_address : list Z }.

Section start.
Context (hw : Z -> option hw_interface).

(** Ports with several queues need no hand-off. *)
Definition handoff_off st : gmap Z Z :=
  foldl (fun sw i => if decide ((dpdk_max_queue st).[i] > 1) then sf_intf_set_handoff_status sw (i + 1) false else sw)
    (handoff_switch st) (seqZ 0 (st_interfaces_cnt st)).

Fixpoint mac_loop (n : nat) (i : Z) st : intf_state :=
  match n with
  | O => st
  | S n =>
      let st := match hw (i + 1) with
                | Some h => if decide (hw_address h <> [] /\ hw_sw_if_index h <> 0)
                            then with_intf_mac (intf_mac st).[hw_sw_if_index h - 1 <- take 6 (hw_address h)] st else st
                | None => st
                end in
      mac_loop n (i + 1) st
  end.

Fixpoint admin_loop (n : nat) (i : Z) st : intf_state :=
  match n with
  | O => st
  | S n =>
      let st := match hw (i + 1) with
                | Some h => with_admin (port_admin_up st).[hw_sw_if_index h <- true] st
                | None => st
                end in
      admin_loop n (i + 1) st
  end.

(** The process up to its loop, after the event; without ports it ends. *)
Definition update_intf_phy_stat_process (registered : bool) (ports : Z -> option port_link) st : intf_state :=
  if decide (dpdk_port_cnt st <= 0) then st
  else
    let n := Z.to_nat (dpdk_port_cnt st) in
    let st := with_start (dpdk_init_status st) (dpdk_port_cnt st) (handoff_switch st) st in
    let st := with_start (dpdk_init_status st) (st_interfaces_cnt st) (handoff_off st) st in
    let st := mac_loop n 0 st in
    let '(st, _) := update_all_intf_phy_stat true registered ports st in
    let st := admin_loop n 0 st in
    with_start 1 (st_interfaces_cnt st) (handoff_switch st) st.
End start.

(** A turn of the loop of the process. *)
Definition phy_tick (registered : bool) (ports : Z -> option port_link) st : intf_state := (update_all_intf_phy_stat true registered ports st).1.

(** ** The input node *)

Section input.
Context {VL : Vlib} {VB : VlibBuffers}.

(** A device of the polling thread: what its polls give, whether it is up and its
    [maybe_multiseg] flag. *)
Record poll := mk_poll { poll_slave : bool; poll_up : bool; poll_intf : Z; poll_multi : bool; poll_bursts : list (list Z) }.

(** The next nodes of a device: both are the hand-off when its switch is on. *)
Definition rx_next (sw : gmap Z Z) (handoff_next hugepkt_next_index eth_input_next_index intf_id : Z) : Z * Z :=
  if decide (sf_intf_get_handoff_status sw intf_id <> 0) then (handoff_next, handoff_next) else (hugepkt_next_index, eth_input_next_index).

Definition dpdk_input_node mbufs (ist : intf_state) (admin : Z -> Z) (handoff_next hugepkt_next_index eth_input_next_index : Z) (polls : list poll) (st : pkt_state) :
    option (pkt_state * list (Z * Z)) :=
  if decide (dpdk_init_status ist = 0) then Some (st, [])
  else foldl (fun acc p =>
    let? (st, out) := acc in
    if poll_slave p then Some (st, out)
    else
      let '(huge, eth) := rx_next (handoff_switch ist) handoff_next hugepkt_next_index eth_input_next_index (poll_intf p) in
      let? (st, got) := dpdk_device_input mbufs (poll_up p) (admin (poll_intf p)) (poll_intf p) (poll_multi p) huge eth (poll_bursts p) st in
      Some (st, out ++ got)) (Some (st, [])) polls.
End input.

(** ** The collecting process *)

Section collector.
Context (per_time : Z -> Z) (threads : Z).

Record collector := mk_coll { is_first_time : bool; in_process : Z; coll_stat : stat_state }.

Fixpoint init_records (n : nat) (i : Z) (readings : Z -> option sf_port_statics_t) (s : stat_state) : stat_state :=
  match n with O => s | S n => init_records n (i + 1) readings (init_intf_phy_record i (readings i) s) end.

(** One turn; the first one only records where the counters of the ports stand. *)
Definition calculate_interface_stat_process (mapped : bool) (intf_cnt : Z) (readings : Z -> option sf_port_statics_t) (c : collector) : collector :=
  if negb mapped then c
  else if is_first_time c then mk_coll false 1 (init_records (Z.to_nat intf_cnt) 0 readings (coll_stat c))
  else mk_coll false 0 (calculate_all_intf_statics per_time threads intf_cnt readings (coll_stat c)).

(** The command of the automatic test; the answer is whether it collected. *)
Definition sf_sync_intf_statics_fn (intf_cnt : Z) (readings : Z -> option sf_port_statics_t) (c : collector) : collector * bool :=
  if decide (in_process c <> 0) then (c, false)
  else (mk_coll (is_first_time c) (in_process c) (calculate_all_intf_statics per_time threads intf_cnt readings (coll_stat c)), true).
End collector.
