(* ===== verification/IntfPhySpec.v ===== *)
(** * Packets leave on links that are up

    After an update the table of links is what the ports answered; with it the load
    balancer chooses among the interfaces whose port has its link up.  The start gives
    every interface its address, sets its port up and opens reception last. *)
From S2P Require Import Prelude FrameLoop Wdata Handoff HandoffSpec IntfStat HugePkt PktIo IntfConfig Action Wrr LoadBalance Datapath DatapathSpec DatapathDemo IntfPhy.

Implicit Types (st : intf_state) (ports : Z -> option port_link).

(** ** The table of links *)

(** What one update makes of a status: [cnt] interfaces, [port] the answer. *)
Definition asked (registered : bool) (cnt id : Z) (port : option port_link) (p : intf_phy_status_t) : intf_phy_status_t :=
  if decide (id <= cnt) then (update_singel_intf_phy_info registered cnt id port p).1 else zeroed.
Definition settled (p : intf_phy_status_t) : intf_phy_status_t :=
  if decide (link p = 0) then mk_phy_status (link p) 0 0 (mtu p) else p.

Lemma asked_answers cnt id port p : 1 <= id <= cnt -> asked true cnt id (Some port) p = (dpdk_get_sw_if_phy_stat (Some port) p).1.
Proof.
  intros Hid. unfold asked, update_singel_intf_phy_info. destruct (decide (id <= cnt)); [|lia].
  destruct (decide (id <= 0 \/ id > cnt)); [lia|]. done.
Qed.
Lemma asked_fails registered cnt id port p : 1 <= id <= cnt -> registered = false \/ port = None -> asked registered cnt id port p = p.
Proof.
  intros Hid Hno. unfold asked, update_singel_intf_phy_info. destruct (decide (id <= cnt)); [|lia].
  destruct (decide (id <= 0 \/ id > cnt)); [lia|]. destruct Hno as [-> | ->]; [done|]. by destruct registered.
Qed.
Lemma asked_behind registered cnt id port p : cnt < id -> asked registered cnt id port p = zeroed.
Proof. intros Hc. unfold asked. by destruct (decide (id <= cnt)); [lia|]. Qed.

Lemma update_from_spec registered ports n : forall i st,
  let st' := update_from n registered ports i st in
  st_interfaces_cnt st' = st_interfaces_cnt st /\ dpdk_init_status st' = dpdk_init_status st /\ handoff_switch st' = handoff_switch st /\
  intf_mac st' = intf_mac st /\ port_admin_up st' = port_admin_up st /\
  forall id, let p := asked registered (st_interfaces_cnt st) id (ports id) (st_phy_status st).[id - 1] in
    (st_phy_status st').[id - 1] = (if decide (i <= id < i + Z.of_nat n) then settled p else (st_phy_status st).[id - 1]) /\
    (st_intf_link st').[id - 1] = (if decide (i <= id < i + Z.of_nat n) then if decide (link p <> 0) then 1 else 0 else (st_intf_link st).[id - 1]).
Proof.
  induction n as [|n IH]; intros i st; cbn [update_from]; cbv zeta.
  - split_and!; try done; intros id; rewrite !decide_False by lia; done.
  - destruct (IH (i + 1) (update_one registered (ports i) i st)) as (E1 & E2 & E3 & E4 & E5 & E6). cbv zeta in E6.
    rewrite E1, E2, E3, E4, E5. split_and!; try done. intros id. destruct (E6 id) as [F1 F2]. rewrite F1, F2. clear E6 F1 F2.
    unfold update_one. cbn [st_phy_status st_intf_link st_interfaces_cnt with_phy]. rewrite !aget_aset.
    destruct (decide (i - 1 = id - 1)) as [Heq|Hne].
    + assert (id = i) as -> by lia. destruct (decide (i + 1 <= i < i + 1 + Z.of_nat n)); [lia|].
      destruct (decide (i <= i < i + Z.of_nat (S n))); [|lia]. split; reflexivity.
    + destruct (decide (i + 1 <= id < i + 1 + Z.of_nat n)), (decide (i <= id < i + Z.of_nat (S n))); try lia; split; reflexivity.
Qed.

(** After an update of the status: an interface whose port answers has the link, the
    speed and the largest packet the port says, speed and duplex being 0 while the link
    is down, and its entry of the table of links is the link; an interface whose port
    does not answer keeps its link; the entries behind the last interface are zero. *)
Theorem links_follow_card registered ports st id : 1 <= id <= MAX_INTERFACE_CNT ->
  let st' := (update_all_intf_phy_stat true registered ports st).1 in
  let p := (st_phy_status st).[id - 1] in let p' := (st_phy_status st').[id - 1] in
  (st_intf_link st').[id - 1] = (if decide (link p' <> 0) then 1 else 0) /\
  (link p' = 0 -> speed p' = 0 /\ duplex p' = 0) /\
  (st_interfaces_cnt st < id -> p' = zeroed) /\
  (id <= st_interfaces_cnt st -> forall port, registered = true -> ports id = Some port ->
     mtu p' = to_int (max_packet_bytes port) /\ (link p' <> 0 <-> link_status port <> 0) /\
     (link_status port <> 0 -> speed p' = to_int (link_speed port))) /\
  (id <= st_interfaces_cnt st -> registered = false \/ ports id = None -> link p' = link p /\ mtu p' = mtu p).
Proof.
  intros Hid. unfold update_all_intf_phy_stat. cbn [negb fst].
  destruct (update_from_spec registered ports (Z.to_nat MAX_INTERFACE_CNT) 1 st) as (_ & _ & _ & _ & _ & E).
  destruct (E id) as [E1 E2]. unfold MAX_INTERFACE_CNT in *. rewrite decide_True in E1 by lia. rewrite decide_True in E2 by lia. cbv zeta.
  rewrite E1, E2. clear E E1 E2. set (p := (st_phy_status st).[id - 1]). set (q := asked registered (st_interfaces_cnt st) id (ports id) p).
  assert (Hl : link (settled q) = link q) by (unfold settled; by case_decide). assert (Hm : mtu (settled q) = mtu q) by (unfold settled; by case_decide).
  rewrite Hl. split; [done|]. split; [intros H0; unfold settled; rewrite decide_True by done; done|]. split.
  - intros Hc. unfold q. by rewrite asked_behind.
  - split; intros Hc.
    + intros port -> Hp. rewrite Hm. unfold settled, q. rewrite Hp, asked_answers by lia. cbn. split; [done|].
      destruct (decide (link_status port <> 0)) as [Hs|Hs]; cbn; [|split; [split; intros ?; lia|intros ?; lia]].
      split; [split; [done|lia]|done].
    + intros Hno. rewrite Hm. unfold q. by rewrite asked_fails by (done || lia).
Qed.

(** ** The load balancer over the table *)

(** An interface of the action that is switched on and whose port has its link up. *)
Definition usable (admin : gmap Z Z) ports st (a : sf_action_t) (x : Z) : Prop :=
  1 <= x <= st_interfaces_cnt st /\ admin.[x - 1] <> 0 /\ (exists p, ports x = Some p /\ link_status p <> 0) /\
  exists i, 0 <= i < load_balance_interfaces_num a /\ (load_balance_interface_array a).[i] = x.

Lemma usable_up_member admin ports st a x : 0 <= st_interfaces_cnt st <= MAX_INTERFACE_CNT ->
  (forall i, 0 <= i < load_balance_interfaces_num a -> 1 <= (load_balance_interface_array a).[i]) ->
  (forall y, 1 <= y <= st_interfaces_cnt st -> ports y <> None) ->
  up_member (mk_status admin (st_intf_link (phy_tick true ports st))) a x <-> usable admin ports st a x.
Proof.
  intros Hc Harr Hall. unfold up_member, usable, intf_up, get_interface_admin_status, get_interface_link. cbn [admin_status intf_link].
  rewrite andb_true_iff, !negb_true_iff, !Z.eqb_neq.
  destruct (update_from_spec true ports (Z.to_nat MAX_INTERFACE_CNT) 1 st) as (_ & _ & _ & _ & _ & E). destruct (E x) as [_ El]. clear E.
  unfold phy_tick, update_all_intf_phy_stat. cbn [negb fst].
  split.
  - intros ((Ha & Hl) & i & Hi & Ex). pose proof (Harr i Hi) as Hx. rewrite Ex in Hx. case_decide as Hmax; [done|].
    rewrite El in Hl. unfold MAX_INTERFACE_CNT in *. rewrite decide_True in Hl by lia. case_decide as Hp; [|done].
    destruct (decide (x <= st_interfaces_cnt st)) as [Hcnt|Hcnt]; [|by rewrite asked_behind in Hp by lia].
    destruct (ports x) as [p|] eqn:Ep; [|by destruct (Hall x); [lia|]]. rewrite asked_answers in Hp by lia. split; [lia|]. split; [done|].
    split; [|by exists i]. exists p. split; [done|]. cbn in Hp. by destruct (decide (link_status p <> 0)).
  - intros (Hx & Ha & (p & Ep & Hs) & i & Hi & Ex). split; [|by exists i]. split; [done|]. unfold MAX_INTERFACE_CNT in *. rewrite decide_False by lia.
    rewrite El, decide_True by lia. rewrite Ep, asked_answers by lia. cbn. by destruct (decide (link_status p <> 0)).
Qed.

(** C32: From the ports to the packet: after an update that every port answered, the load
    balancer sends a packet to an interface of the action that is switched on and whose
    port has its link up, if there is one, and drops the packet if there is none, for
    an action of 1 to 63 interfaces with an index of one of them (in round robin) or a
    period of at most 64 choices (in the weighted mode) and an update flag other than
    0xFF. *)
Theorem balanced_over_live_links fuel admin ports st w a id rs :
  balance_ready fuel a -> (forall i, 0 <= i < load_balance_interfaces_num a -> 1 <= (load_balance_interface_array a).[i]) ->
  (update_flag rs).[id - 1] <> 0xFF -> 0 <= st_interfaces_cnt st <= MAX_INTERFACE_CNT ->
  (forall y, 1 <= y <= st_interfaces_cnt st -> ports y <> None) ->
  exists x a' rs', load_balance_interfaces fuel (mk_status admin (st_intf_link (phy_tick true ports st))) w a id rs = Some (x, a', rs') /\
    ((exists y, usable admin ports st a y) -> usable admin ports st a x) /\
    ((~ exists y, usable admin ports st a y) -> x = INVALID_INTERFACE_ID).
Proof.
  intros Hr Harr Hflag Hc Hall.
  destruct (load_balance_finds_up_aux fuel (mk_status admin (st_intf_link (phy_tick true ports st))) w a id rs Hr Hflag) as (x & a' & rs' & E & _ & Hup & Hno).
  exists x, a', rs'. split; [done|]. split.
  - intros (y & Hy). apply usable_up_member; [done..|]. apply Hup. exists y. by apply usable_up_member.
  - intros Hn. apply Hno. intros (y & Hy). apply Hn. exists y. by apply usable_up_member in Hy.
Qed.

(** ** The start *)

Lemma mac_loop_spec (hw : Z -> option hw_interface) n : (forall i h, hw i = Some h -> hw_sw_if_index h = i) -> forall i st, 0 <= i ->
  let st' := mac_loop hw n i st in
  st' = with_intf_mac (intf_mac st') st /\
  forall k, (intf_mac st').[k] = if decide (i <= k < i + Z.of_nat n) then
    match hw (k + 1) with Some h => if decide (hw_address h <> []) then take 6 (hw_address h) else (intf_mac st).[k] | None => (intf_mac st).[k] end
    else (intf_mac st).[k].
Proof.
  intros Hhw. induction n as [|n IH]; intros i st Hi; cbn [mac_loop]; cbv zeta.
  - split; [by destruct st|]. intros k. by rewrite decide_False by lia.
  - set (st1 := match hw (i + 1) with Some _ => _ | None => st end). destruct (IH (i + 1) st1 ltac:(lia)) as [E1 E2]. cbv zeta in E1, E2.
    assert (Hm : st1 = with_intf_mac (intf_mac st1) st) by (unfold st1; repeat case_match; by destruct st). split; [rewrite E1, Hm; done|].
    intros k. rewrite E2. destruct (decide (k = i)) as [->|Hne].
    + rewrite decide_False by lia. rewrite decide_True by lia. unfold st1. destruct (hw (i + 1)) as [h|] eqn:Eh; [|done].
      rewrite (Hhw _ _ Eh). destruct (decide (hw_address h <> [])).
      * rewrite decide_True by (split; [done|lia]). cbn. rewrite aget_aset. rewrite decide_True by lia. done.
      * by rewrite decide_False by naive_solver.
    + assert (Hk : (intf_mac st1).[k] = (intf_mac st).[k]).
      { unfold st1. destruct (hw (i + 1)) as [h|] eqn:Eh; [|done]. rewrite (Hhw _ _ Eh). case_decide; [|done]. cbn. apply aget_aset_ne. lia. }
      rewrite Hk. destruct (decide (i + 1 <= k < i + 1 + Z.of_nat n)); [rewrite decide_True by lia|rewrite decide_False by lia]; done.
Qed.

Lemma admin_loop_spec (hw : Z -> option hw_interface) n : (forall i h, hw i = Some h -> hw_sw_if_index h = i) -> forall i st,
  let st' := admin_loop hw n i st in
  st' = with_admin (port_admin_up st') st /\
  forall k, (port_admin_up st').[k] = if decide (i < k <= i + Z.of_nat n) then
    match hw k with Some _ => true | None => (port_admin_up st).[k] end else (port_admin_up st).[k].
Proof.
  intros Hhw. induction n as [|n IH]; intros i st; cbn [admin_loop]; cbv zeta.
  - split; [by destruct st|]. intros k. by rewrite decide_False by lia.
  - set (st1 := match hw (i + 1) with Some _ => _ | None => st end). destruct (IH (i + 1) st1) as [E1 E2]. cbv zeta in E1, E2.
    assert (Hm : st1 = with_admin (port_admin_up st1) st) by (unfold st1; case_match; by destruct st). split; [rewrite E1, Hm; done|].
    intros k. rewrite E2. destruct (decide (k = i + 1)) as [->|Hne].
    + rewrite decide_False by lia. rewrite decide_True by lia. unfold st1. destruct (hw (i + 1)) as [h|] eqn:Eh; [|done].
      rewrite (Hhw _ _ Eh). cbn. apply aget_aset_eq.
    + assert (Hk : (port_admin_up st1).[k] = (port_admin_up st).[k]).
      { unfold st1. destruct (hw (i + 1)) as [h|] eqn:Eh; [|done]. rewrite (Hhw _ _ Eh). cbn. apply aget_aset_ne. lia. }
      rewrite Hk. destruct (decide (i + 1 < k <= i + 1 + Z.of_nat n)); [rewrite decide_True by lia|rewrite decide_False by lia]; done.
Qed.

Lemma handoff_off_bit st k : 0 <= st_interfaces_cnt st -> 1 <= k <= st_interfaces_cnt st -> (dpdk_max_queue st).[k - 1] > 1 ->
  handoff_bit (handoff_off st) k = false.
Proof.
  intros Hc Hk Hq. unfold handoff_off. replace (seqZ 0 (st_interfaces_cnt st)) with (seqZ 0 (k - 1) ++ seqZ (k - 1) (st_interfaces_cnt st - (k - 1)))
    by (rewrite <- seqZ_app by lia; f_equal; lia). rewrite foldl_app. rewrite (seqZ_cons (k - 1)) by lia. cbn [foldl]. rewrite decide_True by lia.
  replace (k - 1 + 1) with k by lia. set (sw := sf_intf_set_handoff_status _ k false).
  assert (H0 : handoff_bit sw k = false) by (unfold sw; rewrite handoff_bit_set by lia; by rewrite decide_True by done).
  assert (Hl : forall l sw, (forall x, x ∈ l -> 0 <= x) -> handoff_bit sw k = false -> handoff_bit (foldl (fun sw i => if decide ((dpdk_max_queue st).[i] > 1) then
    sf_intf_set_handoff_status sw (i + 1) false else sw) sw l) k = false).
  { assert (H1 : 0 <= k) by lia. revert H1. clear. intros H1. induction l as [|x l IH]; intros sw Hx Hs; cbn [foldl]; [done|].
    pose proof (Hx x (list_elem_of_here _ _)). apply IH; [set_solver|]. destruct (decide (_ > 1)); [|done]. rewrite handoff_bit_set by lia. by case_decide. }
  apply Hl; [|done]. intros x Hx. apply elem_of_seqZ in Hx. lia.
Qed.
Lemma update_all_keeps registered ports st : exists st', update_all_intf_phy_stat true registered ports st = (st', 0) /\
  st_interfaces_cnt st' = st_interfaces_cnt st /\ handoff_switch st' = handoff_switch st /\ intf_mac st' = intf_mac st.
Proof.
  unfold update_all_intf_phy_stat. cbn [negb]. generalize (Z.to_nat MAX_INTERFACE_CNT). intros n.
  destruct (update_from_spec registered ports n 1 st) as (E1 & _ & E3 & E4 & _). by eexists.
Qed.

(** The start: every port has its address and is set up, a port with several queues is
    not handed off, the number of interfaces is that of the ports, and reception is open. *)
Theorem ports_started hw registered ports st : 0 < dpdk_port_cnt st -> (forall i h, hw i = Some h -> hw_sw_if_index h = i) ->
  let st' := update_intf_phy_stat_process hw registered ports st in
  dpdk_init_status st' = 1 /\ st_interfaces_cnt st' = dpdk_port_cnt st /\
  (forall i h, 1 <= i <= dpdk_port_cnt st -> hw i = Some h ->
     (port_admin_up st').[i] = true /\ (hw_address h <> [] -> (intf_mac st').[i - 1] = take 6 (hw_address h))) /\
  (forall i, 1 <= i <= dpdk_port_cnt st -> (dpdk_max_queue st).[i - 1] > 1 -> handoff_bit (handoff_switch st') i = false).
Proof.
  intros Hn Hhw. unfold update_intf_phy_stat_process. rewrite decide_False by lia. cbv zeta.
  set (n := Z.to_nat (dpdk_port_cnt st)). set (st1 := with_start (dpdk_init_status st) (dpdk_port_cnt st) (handoff_switch st) st).
  set (st2 := with_start (dpdk_init_status st1) (st_interfaces_cnt st1) (handoff_off st1) st1).
  destruct (mac_loop_spec hw n Hhw 0 st2 ltac:(lia)) as [Em Hm]. cbv zeta in Em, Hm. set (st3 := mac_loop hw n 0 st2) in *.
  destruct (update_all_keeps registered ports st3) as (st4 & -> & E1 & E3 & E4).
  destruct (admin_loop_spec hw n Hhw 0 st4) as [Ea Ha]. cbv zeta in Ea, Ha. set (st5 := admin_loop hw n 0 st4) in *.
  assert (Hcnt : st_interfaces_cnt st5 = dpdk_port_cnt st) by (rewrite Ea; cbn; rewrite E1, Em; done).
  assert (Hsw : handoff_switch st5 = handoff_off st1) by (rewrite Ea; cbn; rewrite E3, Em; done).
  assert (Hmac : intf_mac st5 = intf_mac st3) by (rewrite Ea; cbn; by rewrite E4).
  cbn [with_start dpdk_init_status st_interfaces_cnt port_admin_up intf_mac handoff_switch]. split; [done|]. split; [done|]. split.
  - intros i h Hi Eh. rewrite Ha, Hmac, Hm. rewrite !decide_True by (unfold n; lia). replace (i - 1 + 1) with i by lia. rewrite Eh.
    split; [done|]. intros Hne. by rewrite decide_True by done.
  - intros i Hi Hq. rewrite Hsw. apply handoff_off_bit; [cbn; lia|cbn; lia|exact Hq].
Qed.

(** After its first turn, which collects nothing, the process leaves the mark of a
    collection that is going on: the command of the automatic test is refused until
    the next turn. *)
Lemma sync_refused_after_first per_time threads cnt readings cnt' readings' (c : collector) : is_first_time c = true ->
  let c1 := calculate_interface_stat_process per_time threads true cnt readings c in
  sf_sync_intf_statics_fn per_time threads cnt' readings' c1 = (c1, false).
Proof. intros Hf. unfold calculate_interface_stat_process. rewrite Hf. done. Qed.

(** Two interfaces, the link of the first one down. *)
Definition demo_ports (i : Z) : option port_link := Some (mk_plink (if decide (i = 2) then 1 else 0) 10000 1 9000).
Definition demo_intf_state : intf_state := mk_is 1 ∅ 2 2 ∅ ∅ ∅ ∅ ∅.

Lemma links_follow_card_witness :
  let st' := (update_all_intf_phy_stat true true demo_ports demo_intf_state).1 in
  (st_intf_link st').[1] = 1 /\ mtu (st_phy_status st').[1] = 9000.
Proof.
  destruct (links_follow_card true demo_ports demo_intf_state 2 ltac:(unfold MAX_INTERFACE_CNT; lia)) as (H1 & _ & _ & H4 & _).
  destruct (H4 ltac:(cbn; lia) (mk_plink 1 10000 1 9000) eq_refl eq_refl) as (Hm & Hl & _). split; [|exact Hm].
  cbv zeta in H1. change (2 - 1) with 1 in H1. rewrite H1. rewrite decide_True; [reflexivity|]. apply Hl. cbn. lia.
Defined.

Lemma balanced_over_live_links_witness : exists x a' rs',
  load_balance_interfaces 1 (mk_status (list_to_map [(0, 1); (1, 1)]) (st_intf_link (phy_tick true demo_ports demo_intf_state))) demo_w
    (demo_action LOAD_BALANCE_MODE_ROUND_ROBIN 1 1) 1 demo_statics = Some (x, a', rs') /\
  usable (list_to_map [(0, 1); (1, 1)]) demo_ports demo_intf_state (demo_action LOAD_BALANCE_MODE_ROUND_ROBIN 1 1) x.
Proof.
  destruct (balanced_over_live_links 1 (list_to_map [(0, 1); (1, 1)]) demo_ports demo_intf_state demo_w _ 1 demo_statics demo_rr_ready) as (x & a' & rs' & E & Hup & _).
  - intros i Hi. revert i Hi. apply two_cases; vm_compute; congruence.
  - intros Hc. discriminate Hc.
  - cbn. unfold MAX_INTERFACE_CNT. lia.
  - intros y _ Hc. discriminate Hc.
  - exists x, a', rs'. split; [exact E|]. apply Hup. exists 2. split; [cbn; lia|]. split; [vm_compute; congruence|]. split.
    + eexists. split; [reflexivity|]. vm_compute. discriminate.
    + exists 1. split; [cbn; lia|reflexivity].
Defined.

Definition demo_hw (i : Z) : option hw_interface := Some (mk_hw i [2; 0; 0; 0; 0; i]).

Lemma ports_started_witness :
  let st' := update_intf_phy_stat_process demo_hw true demo_ports (mk_is 0 ∅ 2 0 ∅ ∅ ∅ ∅ ∅) in
  dpdk_init_status st' = 1 /\ (intf_mac st').[0] = [2; 0; 0; 0; 0; 1].
Proof.
  destruct (ports_started demo_hw true demo_ports (mk_is 0 ∅ 2 0 ∅ ∅ ∅ ∅ ∅) eq_refl) as (H1 & _ & H3 & _).
  - intros i h [= <-]. reflexivity.
  - split; [exact H1|]. destruct (H3 1 (mk_hw 1 [2; 0; 0; 0; 0; 1]) ltac:(cbn; lia) eq_refl) as [_ Hm]. apply Hm. discriminate.
Defined.
