(* ===== verification/IpReass.v ===== *)
(** * IP reassembly

    Models [src/ip_reass/nodes/ip4_reass.c], [ip6_reass.c], [ip_reass_on_timer.c],
    [include/ip_reass_timer.h] and [other/update_ip_reass_pkt.c] over the generic
    hash table: every fragment is hung on the list of its key's node until the
    lengths received add up to the datagram's, when the payloads are copied into
    a 16 KB buffer.  Buffers are addresses, packet bytes live in one memory and
    the answers of the allocators are arguments.  The IPv4 and IPv6 code differ
    in how they read the header and in the header bits they clear, so one body
    takes both. *)
From S2P Require Import Prelude GenericHash Wdata.

(** ** Data *)

Definition IP_REASS_MAX_CACHE_PKTS : Z := 10.

Record ip_reass_record_t := mk_rec {
  child_frag : Z;
  next_frag : Z;
  frag_offset : Z;
  frag_size : Z;
  ip_hdr_len : Z;
  rec_interface_id : Z;
  ip_reass_output : Z;
  followed_nodes_cnt : Z
}.

Record node_ip_reass_t := mk_nr {
  nr_key : list Z;
  nr_head : Z;
  nr_tail : Z;
  recv_new_pkt_in_interval : Z;
  cache_pkt_num : Z;
  recv_last_frag : Z;
  total_len : Z;
  meet_len : Z;
  nr_interface_id : Z
}.

Record vlib_buffer_t := mk_vb { sf_wdata : sf_wdata_t; ip_reass_record : ip_reass_record_t }.

Inductive reass_stat :=
| ip_reass_pkt_success | ip_reass_pkt_fail | ip_reass_success | ip_reass_fail
| ip_reass_fail_too_large | ip_reass_fail_too_many | ip_reass_timer_submit
| ip_reass_timer_delete | ip_reass_timer_timeout.

#[export] Instance zeroed_rec : Zeroed ip_reass_record_t := mk_rec 0 0 0 0 0 0 0 0.
#[export] Instance zeroed_vb : Zeroed vlib_buffer_t := mk_vb zeroed_wdata zeroed_rec.
#[export] Instance zeroed_nr : Zeroed node_ip_reass_t := mk_nr [] 0 0 0 0 0 0 0 0.

(** Buffers, packet bytes, the hash nodes with the table and the data behind
    them, the timers running (the node and the hash they were given) and the
    statistics counted, by interface. *)
Record reass_state := mk_rs {
  bufs : gmap Z vlib_buffer_t;
  mem : gmap Z Z;
  nodes : gmap Z generic_node_t;
  table_ip_reass : generic_hash_t;
  rdata : gmap Z node_ip_reass_t;
  timers : list (Z * Z);
  stats : list (Z * reass_stat)
}.

Implicit Types (st : reass_state) (r : ip_reass_record_t) (d : node_ip_reass_t).

Definition set_bufs B st := mk_rs B (mem st) (nodes st) (table_ip_reass st) (rdata st) (timers st) (stats st).
Definition set_mem m st := mk_rs (bufs st) m (nodes st) (table_ip_reass st) (rdata st) (timers st) (stats st).
Definition set_table N h st := mk_rs (bufs st) (mem st) N h (rdata st) (timers st) (stats st).
Definition set_rdata x d st :=
  mk_rs (bufs st) (mem st) (nodes st) (table_ip_reass st) (rdata st).[x <- d] (timers st) (stats st).
Definition set_timers t st := mk_rs (bufs st) (mem st) (nodes st) (table_ip_reass st) (rdata st) t (stats st).
Definition update_ip_reass_stat (i : Z) (s : reass_stat) st :=
  mk_rs (bufs st) (mem st) (nodes st) (table_ip_reass st) (rdata st) (timers st) (stats st ++ [(i, s)]).

Definition set_rec (b : Z) r st := set_bufs (bufs st).[b <- mk_vb (sf_wdata (bufs st).[b]) r] st.
Definition set_wdata (b : Z) w st := set_bufs (bufs st).[b <- mk_vb w (ip_reass_record (bufs st).[b])] st.

Definition set_next_frag (v : Z) r :=
  mk_rec (child_frag r) v (frag_offset r) (frag_size r) (ip_hdr_len r) (rec_interface_id r)
    (ip_reass_output r) (followed_nodes_cnt r).
Definition set_followed (v : Z) r :=
  mk_rec (child_frag r) (next_frag r) (frag_offset r) (frag_size r) (ip_hdr_len r) (rec_interface_id r)
    (ip_reass_output r) v.

(** ** Timers *)

(** [info] is the timer-information pool's answer, [submit_ret] the wheel's. *)
Definition ip_reass_submit_timer (info submit_ret pnode hash_index : Z) (ts : list (Z * Z)) :
    list (Z * Z) * Z :=
  if decide (info = 0) then (ts, -1)
  else if decide (submit_ret <> 0) then (ts, -1)
  else (ts ++ [(pnode, hash_index)], 0).

(** The timer is taken off the wheel or, when it is already expiring, loses its
    node ([pnode == NULL] in [sf_ip_reass_timer_node]). *)
Definition ip_reass_delete_timer (pnode : Z) (ts : list (Z * Z)) : list (Z * Z) :=
  filter (fun t => fst t <> pnode) ts.

(** ** Reading the headers *)

Record frag_view := mk_view { fv_offset : Z; fv_last : bool; fv_key : list Z }.

Definition key_bytes (sip dip : ip_addr_t) (ip_id ip_layer : Z) : list Z :=
  le_bytes 8 (addr_v6_upper sip) ++ le_bytes 8 (addr_v6_lower sip) ++
  le_bytes 8 (addr_v6_upper dip) ++ le_bytes 8 (addr_v6_lower dip) ++
  le_bytes 4 ip_id ++ le_bytes 4 ip_layer.

Definition ip4_view (m : gmap Z Z) (w : sf_wdata_t) : frag_view :=
  let p := sf_wqe_get_current w in
  mk_view (get_ip4_hdr_offset m p)
    (Z.land (get_ip4_hdr_flag m p) IPV4_FLAGS_MORE_FRAG_MASK =? 0)
    (key_bytes (mk_addr (ip4_src_ip m p) 0) (mk_addr (ip4_dst_ip m p) 0) (ip4_id m p) (ip_wdata_cnt w)).

Definition ip6_frag_ptr (w : sf_wdata_t) (hdr_len : Z) : Z :=
  sf_wqe_get_current w + hdr_len - IPV6_FRAG_HEADER_LEN.

Definition ip6_view (m : gmap Z Z) (w : sf_wdata_t) : frag_view :=
  let p := ip6_frag_ptr w (header_len (ip_wdata w)) in
  mk_view (get_ip6_frag_offset m p) (ip6f_flags m p =? 0)
    (key_bytes (ip_sip (ip_wdata w)) (ip_dip (ip_wdata w)) (ip6f_ident m p) (ip_wdata_cnt w)).

(** The header of the reassembled packet no longer is a fragment's. *)
Definition ip4_clear (m : gmap Z Z) (w : sf_wdata_t) (hdr_len : Z) : gmap Z Z :=
  let p := sf_wqe_get_current w in m.[p + 6 <- 0].[p + 7 <- 0].
Definition ip6_clear (m : gmap Z Z) (w : sf_wdata_t) (hdr_len : Z) : gmap Z Z :=
  let p := ip6_frag_ptr w hdr_len in m.[p + 3 <- Z.land m.[p + 3] 6].[p + 2 <- 0].

(** ** Building the packet *)

Section reass.
Context `{ByteHash} `{Vlib}.

Definition store16 (m : gmap Z Z) (p v : Z) : gmap Z Z := m.[p <- v mod 256].[p + 1 <- v / 256 mod 256].

(** [update_ip_reass_pkt] *)
Definition update_ip_reass_pkt (b : Z) st : reass_state :=
  let w := sf_wdata (bufs st).[b] in
  let p := sf_wqe_get_current w in
  let i := ip_wdata w in
  if decide (version i = IP_VERSION_4) then
    let m := store16 (mem st) (p + 2) (bswap16 (u16 (header_len i + payload_len i))) in
    set_mem (store16 m (p + 10) (ip4_header_checksum m p)) st
  else
    set_mem (store16 (mem st) (p + 4)
               (bswap16 (u16 (header_len i + payload_len i - IPV6_HEADER_LEN)))) st.

(** The [while] loop that copies the payloads. *)
Fixpoint copy_loop (fuel : nat) (ip_reass_b0 dptr tmp : Z) st : option reass_state :=
  match fuel with
  | O => None
  | S fuel =>
      if decide (tmp = 0) then Some st
      else
        let rt := ip_reass_record (bufs st).[tmp] in
        let wt := sf_wdata (bufs st).[tmp] in
        let w := sf_wdata (bufs st).[ip_reass_b0] in
        let st := set_wdata ip_reass_b0 (with_current (current_data w)
                    (u16 (current_length w + frag_size rt)) w) st in
        let st := set_mem (memcpy (mem st) (dptr + frag_offset rt)
                    (sf_wqe_get_current wt + ip_hdr_len rt) (Z.to_nat (frag_size rt))) st in
        let rb := ip_reass_record (bufs st).[ip_reass_b0] in
        let st := set_rec ip_reass_b0
                    (set_followed (u8 (followed_nodes_cnt rb + (followed_nodes_cnt rt + 1))) rb) st in
        copy_loop fuel ip_reass_b0 dptr (next_frag (ip_reass_record (bufs st).[tmp])) st
  end.

Definition set_payload_len (v : Z) (i : ip_wdata_t) : ip_wdata_t :=
  mk_ipw (ip_offset i) (version i) (protocol i) (header_len i) v (ip_sip i) (ip_dip i) (is_frag i) 1.

(** [ip4_frag_build_pkt] and [ip6_frag_build_pkt]; [huge] is the answer of the
    16 KB pool, [vb] that of the buffer allocator.  [alloc_huge_pkt_16k] adds the
    head room before the caller compares with NULL. *)
Definition frag_build_pkt (clear : gmap Z Z -> sf_wdata_t -> Z -> gmap Z Z) (fuel : nat)
    (huge vb ret_buffer ret_status : Z) st : option (reass_state * Z * Z) :=
  let data_ptr := huge + SF_HUGE_PKT_PRE_DATA_SIZE in
  if decide (data_ptr = 0) then Some (st, ret_buffer, ret_status)
  else if decide (vb = 0) then Some (st, ret_buffer, ret_status)
  else
    let tmp := ret_buffer in
    let wt := sf_wdata (bufs st).[tmp] in
    let flags := Z.lor (Z.lor (unused8 wt) UNUSED8_FLAG_IP_REASS_PKT) UNUSED8_PKT_HUGE_PKT_WITH_WDATA in
    let w := with_buffer flags data_ptr wt in
    (* copy data before ip *)
    let m := memcpy (mem st) data_ptr (Wdata.data_ptr wt) (Z.to_nat (current_data wt)) in
    (* copy ip head *)
    let hlen := ip_hdr_len (ip_reass_record (bufs st).[tmp]) in
    let m := memcpy m (sf_wqe_get_current w) (sf_wqe_get_current wt) (Z.to_nat hlen) in
    let m := clear m w hlen in
    let w := sf_wqe_advance hlen w in
    let dptr := sf_wqe_get_current w in
    let w := with_current (current_data w) 0 w in
    let st := set_mem m (set_wdata vb w st) in
    let st := set_rec vb (set_followed 0 (ip_reass_record (bufs st).[vb])) st in
    let? st := copy_loop fuel vb dptr tmp st in
    let w := sf_wdata (bufs st).[vb] in
    let st := set_wdata vb (with_ip_wdata (set_payload_len (current_length w) (ip_wdata w)) w) st in
    let rh := ip_reass_record (bufs st).[ret_buffer] in
    let rb := ip_reass_record (bufs st).[vb] in
    let st := set_rec vb (mk_rec (child_frag rb) (next_frag rb) (frag_offset rb) (frag_size rb)
                (ip_hdr_len rb) (rec_interface_id rh) (ip_reass_output rh) (followed_nodes_cnt rb)) st in
    let st :=
      if decide (ip_reass_output rh <> 0) then
        let st := set_wdata vb (sf_wqe_advance (- hlen) (sf_wdata (bufs st).[vb])) st in
        let st := update_ip_reass_pkt vb st in
        set_wdata vb (sf_wqe_advance hlen (sf_wdata (bufs st).[vb])) st
      else st in
    let rb := ip_reass_record (bufs st).[vb] in
    let st := set_rec vb (mk_rec ret_buffer 0 (frag_offset rb) (frag_size rb) (ip_hdr_len rb)
                (rec_interface_id rb) (ip_reass_output rb) (followed_nodes_cnt rb)) st in
    Some (st, vb, 0).

Definition ip4_frag_build_pkt := frag_build_pkt ip4_clear.
Definition ip6_frag_build_pkt := frag_build_pkt ip6_clear.

(** ** One fragment *)

(** The answers of the allocators and of the timing wheel in one call. *)
Record answers := mk_answers {
  an_node : Z;
  an_timer_info : Z;
  an_timer_submit : Z;
  an_huge : Z;
  an_vb : Z
}.

(** The module's configuration: layers to reassemble and whether to output the
    reassembled packet, by interface. *)
Record ip_reass_config := mk_config { ip_reass_layers : gmap Z Z; ip_reass_output_enable : gmap Z Z }.

(** The search for a fragment with the same offset. *)
Fixpoint dup_loop (fuel : nat) (B : gmap Z vlib_buffer_t) (offset tmp : Z) : option bool :=
  match fuel with
  | O => None
  | S fuel =>
      if decide (tmp = 0) then Some false
      else if decide (frag_offset (ip_reass_record B.[tmp]) = offset) then Some true
      else dup_loop fuel B offset (next_frag (ip_reass_record B.[tmp]))
  end.

(** The record of an arriving fragment. *)
Definition init_record (cfg : ip_reass_config) (v : frag_view) (w : sf_wdata_t) r : ip_reass_record_t :=
  mk_rec (child_frag r) 0 (u16 (Z.shiftl (fv_offset v) 3)) (payload_len (ip_wdata w))
    (header_len (ip_wdata w)) (Z.land (interface_id w) 0xFF)
    (ip_reass_output_enable cfg).[interface_id w - 1]
    (if decide (Z.land (unused8 w) UNUSED8_FLAG_IP_REASS_PKT = 0) then 0 else followed_nodes_cnt r).

(** Stop the timer and take the node out of the table. *)
Definition drop_node (pnode hash_index : Z) st : reass_state :=
  let st := set_timers (ip_reass_delete_timer pnode (timers st)) st in
  let '(N, h) := hashFreeNode (nodes st) (table_ip_reass st) pnode hash_index in
  set_table N h st.

(** The branch on a node that exists. *)
Definition frag_append (clear : gmap Z Z -> sf_wdata_t -> Z -> gmap Z Z) (fuel : nat)
    (v : frag_view) (b0 pnode hash_index : Z) (an : answers) st : option (reass_state * Z * Z) :=
  let d := (rdata st).[pnode] in
  let r := ip_reass_record (bufs st).[b0] in
  let? dup := dup_loop fuel (bufs st) (frag_offset r) (nr_head d) in
  if (dup : bool) then Some (st, b0, 1)
  else
    (* append to pkt list *)
    let st := set_rec (nr_tail d) (set_next_frag b0 (ip_reass_record (bufs st).[nr_tail d])) st in
    let cache := u8 (cache_pkt_num d + 1) in
    let d := mk_nr (nr_key d) (nr_head d) b0 (recv_new_pkt_in_interval d) cache (recv_last_frag d)
               (total_len d) (meet_len d) (nr_interface_id d) in
    let st := set_rdata pnode d st in
    if decide (IP_REASS_MAX_CACHE_PKTS <= cache) then
      let st := drop_node pnode hash_index st in
      let st := update_ip_reass_stat (rec_interface_id r) ip_reass_timer_delete st in
      Some (update_ip_reass_stat (rec_interface_id r) ip_reass_fail_too_many st, nr_head d, cache)
    else
      let d := if fv_last v then
                 mk_nr (nr_key d) (nr_head d) (nr_tail d) (recv_new_pkt_in_interval d) cache 1
                   (u16 (frag_offset r + frag_size r)) (meet_len d) (nr_interface_id d)
               else d in
      let st := set_rdata pnode d st in
      if fv_last v && (SF_HUGE_PKT_MAX_DATA_SIZE <? total_len d + current_data (sf_wdata (bufs st).[b0]))
      then
        let st := drop_node pnode hash_index st in
        let st := update_ip_reass_stat (rec_interface_id r) ip_reass_timer_delete st in
        Some (update_ip_reass_stat (rec_interface_id r) ip_reass_fail_too_large st, nr_head d, cache)
      else
        let meet := u16 (meet_len d + frag_size r) in
        let done := decide (meet = total_len d) in
        let d := mk_nr (nr_key d) (nr_head d) (nr_tail d)
                   (if done then recv_new_pkt_in_interval d else 1) cache (recv_last_frag d)
                   (total_len d) meet (nr_interface_id d) in
        let st := set_rdata pnode d st in
        if done then
          let st := drop_node pnode hash_index st in
          let? (st, ret_buffer, ret_status) :=
            frag_build_pkt clear fuel (an_huge an) (an_vb an) (nr_head d) cache st in
          Some (update_ip_reass_stat (rec_interface_id r) ip_reass_timer_delete st, ret_buffer, ret_status)
        else Some (st, 0, 0).

(** The branch on a key that is not in the table. *)
Definition frag_first (v : frag_view) (b0 hash_index : Z) (an : answers) st : reass_state * Z * Z :=
  let r := ip_reass_record (bufs st).[b0] in
  let pnode := an_node an in
  if decide (pnode = 0) then (st, b0, 1)
  else
    let d := mk_nr (fv_key v) 0 0 0 0 0 0 0 0 in
    let st := set_rdata pnode d st in
    let '(N, h) := hashInsertNode (nodes st) (table_ip_reass st) hash_index pnode in
    let st := set_table N h st in
    let '(ts, ret) := ip_reass_submit_timer (an_timer_info an) (an_timer_submit an) pnode hash_index
                        (timers st) in
    if decide (ret <> 0) then
      let '(N, h) := hashFreeNode (nodes st) (table_ip_reass st) pnode hash_index in
      (set_table N h st, b0, 1)
    else
      let st := update_ip_reass_stat (rec_interface_id r) ip_reass_timer_submit (set_timers ts st) in
      let st := set_rec b0 (set_next_frag 0 r) st in
      let total := if fv_last v then u16 (frag_offset r + frag_size r) else 0 in
      let d := mk_nr (fv_key v) b0 b0 0 0 (if fv_last v then 1 else 0) total
                 (u16 (0 + frag_size r)) (rec_interface_id r) in
      (set_rdata pnode d st, 0, 0).

(** [ip4_frag_proc] and [ip6_frag_proc]: the new state, [*ret_buffer] and
    [*ret_status]. *)
Definition frag_proc (view : gmap Z Z -> sf_wdata_t -> frag_view)
    (clear : gmap Z Z -> sf_wdata_t -> Z -> gmap Z Z) (fuel : nat) (cfg : ip_reass_config)
    (b0 : Z) (an : answers) st : option (reass_state * Z * Z) :=
  let w := sf_wdata (bufs st).[b0] in
  let v := view (mem st) w in
  let st := set_rec b0 (init_record cfg v w (ip_reass_record (bufs st).[b0])) st in
  if decide ((ip_reass_layers cfg).[interface_id w - 1] < ip_wdata_cnt w) then Some (st, b0, -1)
  else
    let hash_index := byte_hash (fv_key v) in
    let? pnode := hashFindNode_memcmp fuel (nodes st) (table_ip_reass st) hash_index (fv_key v)
                    (fun x => nr_key (rdata st).[x]) in
    if decide (pnode <> 0) then frag_append clear fuel v b0 pnode hash_index an st
    else Some (frag_first v b0 hash_index an st).

Definition ip4_frag_proc := frag_proc ip4_view ip4_clear.
Definition ip6_frag_proc := frag_proc ip6_view ip6_clear.
End reass.
