(* ===== verification/ReassConfig.v ===== *)
(** * The settings of the reassembly

    [nshell-lib/sf_plugin_api/ip_reass_api.c] over [SF_CONF_T] of
    [sf_ip_reass_shm.h], as the bytes it has in the shared memory, because the
    setters index its arrays without a check. *)
From S2P Require Import Prelude Wdata IpReass.

Implicit Types (mem : gmap Z Z).

Definition IP_REASS_NODE_INIT_SIZE : Z := 10000.
Definition IP_REASS_DEFAULT_HASH_NODE_NUM : Z := 0x7fffffff.
Definition IP_REASS_DEFAULT_HASH_SIZE : Z := 1024 * 1024.
Definition IP_REASS_DEFAULT_MAX_LAYERS : Z := 1.
Definition IP_REASS_DEFAULT_OUTPUT_DISABLE : Z := 0.
Definition IP_REASS_DEFAULT_TIMEOUT_SEC : Z := 3.
Definition hashsize_off : Z := 0.
Definition maxnum_off : Z := 4.
Definition pool_size_off : Z := 8.
Definition timeout_off : Z := 12.
Definition layers_off : Z := 16.
Definition output_off : Z := layers_off + MAX_INTERFACE_CNT.
(** Aligned to 8. *)
Definition SF_CONF_SIZE : Z := 144.

(** [conf] is the pointer to the settings; 0 is null. *)
Fixpoint layers_loop (n : nat) (i conf : Z) mem : gmap Z Z :=
  match n with
  | O => mem
  | S n =>
      layers_loop n (i + 1) conf
        mem.[conf + layers_off + i <- IP_REASS_DEFAULT_MAX_LAYERS].[conf + output_off + i <- IP_REASS_DEFAULT_OUTPUT_DISABLE]
  end.
Definition ip_reass_init_config (conf : Z) mem : gmap Z Z * Z :=
  if decide (conf = 0) then (mem, -1)
  else
    let mem := poke mem conf (repeat 0 (Z.to_nat SF_CONF_SIZE)) in
    let mem := poke mem (conf + hashsize_off) (le_bytes 4 IP_REASS_DEFAULT_HASH_SIZE) in
    let mem := poke mem (conf + maxnum_off) (le_bytes 4 IP_REASS_DEFAULT_HASH_NODE_NUM) in
    let mem := poke mem (conf + pool_size_off) (le_bytes 4 IP_REASS_NODE_INIT_SIZE) in
    let mem := poke mem (conf + timeout_off) (le_bytes 4 IP_REASS_DEFAULT_TIMEOUT_SEC) in
    (layers_loop (Z.to_nat MAX_INTERFACE_CNT) 0 conf mem, 0).

Definition ip_reass_set_max_layer (interface_id layers conf : Z) mem : gmap Z Z * Z :=
  if decide (conf = 0) then (mem, -1) else (mem.[conf + layers_off + (interface_id - 1) <- Z.land layers 0xff], 0).
Definition ip_reass_get_max_layer (interface_id conf : Z) mem : Z :=
  if decide (conf = 0) then -1 else mem.[conf + layers_off + (interface_id - 1)].
Definition ip_reass_set_reass_output (interface_id enable conf : Z) mem : gmap Z Z * Z :=
  if decide (conf = 0) then (mem, -1)
  else (mem.[conf + output_off + (interface_id - 1) <- if decide (enable <> 0) then 1 else 0], 0).
Definition ip_reass_get_reass_output (interface_id conf : Z) mem : Z :=
  if decide (conf = 0) then -1 else mem.[conf + output_off + (interface_id - 1)].

(** The node reads the same bytes. *)
Definition reads_config (conf : Z) mem (cfg : ip_reass_config) : Prop :=
  forall i, 0 <= i < MAX_INTERFACE_CNT ->
    (ip_reass_layers cfg).[i] = mem.[conf + layers_off + i] /\ (ip_reass_output_enable cfg).[i] = mem.[conf + output_off + i].

(** ** Setters and the node *)

Lemma layers_loop_spec n : forall i conf mem, 0 <= i -> i + Z.of_nat n <= MAX_INTERFACE_CNT -> forall j, 0 <= j < MAX_INTERFACE_CNT ->
  (layers_loop n i conf mem).[conf + layers_off + j] =
    (if decide (i <= j < i + Z.of_nat n) then IP_REASS_DEFAULT_MAX_LAYERS else mem.[conf + layers_off + j]) /\
  (layers_loop n i conf mem).[conf + output_off + j] =
    (if decide (i <= j < i + Z.of_nat n) then IP_REASS_DEFAULT_OUTPUT_DISABLE else mem.[conf + output_off + j]).
Proof.
  induction n as [|n IH]; intros i conf mem Hi Hn j Hj; cbn [layers_loop].
  - by rewrite !decide_False by lia.
  - destruct (IH (i + 1) conf mem.[conf + layers_off + i <- IP_REASS_DEFAULT_MAX_LAYERS].[conf + output_off + i <- IP_REASS_DEFAULT_OUTPUT_DISABLE]
      ltac:(lia) ltac:(lia) j Hj) as [-> ->]. unfold output_off, layers_off, MAX_INTERFACE_CNT in *. rewrite !aget_aset.
    split; repeat case_decide; try lia; done.
Qed.

(** What the settings call stores for an interface is what the reassembly node
    uses for it, and for no other interface. *)
Theorem layers_reach_node interface_id layers conf mem cfg mem' ret : conf <> 0 -> 1 <= interface_id <= MAX_INTERFACE_CNT ->
  reads_config conf mem cfg -> ip_reass_set_max_layer interface_id layers conf mem = (mem', ret) ->
  ret = 0 /\ ip_reass_get_max_layer interface_id conf mem' = layers mod 256 /\
  reads_config conf mem' (mk_config (ip_reass_layers cfg).[interface_id - 1 <- layers mod 256] (ip_reass_output_enable cfg)).
Proof.
  intros Hc Hid Hr E. unfold ip_reass_set_max_layer in E. rewrite decide_False in E by done. injection E as <- <-. split; [done|].
  rewrite land_255. unfold ip_reass_get_max_layer. rewrite decide_False by done. rewrite aget_aset_eq. split; [done|].
  intros i Hi. cbn [ip_reass_layers ip_reass_output_enable]. destruct (Hr i Hi) as [H1 H2].
  unfold output_off, layers_off, MAX_INTERFACE_CNT in *. rewrite !aget_aset, H1, H2. split; repeat case_decide; try lia; done.
Qed.

(** Interface 0 is not refused: its number of layers becomes the top byte of the
    timeout. *)
Theorem layers_of_0_change_timeout layers conf mem : conf <> 0 ->
  le_at (fst (ip_reass_set_max_layer 0 layers conf mem)) (conf + timeout_off) 4 =
    le_at mem (conf + timeout_off) 3 + 2 ^ 24 * (layers mod 256).
Proof.
  intros Hc. unfold ip_reass_set_max_layer. rewrite decide_False by done. cbn [fst]. rewrite land_255, !le_at_S.
  unfold timeout_off, layers_off. rewrite !aget_aset. rewrite !decide_False by lia. rewrite decide_True by lia.
  change (le_at ?m ?a 0) with 0. lia.
Qed.

(** After the initialiser, one layer is reassembled on every interface and none is
    output. *)
Theorem init_reass_defaults conf mem mem' ret : conf <> 0 -> ip_reass_init_config conf mem = (mem', ret) ->
  ret = 0 /\ forall id, 1 <= id <= MAX_INTERFACE_CNT ->
    ip_reass_get_max_layer id conf mem' = IP_REASS_DEFAULT_MAX_LAYERS /\
    ip_reass_get_reass_output id conf mem' = IP_REASS_DEFAULT_OUTPUT_DISABLE.
Proof.
  intros Hc E. unfold ip_reass_init_config in E. rewrite decide_False in E by done.
  pose proof (f_equal fst E) as E1. pose proof (f_equal snd E) as E2. clear E. cbn [fst snd] in E1, E2. split; [done|]. intros id Hid.
  unfold ip_reass_get_max_layer, ip_reass_get_reass_output. rewrite !decide_False by done. rewrite <- E1.
  match goal with |- (layers_loop _ _ _ ?m).[_] = _ /\ _ =>
    destruct (layers_loop_spec (Z.to_nat MAX_INTERFACE_CNT) 0 conf m ltac:(lia) ltac:(unfold MAX_INTERFACE_CNT; lia) (id - 1) ltac:(lia)) as [-> ->] end.
  rewrite !decide_True by (rewrite Z2Nat.id; unfold MAX_INTERFACE_CNT in *; lia). done.
Qed.
