(* ===== verification/IpReassSplit.v ===== *)
(** * Giving fragments back one by one

    Models [src/ip_reass/include/ip_reass_tools.h] (a failed or timed-out
    reassembly), [nodes/ip_reass_forward.c] (the fragments of a reassembled packet
    follow its verdict), the frame loop of [nodes/ip4_reass.c] and
    [nodes/ip_reass_on_timer.c].  Fragments form a forest of first-child and
    next-sibling links; each buffer knows how many buffers are below it, and the
    code lays the forest out in an array without recursion. *)
From S2P Require Import Prelude GenericHash Wdata IpReass.

(** ** The layout loop *)

Definition update_frag_wdata (frag_wdata reass_wdata : sf_wdata_t) : sf_wdata_t :=
  with_layers (ip_wdata_cnt reass_wdata) (l4_wdata_cnt reass_wdata) (vlan_wdata_cnt reass_wdata)
    (vlan_wdatas reass_wdata) (ip_wdata reass_wdata) (l4_wdata reass_wdata) frag_wdata.

(** The brother and the child of the buffer at [pos] are put where their
    subtrees start; the result counts them. *)
Definition place_relatives (tmp : vlib_buffer_t) (pos : Z) (arr : gmap Z Z) : gmap Z Z * Z :=
  let r := ip_reass_record tmp in
  let '(arr, cnt) :=
    if decide (next_frag r <> 0)
    then (arr.[pos + followed_nodes_cnt r + 1 <- next_frag r], 1) else (arr, 0) in
  if is_reass_pkt (sf_wdata tmp) then (arr.[pos + 1 <- child_frag r], cnt + 1) else (arr, cnt).

(** The loop of [split_frag_buffer_on_fail]; the caller passes the array and the
    next nodes from position [base] on. *)
Fixpoint split_fail_loop (fuel : nat) (base b0 iface frag_next next_drop pre_index count : Z)
    (arr nexts : gmap Z Z) (st : reass_state) : option (reass_state * gmap Z Z * gmap Z Z * Z) :=
  match fuel with
  | O => None
  | S fuel =>
      if decide (pre_index = count) then Some (st, arr, nexts, count)
      else
        let tmp := arr.[base + pre_index] in
        let vb := (bufs st).[tmp] in
        let '(arr, cnt) := place_relatives vb (base + pre_index) arr in
        let count := count + cnt in
        if is_reass_pkt (IpReass.sf_wdata vb) then
          split_fail_loop fuel base b0 iface frag_next next_drop (pre_index + 1) count arr
            nexts.[base + pre_index <- next_drop] st
        else
          let w := if decide (pre_index <> 0)
                   then update_frag_wdata (IpReass.sf_wdata vb) (IpReass.sf_wdata (bufs st).[b0])
                   else IpReass.sf_wdata vb in
          let st := set_wdata tmp (sf_wqe_reset w) st in
          let st := update_ip_reass_stat iface ip_reass_pkt_fail st in
          split_fail_loop fuel base b0 iface frag_next next_drop (pre_index + 1) count arr
            nexts.[base + pre_index <- frag_next] st
  end.

Definition split_frag_buffer_on_fail (fuel : nat) (base b0 iface frag_next next_drop : Z)
    (arr nexts : gmap Z Z) (st : reass_state) : option (reass_state * gmap Z Z * gmap Z Z * Z) :=
  split_fail_loop fuel base b0 iface frag_next next_drop 0 1 arr.[base + 0 <- b0] nexts st.

Definition FORWARD_NEXT_ACTION_ENTRY : Z := 0.
Definition FORWARD_NEXT_PKT_DROP : Z := 1.

(** The loop of [split_frag_buffer], which knows the number of buffers. *)
Fixpoint split_loop (fuel : nat) (b0 iface frag_next pre_index count : Z)
    (arr nexts : gmap Z Z) (st : reass_state) : option (reass_state * gmap Z Z * gmap Z Z) :=
  match fuel with
  | O => None
  | S fuel =>
      if decide (pre_index = count) then Some (st, arr, nexts)
      else
        let tmp := arr.[pre_index] in
        let vb := (bufs st).[tmp] in
        let '(arr, _) := place_relatives vb pre_index arr in
        if is_reass_pkt (IpReass.sf_wdata vb) then
          split_loop fuel b0 iface frag_next (pre_index + 1) count arr
            nexts.[pre_index <- FORWARD_NEXT_PKT_DROP] st
        else
          let w0 := IpReass.sf_wdata (bufs st).[b0] in
          let w := with_arg (arg_to_next w0) (update_frag_wdata (IpReass.sf_wdata vb) w0) in
          let st := set_wdata tmp (sf_wqe_reset w) st in
          let st := update_ip_reass_stat iface ip_reass_pkt_success st in
          split_loop fuel b0 iface frag_next (pre_index + 1) count arr
            nexts.[pre_index <- frag_next] st
  end.

Definition split_frag_buffer (fuel : nat) (b0 : Z) (arr nexts : gmap Z Z) (st : reass_state) :
    option (reass_state * gmap Z Z * gmap Z Z * Z) :=
  let vb := (bufs st).[b0] in
  let arr := arr.[0 <- b0] in
  let frag_next := if decide (arg_to_next (IpReass.sf_wdata vb) = 0) then FORWARD_NEXT_PKT_DROP
                   else FORWARD_NEXT_ACTION_ENTRY in
  let count := followed_nodes_cnt (ip_reass_record vb) + 1 in
  let iface := rec_interface_id (ip_reass_record vb) in
  let? (st, arr, nexts) := split_loop fuel b0 iface frag_next 0 count arr nexts st in
  let st := update_ip_reass_stat iface ip_reass_success st in
  let nexts := if decide (ip_reass_output (ip_reass_record (bufs st).[b0]) <> 0)
               then nexts.[0 <- frag_next] else nexts in
  Some (st, arr, nexts, count).

(** ** The frame loops *)

Definition SF_NEXT_NODE_SF_ACL_ENTRY : Z := 0.
Definition SF_NEXT_NODE_UDP_INPUT : Z := 1.
Definition SF_NEXT_NODE_TCP_INPUT : Z := 2.
Definition SF_NEXT_NODE_SF_PKT_DROP : Z := 3.

Definition sf_ip_reass_get_next_index (ip_protocol : Z) : Z :=
  if decide (ip_protocol = IP_PRO_TCP) then SF_NEXT_NODE_TCP_INPUT
  else if decide (ip_protocol = IP_PRO_UDP) then SF_NEXT_NODE_UDP_INPUT
  else SF_NEXT_NODE_SF_ACL_ENTRY.

(** [vlib_buffer_enqueue_to_next]: the first [n] buffers with their next nodes. *)
Definition enqueued (arr nexts : gmap Z Z) (n : Z) : list (Z * Z) :=
  map (fun i => (arr.[i], nexts.[i])) (seqZ 0 n).

Section nodes.
Context `{ByteHash} `{Vlib}.

(** The state of the frame loop: the buffers collected and what was enqueued. *)
Record frame_state := mk_fs {
  fs_st : reass_state;
  fs_arr : gmap Z Z;
  fs_nexts : gmap Z Z;
  fs_pre : Z;
  fs_out : list (Z * Z)
}.

Definition flush (f : frame_state) : frame_state :=
  mk_fs (fs_st f) (fs_arr f) (fs_nexts f) 0 (fs_out f ++ enqueued (fs_arr f) (fs_nexts f) (fs_pre f)).

Definition push (b nxt : Z) (f : frame_state) : frame_state :=
  mk_fs (fs_st f) (fs_arr f).[fs_pre f <- b] (fs_nexts f).[fs_pre f <- nxt] (fs_pre f + 1) (fs_out f).

(** What the loop does with one packet's outcome. *)
Definition frame_handle (fuel : nat) (b0 ret_status : Z) (f : frame_state) : option frame_state :=
  if decide (ret_status = 0 /\ b0 <> 0) then
    Some (push b0 (sf_ip_reass_get_next_index
                     (protocol (ip_wdata (IpReass.sf_wdata (bufs (fs_st f)).[b0])))) f)
  else if decide (0 < ret_status) then
    let f := if decide (VLIB_FRAME_SIZE <= fs_pre f + ret_status * IP_REASS_MAX_CACHE_PKTS)
             then flush f else f in
    let? (st, arr, nexts, count) :=
      split_frag_buffer_on_fail fuel (fs_pre f) b0
        (rec_interface_id (ip_reass_record (bufs (fs_st f)).[b0]))
        SF_NEXT_NODE_SF_ACL_ENTRY SF_NEXT_NODE_SF_PKT_DROP (fs_arr f) (fs_nexts f) (fs_st f) in
    Some (mk_fs st arr nexts (fs_pre f + count) (fs_out f))
  else if decide (ret_status = -1) then Some (push b0 SF_NEXT_NODE_SF_ACL_ENTRY f)
  else Some f.

(** [sf_ip4_reass_node] with [proc] [ip4_frag_proc], [sf_ip6_reass_node] with
    [ip6_frag_proc]: one packet and the frame. *)
Definition frame_step (proc : nat -> ip_reass_config -> Z -> answers -> reass_state ->
      option (reass_state * Z * Z)) (fuel : nat) (cfg : ip_reass_config) (b0 : Z) (an : answers)
    (f : frame_state) : option frame_state :=
  let? (st, b0, ret_status) := proc fuel cfg b0 an (fs_st f) in
  let? f := frame_handle fuel b0 ret_status (mk_fs st (fs_arr f) (fs_nexts f) (fs_pre f) (fs_out f)) in
  Some (if decide (VLIB_FRAME_SIZE <= fs_pre f) then flush f else f).

Fixpoint frame_loop proc (fuel : nat) (cfg : ip_reass_config) (from : list (Z * answers))
    (f : frame_state) : option frame_state :=
  match from with
  | [] => Some (flush f)
  | (b0, an) :: from =>
      let? f := frame_step proc fuel cfg b0 an f in frame_loop proc fuel cfg from f
  end.

Definition sf_ip_reass_node proc (fuel : nat) (cfg : ip_reass_config) (from : list (Z * answers))
    (arr nexts : gmap Z Z) (st : reass_state) : option (reass_state * list (Z * Z)) :=
  let? f := frame_loop proc fuel cfg from (mk_fs st arr nexts 0 []) in Some (fs_st f, fs_out f).

Definition sf_ip4_reass_node := sf_ip_reass_node ip4_frag_proc.
Definition sf_ip6_reass_node := sf_ip_reass_node ip6_frag_proc.

Definition TIMER_NEXT_ACL_ENTRY : Z := 0.
Definition TIMER_NEXT_PKT_DROP : Z := 1.

(** One expired timer: its node (0 when the timer was deleted meanwhile) and
    hash. *)
Definition ip_reass_timer_step (fuel : nat) (timer_data : Z * Z) (arr nexts : gmap Z Z)
    (st : reass_state) : option (reass_state * gmap Z Z * gmap Z Z * list (Z * Z)) :=
  let '(pnode, hash_index) := timer_data in
  if decide (pnode = 0) then Some (st, arr, nexts, [])
  else
    let d := (rdata st).[pnode] in
    let '(N, h) := hashFreeNode (nodes st) (table_ip_reass st) pnode hash_index in
    let st := set_table N h (set_timers (ip_reass_delete_timer pnode (timers st)) st) in
    let? (st, arr, nexts, count) :=
      split_frag_buffer_on_fail fuel 0 (nr_head d) (nr_interface_id d)
        TIMER_NEXT_ACL_ENTRY TIMER_NEXT_PKT_DROP arr nexts st in
    let out := enqueued arr nexts count in
    let st := update_ip_reass_stat (nr_interface_id d) ip_reass_timer_timeout st in
    Some (update_ip_reass_stat (nr_interface_id d) ip_reass_fail st, arr, nexts, out).
(** [sf_ip_reass_timer_node] *)
Fixpoint sf_ip_reass_timer_node (fuel : nat) (from : list (Z * Z)) (arr nexts : gmap Z Z) (st : reass_state) :
    option (reass_state * list (Z * Z)) :=
  match from with
  | [] => Some (st, [])
  | t :: from =>
      let? (st, arr, nexts, out) := ip_reass_timer_step fuel t arr nexts st in
      let? (st, out') := sf_ip_reass_timer_node fuel from arr nexts st in Some (st, out ++ out')
  end.

(** [sf_ip_reass_forward_node] *)
Fixpoint sf_ip_reass_forward_node (fuel : nat) (from : list Z) (arr nexts : gmap Z Z) (st : reass_state) :
    option (reass_state * list (Z * Z)) :=
  match from with
  | [] => Some (st, [])
  | b0 :: from =>
      let? (st, arr, nexts, count) := split_frag_buffer fuel b0 arr nexts st in
      let? (st, out') := sf_ip_reass_forward_node fuel from arr nexts st in
      Some (st, enqueued arr nexts count ++ out')
  end.
End nodes.
