(* ===== verification/IpReassForest.v ===== *)
(** * The layout loop lists the forest

    [split_frag_buffer_on_fail] and [split_frag_buffer] list the buffers of a
    forest in preorder, each exactly once, send its leaves (the fragments that
    arrived) on and drop its inner buffers (packets reassembled from them). *)
From S2P Require Import Prelude GenericHash Wdata IpReass IpReassSplit.

(** ** Forests *)

(** First child and next sibling. *)
Inductive forest := FNil | FCons (b : Z) (kids sibs : forest).

Fixpoint fsize (F : forest) : Z :=
  match F with FNil => 0 | FCons _ k s => 1 + fsize k + fsize s end.
Fixpoint preorder (F : forest) : list Z :=
  match F with FNil => [] | FCons b k s => b :: preorder k ++ preorder s end.
(** The next node of each buffer of the preorder. *)
Fixpoint verdicts (leaf inner : Z) (F : forest) : list Z :=
  match F with
  | FNil => []
  | FCons b k s =>
      (if k is FNil then leaf else inner) :: verdicts leaf inner k ++ verdicts leaf inner s
  end.
Fixpoint leaves (F : forest) : list Z :=
  match F with
  | FNil => []
  | FCons b k s => (if k is FNil then [b] else leaves k) ++ leaves s
  end.
Definition root (F : forest) : Z := match F with FNil => 0 | FCons b _ _ => b end.

(** The buffers hold the forest: links, flags and the number of buffers below
    each buffer. *)
Fixpoint frepr (B : gmap Z vlib_buffer_t) (F : forest) (x : Z) : Prop :=
  match F with
  | FNil => x = 0
  | FCons b k s =>
      x = b /\ b <> 0 /\
      followed_nodes_cnt (ip_reass_record B.[b]) = fsize k /\
      frepr B s (next_frag (ip_reass_record B.[b])) /\
      (if k is FNil then is_reass_pkt (IpReass.sf_wdata B.[b]) = false
       else is_reass_pkt (IpReass.sf_wdata B.[b]) = true /\ frepr B k (child_frag (ip_reass_record B.[b])))
  end.

Lemma fsize_nonneg F : 0 <= fsize F.
Proof. induction F; cbn; lia. Qed.

Lemma fsize_pos F : F <> FNil -> 0 < fsize F.
Proof. destruct F as [|b k s]; [done|]. cbn. pose proof (fsize_nonneg k). pose proof (fsize_nonneg s). lia. Qed.

Lemma preorder_length F : Z.of_nat (length (preorder F)) = fsize F.
Proof. induction F as [|b k IHk s IHs]; cbn; [done|]. rewrite length_app. lia. Qed.

Lemma frepr_root B F x : frepr B F x -> x = root F /\ (x <> 0 <-> F <> FNil).
Proof. destruct F as [|b k s]; cbn; [naive_solver|]. intros (-> & ? & _). naive_solver. Qed.

(** What the links, flags and counts are read from. *)
Definition same_shape (B B' : gmap Z vlib_buffer_t) : Prop :=
  forall b, ip_reass_record B'.[b] = ip_reass_record B.[b] /\
            is_reass_pkt (IpReass.sf_wdata B'.[b]) = is_reass_pkt (IpReass.sf_wdata B.[b]).

Lemma frepr_shape B B' F : same_shape B B' -> forall x, frepr B F x -> frepr B' F x.
Proof.
  intros E. induction F as [|b k IHk s IHs]; intros x; cbn; [done|].
  destruct (E b) as [-> ->]. intros (-> & ? & ? & Hs & Hk). split_and!; try done; [by apply IHs|].
  destruct k as [|c k1 k2]; [done|]. destruct Hk as [? Hk]. split; [done|]. by apply IHk.
Qed.

Lemma same_shape_wdata b w st :
  is_reass_pkt w = is_reass_pkt (IpReass.sf_wdata (bufs st).[b]) ->
  same_shape (bufs st) (bufs (set_wdata b w st)).
Proof.
  intros E c. cbn. rewrite aget_aset. destruct (decide (b = c)) as [<-|]; cbn; [|done].
  by rewrite E.
Qed.

(** ** Subtrees waiting in the array *)

(** From position [pos] on the array holds the roots of the forests of the
    agenda, each followed by room for the rest of it. *)
Fixpoint agenda_ok (B : gmap Z vlib_buffer_t) (arr : gmap Z Z) (pos : Z) (ag : list forest) : Prop :=
  match ag with
  | [] => True
  | F :: ag => F <> FNil /\ frepr B F arr.[pos] /\ agenda_ok B arr (pos + fsize F) ag
  end.

Definition opt (F : forest) : list forest := if F is FNil then [] else [F].
Fixpoint total (ag : list forest) : Z :=
  match ag with [] => 0 | F :: ag => fsize F + total ag end.

Lemma total_nonneg ag : 0 <= total ag.
Proof. induction ag as [|F ag IH]; cbn; [done|]. pose proof (fsize_nonneg F). lia. Qed.

Lemma total_opt F ag : total (opt F ++ ag) = fsize F + total ag.
Proof. destruct F; done. Qed.

Lemma agenda_frame B B' arr arr' pos ag : same_shape B B' ->
  (forall i, pos <= i -> arr'.[i] = arr.[i]) -> agenda_ok B arr pos ag -> agenda_ok B' arr' pos ag.
Proof.
  intros Es. revert pos. induction ag as [|F ag IH]; intros pos E; cbn; [done|].
  intros (Hn & Hr & Ha). split; [done|]. rewrite E by lia. split; [by apply (frepr_shape B)|].
  apply IH; [|done]. intros i Hi. apply E. pose proof (fsize_nonneg F). lia.
Qed.

(** Putting brother and child in place. *)
Lemma place_relatives_spec B arr pos b k s ag :
  agenda_ok B arr pos (FCons b k s :: ag) ->
  let '(arr', cnt) := place_relatives B.[b] pos arr in
  agenda_ok B arr' (pos + 1) (opt k ++ opt s ++ ag) /\
  cnt = Z.of_nat (length (opt k ++ opt s)) /\
  is_reass_pkt (IpReass.sf_wdata B.[b]) = (if k is FNil then false else true) /\
  (forall i, i <= pos \/ pos + fsize (FCons b k s) <= i -> arr'.[i] = arr.[i]).
Proof.
  intros (_ & (Eb & Hb & Hf & Hs & Hk) & Ha). unfold place_relatives. rewrite Hf.
  set (r := ip_reass_record B.[b]) in *.
  destruct (frepr_root _ _ _ Hs) as [Es Hsn]. pose proof (fsize_nonneg k) as Hk0. pose proof (fsize_nonneg s) as Hs0.
  cbn [fsize] in Ha |- *.
  assert (Hbro : exists arr1, (if decide (next_frag r <> 0)
      then (arr.[pos + fsize k + 1 <- next_frag r], 1) else (arr, 0)) = (arr1, Z.of_nat (length (opt s))) /\
      agenda_ok B arr1 (pos + 1 + fsize k) (opt s ++ ag) /\
      (forall i, i <= pos + fsize k \/ pos + (1 + fsize k + fsize s) <= i -> arr1.[i] = arr.[i])).
  { destruct (decide (next_frag r <> 0)) as [Hn|Hn].
    - assert (s <> FNil) as Hsne by (by apply Hsn). pose proof (fsize_pos s Hsne).
      exists arr.[pos + fsize k + 1 <- next_frag r]. destruct s as [|c s1 s2]; [done|]. split; [done|].
      split.
      + cbn [opt app agenda_ok]. split; [done|].
        replace (pos + 1 + fsize k) with (pos + fsize k + 1) by lia. rewrite aget_aset_eq.
        split; [done|]. replace (pos + fsize k + 1 + fsize (FCons c s1 s2))
          with (pos + (1 + fsize k + fsize (FCons c s1 s2))) by lia.
        apply (agenda_frame B B arr); [done| |done]. intros i Hi. apply aget_aset_ne. lia.
      + intros i Hi. apply aget_aset_ne. lia.
    - assert (s = FNil) as -> by (destruct s; [done|exfalso; apply Hn; by apply Hsn]).
      exists arr. split; [done|]. split; [|done]. cbn [opt app]. cbn [fsize] in Ha.
      by replace (pos + 1 + fsize k) with (pos + (1 + fsize k + 0)) by lia. }
  destruct Hbro as (arr1 & E1 & Ha1 & Hf1). rewrite E1.
  destruct k as [|c k1 k2].
  - rewrite Hk. cbn [opt app length fsize] in *. rewrite Z.add_0_r in Ha1.
    split; [done|]. split; [done|]. split; [done|]. intros i Hi. apply Hf1. lia.
  - destruct Hk as [Hflag Hk]. rewrite Hflag. set (K := FCons c k1 k2) in *.
    assert (0 < fsize K) by (apply fsize_pos; done).
    destruct (frepr_root _ _ _ Hk) as [Ek _]. split; [|split; [|split; [done|]]].
    + cbn [opt app agenda_ok K]. split; [done|]. rewrite aget_aset_eq. split; [done|].
      apply (agenda_frame B B arr1); [done| |done]. intros i Hi. apply aget_aset_ne. fold K in Hi. lia.
    + cbn [opt app length K]. lia.
    + intros i Hi. rewrite aget_aset_ne by lia. apply Hf1. lia.
Qed.

(** The segment of an array. *)
Definition segment (arr : gmap Z Z) (pos n : Z) : list Z := map (fun i => arr.[i]) (seqZ pos n).

Lemma segment_cons arr pos n : 0 < n -> segment arr pos n = arr.[pos] :: segment arr (pos + 1) (n - 1).
Proof.
  intros Hn. unfold segment. rewrite seqZ_cons by done.
  replace (Z.succ pos) with (pos + 1) by lia. replace (Z.pred n) with (n - 1) by lia. done.
Qed.

Definition all_pre (ag : list forest) : list Z := concat (map preorder ag).
Definition all_verdicts (leaf inner : Z) (ag : list forest) : list Z := concat (map (verdicts leaf inner) ag).
Definition all_leaves (ag : list forest) : list Z := concat (map leaves ag).

Lemma concat_opt {A} (f : forest -> list A) F l :
  f FNil = [] -> concat (map f (opt F ++ l)) = f F ++ concat (map f l).
Proof. intros E. destruct F; cbn; by rewrite ?E. Qed.

Lemma all_pre_step b k s ag :
  all_pre (FCons b k s :: ag) = b :: all_pre (opt k ++ opt s ++ ag).
Proof. unfold all_pre. rewrite !concat_opt by done. cbn. by rewrite app_assoc. Qed.

Lemma all_verdicts_step leaf inner b k s ag :
  all_verdicts leaf inner (FCons b k s :: ag)
  = (if k is FNil then leaf else inner) :: all_verdicts leaf inner (opt k ++ opt s ++ ag).
Proof. unfold all_verdicts. rewrite !concat_opt by done. cbn. by rewrite app_assoc. Qed.

Lemma all_leaves_step b k s ag :
  all_leaves (FCons b k s :: ag)
  = (if k is FNil then [b] else []) ++ all_leaves (opt k ++ opt s ++ ag).
Proof.
  unfold all_leaves. rewrite !concat_opt by done. destruct k; cbn; by rewrite <- ?app_assoc.
Qed.

(** ** The loops *)

Lemma reset_shape w : is_reass_pkt (sf_wqe_reset w) = is_reass_pkt w.
Proof. done. Qed.

Lemma update_shape w w0 : is_reass_pkt (update_frag_wdata w w0) = is_reass_pkt w.
Proof. done. Qed.

Lemma same_shape_trans B1 B2 B3 : same_shape B1 B2 -> same_shape B2 B3 -> same_shape B1 B3.
Proof. intros H1 H2 b. destruct (H1 b) as [A1 A2], (H2 b) as [A3 A4]. split; congruence. Qed.

(** A result of a loop over an agenda: the array lists it, the next nodes are its
    verdicts, positions outside are as before and [stat] is counted per leaf. *)
Definition laid_out (leaf inner iface pos : Z) (stat : reass_stat) (ag : list forest)
    (arr nexts : gmap Z Z) (st : reass_state) (arr' nexts' : gmap Z Z) (st' : reass_state) : Prop :=
  segment arr' pos (total ag) = all_pre ag /\
  segment nexts' pos (total ag) = all_verdicts leaf inner ag /\
  (forall i, i < pos \/ pos + total ag <= i -> arr'.[i] = arr.[i] /\ nexts'.[i] = nexts.[i]) /\
  same_shape (bufs st) (bufs st') /\
  stats st' = stats st ++ map (fun _ => (iface, stat)) (all_leaves ag) /\
  (forall b, b ∉ all_leaves ag -> (bufs st').[b] = (bufs st).[b]) /\
  mem st' = mem st /\ nodes st' = nodes st /\ table_ip_reass st' = table_ip_reass st /\
  rdata st' = rdata st /\ timers st' = timers st.

Lemma laid_out_nil leaf inner iface pos stat arr nexts st :
  laid_out leaf inner iface pos stat [] arr nexts st arr nexts st.
Proof. split_and!; try done. cbn. by rewrite app_nil_r. Qed.

(** One round followed by the rest. *)
Lemma laid_out_step leaf inner iface pos stat b k s ag arr nexts st arr1 st1 arr' nexts' st' :
  arr.[pos] = b ->
  (forall i, i <= pos \/ pos + fsize (FCons b k s) <= i -> arr1.[i] = arr.[i]) ->
  same_shape (bufs st) (bufs st1) ->
  stats st1 = stats st ++ (if k is FNil then [(iface, stat)] else []) ->
  (forall c, c <> b \/ k <> FNil -> (bufs st1).[c] = (bufs st).[c]) ->
  mem st1 = mem st -> nodes st1 = nodes st -> table_ip_reass st1 = table_ip_reass st ->
  rdata st1 = rdata st -> timers st1 = timers st ->
  laid_out leaf inner iface (pos + 1) stat (opt k ++ opt s ++ ag) arr1
    nexts.[pos <- if k is FNil then leaf else inner] st1 arr' nexts' st' ->
  laid_out leaf inner iface pos stat (FCons b k s :: ag) arr nexts st arr' nexts' st'.
Proof.
  intros Hb Harr Hsh Hst Hbf Hm Hn Ht Hr Hti (Ha & Hv & Hf & Hsh' & Hst' & Hbf' & Hm' & Hn' & Ht' & Hr' & Hti').
  pose proof (fsize_nonneg k). pose proof (fsize_nonneg s). pose proof (total_nonneg ag).
  assert (Et : total (FCons b k s :: ag) = total (opt k ++ opt s ++ ag) + 1).
  { rewrite !total_opt. cbn. lia. }
  assert (Ht0 : total (opt k ++ opt s ++ ag) = fsize k + fsize s + total ag) by (rewrite !total_opt; lia).
  destruct (Hf pos) as [Ep1 Ep2]; [lia|]. unfold laid_out. rewrite Et.
  split_and!; try congruence.
  - rewrite segment_cons, Z.add_simpl_r, Ha, all_pre_step by lia. f_equal.
    rewrite Ep1, Harr by lia. done.
  - rewrite segment_cons, Z.add_simpl_r, Hv, all_verdicts_step by lia. f_equal.
    by rewrite Ep2, aget_aset_eq.
  - intros i Hi. destruct (Hf i) as [-> ->]; [lia|]. split.
    + apply Harr. cbn [fsize]. lia.
    + apply aget_aset_ne. lia.
  - by apply (same_shape_trans _ (bufs st1)).
  - rewrite Hst', Hst, all_leaves_step, map_app, <- app_assoc. by destruct k.
  - intros c Hc. rewrite all_leaves_step in Hc. apply not_elem_of_app in Hc as [Hc1 Hc2].
    rewrite Hbf' by done. apply Hbf. destruct k; [left; set_solver|by right].
Qed.

Lemma split_fail_loop_spec n : forall base b0 iface leaf inner pre ag arr nexts st fuel,
  total ag = Z.of_nat n -> (n < fuel)%nat -> 0 <= pre ->
  agenda_ok (bufs st) arr (base + pre) ag ->
  exists arr' nexts' st',
    split_fail_loop fuel base b0 iface leaf inner pre (pre + Z.of_nat (length ag)) arr nexts st
    = Some (st', arr', nexts', pre + total ag) /\
    laid_out leaf inner iface (base + pre) ip_reass_pkt_fail ag arr nexts st arr' nexts' st'.
Proof.
  induction n as [|n IH]; intros base b0 iface leaf inner pre ag arr nexts st [|fuel] Hn Hf Hp Ha; try lia;
    destruct ag as [|[|b k s] ag].
  - exists arr, nexts, st. cbn. rewrite decide_True by lia. split; [done|]. apply laid_out_nil.
  - by destruct Ha.
  - exfalso. cbn in Hn. pose proof (fsize_nonneg k). pose proof (fsize_nonneg s). pose proof (total_nonneg ag). lia.
  - exfalso. cbn in Hn. lia.
  - by destruct Ha.
  - assert (Hroot : arr.[base + pre] = b) by (destruct Ha as (_ & (? & _) & _); done).
    pose proof (place_relatives_spec _ _ _ _ _ _ _ Ha) as Hpl.
    assert (Et : total (opt k ++ opt s ++ ag) = Z.of_nat n).
    { rewrite !total_opt. cbn [total fsize] in Hn. lia. }
    cbn [split_fail_loop]. rewrite decide_False by (cbn [length]; lia). cbv zeta. rewrite Hroot.
    destruct (place_relatives (bufs st).[b] (base + pre) arr) as [arr1 cnt].
    destruct Hpl as (Ha1 & -> & Hflag & Harr1). rewrite Hflag.
    assert (Ecount : pre + Z.of_nat (length (FCons b k s :: ag)) + Z.of_nat (length (opt k ++ opt s))
      = pre + 1 + Z.of_nat (length (opt k ++ opt s ++ ag))).
    { rewrite app_assoc, (length_app (opt k ++ opt s)). cbn [length]. lia. }
    rewrite Ecount. assert (Eb : base + pre + 1 = base + (pre + 1)) by lia. rewrite Eb in Ha1.
    assert (Etot : pre + total (FCons b k s :: ag) = pre + 1 + total (opt k ++ opt s ++ ag)).
    { rewrite !total_opt. cbn. lia. }
    destruct k as [|c k1 k2].
    + set (st1 := update_ip_reass_stat _ _ _).
      assert (Hsh : same_shape (bufs st) (bufs st1)).
      { apply (same_shape_wdata b). rewrite reset_shape.
        destruct (decide (pre <> 0)); [by rewrite update_shape|done]. }
      destruct (IH base b0 iface leaf inner (pre + 1) (opt FNil ++ opt s ++ ag) arr1
        nexts.[base + pre <- leaf] st1 fuel) as (arr' & nexts' & st' & El & Hlaid); try done; try lia.
      { apply (agenda_frame (bufs st) _ arr1); done. }
      exists arr', nexts', st'. rewrite El, Etot. split; [done|].
      apply (laid_out_step _ _ _ _ _ _ _ _ _ _ _ _ arr1 st1); try done.
      * intros c [Hc|Hc]; [|done]. cbn. by apply aget_aset_ne.
      * by rewrite Eb.
    + destruct (IH base b0 iface leaf inner (pre + 1) (opt (FCons c k1 k2) ++ opt s ++ ag) arr1
        nexts.[base + pre <- inner] st fuel) as (arr' & nexts' & st' & El & Hlaid); try done; try lia.
      exists arr', nexts', st'. rewrite El, Etot. split; [done|].
      apply (laid_out_step _ _ _ _ _ _ _ _ _ _ _ _ arr1 st); try done; try by rewrite ?app_nil_r, ?Eb.
Qed.

Lemma leaves_sublist F : leaves F `sublist_of` preorder F.
Proof.
  induction F as [|b k IHk s IHs]; cbn; [done|]. destruct k as [|c k1 k2].
  - by apply sublist_skip.
  - apply sublist_cons. by apply sublist_app.
Qed.

(** What a fragment takes from the reassembled packet [w0]. *)
Definition follow (w0 w : sf_wdata_t) : sf_wdata_t :=
  sf_wqe_reset (with_arg (arg_to_next w0) (update_frag_wdata w w0)).

Lemma split_loop_spec n : forall b0 iface leaf pre ag arr nexts st fuel,
  total ag = Z.of_nat n -> (n < fuel)%nat ->
  agenda_ok (bufs st) arr pre ag ->
  exists arr' nexts' st',
    split_loop fuel b0 iface leaf pre (pre + total ag) arr nexts st = Some (st', arr', nexts') /\
    laid_out leaf FORWARD_NEXT_PKT_DROP iface pre ip_reass_pkt_success ag arr nexts st arr' nexts' st' /\
    (b0 ∉ all_leaves ag -> NoDup (all_leaves ag) -> forall c, c ∈ all_leaves ag ->
       IpReass.sf_wdata (bufs st').[c]
       = follow (IpReass.sf_wdata (bufs st).[b0]) (IpReass.sf_wdata (bufs st).[c])).
Proof.
  induction n as [|n IH]; intros b0 iface leaf pre ag arr nexts st [|fuel] Hn Hf Ha; try lia;
    destruct ag as [|[|b k s] ag].
  - exists arr, nexts, st. cbn. rewrite decide_True by lia. split; [done|]. split; [apply laid_out_nil|].
    intros _ _ c Hc. by apply not_elem_of_nil in Hc.
  - by destruct Ha.
  - exfalso. cbn in Hn. pose proof (fsize_nonneg k). pose proof (fsize_nonneg s). pose proof (total_nonneg ag). lia.
  - exfalso. cbn in Hn. lia.
  - by destruct Ha.
  - assert (Hroot : arr.[pre] = b) by (destruct Ha as (_ & (? & _) & _); done).
    pose proof (place_relatives_spec _ _ _ _ _ _ _ Ha) as Hpl.
    assert (Et : total (opt k ++ opt s ++ ag) = Z.of_nat n).
    { rewrite !total_opt. cbn [total fsize] in Hn. lia. }
    assert (Etot : pre + total (FCons b k s :: ag) = pre + 1 + total (opt k ++ opt s ++ ag)).
    { rewrite !total_opt. cbn. lia. }
    cbn [split_loop]. rewrite decide_False by lia. cbv zeta. rewrite Hroot, Etot.
    destruct (place_relatives (bufs st).[b] pre arr) as [arr1 cnt].
    destruct Hpl as (Ha1 & _ & Hflag & Harr1). rewrite Hflag.
    destruct k as [|c k1 k2].
    + set (st1 := update_ip_reass_stat _ _ _).
      assert (Hsh : same_shape (bufs st) (bufs st1)) by (by apply (same_shape_wdata b)).
      assert (Hfr : forall c, c <> b -> (bufs st1).[c] = (bufs st).[c]).
      { intros c Hc. cbn. by apply aget_aset_ne. }
      destruct (IH b0 iface leaf (pre + 1) (opt FNil ++ opt s ++ ag) arr1
        nexts.[pre <- leaf] st1 fuel) as (arr' & nexts' & st' & El & Hlaid & Hfol); try done; try lia.
      { apply (agenda_frame (bufs st) _ arr1); done. }
      exists arr', nexts', st'. rewrite El. split; [done|]. split.
      * apply (laid_out_step _ _ _ _ _ _ _ _ _ _ _ _ arr1 st1); try done.
        intros c [Hc|Hc]; [by apply Hfr|done].
      * rewrite all_leaves_step. intros Hb0 Hnd c Hc. cbn [app] in Hb0, Hnd, Hc.
        apply NoDup_cons in Hnd as [Hnb Hnd]. apply not_elem_of_cons in Hb0 as [Hb0 Hb0'].
        apply elem_of_cons in Hc as [->|Hc].
        -- destruct Hlaid as (_ & _ & _ & _ & _ & Hb' & _). rewrite Hb' by done. cbn. by rewrite aget_aset_eq.
        -- rewrite Hfol by done. rewrite (Hfr b0) by done. rewrite (Hfr c); [done|]. intros ->. done.
    + destruct (IH b0 iface leaf (pre + 1) (opt (FCons c k1 k2) ++ opt s ++ ag) arr1
        nexts.[pre <- FORWARD_NEXT_PKT_DROP] st fuel) as (arr' & nexts' & st' & El & Hlaid & Hfol);
        try done; try lia.
      exists arr', nexts', st'. rewrite El. split; [done|]. split.
      * apply (laid_out_step _ _ _ _ _ _ _ _ _ _ _ _ arr1 st); try done; try by rewrite ?app_nil_r.
      * rewrite all_leaves_step. apply Hfol.
Qed.

(** ** Properties *)

Lemma agenda_one B F b0 arr base : F <> FNil -> frepr B F b0 ->
  agenda_ok B arr.[base <- b0] base [F].
Proof. intros Hn Hr. cbn. rewrite aget_aset_eq. done. Qed.

Lemma split_on_fail_laid F base b0 iface leaf inner arr nexts st fuel :
  F <> FNil -> frepr (bufs st) F b0 -> fsize F < Z.of_nat fuel ->
  exists arr' nexts' st',
    split_frag_buffer_on_fail fuel base b0 iface leaf inner arr nexts st = Some (st', arr', nexts', fsize F) /\
    laid_out leaf inner iface base ip_reass_pkt_fail [F] arr.[base <- b0] nexts st arr' nexts' st'.
Proof.
  intros Hn Hr Hf. pose proof (agenda_one _ _ _ arr base Hn Hr) as Ha. pose proof (fsize_nonneg F).
  destruct (split_fail_loop_spec (Z.to_nat (fsize F)) base b0 iface leaf inner 0 [F] arr.[base <- b0]
    nexts st fuel) as (arr' & nexts' & st' & El & Hl); [cbn; lia|lia|lia|by rewrite Z.add_0_r|].
  exists arr', nexts', st'. unfold split_frag_buffer_on_fail. rewrite Z.add_0_r in *.
  change (0 + Z.of_nat (length [F])) with 1 in El. rewrite El. cbn [total]. by rewrite !Z.add_0_r.
Qed.

(** Giving back the fragments of a failed reassembly ends and lists every
    buffer of the forest once, in preorder: those that arrived as fragments go
    on to the ACL entry and are counted, those that were reassembled from them
    are dropped; nothing outside the listed positions is touched. *)
Theorem split_on_fail_spec F base b0 iface leaf inner arr nexts st fuel :
  F <> FNil -> frepr (bufs st) F b0 -> fsize F < Z.of_nat fuel ->
  exists arr' nexts' st',
    split_frag_buffer_on_fail fuel base b0 iface leaf inner arr nexts st = Some (st', arr', nexts', fsize F) /\
    segment arr' base (fsize F) = preorder F /\
    segment nexts' base (fsize F) = verdicts leaf inner F /\
    (forall i, i < base \/ base + fsize F <= i -> arr'.[i] = arr.[i] /\ nexts'.[i] = nexts.[i]) /\
    stats st' = stats st ++ map (fun _ => (iface, ip_reass_pkt_fail)) (leaves F).
Proof.
  intros Hn Hr Hf. destruct (split_on_fail_laid F base b0 iface leaf inner arr nexts st fuel Hn Hr Hf)
    as (arr' & nexts' & st' & E & Hs & Hv & Hfr & _ & Hst & _).
  exists arr', nexts', st'. unfold all_pre, all_verdicts, all_leaves in *. cbn [total map concat] in *.
  rewrite !app_nil_r, !Z.add_0_r in *. split_and!; try done.
  intros i Hi. destruct (Hfr i Hi) as [-> ->]. split; [|done]. apply aget_aset_ne. pose proof (fsize_pos F Hn). lia.
Qed.

Lemma split_forward_aux b0 k arr nexts st fuel :
  let vb := (bufs st).[b0] in
  let F := FCons b0 k FNil in
  let next := if decide (arg_to_next (IpReass.sf_wdata vb) = 0) then FORWARD_NEXT_PKT_DROP
              else FORWARD_NEXT_ACTION_ENTRY in
  frepr (bufs st) F b0 -> k <> FNil -> NoDup (preorder F) -> fsize F < Z.of_nat fuel ->
  exists arr' nexts' st',
    split_frag_buffer fuel b0 arr nexts st = Some (st', arr', nexts', fsize F) /\
    segment arr' 0 (fsize F) = preorder F /\
    segment nexts' 0 (fsize F)
    = (if decide (ip_reass_output (ip_reass_record vb) <> 0) then next else FORWARD_NEXT_PKT_DROP)
      :: verdicts next FORWARD_NEXT_PKT_DROP k /\
    (forall c, c ∈ leaves k ->
       IpReass.sf_wdata (bufs st').[c] = follow (IpReass.sf_wdata vb) (IpReass.sf_wdata (bufs st).[c])).
Proof.
  cbv zeta. intros Hr Hk Hnd Hf. set (vb := (bufs st).[b0]) in *. set (F := FCons b0 k FNil) in *.
  pose proof (agenda_one _ F _ arr 0 ltac:(done) Hr) as Ha. pose proof (fsize_nonneg F) as H0.
  assert (Hfol : followed_nodes_cnt (ip_reass_record vb) + 1 = 0 + total [F]).
  { destruct Hr as (_ & _ & E & _). fold vb in E. rewrite E. unfold F. cbn. lia. }
  set (next := if decide (arg_to_next (IpReass.sf_wdata vb) = 0) then _ else _).
  destruct (split_loop_spec (Z.to_nat (fsize F)) b0 (rec_interface_id (ip_reass_record vb)) next 0 [F]
    arr.[0 <- b0] nexts st fuel) as (arr' & nexts' & st' & El & Hl & Hw); [cbn [total]; lia|lia|done|].
  assert (Elv : all_leaves [F] = leaves k).
  { unfold all_leaves, F. cbn [map concat leaves]. rewrite !app_nil_r. by destruct k. }
  assert (Htot : total [F] = fsize F) by (cbn [total]; lia).
  destruct Hl as (Hs & Hv & _ & Hsh & _). rewrite Htot, Elv in *.
  assert (Epre : all_pre [F] = preorder F) by (unfold all_pre; cbn [map concat]; by rewrite app_nil_r).
  assert (Ever : all_verdicts next FORWARD_NEXT_PKT_DROP [F]
    = FORWARD_NEXT_PKT_DROP :: verdicts next FORWARD_NEXT_PKT_DROP k).
  { unfold all_verdicts, F. cbn [map concat verdicts]. rewrite !app_nil_r. by destruct k. }
  rewrite Epre in Hs. rewrite Ever in Hv. rewrite segment_cons in Hv by (apply fsize_pos; done).
  injection Hv as Hv0 Hv. change (segment nexts' (0 + 1) (fsize F - 1) = verdicts next FORWARD_NEXT_PKT_DROP k) in Hv.
  apply NoDup_cons in Hnd as [Hb0 Hnd]. cbn [preorder] in Hb0, Hnd. rewrite app_nil_r in Hb0, Hnd.
  assert (Hbl : b0 ∉ leaves k) by (intros Hin; apply Hb0; by eapply elem_of_sublist, leaves_sublist).
  exists arr'. eexists _, _. unfold split_frag_buffer. fold vb next. rewrite Hfol, El. cbn [obind].
  split; [by rewrite Z.add_0_l|]. split; [done|]. cbn [bufs update_ip_reass_stat].
  rewrite (proj1 (Hsh b0)). fold vb. split.
  - destruct (decide (ip_reass_output (ip_reass_record vb) <> 0)) as [Ho|Ho].
    + rewrite segment_cons, aget_aset_eq by (apply fsize_pos; done). f_equal. rewrite <- Hv.
      apply map_ext_in. intros i Hi%list_elem_of_In%elem_of_seqZ. apply aget_aset_ne. lia.
    + rewrite segment_cons, Hv0, Hv by (apply fsize_pos; done). done.
  - apply Hw; [done|]. eapply sublist_NoDup; [exact Hnd|apply leaves_sublist].
Qed.

(** The fragments of a reassembled packet follow its verdict: every one of
    them, once, goes to the action node with the packet's decoded layers and its
    action, or is dropped when it has none; the inner buffers are dropped and the
    packet itself too unless its output is enabled. *)
Theorem split_forward_spec b0 k arr nexts st fuel :
  let vb := (bufs st).[b0] in
  let F := FCons b0 k FNil in
  let next := if decide (arg_to_next (IpReass.sf_wdata vb) = 0) then FORWARD_NEXT_PKT_DROP
              else FORWARD_NEXT_ACTION_ENTRY in
  frepr (bufs st) F b0 -> k <> FNil -> NoDup (preorder F) -> fsize F < Z.of_nat fuel ->
  exists arr' nexts' st',
    split_frag_buffer fuel b0 arr nexts st = Some (st', arr', nexts', fsize F) /\
    segment arr' 0 (fsize F) = preorder F /\
    segment nexts' 0 (fsize F)
    = (if decide (ip_reass_output (ip_reass_record vb) <> 0) then next else FORWARD_NEXT_PKT_DROP)
      :: verdicts next FORWARD_NEXT_PKT_DROP k /\
    (forall c, c ∈ leaves k ->
       IpReass.sf_wdata (bufs st').[c] = follow (IpReass.sf_wdata vb) (IpReass.sf_wdata (bufs st).[c])).
Proof. apply split_forward_aux. Qed.

(** ** Witnesses *)

(** Packet 1 was reassembled from 2 and 3; fragment 4 follows it when [sib] is 4. *)
Definition forest_buf (child sib followed flags arg : Z) : vlib_buffer_t :=
  mk_vb (with_arg arg (with_buffer flags 0 zeroed)) (mk_rec child sib 0 8 20 3 0 followed).

Definition forest_st (sib : Z) : reass_state :=
  set_bufs (<[1 := forest_buf 2 sib 2 8 5]> (<[2 := forest_buf 0 3 0 0 0]> (<[3 := forest_buf 0 0 0 0 0]>
    (<[4 := forest_buf 0 0 0 0 0]> ∅)))) (mk_rs ∅ ∅ ∅ ghash_zero ∅ [] []).

Definition forest_kids : forest := FCons 2 FNil (FCons 3 FNil FNil).

Theorem split_on_fail_spec_witness :
  exists arr' nexts' st',
    split_frag_buffer_on_fail 6 0 1 3 0 3 ∅ ∅ (forest_st 4) = Some (st', arr', nexts', 4) /\
    segment arr' 0 4 = [1; 2; 3; 4] /\ segment nexts' 0 4 = [3; 0; 0; 0] /\
    (forall i, i < 0 \/ 0 + 4 <= i -> arr'.[i] = (∅ : gmap Z Z).[i] /\ nexts'.[i] = (∅ : gmap Z Z).[i]) /\
    stats st' = [] ++ [(3, ip_reass_pkt_fail); (3, ip_reass_pkt_fail); (3, ip_reass_pkt_fail)].
Proof.
  refine (split_on_fail_spec (FCons 1 forest_kids (FCons 4 FNil FNil)) 0 1 3 0 3 ∅ ∅ (forest_st 4) 6 _ _ _).
  - discriminate.
  - vm_compute. repeat split; discriminate.
  - vm_compute. reflexivity.
Defined.

Theorem split_forward_spec_witness :
  exists arr' nexts' st',
    split_frag_buffer 4 1 ∅ ∅ (forest_st 0) = Some (st', arr', nexts', 3) /\
    segment arr' 0 3 = [1; 2; 3] /\ segment nexts' 0 3 = [1; 0; 0] /\
    (forall c, c ∈ [2; 3] -> IpReass.sf_wdata (bufs st').[c]
       = follow (IpReass.sf_wdata (bufs (forest_st 0)).[1]) (IpReass.sf_wdata (bufs (forest_st 0)).[c])).
Proof.
  refine (split_forward_spec 1 forest_kids ∅ ∅ (forest_st 0) 4 _ _ _ _).
  - vm_compute. repeat split; discriminate.
  - discriminate.
  - vm_compute. repeat constructor; intros Hin;
      repeat (apply elem_of_cons in Hin as [Hin|Hin]; [discriminate|]); by apply not_elem_of_nil in Hin.
  - vm_compute. reflexivity.
Defined.
