(* ===== verification/IpReassInv.v ===== *)
(** * What the reassembly table holds

    [reass_inv st live A]: the hash table of [st] holds, for every key of [A], one
    node with the data recorded there and with the list of its fragments hung on
    it, each buffer on one list; [live] is the table's view of its nodes. *)
From S2P Require Import Prelude GenericHash GenericHashRun Wdata IpReass.

(** ** Lists of buffers *)

Implicit Types (B : gmap Z vlib_buffer_t) (l : list Z) (st : reass_state) (d : node_ip_reass_t).

Definition rec_of B (b : Z) : ip_reass_record_t := ip_reass_record B.[b].

Fixpoint bseg B (x : Z) l (x' : Z) : Prop :=
  match l with
  | [] => x = x'
  | b :: l => x = b /\ b <> 0 /\ bseg B (next_frag (rec_of B b)) l x'
  end.

Lemma bseg_app B x l1 l2 x' :
  bseg B x (l1 ++ l2) x' <-> exists y, bseg B x l1 y /\ bseg B y l2 x'.
Proof.
  revert x. induction l1 as [|b l1 IH]; intros x; cbn; [naive_solver|]. rewrite IH. naive_solver.
Qed.

Lemma bseg_frame B B' x l x' :
  (forall b, b ∈ l -> next_frag (rec_of B' b) = next_frag (rec_of B b)) -> bseg B x l x' -> bseg B' x l x'.
Proof.
  revert x. induction l as [|b l IH]; intros x E; cbn; [done|].
  rewrite (E b) by set_solver. intros (-> & ? & H). split_and!; try done. apply IH; [|done]. set_solver.
Qed.

Lemma bseg_nonzero B x l x' b : bseg B x l x' -> b ∈ l -> b <> 0.
Proof.
  revert x. induction l as [|c l IH]; intros x; cbn; [by intros _ ?%not_elem_of_nil|].
  intros (-> & ? & H) Hb. apply elem_of_cons in Hb as [->|Hb]; eauto.
Qed.

(** A node and its fragments. *)
Record group_ok B d l : Prop := {
  go_chain : bseg B (nr_head d) l 0;
  go_nodup : NoDup l;
  go_last : last l = Some (nr_tail d);
  go_cache : cache_pkt_num d = Z.of_nat (length l) - 1;
  go_max : cache_pkt_num d < IP_REASS_MAX_CACHE_PKTS;
  go_offsets : NoDup ((fun b => frag_offset (rec_of B b)) <$> l)
}.

Lemma group_ok_frame B B' d l :
  (forall b, b ∈ l -> next_frag (rec_of B' b) = next_frag (rec_of B b) /\
                      frag_offset (rec_of B' b) = frag_offset (rec_of B b)) ->
  group_ok B d l -> group_ok B' d l.
Proof.
  intros E []. split; try done.
  - apply (bseg_frame B); [|done]. intros b Hb. by apply E.
  - assert (Eo : (fun b => frag_offset (rec_of B' b)) <$> l = (fun b => frag_offset (rec_of B b)) <$> l).
    { apply list_fmap_ext. intros i b Hb. apply E. by eapply list_elem_of_lookup_2. }
    by rewrite Eo.
Qed.

Abbreviation contents := (gmap (list Z) (Z * node_ip_reass_t * list Z)).

Section inv.
Context `{ByteHash}.

Record reass_inv st (live : gmap Z Z) (A : contents) : Prop := {
  ri_hash : gh_inv (nodes st, table_ip_reass st, live);
  ri_entry k x d l : A !! k = Some (x, d, l) ->
    live !! x = Some (byte_hash k) /\ (rdata st).[x] = d /\ nr_key d = k /\
    length k = 40%nat /\ group_ok (bufs st) d l;
  ri_live x hx : live !! x = Some hx -> exists k d l, A !! k = Some (x, d, l);
  ri_disj k k' x d l x' d' l' b : A !! k = Some (x, d, l) -> A !! k' = Some (x', d', l') ->
    b ∈ l -> b ∈ l' -> k = k'
}.

(** A buffer on no list. *)
Definition unlisted (A : contents) (b : Z) : Prop :=
  forall k x d l, A !! k = Some (x, d, l) -> b ∉ l.

(** *** Searching *)

Definition node_of (A : contents) (k : list Z) : Z :=
  match A !! k with Some (x, _, _) => x | None => 0 end.

Lemma reass_find st live A k fuel :
  reass_inv st live A -> length k = 40%nat -> (size live < fuel)%nat ->
  hashFindNode_memcmp fuel (nodes st) (table_ip_reass st) (byte_hash k) k
    (fun x => nr_key (rdata st).[x]) = Some (node_of A k).
Proof.
  intros Hi Hk Hf. set (P := fun x => memcmp k (take (length k) (nr_key (rdata st).[x])) =? 0).
  assert (HP : forall k' x d l, A !! k' = Some (x, d, l) -> P x = true <-> k = k').
  { intros k' x d l HA. destruct (ri_entry _ _ _ Hi _ _ _ _ HA) as (_ & Ed & Ek & Hl & _).
    unfold P. rewrite Ed, Ek, Z.eqb_eq, memcmp_0, Hk, <- Hl, firstn_all. done. }
  destruct (find_node_loop_live _ _ _ (byte_hash k) P fuel (ri_hash _ _ _ Hi) Hf) as (r & E & Hz & Hnz).
  unfold hashFindNode_memcmp. fold P. rewrite E. f_equal. unfold node_of.
  destruct (A !! k) as [[[x d] l]|] eqn:HA.
  - destruct (ri_entry _ _ _ Hi _ _ _ _ HA) as (Hl & _).
    assert (r <> 0) as Hr.
    { intros E0. pose proof (proj1 Hz E0 x _ Hl eq_refl) as Hp.
      assert (P x = true) by (by apply (HP k x d l)). congruence. }
    destruct (Hnz Hr) as (Hp & hx & Hlr & _).
    destruct (ri_live _ _ _ Hi _ _ Hlr) as (k' & d' & l' & HA').
    assert (k = k') as <- by (by apply (HP k' r d' l')). congruence.
  - destruct (decide (r = 0)) as [|Hr]; [done|]. exfalso.
    destruct (Hnz Hr) as (Hp & hx & Hlr & _).
    destruct (ri_live _ _ _ Hi _ _ Hlr) as (k' & d' & l' & HA').
    assert (k = k') as <- by (by apply (HP k' r d' l')). congruence.
Qed.

Lemma node_nonzero st live A k x d l :
  reass_inv st live A -> A !! k = Some (x, d, l) -> x <> 0.
Proof.
  intros Hi HA ->. destruct (ri_entry _ _ _ Hi _ _ _ _ HA) as (Hl & _).
  destruct (ri_hash _ _ _ Hi) as (ls & _ & H0 & _). congruence.
Qed.

(** *** Changes *)

(** The state changes only in buffers no list reads and in what the invariant
    does not mention. *)
Lemma reass_inv_frame st st' live A :
  nodes st' = nodes st -> table_ip_reass st' = table_ip_reass st -> rdata st' = rdata st ->
  (forall b, ~ unlisted A b -> next_frag (rec_of (bufs st') b) = next_frag (rec_of (bufs st) b) /\
                      frag_offset (rec_of (bufs st') b) = frag_offset (rec_of (bufs st) b)) ->
  reass_inv st live A -> reass_inv st' live A.
Proof.
  intros En Et Ed Eb Hi. destruct Hi as [Hh He Hl Hd]. split; try done.
  - by rewrite En, Et.
  - intros k x d l HA. rewrite Ed. destruct (He _ _ _ _ HA) as (? & ? & ? & ? & Hg). split_and!; try done.
    apply (group_ok_frame (bufs st)); [|done]. intros b Hb. apply Eb. intros Hu. by apply (Hu _ _ _ _ HA).
Qed.

(** Taking a key's node out of the table. *)
Lemma reass_inv_drop st live A k x d l :
  reass_inv st live A -> A !! k = Some (x, d, l) ->
  reass_inv (drop_node x (byte_hash k) st) (delete x live) (delete k A) /\
  bufs (drop_node x (byte_hash k) st) = bufs st /\ mem (drop_node x (byte_hash k) st) = mem st /\
  rdata (drop_node x (byte_hash k) st) = rdata st.
Proof.
  intros Hi HA. destruct (ri_entry _ _ _ Hi _ _ _ _ HA) as (Hlx & _).
  unfold drop_node. cbn [nodes set_timers table_ip_reass].
  destruct (hashFreeNode (nodes st) (table_ip_reass st) x (byte_hash k)) as [N h] eqn:E.
  split; [|done]. destruct Hi as [Hh He Hl Hd]. split; cbn.
  - by apply (gh_step_free (nodes st) (table_ip_reass st) live x (byte_hash k)).
  - intros k' x' d' l' [Hne HA']%lookup_delete_Some.
    destruct (He _ _ _ _ HA') as (Hlx' & ? & Ek' & ? & ?). split_and!; try done.
    rewrite lookup_delete_ne; [done|]. intros ->.
    destruct (He _ _ _ _ HA) as (_ & Ed & Ek & _). congruence.
  - intros y hy [Hne Hly]%lookup_delete_Some. destruct (Hl _ _ Hly) as (k' & d' & l' & HA').
    exists k', d', l'. rewrite lookup_delete_ne; [done|]. intros ->. congruence.
  - intros k1 k2 x1 d1 l1 x2 d2 l2 b [_ HA1]%lookup_delete_Some [_ HA2]%lookup_delete_Some. eauto.
Qed.

(** New data and fragments for a key that is in the table. *)
Lemma reass_inv_update st st' live A k x d l d' l' :
  reass_inv st live A -> A !! k = Some (x, d, l) ->
  nodes st' = nodes st -> table_ip_reass st' = table_ip_reass st ->
  (forall y, (rdata st').[y] = if decide (y = x) then d' else (rdata st).[y]) ->
  nr_key d' = k -> group_ok (bufs st') d' l' ->
  (forall b, b ∈ l' -> b ∈ l \/ unlisted A b) ->
  (forall b, b ∉ l' -> rec_of (bufs st') b = rec_of (bufs st) b) ->
  reass_inv st' live (<[k := (x, d', l')]> A).
Proof.
  intros Hi HA En Et Ed Ek Hg Hl' Hfr.
  assert (Hdis : forall k2 x2 d2 l2 b, k2 <> k -> A !! k2 = Some (x2, d2, l2) -> b ∈ l2 -> b ∉ l').
  { intros k2 x2 d2 l2 b Hne HA2 Hb Hb'. destruct (Hl' b Hb') as [Hbl|Hu]; [|by apply (Hu _ _ _ _ HA2)].
    apply Hne. by apply (ri_disj _ _ _ Hi _ _ _ _ _ _ _ _ b HA2 HA). }
  pose proof (ri_entry _ _ _ Hi _ _ _ _ HA) as (Hlx & _ & _ & Hlen & _). split.
  - rewrite En, Et. apply (ri_hash _ _ _ Hi).
  - intros k2 x2 d2 l2 [[-> [= <- <- <-]]|[Hne HA2]]%lookup_insert_Some.
    + split_and!; try done. rewrite Ed, decide_True by done. done.
    + destruct (ri_entry _ _ _ Hi _ _ _ _ HA2) as (Hl2 & Ed2 & Ek2 & Hk2 & Hg2).
      assert (x2 <> x).
      { intros ->. destruct (ri_entry _ _ _ Hi _ _ _ _ HA) as (_ & Ed1 & Ek1 & _). congruence. }
      split_and!; try done; [by rewrite Ed, decide_False|].
      apply (group_ok_frame (bufs st)); [|done]. intros b Hb. by rewrite Hfr by eauto.
  - intros y hy Hy. destruct (ri_live _ _ _ Hi _ _ Hy) as (k2 & d2 & l2 & HA2).
    destruct (decide (k2 = k)) as [->|Hne].
    + assert (y = x) as -> by congruence. exists k, d', l'. apply lookup_insert_eq.
    + exists k2, d2, l2. by rewrite lookup_insert_ne.
  - intros k1 k2 x1 d1 l1 x2 d2 l2 b HA1 HA2 Hb1 Hb2.
    apply lookup_insert_Some in HA1 as [[<- [= <- <- <-]]|[Hn1 HA1]],
      HA2 as [[<- [= <- <- <-]]|[Hn2 HA2]]; try done.
    + by destruct (Hdis _ _ _ _ b (not_eq_sym Hn2) HA2).
    + by destruct (Hdis _ _ _ _ b (not_eq_sym Hn1) HA1).
    + by apply (ri_disj _ _ _ Hi _ _ _ _ _ _ _ _ b HA1 HA2).
Qed.

(** A new key. *)
Lemma reass_inv_insert st st' live A k x d' l' N h :
  reass_inv st live A -> A !! k = None -> length k = 40%nat -> x <> 0 -> live !! x = None ->
  ncount (table_ip_reass st) + 1 < 2 ^ 32 ->
  hashInsertNode (nodes st) (table_ip_reass st) (byte_hash k) x = (N, h) ->
  nodes st' = N -> table_ip_reass st' = h ->
  (forall y, (rdata st').[y] = if decide (y = x) then d' else (rdata st).[y]) ->
  nr_key d' = k -> group_ok (bufs st') d' l' ->
  (forall b, b ∈ l' -> unlisted A b) ->
  (forall b, b ∉ l' -> rec_of (bufs st') b = rec_of (bufs st) b) ->
  reass_inv st' (<[x := byte_hash k]> live) (<[k := (x, d', l')]> A).
Proof.
  intros Hi HA Hlen Hx Hlx Hbd E En Et Ed Ek Hg Hl' Hfr.
  assert (Hxl : forall k2 x2 d2 l2, A !! k2 = Some (x2, d2, l2) -> x2 <> x).
  { intros k2 x2 d2 l2 HA2 ->. destruct (ri_entry _ _ _ Hi _ _ _ _ HA2) as (? & _). congruence. }
  split.
  - rewrite En, Et. by apply (gh_step_insert (nodes st) (table_ip_reass st) live x (byte_hash k) N h (ri_hash _ _ _ Hi)).
  - intros k2 x2 d2 l2 [[-> [= <- <- <-]]|[Hne HA2]]%lookup_insert_Some.
    + rewrite lookup_insert_eq. split_and!; try done. by rewrite Ed, decide_True.
    + pose proof (Hxl _ _ _ _ HA2). destruct (ri_entry _ _ _ Hi _ _ _ _ HA2) as (Hl2 & Ed2 & Ek2 & Hk2 & Hg2).
      rewrite lookup_insert_ne by done. split_and!; try done; [by rewrite Ed, decide_False|].
      apply (group_ok_frame (bufs st)); [|done]. intros b Hb. rewrite Hfr; [done|].
      intros Hb'. by apply (Hl' b Hb' _ _ _ _ HA2).
  - intros y hy [[-> _]|[Hne Hy]]%lookup_insert_Some.
    + exists k, d', l'. apply lookup_insert_eq.
    + destruct (ri_live _ _ _ Hi _ _ Hy) as (k2 & d2 & l2 & HA2). exists k2, d2, l2.
      rewrite lookup_insert_ne; [done|]. intros ->. congruence.
  - intros k1 k2 x1 d1 l1 x2 d2 l2 b HA1 HA2 Hb1 Hb2.
    apply lookup_insert_Some in HA1 as [[<- [= <- <- <-]]|[Hn1 HA1]],
      HA2 as [[<- [= <- <- <-]]|[Hn2 HA2]]; try done.
    + by destruct (Hl' b Hb1 _ _ _ _ HA2).
    + by destruct (Hl' b Hb2 _ _ _ _ HA1).
    + by apply (ri_disj _ _ _ Hi _ _ _ _ _ _ _ _ b HA1 HA2).
Qed.
End inv.
