(* ===== verification/IpReassStep.v ===== *)
(** * One fragment refines the abstract step

    [abs_append] decides from the node's data and the fragments hung on it what
    becomes of an arriving fragment; [frag_append], [frag_first] and [frag_proc]
    do exactly that, keep [reass_inv] and touch nothing but the links. *)
From S2P Require Import Prelude GenericHash GenericHashRun Wdata IpReass IpReassInv.

Implicit Types (st : reass_state) (d : node_ip_reass_t) (l : list Z) (r : ip_reass_record_t).

(** ** The abstract step *)

Inductive verdict :=
| V_duplicate
| V_too_many
| V_too_large
| V_complete
| V_wait (d : node_ip_reass_t).

Section abs.
Context `{Vlib}.

Definition new_total d r (lastf : bool) : Z :=
  if lastf then u16 (frag_offset r + frag_size r) else total_len d.

(** [offsets] are those of the fragments present, [r] and [cur] the arriving
    fragment's record and window start, [lastf] tells that no more follow. *)
Definition abs_append d (offsets : list Z) r (lastf : bool) (b0 cur : Z) : verdict :=
  if decide (frag_offset r ∈ offsets) then V_duplicate
  else if decide (IP_REASS_MAX_CACHE_PKTS <= cache_pkt_num d + 1) then V_too_many
  else if lastf && (SF_HUGE_PKT_MAX_DATA_SIZE <? new_total d r lastf + cur) then V_too_large
  else if decide (u16 (meet_len d + frag_size r) = new_total d r lastf) then V_complete
  else V_wait (mk_nr (nr_key d) (nr_head d) b0 1 (cache_pkt_num d + 1)
                 (if lastf then 1 else recv_last_frag d) (new_total d r lastf)
                 (u16 (meet_len d + frag_size r)) (nr_interface_id d)).
End abs.

(** The node of a first fragment. *)
Definition first_node (k : list Z) r (lastf : bool) (b0 : Z) : node_ip_reass_t :=
  mk_nr k b0 b0 0 0 (if lastf then 1 else 0)
    (if lastf then u16 (frag_offset r + frag_size r) else 0) (u16 (0 + frag_size r)) (rec_interface_id r).

(** ** What a step leaves alone *)

Definition only_links st st' : Prop :=
  mem st' = mem st /\
  forall b, IpReass.sf_wdata (bufs st').[b] = IpReass.sf_wdata (bufs st).[b] /\
            rec_of (bufs st') b = set_next_frag (next_frag (rec_of (bufs st') b)) (rec_of (bufs st) b).

Lemma set_next_same r : set_next_frag (next_frag r) r = r.
Proof. by destruct r. Qed.

Lemma only_links_refl st : only_links st st.
Proof. split; [done|]. intros b. by rewrite set_next_same. Qed.

Lemma rec_of_set_rec b r st c :
  rec_of (bufs (set_rec b r st)) c = if decide (b = c) then r else rec_of (bufs st) c.
Proof. unfold rec_of. cbn. rewrite aget_aset. by destruct (decide (b = c)). Qed.

Lemma wdata_set_rec b r st c :
  IpReass.sf_wdata (bufs (set_rec b r st)).[c] = IpReass.sf_wdata (bufs st).[c].
Proof. cbn. rewrite aget_aset. destruct (decide (b = c)); by subst. Qed.

Lemma only_links_set_rec st b v :
  only_links st (set_rec b (set_next_frag v (rec_of (bufs st) b)) st).
Proof.
  split; [done|]. intros c. rewrite wdata_set_rec. split; [done|]. rewrite rec_of_set_rec.
  destruct (decide (b = c)) as [<-|]; [done|]. by rewrite set_next_same.
Qed.

(** Equal buffers and bytes. *)
Lemma only_links_eq st st1 st2 : bufs st2 = bufs st1 -> mem st2 = mem st1 -> only_links st st1 -> only_links st st2.
Proof. intros Eb Em [Hm Hb]. split; [congruence|]. by rewrite Eb. Qed.

(** ** Searching for a duplicate *)

Lemma dup_loop_spec B o l : forall x fuel, bseg B x l 0 -> (length l < fuel)%nat ->
  dup_loop fuel B o x = Some (bool_decide (o ∈ (fun b => frag_offset (rec_of B b)) <$> l)).
Proof.
  induction l as [|b l IH]; intros x [|fuel] Hs Hf; cbn in Hf; try lia.
  - cbn in Hs. subst x. done.
  - destruct Hs as (-> & Hb & Hs). cbn [dup_loop]. rewrite decide_False by done.
    fold (rec_of B b). destruct (decide (frag_offset (rec_of B b) = o)) as [Eo|Eo].
    + rewrite bool_decide_true; [done|]. rewrite fmap_cons. set_solver.
    + rewrite (IH _ _ Hs) by lia. f_equal. apply bool_decide_ext. rewrite fmap_cons, elem_of_cons.
      split; [auto|]. intros [?|?]; [congruence|done].
Qed.

(** ** Hanging a fragment on the list *)

Lemma last_snoc_split l (t : Z) : last l = Some t -> exists l', l = l' ++ [t].
Proof.
  destruct l as [|x l _] using rev_ind; [done|]. rewrite last_snoc. intros [= ->]. by exists l.
Qed.

Lemma bseg_append st d l b0 :
  group_ok (bufs st) d l -> b0 ∉ l -> b0 <> 0 -> next_frag (rec_of (bufs st) b0) = 0 ->
  bseg (bufs (set_rec (nr_tail d) (set_next_frag b0 (rec_of (bufs st) (nr_tail d))) st))
    (nr_head d) (l ++ [b0]) 0.
Proof.
  intros Hg Hni Hb0 Hn. destruct (last_snoc_split _ _ (go_last _ _ _ Hg)) as [l' ->].
  pose proof (go_chain _ _ _ Hg) as Hc. pose proof (go_nodup _ _ _ Hg) as Hnd.
  apply NoDup_app in Hnd as (_ & Hd & _).
  assert (Ht : nr_tail d ∉ l') by (intros Hin; apply (Hd _ Hin); set_solver).
  apply bseg_app in Hc as (y & H1 & -> & Hnz & _).
  apply bseg_app. exists b0. split.
  - apply bseg_app. exists (nr_tail d). split.
    + apply (bseg_frame (bufs st)); [|done]. intros c Hc. rewrite rec_of_set_rec.
      rewrite decide_False; [done|]. intros <-. done.
    + cbn [bseg]. split; [done|]. split; [done|]. by rewrite rec_of_set_rec, decide_True.
  - cbn [bseg]. split; [done|]. split; [done|]. rewrite rec_of_set_rec, decide_False; [done|].
    intros <-. apply Hni. set_solver.
Qed.

Section step.
Context `{ByteHash} `{Vlib}.
Variable clear : gmap Z Z -> sf_wdata_t -> Z -> gmap Z Z.

(** The state after the fragment is hung on the list. *)
Definition hang d b0 st : reass_state :=
  set_rec (nr_tail d) (set_next_frag b0 (rec_of (bufs st) (nr_tail d))) st.

Lemma offsets_hang d b0 st l :
  (fun b => frag_offset (rec_of (bufs (hang d b0 st)) b)) <$> l
  = (fun b => frag_offset (rec_of (bufs st) b)) <$> l.
Proof.
  apply list_fmap_ext. intros i b _. unfold hang. cbn beta. rewrite rec_of_set_rec.
  destruct (decide (nr_tail d = b)) as [<-|]; done.
Qed.

Lemma hang_group st d l b0 d' :
  group_ok (bufs st) d l -> b0 ∉ l -> b0 <> 0 -> next_frag (rec_of (bufs st) b0) = 0 ->
  frag_offset (rec_of (bufs st) b0) ∉ (fun b => frag_offset (rec_of (bufs st) b)) <$> l ->
  nr_head d' = nr_head d -> nr_tail d' = b0 -> cache_pkt_num d' = cache_pkt_num d + 1 ->
  cache_pkt_num d' < IP_REASS_MAX_CACHE_PKTS ->
  group_ok (bufs (hang d b0 st)) d' (l ++ [b0]).
Proof.
  intros Hg Hni Hb0 Hn Ho Eh Et Ec Hm. split.
  - rewrite Eh. by apply bseg_append.
  - apply NoDup_app. split_and!; [apply (go_nodup _ _ _ Hg)|set_solver|apply NoDup_singleton].
  - by rewrite last_snoc, Et.
  - rewrite Ec, (go_cache _ _ _ Hg), length_app. cbn. lia.
  - done.
  - rewrite offsets_hang, fmap_app. cbn. apply NoDup_app.
    split_and!; [apply (go_offsets _ _ _ Hg)| |apply NoDup_singleton].
    intros o Ho1 Ho2%list_elem_of_singleton. congruence.
Qed.

(** Leaving with the whole list: the node is gone and the list ends with the
    arriving fragment. *)
Definition handed_over st st' (live : gmap Z Z) (A : contents) (k : list Z) (x : Z) (d : node_ip_reass_t)
    (l : list Z) (b0 : Z) : Prop :=
  reass_inv st' (delete x live) (delete k A) /\ bseg (bufs st') (nr_head d) (l ++ [b0]) 0 /\ only_links st st'.

Lemma hand_over st live A k x d l b0 d' st' :
  reass_inv st live A -> A !! k = Some (x, d, l) -> unlisted A b0 -> b0 <> 0 ->
  next_frag (rec_of (bufs st) b0) = 0 -> nr_key d' = k ->
  frag_offset (rec_of (bufs st) b0) ∉ (fun b => frag_offset (rec_of (bufs st) b)) <$> l ->
  bufs st' = bufs (hang d b0 st) -> mem st' = mem st -> nodes st' = nodes st ->
  table_ip_reass st' = table_ip_reass st -> (forall y, (rdata st').[y] = if decide (y = x) then d' else (rdata st).[y]) ->
  handed_over st (drop_node x (byte_hash k) st') live A k x d l b0.
Proof.
  intros Hi HA Hu Hb0 Hn Ek Ho Eb Em En Et Ed.
  destruct (ri_entry _ _ _ Hi _ _ _ _ HA) as (Hlx & Edx & Ekx & Hlen & Hg).
  unfold drop_node. cbn [nodes set_timers table_ip_reass].
  destruct (hashFreeNode (nodes st') (table_ip_reass st') x (byte_hash k)) as [N h] eqn:E.
  rewrite En, Et in E. split; [|split].
  - split; cbn.
    + apply (gh_step_free (nodes st) (table_ip_reass st) live x (byte_hash k)); [apply (ri_hash _ _ _ Hi)|done|done].
    + intros k2 x2 d2 l2 [Hne HA2]%lookup_delete_Some.
      destruct (ri_entry _ _ _ Hi _ _ _ _ HA2) as (Hl2 & Ed2 & Ek2 & Hk2 & Hg2).
      assert (x2 <> x) by congruence.
      rewrite lookup_delete_ne, Ed, decide_False by done. split_and!; try done.
      rewrite Eb. apply (group_ok_frame (bufs st)); [|done]. intros b Hb. unfold hang.
      rewrite rec_of_set_rec, decide_False; [done|]. intros <-.
      apply Hne. apply (ri_disj _ _ _ Hi _ _ _ _ _ _ _ _ (nr_tail d) HA HA2); [|done].
      destruct (last_snoc_split _ _ (go_last _ _ _ Hg)) as [l' ->]. set_solver.
    + intros y hy [Hne Hy]%lookup_delete_Some.
      destruct (ri_live _ _ _ Hi _ _ Hy) as (k2 & d2 & l2 & HA2). exists k2, d2, l2.
      rewrite lookup_delete_ne; [done|]. intros ->. congruence.
    + intros k1 k2 x1 d1 l1 x2 d2 l2 b [_ HA1]%lookup_delete_Some [_ HA2]%lookup_delete_Some.
      apply (ri_disj _ _ _ Hi _ _ _ _ _ _ _ _ b HA1 HA2).
  - cbn. rewrite Eb. apply bseg_append; [done| |done|done]. intros Hin. by apply (Hu _ _ _ _ HA).
  - apply (only_links_eq _ (hang d b0 st)); [done|done|]. apply only_links_set_rec.
Qed.

Lemma handed_stat st st' live A k x d l b0 i s :
  handed_over st st' live A k x d l b0 -> handed_over st (update_ip_reass_stat i s st') live A k x d l b0.
Proof. intros ([] & Hb & Ho). split; [by split|]. split; [done|]. by apply (only_links_eq _ st'). Qed.

Lemma rdata_set x d st y : (rdata (set_rdata x d st)).[y] = if decide (y = x) then d else (rdata st).[y].
Proof.
  cbn. rewrite aget_aset. destruct (decide (x = y)), (decide (y = x)); congruence.
Qed.

Ltac solve_rdata :=
  let y := fresh "y" in intros y; rewrite !rdata_set; repeat case_decide; done.

(** What [frag_append] does, by the abstract step's verdict. *)
Definition append_result (v : verdict) st live A k x d l b0 (an : answers) iface fuel
    (res : option (reass_state * Z * Z)) : Prop :=
  match v with
  | V_duplicate => res = Some (st, b0, 1)
  | V_too_many => exists st', res = Some (st', nr_head d, cache_pkt_num d + 1) /\
      handed_over st st' live A k x d l b0
  | V_too_large => exists st', res = Some (st', nr_head d, cache_pkt_num d + 1) /\
      handed_over st st' live A k x d l b0
  | V_complete => exists st', handed_over st st' live A k x d l b0 /\
      res = let? (st'', rb, rs) :=
              frag_build_pkt clear fuel (an_huge an) (an_vb an) (nr_head d) (cache_pkt_num d + 1) st' in
            Some (update_ip_reass_stat iface ip_reass_timer_delete st'', rb, rs)
  | V_wait d' => exists st', res = Some (st', 0, 0) /\
      reass_inv st' live (<[k := (x, d', l ++ [b0])]> A) /\ only_links st st'
  end.

Lemma cache_range st d l : group_ok (bufs st) d l -> 0 <= cache_pkt_num d < IP_REASS_MAX_CACHE_PKTS.
Proof.
  intros Hg. split; [|apply (go_max _ _ _ Hg)]. rewrite (go_cache _ _ _ Hg).
  destruct (last_snoc_split _ _ (go_last _ _ _ Hg)) as [l' ->]. rewrite length_app. cbn. lia.
Qed.

Lemma frag_append_refines_aux st live A k x d l b0 v an fuel :
  reass_inv st live A -> A !! k = Some (x, d, l) -> unlisted A b0 -> b0 <> 0 ->
  next_frag (rec_of (bufs st) b0) = 0 -> (length l < fuel)%nat ->
  let r := rec_of (bufs st) b0 in
  append_result
    (abs_append d ((fun b => frag_offset (rec_of (bufs st) b)) <$> l) r (fv_last v) b0
       (current_data (IpReass.sf_wdata (bufs st).[b0])))
    st live A k x d l b0 an (rec_interface_id r) fuel
    (frag_append clear fuel v b0 x (byte_hash k) an st).
Proof.
  intros Hi HA Hu Hb0 Hn Hf. cbv zeta.
  destruct (ri_entry _ _ _ Hi _ _ _ _ HA) as (Hlx & Edx & Ekx & Hlen & Hg).
  pose proof (cache_range _ _ _ Hg) as Hc.
  assert (Hni : b0 ∉ l) by (intros Hin; by apply (Hu _ _ _ _ HA)).
  unfold frag_append, abs_append. rewrite Edx. fold (rec_of (bufs st) b0).
  rewrite (dup_loop_spec _ _ l) by (done || apply (go_chain _ _ _ Hg)). cbn [obind].
  set (r := rec_of (bufs st) b0) in *. set (offs := _ <$> l) in *.
  destruct (decide (frag_offset r ∈ offs)) as [Ho|Ho]; [by rewrite bool_decide_true|].
  rewrite bool_decide_false by done.
  fold (rec_of (bufs st) (nr_tail d)). fold (hang d b0 st).
  rewrite (wrap_small 8 (cache_pkt_num d + 1)) by (change IP_REASS_MAX_CACHE_PKTS with 10 in Hc; lia).
  assert (Hlnk : forall st', bufs st' = bufs (hang d b0 st) -> mem st' = mem st -> only_links st st').
  { intros st' Eb Em. apply (only_links_eq _ (hang d b0 st)); [done|done|]. apply only_links_set_rec. }
  assert (Hho : forall d1 st', nr_key d1 = nr_key d ->
    bufs st' = bufs (hang d b0 st) -> mem st' = mem st -> nodes st' = nodes st ->
    table_ip_reass st' = table_ip_reass st ->
    (forall y, (rdata st').[y] = if decide (y = x) then d1 else (rdata st).[y]) ->
    handed_over st (drop_node x (byte_hash k) st') live A k x d l b0).
  { intros d1 st' Ek Eb Em En Et Ed. by apply (hand_over st live A k x d l b0 d1 st'); congruence || done. }
  destruct (decide (IP_REASS_MAX_CACHE_PKTS <= cache_pkt_num d + 1)) as [Hmany|Hmany].
  { eexists. split; [reflexivity|]. do 2 apply handed_stat.
    eapply (Hho _ (set_rdata x _ (hang d b0 st))); cycle -1; [solve_rdata|done..]. }
  assert (Ew : IpReass.sf_wdata (bufs (hang d b0 st)).[b0] = IpReass.sf_wdata (bufs st).[b0]) by apply wdata_set_rec.
  cbn [bufs set_rdata]. rewrite Ew. cbn [nr_key nr_head nr_tail recv_new_pkt_in_interval recv_last_frag total_len meet_len nr_interface_id].
  match goal with |- context [set_rdata x (if fv_last v then ?p else ?q) _] =>
    set (d1 := if fv_last v then p else q) end.
  assert (Ed1 : nr_key d1 = nr_key d /\ nr_head d1 = nr_head d /\ nr_tail d1 = b0 /\
    total_len d1 = new_total d r (fv_last v) /\ meet_len d1 = meet_len d /\
    recv_last_frag d1 = (if fv_last v then 1 else recv_last_frag d) /\
    nr_interface_id d1 = nr_interface_id d) by (unfold d1, new_total; by destruct (fv_last v)).
  destruct Ed1 as (E1 & E2 & E3 & E4 & E5 & E6 & E7). rewrite E1, E2, E3, E4, E5, E6, E7.
  destruct (fv_last v && (SF_HUGE_PKT_MAX_DATA_SIZE <? _)).
  { eexists. split; [reflexivity|]. do 2 apply handed_stat.
    eapply (Hho _ (set_rdata x _ (set_rdata x _ (hang d b0 st)))); cycle -1; [solve_rdata|done..]. }
  destruct (decide (u16 (meet_len d + frag_size r) = new_total d r (fv_last v))) as [Em|Em].
  - eexists. split; [|reflexivity].
    eapply (Hho _ (set_rdata x _ (set_rdata x _ (set_rdata x _ (hang d b0 st))))); cycle -1; [solve_rdata|done..].
  - eexists. split; [reflexivity|]. split; [|by apply Hlnk].
    set (d2 := mk_nr _ _ b0 1 _ _ _ _ _).
    eapply (reass_inv_update st _ live A k x d l d2 (l ++ [b0]) Hi HA); try done.
    + intros y. rewrite !rdata_set. by destruct (decide (y = x)).
    + apply (hang_group st d l); try done. cbn. lia.
    + intros b [Hb| ->%list_elem_of_singleton]%elem_of_app; [by left|by right].
    + intros b Hb. cbn [bufs set_rdata]. unfold hang. rewrite rec_of_set_rec, decide_False; [done|].
      intros <-. apply Hb. destruct (last_snoc_split _ _ (go_last _ _ _ Hg)) as [l' ->]. set_solver.
Qed.
End step.
