(* ===== verification/IpReassProc.v ===== *)
(** * An arriving fragment

    [proc_result] says what [ip4_frag_proc] and [ip6_frag_proc] make of a fragment
    in terms of the contents of the table; [frag_proc_refines_aux] proves they do, and IpReassBuild completes it with the state
    after a packet has been built. *)
From S2P Require Import Prelude GenericHash GenericHashRun Wdata IpReass IpReassInv IpReassStep.

Implicit Types (st : reass_state) (d : node_ip_reass_t) (l : list Z) (r : ip_reass_record_t).

(** The two instances of the code. *)
Inductive ip_family := IPv4 | IPv6.

Definition family_view (f : ip_family) : gmap Z Z -> sf_wdata_t -> frag_view :=
  match f with IPv4 => ip4_view | IPv6 => ip6_view end.
Definition family_clear (f : ip_family) : gmap Z Z -> sf_wdata_t -> Z -> gmap Z Z :=
  match f with IPv4 => ip4_clear | IPv6 => ip6_clear end.
Definition family_frag_proc `{ByteHash} `{Vlib} (f : ip_family) :
    nat -> ip_reass_config -> Z -> answers -> reass_state -> option (reass_state * Z * Z) :=
  match f with IPv4 => ip4_frag_proc | IPv6 => ip6_frag_proc end.

Lemma family_key_length f m w : length (fv_key (family_view f m w)) = 40%nat.
Proof.
  destruct f; cbn [family_view]; unfold ip4_view, ip6_view; cbn [fv_key]; unfold key_bytes;
    by rewrite !length_app, !le_bytes_length.
Qed.

(** The fragment with its record filled in. *)
Definition arrived (f : ip_family) (cfg : ip_reass_config) (b0 : Z) st : reass_state :=
  set_rec b0 (init_record cfg (family_view f (mem st) (IpReass.sf_wdata (bufs st).[b0]))
                (IpReass.sf_wdata (bufs st).[b0]) (rec_of (bufs st) b0)) st.

Section proc.
Context `{ByteHash} `{Vlib}.

(** What becomes of a first fragment. *)
Definition first_result (k : list Z) (lastf : bool) st (live : gmap Z Z) (A : contents) (b0 : Z)
    (an : answers) (res : option (reass_state * Z * Z)) : Prop :=
  let r := rec_of (bufs st) b0 in
  if decide (an_node an = 0) then res = Some (st, b0, 1)
  else if decide (an_timer_info an = 0 \/ an_timer_submit an <> 0) then
    exists st', res = Some (st', b0, 1) /\ reass_inv st' live A /\ only_links st st'
  else
    exists st', res = Some (st', 0, 0) /\
      reass_inv st' (<[an_node an := byte_hash k]> live)
        (<[k := (an_node an, first_node k r lastf b0, [b0])]> A) /\
      timers st' = timers st ++ [(an_node an, byte_hash k)] /\ only_links st st'.

Definition proc_result (f : ip_family) (cfg : ip_reass_config) (v : frag_view) (w : sf_wdata_t)
    st (live : gmap Z Z) (A : contents) (b0 : Z) (an : answers) (fuel : nat)
    (res : option (reass_state * Z * Z)) : Prop :=
  let r := rec_of (bufs st) b0 in
  if decide ((ip_reass_layers cfg).[interface_id w - 1] < ip_wdata_cnt w) then res = Some (st, b0, -1)
  else match A !! fv_key v with
       | Some (x, d, l) =>
           append_result (family_clear f)
             (abs_append d ((fun b => frag_offset (rec_of (bufs st) b)) <$> l) r (fv_last v) b0
                (current_data w))
             st live A (fv_key v) x d l b0 an (rec_interface_id r) fuel res
       | None => first_result (fv_key v) (fv_last v) st live A b0 an res
       end.

Lemma first_group B b0 k r lastf :
  b0 <> 0 -> next_frag (rec_of B b0) = 0 -> group_ok B (first_node k r lastf b0) [b0].
Proof.
  intros Hb Hn. split; cbn; try done.
  - apply NoDup_singleton.
  - apply NoDup_singleton.
Qed.

Lemma timer_answer info sub x hx ts :
  snd (ip_reass_submit_timer info sub x hx ts) <> 0 <-> info = 0 \/ sub <> 0.
Proof. unfold ip_reass_submit_timer. repeat case_decide; cbn; naive_solver. Qed.

(** The node is inserted and taken out again when there is no timer for it. *)
Lemma first_undone st st' live A k x N h N' h' :
  reass_inv st live A -> x <> 0 -> live !! x = None -> ncount (table_ip_reass st) + 1 < 2 ^ 32 ->
  hashInsertNode (nodes st) (table_ip_reass st) (byte_hash k) x = (N, h) ->
  hashFreeNode N h x (byte_hash k) = (N', h') ->
  nodes st' = N' -> table_ip_reass st' = h' -> bufs st' = bufs st ->
  (forall y, y <> x -> (rdata st').[y] = (rdata st).[y]) -> reass_inv st' live A.
Proof.
  intros Hi Hx Hlx Hbd Ei Ef En Et Eb Ed.
  assert (Hh : gh_inv (N', h', live)).
  { rewrite <- (delete_insert_id live x (byte_hash k)) by done.
    eapply gh_step_free; [|apply lookup_insert_eq|exact Ef].
    by apply (gh_step_insert (nodes st) (table_ip_reass st)), Ei; [apply (ri_hash _ _ _ Hi)|..]. }
  destruct Hi as [_ He Hl Hd]. split; [by rewrite En, Et| |done|done].
  intros k2 x2 d2 l2 HA. destruct (He _ _ _ _ HA) as (Hl2 & Ed2 & ?).
  rewrite Eb, Ed by (intros ->; congruence). done.
Qed.

Lemma frag_first_refines st live A v b0 an :
  reass_inv st live A -> A !! fv_key v = None -> length (fv_key v) = 40%nat -> unlisted A b0 -> b0 <> 0 ->
  next_frag (rec_of (bufs st) b0) = 0 -> ncount (table_ip_reass st) + 1 < 2 ^ 32 ->
  (an_node an <> 0 -> live !! an_node an = None) ->
  first_result (fv_key v) (fv_last v) st live A b0 an
    (Some (frag_first v b0 (byte_hash (fv_key v)) an st)).
Proof.
  intros Hi HA Hlen Hu Hb0 Hn Hbd Hx. unfold frag_first, first_result.
  fold (rec_of (bufs st) b0). set (k := fv_key v) in *. set (x := an_node an) in *.
  destruct (decide (x = 0)) as [|Hx0]; [done|]. specialize (Hx Hx0).
  cbn [nodes table_ip_reass set_rdata].
  destruct (hashInsertNode (nodes st) (table_ip_reass st) (byte_hash k) x) as [N h] eqn:Ei.
  change (timers (set_table N h _)) with (timers st).
  pose proof (timer_answer (an_timer_info an) (an_timer_submit an) x (byte_hash k) (timers st)) as Ht.
  destruct (decide (an_timer_info an = 0 \/ an_timer_submit an <> 0)) as [Hf|Hf].
  - apply Ht in Hf.
    destruct (ip_reass_submit_timer _ _ _ _ (timers st)) as [ts ret]. cbn in Hf.
    rewrite decide_True by done. cbn [nodes table_ip_reass set_table].
    destruct (hashFreeNode N h x (byte_hash k)) as [N' h'] eqn:Ef. eexists. split; [done|].
    split; [|apply (only_links_eq _ st); [done..|apply only_links_refl]].
    eapply (first_undone st _ live A k x N h N' h' Hi); try done.
    intros y Hy. cbn. by rewrite aget_aset_ne.
  - assert (Er : ip_reass_submit_timer (an_timer_info an) (an_timer_submit an) x (byte_hash k) (timers st)
                 = (timers st ++ [(x, byte_hash k)], 0)).
    { unfold ip_reass_submit_timer. rewrite !decide_False by naive_solver. done. }
    rewrite Er, (decide_False (P := 0 <> 0)) by (intros ?; done). eexists. split; [done|]. split; [|split; [done|]].
    + eapply (reass_inv_insert st _ live A k x _ [b0] N h Hi); try done.
      * intros y. cbn. rewrite !aget_aset. by destruct (decide (x = y)), (decide (y = x)).
      * cbn [bufs set_rdata]. apply first_group; [done|]. by rewrite rec_of_set_rec, decide_True.
      * intros b ->%list_elem_of_singleton. done.
      * intros b Hb. cbn [bufs set_rdata]. rewrite rec_of_set_rec. cbn [bufs].
        rewrite decide_False; [done|]. set_solver.
    + apply (only_links_eq _ (set_rec b0 (set_next_frag 0 (rec_of (bufs st) b0)) st)); [done|done|].
      apply only_links_set_rec.
Qed.

Lemma arrived_inv f cfg b0 st live A :
  reass_inv st live A -> unlisted A b0 -> reass_inv (arrived f cfg b0 st) live A.
Proof.
  intros Hi Hu. apply (reass_inv_frame st); try done. intros b Hb. unfold arrived.
  rewrite rec_of_set_rec, decide_False; [done|]. by intros <-.
Qed.

Lemma frag_proc_refines_aux f cfg st live A b0 an fuel :
  let w := IpReass.sf_wdata (bufs st).[b0] in
  let v := family_view f (mem st) w in
  reass_inv st live A -> unlisted A b0 -> b0 <> 0 ->
  (A !! fv_key v = None -> (an_node an <> 0 -> live !! an_node an = None) /\
                           ncount (table_ip_reass st) + 1 < 2 ^ 32) ->
  (Nat.max 10 (size live) < fuel)%nat ->
  reass_inv (arrived f cfg b0 st) live A /\
  proc_result f cfg v w (arrived f cfg b0 st) live A b0 an fuel (family_frag_proc f fuel cfg b0 an st).
Proof.
  intros w v Hi Hu Hb0 Hnew Hf.
  pose proof (arrived_inv f cfg b0 st live A Hi Hu) as Hi1. split; [done|].
  assert (Hlen : length (fv_key v) = 40%nat) by apply family_key_length.
  assert (Hw : IpReass.sf_wdata (bufs (arrived f cfg b0 st)).[b0] = w) by apply wdata_set_rec.
  assert (Hn : next_frag (rec_of (bufs (arrived f cfg b0 st)) b0) = 0)
    by (unfold arrived; by rewrite rec_of_set_rec, decide_True).
  assert (E : family_frag_proc f fuel cfg b0 an st = frag_proc (family_view f) (family_clear f) fuel cfg b0 an st)
    by by destruct f.
  rewrite E. unfold frag_proc, proc_result. fold (rec_of (bufs st) b0) w v.
  change (set_rec b0 (init_record cfg v w (rec_of (bufs st) b0)) st) with (arrived f cfg b0 st).
  destruct (decide (_ < ip_wdata_cnt w)) as [|_]; [done|].
  rewrite (reass_find _ live A) by (done || lia). cbn [obind]. unfold node_of.
  destruct (A !! fv_key v) as [[[x d] l]|] eqn:HA.
  - rewrite decide_True by (by apply (node_nonzero _ _ _ _ _ _ _ Hi HA)).
    rewrite <- Hw. apply frag_append_refines_aux; try done.
    destruct (ri_entry _ _ _ Hi _ _ _ _ HA) as (_ & _ & _ & _ & Hg).
    pose proof (go_max _ _ _ Hg) as Hm. rewrite (go_cache _ _ _ Hg) in Hm. unfold IP_REASS_MAX_CACHE_PKTS in Hm. lia.
  - rewrite decide_False by (intros ?; done). destruct (Hnew eq_refl). by apply frag_first_refines.
Qed.

End proc.
