(* ===== verification/IpReassBuild.v ===== *)
(** * Building the reassembled packet

    The copies of [frag_build_pkt] as writes to memory: what the buffer built
    holds, and which bytes are written. *)
From S2P Require Import Prelude GenericHash GenericHashRun Wdata IpReass IpReassSplit IpReassInv IpReassStep IpReassProc.

Implicit Types (st : reass_state) (l : list Z) (m : gmap Z Z) (B : gmap Z vlib_buffer_t).

(** ** The fragments as pieces of a datagram *)

Definition off B (b : Z) : Z := frag_offset (rec_of B b).
Definition fsize B (b : Z) : Z := frag_size (rec_of B b).
(** Where a fragment's payload is. *)
Definition src B (b : Z) : Z := sf_wqe_get_current (sf_wdata B.[b]) + ip_hdr_len (rec_of B b).

Section copies.
Variables (o z s : Z -> Z).

(** The pieces [l] lie one after another from [a] to [e]. *)
Fixpoint tiles (a : Z) l (e : Z) : Prop :=
  match l with
  | [] => a = e
  | b :: l => o b = a /\ 0 < z b /\ tiles (a + z b) l e
  end.

Lemma tiles_range l : forall a e, tiles a l e -> a <= e.
Proof.
  induction l as [|b l IH]; intros a e; cbn; [lia|]. intros (? & ? & Ht). specialize (IH _ _ Ht). lia.
Qed.

Lemma tiles_bounds l : forall a e b, tiles a l e -> b ∈ l -> a <= o b /\ o b + z b <= e /\ 0 < z b.
Proof.
  induction l as [|c l IH]; intros a e b Ht Hb; [by apply not_elem_of_nil in Hb|].
  destruct Ht as (Eo & Hz & Ht). pose proof (tiles_range _ _ _ Ht).
  apply elem_of_cons in Hb as [->|Hb]; [lia|]. specialize (IH _ _ _ Ht Hb). lia.
Qed.

Lemma tiles_disjoint l : forall a e b c, tiles a l e -> b ∈ l -> c ∈ l -> b <> c ->
  o b + z b <= o c \/ o c + z c <= o b.
Proof.
  induction l as [|x l IH]; intros a e b c Ht Hb Hc Hne; [by apply not_elem_of_nil in Hb|].
  destruct Ht as (Eo & Hz & Ht).
  apply elem_of_cons in Hb as [->|Hb]; apply elem_of_cons in Hc as [->|Hc]; try done.
  - pose proof (tiles_bounds _ _ _ _ Ht Hc). lia.
  - pose proof (tiles_bounds _ _ _ _ Ht Hb). lia.
  - by apply (IH _ _ b c Ht).
Qed.

Lemma tiles_nodup l : forall a e, tiles a l e -> NoDup l.
Proof.
  induction l as [|b l IH]; intros a e; [by intros; apply NoDup_nil_2|]. intros (Eo & Hz & Ht).
  apply NoDup_cons. split; [|by apply (IH _ _ Ht)]. intros Hb.
  pose proof (tiles_bounds _ _ _ _ Ht Hb). lia.
Qed.

Lemma tiles_sum l : forall a e, tiles a l e -> a + zsum z l = e.
Proof. induction l as [|b l IH]; intros a e; cbn; [lia|]. intros (_ & _ & Ht). specialize (IH _ _ Ht). lia. Qed.

Lemma tiles_end l : forall a e, tiles a l e -> l <> [] -> exists b, b ∈ l /\ o b + z b = e.
Proof.
  induction l as [|b l IH]; intros a e; [done|]. intros (Eo & Hz & Ht) _.
  destruct l as [|c l]; [exists b; cbn in Ht; split; [set_solver|lia]|].
  destruct (IH _ _ Ht) as (b' & Hb' & E); [done|]. exists b'. split; [set_solver|done].
Qed.

(** All the copies. *)
Fixpoint copy_all l (dptr : Z) m : gmap Z Z :=
  match l with
  | [] => m
  | b :: l => copy_all l dptr (memcpy m (dptr + o b) (s b) (Z.to_nat (z b)))
  end.

Lemma copy_all_frame l dptr : forall m a, (forall b, b ∈ l -> 0 <= z b) ->
  (forall b, b ∈ l -> a < dptr + o b \/ dptr + o b + z b <= a) -> (copy_all l dptr m).[a] = m.[a].
Proof.
  induction l as [|b l IH]; intros m a Hz Ha; cbn; [done|].
  rewrite IH by set_solver. apply memcpy_frame.
  assert (0 <= z b) by (apply Hz; set_solver). rewrite Z2Nat.id by done. apply Ha. set_solver.
Qed.

Lemma copy_all_read l dptr : forall m b i, NoDup l -> b ∈ l -> 0 <= i < z b ->
  (forall b, b ∈ l -> 0 < z b) ->
  (forall b c, b ∈ l -> c ∈ l -> b <> c -> o b + z b <= o c \/ o c + z c <= o b) ->
  (forall b c, b ∈ l -> c ∈ l -> s b + z b <= dptr + o c \/ dptr + o c + z c <= s b) ->
  (copy_all l dptr m).[dptr + o b + i] = m.[s b + i].
Proof.
  induction l as [|c l IH]; intros m b i Hnd Hb Hi Hz Hd Hs; [by apply not_elem_of_nil in Hb|].
  apply NoDup_cons in Hnd as [Hc Hnd]. cbn.
  assert (Hzc : 0 < z c) by (apply Hz; set_solver).
  apply elem_of_cons in Hb as [->|Hb].
  - rewrite copy_all_frame; [|intros b Hb; assert (0 < z b) by (apply Hz; set_solver); lia|].
    + apply memcpy_copy; rewrite Z2Nat.id by lia; [|done]. destruct (Hs c c); set_solver by lia.
    + intros b Hb. destruct (Hd c b); [set_solver..|lia|lia].
  - rewrite IH by set_solver. apply memcpy_frame. rewrite Z2Nat.id by lia.
    destruct (Hs b c); [set_solver..|lia|lia].
Qed.

(** A byte that one copy alone writes. *)
Lemma copy_all_one l dptr : forall m b i, NoDup l -> b ∈ l ->
  (forall c, c ∈ l -> 0 <= z c) -> o b <= i < o b + z b ->
  (forall c, c ∈ l -> o c <= i < o c + z c -> c = b) ->
  (forall c d, c ∈ l -> d ∈ l -> s c + z c <= dptr + o d \/ dptr + o d + z d <= s c) ->
  (copy_all l dptr m).[dptr + i] = m.[s b + (i - o b)].
Proof.
  induction l as [|c l IH]; intros m b i Hnd Hb Hz Hi Honly Hs; [by apply not_elem_of_nil in Hb|].
  apply NoDup_cons in Hnd as [Hc Hnd]. cbn. assert (Hzc : 0 <= z c) by (apply Hz; set_solver).
  apply elem_of_cons in Hb as [->|Hb].
  - rewrite copy_all_frame; [|set_solver|].
    + replace (dptr + i) with (dptr + o c + (i - o c)) by lia.
      apply memcpy_copy; rewrite Z2Nat.id by done; [|lia]. destruct (Hs c c); [set_solver..|lia|lia].
    + intros d Hd. destruct (decide (o d <= i < o d + z d)) as [Hin|Hout]; [|lia].
      rewrite (Honly d) in Hd; [done|set_solver|done].
  - rewrite IH with (b := b); [|done|done|set_solver|done|set_solver|set_solver].
    apply memcpy_frame. rewrite Z2Nat.id by done. destruct (Hs b c); [set_solver..|lia|lia].
Qed.

(** Copies of tiles leave the datagram at the target. *)
Lemma copy_tiles_bytes m' m dptr l : forall a e, tiles a l e ->
  (forall b i, b ∈ l -> 0 <= i < z b -> m'.[dptr + o b + i] = m.[s b + i]) ->
  bytes_at m' (dptr + a) (Z.to_nat (e - a)) = concat (map (fun b => bytes_at m (s b) (Z.to_nat (z b))) l).
Proof.
  induction l as [|b l IH]; intros a e Ht Hr; cbn [map concat].
  - cbn in Ht. subst. by rewrite Z.sub_diag.
  - destruct Ht as (Eo & Hz & Ht). pose proof (tiles_range _ _ _ Ht).
    rewrite <- (IH (a + z b) e Ht) by set_solver.
    replace (Z.to_nat (e - a)) with (Z.to_nat (z b) + Z.to_nat (e - (a + z b)))%nat by lia.
    rewrite bytes_at_app, Z2Nat.id by lia. f_equal; [|f_equal; lia].
    apply bytes_at_ext. intros i Hi. rewrite <- Eo. apply Hr; [set_solver|lia].
Qed.
End copies.

Lemma copy_all_ext o z s o' z' s' l dptr : forall m,
  (forall b, b ∈ l -> o' b = o b /\ z' b = z b /\ s' b = s b) ->
  copy_all o' z' s' l dptr m = copy_all o z s l dptr m.
Proof.
  induction l as [|b l IH]; intros m E; cbn; [done|].
  destruct (E b) as (-> & -> & ->); [set_solver|]. apply IH. set_solver.
Qed.

(** ** The copying loop *)

Definition rest_same st st' : Prop :=
  nodes st' = nodes st /\ table_ip_reass st' = table_ip_reass st /\ rdata st' = rdata st /\
  timers st' = timers st /\ stats st' = stats st.

Lemma rest_same_trans st1 st2 st3 : rest_same st1 st2 -> rest_same st2 st3 -> rest_same st1 st3.
Proof. unfold rest_same. intros (->&->&->&->&->). done. Qed.

(** The buffers a fragment brings: itself and those below it. *)
Definition brings B (b : Z) : Z := followed_nodes_cnt (rec_of B b) + 1.

Lemma copy_loop_spec vb dptr w0 l : forall tmp st fuel s c,
  followed_nodes_cnt (rec_of (bufs st) vb) = u8 c ->
  bseg (bufs st) tmp l 0 -> vb ∉ l -> (length l < fuel)%nat ->
  sf_wdata (bufs st).[vb] = with_current (current_data w0) (u16 s) w0 ->
  exists st', copy_loop fuel vb dptr tmp st = Some st' /\ rest_same st st' /\
    mem st' = copy_all (off (bufs st)) (fsize (bufs st)) (src (bufs st)) l dptr (mem st) /\
    sf_wdata (bufs st').[vb] = with_current (current_data w0) (u16 (s + zsum (fsize (bufs st)) l)) w0 /\
    followed_nodes_cnt (rec_of (bufs st') vb) = u8 (c + zsum (brings (bufs st)) l) /\
    forall b, b <> vb -> (bufs st').[b] = (bufs st).[b].
Proof.
  induction l as [|b l IH]; intros tmp st [|fuel] s cnt Hcn Hc Hvb Hf Hw; cbn in Hf; try lia.
  - cbn in Hc. subst tmp. exists st. cbn. rewrite !Z.add_0_r. split_and!; done.
  - destruct Hc as (-> & Hb & Hc). assert (Hne : vb <> b) by set_solver.
    cbn [copy_loop]. rewrite decide_False by done.
    set (B := bufs st) in *.
    set (st1 := set_wdata vb _ st).
    set (st2 := set_mem _ st1).
    set (st3 := set_rec vb _ st2).
    assert (Eb : forall c, c <> vb -> (bufs st3).[c] = B.[c]).
    { intros c Hcv. subst st3 st2 st1. cbn. by rewrite !aget_aset_ne. }
    assert (Er : forall c, c <> vb -> rec_of (bufs st3) c = rec_of B c) by (intros c ?; unfold rec_of; by rewrite Eb).
    assert (Ew : sf_wdata (bufs st3).[vb] = with_current (current_data w0) (u16 (s + fsize B b)) w0).
    { subst st3 st2 st1. cbn. rewrite !aget_aset_eq. cbn. fold B. rewrite Hw.
      unfold with_current at 1. cbn. by rewrite wrap_add_l. }
    replace (next_frag _) with (next_frag (rec_of B b)) by (by rewrite <- (Er b)).
    assert (Ef : followed_nodes_cnt (rec_of (bufs st3) vb) = u8 (cnt + brings B b)).
    { subst st3 st2 st1. unfold rec_of. cbn. rewrite !aget_aset_eq. cbn. fold B. unfold brings, rec_of.
      unfold rec_of in Hcn. fold B in Hcn. by rewrite Hcn, wrap_add_l. }
    destruct (IH (next_frag (rec_of B b)) st3 fuel (s + fsize B b) (cnt + brings B b))
      as (st' & E & Hs & Em & Ew' & Ef' & Eb').
    + done.
    + apply (bseg_frame B); [|done]. intros c Hcl. rewrite Er; [done|]. set_solver.
    + set_solver.
    + lia.
    + done.
    + exists st'. split; [done|]. split; [by apply (rest_same_trans _ st3)|]. split_and!.
      * rewrite Em. cbn [copy_all]. apply copy_all_ext.
        intros c Hcl. assert (c <> vb) by set_solver. unfold off, fsize, src. by rewrite Er, Eb.
      * rewrite Ew'. f_equal. cbn [zsum]. rewrite Z.add_assoc.
        rewrite (zsum_ext _ (fsize B)); [done|]. intros c Hcl. unfold fsize. rewrite Er; [done|]. set_solver.
      * rewrite Ef'. cbn [zsum]. rewrite Z.add_assoc. f_equal. f_equal.
        apply zsum_ext. intros c Hcl. unfold brings. rewrite Er; [done|]. set_solver.
      * intros c Hcv. rewrite Eb' by done. by apply Eb.
Qed.

(** ** The whole packet *)

Lemma family_clear_frame f m w h a :
  20 <= h -> a < sf_wqe_get_current w \/ sf_wqe_get_current w + h <= a -> (family_clear f m w h).[a] = m.[a].
Proof.
  intros Hh Ha. destruct f; cbn [family_clear]; unfold ip4_clear, ip6_clear, ip6_frag_ptr, IPV6_FRAG_HEADER_LEN;
    rewrite !aget_aset_ne by lia; done.
Qed.

Section build.
Context `{ByteHash} `{Vlib}.

Lemma update_frame b st a :
  let p := sf_wqe_get_current (sf_wdata (bufs st).[b]) in
  a < p \/ p + 20 <= a -> (mem (update_ip_reass_pkt b st)).[a] = (mem st).[a].
Proof.
  cbv zeta. intros Ha. unfold update_ip_reass_pkt, store16. case_decide; cbn [mem set_mem]; rewrite !aget_aset_ne by lia; done.
Qed.

Lemma update_rest b st :
  bufs (update_ip_reass_pkt b st) = bufs st /\ rest_same st (update_ip_reass_pkt b st).
Proof. unfold update_ip_reass_pkt. case_decide; split; try done; split_and!; done. Qed.

(** [vb] holds the datagram whose [L] payload bytes the fragments [l] of [st] bring,
    in the block whose data starts at [D]. *)
Record built st st' (vb D : Z) l (hlen cd L : Z) : Prop := {
  bt_rest : rest_same st st';
  bt_bufs b : b <> vb -> (bufs st').[b] = (bufs st).[b];
  bt_ptr : data_ptr (sf_wdata (bufs st').[vb]) = D;
  bt_cur : current_data (sf_wdata (bufs st').[vb]) = cd + hlen;
  bt_len : current_length (sf_wdata (bufs st').[vb]) = u16 L;
  bt_payload_len : payload_len (ip_wdata (sf_wdata (bufs st').[vb])) = u16 L;
  bt_over : reass_over (ip_wdata (sf_wdata (bufs st').[vb])) = 1;
  bt_flag : is_reass_pkt (sf_wdata (bufs st').[vb]) = true;
  bt_followed : followed_nodes_cnt (rec_of (bufs st') vb) = u8 (zsum (brings (bufs st)) l);
  bt_child : child_frag (rec_of (bufs st') vb) = hd 0 l;
  bt_next : next_frag (rec_of (bufs st') vb) = 0;
  bt_below a : a < D -> (mem st').[a] = (mem st).[a];
  bt_copied : exists m1, (forall a, a < D \/ D + cd + hlen <= a -> m1.[a] = (mem st).[a]) /\
    forall a, D + cd + hlen <= a ->
    (mem st').[a] = (copy_all (off (bufs st)) (fsize (bufs st)) (src (bufs st)) l (D + cd + hlen) m1).[a]
}.

(** Rewriting the header of a packet that is output leaves its window alone. *)
Definition output_update (out hlen vb : Z) st : reass_state :=
  if decide (out <> 0) then
    let st := set_wdata vb (sf_wqe_advance (- hlen) (sf_wdata (bufs st).[vb])) st in
    let st := update_ip_reass_pkt vb st in
    set_wdata vb (sf_wqe_advance hlen (sf_wdata (bufs st).[vb])) st
  else st.

Lemma output_update_spec out hlen vb st cd D L :
  let w := sf_wdata (bufs st).[vb] in
  current_data w = cd + hlen -> data_ptr w = D -> current_length w = u16 L ->
  20 <= hlen -> 0 <= cd -> cd + hlen < 2 ^ 15 ->
  let st' := output_update out hlen vb st in
  rest_same st st' /\ (forall b, b <> vb -> (bufs st').[b] = (bufs st).[b]) /\
  sf_wdata (bufs st').[vb] = with_current (cd + hlen) (u16 L) w /\
  rec_of (bufs st') vb = rec_of (bufs st) vb /\
  forall a, a < D \/ D + cd + hlen <= a -> (mem st').[a] = (mem st).[a].
Proof.
  intros w Hc Hd Hl Hh Hcd Hb. cbv zeta. unfold output_update. case_decide.
  - set (st1 := set_wdata vb _ st).
    assert (Ew1 : sf_wdata (bufs st1).[vb] = with_current cd (u16 (L + hlen)) w).
    { cbn. rewrite aget_aset_eq. cbn. unfold sf_wqe_advance. fold w. rewrite Hc, Hl. f_equal.
      - rewrite i16_small; lia.
      - rewrite wrap_sub_l. f_equal. lia. }
    destruct (update_rest vb st1) as [Eb (?&?&?&?&?)]. rewrite Eb, Ew1.
    split_and!; try done.
    + intros b Hb'. cbn. rewrite Eb. cbn. by rewrite !aget_aset_ne.
    + cbn. rewrite aget_aset_eq. cbn. unfold sf_wqe_advance. cbn.
      rewrite i16_small, wrap_sub_l, Z.add_simpl_r by lia. done.
    + unfold rec_of. cbn. rewrite aget_aset_eq. cbn. rewrite Eb. cbn. by rewrite aget_aset_eq.
    + intros a Ha. cbn [mem set_wdata set_bufs]. rewrite update_frame; [done|]. rewrite Ew1.
      unfold sf_wqe_get_current. cbn. rewrite Hd. lia.
  - split_and!; try done. rewrite <- Hc, <- Hl. fold w. by destruct w.
Qed.

Lemma output_update_rest out hlen vb st :
  rest_same st (output_update out hlen vb st) /\ forall b, b <> vb -> (bufs (output_update out hlen vb st)).[b] = (bufs st).[b].
Proof.
  unfold output_update. case_decide; [|done]. set (st1 := set_wdata vb _ st).
  destruct (update_rest vb st1) as [Eb Hs]. split; [by apply (rest_same_trans _ st1)|].
  intros b Hb. cbn. rewrite Eb. cbn. by rewrite !aget_aset_ne.
Qed.

(** Whatever the lengths in the headers, building ends and changes no buffer but the new
    one, and without memory it hands the list back. *)
Lemma frag_build_total clear fuel huge vb x n st l :
  bseg (bufs st) x l 0 -> (vb <> 0 -> vb ∉ l) -> (length l < fuel)%nat ->
  exists st' rb rs, frag_build_pkt clear fuel huge vb x n st = Some (st', rb, rs) /\ rest_same st st' /\
    (forall b, vb = 0 \/ b <> vb -> (bufs st').[b] = (bufs st).[b]) /\
    (rb, rs) = if decide (huge + SF_HUGE_PKT_PRE_DATA_SIZE = 0 \/ vb = 0) then (x, n) else (vb, 0).
Proof.
  intros Hc Hni Hf. unfold frag_build_pkt. case_decide as HD; [by eexists _, _, _; rewrite decide_True by auto|].
  case_decide as Hvb; [by eexists _, _, _; rewrite decide_True by auto|]. specialize (Hni Hvb).
  set (hlen := ip_hdr_len _). set (m1 := clear _ _ hlen). set (w2 := sf_wqe_advance hlen _).
  set (w3 := with_current (current_data w2) 0 w2). set (dptr := sf_wqe_get_current w2).
  set (st1 := set_mem m1 _). set (st2 := set_rec vb _ st1).
  assert (Eb2 : forall b, b <> vb -> (bufs st2).[b] = (bufs st).[b])
    by (intros b Hb; cbn; by rewrite !aget_aset_ne).
  destruct (copy_loop_spec vb dptr w3 l x st2 fuel 0 0) as (st3 & E3 & Hs3 & _ & _ & _ & Eb3); [|
    |done|done| |].
  { unfold st2. by rewrite rec_of_set_rec, decide_True. }
  { apply (bseg_frame (bufs st)); [|done]. intros b Hb. unfold rec_of. rewrite Eb2; [done|]. by intros ->. }
  { cbn. rewrite aget_aset_eq. cbn. by rewrite aget_aset_eq. }
  rewrite E3. cbn [obind]. set (v3 := sf_wdata (bufs st3).[vb]).
  set (st4 := set_wdata vb (with_ip_wdata _ v3) st3). set (rh := ip_reass_record (bufs st4).[x]).
  match goal with |- context [set_rec vb (mk_rec _ _ _ _ _ (rec_interface_id rh) (ip_reass_output rh) _) st4] =>
    set (st5 := set_rec vb (mk_rec _ _ _ _ _ (rec_interface_id rh) (ip_reass_output rh) _) st4) end.
  destruct (output_update_rest (ip_reass_output rh) hlen vb st5) as [Hs6 Eb6].
  eexists _, vb, 0. split; [reflexivity|]. fold (output_update (ip_reass_output rh) hlen vb st5). split.
  { apply (rest_same_trans _ st5); [|exact Hs6]. exact Hs3. }
  split; [|by rewrite decide_False by tauto].
  intros b [?|Hb]; [done|]. cbn. rewrite aget_aset_ne, Eb6 by done. cbn. rewrite !aget_aset_ne by done. rewrite Eb3, Eb2; done.
Qed.

Lemma reass_flag w u :
  unused8 w = Z.lor (Z.lor u UNUSED8_FLAG_IP_REASS_PKT) UNUSED8_PKT_HUGE_PKT_WITH_WDATA -> is_reass_pkt w = true.
Proof.
  unfold is_reass_pkt. intros ->. apply negb_true_iff, Z.eqb_neq. intros E.
  apply (f_equal (fun z => Z.testbit z 3)) in E. rewrite Z.land_spec, !Z.lor_spec in E.
  by rewrite !orb_true_r in E.
Qed.

Lemma frag_build_spec f fuel huge vb x n st l :
  let D := huge + SF_HUGE_PKT_PRE_DATA_SIZE in
  let hlen := ip_hdr_len (rec_of (bufs st) x) in
  let cd := current_data (sf_wdata (bufs st).[x]) in
  D <> 0 -> vb <> 0 -> bseg (bufs st) x l 0 -> x <> 0 -> vb ∉ l -> (length l < fuel)%nat ->
  20 <= hlen -> 0 <= cd -> cd + hlen < 2 ^ 15 ->
  (forall b, b ∈ l -> 0 <= off (bufs st) b /\ 0 <= fsize (bufs st) b) ->
  exists st', frag_build_pkt (family_clear f) fuel huge vb x n st = Some (st', vb, 0) /\
    built st st' vb D l hlen cd (zsum (fsize (bufs st)) l).
Proof.
  intros D hlen cd HD Hvb Hc Hx Hni Hf Hh Hcd Hcdh Hpos.
  unfold frag_build_pkt. fold D. rewrite !decide_False by done.
  fold (rec_of (bufs st) x). fold hlen.
  set (wt := sf_wdata (bufs st).[x]) in *.
  set (w1 := with_buffer _ D wt).
  set (m1 := family_clear f _ w1 hlen).
  set (w2 := sf_wqe_advance hlen w1).
  set (w3 := with_current (current_data w2) 0 w2).
  set (dptr := sf_wqe_get_current w2).
  set (st1 := set_mem m1 _). set (st2 := set_rec vb _ st1).
  assert (Hxv : x <> vb) by (intros ->; apply Hni; destruct l; [by cbn in Hc|destruct Hc as (-> & _); set_solver]).
  assert (Ecd : current_data w2 = cd + hlen) by (apply i16_small; cbn; fold cd; lia).
  assert (Edp : dptr = D + cd + hlen) by (unfold dptr, sf_wqe_get_current; rewrite Ecd; cbn; lia).
  assert (Eb2 : forall b, b <> vb -> (bufs st2).[b] = (bufs st).[b])
    by (intros b Hb; cbn; by rewrite !aget_aset_ne).
  assert (Er2 : forall b, b <> vb -> rec_of (bufs st2) b = rec_of (bufs st) b)
    by (intros b Hb; unfold rec_of; by rewrite Eb2).
  assert (Hl2 : forall b, b ∈ l -> b <> vb) by set_solver.
  destruct (copy_loop_spec vb dptr w3 l x st2 fuel 0 0) as (st3 & E3 & Hs3 & Em3 & Ew3 & Ef3 & Eb3).
  { unfold st2. by rewrite rec_of_set_rec, decide_True. }
  { apply (bseg_frame (bufs st)); [|done]. intros b Hb. by rewrite Er2 by auto. }
  { done. } { done. }
  { cbn. rewrite aget_aset_eq. cbn. by rewrite aget_aset_eq. }
  rewrite E3. cbn [obind].
  set (v3 := sf_wdata (bufs st3).[vb]) in *.
  set (st4 := set_wdata vb (with_ip_wdata (set_payload_len (current_length v3) (ip_wdata v3)) v3) st3).
  set (rh := rec_of (bufs st4) x). set (rb := rec_of (bufs st4) vb).
  set (st5 := set_rec vb (mk_rec (child_frag rb) (next_frag rb) (frag_offset rb) (frag_size rb)
                (ip_hdr_len rb) (rec_interface_id rh) (ip_reass_output rh) (followed_nodes_cnt rb)) st4).
  set (st6 := output_update (ip_reass_output rh) hlen vb st5).
  set (rb6 := rec_of (bufs st6) vb).
  exists (set_rec vb (mk_rec x 0 (frag_offset rb6) (frag_size rb6) (ip_hdr_len rb6)
            (rec_interface_id rb6) (ip_reass_output rb6) (followed_nodes_cnt rb6)) st6).
  split; [reflexivity|].
  assert (Ez : zsum (fsize (bufs st2)) l = zsum (fsize (bufs st)) l)
    by (apply zsum_ext; intros b Hb; unfold fsize; by rewrite Er2 by auto).
  rewrite Ez, Z.add_0_l in Ew3. set (L := zsum (fsize (bufs st)) l) in *.
  assert (Ew5 : sf_wdata (bufs st5).[vb] = with_ip_wdata (set_payload_len (u16 L) (ip_wdata w3))
                  (with_current (current_data w3) (u16 L) w3)).
  { cbn. rewrite !aget_aset_eq. cbn. by rewrite Ew3. }
  destruct (output_update_spec (ip_reass_output rh) hlen vb st5 cd D L) as (Hs6 & Eb6 & Ew6 & Er6 & Em6);
    [by rewrite Ew5|by rewrite Ew5|by rewrite Ew5|done..|]. fold st6 in Hs6, Eb6, Ew6, Er6, Em6.
  assert (Ecopy : mem st3 = copy_all (off (bufs st)) (fsize (bufs st)) (src (bufs st)) l dptr m1).
  { rewrite Em3. apply copy_all_ext. intros b Hb. unfold off, fsize, src. rewrite Er2, Eb2 by auto. done. }
  rewrite Edp in Ecopy.
  assert (Hm1 : forall a, a < D \/ D + cd + hlen <= a -> m1.[a] = (mem st).[a]).
  { intros a Ha. unfold m1. rewrite family_clear_frame; [|done|unfold sf_wqe_get_current; cbn; fold cd; lia].
    rewrite !memcpy_frame; [done| |]; unfold sf_wqe_get_current; cbn; fold cd; lia. }
  split.
  - apply (rest_same_trans _ st5); [|done]. done.
  - intros b Hb. cbn. rewrite aget_aset_ne, Eb6 by done. cbn. rewrite !aget_aset_ne by done. rewrite Eb3, Eb2; done.
  - rewrite wdata_set_rec, Ew6, Ew5. done.
  - rewrite wdata_set_rec, Ew6. done.
  - rewrite wdata_set_rec, Ew6. done.
  - rewrite wdata_set_rec, Ew6, Ew5. done.
  - rewrite wdata_set_rec, Ew6, Ew5. done.
  - rewrite wdata_set_rec, Ew6, Ew5. by apply (reass_flag _ (unused8 wt)).
  - rewrite rec_of_set_rec, decide_True by done. cbn [followed_nodes_cnt]. unfold rb6. rewrite Er6.
    unfold st5. rewrite rec_of_set_rec, decide_True by done. cbn [followed_nodes_cnt]. unfold rb, st4, rec_of.
    cbn. rewrite aget_aset_eq. cbn. fold (rec_of (bufs st3) vb). rewrite Ef3, Z.add_0_l. f_equal.
    apply zsum_ext. intros b Hb. unfold brings. by rewrite Er2 by auto.
  - rewrite rec_of_set_rec, decide_True by done. cbn.
    destruct l as [|y l]; [by cbn in Hc|]. by destruct Hc as (-> & _).
  - by rewrite rec_of_set_rec, decide_True.
  - intros a Ha. cbn [mem set_rec set_bufs]. rewrite Em6 by lia. cbn [mem st5 st4 set_rec set_wdata set_bufs].
    rewrite Ecopy, copy_all_frame; [by apply Hm1; left| |].
    + intros b Hb. by apply Hpos.
    + intros b Hb. destruct (Hpos b Hb). lia.
  - exists m1. split; [done|]. intros a Ha. cbn [mem set_rec set_bufs]. rewrite Em6 by lia.
    cbn [mem st5 st4 set_rec set_wdata set_bufs]. by rewrite Ecopy.
Qed.

(** Building the packet from fragments that end within [T] bytes, where [T] and the bytes before
    the IP header pass the length check of [ip4_frag_proc], writes at most the length of the IP
    header past the end of the 16 KB block, and nothing past it when the header fits too; it
    never writes before the block's data. *)
Theorem build_in_block f fuel huge vb x n st l T
    (Hhuge : 0 < huge + SF_HUGE_PKT_PRE_DATA_SIZE) (Hvb : vb <> 0) (Hx : x <> 0)
    (Hc : bseg (bufs st) x l 0) (Hni : vb ∉ l) (Hf : (length l < fuel)%nat)
    (Hhdr : 20 <= ip_hdr_len (rec_of (bufs st) x)) (Hcd : 0 <= current_data (sf_wdata (bufs st).[x]))
    (Hwin : current_data (sf_wdata (bufs st).[x]) + ip_hdr_len (rec_of (bufs st) x) < 2 ^ 15)
    (Hl : forall b, b ∈ l -> 0 <= off (bufs st) b /\ 0 <= fsize (bufs st) b /\ off (bufs st) b + fsize (bufs st) b <= T)
    (Hcheck : T + current_data (sf_wdata (bufs st).[x]) <= SF_HUGE_PKT_MAX_DATA_SIZE) :
  exists st', frag_build_pkt (family_clear f) fuel huge vb x n st = Some (st', vb, 0) /\
    forall a, (a < huge + SF_HUGE_PKT_PRE_DATA_SIZE \/
               huge + SF_HUGE_PKT_16KB_MAX_SIZE + ip_hdr_len (rec_of (bufs st) x) <= a \/
               (huge + SF_HUGE_PKT_16KB_MAX_SIZE <= a /\
                T + current_data (sf_wdata (bufs st).[x]) + ip_hdr_len (rec_of (bufs st) x)
                  <= SF_HUGE_PKT_MAX_DATA_SIZE)) ->
      (mem st').[a] = (mem st).[a].
Proof.
  assert (Hlx : x ∈ l) by (destruct l as [|y l]; [by cbn in Hc|destruct Hc as (-> & _); set_solver]).
  destruct (Hl x Hlx) as (? & ? & ?).
  destruct (frag_build_spec f fuel huge vb x n st l) as (st' & E & Hb); try done; [lia| |].
  { intros b Hbl. destruct (Hl b Hbl) as (? & ? & ?). done. }
  exists st'. split; [done|]. unfold SF_HUGE_PKT_MAX_DATA_SIZE in *. intros a Ha.
  destruct (decide (a < huge + SF_HUGE_PKT_PRE_DATA_SIZE)) as [Hlt|Hge]; [by apply (bt_below _ _ _ _ _ _ _ _ Hb)|].
  destruct (bt_copied _ _ _ _ _ _ _ _ Hb) as (m1 & Hm1 & Hm2). rewrite Hm2 by lia.
  rewrite copy_all_frame; [apply Hm1; lia| |]; intros b Hbl; destruct (Hl b Hbl) as (? & ? & ?); lia.
Qed.

(** The length check only adds the lengths up: a payload byte of the packet built that no fragment
    covers keeps what the block held before, and a byte covered by exactly one fragment is that
    fragment's. *)
Theorem built_bytes f fuel huge vb x n st l i
    (Hhuge : huge + SF_HUGE_PKT_PRE_DATA_SIZE <> 0) (Hvb : vb <> 0) (Hx : x <> 0)
    (Hc : bseg (bufs st) x l 0) (Hnd : NoDup l) (Hni : vb ∉ l) (Hf : (length l < fuel)%nat)
    (Hhdr : 20 <= ip_hdr_len (rec_of (bufs st) x)) (Hcd : 0 <= current_data (sf_wdata (bufs st).[x]))
    (Hwin : current_data (sf_wdata (bufs st).[x]) + ip_hdr_len (rec_of (bufs st) x) < 2 ^ 15)
    (Hl : forall b, b ∈ l -> 0 <= off (bufs st) b /\ 0 <= fsize (bufs st) b) (Hi : 0 <= i) :
  let start := huge + SF_HUGE_PKT_PRE_DATA_SIZE + current_data (sf_wdata (bufs st).[x]) +
               ip_hdr_len (rec_of (bufs st) x) in
  let covers := fun b => off (bufs st) b <= i < off (bufs st) b + fsize (bufs st) b in
  (forall b, b ∈ l -> src (bufs st) b + fsize (bufs st) b <= huge + SF_HUGE_PKT_PRE_DATA_SIZE \/
     forall c, c ∈ l -> start + off (bufs st) c + fsize (bufs st) c <= src (bufs st) b) ->
  exists st', frag_build_pkt (family_clear f) fuel huge vb x n st = Some (st', vb, 0) /\
    ((forall b, b ∈ l -> ~ covers b) -> (mem st').[start + i] = (mem st).[start + i]) /\
    forall b, b ∈ l -> covers b -> (forall c, c ∈ l -> covers c -> c = b) ->
      (mem st').[start + i] = (mem st).[src (bufs st) b + (i - off (bufs st) b)].
Proof.
  intros start covers Hsep.
  destruct (frag_build_spec f fuel huge vb x n st l) as (st' & E & Hb); try done.
  exists st'. split; [done|].
  destruct (bt_copied _ _ _ _ _ _ _ _ Hb) as (m1 & Hm1 & Hm2). unfold start.
  assert (Hz : forall b, b ∈ l -> 0 <= fsize (bufs st) b) by (intros b Hbl; by apply Hl).
  split.
  - intros Hun. rewrite Hm2 by lia. rewrite copy_all_frame; [apply Hm1; lia|done|].
    intros b Hbl. specialize (Hun b Hbl). unfold covers in Hun. lia.
  - intros b Hbl Hcov Honly. rewrite Hm2 by lia.
    rewrite (copy_all_one _ _ _ l _ m1 b i); try done; [|intros c d Hcl Hdl; specialize (Hsep c Hcl);
      destruct (Hl c Hcl), (Hl d Hdl); destruct Hsep as [Hs|Hs]; [lia|specialize (Hs d Hdl); unfold start in Hs; lia]].
    apply Hm1. unfold covers in Hcov. destruct (Hsep b Hbl) as [Hs|Hs]; [lia|].
    specialize (Hs b Hbl). unfold start in Hs. destruct (Hl b Hbl). lia.
Qed.
(** The fragment completes its group. *)
Definition completes (f : ip_family) (cfg : ip_reass_config) st (A : contents) (b0 : Z) x d l : Prop :=
  let w := sf_wdata (bufs st).[b0] in let v := family_view f (mem st) w in
  ~ (ip_reass_layers cfg).[interface_id w - 1] < ip_wdata_cnt w /\ A !! fv_key v = Some (x, d, l) /\
  abs_append d ((fun b => frag_offset (rec_of (bufs (arrived f cfg b0 st)) b)) <$> l)
    (rec_of (bufs (arrived f cfg b0 st)) b0) (fv_last v) b0 (current_data w) = V_complete.

(** Building does not disturb the table. *)
Lemma build_keeps_inv clear fuel huge vb x n st live A l :
  reass_inv st live A -> bseg (bufs st) x l 0 -> (vb <> 0 -> unlisted A vb /\ vb ∉ l) -> (length l < fuel)%nat ->
  exists st' rb rs, frag_build_pkt clear fuel huge vb x n st = Some (st', rb, rs) /\
    (forall i s, reass_inv (update_ip_reass_stat i s st') live A) /\
    (rb, rs) = if decide (huge + SF_HUGE_PKT_PRE_DATA_SIZE = 0 \/ vb = 0) then (x, n) else (vb, 0).
Proof.
  intros Hi Hc Hvb Hf. destruct (frag_build_total clear fuel huge vb x n st l Hc) as (st' & rb & rs & E & Hs & Hb & Ea);
    [by intros ?; apply Hvb|done|].
  exists st', rb, rs. split_and!; try done. intros i s. destruct Hs as (En & Et & Ed & _ & _).
  apply (reass_inv_frame st); try done. intros b Hl. cbn. unfold rec_of. rewrite Hb; [done|].
  destruct (decide (vb = 0)) as [|Hz]; [by left|right]. intros ->. by destruct (Hvb Hz).
Qed.

(** C11: a fragment of either family, in any state whose table holds [A], with any answers of
    the allocators (a new buffer is on no list): over the configured layers it is handed back
    (-1); with a new key it starts a group, or is handed back (1) without a trace in the table
    when there is no node or no timer; with a known key it is a duplicate (1), or the eleventh
    or the end of a datagram that is too large and the whole group leaves, or it completes the
    length, the group leaves the table and the answer is the packet built from it, or the group
    itself when there is no memory for one, or it waits.  In every case the call returns, the
    state it leaves satisfies the invariant again, and the groups of all other keys are as
    before. *)
Theorem frag_proc_refines f cfg st live A b0 an fuel
    (Hi : reass_inv st live A) (Hu : unlisted A b0) (Hb0 : b0 <> 0)
    (Hx : an_node an <> 0 -> live !! an_node an = None)
    (Hvb : an_vb an <> 0 -> unlisted A (an_vb an) /\ an_vb an <> b0)
    (Hbd : ncount (table_ip_reass st) + 1 < 2 ^ 32) (Hf : (Nat.max 10 (size live) < fuel)%nat) :
  let w := sf_wdata (bufs st).[b0] in let v := family_view f (mem st) w in
  reass_inv (arrived f cfg b0 st) live A /\
  proc_result f cfg v w (arrived f cfg b0 st) live A b0 an fuel (family_frag_proc f fuel cfg b0 an st) /\
  exists st' rb rs live' A', family_frag_proc f fuel cfg b0 an st = Some (st', rb, rs) /\
    reass_inv st' live' A' /\ delete (fv_key v) A' = delete (fv_key v) A /\
    forall x d l, completes f cfg st A b0 x d l -> A' = delete (fv_key v) A /\
      (rb, rs) = if decide (an_huge an + SF_HUGE_PKT_PRE_DATA_SIZE = 0 \/ an_vb an = 0)
                 then (nr_head d, cache_pkt_num d + 1) else (an_vb an, 0).
Proof.
  intros w v. destruct (frag_proc_refines_aux f cfg st live A b0 an fuel) as [Hi1 Hp]; try done. fold w v in Hp.
  split; [done|]. split; [done|]. unfold completes. fold w v. unfold proc_result in Hp.
  case_decide as Hlay; [exists (arrived f cfg b0 st), b0, (-1), live, A; split_and!; try done; by intros ??? [? _]|].
  destruct (A !! fv_key v) as [[[x d] l]|] eqn:HA.
  - destruct (abs_append _ _ _ _ _ _) eqn:Ev; cbn [append_result] in Hp.
    + eexists _, _, _, live, A. split; [exact Hp|]. split_and!; try done. intros ??? (_ & [= <- <- <-] & E). congruence.
    + destruct Hp as (st' & -> & Hi' & _). eexists _, _, _, _, _. split; [done|]. split; [exact Hi'|].
      split; [by rewrite delete_delete_eq|]. intros ??? (_ & [= <- <- <-] & E). congruence.
    + destruct Hp as (st' & -> & Hi' & _). eexists _, _, _, _, _. split; [done|]. split; [exact Hi'|].
      split; [by rewrite delete_delete_eq|]. intros ??? (_ & [= <- <- <-] & E). congruence.
    + destruct Hp as (st' & (Hi' & Hc & _) & ->).
      destruct (build_keeps_inv (family_clear f) fuel (an_huge an) (an_vb an) (nr_head d) (cache_pkt_num d + 1) st'
        (delete x live) (delete (fv_key v) A) (l ++ [b0]) Hi' Hc) as (st2 & rb & rs & E & Hi2 & Ea).
      * intros Hz. destruct (Hvb Hz) as [Hl Hne]. split.
        -- intros k' x' d' l' [_ HA']%lookup_delete_Some. by apply (Hl k' x' d').
        -- intros [Hin|Eb%list_elem_of_singleton]%elem_of_app; [by apply (Hl _ _ _ _ HA)|done].
      * destruct (ri_entry _ _ _ Hi _ _ _ _ HA) as (_ & _ & _ & _ & Hg). pose proof (go_max _ _ _ Hg) as Hm.
        rewrite (go_cache _ _ _ Hg) in Hm. rewrite length_app. cbn [length]. unfold IP_REASS_MAX_CACHE_PKTS in Hm.
        unfold abs_append in Ev. rewrite (go_cache _ _ _ Hg) in Ev. unfold IP_REASS_MAX_CACHE_PKTS in Ev.
        do 2 (case_decide; [done|]). lia.
      * rewrite E. eexists _, _, _, _, _. split; [reflexivity|]. split; [apply Hi2|].
        split; [by rewrite delete_delete_eq|]. by intros ??? (_ & [= <- <- <-] & _).
    + destruct Hp as (st' & -> & Hi' & _). eexists _, _, _, _, _. split; [done|]. split; [exact Hi'|].
      split; [by rewrite delete_insert_eq|]. intros ??? (_ & [= <- <- <-] & E). congruence.
  - unfold first_result in Hp. case_decide; [subst; eexists _, _, _, live, A; split_and!; try done; by intros ??? (_ & ? & _)|].
    case_decide; destruct Hp as (st' & -> & Hi' & _).
    + eexists _, _, _, live, A. split_and!; try done. by intros ??? (_ & ? & _).
    + eexists _, _, _, _, _. split; [done|]. split; [exact Hi'|]. split; [by rewrite delete_insert_eq|].
      by intros ??? (_ & ? & _).
Qed.
End build.
