(* ===== verification/IpReassOrder.v ===== *)
(** * Reassembly in any order of arrival

    The fragments of a datagram, delivered in any order, make the datagram. *)
From S2P Require Import Prelude GenericHash GenericHashRun Wdata IpReass IpReassSplit IpReassInv IpReassStep IpReassProc IpReassBuild.

Implicit Types (st : reass_state) (l tl : list Z) (d : node_ip_reass_t).

Lemma zsum_perm g l1 l2 : l1 ≡ₚ l2 -> zsum g l1 = zsum g l2.
Proof. induction 1; cbn; lia. Qed.

Lemma if_either {P} `{Decision P} {T} (a b : T) :
  (if decide P then a else b) = a \/ (if decide P then a else b) = b.
Proof. destruct (decide P); auto. Qed.

(** ** The fragments as they arrive *)

(** What the code reads from a packet that has not been looked at yet. *)
Definition pkt_view (f : ip_family) st (b : Z) : frag_view := family_view f (mem st) (sf_wdata (bufs st).[b]).
Definition pkt_off (f : ip_family) st (b : Z) : Z := u16 (Z.shiftl (fv_offset (pkt_view f st b)) 3).
Definition pkt_size st (b : Z) : Z := payload_len (ip_wdata (sf_wdata (bufs st).[b])).
Definition pkt_hdr st (b : Z) : Z := header_len (ip_wdata (sf_wdata (bufs st).[b])).
Definition pkt_src st (b : Z) : Z := sf_wqe_get_current (sf_wdata (bufs st).[b]) + pkt_hdr st b.
Definition pkt_cur st (b : Z) : Z := current_data (sf_wdata (bufs st).[b]).

Section order.
Context `{ByteHash} `{Vlib}.

(** The fragments [tl], in the order of their offsets, are a datagram of [L]
    payload bytes with key [k] that the module agrees to reassemble. *)
Record datagram_ok (f : ip_family) (cfg : ip_reass_config) st (k : list Z) tl (L : Z) : Prop := {
  dg_tiles : tiles (pkt_off f st) (pkt_size st) 0 tl L;
  dg_len : L < 2 ^ 16;
  dg_count : (2 <= length tl <= 10)%nat;
  dg_key b : b ∈ tl -> fv_key (pkt_view f st b) = k;
  dg_last b : b ∈ tl -> fv_last (pkt_view f st b) = bool_decide (pkt_off f st b + pkt_size st b = L);
  dg_layers b : b ∈ tl -> let w := sf_wdata (bufs st).[b] in
    ip_wdata_cnt w <= (ip_reass_layers cfg).[interface_id w - 1];
  dg_room b : b ∈ tl -> L + pkt_cur st b <= SF_HUGE_PKT_MAX_DATA_SIZE;
  dg_hdr b : b ∈ tl -> 20 <= pkt_hdr st b /\ 0 <= pkt_cur st b /\ pkt_cur st b + pkt_hdr st b < 2 ^ 15;
  dg_buf b : b ∈ tl -> b <> 0
}.

(** The calls for the packets of one flow, one after another. *)
Fixpoint deliver (f : ip_family) (fuel : nat) (cfg : ip_reass_config) (l : list (Z * answers)) st :
    option (reass_state * list (Z * Z)) :=
  match l with
  | [] => Some (st, [])
  | (b, an) :: l =>
      let? (st, rb, rs) := family_frag_proc f fuel cfg b an st in
      let? (st, out) := deliver f fuel cfg l st in
      Some (st, (rb, rs) :: out)
  end.

Lemma deliver_app f fuel cfg (l1 l2 : list (Z * answers)) st :
  deliver f fuel cfg (l1 ++ l2) st =
  let? (st1, o1) := deliver f fuel cfg l1 st in
  let? (st2, o2) := deliver f fuel cfg l2 st1 in Some (st2, o1 ++ o2).
Proof.
  revert st. induction l1 as [|[b an] l1 IH]; intros st; cbn.
  - by destruct (deliver f fuel cfg l2 st) as [[? ?]|].
  - destruct (family_frag_proc f fuel cfg b an st) as [[[st1 rb] rs]|]; cbn; [|done].
    rewrite IH. destruct (deliver f fuel cfg l1 st1) as [[st2 o1]|]; cbn; [|done].
    by destruct (deliver f fuel cfg l2 st2) as [[st3 o2]|].
Qed.

(** ** While fragments are missing *)

Section run.
Context (f : ip_family) (cfg : ip_reass_config) (fuel : nat) (st0 : reass_state) (live : gmap Z Z)
  (A : contents) (k : list Z) (tl : list Z) (L x : Z).
Hypothesis Hi0 : reass_inv st0 live A.
Hypothesis HAk : A !! k = None.
Hypothesis Hdg : datagram_ok f cfg st0 k tl L.
Hypothesis Hun : forall b, b ∈ tl -> unlisted A b.
Hypothesis Hx : x <> 0.
Hypothesis Hlx : live !! x = None.
Hypothesis Hcnt : ncount (table_ip_reass st0) + 1 < 2 ^ 32.
Hypothesis Hfuel : (Nat.max 10 (size live + 1) < fuel)%nat.

Let o := pkt_off f st0.
Let z := pkt_size st0.

(** The state after the fragments [l] have arrived. *)
Record waiting st l : Prop := {
  wt_inv : exists d, reass_inv st (<[x := byte_hash k]> live) (<[k := (x, d, l)]> A) /\
    meet_len d = zsum z l /\ total_len d = if decide (Exists (fun b => o b + z b = L) l) then L else 0;
  wt_mem : mem st = mem st0;
  wt_wdata b : sf_wdata (bufs st).[b] = sf_wdata (bufs st0).[b];
  wt_rec b : b ∈ l -> off (bufs st) b = o b /\ fsize (bufs st) b = z b /\
    ip_hdr_len (rec_of (bufs st) b) = pkt_hdr st0 b /\
    (is_reass_pkt (sf_wdata (bufs st0).[b]) = false -> followed_nodes_cnt (rec_of (bufs st) b) = 0)
}.

Lemma only_links_off st st' b : only_links st st' ->
  off (bufs st') b = off (bufs st) b /\ fsize (bufs st') b = fsize (bufs st) b /\
  ip_hdr_len (rec_of (bufs st') b) = ip_hdr_len (rec_of (bufs st) b) /\
  followed_nodes_cnt (rec_of (bufs st') b) = followed_nodes_cnt (rec_of (bufs st) b).
Proof. intros [_ Hb]. destruct (Hb b) as [_ E]. unfold off, fsize. rewrite E. done. Qed.

Lemma arrived_rec st b : mem st = mem st0 -> sf_wdata (bufs st).[b] = sf_wdata (bufs st0).[b] ->
  let r := rec_of (bufs (arrived f cfg b st)) b in
  frag_offset r = o b /\ frag_size r = z b /\ ip_hdr_len r = pkt_hdr st0 b /\
  (is_reass_pkt (sf_wdata (bufs st0).[b]) = false -> followed_nodes_cnt r = 0).
Proof.
  intros Em Ew. unfold arrived. rewrite rec_of_set_rec, decide_True, Em, Ew by done. split_and!; try done.
  intros E%negb_false_iff%Z.eqb_eq. cbn. by rewrite decide_True.
Qed.

Lemma arrived_rec_ne st b c : b <> c -> rec_of (bufs (arrived f cfg b st)) c = rec_of (bufs st) c.
Proof. intros Hne. unfold arrived. by rewrite rec_of_set_rec, decide_False. Qed.

(** The fragment joins: records of [l ++ [b]] after a step that changes links only. *)
Lemma joined_recs st st' l b : waiting st l -> b ∉ l -> only_links (arrived f cfg b st) st' ->
  mem st' = mem st0 /\ (forall c, sf_wdata (bufs st').[c] = sf_wdata (bufs st0).[c]) /\
  forall c, c ∈ l ++ [b] -> off (bufs st') c = o c /\ fsize (bufs st') c = z c /\
    ip_hdr_len (rec_of (bufs st') c) = pkt_hdr st0 c /\
    (is_reass_pkt (sf_wdata (bufs st0).[c]) = false -> followed_nodes_cnt (rec_of (bufs st') c) = 0).
Proof.
  intros Hw Hb Hol. split; [|split].
  - rewrite (proj1 Hol). apply (wt_mem _ _ Hw).
  - intros c. rewrite (proj1 (proj2 Hol c)). unfold arrived. rewrite wdata_set_rec. apply (wt_wdata _ _ Hw).
  - intros c Hc. destruct (only_links_off _ _ c Hol) as (-> & -> & -> & ->).
    apply elem_of_app in Hc as [Hc| ->%list_elem_of_singleton].
    + unfold off, fsize. rewrite arrived_rec_ne by (intros ->; done). by apply (wt_rec _ _ Hw).
    + apply arrived_rec; [apply (wt_mem _ _ Hw)|apply (wt_wdata _ _ Hw)].
Qed.

(** *** Arithmetic of the pieces *)

Lemma dg_fits b : b ∈ tl -> 0 <= o b /\ 0 < z b /\ o b + z b <= L < 2 ^ 16.
Proof.
  intros Hb. pose proof (tiles_bounds _ _ _ _ _ _ (dg_tiles _ _ _ _ _ _ Hdg) Hb).
  pose proof (dg_len _ _ _ _ _ _ Hdg). unfold o, z in *. lia.
Qed.

Lemma dg_offsets l b : b ∈ tl -> (forall c, c ∈ l -> c ∈ tl) -> b ∉ l -> o b ∉ o <$> l.
Proof.
  intros Hb Hl Hni (c & Eo & Hc)%list_elem_of_fmap.
  assert (b <> c) by (intros ->; done).
  pose proof (tiles_disjoint _ _ _ _ _ b c (dg_tiles _ _ _ _ _ _ Hdg) Hb (Hl c Hc) ltac:(done)).
  destruct (dg_fits b Hb), (dg_fits c (Hl c Hc)). unfold o, z in *. lia.
Qed.

Lemma dg_sum l rest : l ++ rest ≡ₚ tl -> zsum z l + zsum z rest = L.
Proof.
  intros P. rewrite <- zsum_app, (zsum_perm z _ _ P).
  pose proof (tiles_sum _ _ _ _ _ (dg_tiles _ _ _ _ _ _ Hdg)). unfold z. lia.
Qed.

Lemma dg_pos l : (forall b, b ∈ l -> b ∈ tl) -> l <> [] -> 0 < zsum z l.
Proof.
  induction l as [|b l IH]; intros Hl Hne; [done|]. cbn.
  assert (0 < z b) by (apply dg_fits; set_solver).
  destruct l as [|c l]; [cbn; lia|]. assert (0 < zsum z (c :: l)) by (apply IH; [set_solver|done]). lia.
Qed.

Lemma dg_end : Exists (fun b => o b + z b = L) tl.
Proof.
  apply Exists_exists. apply (tiles_end _ _ id tl 0); [apply (dg_tiles _ _ _ _ _ _ Hdg)|].
  pose proof (dg_count _ _ _ _ _ _ Hdg). intros E. rewrite E in *. cbn in *. lia.
Qed.

(** The total length a fragment's arrival makes known. *)
Lemma known_total l b d r : b ∈ tl ->
  total_len d = (if decide (Exists (fun b => o b + z b = L) l) then L else 0) ->
  frag_offset r = o b -> frag_size r = z b ->
  new_total d r (fv_last (pkt_view f st0 b)) =
  if decide (Exists (fun b => o b + z b = L) (l ++ [b])) then L else 0.
Proof.
  intros Hb Ht Eo Ez. unfold new_total. rewrite (dg_last _ _ _ _ _ _ Hdg) by done.
  fold (o b) (z b). rewrite Eo, Ez, Ht. pose proof (dg_fits b Hb). case_bool_decide as E.
  - rewrite wrap_small by lia. rewrite decide_True; [done|]. apply Exists_app. right. by constructor.
  - destruct (decide (Exists _ l)); [rewrite decide_True|rewrite decide_False]; try done; rewrite Exists_app.
    + by left.
    + by intros [?|[?| ?%Exists_nil]%Exists_cons].
Qed.

(** *** The steps *)

Lemma perm_split l b rest : l ++ b :: rest ≡ₚ tl ->
  (forall c, c ∈ l -> c ∈ tl) /\ b ∈ tl /\ b ∉ l /\ (forall c, c ∈ rest -> c ∈ tl).
Proof.
  intros P. pose proof (tiles_nodup _ _ tl _ _ (dg_tiles _ _ _ _ _ _ Hdg)) as Hnd.
  rewrite <- P in Hnd. apply NoDup_app in Hnd as (_ & Hd & _).
  split_and!; try (intros c Hc); rewrite <- ?P; [set_solver..| |set_solver].
  intros Hb. apply (Hd b Hb). set_solver.
Qed.

Lemma pkt_of st l b : waiting st l ->
  sf_wdata (bufs st).[b] = sf_wdata (bufs st0).[b] /\
  family_view f (mem st) (sf_wdata (bufs st).[b]) = pkt_view f st0 b.
Proof. intros Hw. unfold pkt_view. by rewrite (wt_mem _ _ Hw), (wt_wdata _ _ Hw). Qed.

Lemma first_step b an : b ∈ tl -> an_node an = x -> an_timer_info an <> 0 -> an_timer_submit an = 0 ->
  exists st', family_frag_proc f fuel cfg b an st0 = Some (st', 0, 0) /\ waiting st' [b].
Proof.
  intros Hb Ean Hti Hts. pose proof (dg_fits b Hb) as Hfit.
  destruct (frag_proc_refines_aux f cfg st0 live A b an fuel) as [_ Hr]; try done; [by apply Hun| | |lia|].
  { by apply (dg_buf _ _ _ _ _ _ Hdg). }
  { intros _. rewrite Ean. auto. }
  fold (pkt_view f st0 b) in Hr. unfold proc_result in Hr. rewrite (dg_key _ _ _ _ _ _ Hdg) in Hr by done.
  rewrite decide_False in Hr by (apply Z.nlt_ge, (dg_layers _ _ _ _ _ _ Hdg b Hb)).
  rewrite HAk in Hr. unfold first_result in Hr. rewrite Ean in Hr.
  rewrite (decide_False (P := x = 0)), decide_False in Hr by naive_solver.
  destruct Hr as (st' & E & Hi & _ & Hol). exists st'. split; [done|].
  destruct (arrived_rec st0 b eq_refl eq_refl) as (Eo & Ez & Eh & _).
  split.
  - eexists. split; [exact Hi|]. unfold first_node. cbn [meet_len total_len zsum]. rewrite Eo, Ez.
    split; [rewrite wrap_small by lia; lia|].
    rewrite (dg_last _ _ _ _ _ _ Hdg) by done. fold (o b) (z b).
    case_bool_decide as El; [rewrite decide_True by (by constructor); rewrite wrap_small; lia|].
    rewrite decide_False; [done|]. by intros [?| ?%Exists_nil]%Exists_cons.
  - by rewrite (proj1 Hol).
  - intros c. rewrite (proj1 (proj2 Hol c)). apply wdata_set_rec.
  - intros c ->%list_elem_of_singleton. destruct (only_links_off _ _ b Hol) as (-> & -> & -> & ->).
    by apply arrived_rec.
Qed.

(** A further fragment: the verdict. *)
Lemma next_verdict st l b d rest : waiting st l -> l <> [] -> l ++ b :: rest ≡ₚ tl ->
  reass_inv st (<[x := byte_hash k]> live) (<[k := (x, d, l)]> A) ->
  meet_len d = zsum z l -> total_len d = (if decide (Exists (fun b => o b + z b = L) l) then L else 0) ->
  let st1 := arrived f cfg b st in
  exists d', nr_key d' = k /\ meet_len d' = zsum z (l ++ [b]) /\
    total_len d' = (if decide (Exists (fun b => o b + z b = L) (l ++ [b])) then L else 0) /\
    abs_append d ((fun c => frag_offset (rec_of (bufs st1) c)) <$> l) (rec_of (bufs st1) b)
      (fv_last (pkt_view f st0 b)) b (pkt_cur st0 b)
    = if rest then V_complete else V_wait d'.
Proof.
  intros Hw Hne P Hi Hm Ht st1.
  destruct (perm_split l b rest P) as (Hl & Hb & Hni & Hrest).
  pose proof (dg_fits b Hb) as Hfit.
  destruct (arrived_rec st b (wt_mem _ _ Hw) (wt_wdata _ _ Hw b)) as (Eo & Ez & _). fold st1 in Eo, Ez.
  destruct (ri_entry _ _ _ Hi k x d l) as (_ & _ & Ek & _ & Hg); [apply lookup_insert_eq|].
  pose proof (go_cache _ _ _ Hg) as Hc. pose proof (dg_count _ _ _ _ _ _ Hdg) as Hn.
  rewrite <- P, length_app in Hn. cbn in Hn.
  assert (Eoffs : (fun c => frag_offset (rec_of (bufs st1) c)) <$> l = o <$> l).
  { apply list_fmap_ext. intros i c Hc'%list_elem_of_lookup_2. unfold st1.
    rewrite arrived_rec_ne by (intros ->; done). apply (wt_rec _ _ Hw c Hc'). }
  assert (Hsum : zsum z l + z b + zsum z rest = L) by (rewrite <- (dg_sum l (b :: rest) P); cbn; lia).
  assert (Hp : 0 < zsum z l) by (by apply dg_pos).
  assert (Hpr : rest <> [] -> 0 < zsum z rest) by (by apply dg_pos).
  assert (Esum : zsum z (l ++ [b]) = zsum z l + z b) by (rewrite zsum_app; cbn; lia).
  unfold abs_append. rewrite Eoffs, Eo, (decide_False (P := o b ∈ o <$> l)) by (by apply dg_offsets).
  rewrite (decide_False (P := IP_REASS_MAX_CACHE_PKTS <= _)) by (unfold IP_REASS_MAX_CACHE_PKTS; lia).
  rewrite (known_total l b d _ Hb Ht Eo Ez), Ez, Hm.
  set (tot := if decide (Exists _ (l ++ [b])) then L else 0).
  assert (Htot : tot = L \/ tot = 0) by apply if_either.
  pose proof (dg_room _ _ _ _ _ _ Hdg b Hb) as Hroom.
  replace (SF_HUGE_PKT_MAX_DATA_SIZE <? tot + pkt_cur st0 b) with false by (symmetry; apply Z.ltb_ge; lia).
  rewrite andb_false_r.
  assert (Hrl : rest = [] -> tot = L).
  { intros ->. unfold tot. rewrite decide_True; [done|]. rewrite P. apply dg_end. }
  assert (0 <= zsum z rest) by (destruct rest; [done|apply Z.lt_le_incl, Hpr; done]).
  rewrite wrap_small by lia. eexists. split_and!; cycle -1.
  - destruct rest as [|c rest].
    + rewrite decide_True; [reflexivity|]. rewrite (Hrl eq_refl), <- Hsum. cbn. lia.
    + rewrite decide_False; [reflexivity|]. specialize (Hpr ltac:(done)). lia.
  - done.
  - by rewrite Esum.
  - done.
Qed.

(** The call on a further fragment. *)
Lemma next_call st l b an rest : waiting st l -> l <> [] -> l ++ b :: rest ≡ₚ tl ->
  let st1 := arrived f cfg b st in
  exists d d', nr_key d' = k /\ meet_len d' = zsum z (l ++ [b]) /\
    total_len d' = (if decide (Exists (fun b => o b + z b = L) (l ++ [b])) then L else 0) /\
    nr_head d = hd 0 l /\
    append_result (family_clear f) (if rest then V_complete else V_wait d') st1
      (<[x := byte_hash k]> live) (<[k := (x, d, l)]> A) k x d l b an (rec_interface_id (rec_of (bufs st1) b))
      fuel (family_frag_proc f fuel cfg b an st).
Proof.
  intros Hw Hne P st1. destruct (wt_inv _ _ Hw) as (d & Hi & Hm & Ht).
  destruct (perm_split l b rest P) as (Hl & Hb & Hni & Hrest).
  destruct (next_verdict st l b d rest Hw Hne P Hi Hm Ht) as (d' & Ek & Em & Et & Ev).
  destruct (pkt_of st l b Hw) as [Ew Ev0].
  exists d, d'. split_and!; try done.
  { destruct (ri_entry _ _ _ Hi k x d l (lookup_insert_eq _ _ _)) as (_ & _ & _ & _ & Hg).
    pose proof (go_chain _ _ _ Hg) as Hc. destruct l as [|y l]; [done|]. by destruct Hc. }
  destruct (frag_proc_refines_aux f cfg st (<[x := byte_hash k]> live) (<[k := (x, d, l)]> A) b an fuel)
    as [_ Hr]; [done| | | | |].
  - intros k2 x2 d2 l2 [[<- [= <- <- <-]]|[_ HA2]]%lookup_insert_Some; [done|]. by apply (Hun b Hb _ _ _ _ HA2).
  - by apply (dg_buf _ _ _ _ _ _ Hdg).
  - rewrite Ev0, (dg_key _ _ _ _ _ _ Hdg) by done. by rewrite lookup_insert_eq.
  - rewrite map_size_insert, Hlx. cbn. lia.
  - rewrite Ev0, Ew in Hr. unfold proc_result in Hr. rewrite (dg_key _ _ _ _ _ _ Hdg) in Hr by done.
    rewrite decide_False in Hr by (apply Z.nlt_ge, (dg_layers _ _ _ _ _ _ Hdg b Hb)).
    rewrite lookup_insert_eq in Hr. fold (pkt_cur st0 b) in Hr. rewrite <- Ev. exact Hr.
Qed.

Lemma wait_step st l b an c rest : waiting st l -> l <> [] -> l ++ b :: c :: rest ≡ₚ tl ->
  exists st', family_frag_proc f fuel cfg b an st = Some (st', 0, 0) /\ waiting st' (l ++ [b]).
Proof.
  intros Hw Hne P. destruct (perm_split _ _ _ P) as (_ & _ & Hni & _).
  destruct (next_call st l b an (c :: rest) Hw Hne P) as (d & d' & Ek & Em & Et & _ & st' & E & Hi & Hol).
  exists st'. split; [done|]. destruct (joined_recs st st' l b Hw Hni Hol) as (Hmem & Hwd & Hrec).
  split; [|done..]. exists d'. split; [|done]. by rewrite insert_insert_eq in Hi.
Qed.

(** *** The last fragment *)

(** The buffer [vb] holds the datagram; the table is as if no fragment had come;
    the fragments hang below it in order of arrival. *)
Record reassembled st' (vb D h : Z) l : Prop := {
  rs_inv : reass_inv st' live A;
  rs_len : current_length (sf_wdata (bufs st').[vb]) = L;
  rs_payload_len : payload_len (ip_wdata (sf_wdata (bufs st').[vb])) = L;
  rs_over : reass_over (ip_wdata (sf_wdata (bufs st').[vb])) = 1;
  rs_data : bytes_at (mem st') (sf_wqe_get_current (sf_wdata (bufs st').[vb])) (Z.to_nat L) =
    concat (map (fun b => bytes_at (mem st0) (pkt_src st0 b) (Z.to_nat (pkt_size st0 b))) tl);
  rs_children : bseg (bufs st') (child_frag (rec_of (bufs st') vb)) l 0;
  rs_flag : is_reass_pkt (sf_wdata (bufs st').[vb]) = true;
  rs_next : next_frag (rec_of (bufs st') vb) = 0;
  rs_leaf b : b ∈ l -> is_reass_pkt (sf_wdata (bufs st0).[b]) = false ->
    followed_nodes_cnt (rec_of (bufs st') b) = 0 /\ is_reass_pkt (sf_wdata (bufs st').[b]) = false;
  rs_followed : (forall b, b ∈ l -> is_reass_pkt (sf_wdata (bufs st0).[b]) = false) ->
    followed_nodes_cnt (rec_of (bufs st') vb) = Z.of_nat (length l);
  rs_frame a : a < D \/ D + pkt_cur st0 h + pkt_hdr st0 h + L <= a -> (mem st').[a] = (mem st0).[a]
}.

Definition room_for (D h : Z) : Prop := forall b, b ∈ tl ->
  pkt_src st0 b + pkt_size st0 b <= D \/ D + pkt_cur st0 h + pkt_hdr st0 h + L <= pkt_src st0 b.

(** The copies made from the fragments [l], in whatever order, are those of the datagram. *)
Lemma copies_make_datagram m1 m' l D h : l ≡ₚ tl -> room_for D h -> 20 <= pkt_hdr st0 h -> 0 <= pkt_cur st0 h ->
  let p := D + pkt_cur st0 h + pkt_hdr st0 h in
  (forall a, a < D \/ p <= a -> m1.[a] = (mem st0).[a]) ->
  (forall a, p <= a -> m'.[a] = (copy_all o z (pkt_src st0) l p m1).[a]) ->
  bytes_at m' p (Z.to_nat L) =
    concat (map (fun b => bytes_at (mem st0) (pkt_src st0 b) (Z.to_nat (pkt_size st0 b))) tl) /\
  forall a, p + L <= a -> m'.[a] = (mem st0).[a].
Proof.
  intros P Hroom Hh Hcd p Hm1 Hm'.
  assert (Hlt : forall b, b ∈ l -> b ∈ tl) by (intros b; by rewrite P).
  pose proof (dg_tiles _ _ _ _ _ _ Hdg) as Ht. pose proof (tiles_range _ _ _ _ _ Ht). split.
  - fold z. rewrite <- (copy_tiles_bytes o z (pkt_src st0) m' (mem st0) p tl 0 L Ht).
    { by rewrite Z.add_0_r, Z.sub_0_r. }
    intros b i Hb Hi. pose proof (dg_fits b Hb). rewrite Hm' by lia.
    rewrite (copy_all_read _ _ _ _ _ m1 b i).
    + apply Hm1. destruct (Hroom b Hb); unfold p, z in *; lia.
    + rewrite P. by apply (tiles_nodup _ _ tl _ _ Ht).
    + by rewrite P.
    + done.
    + intros c Hc. by apply dg_fits, Hlt.
    + intros c c' Hc Hc'. apply (tiles_disjoint _ _ tl _ _ c c' Ht); by apply Hlt.
    + intros c c' Hc Hc'. pose proof (dg_fits c' (Hlt _ Hc')).
      destruct (Hroom c (Hlt _ Hc)); unfold p, z in *; lia.
  - intros a Ha. rewrite Hm', copy_all_frame by (lia || (intros b Hb; pose proof (dg_fits b (Hlt _ Hb)); lia)).
    apply Hm1. lia.
Qed.

Lemma final_step st l b an : waiting st l -> l <> [] -> l ++ [b] ≡ₚ tl ->
  let D := an_huge an + SF_HUGE_PKT_PRE_DATA_SIZE in
  let h := hd 0 l in
  D <> 0 -> an_vb an <> 0 -> an_vb an ∉ tl -> unlisted A (an_vb an) -> room_for D h ->
  exists st', family_frag_proc f fuel cfg b an st = Some (st', an_vb an, 0) /\
    reassembled st' (an_vb an) D h (l ++ [b]).
Proof.
  intros Hw Hne P D h HD Hvb Hvt Hvu Hroom.
  destruct (perm_split l b [] P) as (Hl & Hb & Hni & _).
  destruct (next_call st l b an [] Hw Hne P) as (d & d' & _ & _ & _ & Eh & st1 & (Hi & Hc & Hol) & E).
  rewrite delete_insert_id in Hi by done. rewrite delete_insert_id in Hi by done.
  destruct (joined_recs st st1 l b Hw Hni Hol) as (Hmem & Hwd & Hrec).
  rewrite Eh in Hc, E. fold h in Hc, E. set (l' := l ++ [b]) in *.
  assert (Hh : h ∈ l') by (unfold h, l'; destruct l; [done|set_solver]).
  assert (Ehd : hd 0 l' = h) by (unfold h, l'; by destruct l).
  assert (Ht' : forall c, c ∈ l' -> c ∈ tl) by (intros c; by rewrite P).
  destruct (Hrec h Hh) as (_ & _ & Ehl & _).
  assert (Ecd : current_data (sf_wdata (bufs st1).[h]) = pkt_cur st0 h) by (by rewrite Hwd).
  destruct (dg_hdr _ _ _ _ _ _ Hdg h (Ht' h Hh)) as (Hh1 & Hh2 & Hh3).
  destruct (frag_build_spec f fuel (an_huge an) (an_vb an) h (cache_pkt_num d + 1) st1 l')
    as (st2 & E2 & Hbt); rewrite ?Ehl, ?Ecd; try done.
  { by apply (dg_buf _ _ _ _ _ _ Hdg), Ht'. }
  { intros Hin. by apply Hvt, Ht'. }
  { rewrite P. pose proof (dg_count _ _ _ _ _ _ Hdg). lia. }
  { intros c Hcl. destruct (Hrec c Hcl) as (-> & -> & _). pose proof (dg_fits c (Ht' c Hcl)). lia. }
  rewrite E2 in E. cbn [obind] in E. eexists. split; [exact E|].
  rewrite Ehl, Ecd in Hbt. fold D in Hbt.
  assert (Es : zsum (fsize (bufs st1)) l' = L).
  { rewrite (zsum_ext _ z); [|intros c Hcl; by apply Hrec]. pose proof (dg_sum l' []) as Hs.
    rewrite app_nil_r in Hs. specialize (Hs P). cbn in Hs. lia. }
  rewrite Es in Hbt. pose proof (dg_len _ _ _ _ _ _ Hdg) as HL.
  pose proof (tiles_range _ _ _ _ _ (dg_tiles _ _ _ _ _ _ Hdg)) as HL0.
  destruct (bt_copied _ _ _ _ _ _ _ _ Hbt) as (m1 & Hm1 & Hm2).
  setoid_rewrite Hmem in Hm1.
  destruct (copies_make_datagram m1 (mem st2) l' D h P Hroom Hh1 Hh2 Hm1) as [Hdata Hab].
  { intros a Ha. rewrite Hm2 by done. erewrite copy_all_ext; [reflexivity|]. intros c Hcl.
    destruct (Hrec c Hcl) as (-> & -> & Ehc & _). split_and!; try done. unfold src, pkt_src. by rewrite Hwd, Ehc. }
  split; cbn [bufs mem update_ip_reass_stat].
  - destruct (bt_rest _ _ _ _ _ _ _ _ Hbt) as (En & Et & Ed & _ & _).
    apply (reass_inv_frame st1); try done. intros c Hcu. cbn.
    unfold rec_of. rewrite (bt_bufs _ _ _ _ _ _ _ _ Hbt); [done|]. by intros ->.
  - rewrite (bt_len _ _ _ _ _ _ _ _ Hbt). apply wrap_small. lia.
  - rewrite (bt_payload_len _ _ _ _ _ _ _ _ Hbt). apply wrap_small. lia.
  - apply (bt_over _ _ _ _ _ _ _ _ Hbt).
  - unfold sf_wqe_get_current. rewrite (bt_ptr _ _ _ _ _ _ _ _ Hbt), (bt_cur _ _ _ _ _ _ _ _ Hbt).
    by rewrite Z.add_assoc.
  - rewrite (bt_child _ _ _ _ _ _ _ _ Hbt), Ehd. apply (bseg_frame (bufs st1)); [|done].
    intros c Hcl. unfold rec_of. rewrite (bt_bufs _ _ _ _ _ _ _ _ Hbt); [done|]. intros ->. by apply Hvt, Ht'.
  - apply (bt_flag _ _ _ _ _ _ _ _ Hbt).
  - apply (bt_next _ _ _ _ _ _ _ _ Hbt).
  - intros c Hcl Hleaf. unfold rec_of. rewrite (bt_bufs _ _ _ _ _ _ _ _ Hbt) by (intros ->; by apply Hvt, Ht').
    rewrite Hwd. split; [|done]. by apply (Hrec c Hcl).
  - intros Hleaf. rewrite (bt_followed _ _ _ _ _ _ _ _ Hbt), (zsum_const _ 1).
    + rewrite wrap_small; [lia|]. rewrite P. pose proof (dg_count _ _ _ _ _ _ Hdg). lia.
    + intros c Hcl. unfold brings. destruct (Hrec c Hcl) as (_ & _ & _ & Ec). by rewrite Ec by auto.
  - intros a [Ha|Ha]; [by rewrite (bt_below _ _ _ _ _ _ _ _ Hbt), Hmem|by apply Hab].
Qed.

Lemma wait_run (mid : list (Z * answers)) b : forall st l, waiting st l -> l <> [] -> l ++ mid.*1 ++ [b] ≡ₚ tl ->
  exists st', deliver f fuel cfg mid st = Some (st', replicate (length mid) (0, 0)) /\
    waiting st' (l ++ mid.*1).
Proof.
  induction mid as [|[c an] mid IH]; intros st l Hw Hne P.
  - exists st. split; [done|]. by rewrite app_nil_r.
  - assert (E : exists e rest, mid.*1 ++ [b] = e :: rest) by (destruct mid; cbn; eauto).
    destruct E as (e & rest & E). rewrite fmap_cons in P. cbn [fst app] in P. rewrite E in P.
    destruct (wait_step st l c an e rest Hw Hne P) as (st1 & E1 & Hw1).
    destruct (IH st1 (l ++ [c]) Hw1) as (st2 & E2 & Hw2).
    { by destruct l. }
    { rewrite E, <- app_assoc. done. }
    exists st2. cbn [deliver]. rewrite E1. cbn [obind]. rewrite E2. split; [done|].
    rewrite <- app_assoc in Hw2. done.
Qed.
End run.

Lemma reass_in_any_order_aux f cfg fuel st live A k tl L b1 a1 (mid : list (Z * answers)) bn an
    (Hi : reass_inv st live A) (HAk : A !! k = None) (Hdg : datagram_ok f cfg st k tl L)
    (Hperm : b1 :: mid.*1 ++ [bn] ≡ₚ tl) (Hun : forall b, b ∈ an_vb an :: tl -> unlisted A b)
    (Hcnt : ncount (table_ip_reass st) + 1 < 2 ^ 32) (Hfuel : (Nat.max 10 (size live + 1) < fuel)%nat)
    (Hnode : an_node a1 <> 0) (Hfresh : live !! an_node a1 = None)
    (Htimer : an_timer_info a1 <> 0 /\ an_timer_submit a1 = 0)
    (Hhuge : an_huge an + SF_HUGE_PKT_PRE_DATA_SIZE <> 0) (Hvb : an_vb an <> 0) (Hvt : an_vb an ∉ tl)
    (Hroom : room_for st tl L (an_huge an + SF_HUGE_PKT_PRE_DATA_SIZE) b1) :
  exists st', deliver f fuel cfg ((b1, a1) :: mid ++ [(bn, an)]) st
      = Some (st', replicate (S (length mid)) (0, 0) ++ [(an_vb an, 0)]) /\
    reassembled st live A tl L st' (an_vb an) (an_huge an + SF_HUGE_PKT_PRE_DATA_SIZE) b1
      (b1 :: mid.*1 ++ [bn]).
Proof.
  assert (Hun' : forall b, b ∈ tl -> unlisted A b) by (intros b Hb; apply Hun; set_solver).
  assert (Hb1 : b1 ∈ tl) by (rewrite <- Hperm; set_solver).
  destruct (first_step f cfg fuel st live A k tl L (an_node a1) Hi HAk Hdg Hun' Hnode Hfresh Hcnt Hfuel b1 a1)
    as (st1 & E1 & Hw1); [done|done|apply Htimer|apply Htimer|].
  destruct (wait_run f cfg fuel st live A k tl L (an_node a1) Hi HAk Hdg Hun' Hnode Hfresh Hcnt Hfuel mid bn st1 [b1])
    as (st2 & E2 & Hw2); [done|done|done|].
  destruct (final_step f cfg fuel st live A k tl L (an_node a1) Hi HAk Hdg Hun' Hnode Hfresh Hcnt Hfuel
              st2 (b1 :: mid.*1) bn an) as (st3 & E3 & Hr); try done; [apply Hun; set_solver|].
  exists st3. split; [|exact Hr].
  cbn [deliver]. rewrite E1. cbn [obind]. rewrite deliver_app, E2. cbn [obind deliver]. rewrite E3. done.
Qed.

(** C4: the two to ten fragments of a datagram that fits the 16 KB block, delivered in any order with
    whatever other groups in the table, give: NULL and 0 for each fragment but the last to arrive,
    and for that one the new buffer, whose payload is the datagram in the order of the offsets and
    whose length is the datagram's; the table is again as it was before the first fragment, the
    fragments hang below the new buffer in their order of arrival, and no byte outside the new
    packet has changed. *)
Theorem reass_in_any_order f cfg fuel st live A k tl L b1 a1 (mid : list (Z * answers)) bn an
    (Hi : reass_inv st live A) (HAk : A !! k = None) (Hdg : datagram_ok f cfg st k tl L)
    (Hperm : b1 :: mid.*1 ++ [bn] ≡ₚ tl) (Hun : forall b, b ∈ an_vb an :: tl -> unlisted A b)
    (Hcnt : ncount (table_ip_reass st) + 1 < 2 ^ 32) (Hfuel : (Nat.max 10 (size live + 1) < fuel)%nat)
    (Hnode : an_node a1 <> 0) (Hfresh : live !! an_node a1 = None)
    (Htimer : an_timer_info a1 <> 0 /\ an_timer_submit a1 = 0)
    (Hhuge : an_huge an + SF_HUGE_PKT_PRE_DATA_SIZE <> 0) (Hvb : an_vb an <> 0) (Hvt : an_vb an ∉ tl)
    (Hroom : room_for st tl L (an_huge an + SF_HUGE_PKT_PRE_DATA_SIZE) b1) :
  exists st', deliver f fuel cfg ((b1, a1) :: mid ++ [(bn, an)]) st
      = Some (st', replicate (S (length mid)) (0, 0) ++ [(an_vb an, 0)]) /\
    reassembled st live A tl L st' (an_vb an) (an_huge an + SF_HUGE_PKT_PRE_DATA_SIZE) b1
      (b1 :: mid.*1 ++ [bn]).
Proof. by apply (reass_in_any_order_aux f cfg fuel st live A k tl L b1 a1 mid bn an). Qed.
End order.
