(* ===== verification/IpReassDemo.v ===== *)
(** * Three fragments of one IPv4 datagram

    The witnesses of the theorems on reassembly: the last fragment comes first. *)
From S2P Require Import Prelude GenericHash GenericHashRun Wdata IpReass IpReassInv IpReassStep IpReassProc IpReassBuild IpReassOrder.

#[export] Instance demo_byte_hash : ByteHash := foldr Z.add 0.
#[export] Instance demo_vlib : Vlib :=
  {| VLIB_BUFFER_PRE_DATA_SIZE := 128; VLIB_FRAME_SIZE := 256; ip4_header_checksum := fun m p => m.[p + 8] |}.

Fixpoint write_bytes (m : gmap Z Z) (a : Z) (l : list Z) : gmap Z Z :=
  match l with [] => m | x :: l => write_bytes m.[a <- x] (a + 1) l end.

(** An IPv4 packet at [p]: offset in units of 8, flag, payload. *)
Definition demo_packet (m : gmap Z Z) (p off : Z) (more : bool) (payload : list Z) : gmap Z Z :=
  write_bytes m (p + 14)
    ([0x45; 0; 0; 0; 7; 9; if more then 0x20 else 0; off; 64; 17; 0; 0; 10; 0; 0; 1; 10; 0; 0; 2] ++ payload).

Definition demo_wdata (p plen : Z) : sf_wdata_t :=
  mk_wdata 14 (20 + plen) 1 0 0 0 p 0 0 0 0 0 0 (mk_vlanw 0 0) 0
    (mk_ipw 14 4 17 20 plen (mk_addr 0 0) (mk_addr 0 0) 1 0) (mk_l4w 0 0 0 0).

Definition demo_buf (p plen : Z) : vlib_buffer_t := mk_vb (demo_wdata p plen) zeroed_rec.

Definition demo_reass : reass_state :=
  mk_rs (<[1 := demo_buf 1000 16]> (<[2 := demo_buf 3000 8]> (<[3 := demo_buf 5000 5]> ∅)))
    (demo_packet (demo_packet (demo_packet ∅ 1000 0 true (seqZ 1 16)) 3000 2 true (seqZ 17 8))
       5000 3 false (seqZ 25 5))
    ∅ demo_hash ∅ [] [].

Definition demo_reass_cfg : ip_reass_config := mk_config (<[0 := 1]> ∅) (<[0 := 1]> ∅).
Definition demo_answers : answers := mk_answers 77 1 0 100000 9.

Lemma demo_reass_inv : reass_inv demo_reass ∅ ∅.
Proof.
  split.
  - apply gh_reach_inv, reach_init. split; [done|]. exists ghash_zero, 7, 100. split; [done|]. split; [done|].
    vm_compute. reflexivity.
  - intros k x d l HA. by rewrite lookup_empty in HA.
  - intros x hx Hl. by rewrite lookup_empty in Hl.
  - intros k k' x d l x' d' l' b HA. by rewrite lookup_empty in HA.
Qed.

Lemma demo_unlisted b : unlisted ∅ b.
Proof. intros k x d l HA. by rewrite lookup_empty in HA. Qed.

Lemma demo_datagram :
  datagram_ok IPv4 demo_reass_cfg demo_reass (fv_key (pkt_view IPv4 demo_reass 1)) [1; 2; 3] 29.
Proof.
  split; try (intros b Hb; repeat (apply elem_of_cons in Hb as [->|Hb]; [vm_compute; done|]);
    by apply not_elem_of_nil in Hb).
  - vm_compute. done.
  - done.
  - cbn. lia.
Qed.

Theorem frag_proc_refines_witness :
  exists st' rb rs live' A', family_frag_proc IPv4 12 demo_reass_cfg 3 demo_answers demo_reass = Some (st', rb, rs) /\
    reass_inv st' live' A'.
Proof.
  destruct (frag_proc_refines IPv4 demo_reass_cfg demo_reass ∅ ∅ 3 demo_answers 12)
    as (_ & _ & st' & rb & rs & live' & A' & E & Hi & _).
  - apply demo_reass_inv.
  - apply demo_unlisted.
  - lia.
  - intros _. apply lookup_empty.
  - intros _. split; [apply demo_unlisted|vm_compute; discriminate].
  - vm_compute. reflexivity.
  - vm_compute. lia.
  - exists st', rb, rs, live', A'. split; [exact E|exact Hi].
Defined.

(** The hypotheses of a delivery of the three packets. *)
Ltac demo_delivery :=
  solve
    [ apply demo_reass_inv | apply lookup_empty | apply demo_datagram
    | cbn; apply (Permutation_cons_append [1; 2] 3) | intros b _; apply demo_unlisted
    | vm_compute; reflexivity | vm_compute; lia | done
    | intros Hin; repeat (apply elem_of_cons in Hin as [Hin|Hin]; [discriminate|]); by apply not_elem_of_nil in Hin
    | intros b Hb; repeat (apply elem_of_cons in Hb as [->|Hb]; [left; vm_compute; discriminate|]);
      by apply not_elem_of_nil in Hb ].

Theorem reass_in_any_order_witness :
  exists st', deliver IPv4 12 demo_reass_cfg [(3, demo_answers); (1, demo_answers); (2, demo_answers)] demo_reass
      = Some (st', [(0, 0); (0, 0); (9, 0)]) /\
    reassembled demo_reass ∅ ∅ [1; 2; 3] 29 st' 9 100128 3 [3; 1; 2].
Proof.
  refine (reass_in_any_order IPv4 demo_reass_cfg 12 demo_reass ∅ ∅ (fv_key (pkt_view IPv4 demo_reass 1))
           [1; 2; 3] 29 3 demo_answers [(1, demo_answers)] 2 demo_answers _ _ _ _ _ _ _ _ _ _ _ _ _ _).
  all: demo_delivery.
Defined.

(** ** Limits of the checks *)

(** What a run answers, the length of the packet built and one byte of memory. *)
Definition outcome (run : option (reass_state * list (Z * Z))) (a : Z) : option (list (Z * Z) * Z * Z) :=
  let? (st, out) := run in Some (out, current_length (sf_wdata (bufs st).[9]), (mem st).[a]).

(** Two fragments of 2032 and 14210 bytes. *)
Definition overrun_run : option (reass_state * list (Z * Z)) :=
  let m := (∅ : gmap Z Z) in
  let st := mk_rs (<[1 := demo_buf 1000 2032]> (<[2 := demo_buf 50000 14210]> ∅))
    (demo_packet (demo_packet m 1000 0 true []) 50000 254 false (replicate 14210 7)) ∅ demo_hash ∅ [] [] in
  deliver IPv4 12 demo_reass_cfg [(1, demo_answers); (2, demo_answers)] st.

(** A datagram of 16242 payload bytes behind 14 bytes of link header passes the length check and
    is built, and the byte behind the 16384 bytes of its block is overwritten. *)
Theorem header_overruns_block :
  outcome overrun_run (100000 + SF_HUGE_PKT_16KB_MAX_SIZE) = Some ([(0, 0); (9, 0)], 16242, 7).
Proof. vm_compute. reflexivity. Qed.

(** Overlapping fragments of 16, 8 and 8 bytes at 0, 8 and 24: the lengths add up to 32
    although bytes 16 to 23 are in none of them. *)
Definition overlap_st : reass_state :=
  mk_rs (<[1 := mk_vb (demo_wdata 1000 16) (mk_rec 0 2 0 16 20 1 1 0)]>
           (<[2 := mk_vb (demo_wdata 3000 8) (mk_rec 0 3 8 8 20 1 1 0)]>
             (<[3 := mk_vb (demo_wdata 5000 8) (mk_rec 0 0 24 8 20 1 1 0)]> ∅)))
    (demo_packet (demo_packet (demo_packet (<[100178 := 171]> ∅) 1000 0 true (seqZ 1 16)) 3000 1 true (seqZ 17 8))
       5000 3 false (seqZ 25 8)) ∅ demo_hash ∅ [] [].

Theorem built_bytes_witness :
  exists st', frag_build_pkt (family_clear IPv4) 12 100000 9 1 2 overlap_st = Some (st', 9, 0) /\
    (mem st').[100162 + 16] = (mem overlap_st).[100162 + 16] /\ (mem overlap_st).[100162 + 16] = 171.
Proof.
  edestruct (built_bytes IPv4 12 100000 9 1 2 overlap_st [1; 2; 3] 16) as (st' & E & Hstale & _).
  1-12: try first [discriminate | done | vm_compute; repeat split; done | cbn; lia].
  - repeat (apply NoDup_cons_2; [intros Hin; repeat (apply elem_of_cons in Hin as [Hin|Hin]; [discriminate|]);
      by apply not_elem_of_nil in Hin|]). apply NoDup_nil_2.
  - intros Hin. repeat (apply elem_of_cons in Hin as [Hin|Hin]; [discriminate|]). by apply not_elem_of_nil in Hin.
  - intros b Hb. repeat (apply elem_of_cons in Hb as [->|Hb]; [vm_compute; split; discriminate|]).
    by apply not_elem_of_nil in Hb.
  - intros b Hb. left. repeat (apply elem_of_cons in Hb as [->|Hb]; [vm_compute; discriminate|]).
    by apply not_elem_of_nil in Hb.
  - exists st'. split; [exact E|clear E]. split; [|reflexivity]. apply Hstale. clear Hstale.
    intros b Hb. repeat (apply elem_of_cons in Hb as [->|Hb];
      [vm_compute; intros [H1 H2]; first [discriminate H2 | exact (H1 eq_refl)]|]).
    by apply not_elem_of_nil in Hb.
Defined.

(** Two fragments chained, 24 payload bytes. *)
Definition demo_pair : reass_state :=
  mk_rs (<[1 := mk_vb (demo_wdata 1000 16) (mk_rec 0 2 0 16 20 1 1 0)]>
           (<[2 := mk_vb (demo_wdata 3000 8) (mk_rec 0 0 16 8 20 1 1 0)]> ∅))
    (demo_packet (demo_packet ∅ 1000 0 true (seqZ 1 16)) 3000 2 false (seqZ 17 8)) ∅ demo_hash ∅ [] [].

Theorem build_in_block_witness :
  exists st', frag_build_pkt (family_clear IPv4) 12 100000 9 1 1 demo_pair = Some (st', 9, 0) /\
    forall a, (a < 100000 + SF_HUGE_PKT_PRE_DATA_SIZE \/
               100000 + SF_HUGE_PKT_16KB_MAX_SIZE + 20 <= a \/
               (100000 + SF_HUGE_PKT_16KB_MAX_SIZE <= a /\ 24 + 14 + 20 <= SF_HUGE_PKT_MAX_DATA_SIZE)) ->
      (mem st').[a] = (mem demo_pair).[a].
Proof.
  refine (build_in_block IPv4 12 100000 9 1 1 demo_pair [1; 2] 24 _ _ _ _ _ _ _ _ _ _ _); try done.
  - intros Hin. repeat (apply elem_of_cons in Hin as [Hin|Hin]; [discriminate|]). by apply not_elem_of_nil in Hin.
  - cbn. lia.
  - intros b Hb. repeat (apply elem_of_cons in Hb as [->|Hb]; [vm_compute; done|]).
    by apply not_elem_of_nil in Hb.
Defined.
