(* ===== verification/IpReassForward.v ===== *)
(** * From the reassembled packet back to its fragments

    The packet built from a datagram's fragments is a tree of one level, so what
    decides on the packet decides on every fragment. *)
From S2P Require Import Prelude GenericHash GenericHashRun Wdata IpReass IpReassSplit IpReassForest IpReassInv IpReassStep IpReassProc IpReassBuild IpReassOrder IpReassDemo.

Implicit Types (st : reass_state) (l tl : list Z).

(** Fragments side by side. *)
Definition leaf_forest l : forest := foldr (fun b F => FCons b FNil F) FNil l.

Lemma leaf_forest_size l : IpReassForest.fsize (leaf_forest l) = Z.of_nat (length l).
Proof. induction l as [|b l IH]; cbn [leaf_forest foldr IpReassForest.fsize length]; [done|]. unfold leaf_forest in IH. lia. Qed.

Lemma leaf_forest_preorder l : preorder (leaf_forest l) = l.
Proof. induction l as [|b l IH]; cbn; [done|]. by f_equal. Qed.

Lemma leaf_forest_leaves l : leaves (leaf_forest l) = l.
Proof. induction l as [|b l IH]; cbn; [done|]. by f_equal. Qed.

Lemma leaf_forest_verdicts x y l : verdicts x y (leaf_forest l) = replicate (length l) x.
Proof. induction l as [|b l IH]; cbn; [done|]. by f_equal. Qed.

Lemma leaf_forest_repr B l : forall x, bseg B x l 0 ->
  (forall b, b ∈ l -> followed_nodes_cnt (rec_of B b) = 0 /\ is_reass_pkt (IpReass.sf_wdata B.[b]) = false) ->
  frepr B (leaf_forest l) x.
Proof.
  induction l as [|b l IH]; intros x Hs Hl; [done|]. destruct Hs as (-> & Hb & Hs).
  destruct (Hl b) as [Ef Er]; [set_solver|]. cbn. split_and!; try done. apply IH; [done|]. set_solver.
Qed.

Lemma enqueued_zip arr nexts n : enqueued arr nexts n = zip (segment arr 0 n) (segment nexts 0 n).
Proof.
  unfold enqueued, segment. induction (seqZ 0 n) as [|i l IH]; cbn; [done|]. by f_equal.
Qed.

Section forward.
Context `{ByteHash} `{Vlib}.

(** C12: once a datagram of fragments that arrived as they are has been reassembled, whatever action
    [arg] the packet is given, the forward node lists the packet and each of its fragments once;
    the fragments go to the action node, or are dropped when the action is 0, each with the
    packet's decoded layers and action, and the packet itself is dropped unless its output is
    enabled. *)
Theorem verdict_reaches_fragments st0 st' live A tl L vb D h l arg arr nexts fuel
    (Hr : reassembled st0 live A tl L st' vb D h l) (Hl : l <> []) (Hvb : vb <> 0) (Hnd : NoDup (vb :: l))
    (Hleaf : forall b, b ∈ l -> is_reass_pkt (IpReass.sf_wdata (bufs st0).[b]) = false)
    (Hfuel : (1 + length l < fuel)%nat) :
  let w := with_arg arg (IpReass.sf_wdata (bufs st').[vb]) in
  let next := if decide (arg = 0) then FORWARD_NEXT_PKT_DROP else FORWARD_NEXT_ACTION_ENTRY in
  exists arr' nexts' st2,
    split_frag_buffer fuel vb arr nexts (set_wdata vb w st') = Some (st2, arr', nexts', 1 + Z.of_nat (length l)) /\
    segment arr' 0 (1 + Z.of_nat (length l)) = vb :: l /\
    segment nexts' 0 (1 + Z.of_nat (length l)) =
      (if decide (ip_reass_output (rec_of (bufs st') vb) <> 0) then next else FORWARD_NEXT_PKT_DROP)
      :: replicate (length l) next /\
    forall b, b ∈ l ->
      IpReass.sf_wdata (bufs st2).[b] = follow w (IpReass.sf_wdata (bufs st').[b]).
Proof.
  cbv zeta. set (w := with_arg arg _). set (st1 := set_wdata vb w st').
  assert (Hsh : same_shape (bufs st') (bufs st1)) by by apply same_shape_wdata.
  assert (Ew : IpReass.sf_wdata (bufs st1).[vb] = w) by (cbn; by rewrite aget_aset_eq).
  assert (Ea : arg_to_next w = arg) by done.
  assert (Efl : is_reass_pkt w = true) by apply (rs_flag _ _ _ _ _ _ _ _ _ _ Hr).
  assert (Er : ip_reass_record (bufs st1).[vb] = rec_of (bufs st') vb) by apply Hsh.
  assert (Eo : forall b, b <> vb -> IpReass.sf_wdata (bufs st1).[b] = IpReass.sf_wdata (bufs st').[b])
    by (intros b Hb; cbn; by rewrite aget_aset_ne).
  clearbody w st1.
  destruct (split_forward_aux vb (leaf_forest l) arr nexts st1 fuel) as (arr' & nexts' & st2 & E & Ha & Hv & Hw).
  - cbn. split; [done|]. split; [done|]. rewrite Er, Ew. split.
    { rewrite leaf_forest_size. by apply (rs_followed _ _ _ _ _ _ _ _ _ _ Hr). }
    split; [apply (rs_next _ _ _ _ _ _ _ _ _ _ Hr)|].
    assert (Hk : frepr (bufs st1) (leaf_forest l) (child_frag (rec_of (bufs st') vb))).
    { apply (frepr_shape _ _ _ Hsh). apply leaf_forest_repr; [apply (rs_children _ _ _ _ _ _ _ _ _ _ Hr)|].
      intros b Hb. apply (rs_leaf _ _ _ _ _ _ _ _ _ _ Hr b Hb). by apply Hleaf. }
    destruct l as [|b l]; [done|]. cbn [leaf_forest foldr]. done.
  - by destruct l.
  - cbn. by rewrite app_nil_r, leaf_forest_preorder.
  - cbn [IpReassForest.fsize]. rewrite leaf_forest_size. lia.
  - cbn [IpReassForest.fsize preorder] in *. rewrite leaf_forest_size, Z.add_0_r in *.
    rewrite app_nil_r, leaf_forest_preorder in Ha. rewrite leaf_forest_verdicts, Er, Ew, Ea in Hv.
    rewrite leaf_forest_leaves in Hw. exists arr', nexts', st2. split_and!; try done.
    intros b Hb. rewrite (Hw b Hb), Ew. f_equal. apply Eo. intros ->. apply NoDup_cons in Hnd as [Hni _]. done.
Qed.

(** When the timer of a group expires before the datagram is complete, its node leaves the table,
    every buffer of the group is given back once with its verdict (fragments to the ACL entry,
    packets reassembled from fragments dropped), and the other groups stay as they are; an
    expiry whose timer was deleted meanwhile changes nothing. *)
Theorem timer_returns_group st live A k x d l F arr nexts fuel
    (Hi : reass_inv st live A) (HA : A !! k = Some (x, d, l))
    (HF : frepr (bufs st) F (nr_head d)) (Hl : l <> []) (Hfuel : IpReassForest.fsize F < Z.of_nat fuel) :
  exists st' arr' nexts',
    ip_reass_timer_step fuel (x, byte_hash k) arr nexts st
      = Some (st', arr', nexts', zip (preorder F) (verdicts TIMER_NEXT_ACL_ENTRY TIMER_NEXT_PKT_DROP F)) /\
    reass_inv st' (delete x live) (delete k A) /\ mem st' = mem st /\
    (forall t, t ∈ timers st' <-> t ∈ timers st /\ fst t <> x) /\
    ip_reass_timer_step fuel (0, byte_hash k) arr nexts st = Some (st, arr, nexts, []).
Proof.
  pose proof (node_nonzero _ _ _ _ _ _ _ Hi HA) as Hx.
  destruct (reass_inv_drop _ _ _ _ _ _ _ Hi HA) as (Hi1 & Eb & Em & Erd).
  destruct (ri_entry _ _ _ Hi _ _ _ _ HA) as (_ & Ed & _ & _ & Hg).
  unfold ip_reass_timer_step. rewrite decide_False by done. rewrite Ed.
  unfold drop_node in Hi1, Eb, Em, Erd. cbn [nodes table_ip_reass set_timers] in Hi1, Eb, Em, Erd.
  destruct (hashFreeNode (nodes st) (table_ip_reass st) x (byte_hash k)) as [N h].
  set (st1 := set_table N h _) in *.
  assert (HFn : F <> FNil).
  { apply (frepr_root _ _ _ HF). pose proof (go_chain _ _ _ Hg) as Hc.
    destruct l as [|b l]; [done|]. destruct Hc as (-> & ? & _). done. }
  destruct (split_on_fail_laid F 0 (nr_head d) (nr_interface_id d) TIMER_NEXT_ACL_ENTRY TIMER_NEXT_PKT_DROP
              arr nexts st1 fuel HFn) as (arr' & nexts' & st2 & E & Hs & Hv & _ & Hsh & _ & _ & Hm & Hn & Ht & Hrd & Hti);
    [done|done|].
  rewrite E. cbn [obind]. unfold all_pre, all_verdicts in *. cbn [total map concat] in *.
  rewrite !app_nil_r, !Z.add_0_r in *. eexists _, arr', nexts'. split_and!.
  - do 3 f_equal. rewrite <- Hs, <- Hv. apply enqueued_zip.
  - apply (reass_inv_frame st1); [done..| |done]. intros b _. cbn [bufs update_ip_reass_stat].
    unfold rec_of. by destruct (Hsh b) as [-> _].
  - done.
  - intros t. cbn [timers update_ip_reass_stat]. rewrite Hti. cbn [st1 timers set_table set_timers].
    unfold ip_reass_delete_timer. rewrite list_elem_of_filter. tauto.
  - by rewrite decide_True.
Qed.
End forward.

(** ** Witnesses *)

Lemma demo_delivered :
  exists st', deliver IPv4 12 demo_reass_cfg [(3, demo_answers); (1, demo_answers); (2, demo_answers)] demo_reass
      = Some (st', [(0, 0); (0, 0); (9, 0)]) /\
    reassembled demo_reass ∅ ∅ [1; 2; 3] 29 st' 9 100128 3 [3; 1; 2].
Proof.
  refine (reass_in_any_order_aux IPv4 demo_reass_cfg 12 demo_reass ∅ ∅ (fv_key (pkt_view IPv4 demo_reass 1))
           [1; 2; 3] 29 3 demo_answers [(1, demo_answers)] 2 demo_answers _ _ _ _ _ _ _ _ _ _ _ _ _ _).
  all: demo_delivery.
Qed.

Theorem verdict_reaches_fragments_witness :
  exists st', deliver IPv4 12 demo_reass_cfg [(3, demo_answers); (1, demo_answers); (2, demo_answers)] demo_reass
      = Some (st', [(0, 0); (0, 0); (9, 0)]) /\
    let w := with_arg 5 (IpReass.sf_wdata (bufs st').[9]) in
    exists arr' nexts' st2,
      split_frag_buffer 5 9 ∅ ∅ (set_wdata 9 w st') = Some (st2, arr', nexts', 4) /\
      segment arr' 0 4 = [9; 3; 1; 2] /\
      segment nexts' 0 4 = (if decide (ip_reass_output (rec_of (bufs st') 9) <> 0) then 0 else 1) :: [0; 0; 0] /\
      forall b, b ∈ [3; 1; 2] -> IpReass.sf_wdata (bufs st2).[b] = follow w (IpReass.sf_wdata (bufs st').[b]).
Proof.
  destruct demo_delivered as (st' & E & Hr). exists st'. split; [exact E|clear E].
  refine (verdict_reaches_fragments demo_reass st' ∅ ∅ [1; 2; 3] 29 9 100128 3 [3; 1; 2] 5 ∅ ∅ 5 Hr _ _ _ _ _).
  - discriminate.
  - discriminate.
  - repeat apply NoDup_cons_2; [..|by apply NoDup_nil_2]; intros Hin;
      repeat (apply elem_of_cons in Hin as [Hin|Hin]; [discriminate|]); by apply not_elem_of_nil in Hin.
  - intros b Hb; repeat (apply elem_of_cons in Hb as [->|Hb]; [vm_compute; reflexivity|]);
      by apply not_elem_of_nil in Hb.
  - cbn. lia.
Defined.

(** The timer of the group expires after two of the three fragments. *)
Lemma demo_two_waiting : exists st' d,
  deliver IPv4 12 demo_reass_cfg [(3, demo_answers); (1, demo_answers)] demo_reass = Some (st', [(0, 0); (0, 0)]) /\
  reass_inv st' (<[77 := byte_hash (fv_key (pkt_view IPv4 demo_reass 1))]> ∅)
    (<[fv_key (pkt_view IPv4 demo_reass 1) := (77, d, [3; 1])]> ∅) /\
  frepr (bufs st') (leaf_forest [3; 1]) (nr_head d).
Proof.
  destruct (first_step IPv4 demo_reass_cfg 12 demo_reass ∅ ∅ (fv_key (pkt_view IPv4 demo_reass 1)) [1; 2; 3] 29 77)
    with (b := 3) (an := demo_answers) as (st1 & E1 & Hw1); try demo_delivery; [apply list_elem_of_In; cbn; tauto|].
  destruct (wait_step IPv4 demo_reass_cfg 12 demo_reass ∅ ∅ (fv_key (pkt_view IPv4 demo_reass 1)) [1; 2; 3] 29 77)
    with (st := st1) (l := [3]) (b := 1) (an := demo_answers) (c := 2) (rest := @nil Z)
    as (st2 & E2 & Hw2); try demo_delivery.
  destruct (wt_inv _ _ _ _ _ _ _ _ _ Hw2) as (d & Hi & _). exists st2, d. split_and!.
  - cbn [deliver]. rewrite E1. cbn [obind]. rewrite E2. done.
  - exact Hi.
  - destruct (ri_entry _ _ _ Hi (fv_key (pkt_view IPv4 demo_reass 1)) 77 d [3; 1]) as (_ & _ & _ & _ & Hg);
      [apply lookup_insert_eq|].
    apply leaf_forest_repr; [apply (go_chain _ _ _ Hg)|]. intros b Hb.
    destruct (wt_rec _ _ _ _ _ _ _ _ _ Hw2 b Hb) as (_ & _ & _ & Ef).
    rewrite (wt_wdata _ _ _ _ _ _ _ _ _ Hw2).
    assert (El : is_reass_pkt (IpReass.sf_wdata (bufs demo_reass).[b]) = false).
    { repeat (apply elem_of_cons in Hb as [->|Hb]; [vm_compute; reflexivity|]). by apply not_elem_of_nil in Hb. }
    split; [by apply Ef|done].
Qed.

Theorem timer_returns_group_witness : exists st1 d,
  deliver IPv4 12 demo_reass_cfg [(3, demo_answers); (1, demo_answers)] demo_reass = Some (st1, [(0, 0); (0, 0)]) /\
  exists st' arr' nexts',
    ip_reass_timer_step 3 (77, byte_hash (fv_key (pkt_view IPv4 demo_reass 1))) ∅ ∅ st1
      = Some (st', arr', nexts', [(3, 0); (1, 0)]) /\
    reass_inv st' (delete 77 (<[77 := byte_hash (fv_key (pkt_view IPv4 demo_reass 1))]> ∅))
      (delete (fv_key (pkt_view IPv4 demo_reass 1)) (<[fv_key (pkt_view IPv4 demo_reass 1) := (77, d, [3; 1])]> ∅)) /\
    mem st' = mem st1 /\ (forall t, t ∈ timers st' <-> t ∈ timers st1 /\ fst t <> 77) /\
    ip_reass_timer_step 3 (0, byte_hash (fv_key (pkt_view IPv4 demo_reass 1))) ∅ ∅ st1 = Some (st1, ∅, ∅, []).
Proof.
  destruct demo_two_waiting as (st1 & d & E & Hi & HF). exists st1, d. split; [exact E|clear E].
  refine (timer_returns_group st1 _ _ _ 77 d [3; 1] (leaf_forest [3; 1]) ∅ ∅ 3 Hi _ HF _ _).
  - apply lookup_insert_eq.
  - discriminate.
  - vm_compute. reflexivity.
Defined.
